(* ===== verification/_CoqProject ===== *)
-Q . S2P
Prelude.v
Arguments.v
DelegatingLog.v
Recorder.v
Metrics.v
SchemeBuilder.v
Signals.v
CertWatcher.v
Paths.v
NetAddr.v
ClientConfig.v
TestProcess.v
TinyCA.v
ControlPlane.v
ControlPlaneFacts.v
Objects.v
FakeInformers.v
ZapOptions.v
Authentication.v
Options.v
Client.v
Conversion.v
WebhookServer.v
EnvtestCRD.v
EnvtestCRDFacts.v
EnvtestCRDProtocol.v
EnvtestWebhook.v
EnvtestInstallSamples.v
EnvtestServer.v
EnvtestServerFacts.v
EnvtestServerSamples.v
RestMapper.v
RestMapperCalls.v
RestClient.v
RestClientFacts.v
Samples.v
RestSamples.v
FakeClient.v
FakeStore.v
Patch.v
Controllerutil.v
Finalizer.v
Predicates.v
Handlers.v
Controller.v
ControllerStop.v
Source.v
ManagerOptions.v
Builder.v
Manager.v
Regex.v
Versions.v
EnvtestStore.v
EnvtestStoreFacts.v
EnvtestRemote.v
EnvtestRemoteFacts.v
EnvtestEnv.v
EnvtestEnvFacts.v
EnvtestSamples.v
Admission.v
Healthz.v
CacheReader.v
MultiNamespaceCache.v
InformersMap.v
ListWatch.v
CacheSync.v
CacheOptions.v
LeaderElection.v
Inject.v
Cluster.v
ClusterSamples.v
ManagerNew.v
WebhookInjection.v
ManagerSamples.v
ManagerStop.v
ManagerServers.v
Examples.v
ControllerSamples.v
