(* ===== verification/Prelude.v ===== *)
(** * controller-runtime: verification development

    A model of controller-runtime, the Go library that Kubernetes controllers
    are built with, and of the theorems that make its parts correct.  The
    definitions follow the code under src/, function by function; each keeps
    the name it has there, with the receiver's type in front where Go allows
    the same name twice.

    ** The program

    A _manager_ (pkg/manager) owns a cache, clients and a list of _runnables_,
    most of them _controllers_.  A controller (pkg/internal/controller) watches
    _sources_ (pkg/source); the events of a source pass _predicates_
    (pkg/predicate), and an _event handler_ (pkg/handler) turns what is left
    into requests on a rate-limited work queue.  Workers take requests off the
    queue and call the user's reconciler, which reads and writes the cluster
    through a _client_ (pkg/client) and often uses the helpers of
    pkg/controller/controllerutil and pkg/finalizer.  Webhooks (pkg/webhook)
    and health endpoints (pkg/healthz) answer HTTP requests; tests use a fake
    client (pkg/client/fake).  The client that talks to an API server
    (pkg/client) keeps REST clients and mappings by kind and asks a REST mapper
    that reloads itself (pkg/client/apiutil).  The tool setup-envtest
    (tools/setup-envtest) downloads the binaries tests run against, chosen by
    version expressions, into a store on disk.

    ** Files

    In the order of their dependencies; the theorems named are the main ones.

    - Prelude (this file): Go's errors, fallible results, panics, the order of
      [range] over a map, machine integers, [strconv], strings, lists.
    - Arguments: the arguments of test processes
      (internal/testing/process/arguments.go): [AsStrings_spec],
      [flags_roundtrip].
    - Paths, NetAddr: paths and environment variables; hosts, ports and the ports
      that are handed out (internal/testing/addr): [ports_not_reused].
    - ClientConfig: where client configuration comes from (client/config):
      [configuration_precedence].
    - TestProcess: binaries and processes of tests (internal/testing/process):
      [restarted_process_not_stopped], and [Start_once] and [Stop_once], which
      ControlPlaneFacts is proved with, over the laws of the class ProcessLaws.
    - TinyCA: the certificate authority (internal/testing/certs):
      [certificates_distinct].
    - ControlPlane, ControlPlaneFacts: etcd, the API server, authentication,
      kubectl and the control plane (internal/testing/controlplane):
      [control_plane_processes].
    - DelegatingLog: the loggers that wait for the real one, as promises on a
      heap with the interleavings of their users (pkg/log/deleg.go, log.go), the
      null logger and the warning handler: [first_logger_reaches_all],
      [fulfilling_ends].
    - Recorder: the provider of event recorders, its lazy recorders and its stop,
      as a step relation (pkg/internal/recorder): [no_event_after_shutdown],
      [events_and_stops_end].
    - Metrics: the collectors, their registration and the adapters of client-go
      (pkg/metrics, internal/controller/metrics, webhook/internal/metrics):
      [inits_register_all], [providers_apart].
    - SchemeBuilder: builders of schemes, closures on a heap (pkg/scheme):
      [builder_adds].
    - Signals: the signal handler (manager/signals): [signals_stop_then_exit].
    - CertWatcher: the watcher of certificate files (pkg/certwatcher):
      [certificate_is_last_good].
    - Objects: object keys, metadata, kinds, typed and unstructured objects,
      [GVKForObject] (pkg/client/object.go, apiutil/apimachinery.go,
      pkg/reconcile).
    - FakeInformers: caches and informers for tests (cache/informertest,
      controller/controllertest): [fake_events_reach_handlers].
    - ZapOptions: the set-up of zap, its flags and the encoder of objects
      (pkg/log/zap): [levelFlag_wraps].
    - Authentication: authentication webhooks (webhook/authentication):
      [authenticated_only_by_handler].
    - Options: the options of all client calls and their conversion into raw
      API options, the pointer they share with the caller modelled as a store
      (pkg/client/options.go): [AsListOptions_spec].
    - Client: the client interface as a record of operations over a world, and
      the clients that wrap another one (namespaced_client.go, dryrun.go,
      split.go): [namespacedClient_confines], [dryRunClient_enforces_dry_run],
      [delegatingClient_routes].
    - Conversion: the conversion webhook (webhook/conversion):
      [IsConvertible_routes], [conversion_roundtrip], [conversion_review_answer].
    - WebhookServer: registration, injection and start of the webhook server and
      the paths a webhook builder registers (webhook/server.go,
      builder/webhook.go): [Start_serves_as_configured],
      [hooks_served_and_injected_once], [webhooks_first_come].
    - EnvtestCRD, EnvtestCRDFacts, EnvtestCRDProtocol: reading, merging, changing,
      creating, awaiting and removing the CRDs of a test environment
      (envtest/crd.go, helper.go).  Creation is verified request by request
      against any API server, conflicts and changed objects included
      ([CreateCRDs_installs]), and against one that is a store
      ([CreateCRDs_stores], class ClusterStore); further
      [WaitForCRDs_waits], [renderCRDs_last_definition],
      [conversion_webhooks_enabled].
    - EnvtestWebhook: the webhook configurations of a test environment
      (envtest/webhook.go): [createWebhooks_installs],
      [WaitForWebhooks_polls_once].
    - EnvtestInstallSamples: a cluster, files and contents that satisfy the
      classes of these files, and witnesses.
    - EnvtestServer, EnvtestServerFacts, EnvtestServerSamples: the test
      environment (envtest/server.go), whose webhook options are served by
      TinyCA, TestProcess and NetAddr: [control_plane_retried],
      [stop_reaches_plane], [stop_after_failed_start_panics], [scheme_unused].
    - RestMapper: the dynamic REST mapper with its limiter and lazy discovery
      (apiutil/dynamicrestmapper.go), one call at a time:
      [dynamic_mapper_call], [lazy_init_failure_is_permanent].
    - RestMapperCalls: overlapping calls of it at every lock, unlock, question
      and discovery: [overlapping_calls_all_answered],
      [overlapping_calls_bound_reloads], [alone_is_the_method].
    - RestClient, RestClientFacts: the client of the API server (client.go,
      client_cache.go, typed_client.go, unstructured_client.go,
      metadata_client.go, watch.go), its requests going to the class RestAPI:
      [client_caches_refine_recomputation] (for mappers that keep what they
      found, class StableMapper), [requests_address_the_resource],
      [kinds_survive], [watch_marks_shared_raw_options]; and what the clients
      of Client promise, on the wire: [dry_run_on_the_wire],
      [namespaced_requests_on_the_wire].
    - Samples, RestSamples: a scheme, a mapper, an API server that logs its
      requests and objects to evaluate definitions on.
    - FakeClient: the versioned tracker and the fake client (fake/client.go),
      over client-go's object tracker behind the class ObjectTracker:
      [versionedTracker_no_lost_update], [fake_delete_waits_for_finalizers],
      [fake_client_objects_versioned].
    - FakeStore: a tracker that satisfies the class, and the proof that the fake
      client is a StoreClient, the interface Controllerutil is verified
      against.
    - Patch: the three kinds of patches (patch.go).
    - Controllerutil: owner references, [CreateOrUpdate], [CreateOrPatch],
      finalizer lists: [SetControllerReference_one_controller],
      [CreateOrUpdate_converges] (against StoreClient),
      [create_or_reports_writes], [finalizer_list_laws].
    - Finalizer: the registry of finalizers, for every order of its map:
      [Finalize_runs], [Finalize_registers].
    - Predicates, Handlers: events, predicates and combinators, event handlers
      over a WorkQueue, the adapter from informers:
      [predicates_combine], [builtin_predicates_spec],
      [EnqueueRequestForOwner_spec], [EnqueueRequestsFromMapFunc_spec],
      [informer_to_queue].
    - Controller: [Watch], [Start] with its mutex, processing of one item, and
      the interleavings of the workers, over work queues that satisfy
      WorkQueueLaws: [Start_runs_watches_in_order], [process_request_protocol],
      [no_concurrent_reconciles], [second_Start_blocks_the_controller].
    - ControllerStop: the end of a controller: the queue is shut down, the workers
      drain it and [Start] waits for them, over queues that satisfy ShutDownLaws:
      [workers_drain_and_end], [Start_returns_when_workers_are_gone].
    - Source: the channel source as a step relation of its goroutines:
      [channel_delivers_in_order]; the kind and informer sources.
    - ManagerOptions: options, configuration file, defaults:
      [AndFrom_precedence], [AndFrom_panics_without_leader_election].
    - Builder: the controller builder (builder/controller.go, options.go) and
      the construction of a controller (controller/controller.go):
      [Build_watches_in_order], [Build_refuses].
    - Manager: the lists of runnables and the interleavings of [Add], of the
      goroutines [Start] launches and of the stop: [manager_start_order],
      [ordered_starts_once], [unordered_start_runs_twice],
      [late_cluster_never_started].
    - Regex, Versions: regular expressions with groups and their search, the
      version expressions and archive names: [FromExpr_spec],
      [FromExpr_selects_interval], [FromExpr_roundtrip],
      [ExtractWithPlatform_inverts].
    - EnvtestStore, EnvtestStoreFacts: the store of setup-envtest over the class
      StoreFS of file systems, and its refinement of a finite map on those that
      work (class WorkingFS): [store_refines_map].
    - EnvtestRemote, EnvtestRemoteFacts: the storage client:
      [ListVersions_newest_first].
    - EnvtestEnv, EnvtestEnvFacts: the environment and the workflows in a state
      monad whose computations may exit or panic, with weakest preconditions:
      [EnsureVersionIsSet_newest], [Fetch_all_or_nothing], [Use_installs],
      [PrintInfo_env_is_one_word].
    - EnvtestSamples: a file system in memory, a storage server, witnesses.
    - Admission: admission webhooks: [chains_stop_at_first_refusal],
      [ServeHTTP_answers_once], [validatingHandler_spec],
      [failing_writer_never_returns], [nested_chain_drops_patches].
    - Healthz: health endpoints: [serveAggregated_report].
    - CacheReader: reads of the cache from client-go's indexer (class Indexer with
      IndexerLaws) and the field indices: [CacheReader_Get_spec],
      [CacheReader_List_spec], [indexFunc_writes_into_shared_slice].
    - MultiNamespaceCache: the cache of several namespaces:
      [multi_List_all_namespaces], [multi_cache_uses_all_caches].
    - InformersMap: the informers of a cache and the interleavings of the calls
      that make and start them: [one_informer_per_kind].
    - ListWatch, CacheSync, CacheOptions: what the informers of a cache list and
      watch, by Go type, namespace and selector (cache/internal/selector.go,
      informers_map.go, deleg_map.go); the wait for their sync; and the construction
      of caches from options (cache/cache.go): [cache_requests_restricted],
      [WaitForCacheSync_waits], [BuilderWithOptions_ignores_selectors].
    - LeaderElection: resource locks (pkg/leaderelection): [replicas_compete].
    - Inject, Cluster: the interfaces through which dependencies are injected
      (runtime/inject), clusters and their clients (pkg/cluster):
      [cluster_client_routes], [given_broadcaster_survives].
    - ManagerNew: options, listeners and construction of a manager, injection and
      the webhook server on demand: [manager_New_as_configured],
      [SetFields_in_order], [failed_New_leaves_listener].
    - WebhookInjection: how decoders and dependencies reach the handlers of
      webhooks: [decoders_reach_all].
    - ManagerStop: a manager's life from [Start] to its return as a step relation of
      its goroutines, with the mutex, the channel of errors, the wait group, the
      grace period and the leader elector: [stop_can_complete],
      [recorder_stopped_last], [elector_error_hangs_Start],
      [runnable_started_after_return].
    - ManagerServers: what the manager's servers serve at which paths:
      [extra_metrics_served], [probes_served].
    - Examples: a work queue that keeps WorkQueueLaws, and the theorems with
      hypotheses at concrete inputs (those of the self-contained files are at
      the end of these files); ClusterSamples, ManagerSamples, ControllerSamples:
      the same for the files they are named after.

    ** How the code is modelled

    - An [(A, error)] pair is a [result] or carries an [option error]; a panic
      is the [Panicked] case of an [outcome].  Where the code returns a
      meaningful value next to an error, or writes through a pointer before
      failing, the model returns both.
    - State is passed explicitly: a call takes a world and returns it.  The
      world of a client, of a reconciler or of a webhook handler is a type
      parameter, so a theorem holds for every behaviour of the other side that
      meets its hypotheses.
    - Objects passed by pointer and written by the callee are returned.  Where
      sharing matters (the raw options, the object [CreateOrUpdate] compares)
      the model keeps the store or both versions.
    - Concurrency is a step relation (workers of a controller, goroutines of a
      channel source, sections of the manager under its mutex, the whole life of a
      manager and of a controller); theorems about it quantify over every
      interleaving, by invariants of the relation.  That a stop completes is stated
      as a path to the return from every reachable state (ManagerStop) or as a bound
      on the steps that are left (ControllerStop).
    - [range] over a map uses an arbitrary enumeration (class MapRange).
    - Resource versions are [uint64]s with wrap-around, version numbers [int]s
      of 64 bits; other integers are in [Z] and never grow.
    - Code that is not in this repository is a parameter: client-go's tracker,
      work queue and indexer through their classes (ObjectTracker, WorkQueue with
      WorkQueueLaws and ShutDownLaws, Indexer with IndexerLaws, each with an
      instance), decoders, REST mappers, JSON
      patches, semantic equality, caches and informers as functions.

    Fuel: [RemoveFinalizer_fuel] gets one more than the length of the list,
    which [finalizer_list_laws] proves enough; [writeAdmissionResponse] recurses
    without a bound in the code, one unit is enough when the writer works and
    none is when it never does (both proved); the listing of a bucket gets one
    step for each page, which [ListVersions_newest_first] proves enough, and a
    server that never stops giving page tokens is the case in which the code
    does not return; [pollURLUntilOK], which polls until it is told to stop, gets
    one for each poll ([pollURLUntilOK_loop_polled]).  All other recursions are
    structural.

    ** What is not modelled

    Parsing of command-line flags; the HTTP servers themselves, TLS and the file
    system beyond the calls of the code; Prometheus's vectors and buckets; the jitter
    of resync periods; deep copies and other generated code, type aliases, the
    example programs and the stubs for tests that only keep a record (the fake
    resource lock): they have no logic of their own or their logic is that of the
    libraries they call.  In ManagerStop a runnable is a number, as which one is
    started when is Manager's, and [OnStoppedLeading] is the default one.  Log
    messages, tracing and [String] methods for logs are left out throughout. *)

From Stdlib Require Export ZArith Lia.
From Stdlib Require Import Ascii DecimalString DecimalN.
From stdpp Require Import sorting.
From stdpp Require Export base tactics option numbers strings sets relations gmap list.

Open Scope string_scope.
Open Scope list_scope.

(** ** Go errors and fallible results

    An [error] value of Go.  [ErrorString] is [errors.New] and [fmt.Errorf]
    without [%w]; [ErrorWrap] is [fmt.Errorf] with [%w]; [StatusError] is a
    Kubernetes API status error, told apart by its reason.  A nil error is
    [None] in an [option error]. *)
Inductive error : Type :=
  | ErrorString (msg : string)
  | ErrorWrap (msg : string) (cause : error)
  | StatusError (reason msg : string).

#[export] Instance error_eq_dec : EqDecision error.
Proof. solve_decision. Defined.

(** [err.Error()]; where the code wraps, the cause comes last, after a colon. *)
Fixpoint error_text (e : error) : string :=
  match e with
  | ErrorString msg => msg
  | ErrorWrap msg cause => (msg +:+ ": " +:+ error_text cause)%string
  | StatusError _ msg => msg
  end.

(** [%v] of an error that may be nil. *)
Definition percent_v (err : option error) : string :=
  match err with Some err => error_text err | None => "<nil>" end.

(** [%q] of a string without special characters. *)
Definition dquote : string := String "034"%char "".
Definition quoted (s : string) : string := (dquote +:+ s +:+ dquote)%string.

(** A Go function that returns [(A, error)] where the value is meaningless
    when the error is not nil. *)
Inductive result (A : Type) : Type :=
  | Ok (a : A)
  | Err (e : error).
Arguments Ok {A} _.
Arguments Err {A} _.

#[export] Instance result_ret : MRet result := λ A a, Ok a.
#[export] Instance result_bind : MBind result := λ A B f r,
  match r with Ok a => f a | Err e => Err e end.

Definition is_ok {A} (r : result A) : bool :=
  match r with Ok _ => true | Err _ => false end.

(** A Go function that returns or panics. *)
Inductive outcome (A : Type) : Type :=
  | Returned (a : A)
  | Panicked (msg : string).
Arguments Returned {A} _.
Arguments Panicked {A} _.

#[export] Instance outcome_ret : MRet outcome := λ A a, Returned a.
#[export] Instance outcome_bind : MBind outcome := λ A B f r,
  match r with Returned a => f a | Panicked m => Panicked m end.

(** ** Proof automation *)

Create HintDb ctrl discriminated.

(** Split every [match], [if] and [decide] of the goal and the context, then
    clean up equations. *)
Ltac case_all :=
  repeat (case_match || case_decide || case_bool_decide); simplify_eq/=.

Ltac crush := repeat (progress (simplify_eq/= || case_match || case_decide)); eauto with ctrl.

Lemma result_bind_Ok {A B} (f : A → result B) r b :
  r ≫= f = Ok b ↔ ∃ a, r = Ok a ∧ f a = Ok b.
Proof. destruct r as [a|e]; cbn; naive_solver. Qed.

Lemma result_bind_Err {A B} (f : A → result B) r e :
  r ≫= f = Err e ↔ r = Err e ∨ ∃ a, r = Ok a ∧ f a = Err e.
Proof. destruct r as [a|e']; cbn; naive_solver. Qed.

Lemma outcome_bind_Returned {A B} (f : A → outcome B) r b :
  r ≫= f = Returned b ↔ ∃ a, r = Returned a ∧ f a = Returned b.
Proof. destruct r as [a|e]; cbn; naive_solver. Qed.

(** ** Go's [range] over a map

    The order in which [range] visits a Go map is unspecified: it is some
    enumeration of the entries, each visited once.  Definitions that range
    over a map take the enumeration as an instance of this class, so a
    theorem about them holds for every order. *)
Class MapRange (K V : Type) `{Countable K} := {
  map_range : gmap K V → list (K * V);
  map_range_perm : ∀ m, map_range m ≡ₚ map_to_list m;
}.

(** One order, used to evaluate definitions on concrete inputs. *)
Definition some_range (K V : Type) `{Countable K} : MapRange K V :=
  {| map_range := map_to_list; map_range_perm := λ m, reflexivity _ |}.

Section map_range.
Context `{Countable K} {V : Type} `{!MapRange K V}.
Implicit Types m : gmap K V.

Lemma elem_of_map_range m k v : (k, v) ∈ map_range m ↔ m !! k = Some v.
Proof. rewrite map_range_perm. apply elem_of_map_to_list. Qed.

Lemma NoDup_map_range_keys m : NoDup (map_range m).*1.
Proof. rewrite map_range_perm. apply NoDup_fst_map_to_list. Qed.

Lemma elem_of_map_range_keys m k : k ∈ (map_range m).*1 ↔ is_Some (m !! k).
Proof.
  rewrite list_elem_of_fmap. split.
  - intros ([k' v] & -> & Hin%elem_of_map_range). eauto.
  - intros [v Hv]. exists (k, v). by rewrite elem_of_map_range.
Qed.
End map_range.

(** ** Machine integers *)

Definition two64 : Z := (2 ^ 64)%Z.
Definition int64_min : Z := (- 2 ^ 63)%Z.
Definition int64_max : Z := (2 ^ 63 - 1)%Z.

(** [uint64] arithmetic wraps around. *)
Definition uint64_add (x y : Z) : Z := ((x + y) mod two64)%Z.

(** ** Decimal numbers ([strconv]) *)

(** [strconv.FormatUint(n, 10)]. *)
Definition FormatUint (n : Z) : string :=
  NilZero.string_of_uint (N.to_uint (Z.to_N n)).

Definition parse_digits (s : string) : option Z :=
  d ← NilZero.uint_of_string s; Some (Z.of_N (N.of_uint d)).

(** [strconv.ParseUint(s, 10, 64)]: digits only, and in range. *)
Definition ParseUint (s : string) : option Z :=
  z ← parse_digits s; if decide (z < two64)%Z then Some z else None.

(** [strconv.Itoa]. *)
Definition Itoa (z : Z) : string :=
  if decide (z < 0)%Z then String "-"%char (FormatUint (- z)) else FormatUint z.

(** [strconv.Atoi] for a 64-bit [int]: an optional sign, digits, in range. *)
Definition Atoi (s : string) : option Z :=
  z ← match s with
      | String "+"%char r => parse_digits r
      | String "-"%char r => Z.opp <$> parse_digits r
      | _ => parse_digits s
      end;
  if decide (int64_min ≤ z ≤ int64_max)%Z then Some z else None.

Lemma N_to_uint_not_nil n : N.to_uint n ≠ Decimal.Nil.
Proof.
  intros Hn. pose proof (DecimalN.Unsigned.of_to n) as Hof. rewrite Hn in Hof.
  cbn in Hof. subst n. discriminate Hn.
Qed.

Lemma parse_digits_FormatUint z :
  (0 ≤ z)%Z → parse_digits (FormatUint z) = Some z.
Proof.
  intros Hz. unfold parse_digits, FormatUint.
  rewrite NilZero.usu by apply N_to_uint_not_nil. cbn.
  rewrite DecimalN.Unsigned.of_to. f_equal. lia.
Qed.
#[export] Hint Resolve parse_digits_FormatUint : ctrl.

Lemma ParseUint_FormatUint z :
  (0 ≤ z < two64)%Z → ParseUint (FormatUint z) = Some z.
Proof.
  intros Hz. unfold ParseUint. rewrite parse_digits_FormatUint by lia. cbn.
  case_decide; [done|lia].
Qed.

Lemma FormatUint_inj x y :
  (0 ≤ x)%Z → (0 ≤ y)%Z → FormatUint x = FormatUint y → x = y.
Proof.
  intros Hx Hy Heq.
  apply (f_equal parse_digits) in Heq.
  rewrite !parse_digits_FormatUint in Heq by done. congruence.
Qed.

Lemma FormatUint_not_empty z : FormatUint z ≠ "".
Proof. unfold FormatUint. by destruct (N.to_uint (Z.to_N z)). Qed.

(** ** Lists *)

Section lists.
Context {A : Type}.
Implicit Types l : list A.

Lemma forallb_Forall (f : A → bool) l : forallb f l = true ↔ Forall (λ x, f x = true) l.
Proof. by rewrite forallb_forall, List.Forall_forall. Qed.

Lemma existsb_Exists (f : A → bool) l : existsb f l = true ↔ Exists (λ x, f x = true) l.
Proof. by rewrite existsb_exists, List.Exists_exists. Qed.

Lemma filter_all (P : A → Prop) `{!∀ x, Decision (P x)} l : Forall P l → filter P l = l.
Proof. induction 1 as [|x l Hx _ IH]; [done|]. by rewrite filter_cons_True, IH. Qed.

Lemma filter_ext_in (P Q : A → Prop) `{!∀ x, Decision (P x), !∀ x, Decision (Q x)} l :
  (∀ x, x ∈ l → P x ↔ Q x) → filter P l = filter Q l.
Proof.
  induction l as [|x l IH]; intros Heq; [done|].
  rewrite !filter_cons, IH by (intros y Hy; apply Heq; by right).
  pose proof (Heq x ltac:(by left)). repeat case_decide; tauto.
Qed.

(** The first element of a list without a property is determined. *)
Lemma first_failing (P : A → Prop) l1 l1' x x' l2 l2' :
  l1 ++ x :: l2 = l1' ++ x' :: l2' → Forall P l1 → Forall P l1' → ¬ P x → ¬ P x' → x = x'.
Proof.
  revert l1'. induction l1 as [|y l1 IH]; intros [|y' l1'] Heq H1 H1' Hx Hx';
    injection Heq as -> Heq; try done.
  - by apply Forall_cons in H1' as [? _].
  - by apply Forall_cons in H1 as [? _].
  - apply Forall_cons in H1 as [_ ?]. apply Forall_cons in H1' as [_ ?]. eauto.
Qed.

Lemma forallb_negb (f : A → bool) l :
  forallb f l = negb (existsb (λ x, negb (f x)) l).
Proof. induction l as [|x l IH]; cbn; [done|]. rewrite IH. by destruct (f x). Qed.

Lemma existsb_negb (f : A → bool) l :
  existsb f l = negb (forallb (λ x, negb (f x)) l).
Proof. induction l as [|x l IH]; cbn; [done|]. rewrite IH. by destruct (f x). Qed.
End lists.

(** ** Strings ([strings.HasSuffix], [strings.TrimSuffix], slicing) *)

Definition str_take (n : nat) (s : string) : string := String.substring 0 n s.

(** The suffix of [s] as long as [suffix] is [suffix]. *)
Definition HasSuffix (s suffix : string) : bool :=
  bool_decide (String.length suffix ≤ String.length s)%nat &&
  bool_decide (String.substring (String.length s - String.length suffix) (String.length suffix) s = suffix).

Definition TrimSuffix (s suffix : string) : string :=
  if HasSuffix s suffix then str_take (String.length s - String.length suffix) s else s.

Lemma str_app_cons a (s t : string) : String a s +:+ t = String a (s +:+ t).
Proof. done. Qed.

Lemma str_app_inv_l (s t u : string) : s +:+ t = s +:+ u → t = u.
Proof. induction s as [|a s IH]; [done|]. rewrite !str_app_cons. intros [= ?]. auto. Qed.

Lemma str_app_assoc (s t u : string) : (s +:+ t) +:+ u = s +:+ (t +:+ u).
Proof. induction s as [|a s IH]; [done|]. rewrite !str_app_cons. by rewrite IH. Qed.

Lemma str_app_nil_r (s : string) : s +:+ "" = s.
Proof. induction s as [|a s IH]; [done|]. by rewrite str_app_cons, IH. Qed.

Lemma str_app_length (s t : string) :
  String.length (s +:+ t) = (String.length s + String.length t)%nat.
Proof. induction s as [|a s IH]; [done|]. rewrite str_app_cons. cbn. by rewrite IH. Qed.

Lemma str_app_inv_r (s t u : string) : s +:+ u = t +:+ u → s = t.
Proof.
  revert t. induction s as [|a s IH]; intros [|b t] Heq; [done|..].
  - apply (f_equal String.length) in Heq. rewrite !str_app_length in Heq. cbn in Heq. lia.
  - apply (f_equal String.length) in Heq. rewrite !str_app_length in Heq. cbn in Heq. lia.
  - rewrite !str_app_cons in Heq. injection Heq as -> Heq. f_equal. by apply IH.
Qed.

Lemma substring_all (s : string) : String.substring 0 (String.length s) s = s.
Proof. induction s as [|a s IH]; cbn; congruence. Qed.

Lemma substring_app_l (s t : string) : String.substring 0 (String.length s) (s +:+ t) = s.
Proof.
  induction s as [|a s IH]; [by destruct t|].
  rewrite str_app_cons. cbn. by rewrite IH.
Qed.

Lemma substring_app_r (s t : string) n :
  String.substring (String.length s) n (s +:+ t) = String.substring 0 n t.
Proof. induction s as [|a s IH]; [done|]. by rewrite str_app_cons. Qed.

Lemma HasSuffix_app (s suffix : string) : HasSuffix (s +:+ suffix) suffix = true.
Proof.
  unfold HasSuffix. rewrite str_app_length, Nat.add_sub.
  rewrite substring_app_r, substring_all, !bool_decide_eq_true_2 by (done || lia). done.
Qed.

Lemma TrimSuffix_app (s suffix : string) : TrimSuffix (s +:+ suffix) suffix = s.
Proof.
  unfold TrimSuffix, str_take.
  rewrite HasSuffix_app, str_app_length, Nat.add_sub.
  apply substring_app_l.
Qed.

(** [strings.ToLower] of ASCII text. *)
Definition lower_char (a : ascii) : ascii :=
  let n := nat_of_ascii a in
  if decide (65 ≤ n ≤ 90)%nat then ascii_of_nat (n + 32) else a.
Fixpoint ToLower (s : string) : string :=
  match s with EmptyString => "" | String a s => String (lower_char a) (ToLower s) end.

Example ToLower_kind : ToLower "ReplicaSet" = "replicaset".
Proof. reflexivity. Qed.

(** [sort.Strings]. *)
Definition sort_Strings (l : list string) : list string := merge_sort String.le l.

Lemma sort_Strings_sorted l : StronglySorted String.le (sort_Strings l).
Proof. apply (StronglySorted_merge_sort String.le). Qed.

Lemma sort_Strings_Permutation l : sort_Strings l ≡ₚ l.
Proof. apply merge_sort_Permutation. Qed.

(** Sorting does not depend on the order it starts from. *)
Lemma sort_Strings_unique l l' : StronglySorted String.le l' → l ≡ₚ l' → sort_Strings l = l'.
Proof.
  intros Hs Hp. apply (StronglySorted_unique String.le); [apply sort_Strings_sorted|done|].
  by rewrite sort_Strings_Permutation.
Qed.
