(* ===== verification/Arguments.v ===== *)
(** * Structured command-line arguments (src/pkg/internal/testing/process/arguments.go)

    The arguments of the processes the test environment starts: flags that keep,
    extend, replace or suppress default values, their sorted rendering, and the
    reading of rendered flags back into structured form.  Whether a Go slice is
    nil decides whether a flag is passed, so the model keeps the difference. *)

From Stdlib Require Import Ascii.
From stdpp Require Import sorting.
From S2P Require Export Prelude.

(** ** Slices of strings, nil or not *)

Definition Slice : Type := option (list string).

Definition elems (s : Slice) : list string := default [] s.

(** [append(s, vals...)]: only appending nothing to nil gives nil. *)
Definition append (s : Slice) (vals : list string) : Slice :=
  match s, vals with
  | None, [] => None
  | _, _ => Some (elems s ++ vals)
  end.

(** What a variadic function gets for the arguments of a call. *)
Definition variadic (vals : list string) : Slice := append None vals.

(** ** Arguments *)

(** The implementations of the interface [Arg] in this package. *)
Inductive Arg : Type :=
  | userArg (vals : Slice)
  | defaultedArg (vals : Slice)
  | dontPassArg
  | passAsNameArg
  | FuncArg (f : Slice → Slice).

Definition DontPass : Arg := dontPassArg.
Definition PassAsName : Arg := passAsNameArg.

Definition Arg_Append (a : Arg) (vals : Slice) : Arg :=
  match a with
  | userArg s => userArg (append s (elems vals))
  | defaultedArg s => defaultedArg (append s (elems vals))
  | dontPassArg => userArg vals
  | passAsNameArg => passAsNameArg
  | FuncArg f => FuncArg f
  end.

Definition Arg_Get (a : Arg) (defaults : Slice) : Slice :=
  match a with
  | userArg s => s
  | defaultedArg s => append (append None (elems defaults)) (elems s)
  | dontPassArg => None
  | passAsNameArg => Some []
  | FuncArg f => f defaults
  end.

(** The map [values] of an [Arguments]. *)
Abbreviation Arguments := (gmap string Arg).
Abbreviation Defaults := (gmap string Slice).

Definition EmptyArguments : Arguments := ∅.

Definition Get (a : Arguments) (key : string) : Arg :=
  match a !! key with Some vals => vals | None => defaultedArg None end.

Definition Enable (key : string) (a : Arguments) : Arguments := <[key := PassAsName]> a.
Definition Disable (key : string) (a : Arguments) : Arguments := <[key := DontPass]> a.

Definition Append (key : string) (values : Slice) (a : Arguments) : Arguments :=
  let vals := match a !! key with Some vals => vals | None => defaultedArg (Some []) end in
  <[key := Arg_Append vals values]> a.

Definition AppendNoDefaults (key : string) (values : Slice) (a : Arguments) : Arguments :=
  let vals := match a !! key with Some vals => vals | None => userArg (Some []) end in
  <[key := Arg_Append vals values]> a.

Definition Set_ (key : string) (values : Slice) (a : Arguments) : Arguments := <[key := userArg values]> a.
Definition SetRaw (key : string) (val : Arg) (a : Arguments) : Arguments := <[key := val]> a.

(** ** Rendering *)

(** The switch in the loop of [AsStrings]. *)
Definition flags (key : string) (vals : Slice) : list string :=
  match vals with
  | None => []
  | Some [] => ["--" +:+ key]
  | Some vals => (λ val, "--" +:+ key +:+ "=" +:+ val) <$> vals
  end.

(** A missing entry of a Go map is its zero value. *)
Definition default_of (defaults : Defaults) (key : string) : Slice :=
  match defaults !! key with Some s => s | None => None end.

Definition passed (a : Arguments) (defaults : Defaults) (key : string) : list string :=
  flags key (Arg_Get (Get a key) (default_of defaults key)).

Section rendering.
Context `{!MapRange string Arg} `{!MapRange string Slice}.

Definition keysInOrder (a : Arguments) (defaults : Defaults) : list string :=
  sort_Strings (filter (λ key, a !! key = None) (map_range defaults).*1 ++ (map_range a).*1).

Definition AsStrings (a : Arguments) (defaults : Defaults) : list string :=
  flat_map (passed a defaults) (keysInOrder a defaults).
End rendering.

(** ** Reading flags *)

(** [strings.SplitN(s, "=", 2)], if [s] contains the separator. *)
Fixpoint split_eq (s : string) : option (string * string) :=
  match s with
  | EmptyString => None
  | String c t =>
      if Ascii.eqb c "=" then Some ("", t)
      else match split_eq t with
           | Some (name, val) => Some (String c name, val)
           | None => None
           end
  end.

(** [strings.HasPrefix(arg, "--")], and what follows. *)
Definition after_dashes (arg : string) : option string :=
  match arg with
  | String "-" (String "-" rest) => Some rest
  | _ => None
  end.

(** The name and the value of an argument that starts with two dashes and
    contains an equals sign. *)
Definition as_flag (arg : string) : option (string * string) :=
  match after_dashes arg with Some rest => split_eq rest | None => None end.

Fixpoint SliceToArguments (sliceArgs : list string) (args : Arguments) : list string * Arguments :=
  match sliceArgs with
  | [] => ([], args)
  | arg :: more =>
      if decide (arg = "--") then (sliceArgs, args)
      else match as_flag arg with
           | None => let '(rest, args) := SliceToArguments more args in (arg :: rest, args)
           | Some (name, val) => SliceToArguments more (AppendNoDefaults name (variadic [val]) args)
           end
  end.

(** ** Templates ([html/template] is a parameter) *)

Section templates.
Context {Template Data : Type}.
Variable Parse : string → result Template.
Variable Execute : Template → Data → result string.
Context `{!MapRange string Arg} `{!MapRange string Slice}.

Fixpoint RenderTemplates (argTemplates : list string) (data : Data) : result (list string) :=
  match argTemplates with
  | [] => Ok []
  | arg :: more =>
      t ← Parse arg;
      text ← Execute t data;
      rendered ← RenderTemplates more data;
      Ok (text :: rendered)
  end.

Record TemplateDefaults := mkTemplateDefaults {
  td_Data : Data;
  td_Defaults : Defaults;
  td_MinimalDefaults : Defaults;
}.

(** All arguments and those that did not look like flags; and the structured
    arguments afterwards. *)
Definition TemplateAndArguments (templ : list string) (args : Arguments) (data : TemplateDefaults)
    : Arguments * result (list string * list string) :=
  match templ with
  | [] => (args, Ok (AsStrings args (td_Defaults data), []))
  | _ =>
      match RenderTemplates templ (td_Data data) with
      | Err err => (args, Err err)
      | Ok rendered =>
          let '(rest, args) := SliceToArguments rendered args in
          (args, Ok (AsStrings args (td_MinimalDefaults data) ++ rest, rest))
      end
  end.
End templates.

(** ** Facts *)

Lemma StronglySorted_filter {A} (R : A → A → Prop) (P : A → Prop) `{!∀ x, Decision (P x)} l :
  StronglySorted R l → StronglySorted R (filter P l).
Proof.
  induction 1 as [|x l Hl IH Hx]; [constructor|]. rewrite filter_cons. case_decide; [|done].
  constructor; [done|]. rewrite Forall_forall in *. intros y [_ Hy]%list_elem_of_filter. auto.
Qed.

Lemma append_append s l l' : append (append s l) l' = append s (l ++ l').
Proof. destruct s as [s|], l, l'; cbn; by rewrite ?app_nil_r, <- ?app_assoc. Qed.

Lemma elems_variadic l : elems (variadic l) = l.
Proof. by destruct l. Qed.

Lemma append_None l : append None l = match l with [] => None | _ => Some l end.
Proof. by destruct l. Qed.

(** Appending twice is appending all at once, whatever the argument is. *)
Lemma Arg_Append_twice x v1 v2 :
  Arg_Append (Arg_Append x (variadic v1)) (variadic v2) = Arg_Append x (variadic (v1 ++ v2)).
Proof.
  destruct x; cbn [Arg_Append]; rewrite ?elems_variadic, ?append_append; try done.
  unfold variadic. by rewrite append_append.
Qed.

Lemma flags_values key vals : vals ≠ [] →
  flags key (Some vals) = (λ val, "--" +:+ key +:+ "=" +:+ val) <$> vals.
Proof. by destruct vals. Qed.

Lemma flags_append_None key vals :
  flags key (append None vals) = (λ val, "--" +:+ key +:+ "=" +:+ val) <$> vals.
Proof. by destruct vals. Qed.

(** The flag [key] with the values given. *)
Abbreviation each key vals := ((λ val, "--" +:+ key +:+ "=" +:+ val) <$> vals).

Lemma passed_unset a d k : a !! k = None → passed a d k = each k (elems (default_of d k)).
Proof.
  intros Ha. unfold passed, Get. rewrite Ha. cbn [Arg_Get].
  rewrite append_append, flags_append_None. cbn. by rewrite app_nil_r.
Qed.

Lemma passed_other k x a d k' : k' ≠ k → passed (<[k := x]> a) d k' = passed a d k'.
Proof. intros. unfold passed, Get. by rewrite lookup_insert_ne. Qed.

Lemma passed_set k x a d : passed (<[k := x]> a) d k = flags k (Arg_Get x (default_of d k)).
Proof. unfold passed, Get. by rewrite lookup_insert_eq. Qed.

Section facts.
Context `{!MapRange string Arg} `{!MapRange string Slice}.
Implicit Types (a : Arguments) (d : Defaults).

Lemma keysInOrder_elem a d k : k ∈ keysInOrder a d ↔ is_Some (a !! k) ∨ is_Some (d !! k).
Proof.
  unfold keysInOrder. rewrite sort_Strings_Permutation, elem_of_app, list_elem_of_filter,
    !elem_of_map_range_keys, eq_None_not_Some.
  destruct (decide (is_Some (a !! k))); naive_solver.
Qed.

Lemma keysInOrder_NoDup a d : NoDup (keysInOrder a d).
Proof.
  unfold keysInOrder. rewrite sort_Strings_Permutation. apply NoDup_app; split_and!.
  - apply NoDup_filter, NoDup_map_range_keys.
  - intros k [Hn _]%list_elem_of_filter [v Hv]%elem_of_map_range_keys. congruence.
  - apply NoDup_map_range_keys.
Qed.

Lemma keysInOrder_sorted a d : StronglySorted String.le (keysInOrder a d).
Proof. apply sort_Strings_sorted. Qed.

(** The keys in order are determined by which keys there are. *)
Lemma keysInOrder_unique a d keys :
  NoDup keys → StronglySorted String.le keys →
  (∀ k, k ∈ keys ↔ is_Some (a !! k) ∨ is_Some (d !! k)) → keysInOrder a d = keys.
Proof.
  intros Hnd Hs Hk. apply (StronglySorted_unique String.le); [apply keysInOrder_sorted|done|].
  apply NoDup_Permutation; [apply keysInOrder_NoDup|done|].
  intros k. by rewrite keysInOrder_elem, Hk.
Qed.

(** Rendered arguments are the flags of each key that the arguments or the
    defaults have, in the order of the keys and whatever order the maps are
    ranged over in; an operation on a key leaves the flags of the others
    alone.  A key not set has one flag for each default value, a disabled one
    none, an enabled one its name, and one set the values it was set to; after
    [Append] the first time it has the defaults followed by the values, after
    [AppendNoDefaults] the values, and appending again adds to these as if all
    had been appended at once. *)
Theorem AsStrings_spec :
  (∀ a d, ∃ keys, NoDup keys ∧ StronglySorted String.le keys
     ∧ (∀ k, k ∈ keys ↔ is_Some (a !! k) ∨ is_Some (d !! k))
     ∧ AsStrings a d = flat_map (passed a d) keys)
  ∧ (∀ a d k vals op, op ∈ [Enable k; Disable k; Set_ k vals; Append k vals; AppendNoDefaults k vals] →
       ∀ k', k' ≠ k → passed (op a) d k' = passed a d k')
  ∧ (∀ a d k vals,
       passed (Enable k a) d k = ["--" +:+ k]
       ∧ passed (Disable k a) d k = []
       ∧ passed (Set_ k (variadic vals) a) d k = each k vals
       ∧ (a !! k = None →
            passed a d k = each k (elems (default_of d k))
            ∧ passed (Append k (variadic vals) a) d k = each k (elems (default_of d k) ++ vals)
            ∧ (vals ≠ [] → passed (AppendNoDefaults k (variadic vals) a) d k = each k vals)))
  ∧ ∀ a k v1 v2,
       Append k (variadic v2) (Append k (variadic v1) a) = Append k (variadic (v1 ++ v2)) a
       ∧ AppendNoDefaults k (variadic v2) (AppendNoDefaults k (variadic v1) a) =
         AppendNoDefaults k (variadic (v1 ++ v2)) a.
Proof.
  split_and!.
  - intros a d. exists (keysInOrder a d).
    split_and!; [apply keysInOrder_NoDup|apply keysInOrder_sorted|apply keysInOrder_elem|done].
  - intros a d k vals op Hop k' Hk. set_unfold in Hop. destruct_or!; subst op; by apply passed_other.
  - intros a d k vals. unfold Enable, Disable, Set_, Append, AppendNoDefaults.
    rewrite !passed_set. split_and!; [done|done|apply flags_append_None|].
    intros Ha. rewrite Ha. cbn [Arg_Append Arg_Get]. rewrite elems_variadic.
    split_and!; [by apply passed_unset|..].
    + rewrite append_append, flags_append_None. done.
    + intros Hv. apply flags_values. by destruct vals.
  - intros a k v1 v2. unfold Append, AppendNoDefaults. rewrite !lookup_insert_eq, !insert_insert_eq.
    by rewrite !Arg_Append_twice.
Qed.

(** ** Reading rendered flags back *)

Lemma split_eq_name k v : split_eq k = None → split_eq (k +:+ "=" +:+ v) = Some (k, v).
Proof.
  induction k as [|c k IH]; [done|]. rewrite str_app_cons. cbn [split_eq].
  destruct (Ascii.eqb c "="); [done|]. destruct (split_eq k) as [[? ?]|]; [done|]. by rewrite IH.
Qed.

Lemma as_flag_value k v : split_eq k = None → as_flag ("--" +:+ k +:+ "=" +:+ v) = Some (k, v).
Proof. apply split_eq_name. Qed.

Lemma flag_not_dashes k v : "--" +:+ k +:+ "=" +:+ v ≠ "--".
Proof. intros [= H]. by destruct k. Qed.

Lemma as_flag_name k : split_eq k = None → as_flag ("--" +:+ k) = None.
Proof. done. Qed.

(** A key that can be told from the flag it is in. *)
Definition plain_key (k : string) : Prop := k ≠ "" ∧ split_eq k = None.

(** Reading the flags of one key. *)
Lemma SliceToArguments_values k pre vals more a :
  split_eq k = None → a !! k = Some (userArg (Some pre)) →
  SliceToArguments (each k vals ++ more) a =
  SliceToArguments more (<[k := userArg (Some (pre ++ vals))]> a).
Proof.
  intros Hk. revert pre a. induction vals as [|v vals IH]; intros pre a Ha.
  - by rewrite app_nil_r, insert_id.
  - cbn [fmap list_fmap app SliceToArguments]. rewrite decide_False by apply flag_not_dashes.
    rewrite as_flag_value by done. unfold AppendNoDefaults. rewrite Ha. cbn [Arg_Append append elems default].
    rewrite (IH (pre ++ [v])) by apply lookup_insert_eq. by rewrite insert_insert_eq, <- app_assoc.
Qed.

(** What reading the flags of a key adds to the arguments, and leaves. *)
Definition read_key k (vals : Slice) a : Arguments :=
  match elems vals with [] => a | l => <[k := userArg (Some l)]> a end.
Definition left_key k (vals : Slice) : list string := match vals with Some [] => ["--" +:+ k] | _ => [] end.

Lemma SliceToArguments_flags k vals more a :
  plain_key k → a !! k = None →
  SliceToArguments (flags k vals ++ more) a =
  (left_key k vals ++ (SliceToArguments more (read_key k vals a)).1, (SliceToArguments more (read_key k vals a)).2).
Proof.
  intros [Hne Hk] Ha. destruct vals as [[|v vals]|]; cbn [flags left_key read_key elems default app].
  - cbn [SliceToArguments]. rewrite decide_False by (intros [= ?]; done).
    rewrite as_flag_name by done. by destruct (SliceToArguments _ _).
  - cbn [fmap list_fmap app SliceToArguments]. rewrite decide_False by apply flag_not_dashes. rewrite as_flag_value by done.
    unfold AppendNoDefaults. rewrite Ha. cbn [Arg_Append append elems default variadic app].
    change (list_fmap _ _ _ vals) with (each k vals).
    rewrite (SliceToArguments_values _ [v]) by first [assumption|apply lookup_insert_eq].
    rewrite insert_insert_eq. by destruct (SliceToArguments _ _).
  - by destruct (SliceToArguments _ _).
Qed.

Lemma read_key_other k vals a k' : k' ≠ k → read_key k vals a !! k' = a !! k'.
Proof. intros. unfold read_key. case_match; [done|]. by rewrite lookup_insert_ne. Qed.

Lemma read_key_fresh k vals a keys :
  k ∉ keys → Forall (λ k', a !! k' = None) keys → Forall (λ k', read_key k vals a !! k' = None) keys.
Proof.
  intros Hk. rewrite !Forall_forall. intros Ha k' Hk'. rewrite read_key_other; [auto|]. by intros ->.
Qed.

Lemma SliceToArguments_keys (vals : string → Slice) keys a :
  NoDup keys → Forall plain_key keys → Forall (λ k, a !! k = None) keys →
  SliceToArguments (flat_map (λ k, flags k (vals k)) keys) a =
  (flat_map (λ k, left_key k (vals k)) keys, foldl (λ a k, read_key k (vals k) a) a keys).
Proof.
  intros Hnd. revert a. induction Hnd as [|k keys Hk Hnd IH]; intros a Hp Ha; [done|].
  inversion Hp; inversion Ha; subst. cbn [flat_map foldl].
  rewrite SliceToArguments_flags by done. by rewrite IH by auto using read_key_fresh.
Qed.

Lemma read_keys_lookup (vals : string → Slice) keys a k :
  NoDup keys → Forall (λ k, a !! k = None) keys →
  foldl (λ a k, read_key k (vals k) a) a keys !! k =
  if decide (k ∈ keys ∧ elems (vals k) ≠ []) then Some (userArg (vals k)) else a !! k.
Proof.
  intros Hnd. revert a. induction Hnd as [|k1 keys Hk1 Hnd IH]; intros a Ha.
  - rewrite decide_False; [done|]. by intros [?%elem_of_nil _].
  - inversion Ha; subst. cbn [foldl]. rewrite IH by auto using read_key_fresh.
    destruct (decide (k = k1)) as [->|Hne].
    + rewrite decide_False by naive_solver. unfold read_key.
      destruct (vals k1) as [[|v l]|]; cbn; [rewrite decide_False; naive_solver| |rewrite decide_False; naive_solver].
      rewrite lookup_insert_eq, decide_True; [done|]. set_solver.
    + rewrite read_key_other by done. repeat case_decide; set_solver.
Qed.

Lemma each_flags k vals : split_eq k = None → Forall (λ s, as_flag s ≠ None) (each k vals).
Proof.
  intros Hk. rewrite Forall_fmap, Forall_forall. intros v _. unfold compose. by rewrite as_flag_value.
Qed.

Lemma filter_none {A} (P : A → Prop) `{!∀ x, Decision (P x)} l : Forall (λ x, ¬ P x) l → filter P l = [].
Proof. induction 1 as [|x l Hx _ IH]; [done|]. by rewrite filter_cons_False. Qed.

(** The flags of a key are all read or all left. *)
Lemma flags_read k vals : split_eq k = None →
  filter (λ s, as_flag s ≠ None) (flags k vals) = flags k (match elems vals with [] => None | l => Some l end)
  ∧ filter (λ s, as_flag s = None) (flags k vals) = left_key k vals.
Proof.
  intros Hk. destruct vals as [[|v l]|]; cbn [flags left_key elems default]; [|split..|done].
  - rewrite !filter_cons, as_flag_name by done. done.
  - apply filter_all. by apply (each_flags k (v :: l)).
  - apply filter_none. eapply Forall_impl; [by apply (each_flags k (v :: l))|]. naive_solver.
Qed.

Lemma filter_flat_map {A B} (P : B → Prop) `{!∀ x, Decision (P x)} (f : A → list B) l :
  filter P (flat_map f l) = flat_map (λ x, filter P (f x)) l.
Proof. induction l as [|x l IH]; [done|]. cbn [flat_map]. by rewrite filter_app, IH. Qed.

Lemma flat_map_ext_in {A B} (f g : A → list B) l : (∀ x, x ∈ l → f x = g x) → flat_map f l = flat_map g l.
Proof.
  induction l as [|x l IH]; intros Hfg; [done|]. cbn. rewrite Hfg by set_solver. f_equal. apply IH. set_solver.
Qed.

Lemma flat_map_filter {A B} (P : A → Prop) `{!∀ x, Decision (P x)} (f : A → list B) l :
  (∀ x, x ∈ l → ¬ P x → f x = []) → flat_map f l = flat_map f (filter P l).
Proof.
  induction l as [|x l IH]; intros Hf; [done|]. cbn [flat_map]. rewrite IH by set_solver. rewrite filter_cons.
  case_decide; [done|]. by rewrite Hf by set_solver.
Qed.

(** Rendering what was read: user arguments only, and no defaults. *)
Lemma AsStrings_read a (vals : string → Slice) keys :
  NoDup keys → StronglySorted String.le keys →
  (∀ k, a !! k = if decide (k ∈ keys ∧ elems (vals k) ≠ []) then Some (userArg (vals k)) else None) →
  AsStrings a ∅ = flat_map (λ k, flags k (match elems (vals k) with [] => None | l => Some l end)) keys.
Proof.
  intros Hnd Hs Ha. unfold AsStrings.
  rewrite (keysInOrder_unique a ∅ (filter (λ k, elems (vals k) ≠ []) keys)).
  - rewrite (flat_map_filter (λ k, elems (vals k) ≠ []) _ keys).
    2: { intros k _ He. by destruct (elems (vals k)); [|destruct He]. }
    apply flat_map_ext_in. intros k [Hv Hk]%list_elem_of_filter.
    unfold passed, Get. rewrite Ha, decide_True by done. cbn [Arg_Get].
    by destruct (vals k) as [[|]|].
  - by apply NoDup_filter.
  - by apply StronglySorted_filter.
  - intros k. rewrite list_elem_of_filter, Ha, lookup_empty.
    case_decide; split; [eauto|tauto..|]. intros [[? [=]]|[? [=]]].
Qed.

(** C38: reading rendered arguments back loses nothing, provided no key is empty
    or contains an equals sign: the arguments that come of it have the values
    each flag was passed with, they render to exactly the flags with values of
    what was read, in the same order, and the flags passed by name only are
    left over. *)
Theorem flags_roundtrip a d :
  (∀ k, is_Some (a !! k) ∨ is_Some (d !! k) → plain_key k) →
  ∃ a', SliceToArguments (AsStrings a d) EmptyArguments
          = (filter (λ s, as_flag s = None) (AsStrings a d), a')
    ∧ AsStrings a' ∅ = filter (λ s, as_flag s ≠ None) (AsStrings a d)
    ∧ ∀ k, let vals := Arg_Get (Get a k) (default_of d k) in
           a' !! k = match elems vals with [] => None | _ => Some (userArg vals) end.
Proof.
  intros Hplain. set (vals k := Arg_Get (Get a k) (default_of d k)).
  set (keys := keysInOrder a d). pose proof (keysInOrder_NoDup a d : NoDup keys) as Hnd.
  assert (Hk : Forall plain_key keys).
  { apply Forall_forall. intros k Hin. by apply Hplain, keysInOrder_elem. }
  assert (He : Forall (λ k, EmptyArguments !! k = None) keys) by by apply Forall_forall.
  change (AsStrings a d) with (flat_map (λ k, flags k (vals k)) keys).
  eexists. split_and!.
  - rewrite (SliceToArguments_keys vals keys EmptyArguments) by done. f_equal.
    rewrite filter_flat_map. apply flat_map_ext_in. intros k Hin.
    symmetry. apply flags_read. rewrite Forall_forall in Hk. by apply Hk.
  - rewrite filter_flat_map, (AsStrings_read _ vals keys); [|done|apply keysInOrder_sorted|].
    + apply flat_map_ext_in. intros k Hin. symmetry. apply flags_read.
      rewrite Forall_forall in Hk. by apply Hk.
    + intros k. by rewrite read_keys_lookup.
  - intros k. cbn zeta. rewrite read_keys_lookup by done. fold (vals k).
    destruct (decide (k ∈ keys)) as [Hin|Hout].
    + by destruct (elems (vals k)); [rewrite decide_False|rewrite decide_True]; naive_solver.
    + rewrite decide_False by tauto. unfold keys in Hout. rewrite keysInOrder_elem in Hout.
      unfold vals, Get, default_of.
      by rewrite (proj2 (eq_None_not_Some (a !! k))), (proj2 (eq_None_not_Some (d !! k))) by tauto.
Qed.

(** What reading does in general: it stops at two dashes on their own. *)
Lemma SliceToArguments_spec l after args :
  "--" ∉ l → (after = [] ∨ head after = Some "--") →
  SliceToArguments (l ++ after) args =
  (filter (λ s, as_flag s = None) l ++ after,
   foldl (λ args nv, AppendNoDefaults nv.1 (variadic [nv.2]) args) args (omap as_flag l)).
Proof.
  intros Hl Hafter. revert args. induction l as [|arg l IH]; intros args; cbn [app omap list_omap foldl].
  - destruct Hafter as [->|Ha]; [done|]. destruct after as [|x after]; [done|].
    cbn in Ha. simplify_eq. done.
  - apply not_elem_of_cons in Hl as [Hne Hl]. cbn [SliceToArguments].
    rewrite decide_False by done. rewrite filter_cons.
    destruct (as_flag arg) as [[name val]|]; [rewrite decide_False by done; by rewrite IH|].
    rewrite decide_True by done. by rewrite IH.
Qed.
End facts.

(** ** On concrete arguments *)

#[local] Instance arg_range : MapRange string Arg := some_range _ _.
#[local] Instance slice_range : MapRange string Slice := some_range _ _.

Definition sample_args : Arguments :=
  Enable "insecure" (Disable "cert-dir" (Append "v" (variadic ["4"]) (Set_ "port" (variadic ["80"; "81"]) EmptyArguments))).
Definition sample_defaults : Defaults :=
  {[ "cert-dir" := Some ["/tmp"]; "v" := Some ["2"]; "etcd" := Some ["http://a"]; "empty" := Some [] ]}.

Example sample_rendered :
  AsStrings sample_args sample_defaults = ["--etcd=http://a"; "--insecure"; "--port=80"; "--port=81"; "--v=2"; "--v=4"].
Proof. vm_compute. reflexivity. Qed.

(** Setting a flag to no values does not pass it by name, as an empty slice
    given by its owner does: it is not passed. *)
Example set_to_nothing : AsStrings (Set_ "k" (variadic []) EmptyArguments) ∅ = []
  ∧ AsStrings (SetRaw "k" (userArg (Some [])) EmptyArguments) ∅ = ["--k"].
Proof. vm_compute. done. Qed.

Lemma AsStrings_spec_witness :
  passed (Append "v" (variadic ["4"]) EmptyArguments) sample_defaults "v" = ["--v=2"; "--v=4"]
  ∧ passed (Enable "insecure" sample_args) sample_defaults "port" = ["--port=80"; "--port=81"].
Proof.
  destruct AsStrings_spec as (_ & Hother & Hkey & _). split.
  - destruct (Hkey EmptyArguments sample_defaults "v" ["4"]) as (_ & _ & _ & Hunset).
    by destruct (Hunset eq_refl) as (_ & -> & _).
  - rewrite (Hother sample_args sample_defaults "insecure" None (Enable "insecure")); [done|set_solver|done].
Defined.

Lemma sample_plain k : is_Some (sample_args !! k) ∨ is_Some (sample_defaults !! k) → plain_key k.
Proof.
  intros Hk.
  assert (Hin : k ∈ ["insecure"; "cert-dir"; "v"; "port"; "etcd"; "empty"]).
  { rewrite !elem_of_cons. destruct Hk as [[x Hx]|[x Hx]].
    - unfold sample_args, Enable, Disable, Append, Set_, EmptyArguments in Hx. rewrite !lookup_insert_Some in Hx.
      rewrite lookup_empty in Hx. naive_solver.
    - unfold sample_defaults in Hx. rewrite !lookup_insert_Some, lookup_singleton_Some in Hx. naive_solver. }
  repeat (apply elem_of_cons in Hin as [->|Hin]; [by split|]). by apply elem_of_nil in Hin.
Qed.

Lemma flags_roundtrip_witness :
  ∃ a', SliceToArguments (AsStrings sample_args sample_defaults) EmptyArguments = (["--insecure"], a')
    ∧ AsStrings a' ∅ = ["--etcd=http://a"; "--port=80"; "--port=81"; "--v=2"; "--v=4"].
Proof.
  destruct (flags_roundtrip sample_args sample_defaults sample_plain) as (a' & Hs & Hr & _).
  exists a'. rewrite Hs, Hr, sample_rendered. split; vm_compute; reflexivity.
Defined.
