(* ===== verification/DelegatingLog.v ===== *)
(** * The delegating logger (src/pkg/log: deleg.go, log.go, null.go, warning_handler.go)

    Loggers taken before a program sets its logger record how they were derived
    from the base logger; when it is set they are switched over, one after the
    other, while others may go on deriving loggers.  The heap of delegating
    loggers and of their promises is explicit, and the interleavings are a step
    relation. *)

From stdpp Require Import functions.
From S2P Require Export Prelude.

Section log.
(** What an application logs to, its loggers and the values it logs. *)
Context {W Lg V : Type}.

(** The interface [logr.Logger] of the loggers given to [SetLogger].  The
    arguments of a variadic call are [None] if there are none. *)
Class Logger := {
  lg_Enabled : Lg → W → bool;
  lg_Info : Lg → string → option (list V) → W → W;
  lg_Error : Lg → option error → string → option (list V) → W → W;
  lg_V : Z → Lg → Lg;
  lg_WithName : string → Lg → Lg;
  lg_WithValues : option (list V) → Lg → Lg;
}.

(** The heap: a logger keeps its promise until it is fulfilled, and a promise
    the promises of the loggers derived from its own. *)
Record DelegatingLogger := mkDL { dl_logger : Lg; dl_promise : option nat }.

Record loggerPromise := mkLP {
  lp_logger : nat;
  lp_childPromises : list nat;
  lp_name : option string;
  lp_tags : option (list V);
  lp_level : Z;
}.

Record Heap := mkHeap { h_loggers : list DelegatingLogger; h_promises : list loggerPromise }.

(** A [logr.Logger] in the hands of a client. *)
Inductive AnyLogger := Delegating (l : nat) | Actual (lg : Lg).

Context `{!Logger}.
Implicit Types (h : Heap) (l p : nat) (lg : Lg).

(** ** Deriving loggers *)

Definition add_child (c : nat) (p : loggerPromise) : loggerPromise :=
  mkLP (lp_logger p) (lp_childPromises p ++ [c]) (lp_name p) (lp_tags p) (lp_level p).

(** The end of the methods of a promise: [res] is allocated and becomes a child. *)
Definition register p (res : loggerPromise) h : Heap * nat :=
  let c := length (h_promises h) in
  (mkHeap (h_loggers h) (alter (add_child c) p (h_promises h) ++ [res]), c).

Definition promise_WithName p l (name : string) h := register p (mkLP l [] (Some name) None 0) h.
Definition promise_WithValues p l (tags : option (list V)) h := register p (mkLP l [] None tags 0) h.
Definition promise_V p l (level : Z) h := register p (mkLP l [] None None level) h.

Definition set_promise l p h : Heap :=
  mkHeap (alter (λ d, mkDL (dl_logger d) (Some p)) l (h_loggers h)) (h_promises h).

(** [res := &DelegatingLogger{logger: l.logger}], with the promise that comes
    of it. *)
Definition derive_with (promise : nat → Heap → Heap * nat) (d : DelegatingLogger) h : Heap * AnyLogger :=
  let res := length (h_loggers h) in
  let h := mkHeap (h_loggers h ++ [mkDL (dl_logger d) None]) (h_promises h) in
  let '(h, p) := promise res h in
  (set_promise res p h, Delegating res).

Definition delegating_V l (level : Z) h : Heap * AnyLogger :=
  match h_loggers h !! l with
  | None => (h, Delegating l)
  | Some d =>
      match dl_promise d with
      | None => (h, Actual (lg_V level (dl_logger d)))
      | Some p => derive_with (λ res, promise_V p res level) d h
      end
  end.

Definition delegating_WithName l (name : string) h : Heap * AnyLogger :=
  match h_loggers h !! l with
  | None => (h, Delegating l)
  | Some d =>
      match dl_promise d with
      | None => (h, Actual (lg_WithName name (dl_logger d)))
      | Some p => derive_with (λ res, promise_WithName p res name) d h
      end
  end.

Definition delegating_WithValues l (tags : option (list V)) h : Heap * AnyLogger :=
  match h_loggers h !! l with
  | None => (h, Delegating l)
  | Some d =>
      match dl_promise d with
      | None => (h, Actual (lg_WithValues tags (dl_logger d)))
      | Some p => derive_with (λ res, promise_WithValues p res tags) d h
      end
  end.

(** ** Logging *)

Definition delegating_Enabled l h (w : W) : option bool :=
  d ← h_loggers h !! l; Some (lg_Enabled (dl_logger d) w).

Definition delegating_Info l (msg : string) (kvs : option (list V)) h (w : W) : option W :=
  d ← h_loggers h !! l; Some (lg_Info (dl_logger d) msg kvs w).

Definition delegating_Error l (err : option error) (msg : string) (kvs : option (list V)) h (w : W) : option W :=
  d ← h_loggers h !! l; Some (lg_Error (dl_logger d) err msg kvs w).

(** ** Fulfilling promises *)

(** What a promise adds to the logger of its parent. *)
Definition promised (p : loggerPromise) lg : Lg :=
  let lg := match lp_name p with Some name => lg_WithName name lg | None => lg end in
  let lg := match lp_tags p with Some tags => lg_WithValues (Some tags) lg | None => lg end in
  if decide (lp_level p ≠ 0%Z) then lg_V (lp_level p) lg else lg.

(** The promises still to be fulfilled, the next one first, each with the
    logger of its parent: the calls of [loggerPromise.Fulfill] not yet made. *)
Abbreviation Pending := (list (nat * Lg)).

(** One call up to its loop over the children, who are next. *)
Definition fulfill_one (todo : Pending) h : Pending * Heap :=
  match todo with
  | [] => ([], h)
  | (p, parentLogger) :: todo =>
      match h_promises h !! p with
      | None => (todo, h)
      | Some pr =>
          let logger := promised pr parentLogger in
          (((λ c, (c, logger)) <$> lp_childPromises pr) ++ todo,
           mkHeap (<[lp_logger pr := mkDL logger None]> (h_loggers h)) (h_promises h))
      end
  end.

(** [DelegatingLogger.Fulfill]. *)
Definition start_fulfill l (actual : Lg) h : Pending :=
  match h_loggers h !! l with
  | Some d => match dl_promise d with Some p => [(p, actual)] | None => [] end
  | None => []
  end.

Fixpoint fulfill_loop (fuel : nat) (todo : Pending) h : Pending * Heap :=
  match fuel with
  | 0 => (todo, h)
  | S fuel => let '(todo, h) := fulfill_one todo h in fulfill_loop fuel todo h
  end.

Definition Fulfill (fuel : nat) l (actual : Lg) h : Pending * Heap :=
  fulfill_loop fuel (start_fulfill l actual h) h.

Definition NewDelegatingLogger (initial : Lg) : Heap :=
  mkHeap [mkDL initial (Some 0)] [mkLP 0 [] None None 0].

(** ** The base logger of the package (log.go) *)

(** [Log] is the logger 0 of the heap; what is still to be fulfilled is the
    state of whoever holds [loggerWasSetLock].  [ls_held] is for the proofs:
    the loggers clients hold, with how they were derived from [Log]. *)
Inductive Op := OpV (level : Z) | OpWithName (name : string) | OpWithValues (tags : option (list V)).

Record LogState := mkLogState {
  ls_heap : Heap;
  ls_pending : Pending;
  ls_loggerWasSet : bool;
  ls_held : list (AnyLogger * list Op);
}.

Definition apply_op (op : Op) lg : Lg :=
  match op with
  | OpV level => lg_V level lg
  | OpWithName name => lg_WithName name lg
  | OpWithValues tags => lg_WithValues tags lg
  end.

Definition derive (lg : AnyLogger) (op : Op) h : Heap * AnyLogger :=
  match lg with
  | Actual lg => (h, Actual (apply_op op lg))
  | Delegating l =>
      match op with
      | OpV level => delegating_V l level h
      | OpWithName name => delegating_WithName l name h
      | OpWithValues tags => delegating_WithValues l tags h
      end
  end.

Definition init_log (null : Lg) : LogState :=
  mkLogState (NewDelegatingLogger null) [] false [(Delegating 0, [])].

(** Both take the lock, so neither starts while the other still fulfils. *)
Definition SetLogger (l : Lg) (s : LogState) : option LogState :=
  match ls_pending s with
  | [] => Some (mkLogState (ls_heap s) (start_fulfill 0 l (ls_heap s)) true (ls_held s))
  | _ => None
  end.

(** The goroutine of [init] after its 30 seconds. *)
Definition init_timeout (null : Lg) (s : LogState) : option LogState :=
  match ls_pending s with
  | [] =>
      if ls_loggerWasSet s then Some s
      else Some (mkLogState (ls_heap s) (start_fulfill 0 null (ls_heap s)) false (ls_held s))
  | _ => None
  end.

Definition fulfill_step (s : LogState) : LogState :=
  let '(todo, h) := fulfill_one (ls_pending s) (ls_heap s) in
  mkLogState h todo (ls_loggerWasSet s) (ls_held s).

Definition derive_step (lg : AnyLogger) (ops : list Op) (op : Op) (s : LogState) : LogState :=
  let '(h, lg) := derive lg op (ls_heap s) in
  mkLogState h (ls_pending s) (ls_loggerWasSet s) ((lg, ops ++ [op]) :: ls_held s).

(** A client derives a logger from one it holds. *)
Inductive client_step : LogState → LogState → Prop :=
  | client_derives held ops op s : (held, ops) ∈ ls_held s → client_step s (derive_step held ops op s).

Inductive log_step (null : Lg) : LogState → LogState → Prop :=
  | step_client s s' : client_step s s' → log_step null s s'
  | step_fulfill s : ls_pending s ≠ [] → log_step null s (fulfill_step s)
  | step_set logger s s' : SetLogger logger s = Some s' → log_step null s s'
  | step_timeout s s' : init_timeout null s = Some s' → log_step null s s'.

(** [FromContext]: the logger of the context, if there is a context and it has
    one. *)
Definition FromContext (ctx : option (option AnyLogger)) (kvs : option (list V)) h : Heap * AnyLogger :=
  let log := match ctx with Some (Some logger) => logger | _ => Delegating 0 end in
  derive log (OpWithValues kvs) h.
End log.

Arguments Logger : clear implicits.
Arguments DelegatingLogger : clear implicits.
Arguments Heap : clear implicits.
Arguments AnyLogger : clear implicits.
Arguments Op : clear implicits.
Arguments LogState : clear implicits.

(** ** [NullLogger] (null.go) *)

Inductive Null := NullLogger.

#[export] Instance null_logger {W V} : Logger W Null V := {|
  lg_Enabled _ _ := false;
  lg_Info _ _ _ w := w;
  lg_Error _ _ _ _ w := w;
  lg_V _ lg := lg;
  lg_WithName _ lg := lg;
  lg_WithValues _ lg := lg;
|}.

(** ** Warnings of the API server (warning_handler.go) *)

Section warnings.
Context {W Lg V : Type} `{!Logger W Lg V}.

(** The map [written] exists only when warnings are to be logged once. *)
Record KubeAPIWarningLogger := mkWarningLogger {
  wl_logger : Lg;
  wl_Deduplicate : bool;
  wl_written : option (gset string);
}.

Definition NewKubeAPIWarningLogger (l : Lg) (deduplicate : bool) : KubeAPIWarningLogger :=
  mkWarningLogger l deduplicate (if deduplicate then Some ∅ else None).

Definition HandleWarningHeader (code : Z) (agent message : string) (l : KubeAPIWarningLogger) (w : W)
    : outcome (KubeAPIWarningLogger * W) :=
  if decide (code ≠ 299%Z ∨ message = "") then Returned (l, w)
  else if wl_Deduplicate l then
    match wl_written l with
    | None => Panicked "assignment to entry in nil map"
    | Some written =>
        if decide (message ∈ written) then Returned (l, w)
        else Returned (mkWarningLogger (wl_logger l) true (Some ({[message]} ∪ written)),
                       lg_Info (wl_logger l) message None w)
    end
  else Returned (l, lg_Info (wl_logger l) message None w).

(** A run of warnings, one after the other. *)
Fixpoint HandleWarnings (warnings : list (Z * string)) (l : KubeAPIWarningLogger) (w : W)
    : outcome (KubeAPIWarningLogger * W) :=
  match warnings with
  | [] => Returned (l, w)
  | (code, message) :: warnings =>
      '(l, w) ← HandleWarningHeader code "" message l w; HandleWarnings warnings l w
  end.
End warnings.

(** ** Facts *)

Local Open Scope nat_scope.

Section facts.
Context {W Lg V : Type} `{!Logger W Lg V}.
Implicit Types (h : Heap Lg V) (lg a : Lg) (op : Op V).

(** What a promise keeps of a derivation: a level of zero and no values are not
    passed on. *)
Definition deferred (op : Op V) lg : Lg :=
  match op with
  | OpV level => if decide (level ≠ 0%Z) then lg_V level lg else lg
  | OpWithName name => lg_WithName name lg
  | OpWithValues None => lg
  | OpWithValues (Some tags) => lg_WithValues (Some tags) lg
  end.

Definition proper (op : Op V) : Prop :=
  match op with OpV level => level ≠ 0%Z | OpWithName _ => True | OpWithValues tags => is_Some tags end.

Lemma deferred_proper op lg : proper op → deferred op lg = apply_op op lg.
Proof. destruct op as [level|name|[tags|]]; cbn; [by case_decide|done|done|by intros [? ?]]. Qed.

(** Deriving by [ops], one after the other. *)
Definition derived (f : Op V → Lg → Lg) (ops : list (Op V)) lg : Lg := foldl (λ lg op, f op lg) lg ops.

Lemma derived_deferred ops lg : Forall proper ops → derived deferred ops lg = derived apply_op ops lg.
Proof.
  intros Hops. revert lg. induction Hops as [|op ops Hop _ IH]; intros lg; [done|].
  unfold derived in *. cbn. by rewrite deferred_proper.
Qed.

Definition promise_of l (op : Op V) (children : list nat) : loggerPromise :=
  match op with
  | OpV level => mkLP l children None None level
  | OpWithName name => mkLP l children (Some name) None 0
  | OpWithValues tags => mkLP l children None tags 0
  end.

Lemma promised_of l op children lg : promised (promise_of l op children) lg = deferred op lg.
Proof. by destruct op as [level|name|[tags|]]. Qed.

Lemma promise_of_fields l op children :
  lp_logger (promise_of l op children) = l ∧ lp_childPromises (promise_of l op children) = children
  ∧ ∀ c, add_child c (promise_of l op children) = promise_of l op (children ++ [c]).
Proof. by destruct op. Qed.

Definition status h i : option (option nat) := dl_promise <$> h_loggers h !! i.

(** A heap whose loggers and promises go in pairs. *)
Lemma derive_waiting h l lg op :
  length (h_loggers h) = length (h_promises h) → h_loggers h !! l = Some (mkDL lg (Some l)) →
  derive (Delegating l) op h =
  (mkHeap (h_loggers h ++ [mkDL lg (Some (length (h_loggers h)))])
          (alter (add_child (length (h_loggers h))) l (h_promises h) ++ [promise_of (length (h_loggers h)) op []]),
   Delegating (length (h_loggers h))).
Proof.
  intros Hlen Hl.
  assert (Hset : ∀ n, alter (λ d : DelegatingLogger Lg, mkDL (dl_logger d) (Some n)) (length (h_loggers h))
                   (h_loggers h ++ [mkDL lg None]) = h_loggers h ++ [mkDL lg (Some n)]).
  { intros n. rewrite alter_app_r_alt, Nat.sub_diag by done. done. }
  destruct op; cbn; unfold delegating_V, delegating_WithName, delegating_WithValues; rewrite Hl;
    cbn; unfold set_promise; cbn; by rewrite Hset, Hlen.
Qed.

Lemma derive_done h l lg op :
  h_loggers h !! l = Some (mkDL lg None) → derive (Delegating l) op h = (h, Actual (apply_op op lg)).
Proof.
  intros Hl. destruct op; cbn; unfold delegating_V, delegating_WithName, delegating_WithValues; by rewrite Hl.
Qed.

(** How the loggers were derived: the parent, the operation and the whole path
    of each but the base logger. *)
Record Tree := mkTree { t_parent : nat → nat; t_op : nat → Op V; t_path : nat → list (Op V) }.

Definition node_promise (t : Tree) i children : loggerPromise :=
  if decide (i = 0) then mkLP 0 children None None 0 else promise_of i (t_op t i) children.

Record tree_inv (t : Tree) h : Prop := mkTreeInv {
  ti_len : length (h_loggers h) = length (h_promises h);
  ti_root : 0 < length (h_loggers h) ∧ t_path t 0 = [];
  ti_parent i : 0 < i < length (h_loggers h) →
    t_parent t i < i ∧ t_path t i = t_path t (t_parent t i) ++ [t_op t i];
  ti_promise i : i < length (h_loggers h) →
    ∃ children, h_promises h !! i = Some (node_promise t i children) ∧ NoDup children
      ∧ ∀ c, c ∈ children ↔ 0 < c < length (h_loggers h) ∧ t_parent t c = i;
}.

(** Each logger is as it was made, or has what its path makes of [a]. *)
Definition logger_ok (t : Tree) (initial : Lg) (started : option Lg) i (d : DelegatingLogger Lg) : Prop :=
  d = mkDL initial (Some i) ∨ ∃ a, started = Some a ∧ d = mkDL (derived deferred (t_path t i) a) None.

Record progress_inv (t : Tree) (initial : Lg) (started : option Lg) (todo : list (nat * Lg)) h : Prop := mkProgressInv {
  pi_ok i d : h_loggers h !! i = Some d → logger_ok t initial started i d;
  pi_idle : started = None → todo = [];
  pi_todo p x : (p, x) ∈ todo → status h p = Some (Some p) ∧ ∃ a, started = Some a ∧
    (p = 0 ∧ x = a ∨ 0 < p ∧ status h (t_parent t p) = Some None ∧ x = derived deferred (t_path t (t_parent t p)) a);
  pi_NoDup : NoDup todo.*1;
  pi_waiting i : is_Some started → status h i = Some (Some i) →
    i ∈ todo.*1 ∨ 0 < i ∧ status h (t_parent t i) = Some (Some (t_parent t i));
  pi_up i : 0 < i → status h i = Some None → status h (t_parent t i) = Some None;
}.

Definition held_ok (t : Tree) (started : option Lg) h (held : AnyLogger Lg * list (Op V)) : Prop :=
  match held with
  | (Delegating l, ops) => l < length (h_loggers h) ∧ t_path t l = ops
  | (Actual x, ops) => ∃ a, started = Some a ∧ (Forall proper ops → x = derived apply_op ops a)
  end.

Definition log_inv (initial : Lg) (started : option Lg) (s : LogState Lg V) : Prop :=
  ∃ t, tree_inv t (ls_heap s) ∧ progress_inv t initial started (ls_pending s) (ls_heap s)
    ∧ Forall (held_ok t started (ls_heap s)) (ls_held s).

(** *** Fulfilling *)

Lemma node_promise_fields t i children :
  lp_logger (node_promise t i children) = i ∧ lp_childPromises (node_promise t i children) = children
  ∧ ∀ c, add_child c (node_promise t i children) = node_promise t i (children ++ [c]).
Proof. unfold node_promise. case_decide; [by subst|]. apply promise_of_fields. Qed.

Lemma promised_node t h p x a children : tree_inv t h → p < length (h_loggers h) →
  p = 0 ∧ x = a ∨ 0 < p ∧ x = derived deferred (t_path t (t_parent t p)) a →
  promised (node_promise t p children) x = derived deferred (t_path t p) a.
Proof.
  intros Ht Hp Hx. unfold node_promise. destruct Hx as [[-> ->]|[H0 ->]].
  - by rewrite decide_True, (proj2 (ti_root _ _ Ht)).
  - rewrite decide_False by lia. rewrite promised_of.
    rewrite (proj2 (ti_parent _ _ Ht p (conj H0 Hp))).
    unfold derived. by rewrite foldl_app.
Qed.

Lemma status_lt h i s : status h i = Some s → i < length (h_loggers h).
Proof. intros Hs. apply lookup_lt_is_Some. unfold status in Hs. by destruct (h_loggers h !! i). Qed.

Lemma tree_inv_loggers t h ls :
  length ls = length (h_loggers h) → tree_inv t h → tree_inv t (mkHeap ls (h_promises h)).
Proof. intros Hls [H1 H2 H3 H4]. split; cbn; rewrite Hls; auto. Qed.

Lemma status_insert h p y : p < length (h_loggers h) → ∀ i,
  status (mkHeap (<[p := mkDL y None]> (h_loggers h)) (h_promises h)) i =
  if decide (i = p) then Some None else status h i.
Proof.
  intros Hp i. unfold status. cbn. case_decide as Hi.
  - subst. by rewrite list_lookup_insert_eq.
  - by rewrite list_lookup_insert_ne.
Qed.

(** The children of a waiting promise wait too. *)
Lemma children_waiting t initial started todo h p (children : list nat) :
  tree_inv t h → progress_inv t initial started todo h → status h p = Some (Some p) →
  (∀ c, c ∈ children ↔ 0 < c < length (h_loggers h) ∧ t_parent t c = p) →
  ∀ c, c ∈ children → 0 < c ∧ t_parent t c = p ∧ c ≠ p ∧ status h c = Some (Some c).
Proof.
  intros Ht Hpr Hwait Hmem c Hin. apply Hmem in Hin as [[H0 Hc'] Hpc].
  pose proof (proj1 (ti_parent _ _ Ht c (conj H0 Hc'))).
  split_and!; [done|done|lia|]. destruct (lookup_lt_is_Some_2 _ _ Hc') as [d Hd].
  pose proof (pi_ok _ _ _ _ _ Hpr c d Hd) as [->|(a0 & _ & ->)]; unfold status; rewrite Hd; [done|].
  exfalso. assert (Hdone : status h c = Some None) by (unfold status; by rewrite Hd).
  apply (pi_up _ _ _ _ _ Hpr) in Hdone; [|done]. rewrite Hpc, Hwait in Hdone. done.
Qed.

Lemma fulfill_one_inv t initial a p x todo h :
  tree_inv t h → progress_inv t initial (Some a) ((p, x) :: todo) h →
  ∃ children,
    fulfill_one ((p, x) :: todo) h =
      (((λ c, (c, derived deferred (t_path t p) a)) <$> children) ++ todo,
       mkHeap (<[p := mkDL (derived deferred (t_path t p) a) None]> (h_loggers h)) (h_promises h))
    ∧ progress_inv t initial (Some a) (fulfill_one ((p, x) :: todo) h).1 (fulfill_one ((p, x) :: todo) h).2.
Proof.
  intros Ht Hpr. destruct (pi_todo _ _ _ _ _ Hpr p x) as [Hwait (a' & [= <-] & Hx)]; [set_solver|].
  pose proof (status_lt _ _ _ Hwait) as Hp.
  destruct (ti_promise _ _ Ht p Hp) as (children & Hchild & Hnd & Hmem).
  destruct (node_promise_fields t p children) as (Hl & Hc & _).
  assert (Hy : promised (node_promise t p children) x = derived deferred (t_path t p) a).
  { apply (promised_node t h); [done|done|]. destruct Hx as [[-> ->]|(? & _ & ->)]; eauto. }
  assert (Heq : fulfill_one ((p, x) :: todo) h =
    (((λ c, (c, derived deferred (t_path t p) a)) <$> children) ++ todo,
     mkHeap (<[p := mkDL (derived deferred (t_path t p) a) None]> (h_loggers h)) (h_promises h))).
  { cbn [fulfill_one]. by rewrite Hchild, Hy, Hl, Hc. }
  exists children. split; [exact Heq|]. rewrite Heq. cbn [fst snd].
  set (y := derived deferred (t_path t p) a) in *.
  set (h' := mkHeap (<[p := mkDL y None]> (h_loggers h)) (h_promises h)).
  pose proof (status_insert h p y Hp : ∀ i, status h' i = _) as Hst.
  pose proof (pi_NoDup _ _ _ _ _ Hpr) as Hndt. cbn in Hndt. apply NoDup_cons in Hndt as [Hpt Hndt].
  assert (Hcs := children_waiting t initial (Some a) _ h p children Ht Hpr Hwait Hmem).
  split.
  - intros i d Hd. unfold h' in Hd. cbn in Hd. apply list_lookup_insert_Some in Hd as [(<- & <- & _)|[_ Hd]].
    + right. by exists a.
    + by apply (pi_ok _ _ _ _ _ Hpr).
  - done.
  - intros q z Hqz. rewrite Hst. apply elem_of_app in Hqz as [Hqz|Hqz].
    + apply list_elem_of_fmap in Hqz as (c & [= -> ->] & Hin).
      destruct (Hcs c Hin) as (H0 & Hpc & Hne & Hs). rewrite decide_False by done.
      split; [done|]. exists a. split; [done|]. right. rewrite Hpc, Hst, decide_True by done. done.
    + assert (q ≠ p) by (intros ->; apply Hpt; apply list_elem_of_fmap; by exists (p, z)).
      rewrite decide_False by done.
      destruct (pi_todo _ _ _ _ _ Hpr q z) as (Hs & a' & [= <-] & Hz); [set_solver|].
      split; [done|]. exists a. split; [done|]. destruct Hz as [?|(H0 & Hup & ->)]; [by left|right].
      rewrite Hst. case_decide; [congruence|done].
  - rewrite fmap_app, <- list_fmap_compose, list_fmap_id. apply NoDup_app. split_and!; [done| |done].
    intros c Hin ([q z] & -> & Hqz)%list_elem_of_fmap. destruct (Hcs _ Hin) as (H0 & Hpc & _ & _).
    destruct (pi_todo _ _ _ _ _ Hpr q z) as (_ & a' & _ & Hz); [set_solver|].
    destruct Hz as [[-> _]|(_ & Hup & _)]; [cbn in *; lia|]. cbn in *. congruence.
  - intros i _ Hi. rewrite Hst in Hi. case_decide; [done|].
    destruct (pi_waiting _ _ _ _ _ Hpr i) as [Hin|[H0 Hup]]; [done|done|..].
    + left. rewrite fmap_app. cbn in Hin. set_solver.
    + destruct (decide (t_parent t i = p)) as [Hpi|Hpi].
      * left. rewrite fmap_app, <- list_fmap_compose, list_fmap_id. apply elem_of_app. left.
        apply Hmem. split; [|done]. split; [done|]. by apply status_lt in Hi.
      * right. by rewrite Hst, decide_False.
  - intros i H0 Hi. rewrite Hst in *. repeat case_decide; try done.
    + subst i. destruct Hx as [[-> _]|(_ & Hup & _)]; [lia|done].
    + by apply (pi_up _ _ _ _ _ Hpr).
Qed.

(** *** Deriving *)

(** The tree with a new node. *)
Definition grow (t : Tree) (n l : nat) op : Tree :=
  mkTree (<[n := l]> (t_parent t)) (<[n := op]> (t_op t)) (<[n := t_path t l ++ [op]]> (t_path t)).

(** The heap with a new logger derived from a waiting one. *)
Definition grown h (l : nat) lg op : Heap Lg V :=
  mkHeap (h_loggers h ++ [mkDL lg (Some (length (h_loggers h)))])
         (alter (add_child (length (h_loggers h))) l (h_promises h) ++ [promise_of (length (h_loggers h)) op []]).

Lemma grow_old t n l op i : i ≠ n →
  t_parent (grow t n l op) i = t_parent t i ∧ t_op (grow t n l op) i = t_op t i
  ∧ t_path (grow t n l op) i = t_path t i.
Proof. intros. cbn. by rewrite !fn_lookup_insert_ne. Qed.

Lemma grow_new t n l op :
  t_parent (grow t n l op) n = l ∧ t_op (grow t n l op) n = op ∧ t_path (grow t n l op) n = t_path t l ++ [op].
Proof. cbn. by rewrite !fn_lookup_insert. Qed.

Lemma range_grown (n c : nat) (P : Prop) : c ≠ n → 0 < c < n ∧ P ↔ 0 < c < n + 1 ∧ P.
Proof. intros Hc. split; intros [? ?]; (split; [lia|done]). Qed.

Lemma tree_inv_grown t h l lg op :
  tree_inv t h → l < length (h_loggers h) → tree_inv (grow t (length (h_loggers h)) l op) (grown h l lg op).
Proof.
  intros Ht Hl. set (n := length (h_loggers h)) in *.
  pose proof (ti_len _ _ Ht) as Hlen. destruct (ti_root _ _ Ht) as [H0 Hp0]. fold n in H0, Hlen.
  assert (Hold := grow_old t n l op). destruct (grow_new t n l op) as (Hn1 & Hn2 & Hn3).
  split; cbn [grown h_loggers h_promises]; rewrite ?length_app, ?length_alter; cbn [length]; fold n.
  - lia.
  - split; [lia|]. by rewrite (proj2 (proj2 (Hold 0 ltac:(lia)))).
  - intros i Hi. destruct (decide (i = n)) as [->|Hne].
    + rewrite Hn1, Hn2, Hn3. split; [done|]. by rewrite (proj2 (proj2 (Hold l ltac:(lia)))).
    + destruct (Hold i Hne) as (-> & -> & ->). destruct (ti_parent _ _ Ht i ltac:(lia)) as [Hlt ->].
      split; [done|]. by rewrite (proj2 (proj2 (Hold (t_parent t i) ltac:(lia)))).
  - intros i Hi. destruct (decide (i = n)) as [->|Hne].
    + exists []. rewrite lookup_app_r by (rewrite length_alter; lia).
      rewrite length_alter, <- Hlen, Nat.sub_diag. split_and!; [|constructor|].
      * cbn. unfold node_promise. rewrite decide_False by lia. by rewrite Hn2.
      * intros c. rewrite elem_of_nil. split; [done|]. intros [Hc Hpc].
        destruct (decide (c = n)) as [->|Hcn]; [rewrite Hn1 in Hpc; lia|].
        rewrite (proj1 (Hold c Hcn)) in Hpc. pose proof (proj1 (ti_parent _ _ Ht c ltac:(lia))). lia.
    + destruct (ti_promise _ _ Ht i ltac:(lia)) as (children & Hch & Hnd & Hmem).
      assert (Hnode : ∀ ch, node_promise (grow t n l op) i ch = node_promise t i ch).
      { intros ch. unfold node_promise. by rewrite (proj1 (proj2 (Hold i Hne))). }
      rewrite lookup_app_l by (rewrite length_alter; lia).
      destruct (decide (i = l)) as [->|Hil].
      * exists (children ++ [n]). rewrite list_lookup_alter_eq, Hch. cbn [fmap option_fmap option_map].
        destruct (node_promise_fields t l children) as (_ & _ & ->). rewrite Hnode.
        split_and!; [done| |].
        { apply NoDup_app. split_and!; [done| |apply NoDup_singleton].
          intros c Hc ->%list_elem_of_singleton. apply Hmem in Hc. lia. }
        intros c. rewrite elem_of_app, Hmem, list_elem_of_singleton. fold n.
        destruct (decide (c = n)) as [->|Hcn].
        { rewrite Hn1. split; [intros _; split; [lia|done]|by right]. }
        rewrite (proj1 (Hold c Hcn)), <- range_grown by done. split; [by intros [?|?]|by left].
      * exists children. rewrite list_lookup_alter_ne, Hch, Hnode by done. split_and!; [done|done|].
        intros c. rewrite Hmem. fold n. destruct (decide (c = n)) as [->|Hcn].
        { rewrite Hn1. split; intros [? ?]; [lia|done]. }
        by rewrite (proj1 (Hold c Hcn)), <- range_grown.
Qed.

Lemma status_grown h l lg op i :
  status (grown h l lg op) i =
  if decide (i = length (h_loggers h)) then Some (Some i) else status h i.
Proof.
  unfold status, grown. cbn. case_decide as Hi.
  - subst. by rewrite lookup_app_r, Nat.sub_diag by done.
  - destruct (decide (i < length (h_loggers h))); [by rewrite lookup_app_l|].
    rewrite (lookup_ge_None_2 (h_loggers h)) by lia. rewrite lookup_ge_None_2; [done|].
    rewrite length_app. cbn. lia.
Qed.

Lemma progress_inv_grown t initial started todo h l op :
  tree_inv t h → progress_inv t initial started todo h → h_loggers h !! l = Some (mkDL initial (Some l)) →
  progress_inv (grow t (length (h_loggers h)) l op) initial started todo (grown h l initial op).
Proof.
  intros Ht Hpr Hl. set (n := length (h_loggers h)).
  assert (Hold := grow_old t n l op). destruct (grow_new t n l op) as (Hn1 & Hn2 & Hn3).
  assert (Hln : l < n) by (eapply lookup_lt_Some; done).
  assert (Hpar : ∀ i, 0 < i < n → t_parent (grow t n l op) i = t_parent t i ∧ t_parent t i ≠ n).
  { intros i Hi. split; [apply Hold; lia|]. pose proof (proj1 (ti_parent _ _ Ht i Hi)). lia. }
  split.
  - intros i d Hd. cbn in Hd. apply lookup_app_Some in Hd as [Hd|[Hge Hd]].
    + assert (i ≠ n) by (apply lookup_lt_Some in Hd; unfold n; lia).
      unfold logger_ok. rewrite (proj2 (proj2 (Hold i ltac:(done)))). by apply (pi_ok _ _ _ _ _ Hpr).
    + apply list_lookup_singleton_Some in Hd as [Hi <-]. left. f_equal. f_equal. lia.
  - apply (pi_idle _ _ _ _ _ Hpr).
  - intros p x Hin. destruct (pi_todo _ _ _ _ _ Hpr p x Hin) as (Hs & a & -> & Hx).
    pose proof (status_lt _ _ _ Hs). rewrite !status_grown, decide_False by lia.
    split; [done|]. exists a. split; [done|]. destruct Hx as [?|(H0 & Hup & ->)]; [by left|right].
    destruct (Hpar p ltac:(unfold n; lia)) as [-> Hne]. rewrite decide_False by done.
    by rewrite (proj2 (proj2 (Hold _ Hne))).
  - apply (pi_NoDup _ _ _ _ _ Hpr).
  - intros i Hst Hi. rewrite status_grown in Hi. fold n in Hi. case_decide as Hin.
    + subst i. right. rewrite Hn1, status_grown. fold n. rewrite decide_False by lia. split; [lia|].
      unfold status. by rewrite Hl.
    + destruct (pi_waiting _ _ _ _ _ Hpr i Hst Hi) as [?|[H0 Hup]]; [by left|right]. split; [done|].
      pose proof (status_lt _ _ _ Hi). destruct (Hpar i ltac:(unfold n; lia)) as [-> Hne].
      rewrite status_grown. fold n. by rewrite decide_False.
  - intros i H0 Hi. rewrite status_grown in Hi. fold n in Hi. case_decide as Hin; [done|].
    pose proof (status_lt _ _ _ Hi). destruct (Hpar i ltac:(unfold n; lia)) as [-> Hne].
    rewrite status_grown. fold n. rewrite decide_False by done. by apply (pi_up _ _ _ _ _ Hpr).
Qed.

(** *** Every step keeps the invariant *)

Lemma held_ok_grown t started h l lg op held :
  l < length (h_loggers h) → held_ok t started h held →
  held_ok (grow t (length (h_loggers h)) l op) started (grown h l lg op) held.
Proof.
  intros Hl. destruct held as [[i|x] ops]; [|done]. intros [Hi Hp]. cbn [held_ok].
  unfold grown. cbn [h_loggers]. rewrite length_app. split; [cbn; lia|].
  by rewrite (proj2 (proj2 (grow_old t (length (h_loggers h)) l op i ltac:(lia)))).
Qed.

Lemma client_step_inv initial started s s' :
  log_inv initial started s → client_step s s' → log_inv initial started s'.
Proof.
  intros (t & Ht & Hpr & Hheld) Hc. inversion Hc as [held ops op s0 Hin]; subst s0 s'; clear Hc. pose proof Hheld as Hheld'.
  rewrite Forall_forall in Hheld'. specialize (Hheld' _ Hin). unfold derive_step.
  destruct held as [l|x]; cbn [held_ok] in Hheld'.
  - destruct Hheld' as [Hl Hpath]. destruct (lookup_lt_is_Some_2 _ _ Hl) as [d Hd].
    pose proof (pi_ok _ _ _ _ _ Hpr l d Hd) as [->|(a & -> & ->)].
    + rewrite (derive_waiting _ l initial op (ti_len _ _ Ht) Hd). fold (grown (ls_heap s) l initial op).
      exists (grow t (length (h_loggers (ls_heap s))) l op). cbn [ls_heap ls_pending ls_held].
      split_and!; [by apply tree_inv_grown|by apply progress_inv_grown|]. constructor.
      * cbn [held_ok]. rewrite (proj2 (proj2 (grow_new t _ l op))), Hpath. split; [|done].
        unfold grown. cbn. rewrite length_app. cbn. lia.
      * eapply Forall_impl; [exact Hheld|]. intros. by apply held_ok_grown.
    + rewrite (derive_done _ l _ op Hd). exists t. cbn [ls_heap ls_pending ls_held].
      split_and!; [done|done|]. constructor; [|done]. cbn [held_ok]. exists a. split; [done|].
      intros [Hops _]%Forall_app. rewrite Hpath, derived_deferred by done. unfold derived. by rewrite foldl_app.
  - exists t. cbn. split_and!; [done|done|]. constructor; [|done]. destruct Hheld' as (a & -> & Hx).
    cbn. exists a. split; [done|]. intros [Hops _]%Forall_app. rewrite (Hx Hops).
    unfold derived. by rewrite foldl_app.
Qed.

Lemma held_ok_fulfilled t started h h' held :
  length (h_loggers h') = length (h_loggers h) → held_ok t started h held → held_ok t started h' held.
Proof. intros Hlen. destruct held as [[i|x] ops]; cbn; [by rewrite Hlen|done]. Qed.

Lemma fulfill_step_inv initial started s :
  log_inv initial started s → ls_pending s ≠ [] → log_inv initial started (fulfill_step s).
Proof.
  intros (t & Ht & Hpr & Hheld) Hne. unfold fulfill_step.
  destruct (ls_pending s) as [|[p x] todo] eqn:Htodo; [done|].
  destruct started as [a|]; [|by pose proof (pi_idle _ _ _ _ _ Hpr eq_refl)].
  destruct (fulfill_one_inv t initial a p x todo (ls_heap s) Ht Hpr) as (children & Heq & Hpr').
  rewrite Heq in *. exists t. cbn [ls_heap ls_pending ls_held fst snd] in *. split_and!.
  - apply tree_inv_loggers; [|done]. apply length_insert.
  - exact Hpr'.
  - eapply Forall_impl; [exact Hheld|]. intros held. apply held_ok_fulfilled. apply length_insert.
Qed.

Lemma root_status initial started s : log_inv initial started s → ls_pending s = [] →
  ∃ d, h_loggers (ls_heap s) !! 0 = Some d ∧
    match started with None => d = mkDL initial (Some 0) | Some _ => dl_promise d = None end.
Proof.
  intros (t & Ht & Hpr & _) Htodo. destruct (ti_root _ _ Ht) as [H0 Hroot].
  destruct (lookup_lt_is_Some_2 _ _ H0) as [d Hd]. exists d. split; [done|].
  pose proof (pi_ok _ _ _ _ _ Hpr 0 d Hd) as [->|(a & -> & ->)]; [|done].
  destruct started as [a|]; [|done]. exfalso.
  destruct (pi_waiting _ _ _ _ _ Hpr 0) as [Hin|[? _]]; [done|unfold status; by rewrite Hd| |lia].
  rewrite Htodo in Hin. by apply elem_of_nil in Hin.
Qed.

(** What [SetLogger] and the goroutine of [init] do. *)
Lemma start_inv initial started s l set :
  log_inv initial started s → ls_pending s = [] →
  log_inv initial (match started with Some a => Some a | None => Some l end)
    (mkLogState (ls_heap s) (start_fulfill 0 l (ls_heap s)) set (ls_held s)).
Proof.
  intros Hinv Htodo. destruct (root_status _ _ _ Hinv Htodo) as (d & Hd & Hroot).
  destruct Hinv as (t & Ht & Hpr & Hheld). unfold start_fulfill. rewrite Hd.
  destruct started as [a|].
  - rewrite Hroot. exists t. cbn. by rewrite <- Htodo.
  - subst d. cbn [dl_promise]. exists t. cbn [ls_heap ls_pending ls_held].
    assert (Hw : ∀ i, i < length (h_loggers (ls_heap s)) → status (ls_heap s) i = Some (Some i)).
    { intros i Hi. destruct (lookup_lt_is_Some_2 _ _ Hi) as [d Hdi]. unfold status. rewrite Hdi.
      by destruct (pi_ok _ _ _ _ _ Hpr i d Hdi) as [->|(a & ? & _)]. }
    pose proof (proj1 (ti_root _ _ Ht)) as H0. split_and!; [done| |].
    + split; [|done| | | |].
      * intros i d Hdi. destruct (pi_ok _ _ _ _ _ Hpr i d Hdi) as [->|(a & ? & _)]; [by left|done].
      * intros p x [= -> ->]%list_elem_of_singleton. split; [by apply Hw|]. exists l. auto.
      * apply NoDup_singleton.
      * intros i _ Hi. destruct (decide (i = 0)) as [->|]; [left; set_solver|right].
        split; [lia|]. apply Hw. pose proof (status_lt _ _ _ Hi).
        pose proof (proj1 (ti_parent _ _ Ht i ltac:(lia))). lia.
      * intros i _ Hi. rewrite Hw in Hi by (by eapply status_lt). done.
    + eapply Forall_impl; [exact Hheld|]. intros [[i|x] ops]; [done|]. intros (a & ? & _). done.
Qed.

Lemma init_log_inv null : log_inv null None (init_log null).
Proof.
  exists (mkTree (λ _, 0) (λ _, OpV 0) (λ _, [])). split_and!.
  - split; cbn; [done|by split; [lia|]|lia|].
    intros i Hi. assert (i = 0) as -> by lia. exists []. split_and!; [done|constructor|].
    intros c. rewrite elem_of_nil. split; [done|lia].
  - split; cbn; [|done|by intros ? ? ?%elem_of_nil|constructor|by intros ? [? ?]|].
    + intros i d Hd. apply list_lookup_singleton_Some in Hd as [-> <-]. by left.
    + intros [|i]; [lia|done].
  - repeat constructor.
Qed.

Lemma log_step_inv null initial started s s' :
  log_inv initial started s → log_step null s s' →
  ∃ started', log_inv initial started' s' ∧ (is_Some started → started' = started).
Proof.
  intros Hinv Hstep. destruct Hstep as [s s' Hc|s Hne|logger s s' Hs|s s' Hs].
  - exists started. split; [by eapply client_step_inv|done].
  - exists started. split; [by apply fulfill_step_inv|done].
  - unfold SetLogger in Hs. destruct (ls_pending s) eqn:Hp; [|done]. simplify_eq.
    eexists. split; [by apply (start_inv initial started s)|]. by intros [a ->].
  - unfold init_timeout in Hs. destruct (ls_pending s) eqn:Hp; [|done]. case_match; simplify_eq.
    + exists started. done.
    + eexists. split; [by apply (start_inv initial started s)|]. by intros [a ->].
Qed.

Lemma log_steps_inv null initial started s s' :
  log_inv initial started s → rtc (log_step null) s s' →
  ∃ started', log_inv initial started' s' ∧ (is_Some started → started' = started).
Proof.
  intros Hinv Hsteps. revert started Hinv.
  induction Hsteps as [s|s s1 s2 Hstep _ IH]; intros started Hinv; [by exists started|].
  destruct (log_step_inv _ _ _ _ _ Hinv Hstep) as (started1 & Hinv1 & H1).
  destruct (IH _ Hinv1) as (started2 & Hinv2 & H2). exists started2. split; [done|].
  intros Hs. specialize (H1 Hs). subst. auto.
Qed.

Lemma client_steps_inv initial started s s' :
  log_inv initial started s → rtc client_step s s' → log_inv initial started s'.
Proof. intros Hinv Hsteps. induction Hsteps; [done|]. eauto using client_step_inv. Qed.

(** *** What clients log to *)

(** The logger behind one that a client holds. *)
Definition current h (held : AnyLogger Lg) : option Lg :=
  match held with Actual lg => Some lg | Delegating l => dl_logger <$> h_loggers h !! l end.

Lemma held_unset initial s held ops :
  log_inv initial None s → (held, ops) ∈ ls_held s → current (ls_heap s) held = Some initial.
Proof.
  intros (t & Ht & Hpr & Hheld) Hin. rewrite Forall_forall in Hheld. specialize (Hheld _ Hin).
  destruct held as [l|x]; cbn in Hheld; [|by destruct Hheld as (a & ? & _)].
  destruct (lookup_lt_is_Some_2 _ _ (proj1 Hheld)) as [d Hd]. cbn. rewrite Hd.
  by destruct (pi_ok _ _ _ _ _ Hpr l d Hd) as [->|(a & ? & _)].
Qed.

(** When nothing is left to be fulfilled no logger waits. *)
Lemma all_fulfilled t initial a h i :
  tree_inv t h → progress_inv t initial (Some a) [] h → i < length (h_loggers h) → status h i ≠ Some (Some i).
Proof.
  intros Ht Hpr. induction i as [i IH] using lt_wf_ind. intros Hi Hw.
  destruct (pi_waiting _ _ _ _ _ Hpr i) as [?%elem_of_nil|[H0 Hup]]; [done|done|done|].
  pose proof (proj1 (ti_parent _ _ Ht i (conj H0 Hi))). by apply (IH (t_parent t i)); [|lia|].
Qed.

Lemma held_set initial a s held ops :
  log_inv initial (Some a) s → (held, ops) ∈ ls_held s → Forall proper ops →
  current (ls_heap s) held = Some (derived apply_op ops a)
  ∨ ls_pending s ≠ [] ∧ (∃ l, held = Delegating l) ∧ current (ls_heap s) held = Some initial.
Proof.
  intros (t & Ht & Hpr & Hheld) Hin Hops. rewrite Forall_forall in Hheld. specialize (Hheld _ Hin).
  destruct held as [l|x]; cbn in Hheld.
  - destruct Hheld as [Hl Hpath]. destruct (lookup_lt_is_Some_2 _ _ Hl) as [d Hd]. cbn. rewrite Hd.
    destruct (pi_ok _ _ _ _ _ Hpr l d Hd) as [->|(a' & [= <-] & ->)].
    + right. split_and!; [|by exists l|done]. intros Htodo. rewrite Htodo in Hpr.
      apply (all_fulfilled _ _ _ _ _ Ht Hpr Hl). unfold status. by rewrite Hd.
    + left. cbn. by rewrite Hpath, derived_deferred.
  - destruct Hheld as (a' & [= <-] & Hx). left. cbn. by rewrite Hx.
Qed.

(** C14: before a logger is set, every logger a client has derived from [Log],
    however often, logs to the initial logger.  The first logger that is set -
    or the null logger, if none is within the time - is the one all loggers go
    to: at any later moment, however deriving loggers, fulfilling promises and
    setting further loggers interleave, a logger of any client, derived before
    or after, logs to what its derivation makes of that first logger, or is
    one that waits to be fulfilled and still logs to the initial one; and once
    there are no more promises to fulfil, none waits.  (A [V(0)] or a
    [WithValues()] without values is not passed on by a promise.) *)
Theorem first_logger_reaches_all null s1 :
  rtc client_step (init_log null) s1 →
  (∀ held ops, (held, ops) ∈ ls_held s1 → current (ls_heap s1) held = Some null)
  ∧ ∀ a s2 s3,
      SetLogger a s1 = Some s2 ∨ a = null ∧ init_timeout null s1 = Some s2 →
      rtc (log_step null) s2 s3 →
      ∀ held ops, (held, ops) ∈ ls_held s3 → Forall proper ops →
        current (ls_heap s3) held = Some (derived apply_op ops a)
        ∨ ls_pending s3 ≠ [] ∧ (∃ l, held = Delegating l) ∧ current (ls_heap s3) held = Some null.
Proof.
  intros Hs1. pose proof (client_steps_inv _ _ _ _ (init_log_inv null) Hs1) as Hinv.
  split; [intros held ops; by apply held_unset|]. intros a s2 s3 Hset Hs3 held ops.
  assert (Hinv2 : log_inv null (Some a) s2).
  { assert (Hp : ls_pending s1 = [] ∧ ls_loggerWasSet s1 = false).
    { clear -Hs1. remember (init_log null) as s0 eqn:H0. assert (ls_pending s0 = [] ∧ ls_loggerWasSet s0 = false) by by subst.
      clear H0. induction Hs1 as [|s s' s'' Hc _ IH]; [done|]. apply IH. inversion Hc; subst.
      unfold derive_step. by destruct (derive _ _ _). }
    destruct Hp as [Hp Hw]. destruct Hset as [Hset|[-> Hset]].
    - unfold SetLogger in Hset. rewrite Hp in Hset. simplify_eq. by apply (start_inv null None s1).
    - unfold init_timeout in Hset. rewrite Hp, Hw in Hset. simplify_eq. by apply (start_inv null None s1). }
  destruct (log_steps_inv null _ _ _ _ Hinv2 Hs3) as (started & Hinv3 & Hst).
  rewrite Hst in Hinv3 by done. by apply held_set.
Qed.

(** *** Fulfilling ends *)

Definition waiting_count h : nat := length (filter (λ d, is_Some (dl_promise d)) (h_loggers h)).

Lemma filter_insert_length {A} (P : A → Prop) `{!∀ x, Decision (P x)} (l : list A) i x y :
  l !! i = Some x → P x → ¬ P y → length (filter P l) = S (length (filter P (<[i := y]> l))).
Proof.
  intros Hi Hx Hy. revert i Hi. induction l as [|z l IH]; intros [|i] Hi; simplify_eq/=.
  - by rewrite filter_cons_True, filter_cons_False.
  - rewrite !filter_cons. case_decide; cbn; by rewrite (IH i).
Qed.

Lemma fulfill_loop_ends t initial a fuel todo h :
  tree_inv t h → progress_inv t initial (Some a) todo h → waiting_count h ≤ fuel →
  (fulfill_loop fuel todo h).1 = [].
Proof.
  revert todo h. induction fuel as [|fuel IH]; intros todo h Ht Hpr Hfuel.
  - destruct todo as [|[p x] todo]; [done|]. exfalso.
    destruct (pi_todo _ _ _ _ _ Hpr p x) as [Hw _]; [set_solver|].
    unfold status in Hw. destruct (h_loggers h !! p) as [d|] eqn:Hd; [|done].
    assert (d ∈ filter (λ d, is_Some (dl_promise d)) (h_loggers h)) as Hin.
    { apply list_elem_of_filter. split; [|by eapply list_elem_of_lookup_2]. cbn in Hw. simplify_eq. eauto. }
    unfold waiting_count in Hfuel. destruct (filter _ _); [by apply elem_of_nil in Hin|cbn in Hfuel; lia].
  - destruct todo as [|[p x] todo].
    { cbn. apply IH; [done|done|]. destruct (decide (waiting_count h = 0)) as [|Hw]; [lia|].
      exfalso. unfold waiting_count in Hw. destruct (filter _ _) as [|d ds] eqn:Hf; [done|].
      assert (Hin : d ∈ filter (λ d, is_Some (dl_promise d)) (h_loggers h)) by (rewrite Hf; set_solver).
      apply list_elem_of_filter in Hin as [Hd Hin]. apply list_elem_of_lookup in Hin as [i Hi].
      apply (all_fulfilled t initial a h i Ht Hpr); [by eapply lookup_lt_Some|].
      unfold status. rewrite Hi. by destruct (pi_ok _ _ _ _ _ Hpr i d Hi) as [->|(? & _ & ->)]; [|destruct Hd]. }
    cbn [fulfill_loop].
    destruct (pi_todo _ _ _ _ _ Hpr p x) as [Hw _]; [set_solver|].
    destruct (fulfill_one_inv t initial a p x todo h Ht Hpr) as (children & Heq & Hpr').
    rewrite Heq in *. cbn [fst snd] in Hpr'. apply IH; [|exact Hpr'|].
    + apply tree_inv_loggers; [|done]. apply length_insert.
    + unfold waiting_count in *. cbn [h_loggers]. unfold status in Hw.
      destruct (h_loggers h !! p) as [d|] eqn:Hd; [|done].
      rewrite (filter_insert_length _ _ _ _ (mkDL (derived deferred (t_path t p) a) None) Hd) in Hfuel;
        [lia| |by intros [? ?]]. cbn in Hw. simplify_eq. eauto.
Qed.

(** From every state a program can get its loggers into, fulfilling alone
    ends, after at most one call for each logger there is: the tree of promises
    has no cycle and no promise is visited twice. *)
Theorem fulfilling_ends null s :
  rtc (log_step null) (init_log null) s →
  (fulfill_loop (length (h_loggers (ls_heap s))) (ls_pending s) (ls_heap s)).1 = [].
Proof.
  intros Hs. destruct (log_steps_inv null _ _ _ _ (init_log_inv null) Hs) as (started & (t & Ht & Hpr & _) & _).
  destruct started as [a|].
  - eapply fulfill_loop_ends; [done|done|]. apply length_filter.
  - rewrite (pi_idle _ _ _ _ _ Hpr eq_refl). generalize (length (h_loggers (ls_heap s))).
    intros n. induction n as [|n IH]; [done|]. exact IH.
Qed.

(** Setting a logger a second time, or too late, changes nothing. *)
Lemma second_SetLogger initial a b s s' :
  log_inv initial (Some a) s → SetLogger b s = Some s' → ls_heap s' = ls_heap s ∧ ls_pending s' = [].
Proof.
  intros Hinv Hset. unfold SetLogger in Hset. destruct (ls_pending s) eqn:Hp; [|done].
  destruct (root_status _ _ _ Hinv Hp) as (d & Hd & Hnone). simplify_eq. cbn.
  split; [done|]. unfold start_fulfill. by rewrite Hd, Hnone.
Qed.
End facts.

(** A warning logger that deduplicates logs each message once, in the order of
    their first appearance, and never panics. *)
Section warning_facts.
Context {W Lg V : Type} `{!Logger W Lg V}.

Fixpoint fresh_messages (seen : gset string) (warnings : list (Z * string)) : list string :=
  match warnings with
  | [] => []
  | (code, message) :: warnings =>
      if decide (code ≠ 299%Z ∨ message = "" ∨ message ∈ seen) then fresh_messages seen warnings
      else message :: fresh_messages ({[message]} ∪ seen) warnings
  end.

Lemma HandleWarnings_deduplicate l seen warnings w :
  ∃ written, HandleWarnings warnings (mkWarningLogger l true (Some seen)) w =
    Returned (mkWarningLogger l true (Some written),
              foldl (λ w message, lg_Info l message None w) w (fresh_messages seen warnings)).
Proof.
  revert seen w. induction warnings as [|[code message] warnings IH]; intros seen w; [by exists seen|].
  cbn [HandleWarnings fresh_messages]. unfold HandleWarningHeader. cbn [wl_Deduplicate wl_written wl_logger].
  destruct (decide (code ≠ 299%Z ∨ message = "")) as [Hskip|Hskip].
  - rewrite (decide_True (P := code ≠ 299%Z ∨ message = "" ∨ message ∈ seen)) by tauto. apply IH.
  - destruct (decide (message ∈ seen)) as [Hin|Hin].
    + rewrite (decide_True (P := code ≠ 299%Z ∨ message = "" ∨ message ∈ seen)) by tauto. apply IH.
    + rewrite (decide_False (P := code ≠ 299%Z ∨ message = "" ∨ message ∈ seen)) by tauto. apply IH.
Qed.
End warning_facts.

(** ** On concrete loggers *)

Module Sample.

(** Loggers that know their names, and a log of lines. *)
#[local] Instance named_logger : Logger (list string) string nat := {|
  lg_Enabled _ _ := true;
  lg_Info lg msg _ w := w ++ [lg +:+ ": " +:+ msg];
  lg_Error lg err msg _ w := w ++ [lg +:+ "! " +:+ msg];
  lg_V _ lg := lg;
  lg_WithName name lg := lg +:+ "/" +:+ name;
  lg_WithValues _ lg := lg;
|}.

Abbreviation SampleState := (LogState string nat).

Definition start : SampleState := init_log "null".
Definition one : SampleState := derive_step (Delegating 0) [] (OpWithName "a") start.
Definition two : SampleState := derive_step (Delegating 1) [OpWithName "a"] (OpWithName "b") one.
Definition set : SampleState := default two (SetLogger "base" two).
Definition half : SampleState := fulfill_step set.
(** A client derives from a logger that still waits. *)
Definition between : SampleState := derive_step (Delegating 1) [OpWithName "a"] (OpWithName "c") half.
Definition all : SampleState := fulfill_step (fulfill_step (fulfill_step between)).

Example half_way :
  map (current (ls_heap between)) [Delegating 0; Delegating 1; Delegating 2; Delegating 3]
  = [Some "base"; Some "null"; Some "null"; Some "null"].
Proof. vm_compute. reflexivity. Qed.

Example all_there :
  map (current (ls_heap all)) [Delegating 0; Delegating 1; Delegating 2; Delegating 3]
  = [Some "base"; Some "base/a"; Some "base/a/b"; Some "base/a/c"].
Proof. vm_compute. reflexivity. Qed.

Lemma two_reached : rtc client_step start two.
Proof.
  eapply rtc_l; [apply (client_derives (Delegating 0) [] (OpWithName "a")); apply list_elem_of_here|].
  eapply rtc_l; [apply (client_derives (Delegating 1) [OpWithName "a"] (OpWithName "b")); vm_compute; apply list_elem_of_here|]. apply rtc_refl.
Qed.

Lemma all_reached : rtc (log_step "null") set all.
Proof.
  eapply rtc_l; [apply step_fulfill; discriminate|].
  eapply rtc_l; [apply step_client; apply (client_derives (Delegating 1) [OpWithName "a"] (OpWithName "c"))|].
  { vm_compute. apply list_elem_of_further, list_elem_of_here. }
  do 3 (eapply rtc_l; [apply step_fulfill; vm_compute; discriminate|]). apply rtc_refl.
Qed.

Lemma first_logger_reaches_all_witness :
  current (ls_heap two) (Delegating 2) = Some "null" ∧ current (ls_heap all) (Delegating 3) = Some "base/a/c".
Proof.
  destruct (first_logger_reaches_all "null" two two_reached) as [Hbefore Hafter]. split.
  - apply (Hbefore (Delegating 2) [OpWithName "a"; OpWithName "b"]). apply list_elem_of_here.
  - destruct (Hafter "base" set all (or_introl eq_refl) all_reached (Delegating 3) [OpWithName "a"; OpWithName "c"])
      as [->|(Hp & _)]; [apply list_elem_of_here|by repeat constructor|reflexivity|].
    exfalso. apply Hp. vm_compute. reflexivity.
Defined.

Lemma fulfilling_ends_witness : (fulfill_loop 3 (ls_pending set) (ls_heap set)).1 = [].
Proof.
  apply (fulfilling_ends "null" set). transitivity two.
  - apply rtc_subrel with client_step; [|exact two_reached]. by constructor.
  - eapply rtc_l; [by eapply (step_set "null" "base")|apply rtc_refl].
Defined.

Example warnings_once :
  HandleWarnings [(299, "old"); (200, "no"); (299, ""); (299, "new"); (299, "old")]%Z
    (NewKubeAPIWarningLogger (Lg := string) "api" true) [] =
  Returned (mkWarningLogger "api" true (Some {["old"; "new"]}), ["api: old"; "api: new"]).
Proof. vm_compute. reflexivity. Qed.
End Sample.
