(* ===== verification/Recorder.v ===== *)
(** * The event recorder and its shutdown (src/pkg/internal/recorder/recorder.go)

    A provider makes its broadcaster when the first event is emitted or when it
    is stopped, whichever comes first; every lazy recorder makes its recorder on
    its first event; and a stop must not shut the broadcaster down under an
    emission.  Any number of goroutines emit events and stop the provider; each
    of their steps is one call of [run], so that an interleaving is a sequence
    of goroutines. *)

From S2P Require Export Prelude.

(** [sync.Once]: nothing done yet, the goroutine that does it, or done.  Other
    callers wait while it is being done. *)
Inductive Once := Undone | Doing (i : nat) | Did.

#[export] Instance Once_eq_dec : EqDecision Once.
Proof. solve_decision. Defined.

(** [sync.RWMutex], with the goroutines that hold it. *)
Inductive RWMutex := Readers (X : gset nat) | Writer (i : nat).

(** Where a goroutine is in [Event]: before [recOnce.Do], in it before and in
    [broadcasterOnce.Do], before the new recorder is stored, before [RLock],
    before and after the test of [stopped], and after it returned; the flag
    says whether the event was handed to the recorder. *)
Inductive emit_pc :=
  | EEnsure | EGet | EMake | ENew | ELock | EEmit | EUnlock (handed : bool) | EDone (handed : bool).

(** ... and in the goroutine of [Stop]: in [getBroadcaster] before and in
    [broadcasterOnce.Do], before [stopBroadcaster] is read, before [Lock],
    before [Shutdown], before [stopped] is set, before [Unlock], before the
    channel is closed, and after that. *)
Inductive stop_pc := SGet | SMake | SCheck | SLock | SShutdown | SMark | SUnlock | SClose | SDone.

Section recorder.
(** Events, and whether the broadcaster is the provider's own. *)
Context {E : Type} (producer_owned : bool).

Inductive goroutine :=
  | Emitting (rec : nat) (ev : E) (p : emit_pc)
  | Stopping (p : stop_pc).

(** The provider, its lazy recorders, the broadcaster and the goroutines; of each
    event that was handed over, who emitted it and how often the broadcaster
    had been shut down by then. *)
Record Provider := mkProvider {
  pr_once : Once;
  pr_made : nat;
  pr_stopBroadcaster : bool;
  pr_lock : RWMutex;
  pr_stopped : bool;
  pr_recs : gmap nat Once;
  pr_shutdowns : nat;
  pr_log : list (nat * nat * E * nat);
  pr_goroutines : gmap nat goroutine;
}.
Implicit Types (s : Provider) (i r : nat) (ev : E) (g : goroutine).

Definition set_once (o : Once) s : Provider :=
  mkProvider o (pr_made s) (pr_stopBroadcaster s) (pr_lock s) (pr_stopped s) (pr_recs s) (pr_shutdowns s) (pr_log s)
    (pr_goroutines s).
Definition set_lock (l : RWMutex) s : Provider :=
  mkProvider (pr_once s) (pr_made s) (pr_stopBroadcaster s) l (pr_stopped s) (pr_recs s) (pr_shutdowns s) (pr_log s)
    (pr_goroutines s).
Definition set_rec r (o : Once) s : Provider :=
  mkProvider (pr_once s) (pr_made s) (pr_stopBroadcaster s) (pr_lock s) (pr_stopped s) (<[r := o]> (pr_recs s))
    (pr_shutdowns s) (pr_log s) (pr_goroutines s).
Definition set_goroutine i g s : Provider :=
  mkProvider (pr_once s) (pr_made s) (pr_stopBroadcaster s) (pr_lock s) (pr_stopped s) (pr_recs s) (pr_shutdowns s)
    (pr_log s) (<[i := g]> (pr_goroutines s)).
(** The broadcaster is made, and whether to stop it noted. *)
Definition make_broadcaster s : Provider :=
  mkProvider Did (S (pr_made s)) producer_owned (pr_lock s) (pr_stopped s) (pr_recs s) (pr_shutdowns s) (pr_log s)
    (pr_goroutines s).
Definition hand_over i r ev s : Provider :=
  mkProvider (pr_once s) (pr_made s) (pr_stopBroadcaster s) (pr_lock s) (pr_stopped s) (pr_recs s) (pr_shutdowns s)
    (pr_log s ++ [(i, r, ev, pr_shutdowns s)]) (pr_goroutines s).
Definition shut_down s : Provider :=
  mkProvider (pr_once s) (pr_made s) (pr_stopBroadcaster s) (pr_lock s) (pr_stopped s) (pr_recs s)
    (S (pr_shutdowns s)) (pr_log s) (pr_goroutines s).
Definition mark_stopped s : Provider :=
  mkProvider (pr_once s) (pr_made s) (pr_stopBroadcaster s) (pr_lock s) true (pr_recs s) (pr_shutdowns s) (pr_log s)
    (pr_goroutines s).

(** The [recOnce] of a lazy recorder. *)
Definition recOnce r s : Once := default Undone (pr_recs s !! r).

(** Calling the function of [getBroadcaster]'s [Once], or going on: what to do
    next in either case. *)
Definition enter_once {A} (o : Once) (first again : A) : option A :=
  match o with Undone => Some first | Doing _ => None | Did => Some again end.

(** One step of [Event] (and [Eventf] and [AnnotatedEventf]). *)
Definition run_event i r ev (p : emit_pc) s : option (Provider * emit_pc) :=
  match p with
  | EEnsure => enter_once (recOnce r s) (set_rec r (Doing i) s, EGet) (s, ELock)
  | EGet => enter_once (pr_once s) (set_once (Doing i) s, EMake) (s, ENew)
  | EMake => Some (make_broadcaster s, ENew)
  | ENew => Some (set_rec r Did s, ELock)
  | ELock => match pr_lock s with Readers X => Some (set_lock (Readers ({[i]} ∪ X)) s, EEmit) | Writer _ => None end
  | EEmit => Some (if pr_stopped s then (s, EUnlock false) else (hand_over i r ev s, EUnlock true))
  | EUnlock handed =>
      match pr_lock s with Readers X => Some (set_lock (Readers (X ∖ {[i]})) s, EDone handed) | Writer _ => None end
  | EDone _ => None
  end.

(** ... and of the goroutine of [Stop]. *)
Definition run_stop i (p : stop_pc) s : option (Provider * stop_pc) :=
  match p with
  | SGet => enter_once (pr_once s) (set_once (Doing i) s, SMake) (s, SCheck)
  | SMake => Some (make_broadcaster s, SCheck)
  | SCheck => Some (s, if pr_stopBroadcaster s then SLock else SClose)
  | SLock =>
      match pr_lock s with
      | Readers X => if decide (X = ∅) then Some (set_lock (Writer i) s, SShutdown) else None
      | Writer _ => None
      end
  | SShutdown => Some (shut_down s, SMark)
  | SMark => Some (mark_stopped s, SUnlock)
  | SUnlock => Some (set_lock (Readers ∅) s, SClose)
  | SClose => Some (s, SDone)
  | SDone => None
  end.

(** A step of one goroutine; [None] when it waits or is through. *)
Definition run i s : option Provider :=
  match pr_goroutines s !! i with
  | Some (Emitting r ev p) => '(s, p) ← run_event i r ev p s; Some (set_goroutine i (Emitting r ev p) s)
  | Some (Stopping p) => '(s, p) ← run_stop i p s; Some (set_goroutine i (Stopping p) s)
  | None => None
  end.

Definition fresh_provider : Provider := mkProvider Undone 0 false (Readers ∅) false ∅ 0 [] ∅.

(** [NewProvider], given what [kubernetes.NewForConfig] returns. *)
Definition NewProvider (clientSet : result ()) : result Provider :=
  match clientSet with
  | Err err => Err (ErrorWrap "failed to init clientSet" err)
  | Ok _ => Ok fresh_provider
  end.

(** When a call of [Stop] returns whose goroutine is the i-th. *)
Definition Stop_returns (shutdownCtx_done : bool) i s : bool :=
  shutdownCtx_done || match pr_goroutines s !! i with Some (Stopping SDone) => true | _ => false end.

(** A goroutine runs, or a new one calls [Event] or [Stop]. *)
Inductive step s : Provider → Prop :=
  | step_run i s' : run i s = Some s' → step s s'
  | step_event i r ev : pr_goroutines s !! i = None → step s (set_goroutine i (Emitting r ev EEnsure) s)
  | step_stop i : pr_goroutines s !! i = None → step s (set_goroutine i (Stopping SGet) s).

Definition reachable s : Prop := rtc step fresh_provider s.

(** ** What every goroutine can rely on *)

Definition reading i s : Prop := ∃ X, pr_lock s = Readers X ∧ i ∈ X.
Definition in_log i s : Prop := i ∈ (λ x, x.1.1.1) <$> pr_log s.

Definition emit_ok i r (p : emit_pc) s : Prop :=
  match p with
  | EEnsure => ¬ in_log i s
  | EGet => recOnce r s = Doing i ∧ ¬ in_log i s
  | EMake => recOnce r s = Doing i ∧ pr_once s = Doing i ∧ ¬ in_log i s
  | ENew => recOnce r s = Doing i ∧ pr_once s = Did ∧ ¬ in_log i s
  | ELock => recOnce r s = Did ∧ ¬ in_log i s
  | EEmit => recOnce r s = Did ∧ reading i s ∧ ¬ in_log i s
  | EUnlock true => reading i s ∧ in_log i s
  | EUnlock false => reading i s ∧ ¬ in_log i s ∧ pr_stopped s = true
  | EDone true => in_log i s
  | EDone false => ¬ in_log i s ∧ pr_stopped s = true
  end.

Definition stop_ok i (p : stop_pc) s : Prop :=
  ¬ in_log i s ∧
  match p with
  | SGet => True
  | SMake => pr_once s = Doing i
  | SCheck => pr_once s = Did
  | SLock => pr_once s = Did ∧ producer_owned = true
  | SShutdown => pr_lock s = Writer i ∧ pr_once s = Did ∧ producer_owned = true
  | SMark => pr_lock s = Writer i ∧ pr_once s = Did ∧ producer_owned = true ∧ pr_shutdowns s ≠ 0%nat
  | SUnlock => pr_lock s = Writer i ∧ pr_stopped s = true
  | SClose | SDone => producer_owned = true → pr_stopped s = true
  end.

Definition goroutine_ok i g s : Prop :=
  match g with Emitting r _ p => emit_ok i r p s | Stopping p => stop_ok i p s end.

Definition reads g : bool :=
  match g with Emitting _ _ EEmit | Emitting _ _ (EUnlock _) => true | _ => false end.
Definition writes g : bool :=
  match g with Stopping SShutdown | Stopping SMark | Stopping SUnlock => true | _ => false end.
Definition makes g : bool := match g with Stopping SMake | Emitting _ _ EMake => true | _ => false end.
Definition prepares r g : bool :=
  match g with Emitting r' _ (EGet | EMake | ENew) => bool_decide (r = r') | _ => false end.

(** The invariant: the goroutines, who holds what, and the broadcaster. *)
Record inv s : Prop := {
  inv_goroutines : ∀ i g, pr_goroutines s !! i = Some g → goroutine_ok i g s;
  inv_readers : ∀ X i, pr_lock s = Readers X → i ∈ X → ∃ g, pr_goroutines s !! i = Some g ∧ reads g = true;
  inv_writer : ∀ i, pr_lock s = Writer i → ∃ g, pr_goroutines s !! i = Some g ∧ writes g = true;
  inv_once : ∀ i, pr_once s = Doing i → ∃ g, pr_goroutines s !! i = Some g ∧ makes g = true;
  inv_recs : ∀ r i, recOnce r s = Doing i → ∃ g, pr_goroutines s !! i = Some g ∧ prepares r g = true;
  inv_rec_did : ∀ r, recOnce r s = Did → pr_once s = Did;
  inv_made : pr_made s = if decide (pr_once s = Did) then 1%nat else 0%nat;
  inv_own : pr_once s = Did → pr_stopBroadcaster s = producer_owned;
  inv_down : pr_shutdowns s ≠ 0%nat → producer_owned = true
    ∧ (pr_stopped s = true ∨ ∃ i, pr_goroutines s !! i = Some (Stopping SMark));
  inv_stopped : pr_stopped s = true → pr_shutdowns s ≠ 0%nat;
  inv_log_up : ∀ x, x ∈ pr_log s → x.2 = 0%nat;
  inv_log_once : NoDup ((λ x, x.1.1.1) <$> pr_log s);
  inv_log_from : ∀ i r ev n, (i, r, ev, n) ∈ pr_log s → ∃ p, pr_goroutines s !! i = Some (Emitting r ev p);
}.

(** *** A step of one goroutine, as the others see it *)

Record frame i s s' : Prop := {
  fr_goroutines : ∀ j, j ≠ i → pr_goroutines s' !! j = pr_goroutines s !! j;
  fr_rec : ∀ r j, j ≠ i → recOnce r s = Doing j ↔ recOnce r s' = Doing j;
  fr_rec_did : ∀ r, recOnce r s = Did → recOnce r s' = Did;
  fr_once : ∀ j, j ≠ i → pr_once s = Doing j ↔ pr_once s' = Doing j;
  fr_once_did : pr_once s = Did → pr_once s' = Did;
  fr_reading : ∀ j, j ≠ i → reading j s ↔ reading j s';
  fr_writing : ∀ j, j ≠ i → pr_lock s = Writer j ↔ pr_lock s' = Writer j;
  fr_log : ∀ j, j ≠ i → in_log j s ↔ in_log j s';
  fr_stopped : pr_stopped s = true → pr_stopped s' = true;
  fr_down : pr_shutdowns s ≠ 0%nat → pr_shutdowns s' ≠ 0%nat;
}.

Lemma frame_ok i j g s s' : frame i s s' → j ≠ i → goroutine_ok j g s → goroutine_ok j g s'.
Proof.
  intros [Hg Hr Hrd Ho Hod Hre Hw Hl Hs Hd] Hj.
  destruct g as [r ev p|p]; [destruct p as [| | | | | |[]|[]]|unfold goroutine_ok, stop_ok; rewrite <- (Hl j Hj); destruct p];
    unfold goroutine_ok, emit_ok; rewrite <- ?(Hl j Hj), <- ?(Hre j Hj), <- ?(Hr r j Hj), <- ?(Ho j Hj), <- ?(Hw j Hj);
    naive_solver.
Qed.

(** What the goroutine that moves has to show. *)
Lemma inv_move i g s s' :
  inv s → frame i s s' → pr_goroutines s' !! i = Some g → goroutine_ok i g s' →
  (reading i s' → reads g = true) → (pr_lock s' = Writer i → writes g = true) → (pr_once s' = Doing i → makes g = true) →
  (∀ r, recOnce r s' = Doing i → prepares r g = true) → (∀ r, recOnce r s' = Did → pr_once s' = Did) →
  pr_made s' = (if decide (pr_once s' = Did) then 1%nat else 0%nat) →
  (pr_once s' = Did → pr_stopBroadcaster s' = producer_owned) →
  (pr_shutdowns s' ≠ 0%nat → producer_owned = true
    ∧ (pr_stopped s' = true ∨ ∃ j, pr_goroutines s' !! j = Some (Stopping SMark))) →
  (pr_stopped s' = true → pr_shutdowns s' ≠ 0%nat) →
  (∀ x, x ∈ pr_log s' → x.2 = 0%nat) → NoDup ((λ x, x.1.1.1) <$> pr_log s') →
  (∀ j r ev n, (j, r, ev, n) ∈ pr_log s' → ∃ p, pr_goroutines s' !! j = Some (Emitting r ev p)) → inv s'.
Proof.
  intros [Ig Ir Iw Io Irc _ _ _ _ _ _ _ _] Hf Hi Hok Hr Hw Ho Hrc. intros. split; try done.
  - intros j h. destruct (decide (j = i)) as [->|Hj]; [rewrite Hi; by intros [= <-]|].
    rewrite (fr_goroutines _ _ _ Hf j Hj). intros ?%Ig. by eapply frame_ok.
  - intros X j HX Hj. destruct (decide (j = i)) as [->|Hji]; [exists g; split; [done|]; apply Hr; by exists X|].
    rewrite (fr_goroutines _ _ _ Hf j Hji). destruct (proj2 (fr_reading _ _ _ Hf j Hji)) as (Y & HY & ?); [by exists X|eauto].
  - intros j Hj. destruct (decide (j = i)) as [->|Hji]; [eauto|].
    rewrite (fr_goroutines _ _ _ Hf j Hji). apply Iw. by apply (fr_writing _ _ _ Hf j Hji).
  - intros j Hj. destruct (decide (j = i)) as [->|Hji]; [eauto|].
    rewrite (fr_goroutines _ _ _ Hf j Hji). apply Io. by apply (fr_once _ _ _ Hf j Hji).
  - intros r j Hj. destruct (decide (j = i)) as [->|Hji]; [eauto|].
    rewrite (fr_goroutines _ _ _ Hf j Hji). apply Irc. by apply (fr_rec _ _ _ Hf r j Hji).
Qed.

Lemma recOnce_set_rec r o r' s : recOnce r' (set_rec r o s) = if decide (r' = r) then o else recOnce r' s.
Proof.
  unfold recOnce. cbn. case_decide as Hr; [subst; by rewrite lookup_insert_eq|by rewrite lookup_insert_ne].
Qed.

Lemma in_log_hand_over i r ev j s : in_log j (hand_over i r ev s) ↔ in_log j s ∨ j = i.
Proof. unfold in_log. cbn. rewrite fmap_app, elem_of_app. cbn. by rewrite list_elem_of_singleton. Qed.

Lemma frame_set_goroutine i g s s' : frame i s s' → frame i s (set_goroutine i g s').
Proof.
  intros [? ? ? ? ? ? ? ? ? ?]. split; try done. intros j Hj. cbn. rewrite lookup_insert_ne; auto.
Qed.

Ltac frame_tac :=
  split; intros; rewrite ?recOnce_set_rec; try (case_decide; subst); unfold reading, in_log; cbn;
  try done; try congruence; try (split; congruence); try naive_solver; try set_solver.

(** Who reads, before and after the lock changes hands. *)
Ltac lock_tac Hl :=
  rewrite Hl; split; intros (Y & HX & HY); simplify_eq; first
    [exfalso; set_solver | eexists; (split; [reflexivity|set_solver])].

Lemma frame_refl i s : frame i s s.
Proof. frame_tac. Qed.
Lemma frame_set_rec_doing i r s : recOnce r s = Undone → frame i s (set_rec r (Doing i) s).
Proof. intros Hr. frame_tac. Qed.
Lemma frame_set_rec_did i r s : recOnce r s = Doing i → frame i s (set_rec r Did s).
Proof. intros Hr. frame_tac. Qed.
Lemma frame_set_once i s : pr_once s = Undone → frame i s (set_once (Doing i) s).
Proof. intros Ho. frame_tac. Qed.
Lemma frame_make_broadcaster i s : pr_once s = Doing i → frame i s (make_broadcaster s).
Proof. intros Ho. frame_tac. Qed.
Lemma frame_RLock i X s : pr_lock s = Readers X → frame i s (set_lock (Readers ({[i]} ∪ X)) s).
Proof. intros Hl. frame_tac. all: lock_tac Hl. Qed.
Lemma frame_RUnlock i X s : pr_lock s = Readers X → frame i s (set_lock (Readers (X ∖ {[i]})) s).
Proof. intros Hl. frame_tac. all: lock_tac Hl. Qed.
Lemma frame_Lock i s : pr_lock s = Readers ∅ → frame i s (set_lock (Writer i) s).
Proof. intros Hl. frame_tac. all: lock_tac Hl. Qed.
Lemma frame_Unlock i s : pr_lock s = Writer i → frame i s (set_lock (Readers ∅) s).
Proof. intros Hl. frame_tac. all: lock_tac Hl. Qed.
Lemma frame_hand_over i r ev s : frame i s (hand_over i r ev s).
Proof. split; intros; rewrite ?in_log_hand_over; try done. naive_solver. Qed.
Lemma frame_shut_down i s : frame i s (shut_down s).
Proof. frame_tac. Qed.
Lemma frame_mark_stopped i s : frame i s (mark_stopped s).
Proof. frame_tac. Qed.

Lemma inv_self i g s :
  inv s → pr_goroutines s !! i = Some g →
  goroutine_ok i g s ∧ (reading i s → reads g = true) ∧ (pr_lock s = Writer i → writes g = true) ∧ (pr_once s = Doing i → makes g = true)
  ∧ (∀ r, recOnce r s = Doing i → prepares r g = true).
Proof.
  intros [Ig Ir Iw Io Irc _ _ _ _ _ _ _ _] Hi. split; [auto|]. split.
  { intros (X & HX & HiX). destruct (Ir X i HX HiX) as (? & ? & ?). congruence. }
  split; [intros Hl; destruct (Iw i Hl) as (? & ? & ?); congruence|].
  split; [intros Ho; destruct (Io i Ho) as (? & ? & ?); congruence|].
  intros r Hr. destruct (Irc r i Hr) as (? & ? & ?). congruence.
Qed.

(** The same emission, or a stop that is not about to set [stopped]. *)
Definition goes_on g g' : Prop :=
  match g with
  | Emitting r ev _ => ∃ p, g' = Emitting r ev p
  | Stopping p => p ≠ SMark ∧ ∃ p', g' = Stopping p'
  end.

(** A move that does not touch the broadcaster's life. *)
Lemma inv_move_quiet i g g' s s1 :
  inv s → pr_goroutines s !! i = Some g → goes_on g g' → frame i s s1 → pr_goroutines s1 = pr_goroutines s →
  pr_stopped s1 = pr_stopped s → pr_shutdowns s1 = pr_shutdowns s → pr_log s1 = pr_log s →
  goroutine_ok i g' s1 →
  (reading i s1 → reads g' = true) → (pr_lock s1 = Writer i → writes g' = true) → (pr_once s1 = Doing i → makes g' = true) →
  (∀ r, recOnce r s1 = Doing i → prepares r g' = true) → (∀ r, recOnce r s1 = Did → pr_once s1 = Did) →
  pr_made s1 = (if decide (pr_once s1 = Did) then 1%nat else 0%nat) →
  (pr_once s1 = Did → pr_stopBroadcaster s1 = producer_owned) → inv (set_goroutine i g' s1).
Proof.
  intros Hinv Hi Hon Hf Hgs Hst Hsd Hlog Hok Hr Hw Ho Hrc Hrd Hm Hown.
  apply (inv_move i g' s); try done; cbn.
  - by apply frame_set_goroutine.
  - by rewrite lookup_insert_eq.
  - rewrite Hst, Hsd. intros [? [?|[j Hj]]]%(inv_down s Hinv); [auto|]. split; [done|]. right. exists j.
    rewrite Hgs, lookup_insert_ne; [done|]. intros ->. rewrite Hi in Hj. injection Hj as ->. by destruct Hon.
  - rewrite Hst, Hsd. apply (inv_stopped s Hinv).
  - rewrite Hlog. apply (inv_log_up s Hinv).
  - rewrite Hlog. apply (inv_log_once s Hinv).
  - rewrite Hlog, Hgs. intros j r ev n Hj%(inv_log_from s Hinv). destruct (decide (j = i)) as [->|Hne].
    + rewrite Hi in Hj. destruct Hj as [p [= ->]]. destruct Hon as [p' ->]. exists p'. by rewrite lookup_insert_eq.
    + by rewrite lookup_insert_ne.
Qed.

Lemma recOnce_set_lock r l s : recOnce r (set_lock l s) = recOnce r s.
Proof. done. Qed.
Lemma recOnce_set_once r o s : recOnce r (set_once o s) = recOnce r s.
Proof. done. Qed.

(** What a move has to show, with the fields of the new state computed. *)
Ltac move_tac :=
  intros; unfold goroutine_ok, emit_ok, stop_ok, reading, in_log in *; cbn in *;
  rewrite ?recOnce_set_rec, ?recOnce_set_lock, ?recOnce_set_once in *;
  repeat case_decide; subst; rewrite ?bool_decide_true by done; try done; try congruence; try tauto; eauto 3.

Lemma run_event_inv i r ev p p' s s1 :
  inv s → pr_goroutines s !! i = Some (Emitting r ev p) → run_event i r ev p s = Some (s1, p') →
  inv (set_goroutine i (Emitting r ev p') s1).
Proof.
  intros Hinv Hi. destruct (inv_self _ _ _ Hinv Hi) as (Hok & Hr & Hw & Ho & Hrc).
  assert (Hquiet : ∀ p'', frame i s s1 → pr_goroutines s1 = pr_goroutines s →
    pr_stopped s1 = pr_stopped s → pr_shutdowns s1 = pr_shutdowns s → pr_log s1 = pr_log s →
    goroutine_ok i (Emitting r ev p'') s1 →
    (reading i s1 → reads (Emitting r ev p'') = true) → (pr_lock s1 = Writer i → false = true) →
    (pr_once s1 = Doing i → makes (Emitting r ev p'') = true) →
    (∀ r', recOnce r' s1 = Doing i → prepares r' (Emitting r ev p'') = true) →
    (∀ r', recOnce r' s1 = Did → pr_once s1 = Did) →
    pr_made s1 = (if decide (pr_once s1 = Did) then 1%nat else 0%nat) →
    (pr_once s1 = Did → pr_stopBroadcaster s1 = producer_owned) → inv (set_goroutine i (Emitting r ev p'') s1)).
  { intros. apply (inv_move_quiet i (Emitting r ev p) _ s); try done. by eexists. }
  pose proof (inv_rec_did s Hinv) as Hrd. pose proof (inv_made s Hinv) as Hm. pose proof (inv_own s Hinv) as Hown.
  destruct p; cbn [run_event]; unfold enter_once; intros Hrun.
  - (* EEnsure *)
    destruct (recOnce r s) eqn:Hro; simplify_eq; apply Hquiet;
      first [done | by apply frame_set_rec_doing | apply frame_refl | idtac]; clear Hquiet Hinv; move_tac.
  - (* EGet *)
    destruct (pr_once s) eqn:Hon; simplify_eq; apply Hquiet;
      first [done | by apply frame_set_once | apply frame_refl | idtac]; clear Hquiet Hinv; move_tac.
    match goal with H : recOnce _ _ = Did |- _ => apply Hrd in H; congruence end.
  - (* EMake *)
    simplify_eq. destruct Hok as (Hrec & Hon & Hlog). apply Hquiet;
      first [done | by apply frame_make_broadcaster | idtac]; clear Hquiet Hinv; move_tac.
  - (* ENew *)
    simplify_eq. destruct Hok as (Hrec & Hon & Hlog). apply Hquiet;
      first [done | by apply frame_set_rec_did | idtac]; clear Hquiet Hinv; move_tac.
    match goal with H : recOnce _ s = Doing i |- _ => apply Hrc in H; cbn in H end.
    by rewrite bool_decide_false in * by done.
  - (* ELock *)
    destruct (pr_lock s) eqn:Hl; simplify_eq. destruct Hok as [Hrec Hlog]. apply Hquiet;
      first [done | by apply frame_RLock | idtac]; clear Hquiet Hinv; move_tac.
    all: split_and!; [done| |done]; eexists; (split; [done|set_solver]).
  - (* EEmit *)
    destruct Hok as (Hrec & Hread & Hlog). destruct (pr_stopped s) eqn:Hst; simplify_eq.
    { apply Hquiet; first [done | apply frame_refl | idtac]; clear Hquiet Hinv; move_tac. }
    clear Hquiet. assert (Hup : pr_shutdowns s = 0%nat).
    { destruct (decide (pr_shutdowns s = 0%nat)) as [?|Hd]; [done|]. exfalso.
      destruct (inv_down s Hinv Hd) as [_ [?|[j Hj]]]; [congruence|].
      destruct Hread as (X & HX & _). destruct (inv_self _ _ _ Hinv Hj) as ((_ & Hlw & _) & _). congruence. }
    apply (inv_move i (Emitting r ev (EUnlock true)) s); try done; cbn.
    + apply frame_set_goroutine, frame_hand_over.
    + by rewrite lookup_insert_eq.
    + split; [done|]. apply in_log_hand_over. by right.
    + by rewrite Hst.
    + intros x [Hx| ->%list_elem_of_singleton]%elem_of_app; [by apply (inv_log_up s Hinv)|done].
    + rewrite fmap_app. apply NoDup_app. split; [apply (inv_log_once s Hinv)|]. split; [|apply NoDup_singleton].
      intros j Hj ->%list_elem_of_singleton. by apply Hlog.
    + intros j r' ev' n [Hj%(inv_log_from s Hinv)|[= -> -> -> _]%list_elem_of_singleton]%elem_of_app.
      * destruct (decide (j = i)) as [->|Hne]; [|by rewrite lookup_insert_ne].
        rewrite Hi in Hj. destruct Hj as [p'' [= -> ->]]. eexists. by rewrite lookup_insert_eq.
      * eexists. by rewrite lookup_insert_eq.
  - (* EUnlock *)
    destruct (pr_lock s) eqn:Hl; simplify_eq. apply Hquiet;
      first [done | by apply frame_RUnlock | idtac]; clear Hquiet Hinv.
    { unfold goroutine_ok, emit_ok, in_log in *. destruct handed; naive_solver. }
    all: move_tac; match goal with H : ∃ _, _ |- _ => destruct H as (Y & [= <-] & HY); set_solver end.
  - done.
Qed.

Lemma run_stop_inv i p p' s s1 :
  inv s → pr_goroutines s !! i = Some (Stopping p) → run_stop i p s = Some (s1, p') →
  inv (set_goroutine i (Stopping p') s1).
Proof.
  intros Hinv Hi. destruct (inv_self _ _ _ Hinv Hi) as ([Hlog Hok] & Hr & Hw & Ho & Hrc).
  assert (Hquiet : ∀ p'', p ≠ SMark → frame i s s1 → pr_goroutines s1 = pr_goroutines s →
    pr_stopped s1 = pr_stopped s → pr_shutdowns s1 = pr_shutdowns s → pr_log s1 = pr_log s →
    goroutine_ok i (Stopping p'') s1 →
    (reading i s1 → false = true) → (pr_lock s1 = Writer i → writes (Stopping p'') = true) →
    (pr_once s1 = Doing i → makes (Stopping p'') = true) →
    (∀ r', recOnce r' s1 = Doing i → false = true) →
    (∀ r', recOnce r' s1 = Did → pr_once s1 = Did) →
    pr_made s1 = (if decide (pr_once s1 = Did) then 1%nat else 0%nat) →
    (pr_once s1 = Did → pr_stopBroadcaster s1 = producer_owned) → inv (set_goroutine i (Stopping p'') s1)).
  { intros. apply (inv_move_quiet i (Stopping p) _ s); try done. split; [done|]. by eexists. }
  pose proof (inv_rec_did s Hinv) as Hrd. pose proof (inv_made s Hinv) as Hm. pose proof (inv_own s Hinv) as Hown.
  assert (Hfrom : ∀ j r ev n, (j, r, ev, n) ∈ pr_log s → ∃ p, <[i:=Stopping p']> (pr_goroutines s) !! j = Some (Emitting r ev p)).
  { intros j r ev n Hj%(inv_log_from s Hinv). rewrite lookup_insert_ne; [done|]. intros ->. rewrite Hi in Hj. naive_solver. }
  destruct p; cbn [run_stop]; unfold enter_once; intros Hrun.
  - (* SGet *)
    destruct (pr_once s) eqn:Hon; simplify_eq; apply Hquiet;
      first [done | by apply frame_set_once | apply frame_refl | idtac]; clear Hquiet Hinv; move_tac.
    match goal with H : recOnce _ _ = Did |- _ => apply Hrd in H; congruence end.
  - (* SMake *)
    simplify_eq. apply Hquiet; first [done | by apply frame_make_broadcaster | idtac]; clear Hquiet Hinv; move_tac.
  - (* SCheck *)
    simplify_eq. apply Hquiet; first [done | apply frame_refl | idtac]; clear Hquiet Hinv.
    { specialize (Hown Hok). destruct (pr_stopBroadcaster s1); split; try done. naive_solver. }
    all: destruct (pr_stopBroadcaster s1); move_tac.
  - (* SLock *)
    destruct (pr_lock s) as [X|] eqn:Hl; [|done]. destruct (decide (X = ∅)) as [->|]; [|done]. simplify_eq.
    apply Hquiet; first [done | by apply frame_Lock | idtac]; clear Hquiet Hinv; move_tac.
    all: match goal with H : ∃ _, _ |- _ => by destruct H as (Y & ? & ?) end.
  - (* SShutdown *)
    simplify_eq. apply (inv_move i (Stopping SMark) s); try done; cbn.
    + apply frame_set_goroutine, frame_shut_down.
    + by rewrite lookup_insert_eq.
    + destruct Hok as (? & ? & ?). by split_and!.
    + intros _. destruct Hok as (_ & _ & ?). split; [done|]. right. exists i. by rewrite lookup_insert_eq.
    + apply (inv_log_up s Hinv).
    + apply (inv_log_once s Hinv).
  - (* SMark *)
    simplify_eq. destruct Hok as (Hl & Hon & Ho1 & Hd). apply (inv_move i (Stopping SUnlock) s); try done; cbn.
    + apply frame_set_goroutine, frame_mark_stopped.
    + by rewrite lookup_insert_eq.
    + intros _. split; [done|by left].
    + apply (inv_log_up s Hinv).
    + apply (inv_log_once s Hinv).
  - (* SUnlock *)
    simplify_eq. destruct Hok as [Hl Hst].
    apply Hquiet; first [done | by apply frame_Unlock | idtac]; clear Hquiet Hinv; move_tac.
    all: match goal with H : ∃ _, _ |- _ => destruct H as (Y & [= <-] & HY); set_solver end.
  - (* SClose *) simplify_eq. apply Hquiet; first [done | apply frame_refl | idtac]; clear Hquiet Hinv; move_tac.
  - done.
Qed.

Lemma inv_new_goroutine i g s :
  inv s → pr_goroutines s !! i = None → g = Stopping SGet ∨ (∃ r ev, g = Emitting r ev EEnsure) → inv (set_goroutine i g s).
Proof.
  intros Hinv Hi Hg. assert (Hlog : ¬ in_log i s).
  { intros ([[[j r] ev] n] & -> & [p Hp]%(inv_log_from s Hinv))%list_elem_of_fmap. cbn in *. congruence. }
  assert (Hno : ∀ P : goroutine → Prop, ¬ ∃ h, pr_goroutines s !! i = Some h ∧ P h) by (intros P (? & ? & _); congruence).
  apply (inv_move i g s); cbn; [exact Hinv|..].
  - apply frame_set_goroutine, frame_refl.
  - by rewrite lookup_insert_eq.
  - destruct Hg as [->|(r & ev & ->)]; [by split|done].
  - intros (X & HX & Hx). destruct (Hno (λ h, reads h = true)). by eapply (inv_readers s Hinv).
  - intros Hl. destruct (Hno (λ h, writes h = true)). by apply (inv_writer s Hinv).
  - intros Ho. destruct (Hno (λ h, makes h = true)). by apply (inv_once s Hinv).
  - intros r Hr. destruct (Hno (λ h, prepares r h = true)). by apply (inv_recs s Hinv).
  - apply (inv_rec_did s Hinv).
  - apply (inv_made s Hinv).
  - apply (inv_own s Hinv).
  - intros [? [?|[j Hj]]]%(inv_down s Hinv); [auto|]. split; [done|]. right. exists j. rewrite lookup_insert_ne; [done|congruence].
  - apply (inv_stopped s Hinv).
  - apply (inv_log_up s Hinv).
  - apply (inv_log_once s Hinv).
  - intros j r ev n [p Hp]%(inv_log_from s Hinv). exists p. rewrite lookup_insert_ne; [done|congruence].
Qed.

Lemma inv_step s s' : inv s → step s s' → inv s'.
Proof.
  intros Hinv [i s1 Hrun|i r ev Hi|i Hi].
  - unfold run in Hrun. destruct (pr_goroutines s !! i) as [[r ev p|p]|] eqn:Hi; [| |done].
    + destruct (run_event i r ev p s) as [[s2 p']|] eqn:He; [|done]. injection Hrun as <-. by eapply run_event_inv.
    + destruct (run_stop i p s) as [[s2 p']|] eqn:He; [|done]. injection Hrun as <-. by eapply run_stop_inv.
  - apply inv_new_goroutine; eauto.
  - apply inv_new_goroutine; eauto.
Qed.

Lemma inv_fresh_provider : inv fresh_provider.
Proof. split; try done; [by intros X i [= <-] ?%not_elem_of_empty|by intros ? ?%not_elem_of_nil|constructor|by intros ? ? ? ? ?%not_elem_of_nil]. Qed.

Lemma inv_reachable s : reachable s → inv s.
Proof.
  intros Hr. unfold reachable in Hr. remember fresh_provider as s0 eqn:H0. assert (Hinv : inv s0) by (subst; apply inv_fresh_provider).
  clear H0. induction Hr; [done|]. eauto using inv_step.
Qed.

(** *** Every call ends *)

(** How many steps a goroutine has left. *)
Definition remaining g : nat :=
  match g with
  | Emitting _ _ EEnsure => 7 | Emitting _ _ EGet => 6 | Emitting _ _ EMake => 5 | Emitting _ _ ENew => 4
  | Emitting _ _ ELock => 3 | Emitting _ _ EEmit => 2 | Emitting _ _ (EUnlock _) => 1 | Emitting _ _ (EDone _) => 0
  | Stopping SGet => 8 | Stopping SMake => 7 | Stopping SCheck => 6 | Stopping SLock => 5 | Stopping SShutdown => 4
  | Stopping SMark => 3 | Stopping SUnlock => 2 | Stopping SClose => 1 | Stopping SDone => 0
  end.

Definition total (gs : gmap nat goroutine) : nat := map_fold (λ _ g n, remaining g + n)%nat 0%nat gs.

Lemma total_insert i g gs : total (<[i:=g]> gs) = (remaining g + total (delete i gs))%nat.
Proof.
  unfold total. rewrite <- insert_delete_eq.
  apply (map_fold_insert_L (λ _ g n, remaining g + n)%nat 0%nat i g (delete i gs)); [intros; lia|apply lookup_delete_eq].
Qed.

Lemma run_event_remaining i r ev p p' s s1 :
  run_event i r ev p s = Some (s1, p') →
  pr_goroutines s1 = pr_goroutines s ∧ (remaining (Emitting r ev p') < remaining (Emitting r ev p))%nat.
Proof. destruct p; cbn; unfold enter_once; intros; repeat case_match; simplify_eq/=; split; (done || lia). Qed.
Lemma run_stop_remaining i p p' s s1 :
  run_stop i p s = Some (s1, p') → pr_goroutines s1 = pr_goroutines s ∧ (remaining (Stopping p') < remaining (Stopping p))%nat.
Proof. destruct p; cbn; unfold enter_once; intros; repeat case_match; simplify_eq/=; split; (done || lia). Qed.

Lemma run_total i s s' : run i s = Some s' → (total (pr_goroutines s') < total (pr_goroutines s))%nat.
Proof.
  unfold run. destruct (pr_goroutines s !! i) as [g|] eqn:Hi; [|done].
  assert (Hs : total (pr_goroutines s) = (remaining g + total (delete i (pr_goroutines s)))%nat).
  { rewrite <- (insert_id _ _ _ Hi) at 1. apply total_insert. }
  destruct g as [r ev p|p].
  - destruct (run_event i r ev p s) as [[s1 p']|] eqn:He; [|done]. intros [= <-].
    apply run_event_remaining in He as [Hg Hlt]. cbn [set_goroutine pr_goroutines]. rewrite Hg, total_insert, Hs. lia.
  - destruct (run_stop i p s) as [[s1 p']|] eqn:He; [|done]. intros [= <-].
    apply run_stop_remaining in He as [Hg Hlt]. cbn [set_goroutine pr_goroutines]. rewrite Hg, total_insert, Hs. lia.
Qed.

Definition can_run s : Prop := ∃ i s', run i s = Some s'.

Lemma can_run_goroutine i g s :
  pr_goroutines s !! i = Some g →
  match g with
  | Emitting r ev p => is_Some (run_event i r ev p s)
  | Stopping p => is_Some (run_stop i p s)
  end → can_run s.
Proof.
  intros Hi Hg. exists i. unfold run. rewrite Hi. destruct g as [r ev p|p]; destruct Hg as [[s1 p'] Hg]; rewrite Hg; eauto.
Qed.

(** Whoever holds a lock or makes something can go on. *)
Lemma writer_runs s i : inv s → pr_lock s = Writer i → can_run s.
Proof.
  intros Hinv (g & Hg & Hw)%(inv_writer s Hinv). apply (can_run_goroutine i g s Hg).
  destruct g as [|[]]; try done; cbn; eauto.
Qed.
Lemma maker_runs s i : inv s → pr_once s = Doing i → can_run s.
Proof.
  intros Hinv (g & Hg & Hm)%(inv_once s Hinv). apply (can_run_goroutine i g s Hg).
  destruct g as [? ? []|[]]; try done; cbn; eauto.
Qed.
Lemma getter_runs i g s :
  inv s → pr_goroutines s !! i = Some g → g = Stopping SGet ∨ (∃ r ev, g = Emitting r ev EGet) → can_run s.
Proof.
  intros Hinv Hi Hg. destruct (pr_once s) as [|j|] eqn:Ho; [|by eapply maker_runs|].
  all: apply (can_run_goroutine i g s Hi); destruct Hg as [->|(r & ev & ->)]; cbn; rewrite Ho; cbn; eauto.
Qed.
Lemma preparer_runs s r i : inv s → recOnce r s = Doing i → can_run s.
Proof.
  intros Hinv (g & Hg & Hp)%(inv_recs s Hinv). destruct g as [r' ev p|]; [|done].
  destruct p; try done; [eapply getter_runs; eauto|..]; apply (can_run_goroutine i _ s Hg); cbn; eauto.
Qed.
Lemma reader_runs s X i : inv s → pr_lock s = Readers X → i ∈ X → can_run s.
Proof.
  intros Hinv Hl Hi. destruct (inv_readers s Hinv X i Hl Hi) as (g & Hg & Hr). apply (can_run_goroutine i g s Hg).
  destruct g as [r ev []|]; try done; cbn; rewrite ?Hl; eauto.
Qed.

Lemma unfinished_runs s i g : inv s → pr_goroutines s !! i = Some g → remaining g ≠ 0%nat → can_run s.
Proof.
  intros Hinv Hi Hrem. destruct g as [r ev p|p].
  - destruct p; try done.
    + destruct (recOnce r s) as [|j|] eqn:Hr; [|by eapply preparer_runs|];
        apply (can_run_goroutine i _ s Hi); cbn; rewrite Hr; cbn; eauto.
    + eapply getter_runs; eauto.
    + apply (can_run_goroutine i _ s Hi); cbn; eauto.
    + apply (can_run_goroutine i _ s Hi); cbn; eauto.
    + destruct (pr_lock s) as [X|j] eqn:Hl; [|by eapply writer_runs].
      apply (can_run_goroutine i _ s Hi); cbn; rewrite Hl; eauto.
    + apply (can_run_goroutine i _ s Hi); cbn; eauto.
    + destruct (pr_lock s) as [X|j] eqn:Hl; [|by eapply writer_runs].
      apply (can_run_goroutine i _ s Hi); cbn; rewrite Hl; eauto.
  - destruct p; try done; [eapply getter_runs; eauto|..]; try (apply (can_run_goroutine i _ s Hi); cbn; eauto; done).
    destruct (pr_lock s) as [X|j] eqn:Hl; [|by eapply writer_runs].
    destruct (decide (X = ∅)) as [->|Hne]; [|apply set_choose_L in Hne as [j Hj]; by eapply reader_runs].
    apply (can_run_goroutine i _ s Hi); cbn; rewrite Hl; cbn; eauto.
Qed.

(** *** After a stop *)

Lemma stopped_step s s' : step s s' → pr_stopped s = true → pr_stopped s' = true ∧ pr_log s' = pr_log s.
Proof.
  intros [i s1 Hrun| |] Hst; [|done..]. unfold run in Hrun.
  destruct (pr_goroutines s !! i) as [[r ev p|p]|]; [| |done].
  - destruct p; cbn in Hrun; unfold enter_once in Hrun; repeat case_match; simplify_eq/=; done.
  - destruct p; cbn in Hrun; unfold enter_once in Hrun; repeat case_match; simplify_eq/=; done.
Qed.

Lemma stopped_steps s s' : rtc step s s' → pr_stopped s = true → pr_stopped s' = true ∧ pr_log s' = pr_log s.
Proof.
  induction 1 as [|s1 s2 s3 Hs _ IH]; [done|]. intros Hst. destruct (stopped_step _ _ Hs Hst) as [Hst2 Hl].
  destruct (IH Hst2) as [? ?]. split; [done|congruence].
Qed.

(** C26: however events and stops interleave, the broadcaster is made at most once
    and no event is handed to it after it was shut down, which would panic: an
    [Event] that has returned handed its event over, once, unless the provider
    had been stopped.  A broadcaster the provider does not own is never shut
    down; and once a stop of an own one is through, nothing is handed over any
    more. *)
Theorem no_event_after_shutdown s :
  reachable s →
  (pr_made s ≤ 1)%nat ∧ NoDup ((λ x, x.1.1.1) <$> pr_log s) ∧ (∀ x, x ∈ pr_log s → x.2 = 0%nat)
  ∧ (∀ i r ev handed, pr_goroutines s !! i = Some (Emitting r ev (EDone handed)) →
       if handed then ∃ n, (i, r, ev, n) ∈ pr_log s else pr_stopped s = true ∧ ¬ in_log i s)
  ∧ (producer_owned = false → pr_shutdowns s = 0%nat)
  ∧ ∀ i s', producer_owned = true → pr_goroutines s !! i = Some (Stopping SDone) → rtc step s s' → pr_log s' = pr_log s.
Proof.
  intros Hinv%inv_reachable. split_and!.
  - rewrite (inv_made s Hinv). case_decide; lia.
  - apply (inv_log_once s Hinv).
  - apply (inv_log_up s Hinv).
  - intros i r ev handed Hi. destruct (inv_self _ _ _ Hinv Hi) as (Hok & _). cbn in Hok. destruct handed; [|by destruct Hok].
    apply list_elem_of_fmap in Hok as ([[[j r'] ev'] n] & -> & Hin). cbn in *.
    destruct (inv_log_from s Hinv _ _ _ _ Hin) as [p Hp]. rewrite Hi in Hp. injection Hp as <- <- _. by exists n.
  - intros Hown. destruct (decide (pr_shutdowns s = 0%nat)) as [|Hd]; [done|]. apply (inv_down s Hinv) in Hd as [? _]. congruence.
  - intros i s' Hown Hi Hsteps. destruct (inv_self _ _ _ Hinv Hi) as ([_ Hok] & _).
    apply (stopped_steps _ _ Hsteps). by apply Hok.
Qed.

(** No call waits for ever: from every reachable state all goroutines can go
    on until each [Event] and each goroutine of [Stop] has returned, and no
    matter which of them runs next, the number of steps that are left gets
    smaller. *)
Theorem events_and_stops_end s :
  reachable s →
  (∀ i s', run i s = Some s' → (total (pr_goroutines s') < total (pr_goroutines s))%nat)
  ∧ ∃ s', rtc step s s' ∧ ∀ i g, pr_goroutines s' !! i = Some g → remaining g = 0%nat.
Proof.
  intros Hinv%inv_reachable. split; [intros i s'; apply run_total|].
  remember (total (pr_goroutines s)) as n eqn:Hn. revert s Hinv Hn.
  induction (lt_wf n) as [n _ IH]. intros s Hinv ->.
  destruct (decide (map_Forall (λ _ g, remaining g = 0%nat) (pr_goroutines s))) as [Hall|Hnot].
  { exists s. split; [constructor|]. intros i g Hi. by apply (Hall i g). }
  apply map_not_Forall in Hnot as (i & g & Hi & Hg); [|apply _].
  destruct (unfinished_runs s i g Hinv Hi Hg) as (j & s1 & Hrun).
  destruct (IH _ (run_total _ _ _ Hrun) s1) as (s2 & Hs & Hdone); [eapply inv_step; [done|by eapply step_run]|done|].
  exists s2. split; [|done]. eapply rtc_l; [by eapply step_run|done].
Qed.
End recorder.

(** ** At a concrete input *)

Module Sample.
(** The first event goes through, then the provider is stopped, then a second
    event is emitted with the same recorder. *)
Fixpoint steps (js : list nat) (s : Provider (E := string)) : option (Provider (E := string)) :=
  match js with [] => Some s | j :: js => s ← run true j s; steps js s end.

Lemma steps_reach js s s' : steps js s = Some s' → rtc (step true) s s'.
Proof.
  revert s. induction js as [|i js IH]; intros s; cbn; [by intros [= ->]|].
  destruct (run true i s) as [s1|] eqn:Hr; [|done]. intros Hs%IH. eapply rtc_l; [by eapply step_run|done].
Qed.

Definition started : Provider (E := string) :=
  set_goroutine 2 (Stopping SGet) (set_goroutine 1 (Emitting 7 "late" EEnsure)
    (set_goroutine 0 (Emitting 7 "early" EEnsure) fresh_provider)).

Lemma started_reachable : rtc (step true) fresh_provider started.
Proof.
  eapply rtc_l; [by apply (step_event _ _ 0 7 "early")|]. eapply rtc_l; [by apply (step_event _ _ 1 7 "late")|].
  eapply rtc_l; [by apply (step_stop _ _ 2)|]. constructor.
Qed.

Definition through : Provider (E := string) :=
  default started (steps (replicate 7 0 ++ replicate 7 2 ++ replicate 4 1) started).

Lemma through_reachable : reachable true through.
Proof.
  unfold reachable; etransitivity; [apply started_reachable|]. unfold through.
  destruct (steps _ started) as [s|] eqn:Hs; [by eapply steps_reach|constructor].
Qed.

Example late_is_dropped :
  pr_log through = [(0, 7, "early", 0)] ∧ pr_goroutines through !! 1 = Some (Emitting 7 "late" (EDone false)).
Proof. vm_compute. by split. Qed.

Lemma no_event_after_shutdown_witness :
  (∃ n, (0, 7, "early", n) ∈ pr_log through) ∧ pr_stopped through = true.
Proof.
  destruct (no_event_after_shutdown true through through_reachable) as (_ & _ & _ & Hdone & _).
  split.
  - apply (Hdone 0 7 "early" true). vm_compute. reflexivity.
  - apply (Hdone 1 7 "late" false). vm_compute. reflexivity.
Defined.

(** An emission that has the recorder to make, and a stop that waits for it. *)
Definition half_way : Provider (E := string) := default started (steps [0; 0] started).

Lemma half_way_reachable : reachable true half_way.
Proof.
  unfold reachable; etransitivity; [apply started_reachable|]. unfold half_way.
  destruct (steps _ started) as [s|] eqn:Hs; [by eapply steps_reach|constructor].
Qed.

Lemma events_and_stops_end_witness :
  run true 2 half_way = None ∧ ∃ s', rtc (step true) half_way s' ∧ ∀ i g, pr_goroutines s' !! i = Some g → remaining g = 0.
Proof.
  split; [vm_compute; reflexivity|].
  exact (proj2 (events_and_stops_end true half_way half_way_reachable)).
Defined.
End Sample.
