(* ===== verification/Metrics.v ===== *)
(** * Metrics (src/pkg/metrics, internal/controller/metrics, webhook/internal/metrics)

    The metrics the library registers for client-go's requests, reflectors and work
    queues, for controllers and for webhooks, and the adapters through which
    client-go and the webhook server report to them.  The registry, the naming and
    the vectors are Prometheus's; help texts and buckets are left out. *)

From S2P Require Export Prelude.

(** ** The vectors *)

Inductive MetricType := CounterVec | GaugeVec | HistogramVec | SummaryVec.

Record Vec := mkVec {
  v_Type : MetricType;
  v_Subsystem : string;
  v_Name : string;
  v_Labels : list string;
}.

(** client_go_adapter.go *)

Definition RestClientSubsystem : string := "rest_client".
Definition LatencyKey : string := "request_latency_seconds".
Definition ResultKey : string := "requests_total".

Definition ReflectorSubsystem : string := "reflector".
Definition ListsTotalKey : string := "lists_total".
Definition ListsDurationKey : string := "list_duration_seconds".
Definition ItemsPerListKey : string := "items_per_list".
Definition WatchesTotalKey : string := "watches_total".
Definition ShortWatchesTotalKey : string := "short_watches_total".
Definition WatchDurationKey : string := "watch_duration_seconds".
Definition ItemsPerWatchKey : string := "items_per_watch".
Definition LastResourceVersionKey : string := "last_resource_version".

Definition requestLatency : Vec := mkVec HistogramVec RestClientSubsystem LatencyKey ["verb"; "url"].
Definition requestResult : Vec := mkVec CounterVec RestClientSubsystem ResultKey ["code"; "method"; "host"].

Definition listsTotal : Vec := mkVec CounterVec ReflectorSubsystem ListsTotalKey ["name"].
Definition listsDuration : Vec := mkVec SummaryVec ReflectorSubsystem ListsDurationKey ["name"].
Definition itemsPerList : Vec := mkVec SummaryVec ReflectorSubsystem ItemsPerListKey ["name"].
Definition watchesTotal : Vec := mkVec CounterVec ReflectorSubsystem WatchesTotalKey ["name"].
Definition shortWatchesTotal : Vec := mkVec CounterVec ReflectorSubsystem ShortWatchesTotalKey ["name"].
Definition watchDuration : Vec := mkVec SummaryVec ReflectorSubsystem WatchDurationKey ["name"].
Definition itemsPerWatch : Vec := mkVec SummaryVec ReflectorSubsystem ItemsPerWatchKey ["name"].
Definition lastResourceVersion : Vec := mkVec GaugeVec ReflectorSubsystem LastResourceVersionKey ["name"].

(** workqueue.go *)

Definition WorkQueueSubsystem : string := "workqueue".
Definition DepthKey : string := "depth".
Definition AddsKey : string := "adds_total".
Definition QueueLatencyKey : string := "queue_duration_seconds".
Definition WorkDurationKey : string := "work_duration_seconds".
Definition UnfinishedWorkKey : string := "unfinished_work_seconds".
Definition LongestRunningProcessorKey : string := "longest_running_processor_seconds".
Definition RetriesKey : string := "retries_total".

Definition depth : Vec := mkVec GaugeVec WorkQueueSubsystem DepthKey ["name"].
Definition adds : Vec := mkVec CounterVec WorkQueueSubsystem AddsKey ["name"].
Definition latency : Vec := mkVec HistogramVec WorkQueueSubsystem QueueLatencyKey ["name"].
Definition workDuration : Vec := mkVec HistogramVec WorkQueueSubsystem WorkDurationKey ["name"].
Definition unfinished : Vec := mkVec GaugeVec WorkQueueSubsystem UnfinishedWorkKey ["name"].
Definition longestRunningProcessor : Vec := mkVec GaugeVec WorkQueueSubsystem LongestRunningProcessorKey ["name"].
Definition retries : Vec := mkVec CounterVec WorkQueueSubsystem RetriesKey ["name"].

(** internal/controller/metrics/metrics.go *)

Definition ReconcileTotal : Vec := mkVec CounterVec "" "controller_runtime_reconcile_total" ["controller"; "result"].
Definition ReconcileErrors : Vec := mkVec CounterVec "" "controller_runtime_reconcile_errors_total" ["controller"].
Definition ReconcileTime : Vec := mkVec HistogramVec "" "controller_runtime_reconcile_time_seconds" ["controller"].
Definition WorkerCount : Vec := mkVec GaugeVec "" "controller_runtime_max_concurrent_reconciles" ["controller"].
Definition ActiveWorkers : Vec := mkVec GaugeVec "" "controller_runtime_active_workers" ["controller"].

(** webhook/internal/metrics/metrics.go *)

Definition RequestLatency : Vec := mkVec HistogramVec "" "controller_runtime_webhook_latency_seconds" ["webhook"].
Definition RequestTotal : Vec := mkVec CounterVec "" "controller_runtime_webhook_requests_total" ["webhook"; "code"].
Definition RequestInFlight : Vec := mkVec GaugeVec "" "controller_runtime_webhook_requests_in_flight" ["webhook"].

(** ** Registration *)

(** The [init] functions of the four files. *)
Inductive Init := InitClientGo | InitWorkqueue | InitController | InitWebhook.
#[export] Instance Init_eq_dec : EqDecision Init.
Proof. solve_decision. Defined.

Section registration.
(** [prometheus.BuildFQName], and the names of the process and Go collectors. *)
Variable BuildFQName : string → string → string → string.
Variables process_names go_names : list string.

Definition fqName (v : Vec) : string := BuildFQName "" (v_Subsystem v) (v_Name v).

(** The names in the registry, and what client-go was given. *)
Record Process := mkProcess {
  pr_Registry : list string;
  pr_RequestLatency : option Vec;
  pr_RequestResult : option Vec;
  pr_reflector_provider : bool;
  pr_workqueue_provider : bool;
}.
Definition new_process : Process := mkProcess [] None None false false.

Definition set_registry (r : list string) (p : Process) : Process :=
  mkProcess r (pr_RequestLatency p) (pr_RequestResult p) (pr_reflector_provider p) (pr_workqueue_provider p).

(** [MustRegister] of one collector, which has these names; a name that is taken
    makes it panic. *)
Definition MustRegister (names : list string) (p : Process) : outcome Process :=
  if decide (Forall (λ n, n ∉ pr_Registry p) names) then Returned (set_registry (pr_Registry p ++ names) p) else Panicked "duplicate metrics collector registration attempted".

Fixpoint register (collectors : list (list string)) (p : Process) : outcome Process :=
  match collectors with
  | [] => Returned p
  | names :: collectors => p ← MustRegister names p; register collectors p
  end.
Definition register_vecs (vs : list Vec) : Process → outcome Process := register ((λ v, [fqName v]) <$> vs).

(** [clientmetrics.Register] keeps what it is given first. *)
Definition registerClientMetrics (p : Process) : outcome Process :=
  p ← register_vecs [requestLatency; requestResult] p;
  Returned (match pr_RequestLatency p with
            | Some _ => p
            | None => mkProcess (pr_Registry p) (Some requestLatency) (Some requestResult)
                        (pr_reflector_provider p) (pr_workqueue_provider p)
            end).

Definition registerReflectorMetrics (p : Process) : outcome Process :=
  p ← register_vecs [listsTotal; listsDuration; itemsPerList; watchesTotal; shortWatchesTotal; watchDuration;
                     itemsPerWatch; lastResourceVersion] p;
  Returned (mkProcess (pr_Registry p) (pr_RequestLatency p) (pr_RequestResult p) true (pr_workqueue_provider p)).

(** The [init] functions of the files. *)
Definition init_client_go_adapter (p : Process) : outcome Process :=
  p ← registerClientMetrics p; registerReflectorMetrics p.

Definition init_workqueue (p : Process) : outcome Process :=
  p ← register_vecs [depth; adds; latency; workDuration; unfinished; longestRunningProcessor; retries] p;
  Returned (mkProcess (pr_Registry p) (pr_RequestLatency p) (pr_RequestResult p) (pr_reflector_provider p) true).

Definition init_controller (p : Process) : outcome Process :=
  register (((λ v, [fqName v]) <$> [ReconcileTotal; ReconcileErrors; ReconcileTime; WorkerCount; ActiveWorkers])
            ++ [process_names; go_names]) p.

Definition init_webhook (p : Process) : outcome Process :=
  register_vecs [RequestLatency; RequestTotal; RequestInFlight] p.

Definition run_init (i : Init) : Process → outcome Process :=
  match i with
  | InitClientGo => init_client_go_adapter
  | InitWorkqueue => init_workqueue
  | InitController => init_controller
  | InitWebhook => init_webhook
  end.

Fixpoint run_inits (inits : list Init) (p : Process) : outcome Process :=
  match inits with
  | [] => Returned p
  | i :: inits => p ← run_init i p; run_inits inits p
  end.

(** Names that are new and differ from each other can be registered. *)
Lemma register_fresh collectors p :
  NoDup (pr_Registry p ++ mjoin collectors) →
  register collectors p = Returned (set_registry (pr_Registry p ++ mjoin collectors) p).
Proof.
  revert p. induction collectors as [|names cs IH]; intros p Hnd; cbn.
  - rewrite app_nil_r. by destruct p.
  - cbn in Hnd. rewrite (assoc_L app) in Hnd. unfold MustRegister.
    rewrite decide_True; [|apply Forall_forall; intros n Hn Hin; apply NoDup_app in Hnd as [Hnd _];
                           apply NoDup_app in Hnd as (_ & Hdis & _); by apply (Hdis n)].
    cbn. rewrite IH by done. cbn. by rewrite (assoc_L app).
Qed.

(** ** The registrations do not clash *)

Definition client_go_vecs : list Vec :=
  [requestLatency; requestResult; listsTotal; listsDuration; itemsPerList; watchesTotal; shortWatchesTotal; watchDuration;
   itemsPerWatch; lastResourceVersion].
Definition workqueue_vecs : list Vec :=
  [depth; adds; latency; workDuration; unfinished; longestRunningProcessor; retries].
Definition controller_vecs : list Vec := [ReconcileTotal; ReconcileErrors; ReconcileTime; WorkerCount; ActiveWorkers].
Definition webhook_vecs : list Vec := [RequestLatency; RequestTotal; RequestInFlight].

Definition init_names (i : Init) : list string :=
  match i with
  | InitClientGo => fqName <$> client_go_vecs
  | InitWorkqueue => fqName <$> workqueue_vecs
  | InitController => (fqName <$> controller_vecs) ++ process_names ++ go_names
  | InitWebhook => fqName <$> webhook_vecs
  end.

(** What is set stays set. *)
Definition provided (p p' : Process) : Prop :=
  (is_Some (pr_RequestLatency p) → pr_RequestLatency p' = pr_RequestLatency p)
  ∧ (pr_reflector_provider p = true → pr_reflector_provider p' = true)
  ∧ (pr_workqueue_provider p = true → pr_workqueue_provider p' = true).

Lemma register_vecs_fresh vs p :
  NoDup (pr_Registry p ++ (fqName <$> vs)) →
  register_vecs vs p = Returned (set_registry (pr_Registry p ++ (fqName <$> vs)) p).
Proof.
  assert (mjoin ((λ v, [fqName v]) <$> vs) = fqName <$> vs) as Hj by (induction vs; cbn; by f_equal).
  unfold register_vecs. intros Hnd. by rewrite register_fresh, Hj by by rewrite Hj.
Qed.

Definition done_by (i : Init) (p : Process) : Prop :=
  match i with
  | InitClientGo => pr_RequestLatency p ≠ None ∧ pr_reflector_provider p = true
  | InitWorkqueue => pr_workqueue_provider p = true
  | _ => True
  end.

Lemma NoDup_app_front {A} (xs ys zs : list A) : NoDup (xs ++ ys ++ zs) → NoDup (xs ++ ys).
Proof. rewrite (assoc_L app). by intros [? _]%NoDup_app. Qed.

Lemma init_fresh i p :
  NoDup (pr_Registry p ++ init_names i) →
  ∃ p', run_init i p = Returned p' ∧ pr_Registry p' = pr_Registry p ++ init_names i ∧ done_by i p'
    ∧ ∀ i', done_by i' p → done_by i' p'.
Proof.
  intros Hnd. destruct i; cbn [run_init init_names] in *.
  - unfold init_client_go_adapter, registerClientMetrics, registerReflectorMetrics.
    change client_go_vecs with ([requestLatency; requestResult]
      ++ [listsTotal; listsDuration; itemsPerList; watchesTotal; shortWatchesTotal; watchDuration; itemsPerWatch;
          lastResourceVersion]) in *.
    rewrite fmap_app in *. rewrite register_vecs_fresh by by eapply NoDup_app_front.
    cbn [mbind outcome_bind]. destruct (pr_RequestLatency p) as [v|] eqn:Hl; cbn [set_registry pr_RequestLatency]; rewrite ?Hl;
      cbn [mbind outcome_bind]; rewrite register_vecs_fresh by (cbn [pr_Registry set_registry]; by rewrite <- (assoc_L app));
      cbn [mbind outcome_bind set_registry pr_Registry]; (eexists; split; [reflexivity|]); cbn [pr_Registry]; rewrite <- (assoc_L app);
      (split; [done|]); (split; [by cbn; rewrite ?Hl|]); intros []; cbn; rewrite ?Hl; naive_solver.
  - unfold init_workqueue. rewrite register_vecs_fresh by done. cbn [mbind outcome_bind].
    eexists. split; [reflexivity|]. split; [done|]. split; [done|]. by intros [].
  - unfold init_controller.
    assert (mjoin (((λ v, [fqName v]) <$> controller_vecs) ++ [process_names; go_names])
            = (fqName <$> controller_vecs) ++ process_names ++ go_names) as Hj by by rewrite join_app; cbn; rewrite app_nil_r.
    change [ReconcileTotal; ReconcileErrors; ReconcileTime; WorkerCount; ActiveWorkers] with controller_vecs.
    rewrite register_fresh, Hj by by rewrite Hj. eexists. split; [reflexivity|]. by repeat split; [..|intros []].
  - unfold init_webhook. change [RequestLatency; RequestTotal; RequestInFlight] with webhook_vecs.
    rewrite register_vecs_fresh by done. eexists. split; [reflexivity|]. by repeat split; [..|intros []].
Qed.

Lemma run_inits_fresh is_ p :
  NoDup (pr_Registry p ++ (is_ ≫= init_names)) →
  ∃ p', run_inits is_ p = Returned p' ∧ pr_Registry p' = pr_Registry p ++ (is_ ≫= init_names)
    ∧ (∀ i, i ∈ is_ → done_by i p') ∧ ∀ i, done_by i p → done_by i p'.
Proof.
  revert p. induction is_ as [|i is_ IH]; intros p Hnd; cbn.
  - exists p. rewrite app_nil_r. split_and!; try done. by intros i ?%elem_of_nil.
  - cbn in Hnd. destruct (init_fresh i p) as (p1 & -> & Hr1 & Hd1 & Hk1); [by eapply NoDup_app_front|]. cbn.
    destruct (IH p1) as (p2 & Hp2 & Hr2 & Hd2 & Hk2); [rewrite Hr1; by rewrite <- (assoc_L app)|].
    exists p2. rewrite Hr2, Hr1, <- (assoc_L app). split_and!; try done.
    + intros i' [->|Hi']%elem_of_cons; [by apply Hk2|by apply Hd2].
    + intros i' Hi'. by apply Hk2, Hk1.
Qed.

(** The names Prometheus builds. *)
Definition std_fqName (v : Vec) : string :=
  if decide (v_Subsystem v = "") then v_Name v else (v_Subsystem v +:+ ("_" +:+ v_Name v))%string.

(** In whatever order the packages are initialized no registration panics, and
    every metric is in the registry in the end, client-go having its adapters and
    providers, if names are built the way Prometheus builds them and those of the
    process and Go collectors are among their own. *)
Theorem inits_register_all is_ :
  (∀ sub name, BuildFQName "" sub name = if decide (sub = "") then name else (sub +:+ ("_" +:+ name))%string) →
  NoDup (process_names ++ go_names) →
  Forall (λ n, String.prefix "process_" n = true ∨ String.prefix "go_" n = true) (process_names ++ go_names) →
  is_ ≡ₚ [InitClientGo; InitWorkqueue; InitController; InitWebhook] →
  ∃ p, run_inits is_ new_process = Returned p
    ∧ pr_Registry p ≡ₚ (fqName <$> (client_go_vecs ++ workqueue_vecs ++ controller_vecs ++ webhook_vecs)) ++ process_names ++ go_names
    ∧ pr_RequestLatency p ≠ None ∧ pr_reflector_provider p = true ∧ pr_workqueue_provider p = true.
Proof.
  intros Hfq Hnd Hpre His.
  set (own := fqName <$> (client_go_vecs ++ workqueue_vecs ++ controller_vecs ++ webhook_vecs)).
  assert (is_ ≫= init_names ≡ₚ own ++ process_names ++ go_names) as Hperm.
  { rewrite His. cbn [mbind list_bind init_names]. subst own. rewrite !fmap_app, app_nil_r, <- !app_assoc.
    do 3 apply Permutation_app_head. rewrite (app_assoc process_names). apply Permutation_app_comm. }
  assert (own = std_fqName <$> (client_go_vecs ++ workqueue_vecs ++ controller_vecs ++ webhook_vecs)) as Hown.
  { apply list_fmap_ext. intros i v _. apply Hfq. }
  assert (NoDup own) as Hndown by (rewrite Hown; apply (bool_decide_unpack _); vm_compute; exact I).
  assert (Forall (λ n, String.prefix "process_" n = false ∧ String.prefix "go_" n = false) own) as Hnp
    by (rewrite Hown; apply (bool_decide_unpack _); vm_compute; exact I).
  destruct (run_inits_fresh is_ new_process) as (p & Hp & Hr & Hdone & _).
  { cbn. rewrite Hperm. apply NoDup_app. split; [done|]. split; [|done]. intros n Hn Hn'.
    rewrite Forall_forall in Hnp, Hpre. destruct (Hnp _ Hn), (Hpre _ Hn'); congruence. }
  exists p. split; [done|]. cbn in Hr. rewrite Hr. split; [done|].
  assert (∀ i, i ∈ [InitClientGo; InitWorkqueue; InitController; InitWebhook] → done_by i p) as Hall
    by (intros i Hi; apply Hdone; by rewrite His).
  split; [|split]; [apply (Hall InitClientGo)|apply (Hall InitClientGo)|apply (Hall InitWorkqueue)]; set_solver.
Qed.
End registration.

(** ** Series

    The series of a vector for some label values, with what was recorded in each. *)

Inductive Sample := Inc | Dec | Observe (nanoseconds : Z).

Abbreviation Series := ((string * string) * list string)%type.
Abbreviation Samples := (gmap Series (list Sample)).
Implicit Types m : Samples.

Definition series (v : Vec) (lvs : list string) : Series := ((v_Subsystem v, v_Name v), lvs).

(** [WithLabelValues], which panics when the values do not fit the labels, and makes
    the series if it is not there; then what is done with the metric. *)
Definition WithLabelValues (v : Vec) (lvs : list string) (m : Samples) : outcome (Samples * Series) :=
  if decide (length lvs = length (v_Labels v)) then
    Returned (<[series v lvs := default [] (m !! series v lvs)]> m, series v lvs)
  else Panicked "inconsistent label cardinality".

Definition record (k : Series) (x : Sample) (m : Samples) : Samples := <[k := default [] (m !! k) ++ [x]]> m.

Definition latencyAdapter_Observe (verb url : string) (latency : Z) (m : Samples) : outcome Samples :=
  '(m, k) ← WithLabelValues requestLatency [verb; url] m; Returned (record k (Observe latency) m).

Definition resultAdapter_Increment (code method host : string) (m : Samples) : outcome Samples :=
  '(m, k) ← WithLabelValues requestResult [code; method; host] m; Returned (record k Inc m).

(** [reflectorMetricsProvider] *)
Definition NewListsMetric (name : string) := WithLabelValues listsTotal [name].
Definition NewListDurationMetric (name : string) := WithLabelValues listsDuration [name].
Definition NewItemsInListMetric (name : string) := WithLabelValues itemsPerList [name].
Definition NewWatchesMetric (name : string) := WithLabelValues watchesTotal [name].
Definition NewShortWatchesMetric (name : string) := WithLabelValues shortWatchesTotal [name].
Definition NewWatchDurationMetric (name : string) := WithLabelValues watchDuration [name].
Definition NewItemsInWatchMetric (name : string) := WithLabelValues itemsPerWatch [name].
Definition NewLastResourceVersionMetric (name : string) := WithLabelValues lastResourceVersion [name].

(** [workqueueMetricsProvider] *)
Definition NewDepthMetric (name : string) := WithLabelValues depth [name].
Definition NewAddsMetric (name : string) := WithLabelValues adds [name].
Definition NewLatencyMetric (name : string) := WithLabelValues latency [name].
Definition NewWorkDurationMetric (name : string) := WithLabelValues workDuration [name].
Definition NewUnfinishedWorkSecondsMetric (name : string) := WithLabelValues unfinished [name].
Definition NewLongestRunningProcessorSecondsMetric (name : string) := WithLabelValues longestRunningProcessor [name].
Definition NewRetriesMetric (name : string) := WithLabelValues retries [name].

Definition providers : list (string → Samples → outcome (Samples * Series)) :=
  [NewListsMetric; NewListDurationMetric; NewItemsInListMetric; NewWatchesMetric; NewShortWatchesMetric;
   NewWatchDurationMetric; NewItemsInWatchMetric; NewLastResourceVersionMetric;
   NewDepthMetric; NewAddsMetric; NewLatencyMetric; NewWorkDurationMetric; NewUnfinishedWorkSecondsMetric;
   NewLongestRunningProcessorSecondsMetric; NewRetriesMetric].

(** [InstrumentedHook] up to the wrapping: the counters of the likely codes and the
    gauge of the path exist from then on. *)
Definition InstrumentedHook_series (path : string) (m : Samples) : outcome Samples :=
  '(m, _) ← WithLabelValues RequestInFlight [path] m;
  '(m, _) ← WithLabelValues RequestTotal [path; "200"] m;
  '(m, _) ← WithLabelValues RequestTotal [path; "500"] m;
  Returned m.

(** Getting a metric makes its series, keeps what it has, and leaves all others. *)
Lemma WithLabelValues_spec v lvs m :
  length lvs = length (v_Labels v) →
  ∃ m', WithLabelValues v lvs m = Returned (m', series v lvs)
    ∧ m' !! series v lvs = Some (default [] (m !! series v lvs))
    ∧ ∀ k, k ≠ series v lvs → m' !! k = m !! k.
Proof.
  intros Hlen. unfold WithLabelValues. rewrite decide_True by done. eexists. split; [reflexivity|].
  split; [apply lookup_insert_eq|]. intros k Hk. by apply lookup_insert_ne.
Qed.

(** No provider panics, and the metrics of two providers, or of two names, are
    different series. *)
Lemma providers_apart i j f g n n' m :
  providers !! i = Some f → providers !! j = Some g →
  ∃ m1 m2 k1 k2, f n m = Returned (m1, k1) ∧ g n' m = Returned (m2, k2) ∧ (k1 = k2 → i = j ∧ n = n').
Proof.
  intros Hf Hg.
  set (vs := [listsTotal; listsDuration; itemsPerList; watchesTotal; shortWatchesTotal; watchDuration; itemsPerWatch;
              lastResourceVersion; depth; adds; latency; workDuration; unfinished; longestRunningProcessor; retries]).
  assert (providers = (λ v n, WithLabelValues v [n]) <$> vs) as Hps by reflexivity.
  assert (Forall (λ v, length (v_Labels v) = 1) vs) as Hone by (apply (bool_decide_unpack _); vm_compute; exact I).
  assert (NoDup ((λ v, (v_Subsystem v, v_Name v)) <$> vs)) as Hnd by (apply (bool_decide_unpack _); vm_compute; exact I).
  rewrite Hps in Hf, Hg. apply list_lookup_fmap_Some in Hf as (v1 & -> & Hv1). apply list_lookup_fmap_Some in Hg as (v2 & -> & Hv2).
  rewrite Forall_lookup in Hone.
  destruct (WithLabelValues_spec v1 [n] m) as (m1 & H1 & _); [by rewrite (Hone _ _ Hv1)|].
  destruct (WithLabelValues_spec v2 [n'] m) as (m2 & H2 & _); [by rewrite (Hone _ _ Hv2)|].
  exists m1, m2, (series v1 [n]), (series v2 [n']). split_and!; [done..|]. unfold series. intros [= Hs Hn ->]. split; [|done].
  apply (NoDup_lookup _ i j (v_Subsystem v1, v_Name v1) Hnd).
  - by rewrite list_lookup_fmap, Hv1.
  - by rewrite list_lookup_fmap, Hv2, Hs, Hn.
Qed.

(** A request that client-go reports is counted under its code, method and host, and
    timed under its verb and URL, and nothing else is recorded. *)
Lemma adapters_record code method host verb url t m :
  ∃ m1 m2, resultAdapter_Increment code method host m = Returned m1 ∧ latencyAdapter_Observe verb url t m1 = Returned m2
    ∧ m2 !! series requestResult [code; method; host] = Some (default [] (m !! series requestResult [code; method; host]) ++ [Inc])
    ∧ m2 !! series requestLatency [verb; url] = Some (default [] (m !! series requestLatency [verb; url]) ++ [Observe t])
    ∧ ∀ k, k ≠ series requestResult [code; method; host] → k ≠ series requestLatency [verb; url] → m2 !! k = m !! k.
Proof.
  set (k1 := series requestResult [code; method; host]). set (k2 := series requestLatency [verb; url]).
  assert (k1 ≠ k2) as Hne by done.
  destruct (WithLabelValues_spec requestResult [code; method; host] m eq_refl) as (m1 & H1 & Hk1 & Ho1). fold k1 in H1, Hk1, Ho1.
  destruct (WithLabelValues_spec requestLatency [verb; url] (record k1 Inc m1) eq_refl) as (m2 & H2 & Hk2 & Ho2).
  fold k2 in H2, Hk2, Ho2. exists (record k1 Inc m1), (record k2 (Observe t) m2).
  unfold resultAdapter_Increment, latencyAdapter_Observe. rewrite H1. cbn [mbind outcome_bind]. rewrite H2.
  split; [done|]. split; [done|]. unfold record in *. split_and!.
  - rewrite lookup_insert_ne, Ho2, lookup_insert_eq, Hk1 by done. done.
  - rewrite lookup_insert_eq, Hk2. cbn. by rewrite lookup_insert_ne, Ho1 by done.
  - intros k Hn1 Hn2. by rewrite lookup_insert_ne, Ho2, lookup_insert_ne, Ho1 by done.
Qed.

(** An instrumented webhook has its series at once, whatever others there are. *)
Lemma InstrumentedHook_has_series path m :
  ∃ m', InstrumentedHook_series path m = Returned m'
    ∧ ∀ k, is_Some (m' !! k) ↔ is_Some (m !! k)
         ∨ k ∈ [series RequestInFlight [path]; series RequestTotal [path; "200"]; series RequestTotal [path; "500"]].
Proof.
  eexists. split; [reflexivity|]. intros k. rewrite !elem_of_cons, elem_of_nil, <- !elem_of_dom, !dom_insert_L. set_solver.
Qed.

(** ** At a concrete input *)

Lemma inits_register_all_witness :
  ∃ p, run_inits (λ _ sub name, if decide (sub = "") then name else (sub +:+ ("_" +:+ name))%string)
         ["process_cpu_seconds_total"; "process_open_fds"] ["go_goroutines"]
         [InitWebhook; InitWorkqueue; InitClientGo; InitController] new_process = Returned p
    ∧ length (pr_Registry p) = 28%nat.
Proof.
  destruct (inits_register_all (λ _ sub name, if decide (sub = "") then name else (sub +:+ ("_" +:+ name))%string)
              ["process_cpu_seconds_total"; "process_open_fds"] ["go_goroutines"]
              [InitWebhook; InitWorkqueue; InitClientGo; InitController]) as (p & Hp & Hr & _).
  - done.
  - apply (bool_decide_unpack _). vm_compute. exact I.
  - apply (bool_decide_unpack _). vm_compute. exact I.
  - apply NoDup_Permutation; [apply (bool_decide_unpack _); vm_compute; exact I..|]. intros []; set_solver.
  - exists p. split; [exact Hp|]. by rewrite Hr.
Defined.
