(* ===== verification/SchemeBuilder.v ===== *)
(** * The scheme builder (src/pkg/scheme/scheme.go)

    A builder collects functions that add types to a scheme.  Each is a closure
    over the builder it was registered on, whose group and version it reads when it
    is called; so builders are on a heap. *)

From S2P Require Export Prelude.

Section builder.
(** Types to register, schemes, and what apimachinery does to a scheme, which may
    panic. *)
Context {GV Obj S : Type}.
Variable AddKnownTypes : GV → list Obj → S → outcome S.
Variable AddToGroupVersion : GV → S → outcome S.
Variable NewScheme : S.

(** The closure [Register] makes: its builder, by address, and its objects. *)
Record Registration := mkRegistration { rg_bld : nat; rg_object : list Obj }.

(** The embedded [runtime.SchemeBuilder] is a slice of functions. *)
Record Builder := mkBuilder { bld_GroupVersion : GV; bld_SchemeBuilder : list Registration }.
Abbreviation Heap := (gmap nat Builder).
Implicit Types h : Heap.

(** Neither finds a nil pointer on the heap. *)
Definition on_bld {A} (bld : nat) h (k : Builder → outcome A) : outcome A :=
  match h !! bld with Some b => k b | None => Panicked "nil pointer dereference" end.

Definition Register (bld : nat) (object : list Obj) h : outcome Heap :=
  on_bld bld h (λ b,
    Returned (<[bld := mkBuilder (bld_GroupVersion b) (bld_SchemeBuilder b ++ [mkRegistration bld object])]> h)).

Definition RegisterAll (bld b : nat) h : outcome Heap :=
  on_bld bld h (λ into, on_bld b h (λ from,
    Returned (<[bld := mkBuilder (bld_GroupVersion into) (bld_SchemeBuilder into ++ bld_SchemeBuilder from)]> h))).

(** A call of the closure; it never returns an error. *)
Definition call_registration h (r : Registration) (s : S) : outcome (S * option error) :=
  on_bld (rg_bld r) h (λ b,
    s ← AddKnownTypes (bld_GroupVersion b) (rg_object r) s;
    s ← AddToGroupVersion (bld_GroupVersion b) s;
    Returned (s, None)).

(** [AddToScheme] of the slice: in order, up to the first error. *)
Fixpoint add_all h (rs : list Registration) (s : S) : outcome (S * option error) :=
  match rs with
  | [] => Returned (s, None)
  | r :: rs =>
      '(s, err) ← call_registration h r s;
      match err with Some err => Returned (s, Some err) | None => add_all h rs s end
  end.

Definition AddToScheme (bld : nat) h (s : S) : outcome (S * option error) :=
  on_bld bld h (λ b, add_all h (bld_SchemeBuilder b) s).

Definition Build (bld : nat) h : outcome (S * option error) := AddToScheme bld h NewScheme.

(** ** What is added *)

(** What a builder stands for: groups of objects with the version they are added
    at. *)
Definition added h (rs : list Registration) : list (option GV * list Obj) :=
  (λ r, (bld_GroupVersion <$> h !! rg_bld r, rg_object r)) <$> rs.
Definition adds (bld : nat) h : list (option GV * list Obj) :=
  match h !! bld with Some b => added h (bld_SchemeBuilder b) | None => [] end.

(** Adding groups of objects, each at its version. *)
Fixpoint add_groups (gs : list (option GV * list Obj)) (s : S) : outcome (S * option error) :=
  match gs with
  | [] => Returned (s, None)
  | (Some gv, objs) :: gs => s ← AddKnownTypes gv objs s; s ← AddToGroupVersion gv s; add_groups gs s
  | (None, _) :: _ => Panicked "nil pointer dereference"
  end.

Lemma add_all_groups h rs s : add_all h rs s = add_groups (added h rs) s.
Proof.
  revert s. induction rs as [|r rs IH]; intros s; cbn; [done|]. unfold call_registration, on_bld.
  destruct (h !! rg_bld r) as [b|]; cbn; [|done].
  destruct (AddKnownTypes _ _ s) as [s1|]; cbn; [|done]. destruct (AddToGroupVersion _ s1) as [s2|]; cbn; [|done]. apply IH.
Qed.

(** Registering changes no version, so what others stand for stays. *)
Lemma added_versions h h' rs :
  (∀ l, bld_GroupVersion <$> h' !! l = bld_GroupVersion <$> h !! l) → added h' rs = added h rs.
Proof. intros Hv. apply list_fmap_ext. intros i r _. cbn. by rewrite Hv. Qed.

Lemma insert_versions bld b h rs l :
  h !! bld = Some b → bld_GroupVersion <$> <[bld := mkBuilder (bld_GroupVersion b) rs]> h !! l = bld_GroupVersion <$> h !! l.
Proof. intros Hb. destruct (decide (l = bld)) as [->|Hne]; [by rewrite lookup_insert_eq, Hb|by rewrite lookup_insert_ne]. Qed.

(** A builder adds what was registered on it, in order, at its own version; what it
    took over from another builder stays at the version of that one, and what is
    registered there later is not taken over. *)
Lemma builder_adds bld h b :
  h !! bld = Some b →
  (∀ s, AddToScheme bld h s = add_groups (adds bld h) s)
  ∧ (∀ objs, ∃ h', Register bld objs h = Returned h'
       ∧ adds bld h' = adds bld h ++ [(Some (bld_GroupVersion b), objs)]
       ∧ ∀ l, l ≠ bld → adds l h' = adds l h)
  ∧ (∀ from, from ≠ bld → is_Some (h !! from) → ∃ h', RegisterAll bld from h = Returned h'
       ∧ adds bld h' = adds bld h ++ adds from h
       ∧ (∀ l, l ≠ bld → adds l h' = adds l h)
       ∧ ∀ objs, ∃ h'', Register from objs h' = Returned h'' ∧ adds bld h'' = adds bld h').
Proof.
  intros Hb.
  assert (∀ h1 l b1 rs l', h1 !! l = Some b1 → l' ≠ l →
            adds l' (<[l := mkBuilder (bld_GroupVersion b1) rs]> h1) = adds l' h1) as Hother.
  { intros h1 l b1 rs l' Hl Hne. unfold adds. rewrite lookup_insert_ne by done. destruct (h1 !! l'); [|done].
    apply added_versions. intros l2. by apply insert_versions. }
  assert (∀ h1 l b1 rs, h1 !! l = Some b1 →
            adds l (<[l := mkBuilder (bld_GroupVersion b1) rs]> h1) = added h1 rs) as Hsame.
  { intros h1 l b1 rs Hl. unfold adds. rewrite lookup_insert_eq. cbn. apply added_versions. intros l2. by apply insert_versions. }
  assert (adds bld h = added h (bld_SchemeBuilder b)) as Hadds by (unfold adds; by rewrite Hb).
  split_and!.
  - intros s. unfold AddToScheme, on_bld. rewrite Hb, Hadds. apply add_all_groups.
  - intros objs. unfold Register, on_bld. rewrite Hb. eexists. split; [reflexivity|]. split.
    + rewrite Hsame, Hadds by done. unfold added. rewrite fmap_app. cbn. by rewrite Hb.
    + intros l Hl. by apply Hother.
  - intros from Hne [fb Hfb]. unfold RegisterAll, on_bld. rewrite Hb, Hfb. eexists. split; [reflexivity|].
    assert (adds from h = added h (bld_SchemeBuilder fb)) as Hfrom by (unfold adds; by rewrite Hfb).
    split; [rewrite Hsame, Hadds, Hfrom by done; unfold added; by rewrite fmap_app|].
    split; [intros l Hl; by apply Hother|]. intros objs. unfold Register, on_bld. rewrite lookup_insert_ne, Hfb by done.
    eexists. split; [reflexivity|]. apply Hother; [by rewrite lookup_insert_ne|done].
Qed.
End builder.

(** The version is read late: a builder whose version changes after objects were
    registered adds them at the new one. *)
Example version_read_late :
  ∃ h, Register (GV := string) (Obj := string) 0 ["Pod"] {[ 0%nat := mkBuilder "v1" [] ]} = Returned h
    ∧ adds 0 ((λ b, mkBuilder "v2" (bld_SchemeBuilder b)) <$> h) = [(Some "v2", ["Pod"])].
Proof. eexists. split; [reflexivity|]. by vm_compute. Qed.
