(* ===== verification/Signals.v ===== *)
(** * Signals (src/pkg/manager/signals)

    [SetupSignalHandler]: the context that ends with the first signal, and the exit
    of the process with the second. *)

From S2P Require Export Prelude.

(** [os.Signal], those of shutdownSignals (signal_posix.go). *)
Inductive Signal := Interrupt | SIGTERM | OtherSignal (n : Z).
#[export] Instance Signal_eq_dec : EqDecision Signal.
Proof. solve_decision. Defined.

Definition shutdownSignals : list Signal := [Interrupt; SIGTERM].

(** The goroutine: at the first receive, at the second, at [os.Exit]. *)
Inductive HandlerPc := First | Second | Exiting.

(** [sg_closed] tells whether onlyOneSignalHandler is closed; [sg_chan] is the
    channel, with room for two signals. *)
Record Signals := mkSignals {
  sg_closed : bool;
  sg_handler : option HandlerPc;
  sg_chan : list Signal;
  sg_cancelled : bool;
  sg_exit : option Z;
}.
Implicit Types s : Signals.

Definition no_handler : Signals := mkSignals false None [] false None.

Definition SetupSignalHandler s : outcome Signals :=
  if sg_closed s then Panicked "close of closed channel"
  else Returned (mkSignals true (Some First) [] (sg_cancelled s) (sg_exit s)).

(** A signal is sent to the process, which drops it when the channel is full; what
    one does that was not asked for is left out.  The goroutine goes on. *)
Inductive SignalStep := Notify (sig : Signal) | Receive | Exit.

Definition signal_exec (l : SignalStep) s : option Signals :=
  match sg_exit s with
  | Some _ => None
  | None =>
      match l with
      | Notify sig =>
          if decide (sig ∈ shutdownSignals ∧ length (sg_chan s) < 2 ∧ sg_handler s ≠ None)
          then Some (mkSignals (sg_closed s) (sg_handler s) (sg_chan s ++ [sig]) (sg_cancelled s) None)
          else Some s
      | Receive =>
          match sg_handler s, sg_chan s with
          | Some First, _ :: c => Some (mkSignals (sg_closed s) (Some Second) c true None)
          | Some Second, _ :: c => Some (mkSignals (sg_closed s) (Some Exiting) c (sg_cancelled s) None)
          | _, _ => None
          end
      | Exit =>
          match sg_handler s with
          | Some Exiting => Some (mkSignals (sg_closed s) (Some Exiting) (sg_chan s) (sg_cancelled s) (Some 1%Z))
          | _ => None
          end
      end
  end.

Fixpoint run_signals (ls : list SignalStep) s : option Signals :=
  match ls with
  | [] => Some s
  | l :: ls => s ← signal_exec l s; run_signals ls s
  end.

(** How many shutdown signals were sent. *)
Definition sends_shutdown (l : SignalStep) : bool :=
  match l with Notify sig => bool_decide (sig ∈ shutdownSignals) | _ => false end.
Definition signals_sent (ls : list SignalStep) : nat := length (filter (λ l, sends_shutdown l = true) ls).

(** Received, and waiting. *)
Definition received s : nat :=
  match sg_handler s with Some First | None => 0 | Some Second => 1 | Some Exiting => 2 end.

Record signals_inv (n : nat) s : Prop := {
  si_closed : sg_closed s = true ∧ sg_handler s ≠ None;
  si_sent : received s + length (sg_chan s) <= n;
  si_kept : 2 <= received s + length (sg_chan s) ∨ n <= received s + length (sg_chan s);
  si_cancelled : sg_cancelled s = true ↔ 1 <= received s;
  si_exit : sg_exit s = None ∨ (sg_exit s = Some 1%Z ∧ received s = 2);
}.

Lemma signal_exec_inv n l s s' :
  signals_inv n s → signal_exec l s = Some s' → signals_inv (n + signals_sent [l]) s'.
Proof.
  intros [[Hc Hh] H1 H2 H3 H4] Hl. unfold signal_exec in Hl. destruct (sg_exit s) eqn:He; [done|].
  destruct l as [sig| |].
  - assert (signals_sent [Notify sig] = if decide (sig ∈ shutdownSignals) then 1 else 0) as ->.
    { unfold signals_sent, sends_shutdown. rewrite filter_cons, filter_nil. by repeat case_decide; try case_bool_decide. }
    destruct (decide (sig ∈ shutdownSignals)) as [Hin|Hin].
    + case_decide as Hd; injection Hl as <-.
      * split; cbn in *; [done|..|done|by left]; rewrite ?length_app; cbn; unfold received in *; cbn in *; lia.
      * split; [done|..|done|by left]; cbn; [lia|].
        assert (¬ length (sg_chan s) < 2) by tauto. lia.
    + rewrite decide_False in Hl by tauto. injection Hl as <-. split; [done|..|done|by left]; cbn; lia.
  - assert (signals_sent [Receive] = 0) as -> by reflexivity. rewrite Nat.add_0_r.
    destruct (sg_handler s) as [[]|] eqn:Hs, (sg_chan s) as [|sig c] eqn:Hch; try done;
      injection Hl as <-; unfold received in *; rewrite Hs in *; cbn in *;
      (split; unfold received; cbn; [done|lia|lia| |by left]); [split; [lia|done]|rewrite H3; lia].
  - assert (signals_sent [Exit] = 0) as -> by reflexivity. rewrite Nat.add_0_r.
    destruct (sg_handler s) as [[]|] eqn:Hs; try done. injection Hl as <-.
    unfold received in *; rewrite Hs in *. split; unfold received; cbn; [done|lia|lia|done|by right].
Qed.

(** After the set-up the context is done only if a shutdown signal was sent, and the
    process exits, with 1, only if two were; once signals were sent the goroutine
    can always get that far.  A second set-up panics. *)
Theorem signals_stop_then_exit s0 ls s :
  SetupSignalHandler no_handler = Returned s0 → run_signals ls s0 = Some s →
  (sg_cancelled s = true → 1 <= signals_sent ls)
  ∧ (∀ code, sg_exit s = Some code → code = 1%Z ∧ sg_cancelled s = true ∧ 2 <= signals_sent ls)
  ∧ (1 <= signals_sent ls → sg_cancelled s = false → ∃ s', signal_exec Receive s = Some s' ∧ sg_cancelled s' = true)
  ∧ (2 <= signals_sent ls → sg_exit s = None →
       ∃ more s', run_signals more s = Some s' ∧ sg_exit s' = Some 1%Z ∧ signals_sent more = 0)
  ∧ (∃ msg, SetupSignalHandler s = Panicked msg).
Proof.
  intros [= <-] Hrun.
  assert (∀ ls n s1, signals_inv n s1 → run_signals ls s1 = Some s → signals_inv (n + signals_sent ls) s) as Hinv.
  { clear. induction ls as [|l ls IH]; intros n s1 Hi Hr; cbn in Hr; [injection Hr as ->; by rewrite Nat.add_0_r|].
    destruct (signal_exec l s1) as [s2|] eqn:Hl; [|done]. cbn in Hr.
    apply (signal_exec_inv n) in Hl; [|done]. specialize (IH _ _ Hl Hr).
    replace (n + signals_sent (l :: ls)) with (n + signals_sent [l] + signals_sent ls); [done|].
    unfold signals_sent. rewrite !filter_cons, filter_nil. case_decide; cbn; lia. }
  assert (signals_inv 0 (mkSignals true (Some First) [] false None)) as H0
    by (split; unfold received; cbn; [done|lia|lia|split; [done|lia]|by left]).
  specialize (Hinv _ _ _ H0 Hrun). cbn in Hinv. destruct Hinv as [[Hc Hh] H1 H2 H3 H4]. split_and!.
  - intros Hcan%H3. lia.
  - intros code Hcode. destruct H4 as [?|[Hx Hr]]; [congruence|]. rewrite Hx in Hcode. injection Hcode as <-.
    split; [done|]. split; [apply H3; lia|lia].
  - intros Hn Hcan. assert (received s = 0) as Hr by (destruct (received s) eqn:Hr; [done|]; assert (sg_cancelled s = true) by (apply H3; lia); congruence).
    destruct H4 as [Hx|[_ ?]]; [|lia]. unfold received in Hr. unfold signal_exec. rewrite Hx.
    destruct (sg_handler s) as [[]|] eqn:Hs; try done. destruct (sg_chan s) as [|sig c] eqn:Hch.
    + unfold received in H2. rewrite Hs in H2. cbn in H2. lia.
    + eexists. split; [reflexivity|done].
  - intros Hn Hx. unfold received in H2. destruct s as [cl hd ch can ex]. cbn in *. subst ex.
    destruct hd as [[]|]; [..|done].
    + destruct ch as [|x [|y c]]; cbn in H2; [lia..|]. by exists [Receive; Receive; Exit]; eexists.
    + destruct ch as [|y c]; cbn in H2; [lia|]. by exists [Receive; Exit]; eexists.
    + by exists [Exit]; eexists.
  - unfold SetupSignalHandler. rewrite Hc. by eexists.
Qed.

Lemma signals_stop_then_exit_witness :
  ∃ s, run_signals [Notify SIGTERM; Notify (OtherSignal 1); Receive; Notify Interrupt; Receive; Exit]
         (mkSignals true (Some First) [] false None) = Some s
    ∧ sg_cancelled s = true ∧ 2 <= signals_sent [Notify SIGTERM; Notify (OtherSignal 1); Receive; Notify Interrupt; Receive; Exit].
Proof.
  eexists. split; [reflexivity|].
  destruct (signals_stop_then_exit (mkSignals true (Some First) [] false None)
              [Notify SIGTERM; Notify (OtherSignal 1); Receive; Notify Interrupt; Receive; Exit] _ eq_refl eq_refl)
    as (_ & H & _). by destruct (H 1%Z eq_refl) as (_ & Hc & Hn).
Defined.
