(* ===== verification/CertWatcher.v ===== *)
(** * The certificate watcher (src/pkg/certwatcher/certwatcher.go)

    A certificate that is read again when its files change.  Files and the
    watcher of the file system are those of a class; what they deliver, and how
    the world changes between two deliveries, is the argument of [Watch]. *)

From S2P Require Export Prelude.

(** [fsnotify.Op], a set of bits, and [fsnotify.Event]. *)
Definition Op_Create : Z := 1.
Definition Op_Write : Z := 2.
Definition Op_Remove : Z := 4.
Definition Op_Rename : Z := 8.
Definition Op_Chmod : Z := 16.

Record Event := mkEvent { ev_Name : string; ev_Op : Z }.

Definition isWrite (event : Event) : bool := (Z.land (ev_Op event) Op_Write =? Op_Write)%Z.
Definition isCreate (event : Event) : bool := (Z.land (ev_Op event) Op_Create =? Op_Create)%Z.
Definition isRemove (event : Event) : bool := (Z.land (ev_Op event) Op_Remove =? Op_Remove)%Z.

Section certwatcher.
Context {W Cert Watcher : Type}.
Implicit Types w : W.

Class CertFiles := {
  (** [tls.LoadX509KeyPair]. *)
  LoadX509KeyPair : string → string → W → result Cert;
  NewWatcher : W → W * result Watcher;
  watcher_Add : Watcher → string → W → W * option error;
  watcher_Close : Watcher → W → W * option error;
}.
Context `{!CertFiles}.

Record CertWatcher := mkCertWatcher {
  cw_currentCert : option Cert;
  cw_watcher : option Watcher;
  cw_certPath : string;
  cw_keyPath : string;
}.
Implicit Types cw : CertWatcher.

Definition ReadCertificate cw w : CertWatcher * option error :=
  match LoadX509KeyPair (cw_certPath cw) (cw_keyPath cw) w with
  | Err err => (cw, Some err)
  | Ok cert => (mkCertWatcher (Some cert) (cw_watcher cw) (cw_certPath cw) (cw_keyPath cw), None)
  end.

Definition New (certPath keyPath : string) w : W * result CertWatcher :=
  let cw := mkCertWatcher None None certPath keyPath in
  match ReadCertificate cw w with
  | (cw, Some err) => (w, Err err)
  | (cw, None) =>
      match NewWatcher w with
      | (w, Err err) => (w, Err err)
      | (w, Ok watcher) => (w, Ok (mkCertWatcher (cw_currentCert cw) (Some watcher) certPath keyPath))
      end
  end.

Definition GetCertificate cw : option Cert * option error := (cw_currentCert cw, None).

(** Adding a file to the watcher; one that was never made is a nil pointer. *)
Definition add_watch (f : string) cw w : outcome (W * option error) :=
  match cw_watcher cw with
  | None => Panicked "invalid memory address or nil pointer dereference"
  | Some watcher => Returned (watcher_Add watcher f w)
  end.

(** Whether an event can change what the files hold. *)
Definition changes (event : Event) : bool := isWrite event || isRemove event || isCreate event.

Definition handleEvent (event : Event) cw w : outcome (CertWatcher * W) :=
  if negb (changes event) then Returned (cw, w)
  else
    w ← (if isRemove event then '(w, _) ← add_watch (ev_Name event) cw w; Returned w else Returned w);
    Returned ((ReadCertificate cw w).1, w).

(** What arrives on the channels of the watcher, with what happened before. *)
Inductive Delivery := Delivered (before : W → W) (event : Event) | Failed (before : W → W) (err : error).

(** [Watch], until a channel is closed. *)
Fixpoint Watch (ds : list Delivery) cw w : outcome (CertWatcher * W) :=
  match ds with
  | [] => Returned (cw, w)
  | Delivered before event :: ds => '(cw, w) ← handleEvent event cw (before w); Watch ds cw w
  | Failed before err :: ds => Watch ds cw (before w)
  end.

Fixpoint add_files (files : list string) cw w : outcome (W * option error) :=
  match files with
  | [] => Returned (w, None)
  | f :: files =>
      '(w, err) ← add_watch f cw w;
      match err with Some err => Returned (w, Some err) | None => add_files files cw w end
  end.

(** [Start]; [ds] is what arrives until the context is done and the watcher is
    closed. *)
Definition Start (ds : list Delivery) cw w : outcome (CertWatcher * W * option error) :=
  '(w, err) ← add_files [cw_certPath cw; cw_keyPath cw] cw w;
  match err with
  | Some err => Returned (cw, w, Some err)
  | None =>
      '(cw, w) ← Watch ds cw w;
      match cw_watcher cw with
      | None => Panicked "invalid memory address or nil pointer dereference"
      | Some watcher => let '(w, err) := watcher_Close watcher w in Returned (cw, w, err)
      end
  end.

(** ** Facts *)

(** A watcher that can be used, with the files it was made for. *)
Definition usable (certPath keyPath : string) cw : Prop :=
  is_Some (cw_currentCert cw) ∧ is_Some (cw_watcher cw) ∧ cw_certPath cw = certPath ∧ cw_keyPath cw = keyPath.

Lemma New_usable certPath keyPath w w' cw : New certPath keyPath w = (w', Ok cw) → usable certPath keyPath cw.
Proof. unfold New, ReadCertificate, usable. intros. repeat case_match; simplify_eq/=; eauto. Qed.

(** The worlds in which the files are read again. *)
Fixpoint reads (watcher : Watcher) (ds : list Delivery) w : list W :=
  match ds with
  | [] => []
  | Failed before _ :: ds => reads watcher ds (before w)
  | Delivered before event :: ds =>
      let w := before w in
      if negb (changes event) then reads watcher ds w
      else
        let w := if isRemove event then (watcher_Add watcher (ev_Name event) w).1 else w in
        w :: reads watcher ds w
  end.

Definition loaded (certPath keyPath : string) w : option Cert :=
  match LoadX509KeyPair certPath keyPath w with Ok cert => Some cert | Err _ => None end.

(** A watcher that was made never serves nothing: whatever happens to the
    files and arrives from the file system, [Watch] goes on to its end, and the
    certificate it leaves is the one of the last reading that gave one, or the
    one before if none did; files are read again exactly for the events that
    write, create or remove. *)
Theorem certificate_is_last_good certPath keyPath ds cw w :
  usable certPath keyPath cw →
  ∃ cw' w' watcher, cw_watcher cw = Some watcher ∧ Watch ds cw w = Returned (cw', w') ∧ usable certPath keyPath cw'
    ∧ GetCertificate cw' = (match last (omap (loaded certPath keyPath) (reads watcher ds w)) with
                            | Some cert => Some cert
                            | None => cw_currentCert cw
                            end, None).
Proof.
  intros (Hc & [watcher Hw] & Hp & Hk). unfold GetCertificate.
  enough (∃ cw' w', Watch ds cw w = Returned (cw', w') ∧ usable certPath keyPath cw'
    ∧ cw_currentCert cw' = match last (omap (loaded certPath keyPath) (reads watcher ds w)) with
                           | Some cert => Some cert | None => cw_currentCert cw end) as (cw' & w' & H1 & H2 & H3).
  { exists cw', w', watcher. rewrite H3. by split_and!. }
  revert cw w Hc Hw Hp Hk. induction ds as [|[before event|before err] ds IH]; intros cw w Hc Hw Hp Hk; cbn.
  { exists cw, w. by split_and!. }
  2:{ by apply IH. }
  unfold handleEvent. destruct (changes event); cbn; [|by apply IH].
  set (w1 := if isRemove event then (watcher_Add watcher (ev_Name event) (before w)).1 else before w).
  assert (Hadd : (if isRemove event then '(w, _) ← add_watch (ev_Name event) cw (before w); Returned w else Returned (before w))
    = Returned w1).
  { unfold w1, add_watch. rewrite Hw. destruct (isRemove event); [|done]. cbn. by destruct (watcher_Add _ _ _). }
  rewrite Hadd. cbn. unfold ReadCertificate, loaded at 1. rewrite Hp, Hk.
  destruct (LoadX509KeyPair certPath keyPath w1) as [cert|err] eqn:Hload; cbn.
  - destruct (IH (mkCertWatcher (Some cert) (cw_watcher cw) certPath keyPath) w1) as (cw' & w' & H1 & H2 & H3); try done.
    exists cw', w'. split; [exact H1|]. split; [exact H2|]. rewrite H3, last_cons. cbn.
    by destruct (last (omap (loaded certPath keyPath) (reads watcher ds w1))).
  - destruct (IH cw w1) as (cw' & w' & H1 & H2 & H3); try done. by exists cw', w'.
Qed.

(** An event that only renames the file or changes its mode is passed over. *)
Lemma renamed_not_read event cw w :
  (0 ≤ ev_Op event)%Z → Z.land (ev_Op event) (Z.lor Op_Create (Z.lor Op_Write Op_Remove)) = 0%Z →
  handleEvent event cw w = Returned (cw, w).
Proof.
  intros Hpos Hbits. unfold handleEvent, changes, isWrite, isRemove, isCreate, Op_Create, Op_Write, Op_Remove in *.
  assert (Hbit : ∀ n, Z.testbit 7 n = true → Z.testbit (ev_Op event) n = false).
  { intros n Hn. change (Z.lor 1 (Z.lor 2 4)) with 7%Z in Hbits. apply (f_equal (λ z, Z.testbit z n)) in Hbits.
    rewrite Z.land_spec, Z.bits_0, Hn in Hbits. by rewrite andb_true_r in Hbits. }
  assert (Hno : ∀ n, (0 ≤ n)%Z → Z.testbit 7 n = true → (Z.land (ev_Op event) (2 ^ n) =? 2 ^ n)%Z = false).
  { intros n Hn0 Hn. apply Z.eqb_neq. intros Heq. apply (f_equal (λ z, Z.testbit z n)) in Heq.
    rewrite Z.land_spec, Z.pow2_bits_true, (Hbit n Hn) in Heq by done. done. }
  change 2%Z with (2 ^ 1)%Z at 1 2. change 4%Z with (2 ^ 2)%Z. change 1%Z with (2 ^ 0)%Z at 3 4.
  rewrite !Hno; done.
Qed.
End certwatcher.

(** ** At a concrete input: a world is what the files hold *)

Module Sample.
#[local] Instance sample_files : CertFiles (W := option string) (Cert := string) (Watcher := ()) := {|
  LoadX509KeyPair _ _ w := match w with Some c => Ok c | None => Err (ErrorString "no such file") end;
  NewWatcher w := (w, Ok ());
  watcher_Add _ _ w := (w, match w with Some _ => None | None => Some (ErrorString "no such file") end);
  watcher_Close _ w := (w, None);
|}.

Definition watcher : CertWatcher (Cert := string) (Watcher := ()) := mkCertWatcher (Some "first") (Some ()) "tls.crt" "tls.key".

(** The file is written, then removed; what replaces it by a rename is not read. *)
Definition deliveries : list (Delivery (W := option string)) :=
  [Delivered (λ _, Some "second") (mkEvent "tls.crt" 2); Delivered (λ _, None) (mkEvent "tls.crt" 4);
   Failed (λ w, w) (ErrorString "overflow"); Delivered (λ _, Some "third") (mkEvent "tls.crt" 8)].

Lemma certificate_is_last_good_witness :
  ∃ cw' w', Watch deliveries watcher (Some "first") = Returned (cw', w') ∧ GetCertificate cw' = (Some "second", None).
Proof.
  assert (Hu : usable "tls.crt" "tls.key" watcher) by (split_and!; (reflexivity || by eexists)).
  destruct (certificate_is_last_good "tls.crt" "tls.key" deliveries watcher (Some "first") Hu) as (cw' & w' & ? & _ & H1 & _ & H2).
  exists cw', w'. split; [exact H1|exact H2].
Defined.
End Sample.
