(* ===== verification/Paths.v ===== *)
(** * Paths (path/filepath of the standard library) and environment variables

    What the code uses of them, on slash-separated paths. *)

From S2P Require Export Prelude.
From Stdlib Require Import Ascii.

(** The parts of a path between slashes. *)
Fixpoint split_slash (acc s : string) : list string :=
  match s with
  | EmptyString => [acc]
  | String "/"%char r => acc :: split_slash "" r
  | String a r => split_slash (acc +:+ String a "") r
  end.

Definition rooted (path : string) : bool :=
  match path with String "/"%char _ => true | _ => false end.

(** [filepath.Clean] on slash-separated paths: [acc] holds the parts kept so
    far, the last one first. *)
Fixpoint clean_parts (root : bool) (acc parts : list string) : list string :=
  match parts with
  | [] => rev acc
  | p :: parts =>
      if decide (p = "" ∨ p = ".") then clean_parts root acc parts
      else if decide (p = "..") then
        match acc with
        | q :: acc' => if decide (q = "..") then clean_parts root (p :: acc) parts
                       else clean_parts root acc' parts
        | [] => clean_parts root (if root then [] else [p]) parts
        end
      else clean_parts root (p :: acc) parts
  end.

Definition filepath_Clean (path : string) : string :=
  let body := String.concat "/" (clean_parts (rooted path) [] (split_slash "" path)) in
  if rooted path then "/" +:+ body else if decide (body = "") then "." else body.

(** [filepath.Join]: empty elements are ignored. *)
Definition filepath_Join (elems : list string) : string :=
  match filter (λ e, e ≠ "") elems with
  | [] => ""
  | es => filepath_Clean (String.concat "/" es)
  end.

(** [filepath.Base]: the last element, without trailing slashes. *)
Definition filepath_Base (path : string) : string :=
  if decide (path = "") then "."
  else match list.last (filter (λ e, e ≠ "") (split_slash "" path)) with
       | Some e => e
       | None => "/"
       end.

Example Base_plain : filepath_Base "kubebuilder/bin/etcd" = "etcd".
Proof. reflexivity. Qed.
Example Base_slash : filepath_Base "/usr/bin//" = "bin".
Proof. reflexivity. Qed.
Example Join_dots : filepath_Join ["/home/me/"; "../you/./x"; ""] = "/home/you/x".
Proof. reflexivity. Qed.

(** ** Environment variables *)

(** [os.LookupEnv]: the variables of a world. *)
Class Environ {W : Type} := LookupEnv : string → W → option string.

Definition Getenv {W} `{!Environ (W := W)} (key : string) (w : W) : string := default "" (LookupEnv key w).
