(* ===== verification/NetAddr.v ===== *)
(** * Addresses and ports of test processes

    Hosts and ports (net and net/url of the standard library, what is used of
    them), [ListenAddr] (internal/testing/process/process.go) and the ports
    that are handed out (internal/testing/addr/manager.go). *)

From S2P Require Export Prelude.
From Stdlib Require Import Ascii DecimalString.

(** ** Hosts and ports *)

(** The parts before and after the last [c]. *)
Fixpoint split_last (c : ascii) (s : string) : option (string * string) :=
  match s with
  | EmptyString => None
  | String a s =>
      match split_last c s with
      | Some (h, t) => Some (String a h, t)
      | None => if decide (a = c) then Some (EmptyString, s) else None
      end
  end.

Definition colon : ascii := ":".

Definition JoinHostPort (host port : string) : string :=
  match split_last colon host with
  | Some _ => "[" +:+ host +:+ "]:" +:+ port
  | None => host +:+ ":" +:+ port
  end.

Record URL := mkURL { u_Scheme : string; u_Host : string; u_Path : string }.

#[export] Instance URL_eq_dec : EqDecision URL.
Proof. solve_decision. Defined.

(** Of a URL with a host and a path that needs no escaping. *)
Definition URL_String (u : URL) : string := u_Scheme u +:+ "://" +:+ u_Host u +:+ u_Path u.

Definition is_digit (a : ascii) : bool := (48 <=? nat_of_ascii a)%nat && (nat_of_ascii a <=? 57)%nat.
Fixpoint all_digits (s : string) : bool :=
  match s with EmptyString => true | String a s => is_digit a && all_digits s end.

Definition strip_brackets (host : string) : string :=
  match host with
  | String "[" h => if HasSuffix h "]" then TrimSuffix h "]" else host
  | _ => host
  end.

(** [splitHostPort] of net/url: a colon with anything but digits after it is not
    one before a port. *)
Definition splitHostPort (hostPort : string) : string * string :=
  match split_last colon hostPort with
  | Some (h, t) => if all_digits t then (strip_brackets h, t) else (strip_brackets hostPort, "")
  | None => (strip_brackets hostPort, "")
  end.

Definition Hostname (u : URL) : string := (splitHostPort (u_Host u)).1.
Definition Port (u : URL) : string := (splitHostPort (u_Host u)).2.

Record ListenAddr := mkListenAddr { la_Address : string; la_Port : string }.

#[export] Instance ListenAddr_eq_dec : EqDecision ListenAddr.
Proof. solve_decision. Defined.

Definition HostPort (l : ListenAddr) : string := JoinHostPort (la_Address l) (la_Port l).
Definition ListenAddr_URL (scheme path : string) (l : ListenAddr) : URL := mkURL scheme (HostPort l) path.

Lemma split_last_app c h t : split_last c t = None → split_last c (h +:+ String c t) = Some (h, t).
Proof.
  intros Ht. induction h as [|a h IH].
  - change ("" +:+ String c t) with (String c t). cbn [split_last]. by rewrite Ht, decide_True.
  - rewrite str_app_cons. cbn [split_last]. by rewrite IH.
Qed.

Lemma digits_no_colon t : all_digits t = true → split_last colon t = None.
Proof.
  induction t as [|a t IH]; [done|]. cbn [all_digits split_last].
  intros [Ha Ht]%andb_true_iff. rewrite IH by done. rewrite decide_False; [done|]. by intros ->.
Qed.

Lemma digits_of_uint s d : NilEmpty.uint_of_string s = Some d → all_digits s = true.
Proof.
  revert d. induction s as [|a s IH]; intros d; [done|]. cbn.
  destruct (NilEmpty.uint_of_string s) as [d'|].
  - rewrite (IH d' eq_refl). destruct a as [[] [] [] [] [] [] [] []]; vm_compute; congruence.
  - by destruct a as [[] [] [] [] [] [] [] []].
Qed.

Lemma all_digits_FormatUint z : (0 ≤ z)%Z → all_digits (FormatUint z) = true.
Proof.
  intros Hz. pose proof (parse_digits_FormatUint z Hz) as Hp. unfold parse_digits in Hp.
  unfold NilZero.uint_of_string in Hp. destruct (FormatUint z) as [|a s]; [done|].
  destruct (NilEmpty.uint_of_string (String a s)) as [d|] eqn:Hd; [by eapply digits_of_uint|].
  discriminate.
Qed.

(** A host and a port that are joined come apart again: the address of a
    process and the URL it is given as say the same. *)
Lemma splitHostPort_JoinHostPort host port :
  all_digits port = true → (split_last colon host = None → strip_brackets host = host) →
  splitHostPort (JoinHostPort host port) = (host, port).
Proof.
  intros Hport Hhost. pose proof (digits_no_colon _ Hport) as Hno.
  unfold JoinHostPort, splitHostPort. destruct (split_last colon host) as [[h t]|] eqn:Hc.
  - replace ("[" +:+ host +:+ "]:" +:+ port) with (("[" +:+ host +:+ "]") +:+ String colon port)
      by by rewrite !str_app_assoc.
    rewrite split_last_app by done. rewrite Hport.
    change ("[" +:+ host +:+ "]") with (String "[" (host +:+ "]")). cbn -[HasSuffix TrimSuffix].
    by rewrite HasSuffix_app, TrimSuffix_app.
  - change (host +:+ ":" +:+ port) with (host +:+ String colon port).
    rewrite split_last_app by done. rewrite Hport. by rewrite Hhost.
Qed.

Example ipv6 : splitHostPort (JoinHostPort "::1" "6443") = ("::1", "6443").
Proof. reflexivity. Qed.

(** ** Ports that are handed out *)

(** What [suggest] calls, over a world [W] and listeners [L]: an address is known
    by the text of its IP. *)
Class AddrOS {W L : Type} := {
  ResolveTCPAddr : string → W → W * result string;
  ListenTCP : string → W → W * result (L * Z);
  Close : L → W → W * option error;
  Now : W → W * Z;
}.

Definition portReserveTime : Z := 60000000000.
Definition portConflictRetry : nat := 100.

(** When each port was handed out. *)
Abbreviation portCache := (gmap Z Z).

Section addr.
Context {W L : Type} `{!AddrOS (W := W) (L := L)} `{!MapRange Z Z}.
Implicit Types (w : W) (c : portCache) (port : Z).

Fixpoint remove_outdated (entries : list (Z * Z)) c w : portCache * W :=
  match entries with
  | [] => (c, w)
  | (p, t) :: entries =>
      let '(w, now) := Now w in
      remove_outdated entries (if decide (now - t > portReserveTime)%Z then delete p c else c) w
  end.

(** [portCache.add], which holds the lock throughout. *)
Definition add port c w : portCache * W * bool :=
  let '(c, w) := remove_outdated (map_range c) c w in
  match c !! port with
  | Some _ => (c, w, false)
  | None => let '(w, now) := Now w in (<[port := now]> c, w, true)
  end.

(** The error of closing the listener is returned next to the port. *)
Definition suggest (listenHost : string) w : W * (Z * string * option error) :=
  let listenHost := if decide (listenHost = "") then "localhost" else listenHost in
  match ResolveTCPAddr (JoinHostPort listenHost "0") w with
  | (w, Err err) => (w, (0%Z, "", Some err))
  | (w, Ok addr) =>
      match ListenTCP addr w with
      | (w, Err err) => (w, (0%Z, "", Some err))
      | (w, Ok (l, port)) => let '(w, err) := Close l w in (w, (port, addr, err))
      end
  end.

Definition err_no_free_ports : error := ErrorString "no free ports found after 100 retries".

Fixpoint suggest_loop (retries : nat) (listenHost : string) (last : Z * string) c w
    : portCache * W * (Z * string * option error) :=
  match retries with
  | 0 => (c, w, (last, Some err_no_free_ports))
  | S retries =>
      match suggest listenHost w with
      | (w, (port, resolvedHost, Some err)) => (c, w, (port, resolvedHost, Some err))
      | (w, (port, resolvedHost, None)) =>
          match add port c w with
          | (c, w, true) => (c, w, (port, resolvedHost, None))
          | (c, w, false) => suggest_loop retries listenHost (port, resolvedHost) c w
          end
      end
  end.

Definition Suggest (listenHost : string) c w : portCache * W * (Z * string * option error) :=
  suggest_loop portConflictRetry listenHost (0%Z, "") c w.

(** ** Facts *)

(** The clock a world shows, which never goes back. *)
Class AddrLaws := {
  clock : W → Z;
  Now_clock w : let '(w', t) := Now w in (clock w ≤ t ≤ clock w')%Z;
  ResolveTCPAddr_clock a w : (clock w ≤ clock (ResolveTCPAddr a w).1)%Z;
  ListenTCP_clock a w : (clock w ≤ clock (ListenTCP a w).1)%Z;
  Close_clock l w : (clock w ≤ clock (Close l w).1)%Z;
}.
Context `{!AddrLaws}.

(** The goroutines of a program: between the calls of [add], which exclude each
    other, anything may happen to the world but that time goes back.  The
    ports handed out are logged with the times noted in the cache. *)
Record addr_state := mkAddr { as_cache : portCache; as_world : W; as_log : list (Z * Z) }.

Inductive addr_step : addr_state → addr_state → Prop :=
  | step_time c w w' log : (clock w ≤ clock w')%Z → addr_step (mkAddr c w log) (mkAddr c w' log)
  | step_add port c w c' w' log :
      add port c w = (c', w', true) →
      addr_step (mkAddr c w log) (mkAddr c' w' (log ++ [(port, default 0%Z (c' !! port))]))
  | step_refused port c w c' w' log :
      add port c w = (c', w', false) → addr_step (mkAddr c w log) (mkAddr c' w' log).

Definition outdated (t now : Z) : Prop := (portReserveTime < now - t)%Z.

(** The cache has, for each port, no entry or one that was logged, and a port
    logged at another time was handed out more than the reserve time ago. *)
Definition addr_inv (s : addr_state) : Prop :=
  (∀ p t, as_cache s !! p = Some t → (p, t) ∈ as_log s)
  ∧ (∀ p t, (p, t) ∈ as_log s → (t ≤ clock (as_world s))%Z
       ∧ (as_cache s !! p = Some t ∨ outdated t (clock (as_world s)))).

Lemma remove_outdated_spec entries c w c' w' :
  remove_outdated entries c w = (c', w') → (∀ p t, (p, t) ∈ entries → c !! p = Some t) → NoDup entries.*1 →
  (clock w ≤ clock w')%Z
  ∧ (∀ p, c' !! p = c !! p ∨ c' !! p = None ∧ ∃ t, c !! p = Some t ∧ outdated t (clock w')).
Proof.
  revert c w. induction entries as [|[p t] entries IH]; intros c w; cbn; [intros [= <- <-]; auto with lia|].
  pose proof (Now_clock w) as Hnow. destruct (Now w) as [w1 now]. intros Heq Hent [Hp Hnd]%NoDup_cons.
  apply IH in Heq as [Hc Hkeep]; [| |done].
  - split; [lia|]. intros q. destruct (Hkeep q) as [Hq|(Hq & t' & Ht' & Ho)].
    + case_decide as Hd; [|by left]. destruct (decide (q = p)) as [->|Hqp].
      * right. rewrite Hq, lookup_delete_eq. split; [done|]. exists t.
        split; [apply Hent; by left|]. unfold outdated. lia.
      * left. by rewrite Hq, lookup_delete_ne.
    + right. split; [done|]. exists t'. split; [|done]. case_decide; [|done].
      apply lookup_delete_Some in Ht'. tauto.
  - intros q t' Hin. pose proof (Hent q t' (list_elem_of_further _ _ _ Hin)) as Hq. case_decide; [|done].
    rewrite lookup_delete_ne; [done|]. intros ->. apply Hp. apply list_elem_of_fmap. by exists (q, t').
Qed.

Lemma add_spec port c w c' w' ok :
  add port c w = (c', w', ok) →
  (clock w ≤ clock w')%Z ∧
  ∃ c1, (∀ p, c1 !! p = c !! p ∨ c1 !! p = None ∧ ∃ t, c !! p = Some t ∧ outdated t (clock w'))
  ∧ if ok then ∃ now, c1 !! port = None ∧ (∀ t, c !! port = Some t → outdated t now)
               ∧ (now ≤ clock w')%Z ∧ (clock w ≤ now)%Z ∧ c' = <[port := now]> c1
    else c' = c1 ∧ is_Some (c1 !! port).
Proof.
  unfold add. destruct (remove_outdated _ c w) as [c1 w1] eqn:Hrem.
  apply remove_outdated_spec in Hrem as [Hc Hkeep];
    [|by intros p t ?%elem_of_map_range|apply NoDup_map_range_keys].
  destruct (c1 !! port) as [t|] eqn:Hport.
  - intros [= <- <- <-]. split; [done|]. exists c1. by rewrite Hport.
  - pose proof (Now_clock w1) as Hnow. destruct (Now w1) as [w2 now]. intros [= <- <- <-].
    split; [lia|]. exists c1. split.
    + intros p. destruct (Hkeep p) as [?|(? & t & ? & ?)]; [by left|right]. split; [done|]. exists t.
      unfold outdated in *. split; [done|lia].
    + exists now. repeat split; try done; try lia. intros t Ht.
      destruct (Hkeep port) as [Hk|(_ & t' & Ht' & Ho)]; [congruence|]. unfold outdated in *.
      assert (t' = t) as -> by congruence. lia.
Qed.

Lemma addr_step_inv s s' : addr_step s s' → addr_inv s → addr_inv s'.
Proof.
  intros Hs [Hcache Hlog]. inversion Hs as [c w w' log Hc|port c w c' w' log Hadd|port c w c' w' log Hadd]; subst;
    unfold addr_inv in *; cbn in *.
  - split; [done|]. intros p t Hin. destruct (Hlog p t Hin) as [Ht Ho]. split; [lia|].
    unfold outdated in *. destruct Ho; [by left|right; lia].
  - apply add_spec in Hadd as (Hc & c1 & Hkeep & now & Hport & Hold & Hnow & _ & ->).
    rewrite lookup_insert_eq. cbn. split.
    + intros p t. rewrite lookup_insert_Some. intros [[<- <-]|[Hne Hp]]; [set_solver|].
      destruct (Hkeep p) as [Hk|[? _]]; [|congruence]. apply elem_of_app. left. apply Hcache. congruence.
    + intros p t [Hin|[= -> ->]%list_elem_of_singleton]%elem_of_app; [|rewrite lookup_insert_eq; auto].
      destruct (Hlog p t Hin) as [Ht Ho]. split; [lia|]. destruct (decide (p = port)) as [->|Hne].
      * right. destruct Ho as [Ho|Ho]; [apply Hold in Ho|]; unfold outdated in *; lia.
      * rewrite lookup_insert_ne by done. destruct Ho as [Ho|Ho]; [|right; unfold outdated in *; lia].
        destruct (Hkeep p) as [Hk|(_ & t' & Ht' & Ho')]; [left; congruence|right]. congruence.
  - apply add_spec in Hadd as (Hc & c1 & Hkeep & -> & _). split.
    + intros p t Hp. apply Hcache. destruct (Hkeep p) as [?|[? _]]; congruence.
    + intros p t Hin. destruct (Hlog p t Hin) as [Ht Ho]. split; [lia|].
      destruct Ho as [Ho|Ho]; [|right; unfold outdated in *; lia].
      destruct (Hkeep p) as [Hk|(_ & t' & Ht' & Ho')]; [left; congruence|right]. congruence.
Qed.

Lemma addr_steps_inv s s' : rtc addr_step s s' → addr_inv s → addr_inv s'.
Proof. induction 1; eauto using addr_step_inv. Qed.

(** A port handed out in a step was not handed out within the reserve time
    before. *)
Lemma add_after s port c' w' :
  addr_inv s → add port (as_cache s) (as_world s) = (c', w', true) →
  ∀ t, (port, t) ∈ as_log s → outdated t (default 0%Z (c' !! port)).
Proof.
  intros [_ Hlog] Hadd t Hin. apply add_spec in Hadd as (_ & c1 & _ & now & _ & Hold & _ & Hge & ->).
  rewrite lookup_insert_eq. cbn. destruct (Hlog port t Hin) as [_ [Ho|Ho]]; [by apply Hold|].
  unfold outdated in *. lia.
Qed.

Lemma suggest_clock host w : (clock w ≤ clock (suggest host w).1)%Z.
Proof.
  unfold suggest. set (h := if decide _ then _ else _). pose proof (ResolveTCPAddr_clock (JoinHostPort h "0") w) as H1.
  destruct (ResolveTCPAddr _ w) as [w1 [addr|]]; cbn in *; [|done].
  pose proof (ListenTCP_clock addr w1) as H2. destruct (ListenTCP addr w1) as [w2 [[l port]|]]; cbn in *; [|lia].
  pose proof (Close_clock l w2) as H3. destruct (Close l w2) as [w3 err]. cbn in *. lia.
Qed.

(** A call of [Suggest] is a sequence of such steps, the last of which hands out
    the port it returns; with an error none is handed out. *)
Lemma suggest_loop_steps n host last c w log :
  let '(c', w', (port, _, err)) := suggest_loop n host last c w in
  match err with
  | Some _ => rtc addr_step (mkAddr c w log) (mkAddr c' w' log)
  | None => ∃ c1 w1, rtc addr_step (mkAddr c w log) (mkAddr c1 w1 log) ∧ add port c1 w1 = (c', w', true)
  end.
Proof.
  revert last c w. induction n as [|n IH]; intros last c w; cbn [suggest_loop]; [by destruct last|].
  pose proof (suggest_clock host w) as Hc. destruct (suggest host w) as [w1 [[port h] [err|]]]; cbn in Hc.
  - apply rtc_once. by constructor.
  - destruct (add port c w1) as [[c2 w2] [|]] eqn:Hadd.
    + exists c, w1. split; [apply rtc_once; by constructor|done].
    + specialize (IH (port, h) c2 w2).
      assert (Hsteps : rtc addr_step (mkAddr c w log) (mkAddr c2 w2 log)).
      { eapply rtc_l; [by constructor|]. apply rtc_once. by eapply step_refused. }
      destruct (suggest_loop n host (port, h) c2 w2) as [[c' w'] [[p h'] [err|]]].
      * by etransitivity.
      * destruct IH as (c3 & w3 & IH & ?). exists c3, w3. split; [by etransitivity|done].
Qed.

(** However the calls of test processes that ask for ports interleave, a port
    that is handed out twice is handed out again only after more than the
    reserve time of one minute; and what [Suggest] returns, after at most a
    hundred tries, is a port that was handed out in this way, or an error with
    none handed out. *)
Theorem ports_not_reused w0 s :
  rtc addr_step (mkAddr ∅ w0 []) s →
  (∀ i j p t t', i < j → as_log s !! i = Some (p, t) → as_log s !! j = Some (p, t') → outdated t t')
  ∧ ∀ host,
      let '(c', w', (port, _, err)) := Suggest host (as_cache s) (as_world s) in
      match err with
      | Some _ => rtc addr_step s (mkAddr c' w' (as_log s))
      | None => ∃ t, c' !! port = Some t ∧ rtc addr_step s (mkAddr c' w' (as_log s ++ [(port, t)]))
                  ∧ ∀ t', (port, t') ∈ as_log s → outdated t' t
      end.
Proof.
  intros Hs.
  assert (Hinit : addr_inv (mkAddr ∅ w0 [])) by (split; cbn; [by intros p t ?%lookup_empty_Some|by intros p t ?%not_elem_of_nil]).
  split.
  - remember (mkAddr ∅ w0 []) as s0 eqn:Hs0.
    assert (Hstart : ∀ i j p t t', i < j → as_log s0 !! i = Some (p, t) → as_log s0 !! j = Some (p, t') → outdated t t')
      by by subst.
    clear Hs0. induction Hs as [|s0 s1 s Hstep Hs IH]; [done|].
    apply IH; [by eapply addr_step_inv|]. destruct Hstep as [| port c w c' w' log Hadd|]; cbn in *; [done| |done].
    intros i j p t t' Hij Hi Hj. apply lookup_app_Some in Hj as [Hj|[Hlen Hj]].
    + apply (Hstart i j p t t'); [done| |done]. rewrite lookup_app_l in Hi; [done|].
      apply lookup_lt_Some in Hj. lia.
    + apply list_lookup_singleton_Some in Hj as [Hj0 [= <- <-]].
      rewrite lookup_app_l in Hi by lia. apply list_elem_of_lookup_2 in Hi.
      by apply (add_after (mkAddr c w log) port c' w').
  - intros host. assert (Hinv : addr_inv s) by by eapply addr_steps_inv.
    destruct s as [c w log]. cbn [as_cache as_world as_log].
    pose proof (suggest_loop_steps portConflictRetry host (0%Z, "") c w log) as Hl. unfold Suggest.
    destruct (suggest_loop _ _ _ _ _) as [[c' w'] [[port h] [err|]]]; [done|].
    destruct Hl as (c1 & w1 & Hsteps & Hadd).
    assert (Hinv1 : addr_inv (mkAddr c1 w1 log)) by by eapply addr_steps_inv.
    pose proof (add_after (mkAddr c1 w1 log) port c' w' Hinv1 Hadd) as Hafter. cbn in Hafter.
    assert (Hp : ∃ t, c' !! port = Some t).
    { apply add_spec in Hadd as (_ & ? & _ & now & _ & _ & _ & _ & ->). exists now. apply lookup_insert_eq. }
    destruct Hp as [t Ht]. exists t. rewrite Ht in Hafter. cbn in Hafter. split; [done|]. split; [|done].
    eapply rtc_r; [done|]. pose proof (step_add port c1 w1 c' w' log Hadd) as Hstep. by rewrite Ht in Hstep.
Qed.
End addr.

(** ** At a concrete input: a clock in microseconds, and the ports the system
    offers, one after the other *)

Module Sample.
Definition Offers : Type := Z * list Z.

#[local] Instance sample_os : AddrOS (W := Offers) (L := ()) := {|
  ResolveTCPAddr host w := (w, Ok "127.0.0.1");
  ListenTCP _ w := match w.2 with [] => (w, Err (ErrorString "no ports")) | p :: ps => ((w.1, ps), Ok ((), p)) end;
  Close _ w := (w, None);
  Now w := ((w.1 + 1000, w.2)%Z, w.1 + 1000)%Z;
|}.

#[local] Instance sample_laws : AddrLaws (W := Offers).
Proof.
  refine {| clock := fst |}; intros; cbn; try lia. destruct w as [t [|p ps]]; cbn; lia.
Defined.

#[local] Instance ports_range : MapRange Z Z := some_range Z Z.

Definition first : Offers := (0%Z, [5; 5; 7]%Z).
Definition handed_out : addr_state (W := Offers) := mkAddr {[5 := 1000]}%Z (1000, [5; 7])%Z [(5, 1000)]%Z.

Lemma first_handed_out : rtc addr_step (mkAddr ∅ first []) handed_out.
Proof.
  eapply rtc_l; [by apply (step_time ∅ first (0, [5; 7])%Z)|].
  apply rtc_once. exact (step_add 5 ∅ (0, [5; 7])%Z {[5 := 1000]}%Z (1000, [5; 7])%Z [] eq_refl).
Qed.

(** The port just handed out is refused, and the next one returned. *)
Lemma ports_not_reused_witness :
  ∃ c' w', Suggest "" (as_cache handed_out) (as_world handed_out) = (c', w', (7%Z, "127.0.0.1", None))
    ∧ ∃ t, c' !! 7%Z = Some t.
Proof.
  destruct (ports_not_reused first handed_out first_handed_out) as [_ Hs]. specialize (Hs "").
  destruct (Suggest "" (as_cache handed_out) (as_world handed_out)) as [[c' w'] [[port h] err]] eqn:Hsug.
  assert (Heq : (Suggest "" (as_cache handed_out) (as_world handed_out)).2 = (7%Z, "127.0.0.1", None))
    by (vm_compute; reflexivity).
  rewrite Hsug in Heq. cbn in Heq. injection Heq as -> -> ->.
  destruct Hs as (t & Ht & _). exists c', w'. split; [done|]. by exists t.
Defined.

(** An hour later the first port is free again. *)
Example free_again :
  (Suggest "" (as_cache handed_out) (3600 * 1000000000, [5])%Z).2 = (5%Z, "127.0.0.1", None).
Proof. vm_compute. reflexivity. Qed.
End Sample.
