(* ===== verification/ClientConfig.v ===== *)
(** * Loading the configuration of clients (src/pkg/client/config/config.go)

    Where the configuration comes from: the file of a flag, that of an
    environment variable, the cluster the program runs in, or the user's file.
    Reading and merging files is client-go's. *)

From stdpp Require Import numbers.
From S2P Require Export Paths.

(** The parts of a [rest.Config] that are used here and by the test
    environment; a rate is a number. *)
Record RestConfig := mkRest {
  rc_Host : string;
  rc_APIPath : string;
  rc_CAData : string;
  rc_CertData : string;
  rc_KeyData : string;
  rc_BearerToken : string;
  rc_Username : string;
  rc_Password : string;
  rc_QPS : Qcanon.Qc;
  rc_Burst : Z;
}.
Definition rate (n : Z) : Qcanon.Qc := Qcanon.Q2Qc (QArith_base.inject_Z n).
Definition empty_RestConfig : RestConfig := mkRest "" "" "" "" "" "" "" "" (rate 0) 0.

Definition set_rate (qps : Qcanon.Qc) (burst : Z) (c : RestConfig) : RestConfig :=
  mkRest (rc_Host c) (rc_APIPath c) (rc_CAData c) (rc_CertData c) (rc_KeyData c) (rc_BearerToken c) (rc_Username c)
    (rc_Password c) qps burst.

(** [clientcmd.ClientConfigLoadingRules]. *)
Record LoadingRules := mkRules { lr_ExplicitPath : string; lr_Precedence : list string }.

Definition RecommendedConfigPathEnvVar : string := "KUBECONFIG".
Definition RecommendedHomeDir : string := ".kube".
Definition RecommendedFileName : string := "config".

Section config.
Context {W : Type} `{!Environ (W := W)}.
Implicit Types w : W.

Class ConfigLoading := {
  InClusterConfig : W → result RestConfig;
  NewDefaultClientConfigLoadingRules : W → LoadingRules;
  (** The home directory of [user.Current]. *)
  user_Current : W → result string;
  (** [ClientConfig] of a deferred loading configuration with these rules and
      overrides of the server and the context. *)
  ClientConfig : LoadingRules → string → string → W → W * result RestConfig;
}.
Context `{!ConfigLoading}.

Definition loadConfigWithContext (apiServerURL : string) (loader : LoadingRules) (context : string) w
    : W * result RestConfig :=
  ClientConfig loader apiServerURL context w.

(** [kubeconfig] is the value of the flag. *)
Definition loadConfig (kubeconfig context : string) w : W * result RestConfig :=
  if decide (kubeconfig ≠ "") then loadConfigWithContext "" (mkRules kubeconfig []) context w
  else
    let kubeconfigPath := Getenv RecommendedConfigPathEnvVar w in
    let in_cluster :=
      if decide (kubeconfigPath = "") then match InClusterConfig w with Ok c => Some c | Err _ => None end else None in
    match in_cluster with
    | Some c => (w, Ok c)
    | None =>
        let loadingRules := NewDefaultClientConfigLoadingRules w in
        match LookupEnv "HOME" w with
        | Some _ => loadConfigWithContext "" loadingRules context w
        | None =>
            match user_Current w with
            | Err err => (w, Err (ErrorString ("could not get current user: " +:+ error_text err)))
            | Ok home =>
                let file := filepath_Join [home; RecommendedHomeDir; RecommendedFileName] in
                loadConfigWithContext "" (mkRules (lr_ExplicitPath loadingRules) (lr_Precedence loadingRules ++ [file]))
                  context w
            end
        end
    end.

Definition default_rate (cfg : RestConfig) : RestConfig :=
  if decide (rc_QPS cfg = rate 0) then set_rate (rate 20) 30 cfg else cfg.

Definition GetConfigWithContext (kubeconfig context : string) w : W * result RestConfig :=
  match loadConfig kubeconfig context w with
  | (w, Err err) => (w, Err err)
  | (w, Ok cfg) => (w, Ok (default_rate cfg))
  end.

Definition GetConfig (kubeconfig : string) w : W * result RestConfig := GetConfigWithContext kubeconfig "" w.

(** ** Facts *)

(** A rate of zero is replaced, and nothing else changed. *)
Lemma default_rate_spec cfg :
  rc_QPS (default_rate cfg) ≠ rate 0
  ∧ set_rate (rc_QPS cfg) (rc_Burst cfg) (default_rate cfg) = cfg
  ∧ (rc_QPS cfg ≠ rate 0 → default_rate cfg = cfg).
Proof. unfold default_rate. case_decide as Hq; [|by destruct cfg]. split; [done|]. by destruct cfg. Qed.

(** Which configuration is loaded: with the flag, that of its file and no
    other; without it, and without the environment variable, that of the
    cluster the program runs in, if it runs in one; else what the default
    files say, to which the one of the user's home directory is added only if
    the directory is not in the environment.  A rate that is not set is set to
    20 queries a second in bursts of 30, and a configuration that sets a rate
    keeps its bursts, even if they are zero. *)
Theorem configuration_precedence kubeconfig context w :
  let loaded r := match r with (w', Ok cfg) => (w', Ok (default_rate cfg)) | (w', Err err) => (w', Err err) end in
  let rules := NewDefaultClientConfigLoadingRules w in
  let '(w', r) := GetConfigWithContext kubeconfig context w in
  (kubeconfig ≠ "" → (w', r) = loaded (ClientConfig (mkRules kubeconfig []) "" context w))
  ∧ (kubeconfig = "" → Getenv "KUBECONFIG" w = "" → ∀ cfg, InClusterConfig w = Ok cfg →
       (w', r) = (w, Ok (default_rate cfg)))
  ∧ (kubeconfig = "" → Getenv "KUBECONFIG" w ≠ "" ∨ (∃ err, InClusterConfig w = Err err) →
       match LookupEnv "HOME" w, user_Current w with
       | Some _, _ => (w', r) = loaded (ClientConfig rules "" context w)
       | None, Ok home =>
           (w', r) = loaded (ClientConfig
             (mkRules (lr_ExplicitPath rules) (lr_Precedence rules ++ [filepath_Join [home; ".kube"; "config"]])) "" context w)
       | None, Err _ => w' = w ∧ ∃ err, r = Err err
       end)
  ∧ ∀ cfg, r = Ok cfg → rc_QPS cfg ≠ rate 0.
Proof.
  cbn zeta. destruct (GetConfigWithContext kubeconfig context w) as [w' r] eqn:Hget.
  assert (Hrate : ∀ cfg, r = Ok cfg → rc_QPS cfg ≠ rate 0).
  { intros cfg ->. revert Hget. unfold GetConfigWithContext. destruct (loadConfig _ _ _) as [? []]; [|done].
    intros [= _ <-]. apply default_rate_spec. }
  rewrite <- Hget in *. unfold GetConfigWithContext, loadConfig, loadConfigWithContext in *. split_and!; [| | |done].
  - intros Hk. by rewrite decide_True.
  - intros -> Henv cfg Hin. rewrite decide_False by by intros []. by rewrite decide_True, Hin.
  - intros -> Hno. rewrite decide_False in * by by intros [].
    assert (Hin : (if decide (Getenv RecommendedConfigPathEnvVar w = "") then
      match InClusterConfig w with Ok c => Some c | Err _ => None end else None) = None).
    { case_decide; [|done]. destruct Hno as [?|[err ->]]; done. }
    rewrite Hin in *. destruct (LookupEnv "HOME" w); [done|]. destruct (user_Current w); [done|].
    injection Hget as <- <-. eauto.
Qed.
End config.
