(* ===== verification/TestProcess.v ===== *)
(** * Processes of a test environment (src/pkg/internal/testing/process)

    Where a binary is found (bin_path_finder.go), and the state of a process
    that is started, checked for health and stopped (process.go).  Environment
    variables, directories, processes and their exits are those of a class of
    operating systems; the goroutine that waits for a process stores its exit
    in the state the process was started from. *)

From S2P Require Export Paths NetAddr.
From Stdlib Require Import Ascii.

(** ** Where a binary is found *)

Definition between (lo hi a : ascii) : bool :=
  (nat_of_ascii lo <=? nat_of_ascii a)%nat && (nat_of_ascii a <=? nat_of_ascii hi)%nat.

Definition upper_char (a : ascii) : ascii :=
  if between "a" "z" a then ascii_of_nat (nat_of_ascii a - 32) else a.

(** [strings.ToUpper] of ASCII text. *)
Fixpoint ToUpper (s : string) : string :=
  match s with EmptyString => EmptyString | String a s => String (upper_char a) (ToUpper s) end.

(** [ReplaceAllString] for a pattern [[...]+]: every longest run of the
    characters that are not kept becomes one [repl]. *)
Fixpoint replace_runs (keep : ascii → bool) (repl : ascii) (in_run : bool) (s : string) : string :=
  match s with
  | EmptyString => EmptyString
  | String a s =>
      if keep a then String a (replace_runs keep repl false s)
      else if in_run then replace_runs keep repl true s
      else String repl (replace_runs keep repl true s)
  end.

(** ... and for [^[...]+] and nothing in its place. *)
Fixpoint drop_while (drop : ascii → bool) (s : string) : string :=
  match s with
  | EmptyString => EmptyString
  | String a s' => if drop a then drop_while drop s' else s
  end.

Definition EnvAssetsPath : string := "KUBEBUILDER_ASSETS".
Definition EnvAssetOverridePrefix : string := "TEST_ASSET_".
Definition AssetsDefaultPath : string := "/usr/local/kubebuilder/bin".

Definition upper_or_digit (a : ascii) : bool := between "A" "Z" a || is_digit a.

Definition asset_variable (symbolicName : string) : string :=
  let sanitizedName := replace_runs upper_or_digit "_" false (ToUpper symbolicName) in
  EnvAssetOverridePrefix +:+ drop_while is_digit sanitizedName.

Definition BinPathFinder (LookupEnv : string → option string) (symbolicName assetDirectory : string) : string :=
  match LookupEnv (asset_variable symbolicName) with
  | Some val => val
  | None =>
      match LookupEnv EnvAssetsPath with
      | Some val => filepath_Join [val; symbolicName]
      | None =>
          if decide (assetDirectory ≠ "") then filepath_Join [assetDirectory; symbolicName]
          else filepath_Join [AssetsDefaultPath; symbolicName]
      end
  end.

(** ** Processes *)

(** What the select of [Start] sees first. *)
Inductive StartEvent := Ready | WaitDone | TimedOut.

Class ProcessOS {W Pid : Type} := {
  TempDir : string → W → W * result string;
  RemoveAll : string → W → W * option error;
  (** Running a command to its end, with its output. *)
  CombinedOutput : string → list string → W → W * result string;
  (** [regexp.Match] of an expression. *)
  regexp_Match : string → string → result bool;
  (** A GET, with the status; whether the poller was told to stop; sleeping. *)
  http_Get : URL → W → W * result Z;
  stop_closed : W → bool;
  Sleep : Z → W → W;
  (** The goroutine that polls the health check starts; it is told to stop. *)
  go_poll : URL → Z → W → W;
  close_poller : W → W;
  cmd_Start : string → list string → W → W * result Pid;
  (** Waiting for the poller, the end of the process, or the time-out. *)
  select_start : Pid → Z → W → W * StartEvent;
  Signal_TERM : Pid → W → W * option error;
  (** Waiting for the end of the process ([true]) or the time-out. *)
  select_stop : Pid → Z → W → W * bool;
  (** What the goroutines that wait for processes have stored, the latest first. *)
  exits : W → list (Pid * option error);
}.

Section process.
Context {W Pid : Type} `{!EqDecision Pid} `{!Environ (W := W)} `{!ProcessOS (W := W) (Pid := Pid)}.
Implicit Types (w : W) (p : Pid).

Record State := mkState {
  (** The last command, with its process if it could be started. *)
  ps_Cmd : option (option Pid);
  ps_HealthCheck : URL;
  ps_PollInterval : Z;
  ps_Args : list string;
  ps_StopTimeout : Z;
  ps_StartTimeout : Z;
  ps_Dir : string;
  ps_DirNeedsCleaning : bool;
  ps_Path : string;
  ps_ready : bool;
  (** The processes whose end is stored in this state. *)
  ps_waiters : list Pid;
  (** [exited], as [Start] sets it itself. *)
  ps_failed : bool;
}.
Implicit Types s : State.

(** A state as the servers make it. *)
Definition new_State (dir path : string) (startTimeout stopTimeout : Z) : State :=
  mkState None (mkURL "" "" "") 0 [] stopTimeout startTimeout dir false path false [] false.

Definition set_path_dir (path dir : string) (clean : bool) (startTimeout stopTimeout : Z) s : State :=
  mkState (ps_Cmd s) (ps_HealthCheck s) (ps_PollInterval s) (ps_Args s) stopTimeout startTimeout dir clean path
    (ps_ready s) (ps_waiters s) (ps_failed s).
Definition set_args (args : list string) s : State :=
  mkState (ps_Cmd s) (ps_HealthCheck s) (ps_PollInterval s) args (ps_StopTimeout s) (ps_StartTimeout s) (ps_Dir s)
    (ps_DirNeedsCleaning s) (ps_Path s) (ps_ready s) (ps_waiters s) (ps_failed s).
Definition set_health (url : URL) s : State :=
  mkState (ps_Cmd s) url (ps_PollInterval s) (ps_Args s) (ps_StopTimeout s) (ps_StartTimeout s) (ps_Dir s)
    (ps_DirNeedsCleaning s) (ps_Path s) (ps_ready s) (ps_waiters s) (ps_failed s).
Definition set_cmd (cmd : option (option Pid)) (waiters : list Pid) (failed : bool) s : State :=
  mkState cmd (ps_HealthCheck s) (ps_PollInterval s) (ps_Args s) (ps_StopTimeout s) (ps_StartTimeout s) (ps_Dir s)
    (ps_DirNeedsCleaning s) (ps_Path s) (ps_ready s) waiters failed.
Definition set_ready (ready : bool) s : State :=
  mkState (ps_Cmd s) (ps_HealthCheck s) (ps_PollInterval s) (ps_Args s) (ps_StopTimeout s) (ps_StartTimeout s)
    (ps_Dir s) (ps_DirNeedsCleaning s) (ps_Path s) ready (ps_waiters s) (ps_failed s).

Definition default_timeout : Z := 20000000000.

Definition Init (name : string) s w : State * W * option error :=
  if decide (ps_Path s = "" ∧ name = "") then (s, w, Some (ErrorString "must have at least one of name or path"))
  else
    let path := if decide (ps_Path s = "") then BinPathFinder (λ v, LookupEnv v w) name "" else ps_Path s in
    let st := if decide (ps_StartTimeout s = 0%Z) then default_timeout else ps_StartTimeout s in
    let et := if decide (ps_StopTimeout s = 0%Z) then default_timeout else ps_StopTimeout s in
    if decide (ps_Dir s = "") then
      match TempDir "k8s_test_framework_" w with
      | (w, Err err) =>
          (set_path_dir path (ps_Dir s) (ps_DirNeedsCleaning s) (ps_StartTimeout s) (ps_StopTimeout s) s, w, Some err)
      | (w, Ok newDir) => (set_path_dir path newDir true st et s, w, None)
      end
    else (set_path_dir path (ps_Dir s) (ps_DirNeedsCleaning s) st et s, w, None).

Definition flag_pattern (flag : string) : string := "(?m)^\s*--" +:+ flag +:+ "\b".

Definition CheckFlag (flag : string) s w : W * result bool :=
  match CombinedOutput (ps_Path s) ["--help"] w with
  | (w, Err err) =>
      (w, Err (ErrorWrap ("unable to run command " +:+ quoted (ps_Path s) +:+ " to check for flag " +:+ quoted flag) err))
  | (w, Ok outContents) =>
      match regexp_Match (flag_pattern flag) outContents with
      | Err err =>
          (w, Err (ErrorWrap ("unable to check command " +:+ quoted (ps_Path s) +:+ " for flag " +:+ quoted flag
                              +:+ " in help output") err))
      | Ok matched => (w, Ok matched)
      end
  end.

Definition default_poll_interval : Z := 100000000.

(** Whether the poller reported the process ready before it stopped; [None] when
    the fuel runs out. *)
Fixpoint pollURLUntilOK_loop (fuel : nat) (url : URL) (interval : Z) w : option (W * bool) :=
  match fuel with
  | 0 => None
  | S fuel =>
      let '(w, res) := http_Get url w in
      if (match res with Ok status => (status =? 200)%Z | Err _ => false end) then Some (w, true)
      else if stop_closed w then Some (w, false)
      else pollURLUntilOK_loop fuel url interval (Sleep interval w)
  end.

Definition pollURLUntilOK (fuel : nat) (url : URL) (interval : Z) w : option (W * bool) :=
  pollURLUntilOK_loop fuel url (if decide (interval <= 0)%Z then default_poll_interval else interval) w.

(** What the poller does, step by step; it need not end, and enough fuel is what
    its steps take. *)
Inductive polled (url : URL) (interval : Z) : W → W → bool → Prop :=
  | polled_ready w w' : http_Get url w = (w', Ok 200%Z) → polled url interval w w' true
  | polled_stopped w w' r :
      http_Get url w = (w', r) → r ≠ Ok 200%Z → stop_closed w' = true → polled url interval w w' false
  | polled_again w w1 r w' b :
      http_Get url w = (w1, r) → r ≠ Ok 200%Z → stop_closed w1 = false → polled url interval (Sleep interval w1) w' b →
      polled url interval w w' b.

Lemma pollURLUntilOK_loop_polled url interval w w' b :
  (∃ fuel, pollURLUntilOK_loop fuel url interval w = Some (w', b)) ↔ polled url interval w w' b.
Proof.
  set (ok r := match r with Ok status => (status =? 200)%Z | Err _ => false end).
  assert (Hok : ∀ r, ok r = true ↔ r = Ok 200%Z).
  { intros [z|]; [|done]. cbn. rewrite Z.eqb_eq. split; [by intros ->|by intros [= ->]]. }
  assert (Hno : ∀ r, r ≠ Ok 200%Z → ok r = false) by (intros r Hr; apply not_true_iff_false; by rewrite Hok).
  split.
  - intros [fuel Hf]. revert w Hf. induction fuel as [|fuel IH]; intros w; cbn; [done|].
    destruct (http_Get url w) as [w1 r] eqn:Hg. fold (ok r). destruct (ok r) eqn:Hr.
    + intros [= <- <-]. apply Hok in Hr as ->. by constructor.
    + assert (r ≠ Ok 200%Z) by (rewrite <- Hok; congruence).
      destruct (stop_closed w1) eqn:Hs; [intros [= <- <-]; by econstructor|]. intros ?%IH. by econstructor.
  - induction 1 as [w w' Hg|w w' r Hg Hr Hs|w w1 r w' b Hg Hr Hs _ [fuel IH]].
    + exists 1. cbn. by rewrite Hg.
    + exists 1. cbn. rewrite Hg. fold (ok r). by rewrite (Hno r Hr), Hs.
    + exists (S fuel). cbn. rewrite Hg. fold (ok r). by rewrite (Hno r Hr), Hs.
Qed.

Definition err_not_started (s : State) : error :=
  ErrorString ("timeout waiting for process " +:+ filepath_Base (ps_Path s) +:+ " to start successfully "
               +:+ "(it may have failed to start, or stopped unexpectedly before becoming ready)").
Definition err_start_timeout (s : State) : error :=
  ErrorString ("timeout waiting for process " +:+ filepath_Base (ps_Path s) +:+ " to start").

Definition Start s w : State * W * option error :=
  if ps_ready s then (s, w, None)
  else
    let w := go_poll (ps_HealthCheck s) (ps_PollInterval s) w in
    match cmd_Start (ps_Path s) (ps_Args s) w with
    | (w, Err err) => (set_cmd (Some None) (ps_waiters s) true s, w, Some err)
    | (w, Ok p) =>
        let s := set_cmd (Some (Some p)) (ps_waiters s ++ [p]) (ps_failed s) s in
        match select_start p (ps_StartTimeout s) w with
        | (w, Ready) => (set_ready true s, w, None)
        | (w, WaitDone) => (s, close_poller w, Some (err_not_started s))
        | (w, TimedOut) =>
            let '(w, _) := Signal_TERM p (close_poller w) in (s, w, Some (err_start_timeout s))
        end
    end.

(** The exits that are stored in a state. *)
Definition stored s w : list (Pid * option error) := filter (λ e, e.1 ∈ ps_waiters s) (exits w).

Definition Exited s w : bool * option error :=
  match stored s w with
  | (_, err) :: _ => (true, err)
  | [] => (ps_failed s, None)
  end.

Definition Stop s w : outcome (State * W * option error) :=
  match ps_Cmd s with
  | None => Returned (s, w, None)
  | Some cmd =>
      if (Exited s w).1 then Returned (s, w, None)
      else
        match cmd with
        | None => Panicked "invalid memory address or nil pointer dereference"
        | Some p =>
            match Signal_TERM p w with
            | (w, Some err) =>
                Returned (s, w, Some (ErrorWrap ("unable to signal for process " +:+ ps_Path s +:+ " to stop") err))
            | (w, None) =>
                match select_stop p (ps_StopTimeout s) w with
                | (w, false) =>
                    Returned (s, w,
                      Some (ErrorString ("timeout waiting for process " +:+ filepath_Base (ps_Path s) +:+ " to stop")))
                | (w, true) =>
                    let s := set_ready false s in
                    if ps_DirNeedsCleaning s then let '(w, err) := RemoveAll (ps_Dir s) w in Returned (s, w, err)
                    else Returned (s, w, None)
                end
            end
        end
  end.

(** ** Facts *)

(** An operating system: [alive] are the processes that run, [seen] those that
    ever did.  Processes are told apart for good; they end at any time, and only
    a start adds one. *)
Class ProcessLaws := {
  alive : W → Pid → Prop;
  seen : W → Pid → Prop;
  shrinks w w' := (∀ p, alive w' p → alive w p) ∧ (∀ e, e ∈ exits w → e ∈ exits w') ∧ (∀ p, seen w p → seen w' p);
  alive_seen w p : alive w p → seen w p;
  exit_not_alive w p err : (p, err) ∈ exits w → ¬ alive w p;
  TempDir_shrinks prefix w : shrinks w (TempDir prefix w).1;
  RemoveAll_shrinks dir w : shrinks w (RemoveAll dir w).1;
  CombinedOutput_shrinks path args w : shrinks w (CombinedOutput path args w).1;
  go_poll_shrinks url i w : shrinks w (go_poll url i w);
  close_poller_shrinks w : shrinks w (close_poller w);
  cmd_Start_law path args w :
    match cmd_Start path args w with
    | (w', Err _) => shrinks w w'
    | (w', Ok p) => ¬ seen w p ∧ seen w' p ∧ (∀ e, e ∈ exits w → e ∈ exits w') ∧ (∀ q, seen w q → seen w' q)
                    ∧ ∀ q, alive w' q → q = p ∨ alive w q
    end;
  select_start_law p t w :
    shrinks w (select_start p t w).1
    ∧ ((select_start p t w).2 = WaitDone → ∃ err, (p, err) ∈ exits (select_start p t w).1);
  Signal_shrinks p w : shrinks w (Signal_TERM p w).1;
  select_stop_law p t w :
    shrinks w (select_stop p t w).1
    ∧ ((select_stop p t w).2 = true → ∃ err, (p, err) ∈ exits (select_stop p t w).1);
}.
Context `{!ProcessLaws}.

#[export] Instance shrinks_preorder : PreOrder shrinks.
Proof.
  split; [intros w; by repeat split|]. intros w1 w2 w3 (H1 & H2 & H3) (H4 & H5 & H6). split; [|split]; eauto.
Qed.

(** A state from which one process was started at most, and whose exit it is
    that is stored in it. *)
Definition once s : Prop :=
  match ps_Cmd s with
  | None => ps_waiters s = [] ∧ ps_failed s = false
  | Some None => ps_waiters s = [] ∧ ps_failed s = true
  | Some (Some p) => ps_waiters s = [p] ∧ ps_failed s = false
  end.

Lemma stored_elem s w p err : p ∈ ps_waiters s → (p, err) ∈ exits w → (Exited s w).1 = true.
Proof.
  intros Hp He. unfold Exited. assert (Hin : (p, err) ∈ stored s w) by by apply list_elem_of_filter.
  destruct (stored s w) as [|[]]; [by apply not_elem_of_nil in Hin|done].
Qed.

Lemma Exited_stored s w : ps_failed s = false → (Exited s w).1 = true →
  ∃ p err, p ∈ ps_waiters s ∧ (p, err) ∈ exits w.
Proof.
  intros Hf. unfold Exited. destruct (stored s w) as [|[p err] l] eqn:Hs; cbn; [congruence|]. intros _.
  exists p, err. assert (Hin : (p, err) ∈ stored s w) by (rewrite Hs; apply list_elem_of_here).
  by apply list_elem_of_filter in Hin.
Qed.

(** What one [Start] of a fresh state can lead to: nothing is started but the
    process of the state, which is a new one. *)
Lemma Start_once s w s' w' err :
  once s → ps_Cmd s = None → ps_ready s = false → Start s w = (s', w', err) →
  once s' ∧ ps_Cmd s' ≠ None
  ∧ (∀ q, alive w' q → alive w q ∨ ps_Cmd s' = Some (Some q))
  ∧ (∀ q, ps_Cmd s' = Some (Some q) → ¬ seen w q ∧ seen w' q)
  ∧ (∀ q, seen w q → seen w' q)
  ∧ (err = None ↔ ps_ready s' = true)
  ∧ ps_Dir s' = ps_Dir s ∧ ps_DirNeedsCleaning s' = ps_DirNeedsCleaning s.
Proof.
  unfold once, Start. intros Hs Hcmd Hr. rewrite Hcmd in Hs. destruct Hs as [Hw Hf]. rewrite Hr. intros Hst.
  pose proof (go_poll_shrinks (ps_HealthCheck s) (ps_PollInterval s) w) as (Hg & _ & Hgs).
  set (w1 := go_poll _ _ w) in *. pose proof (cmd_Start_law (ps_Path s) (ps_Args s) w1) as Hc.
  destruct (cmd_Start (ps_Path s) (ps_Args s) w1) as [w2 [p|e]].
  2:{ destruct Hc as (Hc & _ & Hcs). injection Hst as <- <- <-. cbn. rewrite Hw, Hr. split_and!; try done; [|by auto].
      intros q Hq%Hc. left. by apply Hg. }
  destruct Hc as (Hnew & Hp & _ & Hs & Hal). rewrite Hw, Hf in Hst. cbn [app] in Hst.
  pose proof (select_start_law p (ps_StartTimeout (set_cmd (Some (Some p)) [p] false s)) w2) as [Hsel _].
  assert (Hbase : ∀ w3, shrinks w2 w3 → (∀ q, alive w3 q → alive w q ∨ q = p) ∧ (∀ q, seen w q → seen w3 q)).
  { intros w3 (Hsh & _ & Hse). split; [intros q [->|?]%Hsh%Hal; [by right|left; by apply Hg]|auto]. }
  assert (Hdone : ∀ w3 ready, shrinks w2 w3 →
    let s1 := set_ready ready (set_cmd (Some (Some p)) [p] false s) in
    once s1 ∧ ps_Cmd s1 ≠ None ∧ (∀ q, alive w3 q → alive w q ∨ ps_Cmd s1 = Some (Some q))
    ∧ (∀ q, ps_Cmd s1 = Some (Some q) → ¬ seen w q ∧ seen w3 q) ∧ (∀ q, seen w q → seen w3 q)).
  { intros w3 ready Hsh. destruct (Hbase w3 Hsh) as [Ha Hse]. cbn. split_and!; try done.
    - intros q [?| ->]%Ha; [by left|by right].
    - intros q [= <-]. split; [intros Hq; by apply Hnew, Hgs|by apply Hsh]. }
  destruct (select_start _ _ w2) as [w3 []]; cbn in Hsel.
  - injection Hst as <- <- <-. destruct (Hdone w3 true Hsel) as (? & ? & ? & ? & ?). by split_and!.
  - injection Hst as <- <- <-. destruct (Hdone (close_poller w3) false) as (? & ? & ? & ? & ?).
    { transitivity w3; [done|apply close_poller_shrinks]. }
    cbn in *. rewrite Hr. by split_and!.
  - pose proof (Signal_shrinks p (close_poller w3)) as Hsig.
    destruct (Signal_TERM p (close_poller w3)) as [w4 e4]. cbn in Hsig. injection Hst as <- <- <-.
    destruct (Hdone w4 false) as (? & ? & ? & ? & ?).
    { transitivity w3; [done|]. transitivity (close_poller w3); [apply close_poller_shrinks|done]. }
    cbn in *. rewrite Hr. by split_and!.
Qed.

(** Stopping a state from which one process was started at most: without an
    error, the process has ended. *)
Lemma Stop_once s w : once s →
  ∃ s' w' err, Stop s w = Returned (s', w', err) ∧ once s' ∧ ps_Cmd s' = ps_Cmd s ∧ shrinks w w'
    ∧ (err = None → ∀ p, ps_Cmd s = Some (Some p) → ¬ alive w' p).
Proof.
  intros Hs. unfold Stop. destruct (ps_Cmd s) as [cmd|] eqn:Hcmd.
  2:{ exists s, w, None. by repeat split. }
  destruct (Exited s w).1 eqn:Hex.
  { exists s, w, None. split_and!; try done. intros _ p [= ->]. unfold once in Hs. rewrite Hcmd in Hs.
    destruct Hs as [Hw Hf]. apply Exited_stored in Hex as (q & err & Hq & He); [|done].
    rewrite Hw in Hq. apply list_elem_of_singleton in Hq as ->. by eapply exit_not_alive. }
  destruct cmd as [p|].
  2:{ unfold once in Hs. rewrite Hcmd in Hs. destruct Hs as [Hw Hf]. unfold Exited in Hex.
      destruct (stored s w) as [|[]]; cbn in Hex; congruence. }
  pose proof (Signal_shrinks p w) as H1. destruct (Signal_TERM p w) as [w1 [e|]]; cbn in H1.
  { do 3 eexists. by split_and!. }
  pose proof (select_stop_law p (ps_StopTimeout s) w1) as [H2 H3].
  destruct (select_stop p (ps_StopTimeout s) w1) as [w2 []]; cbn in H2, H3.
  2:{ do 3 eexists. split_and!; try done. by transitivity w1. }
  destruct (H3 eq_refl) as [e He].
  assert (Honce : once (set_ready false s)) by (unfold once in *; cbn in *; by rewrite Hcmd in *).
  destruct (ps_DirNeedsCleaning (set_ready false s)).
  - pose proof (RemoveAll_shrinks (ps_Dir (set_ready false s)) w2) as H4.
    destruct (RemoveAll _ w2) as [w3 err]. cbn in H4. do 3 eexists. split_and!; [done|done|done|by repeat (etransitivity; [eassumption|])|].
    intros _ q [= <-]. intros Hq%(proj1 H4). by eapply exit_not_alive.
  - do 3 eexists. split_and!; [done|done|done|by transitivity w1|]. intros _ q [= <-]. by eapply exit_not_alive.
Qed.

(** A process that is started from a state in which an earlier one has
    failed to start, or has ended before it was ready, is never stopped: the
    state still says that its process has exited, so [Stop] returns without an
    error, leaves everything as it is, and the process runs on; the state stays
    ready, and starting it again does nothing. *)
Theorem restarted_process_not_stopped s w s1 w1 s2 w2 w3 err :
  ps_ready s = false → Start s w = (s1, w1, Some err) →
  ps_Cmd s1 = Some None ∨ (∃ p e, ps_Cmd s1 = Some (Some p) ∧ (p, e) ∈ exits w1) →
  Start s1 w1 = (s2, w2, None) → shrinks w2 w3 →
  ∃ p, ps_Cmd s2 = Some (Some p) ∧ Stop s2 w3 = Returned (s2, w3, None) ∧ Start s2 w3 = (s2, w3, None).
Proof.
  intros Hr H1 Hend H2 (_ & Hsh & _).
  assert (Hr1 : ps_ready s1 = false).
  { unfold Start in H1. rewrite Hr in H1. repeat (case_match; simplify_eq/=); done. }
  unfold Start in H2. rewrite Hr1 in H2. pose proof (go_poll_shrinks (ps_HealthCheck s1) (ps_PollInterval s1) w1) as (_ & Hg & _).
  set (w1' := go_poll _ _ w1) in *. pose proof (cmd_Start_law (ps_Path s1) (ps_Args s1) w1') as Hc.
  destruct (cmd_Start _ _ w1') as [w4 [p|]]; [|done]. destruct Hc as (_ & _ & Hc & _).
  set (s1' := set_cmd _ _ _ s1) in *. pose proof (select_start_law p (ps_StartTimeout s1') w4) as [(_ & Hs & _) _].
  destruct (select_start p (ps_StartTimeout s1') w4) as [w5 []]; [|done|by destruct (Signal_TERM _ _)].
  injection H2 as <- <-. exists p. split; [done|]. cbn in Hs.
  assert (Hex : (Exited (set_ready true s1') w3).1 = true).
  { destruct Hend as [Hnone|(q & e & Hq & He)].
    - unfold Exited. destruct (stored _ w3) as [|[]]; [|done]. cbn.
      unfold Start in H1. rewrite Hr in H1. repeat (case_match; simplify_eq/=); done.
    - apply (stored_elem _ _ q e); [|eauto]. cbn. apply elem_of_app. left.
      unfold Start in H1. rewrite Hr in H1. repeat (case_match; simplify_eq/=); set_solver. }
  split; [unfold Stop; cbn [ps_Cmd set_ready s1' set_cmd]; by rewrite Hex|done].
Qed.

End process.
Arguments State : clear implicits.

(** The name of the variable for a binary: letters, digits and underscores after
    the prefix, and not a digit first. *)
Fixpoint all_chars (P : ascii → bool) (s : string) : bool :=
  match s with EmptyString => true | String a s => P a && all_chars P s end.

Lemma replace_runs_chars keep repl b s :
  all_chars (λ a, keep a || bool_decide (a = repl)) (replace_runs keep repl b s) = true.
Proof.
  revert b. induction s as [|a s IH]; intros b; [done|]. cbn. destruct (keep a) eqn:Ha; cbn; [by rewrite Ha, IH|].
  destruct b; cbn; [apply IH|]. by rewrite bool_decide_true, orb_true_r, IH.
Qed.

Lemma drop_while_chars P drop s : all_chars P s = true → all_chars P (drop_while drop s) = true.
Proof. induction s as [|a s IH]; [done|]. cbn. intros [Ha Hs]%andb_true_iff. destruct (drop a); [auto|]. cbn. by rewrite Ha, Hs. Qed.

Lemma asset_variable_wf symbolicName :
  ∃ name, asset_variable symbolicName = EnvAssetOverridePrefix +:+ name
    ∧ all_chars (λ a, upper_or_digit a || bool_decide (a = "_"%char)) name = true
    ∧ match name with String a _ => is_digit a = false | EmptyString => True end.
Proof.
  eexists. split; [reflexivity|]. split; [apply drop_while_chars, replace_runs_chars|].
  induction (replace_runs _ _ _ _) as [|a s IH]; cbn; [done|]. by destruct (is_digit a) eqn:Ha.
Qed.

(** ** A system to evaluate on: processes are numbers, which end when they are
    told to; a script says how starts go *)

Module Sample.
Record Machine := mkMachine {
  m_alive : list nat;
  m_exits : list (nat * option error);
  m_script : list (option StartEvent);
  m_dirs : list string;
}.

Definition ended (p : nat) (m : Machine) : Machine :=
  mkMachine (filter (λ q, q ≠ p) (m_alive m)) ((p, None) :: m_exits m) (m_script m) (m_dirs m).
Definition set_script (script : list (option StartEvent)) (m : Machine) : Machine :=
  mkMachine (m_alive m) (m_exits m) script (m_dirs m).
Definition set_dirs (dirs : list string) (m : Machine) : Machine :=
  mkMachine (m_alive m) (m_exits m) (m_script m) dirs.

Definition fresh_pid (m : Machine) : nat := S (foldr max 0 (m_alive m ++ (m_exits m).*1)).

(** [None] in the script is a start that fails at once. *)
Definition machine_start (m : Machine) : Machine * result nat :=
  match m_script m with
  | None :: script => (set_script script m, Err (ErrorString "no such file"))
  | _ => (mkMachine (fresh_pid m :: m_alive m) (m_exits m) (m_script m) (m_dirs m), Ok (fresh_pid m))
  end.

Definition machine_select (p : nat) (m : Machine) : Machine * StartEvent :=
  match m_script m with
  | Some WaitDone :: script => (ended p (set_script script m), WaitDone)
  | Some e :: script => (set_script script m, e)
  | _ => (m, Ready)
  end.

Definition new_dir (prefix : string) (m : Machine) : string := prefix +:+ Itoa (Z.of_nat (length (m_dirs m))).

#[export] Instance machine_env : Environ (W := Machine) := λ _ _, None.
#[export] Instance machine_os : ProcessOS (W := Machine) (Pid := nat) := {|
  TempDir prefix m := (set_dirs (new_dir prefix m :: m_dirs m) m, Ok (new_dir prefix m));
  RemoveAll dir m := (set_dirs (filter (λ d, d ≠ dir) (m_dirs m)) m, None);
  CombinedOutput path args m := (m, Ok "--insecure-port");
  regexp_Match pat s := Ok true;
  http_Get url m := (m, Ok 200%Z);
  stop_closed m := false;
  Sleep _ m := m;
  go_poll _ _ m := m;
  close_poller m := m;
  cmd_Start _ _ m := machine_start m;
  select_start p _ m := machine_select p m;
  Signal_TERM p m := (m, None);
  select_stop p _ m := (ended p m, true);
  exits := m_exits;
|}.

Definition running (m : Machine) (p : nat) : Prop := p ∈ m_alive m ∧ p ∉ (m_exits m).*1.

Lemma le_max (p : nat) (l : list nat) : p ∈ l → (p ≤ foldr max 0 l)%nat.
Proof. induction 1; cbn; lia. Qed.

Lemma fresh_not_there m p : p ∈ m_alive m ∨ p ∈ (m_exits m).*1 → p ≠ fresh_pid m.
Proof. intros Hp%elem_of_app%le_max. unfold fresh_pid. lia. Qed.

Lemma running_ended p q m : running (ended p m) q → running m q.
Proof.
  unfold running. cbn. intros [Hq Hex]. apply list_elem_of_filter in Hq as [_ Hq]. split; [done|].
  intros ?. apply Hex. by right.
Qed.

Lemma ended_shrinks p m :
  (∀ q, running (ended p m) q → running m q) ∧ (∀ e, e ∈ m_exits m → e ∈ m_exits (ended p m))
  ∧ (∀ q, q ∈ m_alive m ∨ q ∈ (m_exits m).*1 → q ∈ m_alive (ended p m) ∨ q ∈ (m_exits (ended p m)).*1).
Proof.
  split_and!; [intros q; apply running_ended|intros e He; by right|]. intros q Hq. cbn.
  destruct (decide (q = p)) as [->|Hne]; [right; left|]. destruct Hq as [Hq|Hq]; [left|right; by right].
  by apply list_elem_of_filter.
Qed.

#[export] Instance machine_laws : ProcessLaws (W := Machine) (Pid := nat).
Proof.
  refine {| alive := running; seen m p := p ∈ m_alive m ∨ p ∈ (m_exits m).*1 |}; try (intros; by split_and!).
  - intros m p [? _]. by left.
  - intros m p err Hin [_ Hno]. apply Hno. apply list_elem_of_fmap. by exists (p, err).
  - intros path args m. cbn. unfold machine_start.
    assert (Hok : ¬ (fresh_pid m ∈ m_alive m ∨ fresh_pid m ∈ (m_exits m).*1)) by (intros ?%fresh_not_there; done).
    destruct (m_script m) as [|[e|] script]; [| |by split_and!].
    + split_and!; [done|left; left|done|intros q []; [left; by right|by right]|].
      intros q [[->|Hq]%elem_of_cons Hno]; [by left|right; by split].
    + split_and!; [done|left; left|done|intros q []; [left; by right|by right]|].
      intros q [[->|Hq]%elem_of_cons Hno]; [by left|right; by split].
  - intros p t m. cbn. unfold machine_select. destruct (m_script m) as [|[[]|] script]; try by (split; [split_and!|]).
    split; [|intros _; exists None; apply list_elem_of_here]. apply (ended_shrinks p (set_script script m)).
  - intros p t m. cbn. split; [|intros _; exists None; apply list_elem_of_here]. apply ended_shrinks.
Defined.

Definition machine (script : list (option StartEvent)) : Machine := mkMachine [] [] script [].
Definition idle : State nat := new_State "dir" "etcd" 0 0.

(** The first process ends before it is ready, the second runs on. *)
Lemma restarted_process_not_stopped_witness :
  let r1 := Start idle (machine [Some WaitDone; Some Ready]) in
  let r2 := Start r1.1.1 r1.1.2 in
  running r2.1.2 2 ∧ ∃ p, ps_Cmd r2.1.1 = Some (Some p) ∧ Stop r2.1.1 r2.1.2 = Returned (r2.1.1, r2.1.2, None)
    ∧ Start r2.1.1 r2.1.2 = (r2.1.1, r2.1.2, None).
Proof.
  set (r1 := Start idle (machine [Some WaitDone; Some Ready])). set (r2 := Start r1.1.1 r1.1.2). cbn zeta. split.
  { split; [left|]. intros Hin. vm_compute in Hin. apply list_elem_of_singleton in Hin. discriminate. }
  apply (restarted_process_not_stopped idle (machine [Some WaitDone; Some Ready]) r1.1.1 r1.1.2 r2.1.1 r2.1.2 r2.1.2
    (err_not_started idle)).
  - reflexivity.
  - vm_compute. reflexivity.
  - right. exists 1, None. split; [reflexivity|]. left.
  - vm_compute. reflexivity.
  - by split.
Defined.
End Sample.
