(* ===== verification/TinyCA.v ===== *)
(** * The certificate authority of a test environment (src/pkg/internal/testing/certs/tinyca.go)

    Keys, signing and encoding, IP addresses and the resolver are those of a
    class; the templates of certificates, their serial numbers and names are
    the code's. *)

From stdpp Require Import sorting.
From S2P Require Export Prelude.

Inductive KeyUsage := KeyEncipherment | DigitalSignature.
Inductive ExtKeyUsage := ServerAuth | ClientAuth.

Section tinyca.
(** [DER] are the encoded bytes. *)
Context {W Key PublicKey Cert IP DER : Type}.
Implicit Types (w : W).

(** [x509.Certificate], what is set of it in a template. *)
Record Template := mkTemplate {
  t_CommonName : string;
  t_Organization : list string;
  t_DNSNames : list string;
  t_IPAddresses : list IP;
  t_SerialNumber : Z;
  t_KeyUsage : list KeyUsage;
  t_ExtKeyUsage : list ExtKeyUsage;
  t_NotBefore : Z;
  t_NotAfter : Z;
}.

(** [certutil.Config]. *)
Record Config := mkConfig {
  cf_CommonName : string;
  cf_Organization : list string;
  cf_DNSNames : list string;
  cf_IPs : list IP;
  cf_Usages : list ExtKeyUsage;
}.

Class CertLib := {
  (** [rsa.GenerateKey] with a size. *)
  GenerateKey : Z → W → W * result Key;
  Public : Key → PublicKey;
  NewSelfSignedCACert : Config → Key → W → W * result Cert;
  (** [x509.CreateCertificate]: the template, the parent, the public key of the
      certificate and the parent's key. *)
  CreateCertificate : Template → Cert → PublicKey → Key → W → W * result DER;
  ParseCertificate : DER → result Cert;
  Raw : Cert → DER;
  EncodeToMemory : string → DER → string;
  MarshalPKCS8PrivateKey : Key → result DER;
  ParseIP : string → option IP;
  LookupHost : string → W → W * result (list string);
  time_Now : W → W * Z;
}.
Context `{!CertLib}.

Record CertPair := mkPair { cp_Key : Key; cp_Cert : Cert }.

Definition CertBytes (k : CertPair) : string := EncodeToMemory "CERTIFICATE" (Raw (cp_Cert k)).

Definition AsBytes (k : CertPair) : result (string * string) :=
  match MarshalPKCS8PrivateKey (cp_Key k) with
  | Err err => Err (ErrorString ("unable to encode private key: " +:+ error_text err))
  | Ok rawKeyData => Ok (CertBytes k, EncodeToMemory "PRIVATE KEY" rawKeyData)
  end.

Record TinyCA := mkCA { ca_CA : CertPair; ca_orgName : string; ca_nextSerial : Z }.

Definition rsaKeySize : Z := 2048.
Definition newPrivateKey w : W * result Key := GenerateKey rsaKeySize w.

Definition NewTinyCA w : W * result TinyCA :=
  match newPrivateKey w with
  | (w, Err err) => (w, Err (ErrorString ("unable to generate private key for CA: " +:+ error_text err)))
  | (w, Ok caPrivateKey) =>
      match NewSelfSignedCACert (mkConfig "envtest-environment" ["envtest"] [] [] []) caPrivateKey w with
      | (w, Err err) => (w, Err (ErrorString ("unable to generate certificate for CA: " +:+ error_text err)))
      | (w, Ok caCert) => (w, Ok (mkCA (mkPair caPrivateKey caCert) "envtest" 1))
      end
  end.

Definition hour : Z := 3600000000000.

(** The template for a configuration, with a serial number and the time. *)
Definition template (cfg : Config) (serial now : Z) : Template :=
  mkTemplate (cf_CommonName cfg) (cf_Organization cfg) (cf_DNSNames cfg) (cf_IPs cfg) serial
    [KeyEncipherment; DigitalSignature] (cf_Usages cfg) now (now + 168 * hour).

(** A serial number is used up as soon as there is a key. *)
Definition makeCert (c : TinyCA) (cfg : Config) w : TinyCA * W * result CertPair :=
  let '(w, now) := time_Now w in
  match newPrivateKey w with
  | (w, Err err) => (c, w, Err (ErrorString ("unable to create private key: " +:+ error_text err)))
  | (w, Ok key) =>
      let serial := ca_nextSerial c in
      let c := mkCA (ca_CA c) (ca_orgName c) (ca_nextSerial c + 1) in
      match CreateCertificate (template cfg serial now) (cp_Cert (ca_CA c)) (Public key) (cp_Key (ca_CA c)) w with
      | (w, Err err) => (c, w, Err (ErrorString ("unable to create certificate: " +:+ error_text err)))
      | (w, Ok certRaw) =>
          match ParseCertificate certRaw with
          | Err err => (c, w, Err (ErrorString ("generated invalid certificate, could not parse: " +:+ error_text err)))
          | Ok cert => (c, w, Ok (mkPair key cert))
          end
      end
  end.

Fixpoint resolveNames (names : list string) w : W * result (list string * list IP) :=
  match names with
  | [] => (w, Ok ([], []))
  | name :: names =>
      if decide (name = "") then resolveNames names w
      else
        match ParseIP name with
        | Some ip =>
            let '(w, r) := resolveNames names w in
            (w, '(dnsNames, ips) ← r; Ok (dnsNames, ip :: ips))
        | None =>
            match LookupHost name w with
            | (w, Err err) => (w, Err err)
            | (w, Ok nameIPs) =>
                let '(w, r) := resolveNames names w in
                (w, '(dnsNames, ips) ← r; Ok (name :: dnsNames, omap ParseIP nameIPs ++ ips))
            end
        end
  end.

Definition NewServingCert (c : TinyCA) (names : list string) w : TinyCA * W * result CertPair :=
  let names := match names with [] => ["localhost"] | _ => names end in
  match resolveNames names w with
  | (w, Err err) => (c, w, Err err)
  | (w, Ok (dnsNames, ips)) => makeCert c (mkConfig "localhost" [ca_orgName c] dnsNames ips [ServerAuth]) w
  end.

Record ClientInfo := mkClientInfo { cl_Name : string; cl_Groups : list string }.

Definition NewClientCert (c : TinyCA) (user : ClientInfo) w : TinyCA * W * result CertPair :=
  makeCert c (mkConfig (cl_Name user) (cl_Groups user) [] [] [ClientAuth]) w.

(** ** Facts *)

(** A request to an authority, and the certificates it issues for a sequence of
    them. *)
Inductive Request := Serving (names : list string) | Client (user : ClientInfo).

Definition issue (c : TinyCA) (r : Request) w : TinyCA * W * result CertPair :=
  match r with Serving names => NewServingCert c names w | Client user => NewClientCert c user w end.

Fixpoint issue_all (c : TinyCA) (rs : list Request) w : TinyCA * W * list (Request * CertPair) :=
  match rs with
  | [] => (c, w, [])
  | r :: rs =>
      let '(c, w, res) := issue c r w in
      let '(c, w, issued) := issue_all c rs w in
      (c, w, match res with Ok k => (r, k) :: issued | Err _ => issued end)
  end.

(** Certificates say what their templates say, and who signed them. *)
Class CertLaws := {
  template_of : Cert → Template;
  signed_by : Cert → Key → Prop;
  public_of : Cert → PublicKey;
  CreateCertificate_law t parent pub key w raw w' cert :
    CreateCertificate t parent pub key w = (w', Ok raw) → ParseCertificate raw = Ok cert →
    template_of cert = t ∧ signed_by cert key ∧ public_of cert = pub;
}.
Context `{!CertLaws}.

Definition serial (k : CertPair) : Z := t_SerialNumber (template_of (cp_Cert k)).

(** What a certificate for a request says of its subject. *)
Definition names_asked (names : list string) : list string :=
  filter (λ n, n ≠ "") (match names with [] => ["localhost"] | _ => names end).

Definition describes (r : Request) (t : Template) : Prop :=
  match r with
  | Serving names =>
      t_ExtKeyUsage t = [ServerAuth] ∧ t_CommonName t = "localhost"
      ∧ t_DNSNames t = filter (λ n, ParseIP n = None) (names_asked names)
      ∧ (∀ n ip, n ∈ names_asked names → ParseIP n = Some ip → ip ∈ t_IPAddresses t)
  | Client user =>
      t_ExtKeyUsage t = [ClientAuth] ∧ t_CommonName t = cl_Name user ∧ t_Organization t = cl_Groups user
      ∧ t_DNSNames t = [] ∧ t_IPAddresses t = []
  end.

Lemma resolveNames_spec names w w' dns ips :
  resolveNames names w = (w', Ok (dns, ips)) →
  dns = filter (λ n, ParseIP n = None) (filter (λ n, n ≠ "") names)
  ∧ (∀ n ip, n ∈ filter (λ n, n ≠ "") names → ParseIP n = Some ip → ip ∈ ips).
Proof.
  revert w w' dns ips. induction names as [|n names IH]; intros w w' dns ips.
  { cbn. intros [= _ <- <-]. split; [done|]. by intros n ip ?%not_elem_of_nil. }
  cbn [resolveNames]. rewrite (filter_cons (λ n, n ≠ "")). destruct (decide (n = "")) as [->|Hn].
  { rewrite decide_False by (intros Hne; by apply Hne). apply IH. }
  rewrite decide_True by done. rewrite filter_cons. destruct (ParseIP n) as [ip0|] eqn:Hip.
  - rewrite decide_False by done. destruct (resolveNames names w) as [w1 [[dns1 ips1]|]] eqn:Hr; [|done].
    cbn. intros [= <- <- <-]. apply IH in Hr as [-> Hips]. split; [done|].
    intros n' ip [->|Hin]%elem_of_cons Hp; [|right; by eapply Hips].
    assert (ip0 = ip) as -> by congruence. left.
  - rewrite decide_True by done. destruct (LookupHost n w) as [w1 [nameIPs|]]; [|done].
    destruct (resolveNames names w1) as [w2 [[dns1 ips1]|]] eqn:Hr; [|done].
    cbn. intros [= <- <- <-]. apply IH in Hr as [-> Hips]. split; [done|].
    intros n' ip [->|Hin]%elem_of_cons Hp; [congruence|]. apply elem_of_app. right. by eapply Hips.
Qed.

Lemma makeCert_spec c cfg w c' w' r :
  makeCert c cfg w = (c', w', r) →
  ca_CA c' = ca_CA c ∧ ca_orgName c' = ca_orgName c ∧ (ca_nextSerial c ≤ ca_nextSerial c')%Z
  ∧ match r with
    | Err _ => True
    | Ok k => ∃ now, template_of (cp_Cert k) = template cfg (ca_nextSerial c) now
        ∧ (ca_nextSerial c < ca_nextSerial c')%Z
        ∧ signed_by (cp_Cert k) (cp_Key (ca_CA c)) ∧ public_of (cp_Cert k) = Public (cp_Key k)
    end.
Proof.
  unfold makeCert. destruct (time_Now w) as [w1 now]. destruct (newPrivateKey w1) as [w2 [key|]].
  2:{ intros [= <- <- <-]. split_and!; [done..|lia|done]. }
  cbn [ca_CA]. destruct (CreateCertificate _ _ _ _ w2) as [w3 [raw|]] eqn:Hc.
  2:{ intros [= <- <- <-]. cbn. split_and!; [done..|lia|done]. }
  destruct (ParseCertificate raw) as [cert|] eqn:Hp; intros [= <- <- <-]; cbn; split_and!; try done; try lia.
  exists now. destruct (CreateCertificate_law _ _ _ _ _ _ _ _ Hc Hp) as (Ht & Hs & Hk).
  split_and!; [done|lia|done|done].
Qed.

Lemma issue_spec c r w c' w' res :
  issue c r w = (c', w', res) →
  ca_CA c' = ca_CA c ∧ (ca_nextSerial c ≤ ca_nextSerial c')%Z
  ∧ match res with
    | Err _ => True
    | Ok k => (serial k = ca_nextSerial c ∧ ca_nextSerial c < ca_nextSerial c')%Z
        ∧ describes r (template_of (cp_Cert k))
        ∧ signed_by (cp_Cert k) (cp_Key (ca_CA c)) ∧ public_of (cp_Cert k) = Public (cp_Key k)
    end.
Proof.
  unfold issue. destruct r as [names|user].
  - unfold NewServingCert. destruct (resolveNames _ w) as [w1 [[dns ips]|]] eqn:Hr.
    2:{ intros [= <- <- <-]. split_and!; [done|lia|done]. }
    intros (Hca & _ & Hle & Hres)%makeCert_spec. split_and!; [done..|]. destruct res as [k|]; [|done].
    destruct Hres as (now & Ht & Hlt & Hs & Hk). unfold serial. rewrite Ht. cbn. apply resolveNames_spec in Hr as [-> Hips].
    split_and!; try done.
  - intros (Hca & _ & Hle & Hres)%makeCert_spec. split_and!; [done..|]. destruct res as [k|]; [|done].
    destruct Hres as (now & Ht & Hlt & Hs & Hk). unfold serial. rewrite Ht. cbn. by split_and!.
Qed.

(** Of the certificates an authority issues for any sequence of requests, some
    of which may fail, no two have the same serial number: they increase, from
    the one the authority has next.  Each is signed with the authority's key,
    for the key it comes with, and says what was asked: a client certificate
    the name and groups of the user and no hosts, a serving certificate all
    names that are no addresses and all addresses. *)
Theorem certificates_distinct c rs w c' w' issued :
  issue_all c rs w = (c', w', issued) →
  StronglySorted Z.lt (serial ∘ snd <$> issued)
  ∧ (∀ r k, (r, k) ∈ issued →
       (ca_nextSerial c ≤ serial k < ca_nextSerial c')%Z ∧ describes r (template_of (cp_Cert k))
       ∧ signed_by (cp_Cert k) (cp_Key (ca_CA c)) ∧ public_of (cp_Cert k) = Public (cp_Key k)).
Proof.
  enough (Hall : issue_all c rs w = (c', w', issued) →
    (ca_nextSerial c ≤ ca_nextSerial c')%Z
    ∧ StronglySorted Z.lt (serial ∘ snd <$> issued)
    ∧ (∀ r k, (r, k) ∈ issued →
       (ca_nextSerial c ≤ serial k < ca_nextSerial c')%Z ∧ describes r (template_of (cp_Cert k))
       ∧ signed_by (cp_Cert k) (cp_Key (ca_CA c)) ∧ public_of (cp_Cert k) = Public (cp_Key k))) by tauto.
  revert c w issued. induction rs as [|r rs IH]; intros c w issued; cbn.
  { intros [= -> -> <-]. split_and!; [lia|constructor|]. by intros ? ? ?%not_elem_of_nil. }
  destruct (issue c r w) as [[c1 w1] res] eqn:Hi. apply issue_spec in Hi as (Hca & Hle & Hres).
  destruct (issue_all c1 rs w1) as [[c2 w2] issued1] eqn:Hall. intros [= -> -> <-].
  apply IH in Hall as (Hle1 & Hsort & Hin).
  assert (Hrest : ∀ r k, (r, k) ∈ issued1 →
    (ca_nextSerial c ≤ serial k < ca_nextSerial c')%Z ∧ describes r (template_of (cp_Cert k))
    ∧ signed_by (cp_Cert k) (cp_Key (ca_CA c)) ∧ public_of (cp_Cert k) = Public (cp_Key k)).
  { intros r' k Hk. destruct (Hin r' k Hk) as (Hb & ? & ? & ?). rewrite <- Hca. split_and!; try done; lia. }
  destruct res as [k|]; [|split_and!; [lia|done|done]].
  destruct Hres as ([Hser Hlt] & Hd & Hs & Hp). split_and!; [lia| |].
  - cbn. constructor; [done|]. apply Forall_fmap, Forall_forall. intros [r' k'] Hk'. cbn.
    destruct (Hin r' k' Hk') as [? _]. lia.
  - intros r' k' [[= -> ->]|Hk']%elem_of_cons; [|by apply Hrest]. split_and!; try done; lia.
Qed.
End tinyca.
Arguments Template : clear implicits.
Arguments Config : clear implicits.
Arguments CertPair : clear implicits.
Arguments TinyCA : clear implicits.
Arguments CertLib : clear implicits.

(** ** At a concrete input: keys are numbers, a certificate is its template and
    the keys *)

Module Sample.
(** The template, the key that is certified and the one that signed. *)
Definition SCert : Type := Template string * nat * nat.

#[export] Instance sample_lib : CertLib nat nat nat SCert string SCert := {|
  GenerateKey size w := (S w, if decide (w = 3) then Err (ErrorString "entropy") else Ok w);
  Public key := key;
  NewSelfSignedCACert cfg key w :=
    (w, Ok (mkTemplate (cf_CommonName cfg) (cf_Organization cfg) [] [] 0 [] [] 0 0, key, key));
  CreateCertificate t parent pub key w := (w, Ok (t, pub, key));
  ParseCertificate raw := Ok raw;
  Raw cert := cert;
  EncodeToMemory kind der := kind;
  MarshalPKCS8PrivateKey key := Err (ErrorString "no encoding");
  ParseIP s := if decide (s = "10.0.0.1" ∨ s = "127.0.0.1") then Some s else None;
  LookupHost host w := (w, if decide (host = "web") then Ok ["127.0.0.1"; "?"] else Err (ErrorString "no such host"));
  time_Now w := (w, 5%Z);
|}.

#[export] Instance sample_laws : CertLaws (W := nat) (Key := nat) (PublicKey := nat) (Cert := SCert) (IP := string) (DER := SCert).
Proof.
  refine {| template_of := fst ∘ fst; signed_by cert key := cert.2 = key; public_of cert := cert.1.2 |}.
  by intros t parent pub key w raw w' cert [= <- <-] [= <-].
Defined.

Definition ca : TinyCA nat SCert := mkCA (mkPair 0 (mkTemplate "envtest-environment" ["envtest"] [] [] 0 [] [] 0 0, 0%nat, 0%nat)) "envtest" 1.
Definition requests : list (@Request) :=
  [Serving ["web"; ""; "10.0.0.1"]; Serving ["nowhere"]; Client (mkClientInfo "jane" ["admins"]);
   Client (mkClientInfo "joe" []); Serving ["127.0.0.1"]].

(** One name cannot be resolved, for one request there is no key. *)
Lemma certificates_distinct_witness :
  ∃ c' w' issued, issue_all ca requests 1 = (c', w', issued) ∧ length issued = 3%nat
    ∧ StronglySorted Z.lt (serial ∘ snd <$> issued).
Proof.
  destruct (issue_all ca requests 1) as [[c' w'] issued] eqn:Hall.
  exists c', w', issued. split; [done|]. split.
  - assert (Hlen : length (issue_all ca requests 1).2 = 3%nat) by (vm_compute; reflexivity). by rewrite Hall in Hlen.
  - exact (proj1 (certificates_distinct ca requests 1 c' w' issued Hall)).
Defined.
End Sample.
