(* ===== verification/ControlPlane.v ===== *)
(** * The control plane of a test environment (src/pkg/internal/testing/controlplane)

    The etcd and API server processes (etcd.go, apiserver.go), authentication
    by client certificates (auth.go), kubectl and its configuration
    (kubectl.go) and the control plane made of them (plane.go).  Processes,
    ports and certificates are those of TestProcess, NetAddr and TinyCA over
    one world. *)

From S2P Require Export ClientConfig TestProcess TinyCA Arguments.

Definition nil_deref {A} : outcome A := Panicked "invalid memory address or nil pointer dereference".

(** ** REST configurations and kubeconfig files, as far as they are used *)

Definition set_cert (crt key : string) (c : RestConfig) : RestConfig :=
  mkRest (rc_Host c) (rc_APIPath c) (rc_CAData c) crt key (rc_BearerToken c) (rc_Username c) (rc_Password c)
    (rc_QPS c) (rc_Burst c).
Definition set_server (host ca : string) (c : RestConfig) : RestConfig :=
  mkRest host (rc_APIPath c) ca (rc_CertData c) (rc_KeyData c) (rc_BearerToken c) (rc_Username c) (rc_Password c)
    (rc_QPS c) (rc_Burst c).

Record Cluster := mkCluster { kc_Server : string; kc_CertificateAuthorityData : string }.
Record AuthInfo := mkAuthInfo {
  ai_ClientCertificateData : string;
  ai_ClientKeyData : string;
  ai_Token : string;
  ai_Username : string;
  ai_Password : string;
}.
Record KubeContext := mkKubeContext { kx_Cluster : string; kx_AuthInfo : string }.
Record KubeConfig := mkKubeConfig {
  kf_Clusters : gmap string Cluster;
  kf_AuthInfos : gmap string AuthInfo;
  kf_Contexts : gmap string KubeContext;
  kf_CurrentContext : string;
}.

Record KubeCtl := mkKubeCtl { kubectl_Path : string; kubectl_Opts : list string }.

(** ** Users (auth.go) *)

Record User := mkUser { user_Name : string; user_Groups : list string }.

Section plane.
(** Worlds, processes, listeners; keys and certificates; another authenticator;
    parsed templates. *)
Context {W Pid L Key PublicKey Cert IP DER X Template : Type}.
Context `{!EqDecision Pid} `{!Environ (W := W)} `{!ProcessOS (W := W) (Pid := Pid)} `{!AddrOS (W := W) (L := L)}
  `{!CertLib W Key PublicKey Cert IP DER}.
Implicit Types (w : W).

Abbreviation CA := (TinyCA Key Cert).

Record CertAuthn := mkCertAuthn { cn_ca : CA; cn_certDir : string }.

(** An authenticator: this package's, or one of the user. *)
Inductive Authn := ByCert (c : CertAuthn) | OtherAuthn (x : X).

Class PlaneOS := {
  (** The ports handed out so far, a variable of the package. *)
  ports : W → portCache;
  set_ports : portCache → W → W;
  WriteFile : string → string → W → W * option error;
  Stat : string → W → result ();
  IsNotExist : error → bool;
  (** [os.CreateTemp] with the name of the file; writing to it. *)
  CreateTemp : string → string → W → W * result string;
  WriteTo : string → string → W → W * option error;
  IsConfigTransportTLS : RestConfig → bool;
  url_Parse : string → result URL;
  clientcmd_Write : KubeConfig → result string;
  (** [exec.Command] and [Run] with output and errors kept. *)
  cmd_Run : string → list string → W → W * (string * string * option error);
  NewAggregate : list error → option error;
  template_Parse : string → result Template;
  other_Configure : X → string → Arguments → W → X * Arguments * W * option error;
  other_Start : X → W → X * W * option error;
  other_AddUser : X → User → RestConfig → W → X * W * result RestConfig;
  other_Stop : X → W → X * W * option error;
}.
Context `{!PlaneOS} `{!MapRange Z Z} `{!MapRange string Arg} `{!MapRange string Slice}.

Definition addr_Suggest (host : string) w : W * (Z * string * option error) :=
  let '(c, w, r) := Suggest host (ports w) w in (set_ports c w, r).

Definition NewCertAuthn w : W * result CertAuthn :=
  match NewTinyCA w with
  | (w, Err err) => (w, Err (ErrorWrap "unable to provision client certificate auth CA" err))
  | (w, Ok ca) => (w, Ok (mkCertAuthn ca ""))
  end.

Definition CertAuthn_AddUser (c : CertAuthn) (user : User) (baseCfg : RestConfig) w
    : CertAuthn * W * result RestConfig :=
  let '(ca, w, certs) := NewClientCert (cn_ca c) (mkClientInfo (user_Name user) (user_Groups user)) w in
  let c := mkCertAuthn ca (cn_certDir c) in
  match certs with
  | Err err => (c, w, Err (ErrorWrap ("unable to create client certificates for " +:+ user_Name user) err))
  | Ok certs =>
      match AsBytes certs with
      | Err err => (c, w, Err (ErrorWrap ("unable to serialize client certificates for " +:+ user_Name user) err))
      | Ok (crt, key) => (c, w, Ok (set_cert crt key baseCfg))
      end
  end.

Definition caCrtPath (c : CertAuthn) : string := filepath_Join [cn_certDir c; "client-cert-auth-ca.crt"].

Definition CertAuthn_Configure (c : CertAuthn) (workDir : string) (args : Arguments)
    : CertAuthn * Arguments * option error :=
  let c := mkCertAuthn (cn_ca c) workDir in
  (c, Set_ "client-ca-file" (variadic [caCrtPath c]) args, None).

Definition CertAuthn_Start (c : CertAuthn) w : W * option error :=
  if decide (cn_certDir c = "") then (w, Some (ErrorString "start called before configure"))
  else
    let caCrt := CertBytes (ca_CA (cn_ca c)) in
    let '(w, err) := WriteFile (caCrtPath c) caCrt w in
    (w, ErrorWrap ("unable to save the client certificate CA to " +:+ caCrtPath c) <$> err).

Definition CertAuthn_Stop (c : CertAuthn) w : W * option error := (w, None).

(** Calls of the interface. *)
Definition authn_Configure (a : Authn) (workDir : string) (args : Arguments) w : Authn * Arguments * W * option error :=
  match a with
  | ByCert c => let '(c, args, err) := CertAuthn_Configure c workDir args in (ByCert c, args, w, err)
  | OtherAuthn x => let '(x, args, w, err) := other_Configure x workDir args w in (OtherAuthn x, args, w, err)
  end.
Definition authn_Start (a : Authn) w : Authn * W * option error :=
  match a with
  | ByCert c => let '(w, err) := CertAuthn_Start c w in (ByCert c, w, err)
  | OtherAuthn x => let '(x, w, err) := other_Start x w in (OtherAuthn x, w, err)
  end.
Definition authn_AddUser (a : Authn) (user : User) (baseCfg : RestConfig) w : Authn * W * result RestConfig :=
  match a with
  | ByCert c => let '(c, w, r) := CertAuthn_AddUser c user baseCfg w in (ByCert c, w, r)
  | OtherAuthn x => let '(x, w, r) := other_AddUser x user baseCfg w in (OtherAuthn x, w, r)
  end.
Definition authn_Stop (a : Authn) w : Authn * W * option error :=
  match a with
  | ByCert c => let '(w, err) := CertAuthn_Stop c w in (ByCert c, w, err)
  | OtherAuthn x => let '(x, w, err) := other_Stop x w in (OtherAuthn x, w, err)
  end.

(** ** kubectl (kubectl.go) *)

Definition envtestName : string := "envtest".

Definition KubeConfigFromREST (cfg : RestConfig) : result string :=
  let protocol := if IsConfigTransportTLS cfg then "https" else "http" in
  match url_Parse (rc_Host cfg) with
  | Err err => Err (ErrorWrap "unable to interpret config's host value as a URL" err)
  | Ok baseURL =>
      let kubeConfig := mkKubeConfig
        {[ envtestName := mkCluster (URL_String (mkURL protocol (u_Host baseURL) (rc_APIPath cfg))) (rc_CAData cfg) ]}
        {[ envtestName := mkAuthInfo (rc_CertData cfg) (rc_KeyData cfg) (rc_BearerToken cfg) (rc_Username cfg)
                            (rc_Password cfg) ]}
        {[ envtestName := mkKubeContext envtestName envtestName ]} envtestName in
      match clientcmd_Write kubeConfig with
      | Err err => Err (ErrorWrap "unable to serialize kubeconfig file" err)
      | Ok contents => Ok contents
      end
  end.

Definition KubeCtl_Run (k : KubeCtl) (args : list string) w : KubeCtl * W * (string * string * option error) :=
  let k := mkKubeCtl (if decide (kubectl_Path k = "") then BinPathFinder (λ v, LookupEnv v w) "kubectl" ""
                      else kubectl_Path k) (kubectl_Opts k) in
  let '(w, r) := cmd_Run (kubectl_Path k) (kubectl_Opts k ++ args) w in (k, w, r).

(** ** etcd (etcd.go) *)

Record Etcd := mkEtcd {
  et_URL : option URL;
  et_Path : string;
  et_Args : list string;
  et_DataDir : string;
  et_StartTimeout : Z;
  et_StopTimeout : Z;
  et_Out : option string;
  et_Err : option string;
  et_processState : option (State Pid);
  et_args : option Arguments;
}.
Definition empty_Etcd : Etcd := mkEtcd None "" [] "" 0 0 None None None None.
Implicit Types e : Etcd.

Definition et_set_state (s : State Pid) e : Etcd :=
  mkEtcd (et_URL e) (et_Path e) (et_Args e) (et_DataDir e) (et_StartTimeout e) (et_StopTimeout e) (et_Out e)
    (et_Err e) (Some s) (et_args e).
Definition et_set_url (url : option URL) e : Etcd :=
  mkEtcd url (et_Path e) (et_Args e) (et_DataDir e) (et_StartTimeout e) (et_StopTimeout e) (et_Out e) (et_Err e)
    (et_processState e) (et_args e).
Definition et_set_dir (dir : string) e : Etcd :=
  mkEtcd (et_URL e) (et_Path e) (et_Args e) dir (et_StartTimeout e) (et_StopTimeout e) (et_Out e) (et_Err e)
    (et_processState e) (et_args e).
Definition et_set_args (Args : list string) (args : Arguments) e : Etcd :=
  mkEtcd (et_URL e) (et_Path e) Args (et_DataDir e) (et_StartTimeout e) (et_StopTimeout e) (et_Out e) (et_Err e)
    (et_processState e) (Some args).
(** The fields that are read back from the state. *)
Definition et_copy_state (s : State Pid) e : Etcd :=
  mkEtcd (et_URL e) (ps_Path s) (et_Args e) (ps_Dir s) (ps_StartTimeout s) (ps_StopTimeout s) (et_Out e) (et_Err e)
    (Some s) (et_args e).

Definition Etcd_Configure e : Arguments := default EmptyArguments (et_args e).

Definition Etcd_defaultArgs e : Defaults :=
  let args : Defaults := {[ "listen-peer-urls" := Some ["http://localhost:0"]; "data-dir" := Some [et_DataDir e] ]} in
  match et_URL e with
  | Some url => <["advertise-client-urls" := Some [URL_String url]]> (<["listen-client-urls" := Some [URL_String url]]> args)
  | None => args
  end.

Definition EtcdDefaultArgs : list string :=
  ["--listen-peer-urls=http://localhost:0";
   "--advertise-client-urls={{ if .URL }}{{ .URL.String }}{{ end }}";
   "--listen-client-urls={{ if .URL }}{{ .URL.String }}{{ end }}";
   "--data-dir={{ .DataDir }}"].

(** Executing a template on an etcd. *)
Variable Execute_etcd : Template → Etcd → result string.

Definition etcd_args e : Arguments * result (list string * list string) :=
  TemplateAndArguments template_Parse Execute_etcd (et_Args e) (Etcd_Configure e)
    (mkTemplateDefaults e (Etcd_defaultArgs e) ∅).

Definition Etcd_setProcessState e w : Etcd * W * option error :=
  let s := new_State (et_DataDir e) (et_Path e) (et_StartTimeout e) (et_StopTimeout e) in
  let '(s, w, err) := Init "etcd" s w in
  let e := et_set_state s e in
  match err with
  | Some err => (e, w, Some err)
  | None =>
      let '(e, w, err) :=
        match et_URL e with
        | Some _ => (e, w, None)
        | None =>
            match addr_Suggest "" w with
            | (w, (_, _, Some err)) => (e, w, Some err)
            | (w, (port, host, None)) => (et_set_url (Some (mkURL "http" (JoinHostPort host (Itoa port)) "")) e, w, None)
            end
        end in
      match err with
      | Some err => (e, w, Some err)
      | None =>
          let health := match et_URL e with
                        | Some url => mkURL (u_Scheme url) (u_Host url) "/health"
                        | None => mkURL "" "" "/health"
                        end in
          let s := set_health health s in
          let e := et_copy_state s e in
          match etcd_args e with
          | (args, Err err) => (et_set_state (set_args [] s) (et_set_args [] args e), w, Some err)
          | (args, Ok (all, rest)) => (et_set_state (set_args all s) (et_set_args rest args e), w, None)
          end
      end
  end.

Definition Etcd_Start e w : outcome (Etcd * W * option error) :=
  match Etcd_setProcessState e w with
  | (e, w, Some err) => Returned (e, w, Some err)
  | (e, w, None) =>
      match et_processState e with
      | None => nil_deref
      | Some s => let '(s, w, err) := Start s w in Returned (et_set_state s e, w, err)
      end
  end.

Definition Etcd_Stop e w : outcome (Etcd * W * option error) :=
  match et_processState e with
  | None => nil_deref
  | Some s =>
      let e := if ps_DirNeedsCleaning s then et_set_dir "" e else e in
      '(s, w, err) ← Stop s w; Returned (et_set_state s e, w, err)
  end.

(** ** The API server (apiserver.go) *)

Definition saKeyFile : string := "sa-signer.key".
Definition saCertFile : string := "sa-signer.crt".

Record SecureServing := mkSecure { ss_Addr : ListenAddr; ss_CA : string; ss_Authn : option Authn }.

Record APIServer := mkAPIServer {
  as_URL : option URL;
  as_SecurePort : Z;
  as_SecureServing : SecureServing;
  as_InsecureServing : option ListenAddr;
  as_Path : string;
  as_Args : list string;
  as_CertDir : string;
  as_EtcdURL : option URL;
  as_StartTimeout : Z;
  as_StopTimeout : Z;
  as_Out : option string;
  as_Err : option string;
  as_processState : option (State Pid);
  as_args : option Arguments;
}.
Implicit Types a : APIServer.

Definition empty_APIServer : APIServer :=
  mkAPIServer None 0 (mkSecure (mkListenAddr "" "") "" None) None "" [] "" None 0 0 None None None None.

Definition as_set_ports (url : option URL) (port : Z) (addr : ListenAddr) (insecure : option ListenAddr) a : APIServer :=
  mkAPIServer url port (mkSecure addr (ss_CA (as_SecureServing a)) (ss_Authn (as_SecureServing a))) insecure
    (as_Path a) (as_Args a) (as_CertDir a) (as_EtcdURL a) (as_StartTimeout a) (as_StopTimeout a) (as_Out a)
    (as_Err a) (as_processState a) (as_args a).
Definition as_set_secure (ca : string) (authn : option Authn) a : APIServer :=
  mkAPIServer (as_URL a) (as_SecurePort a) (mkSecure (ss_Addr (as_SecureServing a)) ca authn) (as_InsecureServing a)
    (as_Path a) (as_Args a) (as_CertDir a) (as_EtcdURL a) (as_StartTimeout a) (as_StopTimeout a) (as_Out a)
    (as_Err a) (as_processState a) (as_args a).
Definition as_set_state (s : option (State Pid)) a : APIServer :=
  mkAPIServer (as_URL a) (as_SecurePort a) (as_SecureServing a) (as_InsecureServing a) (as_Path a) (as_Args a)
    (as_CertDir a) (as_EtcdURL a) (as_StartTimeout a) (as_StopTimeout a) (as_Out a) (as_Err a) s (as_args a).
Definition as_copy_state (s : State Pid) a : APIServer :=
  mkAPIServer (as_URL a) (as_SecurePort a) (as_SecureServing a) (as_InsecureServing a) (ps_Path s) (as_Args a)
    (ps_Dir s) (as_EtcdURL a) (ps_StartTimeout s) (ps_StopTimeout s) (as_Out a) (as_Err a) (Some s) (as_args a).
Definition as_set_args (Args : list string) (args : Arguments) a : APIServer :=
  mkAPIServer (as_URL a) (as_SecurePort a) (as_SecureServing a) (as_InsecureServing a) (as_Path a) Args
    (as_CertDir a) (as_EtcdURL a) (as_StartTimeout a) (as_StopTimeout a) (as_Out a) (as_Err a) (as_processState a)
    (Some args).
Definition as_set_dir (dir : string) a : APIServer :=
  mkAPIServer (as_URL a) (as_SecurePort a) (as_SecureServing a) (as_InsecureServing a) (as_Path a) (as_Args a)
    dir (as_EtcdURL a) (as_StartTimeout a) (as_StopTimeout a) (as_Out a) (as_Err a) (as_processState a) (as_args a).
Definition as_set_etcd (url : option URL) a : APIServer :=
  mkAPIServer (as_URL a) (as_SecurePort a) (as_SecureServing a) (as_InsecureServing a) (as_Path a) (as_Args a)
    (as_CertDir a) url (as_StartTimeout a) (as_StopTimeout a) (as_Out a) (as_Err a) (as_processState a) (as_args a).

Definition APIServer_Configure a : Arguments := default EmptyArguments (as_args a).

(** The insecure address: from the URL if there is one, else the other way
    round. *)
Definition configure_insecure a w : W * result (option URL * option ListenAddr) :=
  match as_URL a with
  | Some url => (w, Ok (Some url, Some (mkListenAddr (Hostname url) (Port url))))
  | None =>
      match as_InsecureServing a with
      | None => (w, Ok (None, None))
      | Some insec =>
          if decide (la_Port insec = "" ∨ la_Address insec = "") then
            match addr_Suggest "" w with
            | (w, (_, _, Some err)) => (w, Err (ErrorWrap "unable to provision unused insecure port" err))
            | (w, (port, host, None)) =>
                let insec := mkListenAddr host (Itoa port) in
                (w, Ok (Some (ListenAddr_URL "http" "" insec), Some insec))
            end
          else (w, Ok (Some (ListenAddr_URL "http" "" insec), Some insec))
      end
  end.

Definition configurePorts a w : APIServer * W * option error :=
  match configure_insecure a w with
  | (w, Err err) => (a, w, Some err)
  | (w, Ok (url, insecure)) =>
      let addr := ss_Addr (as_SecureServing a) in
      if decide (as_SecurePort a ≠ 0%Z) then
        let address :=
          if decide (la_Address addr = "") then
            match insecure with Some insec => la_Address insec | None => "127.0.0.1" end
          else la_Address addr in
        (as_set_ports url (as_SecurePort a) (mkListenAddr address (Itoa (as_SecurePort a))) insecure a, w, None)
      else if decide (la_Port addr = "" ∨ la_Address addr = "") then
        match addr_Suggest "" w with
        | (w, (_, _, Some err)) =>
            (as_set_ports url (as_SecurePort a) addr insecure a, w,
              Some (ErrorWrap "unable to provision unused secure port" err))
        | (w, (port, host, None)) => (as_set_ports url port (mkListenAddr host (Itoa port)) insecure a, w, None)
        end
      else (as_set_ports url (as_SecurePort a) addr insecure a, w, None)
  end.

Definition APIServer_defaultArgs a : Defaults :=
  let addr := ss_Addr (as_SecureServing a) in
  let args : Defaults := list_to_map
    [("service-cluster-ip-range", Some ["10.0.0.0/24"]); ("allow-privileged", Some ["true"]);
     ("disable-admission-plugins", Some ["ServiceAccount"]); ("cert-dir", Some [as_CertDir a]);
     ("authorization-mode", Some ["RBAC"]); ("secure-port", Some [la_Port addr]); ("bind-address", Some [la_Address addr]);
     ("service-account-issuer", Some [URL_String (ListenAddr_URL "https" "/" addr)]);
     ("service-account-key-file", Some [filepath_Join [as_CertDir a; saCertFile]]);
     ("service-account-signing-key-file", Some [filepath_Join [as_CertDir a; saKeyFile]])] in
  let args := match as_EtcdURL a with Some url => <["etcd-servers" := Some [URL_String url]]> args | None => args end in
  match as_URL a with
  | Some url => <["insecure-bind-address" := Some [Hostname url]]> (<["insecure-port" := Some [Port url]]> args)
  | None => <["insecure-port" := Some ["0"]]> args
  end.

Definition APIServerDefaultArgs : list string :=
  ["--advertise-address=127.0.0.1";
   "--etcd-servers={{ if .EtcdURL }}{{ .EtcdURL.String }}{{ end }}";
   "--cert-dir={{ .CertDir }}";
   "--insecure-port={{ if .URL }}{{ .URL.Port }}{{else}}0{{ end }}";
   "{{ if .URL }}--insecure-bind-address={{ .URL.Hostname }}{{ end }}";
   "--secure-port={{ if .SecurePort }}{{ .SecurePort }}{{ end }}";
   "--disable-admission-plugins=ServiceAccount";
   "--service-cluster-ip-range=10.0.0.0/24";
   "--allow-privileged=true"].

(** [populateAPIServerCerts]: nothing is done if there is a certificate. *)
Definition populateAPIServerCerts a w : APIServer * W * option error :=
  let file (name : string) := filepath_Join [as_CertDir a; name] in
  match Stat (file "apiserver.crt") w with
  | Ok _ => (a, w, None)
  | Err statErr =>
      if negb (IsNotExist statErr) then (a, w, Some statErr)
      else
        match NewTinyCA w with
        | (w, Err err) => (a, w, Some err)
        | (w, Ok ca) =>
            match NewServingCert ca [] w with
            | (_, w, Err err) => (a, w, Some err)
            | (ca, w, Ok servingCerts) =>
                match AsBytes servingCerts with
                | Err err => (a, w, Some err)
                | Ok (certData, keyData) =>
                    match WriteFile (file "apiserver.crt") certData w with
                    | (w, Some err) => (a, w, Some err)
                    | (w, None) =>
                        match WriteFile (file "apiserver.key") keyData w with
                        | (w, Some err) => (a, w, Some err)
                        | (w, None) =>
                            let a := as_set_secure (CertBytes (ca_CA ca)) (ss_Authn (as_SecureServing a)) a in
                            match NewTinyCA w with
                            | (w, Err err) => (a, w, Some err)
                            | (w, Ok saCA) =>
                                match AsBytes (ca_CA saCA) with
                                | Err err => (a, w, Some err)
                                | Ok (saCert, saKey) =>
                                    match WriteFile (file saCertFile) saCert w with
                                    | (w, Some err) => (a, w, Some err)
                                    | (w, None) => let '(w, err) := WriteFile (file saKeyFile) saKey w in (a, w, err)
                                    end
                                end
                            end
                        end
                    end
                end
            end
        end
  end.

Definition discoverFlags (s : State Pid) a w : APIServer * W * option error :=
  match CheckFlag "insecure-port" s w with
  | (w, Err err) => (a, w, Some err)
  | (w, Ok present) =>
      (if (present : bool) then a else as_set_args (as_Args a) (Disable "insecure-port" (APIServer_Configure a)) a, w, None)
  end.

Definition minimal_defaults : Defaults :=
  {[ "service-cluster-ip-range" := Some ["10.0.0.0/24"]; "authorization-mode" := Some ["RBAC"] ]}.

Variable Execute_api : Template → APIServer → result string.

Definition api_args a : Arguments * result (list string * list string) :=
  TemplateAndArguments template_Parse Execute_api (as_Args a) (APIServer_Configure a)
    (mkTemplateDefaults a (APIServer_defaultArgs a) minimal_defaults).

(** The authenticator, a new one if there is none. *)
Definition ensure_authn a w : W * result Authn :=
  match ss_Authn (as_SecureServing a) with
  | Some authn => (w, Ok authn)
  | None => let '(w, r) := NewCertAuthn w in (w, match r with Ok c => Ok (ByCert c) | Err err => Err err end)
  end.

Definition APIServer_setProcessState a w : APIServer * W * option error :=
  match as_EtcdURL a with
  | None => (a, w, Some (ErrorString "expected EtcdURL to be configured"))
  | Some _ =>
      let s := new_State (as_CertDir a) (as_Path a) (as_StartTimeout a) (as_StopTimeout a) in
      let '(s, w, err) := Init "kube-apiserver" s w in
      let a := as_set_state (Some s) a in
      match err with
      | Some err => (a, w, Some err)
      | None =>
          match configurePorts a w with
          | (a, w, Some err) => (a, w, Some err)
          | (a, w, None) =>
              let s := set_health (ListenAddr_URL "https" "/healthz" (ss_Addr (as_SecureServing a))) s in
              let a := as_copy_state s a in
              match populateAPIServerCerts a w with
              | (a, w, Some err) => (a, w, Some err)
              | (a, w, None) =>
                  match ensure_authn a w with
                  | (w, Err err) => (a, w, Some err)
                  | (w, Ok authn) =>
                      let '(authn, args, w, err) := authn_Configure authn (as_CertDir a) (APIServer_Configure a) w in
                      let a := as_set_args (as_Args a) args (as_set_secure (ss_CA (as_SecureServing a)) (Some authn) a) in
                      match err with
                      | Some err => (a, w, Some err)
                      | None =>
                          match discoverFlags s a w with
                          | (a, w, Some err) => (a, w, Some err)
                          | (a, w, None) =>
                              match api_args a with
                              | (args, Err err) => (as_set_state (Some (set_args [] s)) (as_set_args [] args a), w, Some err)
                              | (args, Ok (all, rest)) =>
                                  (as_set_state (Some (set_args all s)) (as_set_args rest args a), w, None)
                              end
                          end
                      end
                  end
              end
          end
      end
  end.

Definition prepare a w : outcome (APIServer * W * option error) :=
  match APIServer_setProcessState a w with
  | (a, w, Some err) => Returned (a, w, Some err)
  | (a, w, None) =>
      match ss_Authn (as_SecureServing a) with
      | None => nil_deref
      | Some authn =>
          let '(authn, w, err) := authn_Start authn w in
          Returned (as_set_secure (ss_CA (as_SecureServing a)) (Some authn) a, w, err)
      end
  end.

Definition PrepareAPIServer a w : outcome (APIServer * W * option error) := prepare a w.

Definition APIServerArguments a : outcome (list string) :=
  match as_processState a with Some s => Returned (ps_Args s) | None => nil_deref end.

Definition APIServer_Start a w : outcome (APIServer * W * option error) :=
  '(a, w, err) ← prepare a w;
  match err with
  | Some err => Returned (a, w, Some err)
  | None =>
      match as_processState a with
      | None => nil_deref
      | Some s => let '(s, w, err) := Start s w in Returned (as_set_state (Some s) a, w, err)
      end
  end.

(** The state is looked into before it is checked for nil. *)
Definition APIServer_Stop a w : outcome (APIServer * W * option error) :=
  match as_processState a with
  | None => nil_deref
  | Some s =>
      let a := if ps_DirNeedsCleaning s then as_set_dir "" a else a in
      '(s, w, err) ← Stop s w;
      let a := as_set_state (Some s) a in
      match err with
      | Some err => Returned (a, w, Some err)
      | None =>
          match ss_Authn (as_SecureServing a) with
          | None => nil_deref
          | Some authn =>
              let '(authn, w, err) := authn_Stop authn w in
              Returned (as_set_secure (ss_CA (as_SecureServing a)) (Some authn) a, w, err)
          end
      end
  end.

(** ** The control plane (plane.go) *)

Record ControlPlane := mkPlane {
  cp_APIServer : option APIServer;
  cp_Etcd : option Etcd;
  cp_KubectlPath : string;
  cp_defaultUserCfg : option RestConfig;
  cp_defaultUserKubectl : option KubeCtl;
}.
Implicit Types f : ControlPlane.

Definition set_etcd e f : ControlPlane :=
  mkPlane (cp_APIServer f) (Some e) (cp_KubectlPath f) (cp_defaultUserCfg f) (cp_defaultUserKubectl f).
Definition set_apiserver a f : ControlPlane :=
  mkPlane (Some a) (cp_Etcd f) (cp_KubectlPath f) (cp_defaultUserCfg f) (cp_defaultUserKubectl f).

(** The plane of a user is given to the calls. *)
Record AuthenticatedUser := mkAuthUser {
  au_cfg : RestConfig;
  au_cfgIsComplete : bool;
  au_kubectl : option KubeCtl;
}.
Implicit Types u : AuthenticatedUser.

Definition GetAPIServer f : ControlPlane * APIServer :=
  let a := default empty_APIServer (cp_APIServer f) in (set_apiserver a f, a).

Definition AddUser (user : User) (baseConfig : option RestConfig) f w
    : ControlPlane * W * result AuthenticatedUser :=
  let '(f, a) := GetAPIServer f in
  match ss_Authn (as_SecureServing a) with
  | None =>
      (f, w, Err (ErrorString ("no API server authentication is configured yet.  The API server defaults one "
                               +:+ "when Start is called, did you mean to use that?")))
  | Some authn =>
      let '(authn, w, cfg) := authn_AddUser authn user (default empty_RestConfig baseConfig) w in
      let f := set_apiserver (as_set_secure (ss_CA (as_SecureServing a)) (Some authn) a) f in
      match cfg with
      | Err err => (f, w, Err err)
      | Ok cfg => (f, w, Ok (mkAuthUser cfg false None))
      end
  end.

Definition User_Config u f : outcome (AuthenticatedUser * RestConfig) :=
  if au_cfgIsComplete u then Returned (u, au_cfg u)
  else
    match cp_APIServer f with
    | None => nil_deref
    | Some a =>
        if decide (ss_CA (as_SecureServing a) = "") then
          Panicked "the API server has not yet been started, please do that before accessing connection details"
        else
          let cfg := set_server (URL_String (ListenAddr_URL "https" "/" (ss_Addr (as_SecureServing a))))
                       (ss_CA (as_SecureServing a)) (au_cfg u) in
          Returned (mkAuthUser cfg true (au_kubectl u), cfg)
    end.

(** The receiver is a copy. *)
Definition User_KubeConfig u f : outcome (result string) :=
  '(_, cfg) ← User_Config u f; Returned (KubeConfigFromREST cfg).

Definition User_Kubectl u f w : outcome (AuthenticatedUser * W * result KubeCtl) :=
  match au_kubectl u with
  | Some k => Returned (u, w, Ok k)
  | None =>
      match cp_APIServer f with
      | None => nil_deref
      | Some a =>
          if decide (as_CertDir a = "") then
            Panicked "the API server has not yet been started, please do that before accessing connection details"
          else
            match CreateTemp (as_CertDir a) "*.kubecfg" w with
            | (w, Err err) => Returned (u, w, Err (ErrorWrap "unable to create file for kubeconfig" err))
            | (w, Ok name) =>
                '(u, cfg) ← User_Config u f;
                match KubeConfigFromREST cfg with
                | Err err => Returned (u, w, Err err)
                | Ok contents =>
                    match WriteTo name contents w with
                    | (w, Some err) =>
                        Returned (u, w, Err (ErrorWrap ("unable to write kubeconfig to disk at " +:+ name) err))
                    | (w, None) =>
                        let k := mkKubeCtl (cp_KubectlPath f) ["--kubeconfig=" +:+ name] in
                        Returned (mkAuthUser (au_cfg u) (au_cfgIsComplete u) (Some k), w, Ok k)
                    end
                end
            end
      end
  end.

Definition default_user : User := mkUser "default" ["system:masters"].

(** The default user, once both servers run. *)
Definition provision_default f w : outcome (ControlPlane * W * option error) :=
  match AddUser default_user (Some empty_RestConfig) f w with
  | (f, w, Err err) => Returned (f, w, Some (ErrorWrap "unable to provision the default (legacy) user" err))
  | (f, w, Ok user) =>
      '(user, w, kubectl) ← User_Kubectl user f w;
      match kubectl with
      | Err err => Returned (f, w, Some (ErrorWrap "unable to provision the default (legacy) kubeconfig" err))
      | Ok kubectl =>
          '(_, cfg) ← User_Config user f;
          Returned (mkPlane (cp_APIServer f) (cp_Etcd f) (cp_KubectlPath f) (Some cfg) (Some kubectl), w, None)
      end
  end.

Definition ControlPlane_Start f w : outcome (ControlPlane * W * option error) :=
  '(e, w, err) ← Etcd_Start (default empty_Etcd (cp_Etcd f)) w;
  let f := set_etcd e f in
  match err with
  | Some err => Returned (f, w, Some err)
  | None =>
      let a := as_set_etcd (et_URL e) (default empty_APIServer (cp_APIServer f)) in
      '(a, w, err) ← APIServer_Start a w;
      let f := set_apiserver a f in
      match err with
      | Some err => Returned (f, w, Some err)
      | None => provision_default f w
      end
  end.

(** Stopping a part that is there. *)
Definition stop_part {A} (stop : A → W → outcome (A * W * option error)) (part : option A) w
    : outcome (option A * W * list error) :=
  match part with
  | None => Returned (None, w, [])
  | Some x => '(x, w, err) ← stop x w; Returned (Some x, w, match err with Some err => [err] | None => [] end)
  end.

Definition ControlPlane_Stop f w : outcome (ControlPlane * W * option error) :=
  '(a, w, errs1) ← stop_part APIServer_Stop (cp_APIServer f) w;
  '(e, w, errs2) ← stop_part Etcd_Stop (cp_Etcd f) w;
  Returned (mkPlane a e (cp_KubectlPath f) (cp_defaultUserCfg f) (cp_defaultUserKubectl f), w,
    NewAggregate (errs1 ++ errs2)).

Definition APIURL f : outcome (option URL) :=
  match cp_APIServer f with Some a => Returned (as_URL a) | None => nil_deref end.
Definition ControlPlane_KubeCtl f : option KubeCtl := cp_defaultUserKubectl f.
Definition RESTClientConfig f : option RestConfig * option error := (cp_defaultUserCfg f, None).
End plane.
