(* ===== verification/ControlPlaneFacts.v ===== *)
(** * The control plane leaves no processes behind - or does

    What one start of a control plane can start, and that stopping it ends
    what its servers were last started as. *)

From S2P Require Export ControlPlane.

Section facts.
Context {W Pid L Key PublicKey Cert IP DER X Template : Type}.
Context `{!EqDecision Pid} `{!Environ (W := W)} `{!ProcessOS (W := W) (Pid := Pid)} `{!AddrOS (W := W) (L := L)}
  `{!CertLib W Key PublicKey Cert IP DER}.
Context `{!PlaneOS (W := W) (X := X) (Template := Template)} `{!MapRange Z Z} `{!MapRange string Arg}
  `{!MapRange string Slice}.
Context `{!ProcessLaws (W := W) (Pid := Pid)}.
Abbreviation APIServer := (@APIServer Pid Key Cert X).
Abbreviation Etcd := (@Etcd Pid).
Abbreviation ControlPlane := (@ControlPlane Pid Key Cert X).
Variable Execute_etcd : Template → Etcd → result string.
Variable Execute_api : Template → APIServer → result string.
Implicit Types (w : W) (e : Etcd) (a : APIServer) (f : ControlPlane) (p : Pid).

(** None of the other calls starts a process. *)
Class PlaneLaws := {
  ResolveTCPAddr_shrinks h w w' r : ResolveTCPAddr h w = (w', r) → shrinks w w';
  ListenTCP_shrinks h w w' r : ListenTCP h w = (w', r) → shrinks w w';
  Close_shrinks l w w' r : Close l w = (w', r) → shrinks w w';
  Now_shrinks w w' r : Now w = (w', r) → shrinks w w';
  set_ports_shrinks c w : shrinks w (set_ports c w);
  WriteFile_shrinks n b w w' r : WriteFile n b w = (w', r) → shrinks w w';
  CreateTemp_shrinks n b w w' r : CreateTemp n b w = (w', r) → shrinks w w';
  WriteTo_shrinks n b w w' r : WriteTo n b w = (w', r) → shrinks w w';
  GenerateKey_shrinks n w w' r : GenerateKey n w = (w', r) → shrinks w w';
  NewSelfSignedCACert_shrinks cfg k w w' r : NewSelfSignedCACert cfg k w = (w', r) → shrinks w w';
  CreateCertificate_shrinks t c pub k w w' r : CreateCertificate t c pub k w = (w', r) → shrinks w w';
  LookupHost_shrinks h w w' r : LookupHost h w = (w', r) → shrinks w w';
  time_Now_shrinks w w' r : time_Now w = (w', r) → shrinks w w';
  other_Configure_shrinks x d args w x' args' w' r : other_Configure x d args w = (x', args', w', r) → shrinks w w';
  other_Start_shrinks (x : X) w x' w' r : other_Start x w = (x', w', r) → shrinks w w';
  other_AddUser_shrinks (x : X) user cfg w x' w' r : other_AddUser x user cfg w = (x', w', r) → shrinks w w';
  other_Stop_shrinks (x : X) w x' w' r : other_Stop x w = (x', w', r) → shrinks w w';
}.
Context `{!PlaneLaws}.

Lemma TempDir_eq_shrinks n w w' r : TempDir n w = (w', r) → shrinks w w'.
Proof. intros Heq. pose proof (TempDir_shrinks n w) as Hs. by rewrite Heq in Hs. Qed.
Lemma CombinedOutput_eq_shrinks n args w w' r : CombinedOutput n args w = (w', r) → shrinks w w'.
Proof. intros Heq. pose proof (CombinedOutput_shrinks n args w) as Hs. by rewrite Heq in Hs. Qed.

(** One step back along the calls that lead to a world; the lemmas of composite
    calls join the database as they are proved. *)
Create HintDb shrinks discriminated.
#[local] Hint Resolve ResolveTCPAddr_shrinks ListenTCP_shrinks Close_shrinks Now_shrinks WriteFile_shrinks
  CreateTemp_shrinks WriteTo_shrinks GenerateKey_shrinks NewSelfSignedCACert_shrinks CreateCertificate_shrinks
  LookupHost_shrinks time_Now_shrinks other_Configure_shrinks other_Start_shrinks other_AddUser_shrinks
  other_Stop_shrinks TempDir_eq_shrinks CombinedOutput_eq_shrinks : shrinks.

Ltac calls :=
  intros; repeat case_match; simplify_eq;
  repeat first [reflexivity | etransitivity; [|solve [eauto 2 with shrinks]]].

Lemma remove_outdated_shrinks l (c : portCache) w c' w' : remove_outdated l c w = (c', w') → shrinks w w'.
Proof.
  revert c w. induction l as [|[p t] l IH]; intros c w; cbn; [by intros [= <- <-]|].
  destruct (Now w) as [w1 now] eqn:Hn. intros Hr. transitivity w1; [eauto with shrinks|by eapply IH].
Qed.
#[local] Hint Resolve remove_outdated_shrinks : shrinks.

Lemma add_shrinks port (c : portCache) w c' w' b : add port c w = (c', w', b) → shrinks w w'.
Proof. unfold add. calls. Qed.
#[local] Hint Resolve add_shrinks : shrinks.

Lemma suggest_shrinks h w w' r : suggest h w = (w', r) → shrinks w w'.
Proof. unfold suggest. calls. Qed.
#[local] Hint Resolve suggest_shrinks : shrinks.

Lemma suggest_loop_shrinks n h last (c : portCache) w c' w' r : suggest_loop n h last c w = (c', w', r) → shrinks w w'.
Proof.
  revert last c w. induction n as [|n IH]; intros last c w; cbn; [by intros [= <- <- <-]|].
  destruct (suggest h w) as [w1 [[port host] [err|]]] eqn:Hs; [intros [= <- <- <-]; calls|].
  destruct (add port c w1) as [[c2 w2] [|]] eqn:Ha; [intros [= <- <- <-]; calls|].
  intros Hrest%IH. transitivity w2; [calls|done].
Qed.
#[local] Hint Resolve suggest_loop_shrinks set_ports_shrinks : shrinks.

Lemma addr_Suggest_shrinks h w w' r : addr_Suggest h w = (w', r) → shrinks w w'.
Proof. unfold addr_Suggest, Suggest. calls. Qed.

Lemma Init_shrinks name (s : State Pid) w s' w' err : Init name s w = (s', w', err) → shrinks w w'.
Proof. unfold Init. calls. Qed.

Lemma CheckFlag_shrinks flag (s : State Pid) w w' r : CheckFlag flag s w = (w', r) → shrinks w w'.
Proof. unfold CheckFlag. calls. Qed.

Lemma NewTinyCA_shrinks w w' (r : result (TinyCA Key Cert)) : NewTinyCA w = (w', r) → shrinks w w'.
Proof. unfold NewTinyCA, newPrivateKey. calls. Qed.

Lemma makeCert_shrinks (c : TinyCA Key Cert) cfg w c' w' r : makeCert c cfg w = (c', w', r) → shrinks w w'.
Proof. unfold makeCert, newPrivateKey. calls. Qed.
#[local] Hint Resolve addr_Suggest_shrinks Init_shrinks CheckFlag_shrinks NewTinyCA_shrinks makeCert_shrinks : shrinks.

Lemma resolveNames_shrinks names w w' r : resolveNames names w = (w', r) → shrinks w w'.
Proof.
  revert w w' r. induction names as [|n names IH]; intros w w' r; cbn; [by intros [= <- _]|].
  case_match; [apply IH|]. destruct (ParseIP n).
  - destruct (resolveNames names w) as [w1 r1] eqn:Hr. intros [= <- _]. by eapply IH.
  - destruct (LookupHost n w) as [w1 [ips|err]] eqn:Hl; [|intros [= <- _]; calls].
    destruct (resolveNames names w1) as [w2 r2] eqn:Hr. intros [= <- _]. transitivity w1; [calls|by eapply IH].
Qed.
#[local] Hint Resolve resolveNames_shrinks : shrinks.

Lemma NewServingCert_shrinks (c : TinyCA Key Cert) names w c' w' r : NewServingCert c names w = (c', w', r) → shrinks w w'.
Proof. unfold NewServingCert. calls. Qed.

Lemma NewClientCert_shrinks (c : TinyCA Key Cert) user w c' w' r : NewClientCert c user w = (c', w', r) → shrinks w w'.
Proof. unfold NewClientCert. calls. Qed.
#[local] Hint Resolve NewServingCert_shrinks NewClientCert_shrinks : shrinks.

Implicit Types authn : @Authn Key Cert X.

Lemma authn_Configure_shrinks authn d args w authn' args' w' r :
  authn_Configure authn d args w = (authn', args', w', r) → shrinks w w'.
Proof. unfold authn_Configure, CertAuthn_Configure. calls. Qed.

Lemma authn_Start_shrinks authn w authn' w' r : authn_Start authn w = (authn', w', r) → shrinks w w'.
Proof. unfold authn_Start, CertAuthn_Start. calls. Qed.

Lemma authn_AddUser_shrinks authn user cfg w authn' w' r : authn_AddUser authn user cfg w = (authn', w', r) → shrinks w w'.
Proof. unfold authn_AddUser, CertAuthn_AddUser. calls. Qed.

Lemma authn_Stop_shrinks authn w authn' w' r : authn_Stop authn w = (authn', w', r) → shrinks w w'.
Proof. unfold authn_Stop, CertAuthn_Stop. calls. Qed.

Lemma ensure_authn_shrinks a w w' r : ensure_authn a w = (w', r) → shrinks w w'.
Proof. unfold ensure_authn, NewCertAuthn. calls. Qed.

Lemma populateAPIServerCerts_shrinks a w a' w' r : populateAPIServerCerts a w = (a', w', r) → shrinks w w'.
Proof. unfold populateAPIServerCerts. calls. Qed.

Lemma configurePorts_shrinks a w a' w' r : configurePorts a w = (a', w', r) → shrinks w w'.
Proof. unfold configurePorts, configure_insecure. calls. Qed.

Lemma discoverFlags_shrinks (s : State Pid) a w a' w' r : discoverFlags s a w = (a', w', r) → shrinks w w'.
Proof. unfold discoverFlags. calls. Qed.
#[local] Hint Resolve authn_Configure_shrinks authn_Start_shrinks authn_AddUser_shrinks authn_Stop_shrinks
  ensure_authn_shrinks populateAPIServerCerts_shrinks configurePorts_shrinks discoverFlags_shrinks : shrinks.

(** ** What the servers were last started as *)

(** A state that no process was started from. *)
Definition fresh (s : State Pid) : Prop := once s ∧ ps_Cmd s = None ∧ ps_ready s = false.

Lemma Init_fresh name (s : State Pid) w s' w' err : fresh s → Init name s w = (s', w', err) → fresh s'.
Proof. unfold fresh, Init. intros (Ho & Hc & Hr). repeat case_match; intros; simplify_eq/=; by split_and!. Qed.

Lemma fresh_new dir path st et : fresh (new_State (Pid := Pid) dir path st et).
Proof. by split_and!. Qed.

Lemma Etcd_setProcessState_fresh e w e' w' err :
  Etcd_setProcessState Execute_etcd e w = (e', w', err) →
  shrinks w w' ∧ ∃ s, et_processState e' = Some s ∧ fresh s.
Proof.
  unfold Etcd_setProcessState. destruct (Init _ _ w) as [[s w1] err1] eqn:Hi.
  pose proof (Init_fresh _ _ _ _ _ _ (fresh_new _ _ _ _) Hi) as Hs.
  intros Heq. split; [|repeat case_match; simplify_eq/=; eauto].
  repeat case_match; simplify_eq; calls.
Qed.

(** A part with such a state, or with none. *)
Definition tracks (s : option (State Pid)) p : Prop := ∃ st, s = Some st ∧ ps_Cmd st = Some (Some p).
Definition at_most_once (s : option (State Pid)) : Prop := ∀ st, s = Some st → once st.

(** What a start may do to the processes: those it adds are new, and tracked. *)
Definition started w w' (s : option (State Pid)) : Prop :=
  (∀ q, alive w' q → alive w q ∨ tracks s q) ∧ (∀ q, seen w q → seen w' q) ∧ (∀ q, tracks s q → ¬ seen w q ∧ seen w' q)
  ∧ at_most_once s.

Lemma started_fresh w w' s : shrinks w w' → fresh s → started w w' (Some s).
Proof.
  intros (Ha & _ & Hs) (Ho & Hc & _). split_and!; [by left; auto|done| |].
  - intros q (st & [= <-] & Hq). congruence.
  - by intros st [= <-].
Qed.

Lemma started_Start w w1 w' s s' err :
  shrinks w w1 → fresh s → Start s w1 = (s', w', err) → started w w' (Some s').
Proof.
  intros (Ha & _ & Hse) (Ho & Hc & Hr) Hs.
  destruct (Start_once s w1 s' w' err Ho Hc Hr Hs) as (Ho' & _ & Hal & Hnew & Hse' & _).
  split_and!; [|auto| |].
  - intros q [?|?]%Hal; [left; auto|right; by exists s'].
  - intros q (st & [= <-] & Hq). destruct (Hnew q Hq) as [Hno ?]. split; [intros Hs1; by apply Hno, Hse|done].
  - by intros st [= <-].
Qed.

Lemma started_shrinks w w1 w' s : started w w1 s → shrinks w1 w' → started w w' s.
Proof. intros (H1 & H2 & H3 & H4) (Ha & _ & Hs). split_and!; auto. intros q [??]%H3. auto. Qed.

Lemma Etcd_Start_started e w e' w' err :
  Etcd_Start Execute_etcd e w = Returned (e', w', err) →
  is_Some (et_processState e') ∧ started w w' (et_processState e').
Proof.
  unfold Etcd_Start. destruct (Etcd_setProcessState _ e w) as [[e1 w1] err1] eqn:Hp.
  apply Etcd_setProcessState_fresh in Hp as (Hsh & s & Hs & Hf). destruct err1 as [err1|].
  - intros [= <- <- <-]. rewrite Hs. split; [done|by apply started_fresh].
  - rewrite Hs. destruct (Start s w1) as [[s' w2] err2] eqn:Hst. intros [= <- <- <-]. cbn.
    split; [done|]. by eapply started_Start.
Qed.

Lemma configurePorts_state a w a' w' r : configurePorts a w = (a', w', r) → as_processState a' = as_processState a.
Proof. unfold configurePorts. intros. repeat case_match; by simplify_eq/=. Qed.
Lemma populateAPIServerCerts_state a w a' w' r :
  populateAPIServerCerts a w = (a', w', r) → as_processState a' = as_processState a.
Proof. unfold populateAPIServerCerts. intros. repeat case_match; by simplify_eq/=. Qed.
Lemma discoverFlags_state (s : State Pid) a w a' w' r :
  discoverFlags s a w = (a', w', r) → as_processState a' = as_processState a.
Proof. unfold discoverFlags. intros. repeat case_match; by simplify_eq/=. Qed.

Lemma APIServer_setProcessState_fresh a w a' w' err :
  is_Some (as_EtcdURL a) → APIServer_setProcessState Execute_api a w = (a', w', err) →
  shrinks w w' ∧ (∃ s, as_processState a' = Some s ∧ fresh s)
  ∧ (err = None → is_Some (ss_Authn (as_SecureServing a'))).
Proof.
  intros [url Hurl]. unfold APIServer_setProcessState. rewrite Hurl.
  destruct (Init _ _ w) as [[s w1] err1] eqn:Hi. pose proof (Init_fresh _ _ _ _ _ _ (fresh_new _ _ _ _) Hi) as Hs.
  assert (Hh : ∀ url, fresh (set_health url s)) by done. assert (Ha : ∀ url args, fresh (set_args args (set_health url s))) by done.
  intros Heq. split; [calls|]. split.
  - repeat (case_match; simplify_eq/=;
      repeat match goal with
      | H : configurePorts _ _ = _ |- _ => apply configurePorts_state in H
      | H : populateAPIServerCerts _ _ = _ |- _ => apply populateAPIServerCerts_state in H
      | H : discoverFlags _ _ _ = _ |- _ => apply discoverFlags_state in H
      end); simplify_eq/=;
    repeat match goal with H : as_processState _ = _ |- _ => rewrite H end; eauto.
  - intros ->. repeat (case_match; try discriminate). simplify_eq/=.
    match goal with H : discoverFlags _ _ _ = _ |- _ => unfold discoverFlags in H end.
    repeat case_match; by simplify_eq/=.
Qed.

Lemma APIServer_Start_started a w a' w' err :
  is_Some (as_EtcdURL a) → APIServer_Start Execute_api a w = Returned (a', w', err) →
  is_Some (as_processState a') ∧ started w w' (as_processState a')
  ∧ (err = None → is_Some (ss_Authn (as_SecureServing a'))).
Proof.
  intros Hurl. unfold APIServer_Start, prepare.
  destruct (APIServer_setProcessState _ a w) as [[a1 w1] err1] eqn:Hp.
  apply APIServer_setProcessState_fresh in Hp as (Hsh & (s & Hs & Hf) & Hauth); [|done].
  destruct err1 as [err1|]; cbn.
  { intros [= <- <- <-]. rewrite Hs. split_and!; [done|by apply started_fresh|done]. }
  destruct (ss_Authn (as_SecureServing a1)) as [authn|]; [|done].
  destruct (authn_Start authn w1) as [[authn' w2] err2] eqn:Ha. apply authn_Start_shrinks in Ha. cbn.
  destruct err2 as [err2|].
  - intros [= <- <- <-]. cbn. rewrite Hs. split_and!; [done| |done]. apply started_fresh; [by transitivity w1|done].
  - cbn. rewrite Hs. destruct (Start s w2) as [[s' w3] err3] eqn:Hst. intros [= <- <- <-]. cbn.
    split_and!; [done| |done]. eapply started_Start; [|done..]. by transitivity w1.
Qed.

(** ** The plane *)

Definition etcd_state f : option (State Pid) := cp_Etcd f ≫= et_processState.
Definition api_state f : option (State Pid) := cp_APIServer f ≫= as_processState.
Definition plane_tracks f p : Prop := tracks (etcd_state f) p ∨ tracks (api_state f) p.
Definition plane_once f : Prop := at_most_once (etcd_state f) ∧ at_most_once (api_state f).

Lemma provision_default_spec f w f' w' err :
  provision_default f w = Returned (f', w', err) →
  shrinks w w' ∧ etcd_state f' = etcd_state f ∧ api_state f' = api_state f.
Proof.
  unfold provision_default, AddUser. cbn [GetAPIServer].
  set (a := default empty_APIServer (cp_APIServer f)).
  assert (Hst : ∀ authn, api_state (set_apiserver (as_set_secure (ss_CA (as_SecureServing a)) (Some authn) a) (set_apiserver a f))
    = api_state f).
  { intros authn. unfold api_state, a. cbn. by destruct (cp_APIServer f). }
  assert (Hst0 : api_state (set_apiserver a f) = api_state f).
  { unfold api_state, a. cbn. by destruct (cp_APIServer f). }
  destruct (ss_Authn (as_SecureServing a)) as [authn|]; [|by intros [= <- <- <-]].
  destruct (authn_AddUser _ _ _ w) as [[authn' w1] [cfg|err1]] eqn:Hadd; apply authn_AddUser_shrinks in Hadd.
  2:{ intros [= <- <- <-]. by split_and!. }
  unfold User_Kubectl. cbn [au_kubectl cp_APIServer set_apiserver mbind outcome_bind].
  case_decide; [done|]. destruct (CreateTemp _ _ w1) as [w2 [name|err2]] eqn:Htmp; apply CreateTemp_shrinks in Htmp.
  2:{ intros [= <- <- <-]. split_and!; [by transitivity w1|done|apply Hst]. }
  destruct (User_Config _ _) as [[u cfg']|]; cbn [mbind outcome_bind]; [|done].
  destruct (KubeConfigFromREST _) as [contents|err3].
  2:{ intros [= <- <- <-]. split_and!; [by transitivity w1|done|apply Hst]. }
  destruct (WriteTo name contents w2) as [w3 [err4|]] eqn:Hwr; apply WriteTo_shrinks in Hwr; cbn [mbind outcome_bind].
  - intros [= <- <- <-]. split_and!; [|done|apply Hst]. by transitivity w1; [|transitivity w2].
  - destruct (User_Config _ _) as [[u' cfg'']|]; cbn [mbind outcome_bind]; [|done].
    intros [= <- <- <-]. split_and!; [|done|exact (Hst authn')]. by transitivity w1; [|transitivity w2].
Qed.

Lemma Etcd_Start_url e w e' w' : Etcd_Start Execute_etcd e w = Returned (e', w', None) → is_Some (et_URL e').
Proof.
  unfold Etcd_Start. destruct (Etcd_setProcessState _ e w) as [[e1 w1] [err1|]] eqn:Hp; [done|].
  assert (Hu : is_Some (et_URL e1)).
  { revert Hp. unfold Etcd_setProcessState. intros Hp. repeat (case_match; try discriminate); simplify_eq/=; eauto. }
  destruct (et_processState e1) as [s|]; [|done]. destruct (Start s w1) as [[s' w2] err2]. by intros [= <- _ _].
Qed.

(** One start of a plane: what it adds is new and tracked, and so is everything
    its etcd is tracked to be. *)
Lemma ControlPlane_Start_spec f w f' w' err :
  plane_once f → ControlPlane_Start Execute_etcd Execute_api f w = Returned (f', w', err) →
  plane_once f'
  ∧ (∀ q, alive w' q → alive w q ∨ plane_tracks f' q)
  ∧ (∀ q, tracks (etcd_state f') q → ¬ seen w q ∧ seen w' q)
  ∧ (∀ q, seen w q → seen w' q)
  ∧ is_Some (etcd_state f') ∧ (err = None → is_Some (api_state f')).
Proof.
  intros [_ Hapi]. unfold ControlPlane_Start.
  destruct (Etcd_Start _ _ w) as [[[e w1] err1]|] eqn:He; cbn [mbind outcome_bind]; [|done].
  pose proof (Etcd_Start_started _ _ _ _ _ He) as [[s Hs] (Hal & Hse & Hnew & Honce)].
  destruct err1 as [err1|].
  { intros [= <- <- <-]. split_and!; [by split| |done|done|by exists s|done].
    intros q [?|?]%Hal; [by left|right; by left]. }
  apply Etcd_Start_url in He as [url Hurl].
  destruct (APIServer_Start _ _ w1) as [[[a w2] err2]|] eqn:Ha; cbn [mbind outcome_bind]; [|done].
  apply APIServer_Start_started in Ha as ([s' Hs'] & (Hal' & Hse' & Hnew' & Honce') & _); [|cbn; by rewrite Hurl].
  assert (Hall : let f1 := set_apiserver a (set_etcd e f) in
    plane_once f1 ∧ (∀ q, alive w2 q → alive w q ∨ plane_tracks f1 q) ∧ (∀ q, tracks (etcd_state f1) q → ¬ seen w q ∧ seen w2 q)
    ∧ (∀ q, seen w q → seen w2 q) ∧ is_Some (etcd_state f1) ∧ is_Some (api_state f1)).
  { cbn zeta. split_and!; [by split| |by intros q [??]%Hnew; auto|by auto|by exists s|by exists s'].
    intros q [[?|?]%Hal|?]%Hal'; [by left|right; by left|right; by right]. }
  destruct err2 as [err2|].
  { intros [= <- <- <-]. destruct Hall as (? & ? & ? & ? & ? & ?). by split_and!. }
  intros (Hsh & He' & Ha')%provision_default_spec. destruct Hsh as (Hsa & _ & Hss). cbn zeta in Hall.
  unfold plane_once, plane_tracks in *. rewrite He', Ha'. destruct Hall as (? & Hq & Hnew1 & ? & ? & ?).
  split_and!; try done; auto. intros q []%Hnew1; auto.
Qed.

Lemma stop_server s w s' w' err :
  once s → Stop s w = Returned (s', w', err) →
  shrinks w w' ∧ ps_Cmd s' = ps_Cmd s ∧ once s' ∧ (err = None → ∀ p, ps_Cmd s = Some (Some p) → ¬ alive w' p).
Proof.
  intros Hs Hst. destruct (Stop_once s w Hs) as (s1 & w1 & err1 & Hst1 & ? & ? & ? & ?).
  rewrite Hst in Hst1. injection Hst1 as <- <- <-. done.
Qed.

Lemma Etcd_Stop_spec e w e' w' err :
  at_most_once (et_processState e) → Etcd_Stop e w = Returned (e', w', err) →
  shrinks w w' ∧ (err = None → ∀ p, tracks (et_processState e) p → ¬ alive w' p).
Proof.
  intros Ho. unfold Etcd_Stop. destruct (et_processState e) as [s|] eqn:Hs; [|done].
  destruct (Stop s w) as [[[s' w1] err1]|] eqn:Hst; cbn [mbind outcome_bind]; [|done]. intros [= <- <- <-].
  apply stop_server in Hst as (Hsh & _ & _ & Hdead); [|by apply Ho]. split; [done|].
  intros -> p (st & [= <-] & Hp). by apply Hdead.
Qed.

Lemma APIServer_Stop_spec a w a' w' err :
  at_most_once (as_processState a) → APIServer_Stop a w = Returned (a', w', err) →
  shrinks w w' ∧ (err = None → ∀ p, tracks (as_processState a) p → ¬ alive w' p).
Proof.
  intros Ho. unfold APIServer_Stop. destruct (as_processState a) as [s|] eqn:Hs; [|done].
  destruct (Stop s w) as [[[s' w1] err1]|] eqn:Hst; cbn [mbind outcome_bind]; [|done].
  apply stop_server in Hst as (Hsh & _ & _ & Hdead); [|by apply Ho].
  destruct err1 as [err1|]; [intros [= <- <- <-]; by split|].
  destruct (ss_Authn _) as [authn|]; [|done]. destruct (authn_Stop authn w1) as [[authn' w2] err2] eqn:Ha.
  apply authn_Stop_shrinks in Ha. intros [= <- <- <-]. split; [by transitivity w1|].
  intros -> p (st & [= <-] & Hp) Hq%(proj1 Ha). by eapply Hdead.
Qed.

Lemma stop_part_spec {A} (stop : A → W → outcome (A * W * option error)) (state : A → option (State Pid))
    part w part' w' errs :
  (∀ x w x' w' err, at_most_once (state x) → stop x w = Returned (x', w', err) →
     shrinks w w' ∧ (err = None → ∀ p, tracks (state x) p → ¬ alive w' p)) →
  at_most_once (part ≫= state) → stop_part stop part w = Returned (part', w', errs) →
  shrinks w w' ∧ (errs = [] → ∀ p, tracks (part ≫= state) p → ¬ alive w' p).
Proof.
  intros Hstop Ho. unfold stop_part. destruct part as [x|]; cbn in *.
  - destruct (stop x w) as [[[x' w1] err]|] eqn:Hs; cbn; [|done]. intros [= <- <- <-].
    apply Hstop in Hs as [? Hd]; [|done]. split; [done|]. destruct err as [e|]; [by intros [=]|intros _; by apply Hd].
  - intros [= <- <- <-]. split; [reflexivity|]. by intros _ p (? & ? & _).
Qed.

Context (Haggregate : ∀ errs, NewAggregate errs = None ↔ errs = []).

Lemma ControlPlane_Stop_spec f w f' w' :
  plane_once f → ControlPlane_Stop f w = Returned (f', w', None) →
  shrinks w w' ∧ ∀ p, plane_tracks f p → ¬ alive w' p.
Proof.
  intros [He Ha]. unfold ControlPlane_Stop.
  destruct (stop_part APIServer_Stop _ w) as [[[a w1] errs1]|] eqn:H1; cbn [mbind outcome_bind]; [|done].
  destruct (stop_part Etcd_Stop _ w1) as [[[e w2] errs2]|] eqn:H2; cbn [mbind outcome_bind]; [|done].
  intros [= <- <- Hagg]. apply Haggregate, app_eq_nil in Hagg as [-> ->].
  apply (stop_part_spec _ as_processState) in H1 as [Hsh1 Hd1]; [|apply APIServer_Stop_spec|done].
  apply (stop_part_spec _ et_processState) in H2 as [Hsh2 Hd2]; [|apply Etcd_Stop_spec|done].
  split; [by transitivity w1|]. intros p [Hp|Hp]; [by apply Hd2|]. intros Hq%(proj1 Hsh2). by eapply Hd1.
Qed.

(** What a start of the control plane starts is told apart as the current
    process of its etcd or its API server, also when the start fails; so a stop
    that returns no error leaves none of it running.  But a second start, as
    the environment does when the first one fails, makes a new process for
    etcd and does not stop the one of the first, which is then no one's: no
    stop will end it. *)
Theorem control_plane_processes f w f1 w1 err :
  plane_once f → ControlPlane_Start Execute_etcd Execute_api f w = Returned (f1, w1, err) →
  (∀ w2 f3 w3, shrinks w1 w2 → ControlPlane_Stop f1 w2 = Returned (f3, w3, None) → ∀ q, alive w3 q → alive w q)
  ∧ (∀ w2 f2 w3 err2, shrinks w1 w2 → ControlPlane_Start Execute_etcd Execute_api f1 w2 = Returned (f2, w3, err2) →
       ∀ q, tracks (etcd_state f1) q → ¬ tracks (etcd_state f2) q).
Proof.
  intros Hf Hstart. apply ControlPlane_Start_spec in Hstart as (Hf1 & Hal & Hnew1 & _ & _ & _); [|done]. split.
  - intros w2 f3 w3 Hsh [Hsh3 Hdead]%ControlPlane_Stop_spec; [|done]. intros q Hq.
    destruct (Hal q) as [?|Ht]; [by apply Hsh, Hsh3|done|]. by destruct (Hdead q Ht).
  - intros w2 f2 w3 err2 Hsh (_ & _ & Hnew & _)%ControlPlane_Start_spec q Hq Hq2; [|done].
    apply (Hnew q); [done|]. by apply Hsh, Hnew1.
Qed.
End facts.
