(* ===== verification/Objects.v ===== *)
(** * Kubernetes objects as the modelled code sees them

    The data every component shares: keys and requests, group-version-kinds,
    owner references, object metadata, objects ([client.Object] in
    src/pkg/client/object.go), and the lookup of an object's kind
    (src/pkg/client/apiutil/apimachinery.go).  Machinery outside the repository
    ([metav1], [schema], [runtime.Scheme], [meta.RESTMapper]) appears as
    the values of the classes and records below, never as a definition. *)

From S2P Require Export Prelude.

(** [types.NamespacedName], which [client.ObjectKey] and [reconcile.Request] wrap. *)
Record NamespacedName := mkNN { nn_Namespace : string; nn_Name : string }.

#[export] Instance NamespacedName_eq_dec : EqDecision NamespacedName.
Proof. solve_decision. Defined.

#[export] Instance NamespacedName_countable : Countable NamespacedName.
Proof.
  refine (inj_countable' (λ n, (nn_Namespace n, nn_Name n)) (λ p, mkNN p.1 p.2) _).
  by intros [].
Defined.

(** [reconcile.Request] embeds a [types.NamespacedName] and nothing else. *)
Definition Request : Type := NamespacedName.

#[export] Instance Request_eq_dec : EqDecision Request := NamespacedName_eq_dec.
#[export] Instance Request_countable : Countable Request := NamespacedName_countable.

(** [reconcile.Result]; [RequeueAfter] is a [time.Duration] in nanoseconds. *)
Record ReconcileResult := mkResult { r_Requeue : bool; r_RequeueAfter : Z }.

#[export] Instance ReconcileResult_eq_dec : EqDecision ReconcileResult.
Proof. solve_decision. Defined.

(** [Result.IsZero]; the receiver is a pointer, [None] when nil. *)
Definition Result_IsZero (r : option ReconcileResult) : bool :=
  match r with
  | None => true
  | Some r => bool_decide (r = mkResult false 0)
  end.

Record GroupVersion := mkGV { gv_Group : string; gv_Version : string }.
Record GroupKind := mkGK { gk_Group : string; gk_Kind : string }.
Record GVK := mkGVK { gvk_Group : string; gvk_Version : string; gvk_Kind : string }.

#[export] Instance GroupVersion_eq_dec : EqDecision GroupVersion.
Proof. solve_decision. Defined.
#[export] Instance GroupKind_eq_dec : EqDecision GroupKind.
Proof. solve_decision. Defined.
#[export] Instance GVK_eq_dec : EqDecision GVK.
Proof. solve_decision. Defined.
#[export] Instance GroupVersion_countable : Countable GroupVersion.
Proof. by refine (inj_countable' (λ g, (gv_Group g, gv_Version g)) (λ p, mkGV p.1 p.2) _); intros []. Defined.
#[export] Instance GroupKind_countable : Countable GroupKind.
Proof. by refine (inj_countable' (λ g, (gk_Group g, gk_Kind g)) (λ p, mkGK p.1 p.2) _); intros []. Defined.
#[export] Instance GVK_countable : Countable GVK.
Proof.
  refine (inj_countable' (λ g, (gvk_Group g, gvk_Version g, gvk_Kind g))
            (λ p, mkGVK p.1.1 p.1.2 p.2) _).
  by intros [].
Defined.

Definition gvk_GroupVersion (g : GVK) : GroupVersion := mkGV (gvk_Group g) (gvk_Version g).
Definition gvk_GroupKind (g : GVK) : GroupKind := mkGK (gvk_Group g) (gvk_Kind g).

(** apimachinery's [GroupKind.String]. *)
Definition GroupKind_String (gk : GroupKind) : string :=
  if decide (gk_Group gk = "") then gk_Kind gk else gk_Kind gk +:+ "." +:+ gk_Group gk.

(** [metav1.OwnerReference]; the two flags are [*bool]. *)
Record OwnerReference := mkOwnerRef {
  or_APIVersion : string;
  or_Kind : string;
  or_Name : string;
  or_UID : string;
  or_Controller : option bool;
  or_BlockOwnerDeletion : option bool;
}.

#[export] Instance OwnerReference_eq_dec : EqDecision OwnerReference.
Proof. solve_decision. Defined.

(** What [metav1.Object] gives access to.  A [map[string]string] is [None]
    when nil, which [reflect.DeepEqual] tells apart from an empty map; a
    deletion timestamp is [None] when nil or the zero time. *)
Record ObjectMeta := mkMeta {
  m_Namespace : string;
  m_Name : string;
  m_GenerateName : string;
  m_UID : string;
  m_ResourceVersion : string;
  m_Generation : Z;
  m_DeletionTimestamp : option Z;
  m_Finalizers : list string;
  m_OwnerReferences : list OwnerReference;
  m_Labels : option (gmap string string);
  m_Annotations : option (gmap string string);
}.

#[export] Instance ObjectMeta_eq_dec : EqDecision ObjectMeta.
Proof. solve_decision. Defined.

(** The Go type behind a [runtime.Object] interface value. *)
Inductive GoType :=
  | Typed (name : string)
  | Unstructured
  | UnstructuredList
  | PartialObjectMetadata
  | PartialObjectMetadataList.

#[export] Instance GoType_eq_dec : EqDecision GoType.
Proof. solve_decision. Defined.

(** [client.Object]: its Go type, the kind it carries itself
    ([GetObjectKind]), its metadata, and the rest of its content, which no
    modelled function looks into. *)
Record Object := mkObject {
  o_type : GoType;
  o_gvk : GVK;
  o_meta : ObjectMeta;
  o_body : string;
}.

#[export] Instance Object_eq_dec : EqDecision Object.
Proof. solve_decision. Defined.

Definition GetNamespace (o : Object) : string := m_Namespace (o_meta o).
Definition GetName (o : Object) : string := m_Name (o_meta o).
Definition GetGenerateName (o : Object) : string := m_GenerateName (o_meta o).
Definition GetUID (o : Object) : string := m_UID (o_meta o).
Definition GetResourceVersion (o : Object) : string := m_ResourceVersion (o_meta o).
Definition GetGeneration (o : Object) : Z := m_Generation (o_meta o).
Definition GetDeletionTimestamp (o : Object) : option Z := m_DeletionTimestamp (o_meta o).
Definition GetFinalizers (o : Object) : list string := m_Finalizers (o_meta o).
Definition GetOwnerReferences (o : Object) : list OwnerReference := m_OwnerReferences (o_meta o).
Definition GetLabels (o : Object) : option (gmap string string) := m_Labels (o_meta o).
Definition GetAnnotations (o : Object) : option (gmap string string) := m_Annotations (o_meta o).

Definition with_meta (f : ObjectMeta → ObjectMeta) (o : Object) : Object :=
  mkObject (o_type o) (o_gvk o) (f (o_meta o)) (o_body o).

Definition SetNamespace (ns : string) : Object → Object := with_meta (λ m,
  mkMeta ns (m_Name m) (m_GenerateName m) (m_UID m) (m_ResourceVersion m) (m_Generation m)
    (m_DeletionTimestamp m) (m_Finalizers m) (m_OwnerReferences m) (m_Labels m) (m_Annotations m)).
Definition SetName (n : string) : Object → Object := with_meta (λ m,
  mkMeta (m_Namespace m) n (m_GenerateName m) (m_UID m) (m_ResourceVersion m) (m_Generation m)
    (m_DeletionTimestamp m) (m_Finalizers m) (m_OwnerReferences m) (m_Labels m) (m_Annotations m)).
Definition SetResourceVersion (rv : string) : Object → Object := with_meta (λ m,
  mkMeta (m_Namespace m) (m_Name m) (m_GenerateName m) (m_UID m) rv (m_Generation m)
    (m_DeletionTimestamp m) (m_Finalizers m) (m_OwnerReferences m) (m_Labels m) (m_Annotations m)).
Definition SetDeletionTimestamp (t : option Z) : Object → Object := with_meta (λ m,
  mkMeta (m_Namespace m) (m_Name m) (m_GenerateName m) (m_UID m) (m_ResourceVersion m) (m_Generation m)
    t (m_Finalizers m) (m_OwnerReferences m) (m_Labels m) (m_Annotations m)).
Definition SetFinalizers (f : list string) : Object → Object := with_meta (λ m,
  mkMeta (m_Namespace m) (m_Name m) (m_GenerateName m) (m_UID m) (m_ResourceVersion m) (m_Generation m)
    (m_DeletionTimestamp m) f (m_OwnerReferences m) (m_Labels m) (m_Annotations m)).
Definition SetOwnerReferences (rs : list OwnerReference) : Object → Object := with_meta (λ m,
  mkMeta (m_Namespace m) (m_Name m) (m_GenerateName m) (m_UID m) (m_ResourceVersion m) (m_Generation m)
    (m_DeletionTimestamp m) (m_Finalizers m) rs (m_Labels m) (m_Annotations m)).
Definition SetGroupVersionKind (g : GVK) (o : Object) : Object :=
  mkObject (o_type o) g (o_meta o) (o_body o).

#[global] Arguments GetNamespace : simpl never.
#[global] Arguments GetName : simpl never.
#[global] Arguments GetGenerateName : simpl never.
#[global] Arguments GetUID : simpl never.
#[global] Arguments GetResourceVersion : simpl never.
#[global] Arguments GetGeneration : simpl never.
#[global] Arguments GetDeletionTimestamp : simpl never.
#[global] Arguments GetFinalizers : simpl never.
#[global] Arguments GetOwnerReferences : simpl never.
#[global] Arguments GetLabels : simpl never.
#[global] Arguments GetAnnotations : simpl never.
#[global] Arguments SetNamespace : simpl never.
#[global] Arguments SetName : simpl never.
#[global] Arguments SetResourceVersion : simpl never.
#[global] Arguments SetDeletionTimestamp : simpl never.
#[global] Arguments SetFinalizers : simpl never.
#[global] Arguments SetOwnerReferences : simpl never.

(** [client.ObjectKeyFromObject]. *)
Definition ObjectKeyFromObject (obj : Object) : NamespacedName :=
  mkNN (GetNamespace obj) (GetName obj).

(** [client.ObjectList]: a list object and its items. *)
Record ObjectList := mkList {
  ol_type : GoType;
  ol_gvk : GVK;
  ol_items : list Object;
}.

(** ** Machinery outside the repository *)

(** A [*runtime.Scheme]: the methods the code calls. *)
Record Scheme := {
  sch_ObjectKinds : GoType → GVK → result (list GVK * bool);
  sch_Recognizes : GVK → bool;
}.

(** [meta.RESTScopeName]: the values the code tells apart. *)
Inductive RESTScopeName := ScopeEmpty | ScopeRoot | ScopeOther (name : string).

#[export] Instance RESTScopeName_eq_dec : EqDecision RESTScopeName.
Proof. solve_decision. Defined.

(** A [meta.RESTMapper]; a mapping is given by the name of its scope. *)
Record RESTMapper := { rm_RESTMapping : GroupKind → list string → result RESTScopeName }.

(** Functions of [k8s.io/apimachinery] on owner references. *)
Class MetaV1 := {
  ParseGroupVersion : string → result GroupVersion;
  gv_String : GroupVersion → string;
  GetControllerOf : Object → option OwnerReference;
}.

Definition is_controller_ref (r : OwnerReference) : bool :=
  match or_Controller r with Some b => b | None => false end.

(** Their documented behaviour: [GetControllerOf] returns (a copy of) the
    reference of the controller if the object has one. *)
Class MetaV1Laws `{MetaV1} := {
  GetControllerOf_Some : ∀ o r,
    GetControllerOf o = Some r → r ∈ GetOwnerReferences o ∧ is_controller_ref r = true;
  GetControllerOf_None : ∀ o,
    GetControllerOf o = None ↔ Forall (λ r, is_controller_ref r = false) (GetOwnerReferences o);
}.

(** ** [apiutil.GVKForObject] *)

Definition GVKForObject_of (t : GoType) (own : GVK) (scheme : Scheme) : result GVK :=
  match t with
  | PartialObjectMetadata | PartialObjectMetadataList =>
      if decide (gvk_Kind own = "") then Err (ErrorString "unstructured object has no kind")
      else if decide (gvk_Version own = "") then Err (ErrorString "unstructured object has no version")
      else Ok own
  | _ =>
      '(gvks, isUnversioned) ← sch_ObjectKinds scheme t own;
      if (isUnversioned : bool) then
        Err (ErrorString "cannot create group-version-kind for unversioned type")
      else match gvks with
      | [] => Err (ErrorString "no group-version-kinds associated with type")
      | [g] => Ok g
      | _ => Err (ErrorString "multiple group-version-kinds associated with type, refusing to guess at one")
      end
  end.

Definition GVKForObject (obj : Object) (scheme : Scheme) : result GVK :=
  GVKForObject_of (o_type obj) (o_gvk obj) scheme.

Definition GVKForList (l : ObjectList) (scheme : Scheme) : result GVK :=
  GVKForObject_of (ol_type l) (ol_gvk l) scheme.

(** A returned kind is one the scheme knows for the type, or for partial
    metadata the kind the object carries; in that case it is not empty. *)
Lemma GVKForObject_of_Ok t own scheme g :
  GVKForObject_of t own scheme = Ok g →
  (g = own ∧ gvk_Kind g ≠ "" ∧ gvk_Version g ≠ "") ∨ sch_ObjectKinds scheme t own = Ok ([g], false).
Proof.
  unfold GVKForObject_of. destruct t;
    try (intros ([gs u] & ? & ?)%result_bind_Ok; case_all; by right);
    intros ?; case_all; by left.
Qed.

(** ** Getters after setters *)

Section accessors.
Implicit Types o : Object.

Lemma ObjectKey_SetResourceVersion rv o :
  ObjectKeyFromObject (SetResourceVersion rv o) = ObjectKeyFromObject o.
Proof. done. Qed.
Lemma GetFinalizers_SetFinalizers f o : GetFinalizers (SetFinalizers f o) = f.
Proof. done. Qed.
Lemma SetFinalizers_SetFinalizers f g o :
  SetFinalizers f (SetFinalizers g o) = SetFinalizers f o.
Proof. done. Qed.
Lemma SetFinalizers_id o : SetFinalizers (GetFinalizers o) o = o.
Proof. by destruct o as [? ? []]. Qed.
Lemma GetOwnerReferences_Set rs o : GetOwnerReferences (SetOwnerReferences rs o) = rs.
Proof. done. Qed.
Lemma SetOwnerReferences_twice rs rs' o :
  SetOwnerReferences rs (SetOwnerReferences rs' o) = SetOwnerReferences rs o.
Proof. done. Qed.
Lemma SetResourceVersion_twice rv rv' o :
  SetResourceVersion rv (SetResourceVersion rv' o) = SetResourceVersion rv o.
Proof. done. Qed.
End accessors.

Create Rewrite HintDb accessors.
#[export] Hint Rewrite GetFinalizers_SetFinalizers SetFinalizers_SetFinalizers
  GetOwnerReferences_Set SetOwnerReferences_twice SetResourceVersion_twice : accessors.

(** An object with the given key and nothing else, for concrete inputs. *)
Definition bare_meta (ns name : string) : ObjectMeta :=
  mkMeta ns name "" "" "" 0 None [] [] None None.
Definition bare_object (t : GoType) (g : GVK) (ns name : string) : Object :=
  mkObject t g (bare_meta ns name) "".

Definition empty_GVK : GVK := mkGVK "" "" "".

(** ** HTTP requests, as webhooks read them: whether there is a body, what reading
    it to the end gives, and the content type *)
Record HttpRequest := mkHttpRequest { hr_Body : option (result string); hr_ContentType : string }.
