(* ===== verification/FakeInformers.v ===== *)
(** * Fake informers (src/pkg/cache/informertest, src/pkg/controller/controllertest)

    The caches and informers that tests hand to the code under test, and through
    which they make events.  Informers are shared by pointer, so they are on a heap. *)

From S2P Require Export Objects.

Section fake.
(** Event handlers, the world they act on, and the informers of others. *)
Context {W H Other : Type}.
Variable OnAdd : H → Object → W → W.
Variable OnUpdate : H → Object → Object → W → W.
Variable OnDelete : H → Object → W → W.
(** [scheme.Scheme] of client-go, and [New] of schemes. *)
Variable the_scheme : Scheme.
Variable sch_New : Scheme → GVK → result Object.

(** ** [FakeInformer] (controllertest/util.go) *)

Record FakeInformer := mkFakeInformer {
  fi_Synced : bool;
  fi_RunCount : Z;
  fi_handlers : list H;
}.
Definition new_FakeInformer : FakeInformer := mkFakeInformer false 0 [].

Definition HasSynced (f : FakeInformer) : bool := fi_Synced f.
Definition AddEventHandler (handler : H) (f : FakeInformer) : FakeInformer :=
  mkFakeInformer (fi_Synced f) (fi_RunCount f) (fi_handlers f ++ [handler]).
Definition Run (f : FakeInformer) : FakeInformer := mkFakeInformer (fi_Synced f) (fi_RunCount f + 1) (fi_handlers f).

Definition Add (obj : Object) (f : FakeInformer) (w : W) : W := fold_left (λ w h, OnAdd h obj w) (fi_handlers f) w.
Definition Update (oldObj newObj : Object) (f : FakeInformer) (w : W) : W :=
  fold_left (λ w h, OnUpdate h oldObj newObj w) (fi_handlers f) w.
Definition Delete (obj : Object) (f : FakeInformer) (w : W) : W := fold_left (λ w h, OnDelete h obj w) (fi_handlers f) w.

(** ** [FakeInformers] (informertest/fake_cache.go) *)

(** A [toolscache.SharedIndexInformer]: a fake one at an address, or one of a test's
    own. *)
Inductive Informer := FakeAt (l : nat) | OtherInformer (o : Other).

Record FakeInformers := mkFakeInformers {
  fc_InformersByGVK : option (gmap GVK Informer);
  fc_Scheme : option Scheme;
  fc_Error : option error;
  fc_Synced : option bool;
}.

(** The informers at their addresses. *)
Abbreviation Heap := (gmap nat FakeInformer).
Implicit Types (c : FakeInformers) (h : Heap).

Definition informerFor (gvk : GVK) c h : FakeInformers * Heap * result Informer :=
  match fc_Error c with
  | Some err => (c, h, Err err)
  | None =>
      let m := default ∅ (fc_InformersByGVK c) in
      match m !! gvk with
      | Some informer => (mkFakeInformers (Some m) (fc_Scheme c) (fc_Error c) (fc_Synced c), h, Ok informer)
      | None =>
          let l := fresh (dom h) in
          (mkFakeInformers (Some (<[gvk := FakeAt l]> m)) (fc_Scheme c) (fc_Error c) (fc_Synced c),
           <[l := new_FakeInformer]> h, Ok (FakeAt l))
      end
  end.

Definition default_scheme c : FakeInformers :=
  match fc_Scheme c with
  | Some _ => c
  | None => mkFakeInformers (fc_InformersByGVK c) (Some the_scheme) (fc_Error c) (fc_Synced c)
  end.
Definition scheme_of c : Scheme := default the_scheme (fc_Scheme c).

Definition GetInformerForKind (gvk : GVK) c h : FakeInformers * Heap * result Informer :=
  let c := default_scheme c in
  match sch_New (scheme_of c) gvk with
  | Err err => (c, h, Err err)
  | Ok obj => informerFor gvk c h
  end.

(** The kinds are never empty when there is no error. *)
Definition GetInformer (obj : Object) c h : outcome (FakeInformers * Heap * result Informer) :=
  let c := default_scheme c in
  match sch_ObjectKinds (scheme_of c) (o_type obj) (o_gvk obj) with
  | Err err => Returned (c, h, Err err)
  | Ok ([], _) => Panicked "index out of range"
  | Ok (gvk :: _, _) => Returned (informerFor gvk c h)
  end.

(** [i.( *controllertest.FakeInformer)]. *)
Definition as_fake (r : FakeInformers * Heap * result Informer) : outcome (FakeInformers * Heap * result nat) :=
  match r with
  | (c, h, Err err) => Returned (c, h, Err err)
  | (c, h, Ok (FakeAt l)) => Returned (c, h, Ok l)
  | (c, h, Ok (OtherInformer _)) => Panicked "interface conversion"
  end.

Definition FakeInformerForKind (gvk : GVK) c h : outcome (FakeInformers * Heap * result nat) :=
  as_fake (GetInformerForKind gvk c h).

Definition FakeInformerFor (obj : Object) c h : outcome (FakeInformers * Heap * result nat) :=
  r ← GetInformer obj c h; as_fake r.

Definition WaitForCacheSync c : bool := default true (fc_Synced c).
Definition Start c : option error := fc_Error c.

(** The calls on an informer at an address. *)
Definition on_informer (l : nat) (f : FakeInformer → FakeInformer) h : Heap := alter f l h.

(** ** Events of a test reach the code under test *)

(** The map points to informers that exist, different ones for different kinds. *)
Definition informers_ok c h : Prop :=
  ∀ gvk l, default ∅ (fc_InformersByGVK c) !! gvk = Some (FakeAt l) →
    is_Some (h !! l) ∧ ∀ gvk', default ∅ (fc_InformersByGVK c) !! gvk' = Some (FakeAt l) → gvk' = gvk.

(** Asking again for the informer of a kind gives the same one, and changes nothing. *)
Lemma informerFor_spec gvk c h c' h' r :
  informers_ok c h → informerFor gvk c h = (c', h', r) →
  informers_ok c' h' ∧ fc_Scheme c' = fc_Scheme c ∧ h ⊆ h'
  ∧ match r with
    | Err err => fc_Error c = Some err ∧ c' = c ∧ h' = h
    | Ok i => fc_Error c = None ∧ default ∅ (fc_InformersByGVK c') !! gvk = Some i ∧ informerFor gvk c' h' = (c', h', Ok i)
    end.
Proof.
  intros Hok. unfold informerFor. destruct (fc_Error c) as [err|] eqn:He; [by intros [= <- <- <-]|].
  destruct (default ∅ (fc_InformersByGVK c) !! gvk) as [i|] eqn:Hi; intros [= <- <- <-]; cbn.
  - split_and!; try done. by rewrite Hi.
  - set (l := fresh (dom h)). assert (h !! l = None) as Hl by apply not_elem_of_dom, is_fresh.
    split_and!; [|done|by apply insert_subseteq|done|by apply lookup_insert_eq|by rewrite lookup_insert_eq].
    intros gvk' l' Hl'. cbn in *. apply lookup_insert_Some in Hl' as [[<- [= <-]]|[Hne Hl']].
    + split; [rewrite lookup_insert_eq; by eexists|]. intros gvk' [[<- _]|[_ Hg]]%lookup_insert_Some; [done|].
      destruct (Hok _ _ Hg) as [[? ?] _]. congruence.
    + destruct (Hok _ _ Hl') as [Hsome Huniq]. split.
      * rewrite lookup_insert_ne; [done|]. intros <-. rewrite Hl in Hsome. by destruct Hsome.
      * intros gvk'' [[<- [= <-]]|[_ Hg]]%lookup_insert_Some; [rewrite Hl in Hsome; by destruct Hsome|by apply Huniq].
Qed.

(** The code under test asks for the informer of an object and adds a handler; the
    test asks for that of its kind, and gets the same, with the handler: the events
    it makes reach the handlers in the order in which they were added. *)
Theorem fake_events_reach_handlers obj gvk gvks u new c h handler :
  informers_ok c h → fc_Error c = None →
  sch_ObjectKinds (scheme_of c) (o_type obj) (o_gvk obj) = Ok (gvk :: gvks, u) → sch_New (scheme_of c) gvk = Ok new →
  (∀ o, default ∅ (fc_InformersByGVK c) !! gvk ≠ Some (OtherInformer o)) →
  ∃ c1 h1 l, GetInformer obj c h = Returned (c1, h1, Ok (FakeAt l))
    ∧ let h2 := on_informer l (AddEventHandler handler) h1 in
      FakeInformerForKind gvk c1 h2 = Returned (c1, h2, Ok l) ∧ FakeInformerFor obj c1 h2 = Returned (c1, h2, Ok l)
      ∧ ∃ f1 f2, h1 !! l = Some f1 ∧ h2 !! l = Some f2
          ∧ (∀ o w, Add o f2 w = OnAdd handler o (Add o f1 w))
          ∧ (∀ o o' w, Update o o' f2 w = OnUpdate handler o o' (Update o o' f1 w))
          ∧ (∀ o w, Delete o f2 w = OnDelete handler o (Delete o f1 w)).
Proof.
  intros Hok He Hkinds Hnew Hfake.
  set (c0 := default_scheme c).
  assert (fc_InformersByGVK c0 = fc_InformersByGVK c ∧ fc_Error c0 = None ∧ scheme_of c0 = scheme_of c
          ∧ fc_Scheme c0 = Some (scheme_of c)) as (Hm & He' & Hs & Hsome)
    by (unfold c0, default_scheme, scheme_of; destruct (fc_Scheme c) eqn:Hsch; cbn; by rewrite ?Hsch).
  assert (informers_ok c0 h) as Hok' by (unfold informers_ok; by rewrite Hm).
  destruct (informerFor gvk c0 h) as [[c1 h1] r] eqn:Hi.
  destruct (informerFor_spec _ _ _ _ _ _ Hok' Hi) as (_ & Hs1 & Hsub & Hr).
  destruct r as [i|err]; [|destruct Hr as (? & _); congruence]. destruct Hr as (_ & Hgvk & Hagain).
  assert (∃ l, i = FakeAt l ∧ is_Some (h1 !! l)) as (l & -> & [f1 Hf1]).
  { unfold informerFor in Hi. rewrite He', Hm in Hi. destruct (default ∅ (fc_InformersByGVK c) !! gvk) as [[l|o]|] eqn:Hl.
    - injection Hi as <- <- <-. exists l. split; [done|]. by apply (Hok gvk).
    - by destruct (Hfake o).
    - injection Hi as <- <- <-. eexists. split; [done|]. rewrite lookup_insert_eq. by eexists. }
  assert (default_scheme c1 = c1) as Hd1 by (unfold default_scheme; by rewrite Hs1, Hsome).
  assert (scheme_of c1 = scheme_of c) as Hs1' by (unfold scheme_of; by rewrite Hs1, Hsome).
  assert (∀ h', informerFor gvk c1 h' = (c1, h', Ok (FakeAt l))) as Hsame.
  { intros h'. unfold informerFor in *. destruct (fc_Error c1); [done|]. rewrite Hgvk in *. by injection Hagain as ->. }
  assert (∀ h', GetInformer obj c1 h' = Returned (c1, h', Ok (FakeAt l))) as Hget
    by (intros h'; unfold GetInformer; by rewrite Hd1, Hs1', Hkinds, Hsame).
  exists c1, h1, l. split; [unfold GetInformer; fold c0; by rewrite Hs, Hkinds, Hi|]. cbn zeta.
  set (h2 := on_informer l (AddEventHandler handler) h1). split_and!.
  - unfold FakeInformerForKind, GetInformerForKind. by rewrite Hd1, Hs1', Hnew, Hsame.
  - unfold FakeInformerFor. by rewrite Hget.
  - exists f1, (AddEventHandler handler f1). split; [done|]. split; [unfold h2, on_informer; by rewrite lookup_alter_eq, Hf1|].
    unfold Add, Update, Delete. cbn. split_and!; intros; by rewrite fold_left_app.
Qed.
End fake.

(** ** At a concrete input *)

Definition fake_scheme : Scheme :=
  {| sch_ObjectKinds := λ t _, match t with Typed k => Ok ([mkGVK "" "v1" k], false) | _ => Err (ErrorString "not registered") end;
     sch_Recognizes := λ _, true |}.
Definition fake_pod : Object := mkObject (Typed "Pod") empty_GVK (mkMeta "ns" "a" "" "" "" 0 None [] [] None None) "".
Definition no_informers : FakeInformers (Other := unit) := mkFakeInformers None None None None.

(** The handler notes the names of what is added. *)
Definition note (h : string) (o : Object) (w : list string) : list string := w ++ [(h +:+ GetName o)%string].

Lemma fake_events_reach_handlers_witness :
  ∃ c1 h1 l, GetInformer fake_scheme fake_pod no_informers (∅ : gmap nat (FakeInformer (H := string)))
               = Returned (c1, h1, Ok (FakeAt l))
    ∧ ∃ f2, on_informer l (AddEventHandler "saw ") h1 !! l = Some f2 ∧ Add note fake_pod f2 [] = ["saw a"].
Proof.
  destruct (fake_events_reach_handlers note (λ h _ o, note h o) note fake_scheme (λ _ _, Ok fake_pod) fake_pod
              (mkGVK "" "v1" "Pod") [] false fake_pod no_informers ∅ "saw ")
    as (c1 & h1 & l & Hg & _ & _ & f1 & f2 & Hf1 & Hf2 & Hadd & _).
  - by intros gvk l.
  - done.
  - done.
  - done.
  - done.
  - exists c1, h1, l. split; [exact Hg|]. exists f2. split; [exact Hf2|]. rewrite Hadd.
    vm_compute in Hg. injection Hg as <- <- <-. vm_compute in Hf1. injection Hf1 as <-. reflexivity.
Defined.
