(* ===== verification/ZapOptions.v ===== *)
(** * Setting up zap (src/pkg/log/zap: zap.go, flags.go, kube_helpers.go)

    The options a zap logger is made from, with their defaults and their flags,
    and the encoder that prints Kubernetes objects in short.  What zap gets in
    the end are the arguments of its constructors; zap itself is a parameter. *)

From Stdlib Require Import Ascii.
From S2P Require Export Objects.

Section zap.
(** Configurations of encoders, encoders, writers, level enablers and options
    of zap. *)
Context {Config Encoder Writer Enabler ZapOpt : Type}.

Class ZapLib := {
  NewProductionEncoderConfig : Config;
  NewDevelopmentEncoderConfig : Config;
  zapcore_NewJSONEncoder : Config → Encoder;
  zapcore_NewConsoleEncoder : Config → Encoder;
  (** Levels are of type [int8]. *)
  DebugLevel : Z;
  InfoLevel : Z;
  WarnLevel : Z;
  ErrorLevel : Z;
  PanicLevel : Z;
  NewAtomicLevelAt : Z → Enabler;
  Enabled : Enabler → Z → bool;
  zap_Development : ZapOpt;
  zap_AddStacktrace : Enabler → ZapOpt;
  (** [WrapCore] with a sampler of 100 messages a second. *)
  zap_WrapSampler : ZapOpt;
  zap_AddCallerSkip : Z → ZapOpt;
  zap_ErrorOutput : Writer → ZapOpt;
  os_Stderr : Writer;
  AddSync : Writer → Writer;
}.

Context `{!ZapLib}.

(** ** Options *)

Abbreviation EncoderConfigOption := (Config → Config).
Abbreviation NewEncoderFunc := (list EncoderConfigOption → Encoder).

Definition newJSONEncoder : NewEncoderFunc := λ opts,
  zapcore_NewJSONEncoder (foldl (λ c (opt : EncoderConfigOption), opt c) NewProductionEncoderConfig opts).
Definition newConsoleEncoder : NewEncoderFunc := λ opts,
  zapcore_NewConsoleEncoder (foldl (λ c (opt : EncoderConfigOption), opt c) NewDevelopmentEncoderConfig opts).

Record ZapOptions := mkZapOptions {
  zo_Development : bool;
  zo_Encoder : option Encoder;
  zo_EncoderConfigOptions : list EncoderConfigOption;
  zo_NewEncoder : option NewEncoderFunc;
  zo_DestWriter : option Writer;
  zo_DestWritter : option Writer;
  zo_Level : option Enabler;
  zo_StacktraceLevel : option Enabler;
  zo_ZapOpts : list ZapOpt;
}.

Definition no_options : ZapOptions := mkZapOptions false None [] None None None None None [].

(** An [Opts]: a change of the options. *)
Definition Opts : Type := ZapOptions → ZapOptions.

Definition UseDevMode (enabled : bool) : Opts := λ o,
  mkZapOptions enabled (zo_Encoder o) (zo_EncoderConfigOptions o) (zo_NewEncoder o) (zo_DestWriter o)
    (zo_DestWritter o) (zo_Level o) (zo_StacktraceLevel o) (zo_ZapOpts o).
Definition WriteTo (out : Writer) : Opts := λ o,
  mkZapOptions (zo_Development o) (zo_Encoder o) (zo_EncoderConfigOptions o) (zo_NewEncoder o) (Some out)
    (zo_DestWritter o) (zo_Level o) (zo_StacktraceLevel o) (zo_ZapOpts o).
Definition UseEncoder (encoder : Encoder) : Opts := λ o,
  mkZapOptions (zo_Development o) (Some encoder) (zo_EncoderConfigOptions o) (zo_NewEncoder o) (zo_DestWriter o)
    (zo_DestWritter o) (zo_Level o) (zo_StacktraceLevel o) (zo_ZapOpts o).
Definition JSONEncoder (opts : list EncoderConfigOption) : Opts := UseEncoder (newJSONEncoder opts).
Definition ConsoleEncoder (opts : list EncoderConfigOption) : Opts := UseEncoder (newConsoleEncoder opts).
Definition UseNewEncoder (f : NewEncoderFunc) : Opts := λ o,
  mkZapOptions (zo_Development o) (zo_Encoder o) (zo_EncoderConfigOptions o) (Some f) (zo_DestWriter o)
    (zo_DestWritter o) (zo_Level o) (zo_StacktraceLevel o) (zo_ZapOpts o).
Definition Level (level : Enabler) : Opts := λ o,
  mkZapOptions (zo_Development o) (zo_Encoder o) (zo_EncoderConfigOptions o) (zo_NewEncoder o) (zo_DestWriter o)
    (zo_DestWritter o) (Some level) (zo_StacktraceLevel o) (zo_ZapOpts o).
Definition StacktraceLevel (stacktraceLevel : Enabler) : Opts := λ o,
  mkZapOptions (zo_Development o) (zo_Encoder o) (zo_EncoderConfigOptions o) (zo_NewEncoder o) (zo_DestWriter o)
    (zo_DestWritter o) (zo_Level o) (Some stacktraceLevel) (zo_ZapOpts o).
Definition RawZapOpts (zapOpts : list ZapOpt) : Opts := λ o,
  mkZapOptions (zo_Development o) (zo_Encoder o) (zo_EncoderConfigOptions o) (zo_NewEncoder o) (zo_DestWriter o)
    (zo_DestWritter o) (zo_Level o) (zo_StacktraceLevel o) (zo_ZapOpts o ++ zapOpts).

(** [*o = *in] *)
Definition UseFlagOptions (in_ : ZapOptions) : Opts := λ _, in_.

(** ** Defaults *)

(** The writers, at the start of [addDefaults]. *)
Definition default_writer (o : ZapOptions) : ZapOptions :=
  match zo_DestWriter o, zo_DestWritter o with
  | None, None => WriteTo os_Stderr o
  | None, Some w => WriteTo w o
  | Some _, _ => o
  end.

Definition default_NewEncoder (f : NewEncoderFunc) (o : ZapOptions) : ZapOptions :=
  match zo_NewEncoder o with None => UseNewEncoder f o | Some _ => o end.
Definition default_Level (lvl : Z) (o : ZapOptions) : ZapOptions :=
  match zo_Level o with None => Level (NewAtomicLevelAt lvl) o | Some _ => o end.
Definition default_StacktraceLevel (lvl : Z) (o : ZapOptions) : ZapOptions :=
  match zo_StacktraceLevel o with None => StacktraceLevel (NewAtomicLevelAt lvl) o | Some _ => o end.

(** The level and the constructor of encoders are set when these are called. *)
Definition level_enabled (o : ZapOptions) (lvl : Z) : bool :=
  match zo_Level o with Some level => Enabled level lvl | None => false end.
Definition default_Encoder (o : ZapOptions) : ZapOptions :=
  match zo_Encoder o, zo_NewEncoder o with
  | None, Some f => UseEncoder (f (zo_EncoderConfigOptions o)) o
  | _, _ => o
  end.
Definition add_stacktrace (o : ZapOptions) : ZapOptions :=
  match zo_StacktraceLevel o with Some lvl => RawZapOpts [zap_AddStacktrace lvl] o | None => o end.

Definition addDefaults (o : ZapOptions) : ZapOptions :=
  let o := default_writer o in
  let o :=
    if zo_Development o then
      let o := default_NewEncoder newConsoleEncoder o in
      let o := default_Level DebugLevel o in
      let o := default_StacktraceLevel WarnLevel o in
      RawZapOpts [zap_Development] o
    else
      let o := default_NewEncoder newJSONEncoder o in
      let o := default_Level InfoLevel o in
      let o := default_StacktraceLevel ErrorLevel o in
      if level_enabled o (-2) then o else RawZapOpts [zap_WrapSampler] o in
  let o := default_Encoder o in
  add_stacktrace o.

(** ** The encoder *)

Record KubeAwareEncoder := mkKAE { ke_Encoder : Encoder; ke_Verbose : bool }.

(** ** What zap gets: the core of [zap.New] and the options of [WithOptions] *)

Record RawLogger := mkRaw {
  rl_Encoder : option KubeAwareEncoder;
  rl_Sink : option Writer;
  rl_Level : option Enabler;
  rl_Options : list ZapOpt;
}.

Definition NewRaw (opts : list Opts) : RawLogger :=
  let o := foldl (λ o (opt : Opts), opt o) no_options opts in
  let o := addDefaults o in
  let sink := AddSync <$> zo_DestWriter o in
  let o := RawZapOpts ([zap_AddCallerSkip 1] ++ (zap_ErrorOutput <$> option_list sink)) o in
  mkRaw ((λ e, mkKAE e (zo_Development o)) <$> zo_Encoder o) sink (zo_Level o) (zo_ZapOpts o).

(** ** Flags *)

(** A conversion of an [int] to an [int8]. *)
Definition to_int8 (z : Z) : Z := ((z + 128) mod 256 - 128)%Z.

Definition levelStrings : gmap string Z :=
  {[ "debug" := DebugLevel; "info" := InfoLevel; "error" := ErrorLevel ]}.
Definition stackLevelStrings : gmap string Z :=
  {[ "info" := InfoLevel; "error" := ErrorLevel; "panic" := PanicLevel ]}.

Definition quoted_error (msg value : string) : error :=
  ErrorString (msg +:+ " " +:+ quoted value).

Definition encoderFlag_Set (flagValue : string) (o : ZapOptions) : result ZapOptions :=
  let val := ToLower flagValue in
  if decide (val = "json") then Ok (UseNewEncoder newJSONEncoder o)
  else if decide (val = "console") then Ok (UseNewEncoder newConsoleEncoder o)
  else Err (quoted_error "invalid encoder value" flagValue).

(** The number is negated as an [int] (from 1 to the greatest, so it stays
    one) and cut to an [int8]. *)
Definition levelFlag_Set (flagValue : string) (o : ZapOptions) : result ZapOptions :=
  match levelStrings !! ToLower flagValue with
  | Some level => Ok (Level (NewAtomicLevelAt level) o)
  | None =>
      match Atoi flagValue with
      | None => Err (quoted_error "invalid log level" flagValue)
      | Some logLevel =>
          if decide (0 < logLevel)%Z then
            let intLevel := (-1 * logLevel)%Z in
            Ok (Level (NewAtomicLevelAt (to_int8 intLevel)) o)
          else Err (quoted_error "invalid log level" flagValue)
      end
  end.

Definition stackTraceFlag_Set (flagValue : string) (o : ZapOptions) : result ZapOptions :=
  match stackLevelStrings !! ToLower flagValue with
  | None => Err (quoted_error "invalid stacktrace level" flagValue)
  | Some level => Ok (StacktraceLevel (NewAtomicLevelAt level) o)
  end.

(** The flags [BindFlags] defines: what setting one does to the options.  The
    flag package, with its parsing of booleans, is a parameter; [None] is a
    flag it does not know. *)
Definition BindFlags (ParseBool : string → result bool) (name value : string) (o : ZapOptions)
    : option (result ZapOptions) :=
  if decide (name = "zap-devel") then Some (b ← ParseBool value; Ok (UseDevMode b o))
  else if decide (name = "zap-encoder") then Some (encoderFlag_Set value o)
  else if decide (name = "zap-log-level") then Some (levelFlag_Set value o)
  else if decide (name = "zap-stacktrace-level") then Some (stackTraceFlag_Set value o)
  else None.
End zap.

Arguments KubeAwareEncoder : clear implicits.

(** ** Printing Kubernetes objects (kube_helpers.go) *)

Section kube_encoder.
(** Encoders, entries, encoded text, Kubernetes objects and other values. *)
Context {Encoder Entry Text KObject Other : Type}.

Class KubeObjects := {
  encoder_Clone : Encoder → Encoder;
  ko_gvk : KObject → GVK;
  (** [meta.Accessor]: the namespace and the name. *)
  ko_Accessor : KObject → result (string * string);
  ko_text : KObject → string;
  GroupVersion_String : GroupVersion → string;
}.

Inductive FieldType := StringerType | ReflectType | ObjectMarshalerType | OtherType.

#[export] Instance FieldType_eq_dec : EqDecision FieldType.
Proof. solve_decision. Defined.

(** The interface of a field. *)
Inductive FieldValue :=
  | ValObject (o : KObject)
  | ValNamespacedName (n : NamespacedName)
  | ValOther (x : Other)
  | kubeObjectWrapper (o : KObject)
  | namespacedNameWrapper (n : NamespacedName).

Record Field := mkField { f_Key : string; f_Type : FieldType; f_Interface : FieldValue }.

Context `{!KubeObjects}.

Definition namespacedName_MarshalLogObject (w : NamespacedName) : list (string * string) :=
  (if decide (nn_Namespace w ≠ "") then [("namespace", nn_Namespace w)] else []) ++ [("name", nn_Name w)].

(** What is added to the encoder, also before an error. *)
Definition kubeObject_MarshalLogObject (obj : KObject) : list (string * string) * option error :=
  let gvk := ko_gvk obj in
  let head :=
    if decide (gvk_Version gvk ≠ "")
    then [("apiVersion", GroupVersion_String (gvk_GroupVersion gvk)); ("kind", gvk_Kind gvk)] else [] in
  match ko_Accessor obj with
  | Err _ => (head, Some (ErrorString ("got runtime.Object without object metadata: " +:+ ko_text obj)))
  | Ok (ns, name) =>
      (head ++ (if decide (ns ≠ "") then [("namespace", ns)] else []) ++ [("name", name)], None)
  end.

Definition Clone (k : KubeAwareEncoder Encoder) : KubeAwareEncoder Encoder :=
  mkKAE (encoder_Clone (ke_Encoder k)) false.

Definition intercept (field : Field) : Field :=
  if decide (f_Type field = StringerType ∨ f_Type field = ReflectType) then
    match f_Interface field with
    | ValObject val => mkField (f_Key field) ObjectMarshalerType (kubeObjectWrapper val)
    | ValNamespacedName val => mkField (f_Key field) ObjectMarshalerType (namespacedNameWrapper val)
    | _ => field
    end
  else field.

(** The fields are changed in the slice of the caller, so they are returned. *)
Definition EncodeEntry (encode : Encoder → Entry → list Field → result Text)
    (k : KubeAwareEncoder Encoder) (entry : Entry) (fields : list Field) : list Field * result Text :=
  if ke_Verbose k then (fields, encode (ke_Encoder k) entry fields)
  else let fields := intercept <$> fields in (fields, encode (ke_Encoder k) entry fields).
End kube_encoder.

(** ** Facts *)

Local Open Scope Z_scope.

Lemma to_int8_small z : -128 ≤ z < 128 → to_int8 z = z.
Proof. intros Hz. unfold to_int8. rewrite Z.mod_small by lia. lia. Qed.

Lemma to_int8_range z : -128 ≤ to_int8 z < 128.
Proof. unfold to_int8. pose proof (Z.mod_pos_bound (z + 128) 256 ltac:(lia)). lia. Qed.

Lemma to_int8_periodic z z' : z mod 256 = z' mod 256 → to_int8 z = to_int8 z'.
Proof.
  intros Hz. unfold to_int8. by rewrite <- (Z.add_mod_idemp_l z), <- (Z.add_mod_idemp_l z'), Hz by lia.
Qed.

Lemma mod_opp n n' : n' mod 256 = n mod 256 → (- n) mod 256 = (- n') mod 256.
Proof.
  intros Hn. rewrite (Z.div_mod n 256), (Z.div_mod n' 256), Hn by lia.
  replace (- (256 * (n / 256) + n mod 256)) with (- (n mod 256) + (- (n / 256)) * 256) by lia.
  replace (- (256 * (n' / 256) + n mod 256)) with (- (n mod 256) + (- (n' / 256)) * 256) by lia.
  by rewrite !Z.mod_add by lia.
Qed.

Section facts.
Context {Config Encoder Writer Enabler ZapOpt : Type} `{!ZapLib (Config := Config) (Encoder := Encoder)
  (Writer := Writer) (Enabler := Enabler) (ZapOpt := ZapOpt)}.
Implicit Types o : ZapOptions (Config := Config) (Encoder := Encoder) (Writer := Writer) (Enabler := Enabler) (ZapOpt := ZapOpt).

(** A level enabler lets the levels at or above its own through, as zap's
    documentation of [AtomicLevel] says; a level is an [int8]. *)
Class ZapLevels := {
  Enabled_at l m : -128 ≤ l < 128 → Enabled (NewAtomicLevelAt l) m = (l <=? m);
}.
Context `{!ZapLevels}.

(** A number given as the level of the log stands for verbosity: up to 128
    the messages let through are those of a verbosity not above the number.
    From 129 on the conversion to eight bits wraps around: what is let through
    is what a number between -127 and 128 would let through, so 129 to 255
    silence even plain messages, and 256 is like not verbose at all.  No other
    setting changes, and numbers that are not positive are errors. *)
Theorem levelFlag_wraps value n o :
  levelStrings !! ToLower value = None → Atoi value = Some n →
  (n ≤ 0 → levelFlag_Set value o = Err (quoted_error "invalid log level" value))
  ∧ (0 < n → ∃ lvl, levelFlag_Set value o = Ok (Level lvl o)
      ∧ (n ≤ 128 → ∀ verbosity, Enabled lvl (- verbosity) = (verbosity <=? n))
      ∧ (129 ≤ n ≤ 255 → ∀ verbosity, 0 ≤ verbosity → Enabled lvl (- verbosity) = false)
      ∧ ∀ n', 0 < n' → n' mod 256 = n mod 256 → ∀ verbosity,
          Enabled lvl (- verbosity) = Enabled (NewAtomicLevelAt (to_int8 (- n'))) (- verbosity)).
Proof.
  intros Hname Hn. unfold levelFlag_Set. rewrite Hname, Hn.
  replace (-1 * n) with (- n) by lia. split.
  - intros. by rewrite decide_False by lia.
  - intros Hpos. rewrite decide_True by done. eexists. split; [done|].
    pose proof (to_int8_range (- n)) as Hr. split_and!.
    + intros Hle v. rewrite Enabled_at, to_int8_small by (done || lia).
      destruct (Z.leb_spec v n), (Z.leb_spec (- n) (- v)); lia || done.
    + intros Hle v Hv. rewrite Enabled_at by done. unfold to_int8.
      rewrite (Z.mod_eq (- n + 128) 256) by lia.
      replace ((- n + 128) / 256) with (-1) by (apply Z.div_unique with (256 - n + 128); lia).
      apply Z.leb_gt. lia.
    + intros n' Hn' Hmod v. by rewrite (to_int8_periodic (- n) (- n')) by (by apply mod_opp).
Qed.

(** A logger is never made without an encoder, a sink or a level, and what the
    options set is kept, whatever their order. *)
Lemma NewRaw_complete opts :
  let o := foldl (λ o (opt : Opts), opt o) no_options opts in
  ∃ enc sink lvl,
    rl_Encoder (NewRaw opts) = Some (mkKAE enc (zo_Development o))
    ∧ rl_Sink (NewRaw opts) = Some sink ∧ rl_Level (NewRaw opts) = Some lvl
    ∧ (∀ e, zo_Encoder o = Some e → enc = e)
    ∧ (∀ f, zo_Encoder o = None → zo_NewEncoder o = Some f → enc = f (zo_EncoderConfigOptions o))
    ∧ (∀ w, zo_DestWriter o = Some w → sink = AddSync w)
    ∧ (∀ l, zo_Level o = Some l → lvl = l)
    ∧ ∃ more, rl_Options (NewRaw opts) = zo_ZapOpts o ++ more.
Proof.
  cbn zeta. unfold NewRaw. set (o := foldl _ _ _). generalize o. clear o. unfold addDefaults.
  intros [[] [] ? [] [] [] [] [] ?]; cbn; repeat case_match; cbn;
    do 3 eexists; split_and!; try reflexivity; try (by intros ? [= <-]); try (by intros ? ? [= <-]);
    rewrite <- ?app_assoc; by eexists.
Qed.
End facts.

Section kube_facts.
Context {Encoder Entry Text KObject Other : Type} `{!KubeObjects (Encoder := Encoder) (KObject := KObject)}.
Implicit Types (fields : list (Field (KObject := KObject) (Other := Other))) (k : KubeAwareEncoder Encoder).

(** A field that would be printed by its [String] method or by reflection and
    holds an object or a name. *)
Definition prints_object (f : Field (KObject := KObject) (Other := Other)) : Prop :=
  (f_Type f = StringerType ∨ f_Type f = ReflectType)
  ∧ match f_Interface f with ValObject _ | ValNamespacedName _ => True | _ => False end.

Lemma intercept_spec f : f_Key (intercept f) = f_Key f ∧ ¬ prints_object (intercept f)
  ∧ (¬ prints_object f → intercept f = f).
Proof.
  unfold intercept, prints_object. case_decide as Ht; [|tauto]. destruct f as [key ty []]; cbn in *; naive_solver.
Qed.

(** An encoder that is not verbose prints no object in full, and leaves the
    keys and all other fields alone. *)
Lemma EncodeEntry_short (encode : Encoder → Entry → list (Field (KObject := KObject) (Other := Other)) → result Text)
    k entry fields : ke_Verbose k = false →
  ∃ fields', EncodeEntry encode k entry fields = (fields', encode (ke_Encoder k) entry fields')
    ∧ f_Key <$> fields' = f_Key <$> fields ∧ Forall (λ f, ¬ prints_object f) fields'
    ∧ (Forall (λ f, ¬ prints_object f) fields → fields' = fields).
Proof.
  intros Hk. unfold EncodeEntry. rewrite Hk. eexists. split; [done|]. split_and!.
  - rewrite <- list_fmap_compose. apply list_fmap_ext. intros i f _. apply intercept_spec.
  - rewrite Forall_fmap. apply Forall_true. intros f. apply intercept_spec.
  - intros Hf. induction Hf as [|f fields Hf _ IH]; [done|]. rewrite fmap_cons. f_equal; [|done].
    by apply intercept_spec.
Qed.

(** A clone of an encoder - as zap makes of that of a logger with values - is
    not verbose, whatever the original was. *)
Lemma Clone_forgets_verbose k : ke_Verbose (Clone k) = false.
Proof. done. Qed.
End kube_facts.

(** ** On concrete options *)

Module Sample.

(** Enablers are levels; encoders, writers and options are names. *)
#[local] Instance sample_zap : ZapLib (Config := list string) (Encoder := list string) (Writer := string)
    (Enabler := Z) (ZapOpt := string) := {|
  NewProductionEncoderConfig := ["production"];
  NewDevelopmentEncoderConfig := ["development"];
  zapcore_NewJSONEncoder c := "json" :: c;
  zapcore_NewConsoleEncoder c := "console" :: c;
  DebugLevel := -1; InfoLevel := 0; WarnLevel := 1; ErrorLevel := 2; PanicLevel := 4;
  NewAtomicLevelAt l := l;
  Enabled l m := l <=? m;
  zap_Development := "development";
  zap_AddStacktrace l := "stacktrace " +:+ Itoa l;
  zap_WrapSampler := "sampler";
  zap_AddCallerSkip n := "skip " +:+ Itoa n;
  zap_ErrorOutput w := "errors to " +:+ w;
  os_Stderr := "stderr";
  AddSync w := w;
|}.

#[local] Instance sample_levels : ZapLevels (Enabler := Z).
Proof. by split. Qed.

Example production :
  NewRaw [WriteTo "file"] =
  mkRaw (Some (mkKAE ["json"; "production"] false)) (Some "file") (Some 0)
    ["sampler"; "stacktrace 2"; "skip 1"; "errors to file"].
Proof. vm_compute. reflexivity. Qed.

(** Options given before those of the flags are lost. *)
Example flags_last : NewRaw [UseDevMode true; UseFlagOptions no_options] = NewRaw [].
Proof. reflexivity. Qed.

Lemma levelFlag_wraps_witness :
  (∃ lvl, levelFlag_Set "5" no_options = Ok (Level lvl no_options) ∧ Enabled lvl (- 5) = true ∧ Enabled lvl (- 6) = false)
  ∧ ∃ lvl, levelFlag_Set "200" no_options = Ok (Level lvl no_options) ∧ Enabled lvl (- 0) = false.
Proof.
  split.
  - destruct (levelFlag_wraps "5" 5 no_options) as [_ H]; [vm_compute; reflexivity|reflexivity|].
    destruct (H ltac:(lia)) as (lvl & Hset & Hv & _). exists lvl. split_and!; [done|exact (Hv ltac:(lia) 5)|exact (Hv ltac:(lia) 6)].
  - destruct (levelFlag_wraps "200" 200 no_options) as [_ H]; [vm_compute; reflexivity|reflexivity|].
    destruct (H ltac:(lia)) as (lvl & Hset & _ & Hv & _). exists lvl. split; [done|exact (Hv ltac:(lia) 0 ltac:(lia))].
Defined.
End Sample.
