(* ===== verification/Authentication.v ===== *)
(** * Authentication webhooks (src/pkg/webhook/authentication)

    Token reviews, the responses (response.go, webhook.go) and the HTTP side
    (http.go).  The handler acts on a world and may panic; decoding of reviews
    and the response writer are parameters. *)

From S2P Require Export Objects.

(** ** Token reviews (k8s.io/api/authentication/v1) *)

Record UserInfo := mkUserInfo {
  ui_Username : string;
  ui_UID : string;
  ui_Groups : list string;
  ui_Extra : gmap string (list string);
}.
Definition empty_UserInfo : UserInfo := mkUserInfo "" "" [] ∅.

Record TokenReviewSpec := mkTokenSpec { ts_Token : string; ts_Audiences : list string }.
Definition empty_TokenReviewSpec : TokenReviewSpec := mkTokenSpec "" [].

Record TokenReviewStatus := mkTokenStatus {
  ts_Authenticated : bool;
  ts_User : UserInfo;
  ts_StatusAudiences : list string;
  ts_Error : string;
}.

Record TokenReview := mkTokenReview {
  tr_GVK : GVK;
  tr_Meta : ObjectMeta;
  tr_Spec : TokenReviewSpec;
  tr_Status : TokenReviewStatus;
}.

Definition empty_meta : ObjectMeta := mkMeta "" "" "" "" "" 0 None [] [] None None.

(** [Request] and [Response] both embed a review and nothing else. *)
Abbreviation Request := TokenReview.
Abbreviation Response := TokenReview.

Definition tr_UID (ar : TokenReview) : string := m_UID (tr_Meta ar).

Definition set_meta_UID (uid : string) (m : ObjectMeta) : ObjectMeta :=
  mkMeta (m_Namespace m) (m_Name m) (m_GenerateName m) uid (m_ResourceVersion m) (m_Generation m)
    (m_DeletionTimestamp m) (m_Finalizers m) (m_OwnerReferences m) (m_Labels m) (m_Annotations m).

Definition set_GVK (gvk : GVK) (ar : TokenReview) : TokenReview :=
  mkTokenReview gvk (tr_Meta ar) (tr_Spec ar) (tr_Status ar).

Definition authenticated (ar : TokenReview) : bool := ts_Authenticated (tr_Status ar).

(** ** Responses (response.go) *)

Definition ReviewResponse (auth : bool) (user : UserInfo) (err : string) (audiences : list string) : Response :=
  mkTokenReview empty_GVK empty_meta empty_TokenReviewSpec
    (mkTokenStatus auth user audiences (if decide (err = "") then "" else err)).

Definition Authenticated (reason : string) (user : UserInfo) : Response := ReviewResponse true user reason [].

(** The user given is not told. *)
Definition Unauthenticated (reason : string) (_ : UserInfo) : Response :=
  ReviewResponse false empty_UserInfo reason [].

Definition Errored (err : error) : Response :=
  mkTokenReview empty_GVK empty_meta empty_TokenReviewSpec
    (mkTokenStatus false empty_UserInfo [] (error_text err)).

(** ** The webhook (webhook.go) *)

Definition Complete (r : Response) (req : Request) : Response * option error :=
  (mkTokenReview (tr_GVK r) (set_meta_UID (tr_UID req) (tr_Meta r)) (tr_Spec r) (tr_Status r), None).

Definition errUnableToEncodeResponse : error := ErrorString "unable to encode response".

Section webhook.
Context {W : Type}.
Implicit Types (w : W) (ar req resp : TokenReview).

Definition Handler : Type := Request → W → outcome (W * Response).

Definition Webhook_Handle (handler : Handler) req w : outcome (W * Response) :=
  '(w, resp) ← handler req w;
  let '(resp, err) := Complete resp req in
  match err with
  | Some _ => Returned (w, Errored errUnableToEncodeResponse)
  | None => Returned (w, resp)
  end.

(** [InjectFunc]: the function that sets fields passes itself to a target that
    has injections of its own, by [InjectorInto]; [None] when the fuel runs
    out. *)
Section injection.
Context {T : Type}.
Variable InjectorInto : (T → W → option (W * option error)) → T → W → option (W * option error).

Fixpoint setFields (fuel : nat) (f : T → W → W * option error) (target : T) w : option (W * option error) :=
  match fuel with
  | 0 => None
  | S fuel =>
      match f target w with
      | (w, Some err) => Some (w, Some err)
      | (w, None) => InjectorInto (setFields fuel f) target w
      end
  end.

Definition InjectFunc (fuel : nat) (f : T → W → W * option error) (handler : T) w : option (W * option error) :=
  setFields fuel f handler w.
End injection.

(** ** The HTTP side (http.go) *)

(** The deserializer of reviews: the request and the kind found. *)
Variable DecodeReview : string → result (Request * option GVK).
(** Encoding a review to the response writer. *)
Variable Encode : TokenReview → W → W * option error.

Definition v1_TokenReview : GVK := mkGVK "authentication.k8s.io" "v1" "TokenReview".

(** [writeTokenResponse] and [writeResponse] call each other; [None] when the
    fuel runs out. *)
Fixpoint writeTokenResponse (fuel : nat) ar w : option W :=
  match fuel with
  | 0 => None
  | S fuel =>
      match Encode ar w with
      | (w, Some err) => writeTokenResponse fuel (Errored err) w
      | (w, None) => Some w
      end
  end.

Definition writeResponse (fuel : nat) resp w : option W := writeTokenResponse fuel resp w.

Definition typed_review resp (tokRevGVK : option GVK) : TokenReview :=
  match tokRevGVK with
  | None => set_GVK v1_TokenReview resp
  | Some gvk => if decide (gvk = empty_GVK) then set_GVK v1_TokenReview resp else set_GVK gvk resp
  end.

Definition writeResponseTyped (fuel : nat) resp (tokRevGVK : option GVK) w : option W :=
  writeTokenResponse fuel (typed_review resp tokRevGVK) w.

Definition err_empty_body : error := ErrorString "request body is empty".
Definition err_content_type (contentType : string) : error :=
  ErrorString ("contentType=" +:+ contentType +:+ ", expected application/json").
Definition err_empty_token : error := ErrorString "token is empty".

(** What a request is refused with before the handler sees it, or the review in
    it and the kind it was sent as. *)
Definition read_review (r : HttpRequest) : result (Request * option GVK) :=
  match hr_Body r with
  | None => Err err_empty_body
  | Some (Err err) => Err err
  | Some (Ok body) =>
      if decide (hr_ContentType r ≠ "application/json") then Err (err_content_type (hr_ContentType r))
      else
        match DecodeReview body with
        | Err err => Err err
        | Ok (req, actualTokRevGVK) =>
            if decide (ts_Token (tr_Spec req) = "") then Err err_empty_token else Ok (req, actualTokRevGVK)
        end
  end.

Definition ServeHTTP (fuel : nat) (handler : Handler) (r : HttpRequest) w : outcome (option W) :=
  match read_review r with
  | Err err => Returned (writeResponse fuel (Errored err) w)
  | Ok (req, actualTokRevGVK) =>
      '(w, resp) ← Webhook_Handle handler req w;
      Returned (writeResponseTyped fuel resp actualTokRevGVK w)
  end.

(** ** Facts *)

(** What is answered to a review the handler has dealt with. *)
Definition answer req (gvk : option GVK) resp : TokenReview :=
  typed_review (Complete resp req).1 gvk.

Lemma answer_spec req gvk resp :
  tr_Status (answer req gvk resp) = tr_Status resp
  ∧ tr_UID (answer req gvk resp) = tr_UID req
  ∧ tr_GVK (answer req gvk resp) = (if decide (default empty_GVK gvk = empty_GVK) then v1_TokenReview
                                    else default empty_GVK gvk).
Proof.
  unfold answer, typed_review. destruct gvk as [gvk|]; cbn; [by case_decide|].
  by rewrite decide_True.
Qed.

(** An authentication webhook answers that a token is valid only if its
    handler said so of that very request: whatever holds of the world, is kept
    by the handler and by every attempt to write a review that is not
    authenticated, and by writing the handler's authenticated responses to the
    requests it was given - with the identifier of the request and the kind it
    was sent as - holds after serving, whatever was sent, also when writing
    fails and however often it is tried again.  A request without a body,
    another content type, an undecodable review or an empty token never gets
    to the handler. *)
Theorem authenticated_only_by_handler (fuel : nat) (handler : Handler) (r : HttpRequest) w w' (I : W → Prop) :
  ServeHTTP fuel handler r w = Returned (Some w') → I w →
  (∀ ar w, authenticated ar = false → I w → I (Encode ar w).1) →
  (∀ req gvk w w1 resp, read_review r = Ok (req, gvk) → ts_Token (tr_Spec req) ≠ "" →
     I w → handler req w = Returned (w1, resp) →
     I w1 ∧ (authenticated resp = true → tr_UID (answer req gvk resp) = tr_UID req →
             I (Encode (answer req gvk resp) w1).1)) →
  I w'.
Proof.
  intros Hserve Hw Hwrite Hhandler.
  assert (Hfail : ∀ n ar w w', authenticated ar = false → writeTokenResponse n ar w = Some w' → I w → I w').
  { clear -Hwrite. induction n as [|n IH]; intros ar w w' Har; [done|]. cbn.
    pose proof (Hwrite ar w Har) as Hk. destruct (Encode ar w) as [w1 [err|]]; cbn in Hk.
    - intros Hn HI. by eapply IH; [|exact Hn|apply Hk].
    - intros [= <-]. apply Hk. }
  unfold ServeHTTP in Hserve. destruct (read_review r) as [[req gvk]|err] eqn:Hread.
  2:{ injection Hserve as Hserve. by eapply Hfail; [|exact Hserve|]. }
  assert (Htoken : ts_Token (tr_Spec req) ≠ "").
  { unfold read_review in Hread. destruct (hr_Body r) as [[body|]|]; try done. case_decide; [done|].
    destruct (DecodeReview body) as [[req' gvk']|]; [|done]. case_decide; [done|]. by injection Hread as <- _. }
  unfold Webhook_Handle in Hserve. destruct (handler req w) as [[w1 resp]|msg] eqn:Hh; [|done].
  cbn in Hserve. injection Hserve as Hserve. unfold writeResponseTyped in Hserve.
  change (typed_review _ gvk) with (answer req gvk resp) in Hserve.
  destruct (Hhandler req gvk w w1 resp eq_refl Htoken Hw Hh) as [Hw1 Hauth].
  destruct (answer_spec req gvk resp) as (Hst & Huid & _).
  assert (Ha : authenticated (answer req gvk resp) = authenticated resp) by (unfold authenticated; by rewrite Hst).
  destruct (authenticated resp); [|by eapply Hfail; [|exact Hserve|]].
  destruct fuel as [|fuel]; [done|]. cbn in Hserve. specialize (Hauth eq_refl Huid).
  destruct (Encode (answer req gvk resp) w1) as [w2 [err|]]; cbn in Hauth.
  - by eapply Hfail; [|exact Hserve|].
  - by injection Hserve as <-.
Qed.

(** With a working writer every request gets one answer. *)
Lemma ServeHTTP_answers (fuel : nat) (handler : Handler) r w :
  (∀ ar w, (Encode ar w).2 = None) →
  ServeHTTP (S fuel) handler r w =
  match read_review r with
  | Err err => Returned (Some (Encode (Errored err) w).1)
  | Ok (req, gvk) => '(w, resp) ← handler req w; Returned (Some (Encode (answer req gvk resp) w).1)
  end.
Proof.
  intros Hok.
  assert (Hwrite : ∀ ar w, writeTokenResponse (S fuel) ar w = Some (Encode ar w).1).
  { intros ar w1. cbn. specialize (Hok ar w1). destruct (Encode ar w1) as [w2 err]. cbn in Hok. by rewrite Hok. }
  unfold ServeHTTP. destruct (read_review r) as [[req gvk]|err]; [|unfold writeResponse; by rewrite Hwrite].
  unfold Webhook_Handle. destruct (handler req w) as [[w1 resp]|]; [|done].
  cbn [mbind outcome_bind Complete]. unfold writeResponseTyped. by rewrite Hwrite.
Qed.

(** With one that keeps failing [ServeHTTP] does not return. *)
Lemma failing_writer (broken : W → Prop) (handler : Handler) r w :
  (∀ ar w, broken w → ∃ w' err, Encode ar w = (w', Some err) ∧ broken w') →
  (∀ req w w' resp, broken w → handler req w = Returned (w', resp) → broken w') →
  broken w → ∀ fuel w', ServeHTTP fuel handler r w ≠ Returned (Some w').
Proof.
  intros Hfail Hhandler Hw fuel w'.
  assert (Hwrite : ∀ ar w, broken w → writeTokenResponse fuel ar w = None).
  { induction fuel as [|fuel IH]; intros ar w0 Hw0; [done|]. cbn.
    destruct (Hfail ar w0 Hw0) as (w1 & err & -> & Hw1). by apply IH. }
  unfold ServeHTTP, writeResponse, writeResponseTyped, Webhook_Handle.
  destruct (read_review r) as [[req gvk]|err]; [|by rewrite Hwrite].
  destruct (handler req w) as [[w1 h]|msg] eqn:Hh; [|done]. apply Hhandler in Hh; [|done]. cbn. by rewrite Hwrite.
Qed.
End webhook.

(** ** Injection into a tree of targets

    A target whose [InjectFunc] passes the function on to its parts, in order,
    as chains of handlers do. *)

Inductive Target := mkTarget { t_name : string; t_parts : list Target }.

Section tree.
Context {W : Type}.

Fixpoint inject_parts (f : Target → W → option (W * option error)) (ts : list Target) (w : W) : option (W * option error) :=
  match ts with
  | [] => Some (w, None)
  | t :: ts =>
      match f t w with
      | Some (w, None) => inject_parts f ts w
      | r => r
      end
  end.

Fixpoint depth (t : Target) : nat := S (foldr (λ t, max (depth t)) 0 (t_parts t)).
Fixpoint preorder (t : Target) : list string := t_name t :: flat_map preorder (t_parts t).
End tree.

Lemma foldr_max_le {A} (f : A → nat) l x : x ∈ l → (f x ≤ foldr (λ y, max (f y)) 0 l)%nat.
Proof. induction 1 as [|x y l _ IH]; cbn; lia. Qed.

(** Every part of a tree of targets is set once, each before its own parts, with
    as much fuel as the tree is deep. *)
Lemma InjectFunc_tree (t : Target) fuel log :
  (depth t ≤ fuel)%nat →
  InjectFunc (W := list string) (λ f t, inject_parts f (t_parts t)) fuel (λ t log, (log ++ [t_name t], None)) t log
  = Some (log ++ preorder t, None).
Proof.
  unfold InjectFunc. revert t log. induction fuel as [|fuel IH]; intros [n ts] log Hd; [cbn in Hd; lia|].
  cbn [setFields t_name t_parts preorder].
  assert (Hparts : Forall (λ t, (depth t ≤ fuel)%nat) ts).
  { apply Forall_forall. intros t Ht. apply (foldr_max_le depth) in Ht. cbn in Hd. lia. }
  clear Hd. replace (log ++ n :: flat_map preorder ts) with ((log ++ [n]) ++ flat_map preorder ts)
    by by rewrite <- (assoc_L (++)).
  generalize (log ++ [n]). clear log n. induction Hparts as [|t ts Ht _ IHts]; intros log; cbn.
  - by rewrite (right_id_L [] (++)).
  - rewrite IH by done. rewrite IHts. by rewrite (assoc_L (++)).
Qed.

(** ** At a concrete input: reviews are their tokens, the writer's first attempt
    fails *)

Module Sample.
Definition sample_review (token : string) : TokenReview :=
  mkTokenReview empty_GVK (set_meta_UID "u1" empty_meta) (mkTokenSpec token [])
    (mkTokenStatus false empty_UserInfo [] "").

Definition decode (body : string) : result (Request * option GVK) := Ok (sample_review body, None).
Definition good : @Handler (list TokenReview) := λ req w,
  Returned (w, if decide (ts_Token (tr_Spec req) = "secret") then Authenticated "" empty_UserInfo
               else Unauthenticated "no" empty_UserInfo).
Definition encode (ar : TokenReview) (w : list TokenReview) : list TokenReview * option error :=
  (w ++ [ar], match w with [] => Some (ErrorString "broken pipe") | _ => None end).

Example wrong_token :
  ServeHTTP decode encode 2 good (mkHttpRequest (Some (Ok "guess")) "application/json") [] =
  Returned (Some [answer (sample_review "guess") None (Unauthenticated "no" empty_UserInfo);
                  Errored (ErrorString "broken pipe")]).
Proof. vm_compute. reflexivity. Qed.

Lemma authenticated_only_by_handler_witness :
  Forall (λ ar, authenticated ar = false)
    [answer (sample_review "guess") None (Unauthenticated "no" empty_UserInfo); Errored (ErrorString "broken pipe")].
Proof.
  apply (authenticated_only_by_handler decode encode 2 good
    (mkHttpRequest (Some (Ok "guess")) "application/json") [] _ (Forall (λ ar, authenticated ar = false)) wrong_token).
  - constructor.
  - intros ar w Har Hw. apply Forall_app. by split; [|repeat constructor].
  - intros req gvk w w1 resp [= <- <-] _ Hw Hh. cbn in Hh. injection Hh as <- <-. by split.
Defined.
End Sample.
