(* ===== verification/Options.v ===== *)
(** * Client request options (src/pkg/client/options.go)

    The option structs, the functional options that fill them, and their
    conversion to the structs of [metav1].  An option interface value is the
    one method the interface has, so [CreateOption] is a function on
    [CreateOptions]; [Raw] is a pointer, kept as a location of a heap, because
    [As*Options] writes through it and callers may share it. *)

From S2P Require Export Objects.

(** ** Raw options

    The fields of [metav1.CreateOptions] and its siblings that the code sets;
    what else they hold is opaque. *)
Record RawCreateOptions := mkRawCreate {
  rc_DryRun : option (list string); rc_FieldManager : string; rc_rest : string }.
Record RawUpdateOptions := mkRawUpdate {
  ru_DryRun : option (list string); ru_FieldManager : string; ru_rest : string }.
Record RawPatchOptions := mkRawPatch {
  rp_DryRun : option (list string); rp_Force : option bool; rp_FieldManager : string; rp_rest : string }.
Record RawDeleteOptions := mkRawDelete {
  rd_GracePeriodSeconds : option Z; rd_Preconditions : option string;
  rd_PropagationPolicy : option string; rd_DryRun : option (list string); rd_rest : string }.
Record RawListOptions := mkRawList {
  rl_LabelSelector : string; rl_FieldSelector : string; rl_Watch : bool;
  rl_Limit : Z; rl_Continue : string; rl_rest : string }.

Definition loc : Type := positive.

(** [&T{}]: a fresh location that holds the zero value. *)
Definition alloc {V} (h : gmap loc V) (v : V) : loc * gmap loc V :=
  let l := fresh (dom h) in (l, <[l := v]> h).

(** [if o.Raw == nil { o.Raw = &T{} }; update *o.Raw]. *)
Definition ensure_raw {V} (zero : V) (f : V → V) (h : gmap loc V) (raw : option loc)
    : loc * gmap loc V :=
  let '(l, h) := match raw with Some l => (l, h) | None => alloc h zero end in
  (l, alter f l h).

Section ensure_raw.
Context {V : Type} (zero : V) (f : V → V).
Implicit Types h : gmap loc V.

(** The call goes through a pointer that points to something. *)
Definition raw_ok h (raw : option loc) : Prop :=
  match raw with Some l => is_Some (h !! l) | None => True end.

Lemma ensure_raw_deref h raw l h' :
  raw_ok h raw → ensure_raw zero f h raw = (l, h') →
  h' !! l = Some (f (default zero (raw ≫= (h !!.)))).
Proof.
  unfold ensure_raw. destruct raw as [l0|]; cbn; intros Hok Heq; simplify_eq/=.
  - destruct Hok as [v Hv]. by rewrite lookup_alter_eq, Hv.
  - by rewrite lookup_alter_eq, lookup_insert_eq.
Qed.

Lemma ensure_raw_frame h raw l h' l' :
  ensure_raw zero f h raw = (l, h') → l' ≠ l → h' !! l' = h !! l'.
Proof.
  unfold ensure_raw. destruct raw as [l0|]; cbn; intros Heq Hne; simplify_eq/=.
  - by rewrite lookup_alter_ne.
  - by rewrite lookup_alter_ne, lookup_insert_ne.
Qed.

Lemma ensure_raw_fresh h l h' : ensure_raw zero f h None = (l, h') → h !! l = None.
Proof. cbn. intros [= <- _]. apply not_elem_of_dom, is_fresh. Qed.

Lemma ensure_raw_again h raw l h' :
  (∀ v, f (f v) = f v) → raw_ok h raw → ensure_raw zero f h raw = (l, h') →
  ensure_raw zero f h' (Some l) = (l, h').
Proof.
  intros Hidem Hok Heq. pose proof (ensure_raw_deref _ _ _ _ Hok Heq) as Hl.
  cbn. f_equal. apply map_eq. intros i. destruct (decide (i = l)) as [->|].
  - rewrite lookup_alter_eq, Hl. cbn. by rewrite Hidem.
  - by rewrite lookup_alter_ne.
Qed.
End ensure_raw.

(** ** Create options *)

Record CreateOptions := mkCreateOptions {
  co_DryRun : option (list string); co_FieldManager : string; co_Raw : option loc }.
Definition CreateOption : Type := CreateOptions → CreateOptions.

Definition AsCreateOptions (h : gmap loc RawCreateOptions) (o : option CreateOptions)
    : option CreateOptions * loc * gmap loc RawCreateOptions :=
  match o with
  | None => let '(l, h) := alloc h (mkRawCreate None "" "") in (None, l, h)
  | Some o =>
      let '(l, h) := ensure_raw (mkRawCreate None "" "")
                       (λ r, mkRawCreate (co_DryRun o) (co_FieldManager o) (rc_rest r)) h (co_Raw o) in
      (Some (mkCreateOptions (co_DryRun o) (co_FieldManager o) (Some l)), l, h)
  end.

Definition CreateOptions_ApplyOptions (opts : list CreateOption) (o : CreateOptions) : CreateOptions :=
  fold_left (λ o opt, opt o) opts o.

(** [if src != nil { dst = src }] and [if src != "" { dst = src }]. *)
Definition or_set {A} (src dst : option A) : option A :=
  match src with Some _ => src | None => dst end.
Definition or_set_str (src dst : string) : string :=
  if decide (src = "") then dst else src.

Definition ApplyToCreate (o : CreateOptions) : CreateOption := λ co,
  mkCreateOptions (or_set (co_DryRun o) (co_DryRun co))
    (or_set_str (co_FieldManager o) (co_FieldManager co)) (or_set (co_Raw o) (co_Raw co)).

(** ** Delete options *)

Record DeleteOptions := mkDeleteOptions {
  do_GracePeriodSeconds : option Z; do_Preconditions : option string;
  do_PropagationPolicy : option string; do_Raw : option loc; do_DryRun : option (list string) }.
Definition DeleteOption : Type := DeleteOptions → DeleteOptions.

Definition AsDeleteOptions (h : gmap loc RawDeleteOptions) (o : option DeleteOptions)
    : option DeleteOptions * loc * gmap loc RawDeleteOptions :=
  match o with
  | None => let '(l, h) := alloc h (mkRawDelete None None None None "") in (None, l, h)
  | Some o =>
      let '(l, h) := ensure_raw (mkRawDelete None None None None "")
                       (λ r, mkRawDelete (do_GracePeriodSeconds o) (do_Preconditions o)
                               (do_PropagationPolicy o) (do_DryRun o) (rd_rest r)) h (do_Raw o) in
      (Some (mkDeleteOptions (do_GracePeriodSeconds o) (do_Preconditions o)
               (do_PropagationPolicy o) (Some l) (do_DryRun o)), l, h)
  end.

Definition DeleteOptions_ApplyOptions (opts : list DeleteOption) (o : DeleteOptions) : DeleteOptions :=
  fold_left (λ o opt, opt o) opts o.

Definition ApplyToDelete (o : DeleteOptions) : DeleteOption := λ do,
  mkDeleteOptions (or_set (do_GracePeriodSeconds o) (do_GracePeriodSeconds do))
    (or_set (do_Preconditions o) (do_Preconditions do))
    (or_set (do_PropagationPolicy o) (do_PropagationPolicy do))
    (or_set (do_Raw o) (do_Raw do)) (or_set (do_DryRun o) (do_DryRun do)).

Definition GracePeriodSeconds_ApplyToDelete (s : Z) : DeleteOption := λ o,
  mkDeleteOptions (Some s) (do_Preconditions o) (do_PropagationPolicy o) (do_Raw o) (do_DryRun o).
Definition Preconditions_ApplyToDelete (p : string) : DeleteOption := λ o,
  mkDeleteOptions (do_GracePeriodSeconds o) (Some p) (do_PropagationPolicy o) (do_Raw o) (do_DryRun o).
Definition PropagationPolicy_ApplyToDelete (p : string) : DeleteOption := λ o,
  mkDeleteOptions (do_GracePeriodSeconds o) (do_Preconditions o) (Some p) (do_Raw o) (do_DryRun o).

(** ** Selectors

    A [labels.Selector] or [fields.Selector]: the methods the code calls. *)
Record Selector := {
  sel_Matches : option (gmap string string) → bool;
  sel_String : string;
}.

(** Constructors of selectors in [k8s.io/apimachinery]. *)
Class SelectorLib := {
  SelectorFromValidatedSet : gmap string string → Selector;
  NewSelector : Selector;
  NewRequirementExists : string → result string;
  Selector_Add : Selector → string → Selector;
  FieldSet_AsSelector : gmap string string → Selector;
}.

(** ** List options *)

Record ListOptions := mkListOptions {
  lo_LabelSelector : option Selector; lo_FieldSelector : option Selector;
  lo_Namespace : string; lo_Limit : Z; lo_Continue : string; lo_Raw : option loc }.
Definition ListOption : Type := ListOptions → ListOptions.

Definition ApplyToList (o : ListOptions) : ListOption := λ lo,
  mkListOptions (or_set (lo_LabelSelector o) (lo_LabelSelector lo))
    (or_set (lo_FieldSelector o) (lo_FieldSelector lo))
    (or_set_str (lo_Namespace o) (lo_Namespace lo))
    (if decide (lo_Limit o > 0)%Z then lo_Limit o else lo_Limit lo)
    (or_set_str (lo_Continue o) (lo_Continue lo))
    (or_set (lo_Raw o) (lo_Raw lo)).

(** The assignments [AsListOptions] makes to the raw options. *)
Definition AsListOptions_fill (o : ListOptions) (r : RawListOptions) : RawListOptions :=
  mkRawList
    (match lo_LabelSelector o with Some s => sel_String s | None => rl_LabelSelector r end)
    (match lo_FieldSelector o with Some s => sel_String s | None => rl_FieldSelector r end)
    (rl_Watch r)
    (if rl_Watch r then rl_Limit r else lo_Limit o)
    (if rl_Watch r then rl_Continue r else lo_Continue o)
    (rl_rest r).

Definition AsListOptions (h : gmap loc RawListOptions) (o : option ListOptions)
    : option ListOptions * loc * gmap loc RawListOptions :=
  match o with
  | None => let '(l, h) := alloc h (mkRawList "" "" false 0 "" "") in (None, l, h)
  | Some o =>
      let '(l, h) := ensure_raw (mkRawList "" "" false 0 "" "") (AsListOptions_fill o) h (lo_Raw o) in
      (Some (mkListOptions (lo_LabelSelector o) (lo_FieldSelector o) (lo_Namespace o)
               (lo_Limit o) (lo_Continue o) (Some l)), l, h)
  end.

Definition ListOptions_ApplyOptions (opts : list ListOption) (o : ListOptions) : ListOptions :=
  fold_left (λ o opt, opt o) opts o.

Definition set_LabelSelector (s : Selector) : ListOption := λ o,
  mkListOptions (Some s) (lo_FieldSelector o) (lo_Namespace o) (lo_Limit o) (lo_Continue o) (lo_Raw o).
Definition set_FieldSelector (s : Selector) : ListOption := λ o,
  mkListOptions (lo_LabelSelector o) (Some s) (lo_Namespace o) (lo_Limit o) (lo_Continue o) (lo_Raw o).

Section selectors.
Context `{SelectorLib}.

Definition MatchingLabels_ApplyToList (m : gmap string string) : ListOption :=
  set_LabelSelector (SelectorFromValidatedSet m).

(** A label that is not a valid key is skipped. *)
Definition HasLabels_ApplyToList (m : list string) : ListOption :=
  set_LabelSelector (fold_left (λ sel label,
    match NewRequirementExists label with
    | Ok r => Selector_Add sel r
    | Err _ => sel
    end) m NewSelector).

Definition MatchingFields_ApplyToList (m : gmap string string) : ListOption :=
  set_FieldSelector (FieldSet_AsSelector m).
End selectors.

Definition MatchingLabelsSelector_ApplyToList (m : Selector) : ListOption := set_LabelSelector m.
Definition MatchingFieldsSelector_ApplyToList (m : Selector) : ListOption := set_FieldSelector m.

Definition InNamespace_ApplyToList (n : string) : ListOption := λ o,
  mkListOptions (lo_LabelSelector o) (lo_FieldSelector o) n (lo_Limit o) (lo_Continue o) (lo_Raw o).
Definition Limit_ApplyToList (l : Z) : ListOption := λ o,
  mkListOptions (lo_LabelSelector o) (lo_FieldSelector o) (lo_Namespace o) l (lo_Continue o) (lo_Raw o).
Definition Continue_ApplyToList (c : string) : ListOption := λ o,
  mkListOptions (lo_LabelSelector o) (lo_FieldSelector o) (lo_Namespace o) (lo_Limit o) c (lo_Raw o).

(** ** Update options *)

Record UpdateOptions := mkUpdateOptions {
  uo_DryRun : option (list string); uo_FieldManager : string; uo_Raw : option loc }.
Definition UpdateOption : Type := UpdateOptions → UpdateOptions.

Definition AsUpdateOptions (h : gmap loc RawUpdateOptions) (o : option UpdateOptions)
    : option UpdateOptions * loc * gmap loc RawUpdateOptions :=
  match o with
  | None => let '(l, h) := alloc h (mkRawUpdate None "" "") in (None, l, h)
  | Some o =>
      let '(l, h) := ensure_raw (mkRawUpdate None "" "")
                       (λ r, mkRawUpdate (uo_DryRun o) (uo_FieldManager o) (ru_rest r)) h (uo_Raw o) in
      (Some (mkUpdateOptions (uo_DryRun o) (uo_FieldManager o) (Some l)), l, h)
  end.

Definition UpdateOptions_ApplyOptions (opts : list UpdateOption) (o : UpdateOptions) : UpdateOptions :=
  fold_left (λ o opt, opt o) opts o.

Definition ApplyToUpdate (o : UpdateOptions) : UpdateOption := λ uo,
  mkUpdateOptions (or_set (uo_DryRun o) (uo_DryRun uo))
    (or_set_str (uo_FieldManager o) (uo_FieldManager uo)) (or_set (uo_Raw o) (uo_Raw uo)).

(** ** Patch options *)

Record PatchOptions := mkPatchOptions {
  po_DryRun : option (list string); po_Force : option bool;
  po_FieldManager : string; po_Raw : option loc }.
Definition PatchOption : Type := PatchOptions → PatchOptions.

Definition PatchOptions_ApplyOptions (opts : list PatchOption) (o : PatchOptions) : PatchOptions :=
  fold_left (λ o opt, opt o) opts o.

Definition AsPatchOptions (h : gmap loc RawPatchOptions) (o : option PatchOptions)
    : option PatchOptions * loc * gmap loc RawPatchOptions :=
  match o with
  | None => let '(l, h) := alloc h (mkRawPatch None None "" "") in (None, l, h)
  | Some o =>
      let '(l, h) := ensure_raw (mkRawPatch None None "" "")
                       (λ r, mkRawPatch (po_DryRun o) (po_Force o) (po_FieldManager o) (rp_rest r))
                       h (po_Raw o) in
      (Some (mkPatchOptions (po_DryRun o) (po_Force o) (po_FieldManager o) (Some l)), l, h)
  end.

Definition ApplyToPatch (o : PatchOptions) : PatchOption := λ po,
  mkPatchOptions (or_set (po_DryRun o) (po_DryRun po)) (or_set (po_Force o) (po_Force po))
    (or_set_str (po_FieldManager o) (po_FieldManager po)) (or_set (po_Raw o) (po_Raw po)).

Definition ForceOwnership_ApplyToPatch : PatchOption := λ o,
  mkPatchOptions (po_DryRun o) (Some true) (po_FieldManager o) (po_Raw o).

(** ** DeleteAllOf options *)

Record DeleteAllOfOptions := mkDeleteAllOfOptions {
  dao_ListOptions : ListOptions; dao_DeleteOptions : DeleteOptions }.
Definition DeleteAllOfOption : Type := DeleteAllOfOptions → DeleteAllOfOptions.

Definition DeleteAllOfOptions_ApplyOptions (opts : list DeleteAllOfOption) (o : DeleteAllOfOptions)
    : DeleteAllOfOptions :=
  fold_left (λ o opt, opt o) opts o.

Definition on_ListOptions (f : ListOption) : DeleteAllOfOption := λ o,
  mkDeleteAllOfOptions (f (dao_ListOptions o)) (dao_DeleteOptions o).
Definition on_DeleteOptions (f : DeleteOption) : DeleteAllOfOption := λ o,
  mkDeleteAllOfOptions (dao_ListOptions o) (f (dao_DeleteOptions o)).

Definition ApplyToDeleteAllOf (o : DeleteAllOfOptions) : DeleteAllOfOption := λ do,
  on_DeleteOptions (ApplyToDelete (dao_DeleteOptions o))
    (on_ListOptions (ApplyToList (dao_ListOptions o)) do).

Definition GracePeriodSeconds_ApplyToDeleteAllOf (s : Z) : DeleteAllOfOption :=
  on_DeleteOptions (GracePeriodSeconds_ApplyToDelete s).
Definition Preconditions_ApplyToDeleteAllOf (p : string) : DeleteAllOfOption :=
  on_DeleteOptions (Preconditions_ApplyToDelete p).
Definition PropagationPolicy_ApplyToDeleteAllOf (p : string) : DeleteAllOfOption :=
  on_DeleteOptions (PropagationPolicy_ApplyToDelete p).
Definition MatchingLabels_ApplyToDeleteAllOf `{SelectorLib} (m : gmap string string) : DeleteAllOfOption :=
  on_ListOptions (MatchingLabels_ApplyToList m).
Definition HasLabels_ApplyToDeleteAllOf `{SelectorLib} (m : list string) : DeleteAllOfOption :=
  on_ListOptions (HasLabels_ApplyToList m).
Definition MatchingLabelsSelector_ApplyToDeleteAllOf (m : Selector) : DeleteAllOfOption :=
  on_ListOptions (MatchingLabelsSelector_ApplyToList m).
Definition MatchingFields_ApplyToDeleteAllOf `{SelectorLib} (m : gmap string string) : DeleteAllOfOption :=
  on_ListOptions (MatchingFields_ApplyToList m).
Definition MatchingFieldsSelector_ApplyToDeleteAllOf (m : Selector) : DeleteAllOfOption :=
  on_ListOptions (MatchingFieldsSelector_ApplyToList m).
Definition InNamespace_ApplyToDeleteAllOf (n : string) : DeleteAllOfOption :=
  on_ListOptions (InNamespace_ApplyToList n).

(** ** Multi-type options *)

(** [metav1.DryRunAll], the one directive the API documents. *)
Definition metav1_DryRunAll : string := "All".
Definition dry_run_all : option (list string) := Some [metav1_DryRunAll].

Definition dryRunAll_ApplyToCreate : CreateOption := λ o,
  mkCreateOptions dry_run_all (co_FieldManager o) (co_Raw o).
Definition dryRunAll_ApplyToUpdate : UpdateOption := λ o,
  mkUpdateOptions dry_run_all (uo_FieldManager o) (uo_Raw o).
Definition dryRunAll_ApplyToPatch : PatchOption := λ o,
  mkPatchOptions dry_run_all (po_Force o) (po_FieldManager o) (po_Raw o).
Definition dryRunAll_ApplyToDelete : DeleteOption := λ o,
  mkDeleteOptions (do_GracePeriodSeconds o) (do_Preconditions o) (do_PropagationPolicy o)
    (do_Raw o) dry_run_all.
Definition dryRunAll_ApplyToDeleteAllOf : DeleteAllOfOption :=
  on_DeleteOptions dryRunAll_ApplyToDelete.

Definition FieldOwner_ApplyToPatch (f : string) : PatchOption := λ o,
  mkPatchOptions (po_DryRun o) (po_Force o) f (po_Raw o).
Definition FieldOwner_ApplyToCreate (f : string) : CreateOption := λ o,
  mkCreateOptions (co_DryRun o) f (co_Raw o).
Definition FieldOwner_ApplyToUpdate (f : string) : UpdateOption := λ o,
  mkUpdateOptions (uo_DryRun o) f (uo_Raw o).

(** ** How options compose *)

(** The value the last element satisfying [P] gives, else the default. *)
Lemma fold_left_last_set {T A} (get : T → A) (P : A → Prop) `{!∀ x, Decision (P x)}
    (app : T → T → T) (os : list T) (s : T) :
  (∀ o s, get (app o s) = if decide (P (get o)) then get o else get s) →
  get (fold_left (λ s opt, opt s) (app <$> os) s)
  = default (get s) (list.last (filter P (get <$> os))).
Proof.
  intros Happ. revert s. induction os as [|o os IH]; intros s; [done|].
  rewrite !fmap_cons, filter_cons. cbn [fold_left].
  rewrite IH, Happ. case_decide; [|done].
  rewrite last_cons. by destruct (list.last _).
Qed.

Lemma or_set_decide {A} (src dst : option A) :
  or_set src dst = if decide (is_Some src) then src else dst.
Proof. by destruct src. Qed.

Lemma or_set_str_decide (src dst : string) :
  or_set_str src dst = if decide (src ≠ "") then src else dst.
Proof. unfold or_set_str. by repeat case_decide. Qed.

#[export] Hint Resolve or_set_decide or_set_str_decide : ctrl.

(** [ListOptions.ApplyOptions] on a sequence of [ListOptions] values: for
    each field, the last value of the sequence that sets it wins, and a field
    none of them sets keeps its old value.  A namespace or continue token is
    set when not empty, a limit when positive, a selector or raw pointer when
    not nil. *)
Theorem ListOptions_ApplyOptions_last_wins (os : list ListOptions) (o : ListOptions) :
  let r := ListOptions_ApplyOptions (ApplyToList <$> os) o in
  lo_LabelSelector r = default (lo_LabelSelector o) (list.last (filter is_Some (lo_LabelSelector <$> os)))
  ∧ lo_FieldSelector r = default (lo_FieldSelector o) (list.last (filter is_Some (lo_FieldSelector <$> os)))
  ∧ lo_Namespace r = default (lo_Namespace o) (list.last (filter (λ n, n ≠ "") (lo_Namespace <$> os)))
  ∧ lo_Limit r = default (lo_Limit o) (list.last (filter (λ n, n > 0)%Z (lo_Limit <$> os)))
  ∧ lo_Continue r = default (lo_Continue o) (list.last (filter (λ n, n ≠ "") (lo_Continue <$> os)))
  ∧ lo_Raw r = default (lo_Raw o) (list.last (filter is_Some (lo_Raw <$> os))).
Proof. repeat split; apply fold_left_last_set; cbn; auto with ctrl. Qed.

(** [ListOptions.AsListOptions] on a receiver whose [Raw] pointer is nil or
    valid.  The struct it returns a pointer to has the label and field
    selector strings of the options that are set (and keeps the raw ones for
    those that are not), takes limit and continue token from the options
    unless the raw options ask for a watch, in which case the raw ones stay;
    nothing else in memory changes, a nil [Raw] gets a new struct, the
    receiver then points to it, and a second call changes nothing more. *)
Theorem AsListOptions_spec (h : gmap loc RawListOptions) (o : ListOptions) :
  raw_ok h (lo_Raw o) →
  ∃ o' l h' raw, AsListOptions h (Some o) = (Some o', l, h')
    ∧ raw = default (mkRawList "" "" false 0 "" "") (lo_Raw o ≫= (h !!.))
    ∧ h' !! l = Some (mkRawList
        (from_option sel_String (rl_LabelSelector raw) (lo_LabelSelector o))
        (from_option sel_String (rl_FieldSelector raw) (lo_FieldSelector o))
        (rl_Watch raw)
        (if rl_Watch raw then rl_Limit raw else lo_Limit o)
        (if rl_Watch raw then rl_Continue raw else lo_Continue o)
        (rl_rest raw))
    ∧ (∀ l', l' ≠ l → h' !! l' = h !! l')
    ∧ (lo_Raw o = None → h !! l = None)
    ∧ lo_Raw o' = Some l
    ∧ AsListOptions h' (Some o') = (Some o', l, h').
Proof.
  intros Hok. cbn.
  destruct (ensure_raw _ _ h (lo_Raw o)) as [l h'] eqn:He.
  do 4 eexists. split; [done|]. split; [done|].
  pose proof (ensure_raw_deref _ _ _ _ _ _ Hok He) as Hl.
  split; [rewrite Hl; unfold AsListOptions_fill; repeat f_equal;
    by (destruct (lo_LabelSelector o) || destruct (lo_FieldSelector o))|].
  split; [intros l' Hne; by eapply ensure_raw_frame|].
  split; [intros Hn; rewrite Hn in He; by eapply ensure_raw_fresh|].
  split; [done|]. cbn.
  apply (ensure_raw_again _ (AsListOptions_fill o)) in He; [|intros v|done].
  - cbn in He. unfold AsListOptions_fill in *. cbn. by injection He as ->.
  - unfold AsListOptions_fill. cbn. repeat case_match; congruence.
Qed.

Definition AsListOptions_witness_options : ListOptions :=
  mkListOptions (Some {| sel_Matches := λ _, true; sel_String := "app=web" |}) None "default" 10 "tok" (Some 1%positive).
Definition AsListOptions_witness_heap : gmap loc RawListOptions :=
  {[ 1%positive := mkRawList "old" "metadata.name=x" true 7 "raw" "" ]}.

Lemma AsListOptions_spec_witness :
  raw_ok AsListOptions_witness_heap (Some 1%positive) ∧
  ∃ o' l h' raw, AsListOptions AsListOptions_witness_heap (Some AsListOptions_witness_options) = (Some o', l, h')
    ∧ raw = mkRawList "old" "metadata.name=x" true 7 "raw" ""
    ∧ h' !! l = Some (mkRawList "app=web" "metadata.name=x" true 7 "raw" "").
Proof.
  assert (raw_ok AsListOptions_witness_heap (Some 1%positive)) as Hok by (vm_compute; eauto).
  split; [exact Hok|].
  destruct (AsListOptions_spec AsListOptions_witness_heap AsListOptions_witness_options Hok)
    as (o' & l & h' & raw & H1 & H2 & H3 & _).
  exists o', l, h', raw. subst raw. split; [exact H1|]. split; [reflexivity|].
  rewrite H3. reflexivity.
Defined.
