(* ===== verification/Client.v ===== *)
(** * The client interface and the clients that wrap a client

    The [Client] interface of src/pkg/client/interfaces.go as a record of
    operations over the state [W] of the world behind it, and three clients
    that are built from others: the namespaced client
    (src/pkg/client/namespaced_client.go), the dry-run client
    (src/pkg/client/dryrun.go) and the delegating client
    (src/pkg/client/split.go). *)

From S2P Require Export Options.

(** ** The interface *)

(** [client.Patch]. *)
Record Patch := { patch_Type : string; patch_Data : Object → result string }.

(** A call that takes a pointer to an object: it may update the object and the
    world, and returns an error or nil. *)
Definition ObjCall (W : Type) : Type := Object → W → Object * W * option error.
Definition ListCall (W : Type) : Type := ObjectList → W → ObjectList * W * option error.

Record Reader (W : Type) := {
  Reader_Get : NamespacedName → ObjCall W;
  Reader_List : list ListOption → ListCall W;
}.
Arguments Reader_Get {W} _ _.
Arguments Reader_List {W} _ _.

Record StatusWriter (W : Type) := {
  Status_Update : list UpdateOption → ObjCall W;
  Status_Patch : Patch → list PatchOption → ObjCall W;
}.
Arguments Status_Update {W} _ _.
Arguments Status_Patch {W} _ _ _.

Record Client (W : Type) := {
  Get : NamespacedName → ObjCall W;
  List : list ListOption → ListCall W;
  Create : list CreateOption → ObjCall W;
  Delete : list DeleteOption → ObjCall W;
  Update : list UpdateOption → ObjCall W;
  Patch_ : Patch → list PatchOption → ObjCall W;
  DeleteAllOf : list DeleteAllOfOption → ObjCall W;
  Status : StatusWriter W;
  Client_Scheme : Scheme;
  Client_RESTMapper : RESTMapper;
}.
Arguments Get {W} _ _.
Arguments List {W} _ _.
Arguments Create {W} _ _.
Arguments Delete {W} _ _.
Arguments Update {W} _ _.
Arguments Patch_ {W} _ _ _.
Arguments DeleteAllOf {W} _ _.
Arguments Status {W} _.
Arguments Client_Scheme {W} _.
Arguments Client_RESTMapper {W} _.

Definition Client_Reader {W} (c : Client W) : Reader W :=
  {| Reader_Get := Get c; Reader_List := List c |}.

(** [client.IgnoreNotFound]. *)
Definition IgnoreNotFound (IsNotFound : error → bool) (err : option error) : option error :=
  match err with
  | Some e => if IsNotFound e then None else Some e
  | None => None
  end.

(** ** The namespaced client *)

Section namespaced.
Context {W : Type}.

Definition isNamespaced (c : Client W) (obj : Object) : result bool :=
  gvk ← match o_type obj with
        | Unstructured | UnstructuredList => Ok (o_gvk obj)
        | _ => GVKForObject obj (Client_Scheme c)
        end;
  match rm_RESTMapping (Client_RESTMapper c) (mkGK (gvk_Group gvk) (gvk_Kind gvk)) [] with
  | Err e => Err (ErrorWrap "failed to get restmapping" e)
  | Ok ScopeEmpty => Err (ErrorString "scope cannot be identified, empty scope returned")
  | Ok ScopeRoot => Ok false
  | Ok (ScopeOther _) => Ok true
  end.

Definition err_scope : error := ErrorString "error finding the scope of the object".
Definition err_namespace : error :=
  ErrorString "namespace of the object does not match the namespace on the client".

(** The block every write operation starts with: find the scope, refuse an
    object of another namespace, default the namespace of a namespaced
    object. *)
Definition enforce_namespace (c : Client W) (ns : string) (obj : Object) : result Object :=
  match isNamespaced c obj with
  | Err _ => Err err_scope
  | Ok isNamespaceScoped =>
      let objectNamespace := GetNamespace obj in
      if decide (objectNamespace ≠ ns ∧ objectNamespace ≠ "") then Err err_namespace
      else if decide (isNamespaceScoped = true ∧ objectNamespace = "")
      then Ok (SetNamespace ns obj)
      else Ok obj
  end.

(** [enforce_namespace], then the call on the wrapped client. *)
Definition with_namespace (c : Client W) (ns : string) (call : ObjCall W) : ObjCall W :=
  λ obj w,
    match enforce_namespace c ns obj with
    | Err e => (obj, w, Some e)
    | Ok obj => call obj w
    end.

Definition namespaced_Create (c : Client W) (ns : string) (opts : list CreateOption) : ObjCall W :=
  with_namespace c ns (Create c opts).
Definition namespaced_Update (c : Client W) (ns : string) (opts : list UpdateOption) : ObjCall W :=
  with_namespace c ns (Update c opts).
Definition namespaced_Delete (c : Client W) (ns : string) (opts : list DeleteOption) : ObjCall W :=
  with_namespace c ns (Delete c opts).
Definition namespaced_Patch (c : Client W) (ns : string) (p : Patch) (opts : list PatchOption)
    : ObjCall W :=
  with_namespace c ns (Patch_ c p opts).

Definition namespaced_DeleteAllOf (c : Client W) (ns : string) (opts : list DeleteAllOfOption)
    : ObjCall W := λ obj w,
  match isNamespaced c obj with
  | Err _ => (obj, w, Some err_scope)
  | Ok isNamespaceScoped =>
      let opts := if (isNamespaceScoped : bool)
                  then opts ++ [InNamespace_ApplyToDeleteAllOf ns] else opts in
      DeleteAllOf c opts obj w
  end.

Definition namespaced_Get (c : Client W) (ns : string) (key : NamespacedName) : ObjCall W := λ obj w,
  match isNamespaced c obj with
  | Err _ => (obj, w, Some err_scope)
  | Ok true =>
      if decide (nn_Namespace key ≠ "" ∧ nn_Namespace key ≠ ns)
      then (obj, w, Some err_namespace)
      else Get c (mkNN ns (nn_Name key)) obj w
  | Ok false => Get c key obj w
  end.

Definition namespaced_List (c : Client W) (ns : string) (opts : list ListOption) : ListCall W :=
  let opts := if decide (ns ≠ "") then opts ++ [InNamespace_ApplyToList ns] else opts in
  List c opts.

(** The status writer asks the namespaced client for scheme and mapper,
    which are those of the wrapped client. *)
Definition namespaced_Status_Update (c : Client W) (ns : string) (opts : list UpdateOption)
    : ObjCall W :=
  with_namespace c ns (Status_Update (Status c) opts).
Definition namespaced_Status_Patch (c : Client W) (ns : string) (p : Patch)
    (opts : list PatchOption) : ObjCall W :=
  with_namespace c ns (Status_Patch (Status c) p opts).

Definition NewNamespacedClient (c : Client W) (ns : string) : Client W := {|
  Get := namespaced_Get c ns;
  List := namespaced_List c ns;
  Create := namespaced_Create c ns;
  Delete := namespaced_Delete c ns;
  Update := namespaced_Update c ns;
  Patch_ := namespaced_Patch c ns;
  DeleteAllOf := namespaced_DeleteAllOf c ns;
  Status := {| Status_Update := namespaced_Status_Update c ns;
               Status_Patch := namespaced_Status_Patch c ns |};
  Client_Scheme := Client_Scheme c;
  Client_RESTMapper := Client_RESTMapper c;
|}.
End namespaced.

(** ** The dry-run client *)

Section dryrun.
Context {W : Type}.

Definition dryrun_Create (c : Client W) (opts : list CreateOption) : ObjCall W :=
  Create c (opts ++ [dryRunAll_ApplyToCreate]).
Definition dryrun_Update (c : Client W) (opts : list UpdateOption) : ObjCall W :=
  Update c (opts ++ [dryRunAll_ApplyToUpdate]).
Definition dryrun_Delete (c : Client W) (opts : list DeleteOption) : ObjCall W :=
  Delete c (opts ++ [dryRunAll_ApplyToDelete]).
Definition dryrun_DeleteAllOf (c : Client W) (opts : list DeleteAllOfOption) : ObjCall W :=
  DeleteAllOf c (opts ++ [dryRunAll_ApplyToDeleteAllOf]).
Definition dryrun_Patch (c : Client W) (p : Patch) (opts : list PatchOption) : ObjCall W :=
  Patch_ c p (opts ++ [dryRunAll_ApplyToPatch]).
Definition dryrun_Status (s : StatusWriter W) : StatusWriter W := {|
  Status_Update := λ opts, Status_Update s (opts ++ [dryRunAll_ApplyToUpdate]);
  Status_Patch := λ p opts, Status_Patch s p (opts ++ [dryRunAll_ApplyToPatch]) |}.

Definition NewDryRunClient (c : Client W) : Client W := {|
  Get := Get c;
  List := List c;
  Create := dryrun_Create c;
  Delete := dryrun_Delete c;
  Update := dryrun_Update c;
  Patch_ := dryrun_Patch c;
  DeleteAllOf := dryrun_DeleteAllOf c;
  Status := dryrun_Status (Status c);
  Client_Scheme := Client_Scheme c;
  Client_RESTMapper := Client_RESTMapper c;
|}.
End dryrun.

(** ** The delegating client *)

Section delegating.
Context {W : Type}.
(** [meta.IsListType]. *)
Variable IsListType : GoType → bool.

Record NewDelegatingClientInput := {
  in_CacheReader : Reader W;
  in_Client : Client W;
  in_UncachedObjects : list Object;
  in_CacheUnstructured : bool;
}.

Record delegatingReader := {
  dr_CacheReader : Reader W;
  dr_ClientReader : Reader W;
  dr_uncachedGVKs : gset GVK;
  dr_scheme : Scheme;
  dr_cacheUnstructured : bool;
}.

Definition is_unstructured (t : GoType) : bool :=
  match t with Unstructured | UnstructuredList => true | _ => false end.

Definition shouldBypassCache (d : delegatingReader) (t : GoType) (own : GVK) : result bool :=
  gvk ← GVKForObject_of t own (dr_scheme d);
  let gvk := if IsListType t
             then mkGVK (gvk_Group gvk) (gvk_Version gvk) (TrimSuffix (gvk_Kind gvk) "List")
             else gvk in
  if decide (gvk ∈ dr_uncachedGVKs d) then Ok true
  else if dr_cacheUnstructured d then Ok false
  else Ok (is_unstructured t).

Definition delegatingReader_Get (d : delegatingReader) (key : NamespacedName) : ObjCall W := λ obj w,
  match shouldBypassCache d (o_type obj) (o_gvk obj) with
  | Err e => (obj, w, Some e)
  | Ok true => Reader_Get (dr_ClientReader d) key obj w
  | Ok false => Reader_Get (dr_CacheReader d) key obj w
  end.

Definition delegatingReader_List (d : delegatingReader) (opts : list ListOption) : ListCall W := λ l w,
  match shouldBypassCache d (ol_type l) (ol_gvk l) with
  | Err e => (l, w, Some e)
  | Ok true => Reader_List (dr_ClientReader d) opts l w
  | Ok false => Reader_List (dr_CacheReader d) opts l w
  end.

(** The loop that collects the kinds of the uncached objects. *)
Fixpoint collect_uncachedGVKs (scheme : Scheme) (objs : list Object) (acc : gset GVK)
    : result (gset GVK) :=
  match objs with
  | [] => Ok acc
  | obj :: objs =>
      gvk ← GVKForObject obj scheme;
      collect_uncachedGVKs scheme objs (acc ∪ {[gvk]})
  end.

Definition NewDelegatingClient (i : NewDelegatingClientInput) : result (Client W) :=
  uncachedGVKs ← collect_uncachedGVKs (Client_Scheme (in_Client i)) (in_UncachedObjects i) ∅;
  let d := {| dr_CacheReader := in_CacheReader i;
              dr_ClientReader := Client_Reader (in_Client i);
              dr_uncachedGVKs := uncachedGVKs;
              dr_scheme := Client_Scheme (in_Client i);
              dr_cacheUnstructured := in_CacheUnstructured i |} in
  let c := in_Client i in
  Ok {| Get := delegatingReader_Get d;
        List := delegatingReader_List d;
        Create := Create c; Delete := Delete c; Update := Update c; Patch_ := Patch_ c;
        DeleteAllOf := DeleteAllOf c; Status := Status c;
        Client_Scheme := Client_Scheme c; Client_RESTMapper := Client_RESTMapper c |}.
End delegating.
Arguments NewDelegatingClientInput : clear implicits.

(** ** What the namespaced client promises *)

Section namespaced_facts.
Context {W : Type}.
Implicit Types (c : Client W) (ns : string) (obj : Object).

(** How a write on an object goes through: with the object's namespace set
    to [ns] when the object is namespaced, as it is when it is not, and not
    at all when the object names another namespace or has no scope. *)
Definition confined c ns (inner outer : ObjCall W) : Prop := ∀ obj w,
  outer obj w =
    match isNamespaced c obj with
    | Err _ => (obj, w, Some err_scope)
    | Ok scoped =>
        if decide (GetNamespace obj = "" ∨ GetNamespace obj = ns)
        then inner (if (scoped : bool) then SetNamespace ns obj else obj) w
        else (obj, w, Some err_namespace)
    end.

Lemma SetNamespace_id obj : SetNamespace (GetNamespace obj) obj = obj.
Proof. by destruct obj as [? ? []]. Qed.

Lemma with_namespace_confined c ns call : confined c ns call (with_namespace c ns call).
Proof.
  intros obj w. unfold with_namespace, enforce_namespace.
  destruct (isNamespaced c obj) as [[]|e]; [| |done];
    repeat case_decide; try done; try naive_solver.
  assert (GetNamespace obj = ns) as <- by naive_solver. by rewrite SetNamespace_id.
Qed.
#[local] Hint Resolve with_namespace_confined : core.

Lemma apply_options_snoc {T} (opts : list (T → T)) (f : T → T) (o : T) :
  fold_left (λ o opt, opt o) (opts ++ [f]) o = f (fold_left (λ o opt, opt o) opts o).
Proof. by rewrite fold_left_app. Qed.

(** A client made by [NewNamespacedClient] confines every operation to its
    namespace.  A write (create, update, delete, patch, and the two status
    writes) on a namespaced object reaches the wrapped client with the
    object's namespace set to the client's, a write on a cluster-scoped
    object reaches it unchanged, and a write on an object that names
    another namespace fails without reaching it; a read of a namespaced
    object is made under the client's namespace or refused; a list or a
    delete-all carries options whose namespace is the client's whatever the
    caller's options say, and which otherwise are the caller's. *)
Theorem namespacedClient_confines c ns :
  let n := NewNamespacedClient c ns in
  (∀ opts, confined c ns (Create c opts) (Create n opts))
  ∧ (∀ opts, confined c ns (Update c opts) (Update n opts))
  ∧ (∀ opts, confined c ns (Delete c opts) (Delete n opts))
  ∧ (∀ p opts, confined c ns (Patch_ c p opts) (Patch_ n p opts))
  ∧ (∀ opts, confined c ns (Status_Update (Status c) opts) (Status_Update (Status n) opts))
  ∧ (∀ p opts, confined c ns (Status_Patch (Status c) p opts) (Status_Patch (Status n) p opts))
  ∧ (∀ key obj w, isNamespaced c obj = Ok true →
      Get n key obj w = if decide (nn_Namespace key = "" ∨ nn_Namespace key = ns)
                        then Get c (mkNN ns (nn_Name key)) obj w
                        else (obj, w, Some err_namespace))
  ∧ (∀ opts l w, ns ≠ "" → ∃ opts', List n opts l w = List c opts' l w ∧
      ∀ o, ListOptions_ApplyOptions opts' o
           = InNamespace_ApplyToList ns (ListOptions_ApplyOptions opts o))
  ∧ (∀ opts obj w, isNamespaced c obj = Ok true →
      ∃ opts', DeleteAllOf n opts obj w = DeleteAllOf c opts' obj w ∧
      ∀ o, DeleteAllOfOptions_ApplyOptions opts' o
           = InNamespace_ApplyToDeleteAllOf ns (DeleteAllOfOptions_ApplyOptions opts o)).
Proof.
  cbn. repeat split; intros; try apply with_namespace_confined.
  - unfold namespaced_Get. rewrite H. repeat case_decide; naive_solver.
  - exists (opts ++ [InNamespace_ApplyToList ns]). unfold namespaced_List.
    rewrite decide_True by done. split; [done|]. intros o. apply apply_options_snoc.
  - exists (opts ++ [InNamespace_ApplyToDeleteAllOf ns]). unfold namespaced_DeleteAllOf.
    rewrite H. split; [done|]. intros o. apply apply_options_snoc.
Qed.

(** A client made by [NewDryRunClient] sends every mutating call to the
    wrapped client with options whose dry-run directive is exactly
    ["All"], whatever the caller's options say, and which otherwise are the
    caller's; reads go through unchanged. *)
Theorem dryRunClient_enforces_dry_run c :
  let d := NewDryRunClient c in
  (∀ opts, ∃ opts', Create d opts = Create c opts' ∧
     ∀ o, CreateOptions_ApplyOptions opts' o
          = dryRunAll_ApplyToCreate (CreateOptions_ApplyOptions opts o))
  ∧ (∀ opts, ∃ opts', Update d opts = Update c opts' ∧
     ∀ o, UpdateOptions_ApplyOptions opts' o
          = dryRunAll_ApplyToUpdate (UpdateOptions_ApplyOptions opts o))
  ∧ (∀ opts, ∃ opts', Delete d opts = Delete c opts' ∧
     ∀ o, DeleteOptions_ApplyOptions opts' o
          = dryRunAll_ApplyToDelete (DeleteOptions_ApplyOptions opts o))
  ∧ (∀ opts, ∃ opts', DeleteAllOf d opts = DeleteAllOf c opts' ∧
     ∀ o, let e := DeleteAllOfOptions_ApplyOptions opts' o in
          let u := DeleteAllOfOptions_ApplyOptions opts o in
          dao_ListOptions e = dao_ListOptions u
          ∧ dao_DeleteOptions e = dryRunAll_ApplyToDelete (dao_DeleteOptions u))
  ∧ (∀ p opts, ∃ opts', Patch_ d p opts = Patch_ c p opts' ∧
     ∀ o, PatchOptions_ApplyOptions opts' o
          = dryRunAll_ApplyToPatch (PatchOptions_ApplyOptions opts o))
  ∧ (∀ opts, ∃ opts', Status_Update (Status d) opts = Status_Update (Status c) opts' ∧
     ∀ o, UpdateOptions_ApplyOptions opts' o
          = dryRunAll_ApplyToUpdate (UpdateOptions_ApplyOptions opts o))
  ∧ (∀ p opts, ∃ opts', Status_Patch (Status d) p opts = Status_Patch (Status c) p opts' ∧
     ∀ o, PatchOptions_ApplyOptions opts' o
          = dryRunAll_ApplyToPatch (PatchOptions_ApplyOptions opts o))
  ∧ Get d = Get c ∧ List d = List c.
Proof.
  intros d. repeat split; intros;
    try (eexists; split; [reflexivity|]; intros; apply apply_options_snoc).
  eexists. split; [reflexivity|]. intros o e u.
  assert (e = dryRunAll_ApplyToDeleteAllOf u) as -> by apply apply_options_snoc. done.
Qed.
End namespaced_facts.

(** ** Routing of the delegating client *)

Section delegating_facts.
Context {W : Type}.
Variable IsListType : GoType → bool.

Lemma collect_uncachedGVKs_elem scheme objs acc s g :
  collect_uncachedGVKs scheme objs acc = Ok s →
  g ∈ s ↔ g ∈ acc ∨ ∃ obj, obj ∈ objs ∧ GVKForObject obj scheme = Ok g.
Proof.
  revert acc. induction objs as [|obj objs IH]; intros acc; cbn.
  - intros [= ->]. set_solver.
  - intros (g' & Hg' & Hc)%result_bind_Ok. rewrite (IH _ Hc), elem_of_union, elem_of_singleton.
    clear Hc IH. setoid_rewrite elem_of_cons. split.
    + intros [[?| ->]|(o & ? & ?)]; [by left|right; eauto|right; eauto].
    + intros [?|(o & [->|?] & Hk)]; [tauto| |right; eauto].
      rewrite Hg' in Hk. injection Hk as ->. tauto.
Qed.

(** A client made by [NewDelegatingClient] routes each read by the kind of
    its argument.  For an object of kind K (not a list type) it asks the
    wrapped client exactly when one of the uncached objects it was built
    with is of kind K, or the object is unstructured and unstructured
    objects are not cached; otherwise it asks the cache.  A list of kind
    KList is routed as an object of kind K of the same sort (unstructured
    or not) is.  Writes go to the wrapped client. *)
Theorem delegatingClient_routes (i : NewDelegatingClientInput W) (d : Client W)
    (obj : Object) (l : ObjectList) (k : GVK) :
  NewDelegatingClient IsListType i = Ok d →
  GVKForObject obj (Client_Scheme (in_Client i)) = Ok k →
  GVKForList l (Client_Scheme (in_Client i))
    = Ok (mkGVK (gvk_Group k) (gvk_Version k) (gvk_Kind k +:+ "List")) →
  IsListType (o_type obj) = false →
  IsListType (ol_type l) = true →
  is_unstructured (ol_type l) = is_unstructured (o_type obj) →
  ∃ bypass : bool,
    (bypass = true ↔
      (∃ u, u ∈ in_UncachedObjects i ∧ GVKForObject u (Client_Scheme (in_Client i)) = Ok k)
      ∨ (in_CacheUnstructured i = false ∧ is_unstructured (o_type obj) = true))
    ∧ (∀ key w, Get d key obj w = if bypass then Get (in_Client i) key obj w
                                  else Reader_Get (in_CacheReader i) key obj w)
    ∧ (∀ opts w, List d opts l w = if bypass then List (in_Client i) opts l w
                                   else Reader_List (in_CacheReader i) opts l w)
    ∧ Create d = Create (in_Client i) ∧ Update d = Update (in_Client i)
    ∧ Delete d = Delete (in_Client i) ∧ Patch_ d = Patch_ (in_Client i)
    ∧ DeleteAllOf d = DeleteAllOf (in_Client i) ∧ Status d = Status (in_Client i).
Proof.
  intros (s & Hs & [= <-])%result_bind_Ok Hobj Hl Ho_list Hl_list Hsort.
  pose proof (collect_uncachedGVKs_elem _ _ _ _ k Hs) as Hin.
  unfold GVKForObject in Hobj. unfold GVKForList in Hl.
  exists (bool_decide (k ∈ s) || (negb (in_CacheUnstructured i) && is_unstructured (o_type obj))).
  split.
  { rewrite orb_true_iff, andb_true_iff, negb_true_iff, bool_decide_eq_true, Hin.
    rewrite elem_of_empty. tauto. }
  destruct k as [g v kd]. cbn in *.
  repeat split; intros; unfold delegatingReader_Get, delegatingReader_List, shouldBypassCache; cbn.
  - rewrite Hobj, Ho_list. cbn. case_decide; [by rewrite bool_decide_true|].
    rewrite bool_decide_false by done. by destruct (in_CacheUnstructured i), (is_unstructured _).
  - rewrite Hl, Hl_list. cbn. rewrite TrimSuffix_app, Hsort.
    case_decide; [by rewrite bool_decide_true|].
    rewrite bool_decide_false by done. by destruct (in_CacheUnstructured i), (is_unstructured _).
Qed.
End delegating_facts.

(** ** A client as a store

    What code that reads an object, changes it and writes it back relies on:
    for one kind of objects the client is a store by key, a read into a fresh
    target returns what is stored, and a write stores the object under a
    resource version the store chooses.  [sc_target] says which objects a
    read may be made into. *)
Class StoreClient {W : Type} (c : Client W) (IsNotFound : error → bool) := {
  sc_ok : W → Prop;
  sc_managed : Object → Prop;
  sc_target : Object → Prop;
  sc_view : W → NamespacedName → option Object;
  sc_managed_rv : ∀ rv o, sc_managed o → sc_managed (SetResourceVersion rv o);
  sc_target_managed : ∀ o, sc_target o → sc_managed o ∧ GetName o ≠ "" ∧ GetResourceVersion o = "";
  sc_view_key : ∀ w key o, sc_ok w → sc_view w key = Some o →
    sc_managed o ∧ ObjectKeyFromObject o = key ∧ GetResourceVersion o ≠ "";
  sc_Get_Some : ∀ w o obj, sc_ok w → sc_target obj →
    sc_view w (ObjectKeyFromObject obj) = Some o →
    Get c (ObjectKeyFromObject obj) obj w = (o, w, None);
  sc_Get_None : ∀ w obj, sc_ok w → sc_target obj →
    sc_view w (ObjectKeyFromObject obj) = None →
    ∃ e, Get c (ObjectKeyFromObject obj) obj w = (obj, w, Some e) ∧ IsNotFound e = true;
  sc_Create : ∀ w obj, sc_ok w → sc_managed obj → GetName obj ≠ "" → GetResourceVersion obj = "" →
    sc_view w (ObjectKeyFromObject obj) = None →
    ∃ rv w', Create c [] obj w = (SetResourceVersion rv obj, w', None) ∧ sc_ok w' ∧
      ∀ k, sc_view w' k = if decide (k = ObjectKeyFromObject obj)
                          then Some (SetResourceVersion rv obj) else sc_view w k;
  sc_Update : ∀ w obj old, sc_ok w → sc_managed obj → GetName obj ≠ "" →
    GetDeletionTimestamp obj = None →
    sc_view w (ObjectKeyFromObject obj) = Some old → GetResourceVersion obj = GetResourceVersion old →
    ∃ rv w', Update c [] obj w = (SetResourceVersion rv obj, w', None) ∧ sc_ok w' ∧
      ∀ k, sc_view w' k = if decide (k = ObjectKeyFromObject obj)
                          then Some (SetResourceVersion rv obj) else sc_view w k;
}.
