(* ===== verification/Conversion.v ===== *)
(** * Conversion webhooks (src/pkg/webhook/conversion)

    The types of one kind in several versions: one of them is the hub, the
    others (the spokes) convert to it and from it.  Go types, their values and
    their conversion functions are parameters, and so are the scheme, the
    decoder and the HTTP and JSON libraries.  The known types of a scheme are a
    Go map, ranged over in any order. *)

From S2P Require Export Objects.

Section conversion.
(** Go types and values of objects without their type and API version. *)
Context {T V : Type} `{!EqDecision T}.

(** A [runtime.Object]; objects the code allocates have no type meta before
    it is set. *)
Record RuntimeObject := mkRuntimeObject {
  ro_type : T;
  ro_APIVersion : string;
  ro_Kind : string;
  ro_value : V;
}.

(** What the types of a program implement: the interfaces [Hub] and
    [Convertible] (pkg/conversion).  A conversion function is called with its
    receiver and its argument and returns the object it writes to; it may
    panic. *)
Class ConvertibleTypes := {
  implements_Hub : T → bool;
  implements_Convertible : T → bool;
  ConvertTo : RuntimeObject → RuntimeObject → outcome (RuntimeObject * option error);
  ConvertFrom : RuntimeObject → RuntimeObject → outcome (RuntimeObject * option error);
  type_name : T → string;
  object_text : RuntimeObject → string;
}.

(** A [*runtime.Scheme] and functions of apimachinery. *)
Class ConversionScheme := {
  scheme_New : GVK → result RuntimeObject;
  scheme_ObjectKinds : RuntimeObject → result (list GVK);
  scheme_AllKnownTypes : gmap GVK T;
  FromAPIVersionAndKind : string → string → GVK;
  TypeAccessor : RuntimeObject → option error;
  gvk_text : GVK → string;
}.

Context `{!ConvertibleTypes} `{!ConversionScheme} `{!MapRange GVK T}.
Implicit Types (src dst obj hub : RuntimeObject).

Definition object_gvk obj : GVK := FromAPIVersionAndKind (ro_APIVersion obj) (ro_Kind obj).

Definition isHub obj : bool := implements_Hub (ro_type obj).
Definition isConvertible obj : bool := implements_Convertible (ro_type obj).

(** ** The types of a group and kind *)

Definition objectGVKs obj : result (list GVK) :=
  match scheme_ObjectKinds obj with
  | Err e => Err e
  | Ok [objGVK] =>
      Ok (filter (λ gvk, gvk_GroupKind objGVK = gvk_GroupKind gvk) (map_range scheme_AllKnownTypes).*1)
  | Ok _ => Err (ErrorString ("expect to get only one GVK for " +:+ object_text obj))
  end.

(** The loop of [getHub]: the hub found so far. *)
Fixpoint getHub_loop obj (gvks : list GVK) (found : option RuntimeObject) : result (option RuntimeObject) :=
  match gvks with
  | [] => Ok found
  | gvk :: gvks =>
      match scheme_New gvk with
      | Err e => Err (ErrorWrap ("failed to allocate an instance for gvk " +:+ gvk_text gvk) e)
      | Ok instance =>
          if isHub instance then
            match found with
            | Some _ => Err (ErrorString ("multiple hub version defined for " +:+ type_name (ro_type obj)))
            | None => getHub_loop obj gvks (Some instance)
            end
          else getHub_loop obj gvks found
      end
  end.

Definition err_no_gvks obj : error :=
  ErrorString ("error retrieving gvks for object : " +:+ object_text obj).

Definition getHub obj : result (option RuntimeObject) :=
  match objectGVKs obj with
  | Err e => Err e
  | Ok [] => Err (err_no_gvks obj)
  | Ok gvks => getHub_loop obj gvks None
  end.

(** ** Conversion of one object

    The result is the destination as it is left, and an error. *)

Definition convertViaHub src dst : outcome (RuntimeObject * option error) :=
  match getHub src with
  | Err e => Returned (dst, Some e)
  | Ok None => Returned (dst, Some (ErrorString (object_text src +:+ " does not have any Hub defined")))
  | Ok (Some hub) =>
      '(hub, err) ← ConvertTo src hub;
      match err with
      | Some e => Returned (dst, Some (ErrorWrap (type_name (ro_type src) +:+ " failed to convert to hub version "
                                          +:+ type_name (ro_type hub) +:+ " ") e))
      | None =>
          '(dst, err) ← ConvertFrom dst hub;
          Returned (dst,
            match err with
            | Some e => Some (ErrorWrap (type_name (ro_type dst) +:+ " failed to convert from hub version "
                                           +:+ type_name (ro_type hub) +:+ " ") e)
            | None => None
            end)
      end
  end.

Definition convertObject src dst : outcome (RuntimeObject * option error) :=
  let srcGVK := object_gvk src in
  let dstGVK := object_gvk dst in
  if decide (gvk_GroupKind srcGVK ≠ gvk_GroupKind dstGVK) then
    Returned (dst, Some (ErrorString ("src " +:+ type_name (ro_type src) +:+ " and dst " +:+ type_name (ro_type dst)
                                        +:+ " does not belong to same API Group")))
  else if decide (srcGVK = dstGVK) then
    Returned (dst, Some (ErrorString ("conversion is not allowed between same type " +:+ type_name (ro_type src))))
  else if isHub src && isConvertible dst then ConvertFrom dst src
  else if isHub dst && isConvertible src then ConvertTo src dst
  else if isConvertible src && isConvertible dst then convertViaHub src dst
  else Returned (dst, Some (ErrorString (type_name (ro_type src) +:+ " is not convertible to " +:+ type_name (ro_type dst)))).

Definition set_type_meta obj (apiVersion kind : string) : RuntimeObject :=
  mkRuntimeObject (ro_type obj) apiVersion kind (ro_value obj).

Definition allocateDstObject (apiVersion kind : string) : result RuntimeObject :=
  match scheme_New (FromAPIVersionAndKind apiVersion kind) with
  | Err e => Err e
  | Ok obj =>
      match TypeAccessor obj with
      | Some e => Err e
      | None => Ok (set_type_meta obj apiVersion kind)
      end
  end.

(** ** Requests *)

Record ConversionRequest := mkConversionRequest {
  cq_UID : string;
  cq_DesiredAPIVersion : string;
  cq_Objects : list string;
}.

(** [Result] is its status, [Success] or [Failure], and its message. *)
Record ConversionResponse := mkConversionResponse {
  cs_UID : string;
  cs_ConvertedObjects : list RuntimeObject;
  cs_Status : string;
  cs_Message : string;
}.

Record ConversionReview := mkConversionReview {
  cv_TypeMeta : string * string;
  cv_Request : option ConversionRequest;
  cv_Response : option ConversionResponse;
}.

Definition StatusSuccess : string := "Success".
Definition StatusFailure : string := "Failure".

Definition errored (err : error) : ConversionResponse :=
  mkConversionResponse "" [] StatusFailure (error_text err).

(** The decoder of the webhook, [UniversalDeserializer]. *)
Variable Decode : string → result (RuntimeObject * GVK).

(** The loop over the objects of a request. *)
Fixpoint convert_all (desired : string) (raws : list string) (objects : list RuntimeObject)
    : outcome (result (list RuntimeObject)) :=
  match raws with
  | [] => Returned (Ok objects)
  | raw :: raws =>
      match Decode raw with
      | Err e => Returned (Err e)
      | Ok (src, gvk) =>
          match allocateDstObject desired (gvk_Kind gvk) with
          | Err e => Returned (Err e)
          | Ok dst =>
              '(dst, err) ← convertObject src dst;
              match err with
              | Some e => Returned (Err e)
              | None => convert_all desired raws (objects ++ [dst])
              end
          end
      end
  end.

Definition handleConvertRequest (req : option ConversionRequest) : outcome (result ConversionResponse) :=
  match req with
  | None => Returned (Err (ErrorString "conversion request is nil"))
  | Some req =>
      r ← convert_all (cq_DesiredAPIVersion req) (cq_Objects req) [];
      Returned (match r with
                | Err e => Err e
                | Ok objects => Ok (mkConversionResponse (cq_UID req) objects StatusSuccess "")
                end)
  end.

(** What the handler does to its response writer: a status line without a
    body, or a review, encoded; a failure to write it is only logged. *)
Inductive HttpAnswer :=
  | Header (code : Z)
  | Review (review : ConversionReview).

(** [body] is what decoding the body of the request gives. *)
Definition Conversion_ServeHTTP (body : result ConversionReview) : outcome HttpAnswer :=
  match body with
  | Err _ => Returned (Header 400)
  | Ok convertReview =>
      resp ← handleConvertRequest (cv_Request convertReview);
      match cv_Request convertReview with
      | None => Panicked "runtime error: invalid memory address or nil pointer dereference"
      | Some req =>
          let response := match resp with Err err => errored err | Ok resp => resp end in
          Returned (Review (mkConversionReview (cv_TypeMeta convertReview) None
            (Some (mkConversionResponse (cq_UID req) (cs_ConvertedObjects response)
                     (cs_Status response) (cs_Message response)))))
      end
  end.

(** ** Whether a type can be converted *)

Record PartialImplementationError := mkPartial {
  pie_gvk : GVK;
  pie_hubs : list RuntimeObject;
  pie_nonSpokes : list RuntimeObject;
  pie_spokes : list RuntimeObject;
}.

Definition int_text (n : nat) : string := Itoa (Z.of_nat n).

Definition PartialImplementationError_Error (e : PartialImplementationError) : string :=
  if decide (pie_hubs e = []) then "no hub defined for gvk " +:+ gvk_text (pie_gvk e)
  else if decide (1 < length (pie_hubs e))%nat then
    "multiple(" +:+ int_text (length (pie_hubs e)) +:+ ") hubs defined for group-kind '" +:+
      GroupKind_String (gvk_GroupKind (pie_gvk e)) +:+ "' "
  else if decide (0 < length (pie_nonSpokes e))%nat then
    int_text (length (pie_nonSpokes e)) +:+ " inconvertible types detected for group-kind '" +:+
      GroupKind_String (gvk_GroupKind (pie_gvk e)) +:+ "'"
  else "".

(** The loop of [IsConvertible]: hubs, spokes and the others. *)
Fixpoint classify_types (gvks : list GVK) (hubs spokes nonSpokes : list RuntimeObject)
    : result (list RuntimeObject * list RuntimeObject * list RuntimeObject) :=
  match gvks with
  | [] => Ok (hubs, spokes, nonSpokes)
  | gvk :: gvks =>
      match scheme_New gvk with
      | Err e => Err (ErrorWrap ("failed to allocate an instance for gvk " +:+ gvk_text gvk) e)
      | Ok instance =>
          if isHub instance then classify_types gvks (hubs ++ [instance]) spokes nonSpokes
          else if negb (isConvertible instance) then classify_types gvks hubs spokes (nonSpokes ++ [instance])
          else classify_types gvks hubs (spokes ++ [instance]) nonSpokes
      end
  end.

Inductive convertibility :=
  | Convertible_is (b : bool)
  | Convertible_failed (e : error)
  | Convertible_partial (e : PartialImplementationError).

Definition IsConvertible obj : convertibility :=
  match objectGVKs obj with
  | Err e => Convertible_failed e
  | Ok [] => Convertible_failed (err_no_gvks obj)
  | Ok gvks =>
      match classify_types gvks [] [] [] with
      | Err e => Convertible_failed e
      | Ok (hubs, spokes, nonSpokes) =>
          if decide (length gvks = 1%nat) then Convertible_is false
          else if decide (length hubs = 0%nat ∧ length spokes = 0%nat) then Convertible_is false
          else if decide (length hubs = 1%nat ∧ length nonSpokes = 0%nat) then Convertible_is true
          else Convertible_partial (mkPartial (mkGVK "" "" "") hubs nonSpokes spokes)
      end
  end.
End conversion.
Arguments RuntimeObject T V : clear implicits.
Arguments ConvertibleTypes T V : clear implicits.
Arguments ConversionScheme T V : clear implicits.

(** ** Schemes *)

(** The documented behaviour of a scheme, of types registered under one kind
    each: [New] gives an instance of every known type, and [ObjectKinds] the
    kind its type is known under. *)
Class ConversionSchemeLaws (T V : Type) `{ConversionScheme T V} := {
  scheme_New_known : ∀ g t, scheme_AllKnownTypes !! g = Some t →
    ∃ o, scheme_New g = Ok o ∧ ro_type o = t;
  scheme_ObjectKinds_type : ∀ obj obj', ro_type obj = ro_type obj' →
    scheme_ObjectKinds obj = scheme_ObjectKinds obj';
  scheme_ObjectKinds_known : ∀ obj gs, scheme_ObjectKinds obj = Ok gs →
    ∀ g, g ∈ gs ↔ scheme_AllKnownTypes !! g = Some (ro_type obj);
}.

Section facts.
Context {T V : Type} `{!EqDecision T}.
Context `{!ConvertibleTypes T V} `{!ConversionScheme T V} `{!ConversionSchemeLaws T V} `{!MapRange GVK T}.
Implicit Types (src dst obj hub : RuntimeObject T V) (gk : GroupKind) (g : GVK).

(** The versions of a group and kind. *)
Definition version_of gk g (t : T) : Prop := scheme_AllKnownTypes !! g = Some t ∧ gvk_GroupKind g = gk.

(** One hub, and all the others are spokes. *)
Record hub_and_spokes gk (hub_gvk : GVK) : Prop := {
  the_hub : ∃ t, version_of gk hub_gvk t ∧ implements_Hub t = true;
  only_hub : ∀ g t, version_of gk g t → implements_Hub t = true → g = hub_gvk;
  all_spokes : ∀ g t, version_of gk g t → implements_Hub t = true ∨ implements_Convertible t = true;
  two_versions : ∃ g t, version_of gk g t ∧ g ≠ hub_gvk;
}.

Lemma objectGVKs_Ok obj gvks : objectGVKs obj = Ok gvks →
  ∃ g0, scheme_AllKnownTypes !! g0 = Some (ro_type obj) ∧ scheme_ObjectKinds obj = Ok [g0]
    ∧ NoDup gvks ∧ ∀ g, g ∈ gvks ↔ ∃ t, version_of (gvk_GroupKind g0) g t.
Proof.
  unfold objectGVKs. destruct (scheme_ObjectKinds obj) as [[|g0 [|]]|] eqn:Hk; try done.
  intros [= <-]. exists g0. split; [|split; [done|split]].
  - apply (scheme_ObjectKinds_known _ _ Hk). by left.
  - apply NoDup_filter, NoDup_map_range_keys.
  - intros g. rewrite list_elem_of_filter, elem_of_map_range_keys. unfold version_of. split.
    + intros (Heq & t & Ht). exists t. by split.
    + intros (t & Ht & Heq). split; [done|]. by exists t.
Qed.

Lemma objectGVKs_known obj g0 :
  scheme_ObjectKinds obj = Ok [g0] → ∃ gvks, objectGVKs obj = Ok gvks ∧ g0 ∈ gvks.
Proof.
  intros Hk. unfold objectGVKs. rewrite Hk. eexists. split; [done|].
  rewrite list_elem_of_filter, elem_of_map_range_keys. split; [done|].
  exists (ro_type obj). apply (scheme_ObjectKinds_known _ _ Hk). by left.
Qed.

(** *** The hub *)

(** The instances the loops make. *)
Definition instance_of g obj : Prop := scheme_New g = Ok obj.

Lemma new_version gk g t : version_of gk g t → ∃ o, instance_of g o ∧ ro_type o = t.
Proof. intros [Hk _]. by apply scheme_New_known. Qed.

Lemma getHub_loop_spec gk hub_gvk hub obj gvks found :
  hub_and_spokes gk hub_gvk → instance_of hub_gvk hub →
  NoDup gvks → (∀ g, g ∈ gvks → ∃ t, version_of gk g t) →
  (found = None ∨ hub_gvk ∉ gvks) →
  getHub_loop obj gvks found = Ok (if decide (hub_gvk ∈ gvks) then Some hub else found).
Proof.
  intros Hh Hi Hnd. revert found. induction Hnd as [|g gvks Hg Hnd IH]; intros found Hv Hf; cbn [getHub_loop].
  { by rewrite decide_False by apply not_elem_of_nil. }
  destruct (Hv g) as [t Ht]; [by left|].
  destruct (new_version gk g t Ht) as (o & Ho & Hot). unfold instance_of in Ho. rewrite Ho. unfold isHub. rewrite Hot.
  assert (∀ g', g' ∈ gvks → ∃ t, version_of gk g' t) as Hv' by (intros; apply Hv; by right).
  destruct (decide (g = hub_gvk)) as [->|Hne].
  - destruct (the_hub _ _ Hh) as (t' & Ht' & Hhub). assert (t' = t) as -> by (destruct Ht, Ht'; congruence).
    rewrite Hhub. destruct Hf as [->|Hf]; [|destruct Hf; by left].
    assert (o = hub) as -> by (unfold instance_of in Hi; congruence).
    rewrite IH by first [done|by right]. by rewrite decide_False, decide_True by first [done|by left].
  - destruct (implements_Hub t) eqn:Hhub; [by destruct Hne; apply (only_hub _ _ Hh g t Ht)|].
    rewrite IH; [|done|rewrite elem_of_cons in Hf; tauto].
    repeat case_decide; try done; set_solver.
Qed.

Lemma getHub_spec gk hub_gvk hub obj g0 :
  hub_and_spokes gk hub_gvk → instance_of hub_gvk hub →
  scheme_ObjectKinds obj = Ok [g0] → gvk_GroupKind g0 = gk → getHub obj = Ok (Some hub).
Proof.
  intros Hh Hi Hk <-. destruct (objectGVKs_known _ _ Hk) as (gvks & Hg & Hin).
  destruct (objectGVKs_Ok _ _ Hg) as (g1 & _ & Hk1 & Hnd & Hall).
  assert (g1 = g0) as -> by congruence. unfold getHub. rewrite Hg.
  destruct gvks as [|g gvks]; [by apply not_elem_of_nil in Hin|].
  rewrite (getHub_loop_spec _ hub_gvk hub obj (g :: gvks) None Hh Hi Hnd); [|intros; by apply Hall|by left].
  rewrite decide_True; [done|]. apply Hall. destruct (the_hub _ _ Hh) as (t & Ht & _). eauto.
Qed.

(** *** Classification *)

Lemma classify_types_spec gk gvks : (∀ g, g ∈ gvks → ∃ t, version_of gk g t) →
  ∀ hubs spokes nonSpokes, ∃ hubs' spokes' nonSpokes',
    classify_types gvks hubs spokes nonSpokes = Ok (hubs ++ hubs', spokes ++ spokes', nonSpokes ++ nonSpokes')
    ∧ length hubs' = length (filter (λ g, from_option implements_Hub false (scheme_AllKnownTypes !! g) = true) gvks)
    ∧ length nonSpokes' = length (filter (λ g, from_option (λ t, implements_Hub t || implements_Convertible t) true
                                              (scheme_AllKnownTypes !! g) = false) gvks)
    ∧ (length hubs' + length spokes' + length nonSpokes' = length gvks)%nat.
Proof.
  induction gvks as [|g gvks IH]; intros Hv hubs spokes nonSpokes; cbn [classify_types].
  { exists [], [], []. by rewrite !app_nil_r. }
  destruct (Hv g) as [t Ht]; [by left|].
  destruct (new_version gk g t Ht) as (o & Ho & Hot). unfold instance_of in Ho. rewrite Ho.
  unfold isHub, isConvertible. rewrite Hot. destruct Ht as [Hk _].
  assert (∀ g', g' ∈ gvks → ∃ t, version_of gk g' t) as Hv' by (intros; apply Hv; by right).
  destruct (implements_Hub t) eqn:Hhub; [|destruct (implements_Convertible t) eqn:Hconv]; cbn [negb].
  - destruct (IH Hv' (hubs ++ [o]) spokes nonSpokes) as (h & s & n & -> & Hh & Hn & Hl).
    exists (o :: h), s, n. rewrite <- app_assoc. split; [done|].
    rewrite filter_cons_True, filter_cons_False by (rewrite Hk; cbn; by rewrite Hhub). cbn. repeat split; lia.
  - destruct (IH Hv' hubs (spokes ++ [o]) nonSpokes) as (h & s & n & -> & Hh & Hn & Hl).
    exists h, (o :: s), n. rewrite <- app_assoc. split; [done|].
    rewrite !filter_cons_False by (rewrite Hk; cbn; by rewrite Hhub, ?Hconv). cbn. repeat split; lia.
  - destruct (IH Hv' hubs spokes (nonSpokes ++ [o])) as (h & s & n & -> & Hh & Hn & Hl).
    exists h, s, (o :: n). rewrite <- app_assoc. split; [done|].
    rewrite filter_cons_False, filter_cons_True by (rewrite Hk; cbn; by rewrite Hhub, ?Hconv). cbn. repeat split; lia.
Qed.

(** A filter that keeps as many elements as there are of a list without
    duplicates. *)
Lemma filter_length_one {A} (P : A → Prop) `{!∀ x, Decision (P x)} (l : list A) :
  length (filter P l) = 1%nat → ∃ x, x ∈ l ∧ P x ∧ ∀ y, y ∈ l → P y → y = x.
Proof.
  intros Hl. destruct (filter P l) as [|x [|]] eqn:Hf; try done.
  assert (x ∈ filter P l) as Hx by (rewrite Hf; by left).
  apply list_elem_of_filter in Hx as [HP Hin]. exists x. split; [done|]. split; [done|].
  intros y Hy HPy. assert (y ∈ filter P l) as Hyf by by apply list_elem_of_filter.
  rewrite Hf in Hyf. by apply list_elem_of_singleton in Hyf.
Qed.

Lemma filter_length_zero {A} (P : A → Prop) `{!∀ x, Decision (P x)} (l : list A) :
  length (filter P l) = 0%nat ↔ ∀ x, x ∈ l → ¬ P x.
Proof.
  split.
  - intros Hl x Hx HP. destruct (filter P l) eqn:Hf; [|done].
    apply (not_elem_of_nil x). rewrite <- Hf. by apply list_elem_of_filter.
  - intros Hno. destruct (filter P l) as [|x l'] eqn:Hf; [done|].
    assert (x ∈ filter P l) as Hx by (rewrite Hf; by left). apply list_elem_of_filter in Hx as [HP Hin].
    by destruct (Hno x Hin).
Qed.

Lemma filter_one {A} (P : A → Prop) `{!∀ x, Decision (P x)} (l : list A) x :
  NoDup l → x ∈ l → P x → (∀ y, y ∈ l → P y → y = x) → length (filter P l) = 1%nat.
Proof.
  intros Hnd Hx HP Hall. pose proof (NoDup_filter P l Hnd) as Hndf.
  assert (x ∈ filter P l) as Hin by by apply list_elem_of_filter.
  destruct (filter P l) as [|y [|z l']] eqn:Hf; [by apply not_elem_of_nil in Hin|done|].
  assert (y ∈ filter P l) as Hy by (rewrite Hf; by left).
  assert (z ∈ filter P l) as Hz by (rewrite Hf; right; by left).
  apply list_elem_of_filter in Hy as [Py Iy], Hz as [Pz Iz].
  rewrite (Hall y Iy Py), (Hall z Iz Pz) in Hndf. apply NoDup_cons in Hndf as [Hn _]. destruct Hn. by left.
Qed.

Lemma version_of_fun gk g t t' : version_of gk g t → version_of gk g t' → t = t'.
Proof. intros [? _] [? _]. congruence. Qed.

Lemma IsConvertible_hub obj :
  IsConvertible obj = Convertible_is true →
  ∃ g0 hub_gvk, scheme_ObjectKinds obj = Ok [g0] ∧ hub_and_spokes (gvk_GroupKind g0) hub_gvk.
Proof.
  unfold IsConvertible. destruct (objectGVKs obj) as [[|g gvks0]|] eqn:Hg; try done.
  set (gvks := g :: gvks0) in *.
  destruct (objectGVKs_Ok _ _ Hg) as (g0 & _ & Hk & Hnd & Hall). set (gk := gvk_GroupKind g0) in *.
  destruct (classify_types_spec gk gvks (λ g, proj1 (Hall g)) [] [] []) as (h & s & n & -> & Hh & Hn & Hl). cbn.
  case_decide as Hone; [done|]. case_decide; [done|]. case_decide as Hboth; [|done]. intros _.
  destruct Hboth as [Hh1 Hn0]. rewrite Hh1 in Hh. rewrite Hn0 in Hn.
  destruct (filter_length_one _ _ (eq_sym Hh)) as (hub_gvk & Hin & Hhub & Huniq).
  symmetry in Hn. rewrite filter_length_zero in Hn. exists g0, hub_gvk. split; [done|].
  assert (∀ g t, version_of gk g t → from_option implements_Hub false (scheme_AllKnownTypes !! g) = implements_Hub t) as Hhubt
    by (intros g' t [-> _]; done).
  split.
  - apply Hall in Hin as [t Ht]. exists t. split; [done|]. by rewrite <- (Hhubt _ _ Ht).
  - intros g' t Ht Hhub'. apply Huniq; [apply Hall; eauto|]. by rewrite (Hhubt _ _ Ht).
  - intros g' t Ht. specialize (Hn g'). destruct Ht as [Hkt Hgk]. rewrite Hkt in Hn. cbn in Hn.
    apply orb_true_iff, not_false_iff_true. apply Hn, Hall. by exists t.
  - destruct gvks0 as [|g2 gvks']; [done|]. subst gvks. apply NoDup_cons in Hnd as [Hn12 _].
    destruct (decide (g = hub_gvk)) as [->|Hne].
    + exists g2. destruct (proj1 (Hall g2)) as [t Ht]; [right; by left|]. exists t. split; [done|].
      intros ->. destruct Hn12. by left.
    + exists g. destruct (proj1 (Hall g)) as [t Ht]; [by left|]. by exists t.
Qed.

Lemma hub_IsConvertible obj g0 hub_gvk :
  scheme_ObjectKinds obj = Ok [g0] → hub_and_spokes (gvk_GroupKind g0) hub_gvk →
  IsConvertible obj = Convertible_is true.
Proof.
  intros Hk Hh. set (gk := gvk_GroupKind g0) in *.
  destruct (objectGVKs_known _ _ Hk) as (gvks & Hg & Hin0). unfold IsConvertible. rewrite Hg.
  destruct (objectGVKs_Ok _ _ Hg) as (g1 & _ & Hk1 & Hnd & Hall). assert (g1 = g0) as -> by congruence. fold gk in Hall.
  destruct (classify_types_spec gk gvks (λ g, proj1 (Hall g)) [] [] []) as (h & s & n & -> & Hc & Hn & Hl). cbn.
  destruct (the_hub _ _ Hh) as (th & Hth & Hhubth).
  assert (length h = 1%nat) as Hlh.
  { rewrite Hc. apply (filter_one _ _ hub_gvk); [done|apply Hall; eauto| |].
    - destruct Hth as [-> _]. done.
    - intros g Hg' Hhub. apply Hall in Hg' as [t Ht]. apply (only_hub _ _ Hh g t Ht).
      destruct Ht as [Hkt _]. by rewrite Hkt in Hhub. }
  assert (length n = 0%nat) as Hln.
  { rewrite Hn. apply filter_length_zero. intros g Hg' Hf. apply Hall in Hg' as [t Ht].
    pose proof (all_spokes _ _ Hh g t Ht) as Hs. destruct Ht as [Hkt _]. rewrite Hkt in Hf. cbn in Hf.
    apply orb_false_iff in Hf as [??]. destruct Hs; congruence. }
  destruct gvks as [|g gvks']; [by apply not_elem_of_nil in Hin0|].
  rewrite decide_False.
  2: { intros Hlen. destruct gvks'; [|done]. destruct (two_versions _ _ Hh) as (g2 & t2 & H2 & Hne).
    assert (g2 ∈ [g]) as Hg2 by (apply Hall; eauto). assert (hub_gvk ∈ [g]) as Hgh by (apply Hall; eauto).
    apply list_elem_of_singleton in Hg2, Hgh. congruence. }
  rewrite decide_False by lia. by rewrite decide_True.
Qed.

(** *** Conversions *)

(** Conversion through an instance of the hub. *)
Definition through_hub hub src dst : outcome (RuntimeObject T V * option error) :=
  '(hub', err) ← ConvertTo src hub;
  match err with
  | Some e => Returned (dst, Some (ErrorWrap (type_name (ro_type src) +:+ " failed to convert to hub version "
                                      +:+ type_name (ro_type hub') +:+ " ") e))
  | None =>
      '(dst, err) ← ConvertFrom dst hub';
      Returned (dst,
        match err with
        | Some e => Some (ErrorWrap (type_name (ro_type dst) +:+ " failed to convert from hub version "
                                       +:+ type_name (ro_type hub') +:+ " ") e)
        | None => None
        end)
  end.

(** An object that says what it is: its type meta is the kind its type is
    known under. *)
Definition well_typed gk obj g : Prop :=
  scheme_ObjectKinds obj = Ok [g] ∧ object_gvk obj = g ∧ gvk_GroupKind g = gk.

Lemma well_typed_version gk obj g : well_typed gk obj g → version_of gk g (ro_type obj).
Proof.
  intros (Hk & _ & Hgk). split; [|done]. apply (scheme_ObjectKinds_known _ _ Hk). by left.
Qed.

Lemma convertObject_routes gk hub_gvk hub src dst gs gd :
  hub_and_spokes gk hub_gvk → instance_of hub_gvk hub →
  well_typed gk src gs → well_typed gk dst gd → gs ≠ gd →
  convertObject src dst =
    if isHub src then ConvertFrom dst src
    else if isHub dst then ConvertTo src dst
    else through_hub hub src dst.
Proof.
  intros Hh Hi Hs Hd Hne. pose proof (well_typed_version _ _ _ Hs) as Hvs.
  pose proof (well_typed_version _ _ _ Hd) as Hvd.
  destruct Hs as (Hks & Hgs & Hgks), Hd as (_ & Hgd & Hgkd).
  unfold convertObject. rewrite Hgs, Hgd, decide_False, decide_False by congruence.
  pose proof (all_spokes _ _ Hh _ _ Hvs) as Hcs. pose proof (all_spokes _ _ Hh _ _ Hvd) as Hcd.
  unfold isHub, isConvertible. destruct (implements_Hub (ro_type src)) eqn:Hhs; cbn [andb].
  - destruct Hcd as [Hcd|Hcd]; [|by rewrite Hcd].
    destruct Hne. by rewrite (only_hub _ _ Hh _ _ Hvs Hhs), (only_hub _ _ Hh _ _ Hvd Hcd).
  - destruct Hcs as [Hcs|Hcs]; [done|]. rewrite Hcs.
    destruct (implements_Hub (ro_type dst)) eqn:Hhd; cbn [andb]; [done|].
    destruct Hcd as [Hcd|Hcd]; [done|]. rewrite Hcd. unfold convertViaHub.
    by rewrite (getHub_spec gk hub_gvk hub src gs).
Qed.

(** [IsConvertible] tells exactly whether the versions of the kind of an
    object are one hub and at least one other version, all the others being
    spokes; and then every conversion between two different versions takes
    its route, whichever order the known types of the scheme are visited in:
    from the hub by the spoke's [ConvertFrom], to the hub by the spoke's
    [ConvertTo], and between spokes by both through a fresh instance of the
    hub.  None is refused for want of a hub or of an implementation. *)
Theorem IsConvertible_routes :
  (∀ obj, IsConvertible obj = Convertible_is true ↔
     ∃ g0 hub_gvk, scheme_ObjectKinds obj = Ok [g0] ∧ hub_and_spokes (gvk_GroupKind g0) hub_gvk)
  ∧ ∀ gk hub_gvk hub src dst gs gd,
      hub_and_spokes gk hub_gvk → instance_of hub_gvk hub →
      well_typed gk src gs → well_typed gk dst gd → gs ≠ gd →
      convertObject src dst =
        if isHub src then ConvertFrom dst src
        else if isHub dst then ConvertTo src dst
        else through_hub hub src dst.
Proof.
  split; [|exact convertObject_routes]. intros obj. split; [apply IsConvertible_hub|].
  intros (g0 & hub_gvk & Hk & Hh). by eapply hub_IsConvertible.
Qed.

(** *** There and back *)

(** A spoke whose conversions to and from the hub [hub] (an instance) neither
    fail nor lose anything: what goes to the hub comes back, and what the hub
    has got from any version survives the way to the spoke and back. *)
Record lossless hub (t : T) : Prop := {
  spoke_to_hub : ∀ x, ro_type x = t → ∃ h, ConvertTo x hub = Returned (h, None) ∧
    ∀ d, ro_type d = t → ∃ d', ConvertFrom d h = Returned (d', None) ∧ ro_value d' = ro_value x;
  hub_to_spoke : ∀ y h d, ConvertTo y hub = Returned (h, None) → ro_type d = t →
    ∃ d', ConvertFrom d h = Returned (d', None) ∧ ConvertTo d' hub = Returned (h, None)
      ∧ ro_type d' = ro_type d ∧ object_gvk d' = object_gvk d;
}.

(** Converting an object of one spoke to another spoke and back, each time
    into a fresh object, gives the value it had, when the conversions of
    each of the two to and from the hub lose nothing - although neither spoke
    knows of the other. *)
Theorem conversion_roundtrip gk hub_gvk hub src dst back gs gd :
  hub_and_spokes gk hub_gvk → instance_of hub_gvk hub →
  well_typed gk src gs → well_typed gk dst gd → gs ≠ gd → gs ≠ hub_gvk → gd ≠ hub_gvk →
  lossless hub (ro_type src) → lossless hub (ro_type dst) →
  ro_type back = ro_type src → object_gvk back = object_gvk src →
  ∃ dst' src', convertObject src dst = Returned (dst', None)
    ∧ convertObject dst' back = Returned (src', None)
    ∧ ro_value src' = ro_value src.
Proof.
  intros Hh Hi Hs Hd Hne Hsh Hdh Hls Hld Hbt Hbg.
  assert (∀ obj g, well_typed gk obj g → g ≠ hub_gvk → isHub obj = false) as Hspoke.
  { intros obj g Hw Hg. unfold isHub. destruct (implements_Hub _) eqn:Hb; [|done].
    destruct Hg. by eapply (only_hub _ _ Hh), Hb; apply well_typed_version. }
  assert (well_typed gk back gs) as Hback.
  { destruct Hs as (Hk & Hg & Hgk). split; [|split; [congruence|done]].
    by rewrite (scheme_ObjectKinds_type back src). }
  destruct (spoke_to_hub _ _ Hls src eq_refl) as (h & Hto & Hfrom).
  destruct (hub_to_spoke _ _ Hld src h dst Hto eq_refl) as (dst' & Hd' & Hto' & Ht' & Hg').
  assert (well_typed gk dst' gd) as Hdst'.
  { destruct Hd as (Hk & Hg & Hgk). split; [|split; [congruence|done]].
    by rewrite (scheme_ObjectKinds_type dst' dst). }
  destruct (Hfrom back Hbt) as (src' & Hs' & Hval). exists dst', src'.
  rewrite (convertObject_routes gk hub_gvk hub src dst gs gd) by done.
  rewrite (convertObject_routes gk hub_gvk hub dst' back gd gs) by done.
  rewrite (Hspoke _ _ Hs Hsh), (Hspoke _ _ Hd Hdh), (Hspoke _ _ Hdst' Hdh), (Hspoke _ _ Hback Hsh).
  unfold through_hub. rewrite Hto. cbn. rewrite Hd'. cbn. rewrite Hto'. cbn. rewrite Hs'. done.
Qed.

(** *** Reviews *)

Section reviews.
Variable Decode : string → result (RuntimeObject T V * GVK).

Definition convert_one (desired raw : string) : outcome (result (RuntimeObject T V)) :=
  match Decode raw with
  | Err e => Returned (Err e)
  | Ok (src, gvk) =>
      match allocateDstObject desired (gvk_Kind gvk) with
      | Err e => Returned (Err e)
      | Ok dst =>
          '(dst, err) ← convertObject src dst;
          Returned (match err with Some e => Err e | None => Ok dst end)
      end
  end.

(** What the objects of a request come to: all converted, or the first that
    is not. *)
Inductive converts (desired : string) : list string → outcome (result (list (RuntimeObject T V))) → Prop :=
  | converts_all raws objs :
      Forall2 (λ raw obj, convert_one desired raw = Returned (Ok obj)) raws objs →
      converts desired raws (Returned (Ok objs))
  | converts_error done raw rest objs e :
      Forall2 (λ raw obj, convert_one desired raw = Returned (Ok obj)) done objs →
      convert_one desired raw = Returned (Err e) →
      converts desired (done ++ raw :: rest) (Returned (Err e))
  | converts_panic done raw rest objs msg :
      Forall2 (λ raw obj, convert_one desired raw = Returned (Ok obj)) done objs →
      convert_one desired raw = Panicked msg →
      converts desired (done ++ raw :: rest) (Panicked msg).

Lemma convert_all_cons desired raw raws objs :
  convert_all Decode desired (raw :: raws) objs =
    r ← convert_one desired raw;
    match r with Err e => Returned (Err e) | Ok obj => convert_all Decode desired raws (objs ++ [obj]) end.
Proof.
  cbn. unfold convert_one. destruct (Decode raw) as [[src gvk]|]; [|done].
  destruct (allocateDstObject _ _) as [dst|]; [|done].
  by destruct (convertObject src dst) as [[dst' [e|]]|].
Qed.

Lemma convert_all_spec desired raws : ∀ done objs,
  Forall2 (λ raw obj, convert_one desired raw = Returned (Ok obj)) done objs →
  converts desired (done ++ raws) (convert_all Decode desired raws objs).
Proof.
  induction raws as [|raw raws IH]; intros done objs Hdone.
  { rewrite app_nil_r. by constructor. }
  rewrite convert_all_cons. destruct (convert_one desired raw) as [[obj|e]|msg] eqn:Ho; cbn.
  - rewrite cons_middle, app_assoc. apply IH, Forall2_app; [done|]. by constructor.
  - by eapply converts_error.
  - by eapply converts_panic.
Qed.

(** A conversion review is answered all or nothing.  A body that is not a
    review is a bad request.  A review is answered with its request's UID:
    with success and one object for each that was sent, in order, if every
    object could be decoded, allocated in the desired version and converted;
    and with failure, the message of the first that could not, and no
    objects otherwise.  A panic of a conversion function goes on, and a
    review without a request makes the handler panic instead of answering. *)
Theorem conversion_review_answer :
  (∀ e, Conversion_ServeHTTP Decode (Err e) = Returned (Header 400))
  ∧ (∀ tm resp, ∃ msg, Conversion_ServeHTTP Decode (Ok (mkConversionReview tm None resp)) = Panicked msg)
  ∧ ∀ tm resp req, ∃ r, converts (cq_DesiredAPIVersion req) (cq_Objects req) r ∧
      Conversion_ServeHTTP Decode (Ok (mkConversionReview tm (Some req) resp)) =
      match r with
      | Returned (Ok objs) => Returned (Review (mkConversionReview tm None
          (Some (mkConversionResponse (cq_UID req) objs "Success" ""))))
      | Returned (Err e) => Returned (Review (mkConversionReview tm None
          (Some (mkConversionResponse (cq_UID req) [] "Failure" (error_text e)))))
      | Panicked msg => Panicked msg
      end.
Proof.
  split; [done|]. split; [intros; by eexists|]. intros tm resp req.
  exists (convert_all Decode (cq_DesiredAPIVersion req) (cq_Objects req) []).
  split; [by apply (convert_all_spec _ _ [] [])|]. unfold Conversion_ServeHTTP, handleConvertRequest. cbn.
  by destruct (convert_all _ _ _ _) as [[objs|e]|msg].
Qed.
End reviews.
End facts.

(** ** At concrete inputs

    A kind in three versions that all hold a number: the hub [v2] and the spoke
    [v1] as it is, the spoke [v3] with the other sign. *)

Module Sample.
Local Open Scope Z_scope.

Inductive SampleType := V1 | V2 | V3.
#[export] Instance SampleType_eq_dec : EqDecision SampleType.
Proof. solve_decision. Defined.

Abbreviation SampleObject := (RuntimeObject SampleType Z).

Definition with_value (o : SampleObject) (v : Z) : SampleObject :=
  mkRuntimeObject (ro_type o) (ro_APIVersion o) (ro_Kind o) v.
Definition signed (t : SampleType) (v : Z) : Z := match t with V3 => - v | _ => v end.

#[export] Instance sample_types : ConvertibleTypes SampleType Z := {
  implements_Hub t := bool_decide (t = V2);
  implements_Convertible t := bool_decide (t ≠ V2);
  ConvertTo src hub := Returned (with_value hub (signed (ro_type src) (ro_value src)), None);
  ConvertFrom dst hub := Returned (with_value dst (signed (ro_type dst) (ro_value hub)), None);
  type_name t := match t with V1 => "*v1.Job" | V2 => "*v2.Job" | V3 => "*v3.Job" end;
  object_text o := Itoa (ro_value o);
}.

Definition job (version : string) : GVK := mkGVK "batch" version "Job".
Definition job_gvk (t : SampleType) : GVK := match t with V1 => job "v1" | V2 => job "v2" | V3 => job "v3" end.
Definition known : gmap GVK SampleType := {[job "v1" := V1; job "v2" := V2; job "v3" := V3]}.

#[export] Instance sample_scheme : ConversionScheme SampleType Z := {
  scheme_New g := match known !! g with
                  | Some t => Ok (mkRuntimeObject t "" "" 0)
                  | None => Err (ErrorString "no kind is registered") end;
  scheme_ObjectKinds o := Ok [job_gvk (ro_type o)];
  scheme_AllKnownTypes := known;
  FromAPIVersionAndKind apiVersion kind :=
    mkGVK "batch" (String.substring 6 (String.length apiVersion) apiVersion) kind;
  TypeAccessor _ := None;
  gvk_text g := gvk_Kind g;
}.

Lemma known_iff g t : known !! g = Some t ↔ g = job_gvk t.
Proof.
  split.
  - intros Hg. unfold known in Hg.
    repeat (rewrite lookup_insert_Some in Hg; destruct Hg as [[<- <-]|[_ Hg]]; [done|]).
    by rewrite lookup_singleton_Some in Hg; destruct Hg as [<- <-].
  - intros ->. by destruct t.
Qed.

#[export] Instance sample_scheme_laws : ConversionSchemeLaws SampleType Z.
Proof.
  split.
  - intros g t Hg. cbn in *. rewrite Hg. by eexists.
  - intros o o' Ho. cbn. by rewrite Ho.
  - intros o gs [= <-] g. rewrite list_elem_of_singleton. cbn. by rewrite known_iff.
Qed.

#[local] Instance sample_range : MapRange GVK SampleType := some_range _ _.

Lemma sample_hub : hub_and_spokes (mkGK "batch" "Job") (job "v2").
Proof.
  split.
  - exists V2. done.
  - intros g t [->%known_iff _] Ht. by destruct t.
  - intros g t _. destruct t; cbn; auto.
  - exists (job "v1"), V1. done.
Qed.

Definition v1_job (value : Z) : SampleObject := mkRuntimeObject V1 "batch/v1" "Job" value.
Definition v3_job (value : Z) : SampleObject := mkRuntimeObject V3 "batch/v3" "Job" value.
Definition fresh_hub : SampleObject := mkRuntimeObject V2 "" "" 0.

Lemma IsConvertible_routes_witness :
  IsConvertible (v1_job 7) = Convertible_is true
  ∧ convertObject (v1_job 7) (v3_job 0) = Returned (v3_job (-7), None).
Proof.
  destruct (IsConvertible_routes (T:=SampleType) (V:=Z)) as [Hconv Hroute]. split.
  - apply Hconv. exists (job "v1"), (job "v2"). split; [done|exact sample_hub].
  - rewrite (Hroute (mkGK "batch" "Job") (job "v2") fresh_hub _ _ (job "v1") (job "v3") sample_hub);
      [reflexivity|reflexivity|by split|by split|done].
Defined.

Lemma signed_involutive t v : signed t (signed t v) = v.
Proof. destruct t; cbn; lia. Qed.

Lemma sample_lossless t : lossless fresh_hub t.
Proof.
  split.
  - intros x Hx. eexists. split; [done|]. intros d Hd. eexists. split; [done|]. cbn.
    by rewrite Hx, Hd, signed_involutive.
  - intros y h d [= <-] Hd. eexists. split; [done|]. cbn. by rewrite Hd, signed_involutive.
Qed.

Lemma conversion_roundtrip_witness :
  ∃ dst' src', convertObject (v1_job 7) (v3_job 0) = Returned (dst', None)
    ∧ convertObject dst' (v1_job 0) = Returned (src', None) ∧ ro_value src' = 7%Z.
Proof.
  apply (conversion_roundtrip (mkGK "batch" "Job") (job "v2") fresh_hub (v1_job 7) (v3_job 0) (v1_job 0)
    (job "v1") (job "v3") sample_hub); try done; apply sample_lossless.
Defined.

Definition decode_seven (raw : string) : result (SampleObject * GVK) :=
  if decide (raw = "seven") then Ok (v1_job 7, job "v1") else Err (ErrorString "bad").
Definition seven_review (objects : list string) : ConversionReview (T:=SampleType) (V:=Z) :=
  mkConversionReview ("v1", "ConversionReview") (Some (mkConversionRequest "u" "batch/v3" objects)) None.

Example two_sevens :
  Conversion_ServeHTTP decode_seven (Ok (seven_review ["seven"; "seven"]))
  = Returned (Review (mkConversionReview ("v1", "ConversionReview") None
       (Some (mkConversionResponse "u" [v3_job (-7); v3_job (-7)] "Success" "")))).
Proof. reflexivity. Qed.
Example seven_and_eight :
  Conversion_ServeHTTP decode_seven (Ok (seven_review ["seven"; "eight"]))
  = Returned (Review (mkConversionReview ("v1", "ConversionReview") None
       (Some (mkConversionResponse "u" [] "Failure" "bad")))).
Proof. reflexivity. Qed.
End Sample.
