(* ===== verification/WebhookServer.v ===== *)
(** * The webhook server and its builder (src/pkg/webhook/server.go, src/pkg/builder/webhook.go)

    Which hooks a server serves at which paths, how fields are injected into
    them whenever they are registered, what the server must have before it
    serves, and the webhooks a builder registers for a type.  Certificate
    watchers, TLS and the network are parameters; the multiplexer is that of
    [net/http] for patterns without a final slash. *)

From Stdlib Require Import Ascii.
From S2P Require Export Paths NetAddr Objects.

Section server.
(** Hooks, other handlers a given multiplexer may have, certificate watchers,
    pools of certificates, listeners and metrics. *)
Context {W Hook Other CertWatcher CertPool Listener : Type}.

Inductive MuxHandler := InstrumentedHook (path : string) (hook : Hook) | OtherHandler (h : Other).

Abbreviation ServeMux := (gmap string MuxHandler).

(** [inject.Func], applied to hooks. *)
Abbreviation InjectF := (Hook → W → W * option error).

Record Server := mkServer {
  ws_Host : string;
  ws_Port : Z;
  ws_CertDir : string;
  ws_CertName : string;
  ws_KeyName : string;
  ws_ClientCAName : string;
  ws_TLSMinVersion : string;
  ws_WebhookMux : option ServeMux;
  (** A nil map before the defaults are set. *)
  ws_webhooks : option (gmap string Hook);
  ws_setFields : option InjectF;
  (** Whether [defaultingOnce] is done. *)
  ws_defaulted : bool;
}.

Record TLSConfig := mkTLSConfig {
  tc_NextProtos : list string;
  tc_CertWatcher : CertWatcher;
  tc_MinVersion : Z;
  tc_ClientCAs : option CertPool;
  (** [RequireAndVerifyClientCert], else no certificate is asked for. *)
  tc_RequireClientCert : bool;
}.

Class ServerDeps := {
  os_TempDir : string;
  (** [inject.LoggerInto] with the logger of the path. *)
  LoggerInto : string → Hook → W → W * option error;
  certwatcher_New : string → string → W → W * result CertWatcher;
  (** The goroutine that runs a watcher starts. *)
  go_CertWatcher : CertWatcher → W → W;
  ReadFile : string → W → result string;
  AppendCertsFromPEM : string → option CertPool;
  tls_Listen : string → TLSConfig → W → W * result Listener;
  (** Serving until it fails ([Some]) or the server is shut down. *)
  http_Serve : Listener → ServeMux → W → W * option error;
  (** The wait for idle connections to close. *)
  wait_idle : W → W;
}.

Context `{!ServerDeps}.
Implicit Types (s : Server) (w : W) (hook : Hook).

(** ** Defaults *)

Definition DefaultPort : Z := 9443.

Definition or_default (x default : string) : string := if decide (x = "") then default else x.

Definition setDefaults s : Server :=
  mkServer (ws_Host s)
    (if decide (ws_Port s ≤ 0)%Z then DefaultPort else ws_Port s)
    (or_default (ws_CertDir s) (filepath_Join [os_TempDir; "k8s-webhook-server"; "serving-certs"]))
    (or_default (ws_CertName s) "tls.crt")
    (or_default (ws_KeyName s) "tls.key")
    (ws_ClientCAName s) (ws_TLSMinVersion s)
    (Some (match ws_WebhookMux s with Some mux => mux | None => ∅ end))
    (Some ∅) (ws_setFields s) true.

Definition ensure_defaults s : Server := if ws_defaulted s then s else setDefaults s.

Definition NeedLeaderElection s : bool := false.

(** ** Registration and injection *)

Definition set_mux (mux : ServeMux) s : Server :=
  mkServer (ws_Host s) (ws_Port s) (ws_CertDir s) (ws_CertName s) (ws_KeyName s) (ws_ClientCAName s)
    (ws_TLSMinVersion s) (Some mux) (ws_webhooks s) (ws_setFields s) (ws_defaulted s).
Definition set_webhooks (hooks : gmap string Hook) s : Server :=
  mkServer (ws_Host s) (ws_Port s) (ws_CertDir s) (ws_CertName s) (ws_KeyName s) (ws_ClientCAName s)
    (ws_TLSMinVersion s) (ws_WebhookMux s) (Some hooks) (ws_setFields s) (ws_defaulted s).
Definition set_setFields (f : InjectF) s : Server :=
  mkServer (ws_Host s) (ws_Port s) (ws_CertDir s) (ws_CertName s) (ws_KeyName s) (ws_ClientCAName s)
    (ws_TLSMinVersion s) (ws_WebhookMux s) (ws_webhooks s) (Some f) (ws_defaulted s).

(** [ServeMux.Handle]: panics on an empty or a known pattern. *)
Definition mux_Handle (pattern : string) (h : MuxHandler) (mux : ServeMux) : ServeMux + string :=
  if decide (pattern = "") then inr "http: invalid pattern"
  else match mux !! pattern with
       | Some _ => inr ("http: multiple registrations for " +:+ pattern)
       | None => inl (<[pattern := h]> mux)
       end.

(** Errors of the injection are logged. *)
Definition inject_on_register (path : string) hook s w : W :=
  match ws_setFields s with
  | None => w
  | Some setFields =>
      let '(w, _) := setFields hook w in
      let '(w, _) := LoggerInto path hook w in
      w
  end.

(** The server, the world, and the panic if there is one; the mutex is released
    also then.  The map and the multiplexer exist once the defaults are set. *)
Definition Register (path : string) hook s w : Server * W * option string :=
  let s := ensure_defaults s in
  let webhooks := match ws_webhooks s with Some m => m | None => ∅ end in
  let mux := match ws_WebhookMux s with Some m => m | None => ∅ end in
  match webhooks !! path with
  | Some _ => (s, w, Some ("can't register duplicate path: " +:+ path))
  | None =>
      let s := set_webhooks (<[path := hook]> webhooks) s in
      match mux_Handle path (InstrumentedHook path hook) mux with
      | inr panic => (s, w, Some panic)
      | inl mux =>
          let s := set_mux mux s in
          (s, inject_on_register path hook s w, None)
      end
  end.

Section range.
Context `{!MapRange string Hook}.

Fixpoint inject_loop (f : InjectF) (hooks : list (string * Hook)) w : W * option error :=
  match hooks with
  | [] => (w, None)
  | (hookPath, webhook) :: hooks =>
      match f webhook w with
      | (w, Some err) => (w, Some err)
      | (w, None) =>
          match LoggerInto hookPath webhook w with
          | (w, Some err) => (w, Some err)
          | (w, None) => inject_loop f hooks w
          end
      end
  end.

Definition InjectFunc (f : InjectF) s w : Server * W * option error :=
  let s := set_setFields f s in
  let '(w, err) := inject_loop f (map_range (match ws_webhooks s with Some m => m | None => ∅ end)) w in
  (s, w, err).
End range.

(** ** Serving *)

Definition VersionTLS10 : Z := 0x301.
Definition VersionTLS11 : Z := 0x302.
Definition VersionTLS12 : Z := 0x303.
Definition VersionTLS13 : Z := 0x304.

Definition err_tls_version (version : string) : error :=
  ErrorString ("invalid TLSMinVersion " +:+ version +:+ ": expects 1.0, 1.1, 1.2, 1.3 or empty").

Definition tlsVersion (version : string) : result Z :=
  if decide (version = "") then Ok VersionTLS10
  else if decide (version = "1.0") then Ok VersionTLS10
  else if decide (version = "1.1") then Ok VersionTLS11
  else if decide (version = "1.2") then Ok VersionTLS12
  else if decide (version = "1.3") then Ok VersionTLS13
  else Err (err_tls_version version).

(** The part of [Start] that loads the CA for client certificates. *)
Definition load_client_CA s (cfg : TLSConfig) w : result TLSConfig :=
  if decide (ws_ClientCAName s = "") then Ok cfg
  else match ReadFile (filepath_Join [ws_CertDir s; ws_ClientCAName s]) w with
       | Err err => Err (ErrorString ("failed to read client CA cert: " +:+ error_text err))
       | Ok clientCABytes =>
           match AppendCertsFromPEM clientCABytes with
           | None => Err (ErrorString "failed to append client CA cert to CA pool")
           | Some certPool =>
               Ok (mkTLSConfig (tc_NextProtos cfg) (tc_CertWatcher cfg) (tc_MinVersion cfg) (Some certPool) true)
           end
       end.

(** [Start] up to serving. *)
Definition Start_listen s w : W * result (TLSConfig * Listener) :=
  let certPath := filepath_Join [ws_CertDir s; ws_CertName s] in
  let keyPath := filepath_Join [ws_CertDir s; ws_KeyName s] in
  match certwatcher_New certPath keyPath w with
  | (w, Err err) => (w, Err err)
  | (w, Ok certWatcher) =>
      let w := go_CertWatcher certWatcher w in
      match tlsVersion (ws_TLSMinVersion s) with
      | Err err => (w, Err err)
      | Ok tlsMinVersion =>
          match load_client_CA s (mkTLSConfig ["h2"] certWatcher tlsMinVersion None false) w with
          | Err err => (w, Err err)
          | Ok cfg =>
              match tls_Listen (JoinHostPort (ws_Host s) (Itoa (ws_Port s))) cfg w with
              | (w, Err err) => (w, Err err)
              | (w, Ok listener) => (w, Ok (cfg, listener))
              end
          end
      end
  end.

Definition Start s w : Server * W * option error :=
  let s := ensure_defaults s in
  match Start_listen s w with
  | (w, Err err) => (s, w, Some err)
  | (w, Ok (cfg, listener)) =>
      match http_Serve listener (match ws_WebhookMux s with Some mux => mux | None => ∅ end) w with
      | (w, Some err) => (s, w, Some err)
      | (w, None) => (s, wait_idle w, None)
      end
  end.

(** [StartStandalone]: schemes are injected first; without one it is that of
    client-go. *)
Definition StartStandalone {Scheme : Type} `{!MapRange string Hook} (kscheme : Scheme)
    (SchemeInto : Scheme → Hook → W → W * option error) (scheme : option Scheme) s w : Server * W * option error :=
  let scheme := match scheme with Some scheme => scheme | None => kscheme end in
  match InjectFunc (λ i w, SchemeInto scheme i w) s w with
  | (s, w, Some err) => (s, w, Some err)
  | (s, w, None) => Start s w
  end.

(** ** The webhook builder *)

Section builder.
(** The types webhooks are made for. *)
Context {ApiType : Type}.

Class WebhookTypes := {
  wt_GVKForObject : ApiType → result GVK;
  (** The admission webhooks of a type that implements [Defaulter] or
      [Validator]. *)
  as_Defaulter : ApiType → option Hook;
  as_Validator : ApiType → option Hook;
  wt_IsConvertible : ApiType → result bool;
  conversion_Webhook : Hook;
}.

Context `{!WebhookTypes}.

Fixpoint ReplaceDots (s : string) : string :=
  match s with
  | EmptyString => ""
  | String c t => String (if Ascii.eqb c "." then "-"%char else c) (ReplaceDots t)
  end.

Definition generateMutatePath (gvk : GVK) : string :=
  "/mutate-" +:+ ReplaceDots (gvk_Group gvk) +:+ "-" +:+ gvk_Version gvk +:+ "-" +:+ ToLower (gvk_Kind gvk).
Definition generateValidatePath (gvk : GVK) : string :=
  "/validate-" +:+ ReplaceDots (gvk_Group gvk) +:+ "-" +:+ gvk_Version gvk +:+ "-" +:+ ToLower (gvk_Kind gvk).

(** The multiplexer answers a path without a final slash with the same pattern
    exactly when it has it. *)
Definition isAlreadyHandled (path : string) s : bool :=
  match ws_WebhookMux s with
  | None => false
  | Some mux => bool_decide (is_Some (mux !! path))
  end.

(** Register unless the path is handled. *)
Definition register_if_free (path : string) hook s w : Server * W * option string :=
  if isAlreadyHandled path s then (s, w, None) else Register path hook s w.

Definition registerDefaultingWebhook (gvk : GVK) (apiType : ApiType) s w : Server * W * option string :=
  match as_Defaulter apiType with
  | None => (s, w, None)
  | Some mwh => register_if_free (generateMutatePath gvk) mwh s w
  end.

Definition registerValidatingWebhook (gvk : GVK) (apiType : ApiType) s w : Server * W * option string :=
  match as_Validator apiType with
  | None => (s, w, None)
  | Some vwh => register_if_free (generateValidatePath gvk) vwh s w
  end.

Definition registerConversionWebhook (apiType : ApiType) s w : Server * W * outcome (option error) :=
  match wt_IsConvertible apiType with
  | Err err => (s, w, Returned (Some err))
  | Ok false => (s, w, Returned None)
  | Ok true =>
      match register_if_free "/convert" conversion_Webhook s w with
      | (s, w, Some panic) => (s, w, Panicked panic)
      | (s, w, None) => (s, w, Returned None)
      end
  end.

(** [Complete], on the server of the manager. *)
Definition registerWebhooks (apiType : ApiType) s w : Server * W * outcome (option error) :=
  match wt_GVKForObject apiType with
  | Err err => (s, w, Returned (Some err))
  | Ok gvk =>
      match registerDefaultingWebhook gvk apiType s w with
      | (s, w, Some panic) => (s, w, Panicked panic)
      | (s, w, None) =>
          match registerValidatingWebhook gvk apiType s w with
          | (s, w, Some panic) => (s, w, Panicked panic)
          | (s, w, None) => registerConversionWebhook apiType s w
          end
      end
  end.
End builder.
End server.

Arguments MuxHandler : clear implicits.
Arguments Server : clear implicits.
Arguments TLSConfig : clear implicits.
Arguments ServerDeps : clear implicits.

(** ** Facts about the server *)

Section facts.
Context {W Hook Other CertWatcher CertPool Listener : Type}
  `{!ServerDeps W Hook Other CertWatcher CertPool Listener} `{!MapRange string Hook}.
Implicit Types (s : Server W Hook Other) (w : W) (hook : Hook) (f : Hook → W → W * option error).

Definition mux_of s : gmap string (MuxHandler Hook Other) := default ∅ (ws_WebhookMux s).
Definition hooks_of s : gmap string Hook := default ∅ (ws_webhooks s).

(** What a server's fields say together: before the defaults there are no hooks,
    and every hook's path is one the multiplexer has. *)
Definition server_ok s : Prop :=
  if ws_defaulted s then
    ∃ hooks mux, ws_webhooks s = Some hooks ∧ ws_WebhookMux s = Some mux ∧ dom hooks ⊆ dom mux
  else ws_webhooks s = None.

Lemma server_ok_hook s p hook : server_ok s → hooks_of s !! p = Some hook → is_Some (mux_of s !! p).
Proof.
  unfold server_ok, hooks_of, mux_of. destruct (ws_defaulted s).
  - intros (hooks & mux & -> & -> & Hsub) Hp. apply elem_of_dom, Hsub, elem_of_dom. by exists hook.
  - by intros ->.
Qed.

Lemma ensure_defaults_ok s : server_ok s →
  mux_of (ensure_defaults s) = mux_of s ∧ hooks_of (ensure_defaults s) = hooks_of s
  ∧ ws_setFields (ensure_defaults s) = ws_setFields s ∧ ws_defaulted (ensure_defaults s) = true
  ∧ ws_webhooks (ensure_defaults s) = Some (hooks_of s) ∧ ws_WebhookMux (ensure_defaults s) = Some (mux_of s).
Proof.
  unfold ensure_defaults, server_ok, mux_of, hooks_of. destruct (ws_defaulted s) eqn:Hd.
  - intros (hooks & mux & -> & -> & _). by rewrite Hd.
  - intros ->. cbn. by destruct (ws_WebhookMux s).
Qed.

(** Registering at a free path. *)
Lemma Register_free s w p hook :
  server_ok s → p ≠ "" → mux_of s !! p = None →
  ∃ s', Register p hook s w = (s', inject_on_register p hook s w, None)
    ∧ server_ok s' ∧ mux_of s' = <[p := InstrumentedHook p hook]> (mux_of s)
    ∧ hooks_of s' = <[p := hook]> (hooks_of s) ∧ ws_setFields s' = ws_setFields s.
Proof.
  intros Hs Hp Hfree. destruct (ensure_defaults_ok s Hs) as (Hm & Hh & Hf & Hd & Hwh & Hwm).
  assert (Hhook : hooks_of s !! p = None).
  { destruct (hooks_of s !! p) eqn:Hx; [|done]. apply server_ok_hook in Hx as [? ?]; [congruence|done]. }
  unfold Register. rewrite Hwh, Hwm, Hhook. unfold mux_Handle. rewrite decide_False, Hfree by done.
  eexists. split; [unfold inject_on_register; cbn [set_mux set_webhooks ws_setFields]; by rewrite Hf|].
  split_and!; [|done|done|done]. unfold server_ok. cbn. rewrite Hd. do 2 eexists. split_and!; [done|done|].
  rewrite !dom_insert. enough (dom (hooks_of s) ⊆ dom (mux_of s)) by set_solver.
  intros q [h Hq]%elem_of_dom. apply elem_of_dom. by eapply server_ok_hook.
Qed.

(** Registering at the path of a registered hook panics and leaves the server
    and its hooks as they are. *)
Lemma Register_duplicate s w p hook hook' :
  server_ok s → hooks_of s !! p = Some hook' →
  ∃ msg, Register p hook s w = (ensure_defaults s, w, Some msg).
Proof.
  intros Hs Hp. destruct (ensure_defaults_ok s Hs) as (_ & _ & _ & _ & Hwh & _).
  unfold Register. rewrite Hwh, Hp. by eexists.
Qed.

Fixpoint register_all (regs : list (string * Hook)) s w : Server W Hook Other * W * option string :=
  match regs with
  | [] => (s, w, None)
  | (p, hook) :: regs =>
      match Register p hook s w with
      | (s, w, Some panic) => (s, w, Some panic)
      | (s, w, None) => register_all regs s w
      end
  end.

Definition inject_one f w (reg : string * Hook) : W := (LoggerInto reg.1 reg.2 (f reg.2 w).1).1.

Definition served (reg : string * Hook) : string * MuxHandler Hook Other :=
  (reg.1, InstrumentedHook reg.1 reg.2).

Definition serve_all (regs : list (string * Hook)) (mux : gmap string (MuxHandler Hook Other)) :=
  foldl (λ mux reg, <[reg.1 := InstrumentedHook reg.1 reg.2]> mux) mux regs.

Lemma inject_on_register_one p hook s w :
  inject_on_register p hook s w = match ws_setFields s with None => w | Some f => inject_one f w (p, hook) end.
Proof.
  unfold inject_on_register, inject_one. destruct (ws_setFields s) as [f|]; [|done]. cbn.
  destruct (f hook w) as [w1 e1]; cbn. by destruct (LoggerInto p hook w1).
Qed.

Lemma register_all_spec regs s w :
  server_ok s → NoDup regs.*1 → Forall (λ p, p ≠ "" ∧ mux_of s !! p = None) regs.*1 →
  ∃ s', register_all regs s w =
      (s', match ws_setFields s with None => w | Some f => foldl (inject_one f) w regs end, None)
    ∧ server_ok s' ∧ mux_of s' = serve_all regs (mux_of s)
    ∧ hooks_of s' = foldl (λ m reg, <[reg.1 := reg.2]> m) (hooks_of s) regs
    ∧ ws_setFields s' = ws_setFields s.
Proof.
  revert s w. induction regs as [|[p hook] regs IH]; intros s w Hs Hnd Hfree.
  - exists s. by destruct (ws_setFields s).
  - cbn in Hnd, Hfree. apply NoDup_cons in Hnd as [Hp Hnd]. inversion Hfree as [|? ? [Hne Hnone] Hfree']; subst.
    destruct (Register_free s w p hook Hs Hne Hnone) as (s1 & Heq & Hs1 & Hm1 & Hh1 & Hf1).
    destruct (IH s1 (inject_on_register p hook s w) Hs1 Hnd) as (s' & Heq' & Hs' & Hm' & Hh' & Hf').
    { rewrite Forall_forall in *. intros q Hq. rewrite Hm1, lookup_insert_ne by (by intros ->). auto. }
    exists s'. cbn [register_all]. rewrite Heq, Heq', Hf1, Hm', Hh', Hm1, Hh1, Hf', Hf1.
    split_and!; [|done..]. rewrite inject_on_register_one. by destruct (ws_setFields s).
Qed.

Lemma inject_loop_ok f regs w :
  (∀ hook w, (f hook w).2 = None) → (∀ p hook w, (LoggerInto p hook w).2 = None) →
  inject_loop f regs w = (foldl (inject_one f) w regs, None).
Proof.
  intros Hf Hl. revert w. induction regs as [|[p hook] regs IH]; intros w; [done|]. cbn.
  change (foldl _ w _) with (foldl (inject_one f) (inject_one f w (p, hook)) regs).
  unfold inject_one at 2. cbn. specialize (Hf hook w). destruct (f hook w) as [w1 e1]; cbn in *. subst.
  specialize (Hl p hook w1). destruct (LoggerInto p hook w1) as [w2 e2]; cbn in *. subst. apply IH.
Qed.

Lemma insert_all_lookup (regs : list (string * Hook)) : NoDup regs.*1 →
  map_to_list (foldl (λ m reg, <[reg.1 := reg.2]> m) ∅ regs : gmap string Hook) ≡ₚ regs.
Proof.
  intros Hnd.
  assert (Heq : ∀ m : gmap string Hook, foldl (λ m reg, <[reg.1 := reg.2]> m) m regs = list_to_map regs ∪ m).
  { induction regs as [|[p h] regs IH]; intros m; cbn; [by rewrite (left_id_L ∅ (∪))|].
    cbn in Hnd. apply NoDup_cons in Hnd as [Hp Hnd]. rewrite IH by done.
    rewrite <- insert_union_r, insert_union_l; [done|]. by apply not_elem_of_list_to_map_1. }
  rewrite Heq, (right_id_L ∅ (∪)). by apply map_to_list_to_map.
Qed.

(** However the registrations of a server's hooks are spread before and
    after the manager injects its fields, when paths are distinct and free and
    the injection works, nothing panics, every hook is served at its path and
    gets the fields and its logger exactly once: those registered before in
    the order the map is ranged over, the others as they are registered. *)
Theorem hooks_served_and_injected_once s w f regs1 regs2 :
  ws_defaulted s = false → ws_webhooks s = None → ws_setFields s = None →
  NoDup (regs1 ++ regs2).*1 → Forall (λ p, p ≠ "" ∧ mux_of s !! p = None) (regs1 ++ regs2).*1 →
  (∀ hook w, (f hook w).2 = None) → (∀ p hook w, (LoggerInto p hook w).2 = None) →
  ∃ s1 s2 s3 before,
    register_all regs1 s w = (s1, w, None)
    ∧ before ≡ₚ regs1
    ∧ InjectFunc f s1 w = (s2, foldl (inject_one f) w before, None)
    ∧ register_all regs2 s2 (foldl (inject_one f) w before) = (s3, foldl (inject_one f) w (before ++ regs2), None)
    ∧ mux_of s3 = serve_all (regs1 ++ regs2) (mux_of s).
Proof.
  intros Hd Hwh Hf0 Hnd Hfree Hf Hl. rewrite fmap_app in Hnd, Hfree.
  apply NoDup_app in Hnd as (Hnd1 & Hdisj & Hnd2). apply Forall_app in Hfree as [Hfree1 Hfree2].
  assert (Hs : server_ok s) by (unfold server_ok; by rewrite Hd).
  destruct (register_all_spec regs1 s w Hs Hnd1 Hfree1) as (s1 & Heq1 & Hs1 & Hm1 & Hh1 & Hf1).
  rewrite Hf0 in Heq1. unfold hooks_of at 2 in Hh1. rewrite Hwh in Hh1. cbn in Hh1.
  assert (Hs2 : server_ok (set_setFields f s1)) by exact Hs1.
  destruct (register_all_spec regs2 (set_setFields f s1) (foldl (inject_one f) w (map_range (hooks_of s1))) Hs2 Hnd2)
    as (s3 & Heq3 & _ & Hm3 & _ & _).
  { rewrite Forall_forall in *. intros p Hp. destruct (Hfree2 p Hp) as [Hne Hnone]. split; [done|].
    change (mux_of (set_setFields f s1)) with (mux_of s1). rewrite Hm1. unfold serve_all.
    assert (Hout : p ∉ regs1.*1) by (intros Hin; by apply (Hdisj p)).
    clear -Hnone Hout. revert Hnone. generalize (mux_of s).
    induction regs1 as [|[q h] regs IH]; intros m Hm; [done|]. cbn in *. apply IH; [set_solver|].
    rewrite lookup_insert_ne; [done|set_solver]. }
  exists s1, (set_setFields f s1), s3, (map_range (hooks_of s1)). split_and!; [done| | | |].
  - rewrite map_range_perm, Hh1. by apply insert_all_lookup.
  - unfold InjectFunc. change (match ws_webhooks (set_setFields f s1) with Some m => m | None => ∅ end)
      with (hooks_of s1). by rewrite inject_loop_ok.
  - rewrite Heq3. cbn [set_setFields ws_setFields]. by rewrite foldl_app.
  - rewrite Hm3. change (mux_of (set_setFields f s1)) with (mux_of s1). rewrite Hm1.
    unfold serve_all. by rewrite foldl_app.
Qed.

(** An injection that fails in the middle keeps the setter, and the hooks not
    yet visited are left without fields. *)
Lemma InjectFunc_fails s w f regs1 p hook regs2 w1 w2 err :
  map_range (hooks_of s) = regs1 ++ (p, hook) :: regs2 →
  inject_loop f regs1 w = (w1, None) → f hook w1 = (w2, Some err) →
  InjectFunc f s w = (set_setFields f s, w2, Some err).
Proof.
  intros Hr H1 H2. unfold InjectFunc.
  change (match ws_webhooks (set_setFields f s) with Some m => m | None => ∅ end) with (hooks_of s). rewrite Hr.
  assert (Hloop : ∀ w, inject_loop f regs1 w = (w1, None) → inject_loop f (regs1 ++ (p, hook) :: regs2) w = (w2, Some err)).
  { clear -H2. induction regs1 as [|[q h] regs IH]; intros w Hw; cbn in *.
    - simplify_eq. by rewrite H2.
    - destruct (f h w) as [w' [e|]]; [done|]. destruct (LoggerInto q h w') as [w'' [e|]]; [done|]. by apply IH. }
  by rewrite Hloop.
Qed.
End facts.

(** ** Serving *)

Section serving.
Context {W Hook Other CertWatcher CertPool Listener : Type}
  `{!ServerDeps W Hook Other CertWatcher CertPool Listener}.
Implicit Types (s : Server W Hook Other) (w : W).

(** The CA for clients, as far as the server is configured to have one. *)
Definition client_CA s w (pool : option CertPool) : Prop :=
  if decide (ws_ClientCAName s = "") then pool = None
  else ∃ bytes p, ReadFile (filepath_Join [ws_CertDir s; ws_ClientCAName s]) w = Ok bytes
         ∧ AppendCertsFromPEM bytes = Some p ∧ pool = Some p.

Lemma load_client_CA_Ok s np cw v w cfg : load_client_CA s (mkTLSConfig np cw v None false) w = Ok cfg →
  ∃ pool, client_CA s w pool ∧ cfg = mkTLSConfig np cw v pool (bool_decide (ws_ClientCAName s ≠ "")).
Proof.
  unfold load_client_CA, client_CA. case_decide as Hn.
  { intros [= <-]. exists None. split; [done|]. by rewrite bool_decide_eq_false_2 by tauto. }
  destruct (ReadFile _ w) as [bytes|e] eqn:Hr; [|done].
  destruct (AppendCertsFromPEM bytes) as [pool|] eqn:Hp; [|done]. intros [= <-]. cbn.
  exists (Some pool). rewrite bool_decide_eq_true_2 by done. split; [by exists bytes, pool|done].
Qed.

(** The versions that can be named, with their numbers on the wire. *)
Definition tls_versions : list (string * Z) :=
  [("", 769); ("1.0", 769); ("1.1", 770); ("1.2", 771); ("1.3", 772)]%Z.

Lemma tlsVersion_spec version :
  match tlsVersion version with
  | Ok v => ((version, v) ∈ tls_versions)
  | Err e => (version ∉ tls_versions.*1) ∧ e = err_tls_version version
  end.
Proof.
  unfold tlsVersion, tls_versions. repeat case_decide; subst; cbn; rewrite ?elem_of_cons; try tauto.
  split; [|done]. rewrite elem_of_nil. tauto.
Qed.

Lemma load_client_CA_Err s cfg w e : load_client_CA s cfg w = Err e →
  ws_ClientCAName s ≠ "" ∧ ∀ pool, ¬ client_CA s w pool.
Proof.
  unfold load_client_CA, client_CA. case_decide as Hn; [done|].
  destruct (ReadFile _ w) as [bytes|?]; [destruct (AppendCertsFromPEM bytes) eqn:Hp|]; intros [= <-];
    (split; [done|]); intros pool (? & ? & ? & ? & _); naive_solver.
Qed.

Lemma Start_listen_Ok s w w2 cfg listener : Start_listen s w = (w2, Ok (cfg, listener)) →
  ∃ w1 watcher v pool,
    certwatcher_New (filepath_Join [ws_CertDir s; ws_CertName s]) (filepath_Join [ws_CertDir s; ws_KeyName s]) w
      = (w1, Ok watcher)
    ∧ tlsVersion (ws_TLSMinVersion s) = Ok v ∧ client_CA s (go_CertWatcher watcher w1) pool
    ∧ cfg = mkTLSConfig ["h2"] watcher v pool (bool_decide (ws_ClientCAName s ≠ ""))
    ∧ tls_Listen (JoinHostPort (ws_Host s) (Itoa (ws_Port s))) cfg (go_CertWatcher watcher w1) = (w2, Ok listener).
Proof.
  unfold Start_listen.
  destruct (certwatcher_New _ _ w) as [w1 [watcher|?]] eqn:Hcw; [|done].
  destruct (tlsVersion (ws_TLSMinVersion s)) as [v|?] eqn:Hv; [|done].
  destruct (load_client_CA s _ _) as [cfg'|?] eqn:Hload; [|done].
  destruct (tls_Listen _ cfg' _) as [w2' [l|?]] eqn:Htl; [|done]. intros [= -> -> ->].
  apply load_client_CA_Ok in Hload as (pool & Hpool & Hcfg). by exists w1, watcher, v, pool.
Qed.

(** What can keep a server from serving, and the world that leaves: its
    certificate, a TLS version it names but there is none of, a CA for clients
    it names and that cannot be loaded, its address. *)
Inductive cannot_serve s w : W → error → Prop :=
  | no_certificate w' e :
      certwatcher_New (filepath_Join [ws_CertDir s; ws_CertName s]) (filepath_Join [ws_CertDir s; ws_KeyName s]) w
        = (w', Err e) → cannot_serve s w w' e
  | no_version w1 watcher :
      certwatcher_New (filepath_Join [ws_CertDir s; ws_CertName s]) (filepath_Join [ws_CertDir s; ws_KeyName s]) w
        = (w1, Ok watcher) →
      ws_TLSMinVersion s ∉ (tls_versions.*1) →
      cannot_serve s w (go_CertWatcher watcher w1) (err_tls_version (ws_TLSMinVersion s))
  | no_client_CA w1 watcher e :
      certwatcher_New (filepath_Join [ws_CertDir s; ws_CertName s]) (filepath_Join [ws_CertDir s; ws_KeyName s]) w
        = (w1, Ok watcher) →
      ws_ClientCAName s ≠ "" → (∀ pool, ¬ client_CA s (go_CertWatcher watcher w1) pool) →
      cannot_serve s w (go_CertWatcher watcher w1) e
  | no_listener w1 cfg w' e :
      tls_Listen (JoinHostPort (ws_Host s) (Itoa (ws_Port s))) cfg w1 = (w', Err e) → cannot_serve s w w' e.

Lemma Start_listen_Err s w w' e : Start_listen s w = (w', Err e) → cannot_serve s w w' e.
Proof.
  unfold Start_listen.
  destruct (certwatcher_New _ _ w) as [w1 [watcher|?]] eqn:Hcw; [|intros [= <- <-]; by constructor].
  pose proof (tlsVersion_spec (ws_TLSMinVersion s)) as Hv.
  destruct (tlsVersion (ws_TLSMinVersion s)) as [v|?].
  2: { destruct Hv as [Hv ->]. intros [= <- <-]. by econstructor. }
  destruct (load_client_CA s _ _) as [cfg'|?] eqn:Hload.
  2: { apply load_client_CA_Err in Hload as [? ?]. intros [= <- <-]. by eapply no_client_CA. }
  destruct (tls_Listen _ cfg' _) as [w2' [l|?]] eqn:Htl; [done|]. intros [= <- <-]. by eapply no_listener.
Qed.

(** C36: a server that gets to serve does so as it is configured: with the
    certificate and key of its directory, at exactly the TLS version it names
    (1.0 if it names none) as the lowest, and, if and only if it names a CA for
    clients, requiring of every client a certificate of the authorities in
    that file; it serves exactly the hooks of its multiplexer.  If it does not
    get to serve, [Start] returns the error, and it is because the certificate
    cannot be had, no such TLS version exists, the CA cannot be loaded, or
    listening failed; in the first three cases nothing was listened on. *)
Theorem Start_serves_as_configured s w s' w' err :
  Start s w = (s', w', err) →
  let s0 := ensure_defaults s in
  s' = s0 ∧
  ((∃ w1 watcher v pool w2 listener,
      let cfg := mkTLSConfig ["h2"] watcher v pool (bool_decide (ws_ClientCAName s ≠ "")) in
      certwatcher_New (filepath_Join [ws_CertDir s0; ws_CertName s0]) (filepath_Join [ws_CertDir s0; ws_KeyName s0]) w
        = (w1, Ok watcher)
      ∧ (ws_TLSMinVersion s, v) ∈ tls_versions
      ∧ client_CA s0 (go_CertWatcher watcher w1) pool ∧ (ws_ClientCAName s ≠ "" ↔ is_Some pool)
      ∧ tls_Listen (JoinHostPort (ws_Host s0) (Itoa (ws_Port s0))) cfg (go_CertWatcher watcher w1) = (w2, Ok listener)
      ∧ let '(w3, serve_err) := http_Serve listener (mux_of s0) w2 in
        err = serve_err ∧ w' = match serve_err with None => wait_idle w3 | Some _ => w3 end)
   ∨ ∃ e, err = Some e ∧ cannot_serve s0 w w' e).
Proof.
  cbn zeta. unfold Start. set (s0 := ensure_defaults s).
  assert (Hname : ws_ClientCAName s0 = ws_ClientCAName s ∧ ws_TLSMinVersion s0 = ws_TLSMinVersion s).
  { unfold s0, ensure_defaults. by destruct (ws_defaulted s). }
  destruct Hname as [Hca Htls]. destruct (Start_listen s0 w) as [w2 [[cfg listener]|e]] eqn:Hl.
  2: { intros [= <- <- <-]. split; [done|]. right. exists e. split; [done|]. by apply Start_listen_Err. }
  change (match ws_WebhookMux s0 with Some mux => mux | None => ∅ end) with (mux_of s0).
  intros Hs. assert (s' = s0) as -> by (destruct (http_Serve _ _ w2) as [? [?|]]; by simplify_eq).
  split; [done|]. left.
  apply Start_listen_Ok in Hl as (w1 & watcher & v & pool & Hcw & Hv & Hpool & -> & Htl).
  pose proof (tlsVersion_spec (ws_TLSMinVersion s0)) as Hspec. rewrite Hv in Hspec.
  rewrite Hca, Htls in *. exists w1, watcher, v, pool, w2, listener. split_and!; try done.
  - unfold client_CA in Hpool. rewrite Hca in Hpool. case_decide as Hne.
    + subst pool. split; [done|by intros [? ?]].
    + destruct Hpool as (? & p & _ & _ & ->). by split.
  - destruct (http_Serve listener (mux_of s0) w2) as [w3 [?|]]; by simplify_eq.
Qed.
End serving.

(** ** The webhooks of a builder *)

(** *** Paths *)

Fixpoint no_dash (s : string) : bool :=
  match s with EmptyString => true | String c t => negb (Ascii.eqb c "-") && no_dash t end.

Lemma no_dash_app s t : no_dash (s +:+ t) = no_dash s && no_dash t.
Proof. induction s as [|c s IH]; [done|]. rewrite str_app_cons. cbn. by rewrite IH, andb_assoc. Qed.

(** The last dash splits a string in one way. *)
Lemma last_dash a a' k k' : no_dash k = true → no_dash k' = true →
  a +:+ "-" +:+ k = a' +:+ "-" +:+ k' → a = a' ∧ k = k'.
Proof.
  intros Hk Hk'. revert a'. induction a as [|c a IH]; intros [|c' a']; rewrite ?str_app_cons; intros Heq.
  - injection Heq as Heq. split; [done|exact Heq].
  - injection Heq as <- Heq. change (k = a' +:+ "-" +:+ k') in Heq. rewrite Heq, !no_dash_app in Hk.
    cbn in Hk. by rewrite andb_false_r in Hk.
  - injection Heq as -> Heq. change (a +:+ "-" +:+ k = k') in Heq. rewrite <- Heq, no_dash_app in Hk'.
    cbn in Hk'. by rewrite andb_false_r in Hk'.
  - injection Heq as -> Heq. apply IH in Heq as [-> ->]. done.
Qed.

Lemma ReplaceDots_inj a b : no_dash a = true → no_dash b = true → ReplaceDots a = ReplaceDots b → a = b.
Proof.
  revert b. induction a as [|c a IH]; intros [|c' b]; cbn; try done. intros Ha Hb [= Hc Hab].
  apply andb_true_iff in Ha as [Hca Ha], Hb as [Hcb Hb]. f_equal; [|by apply IH].
  destruct (Ascii.eqb_spec c "."), (Ascii.eqb_spec c' "."); subst; done.
Qed.

(** The group and version have no dashes, nor has the kind. *)
Definition dashless (g : GVK) : Prop :=
  no_dash (gvk_Group g) = true ∧ no_dash (gvk_Version g) = true ∧ no_dash (ToLower (gvk_Kind g)) = true.

Definition same_lower (g g' : GVK) : Prop :=
  gvk_Group g = gvk_Group g' ∧ gvk_Version g = gvk_Version g' ∧ ToLower (gvk_Kind g) = ToLower (gvk_Kind g').

Lemma path_inj g g' : dashless g → dashless g' →
  ReplaceDots (gvk_Group g) +:+ "-" +:+ gvk_Version g +:+ "-" +:+ ToLower (gvk_Kind g) =
  ReplaceDots (gvk_Group g') +:+ "-" +:+ gvk_Version g' +:+ "-" +:+ ToLower (gvk_Kind g') →
  same_lower g g'.
Proof.
  intros (Hg & Hv & Hk) (Hg' & Hv' & Hk') Heq.
  assert (Hre : ∀ a b c, a +:+ "-" +:+ b +:+ "-" +:+ c = (a +:+ "-" +:+ b) +:+ "-" +:+ c).
  { intros a b c. by rewrite !str_app_assoc. }
  rewrite !Hre in Heq. apply last_dash in Heq as [Heq Hkind]; [|done..].
  apply last_dash in Heq as [Heq Hver]; [|done..]. apply ReplaceDots_inj in Heq; done.
Qed.

Lemma generateMutatePath_inj g g' :
  dashless g → dashless g' → generateMutatePath g = generateMutatePath g' → same_lower g g'.
Proof. intros Hg Hg' Heq. apply path_inj; [done|done|]. by apply (inj (String.app "/mutate-")) in Heq. Qed.

Lemma generateValidatePath_inj g g' :
  dashless g → dashless g' → generateValidatePath g = generateValidatePath g' → same_lower g g'.
Proof. intros Hg Hg' Heq. apply path_inj; [done|done|]. by apply (inj (String.app "/validate-")) in Heq. Qed.

(** *** Who is served *)

Section builder_facts.
Context {W Hook Other CertWatcher CertPool Listener ApiType : Type}
  `{!ServerDeps W Hook Other CertWatcher CertPool Listener} `{!WebhookTypes (Hook := Hook) (ApiType := ApiType)}.
Implicit Types (s : Server W Hook Other) (w : W) (t : ApiType).

Abbreviation Mux := (gmap string (MuxHandler Hook Other)).

(** What a type asks to have served. *)
Definition claims t : list (string * Hook) :=
  match wt_GVKForObject t with
  | Err _ => []
  | Ok gvk =>
      match as_Defaulter t with Some h => [(generateMutatePath gvk, h)] | None => [] end
      ++ match as_Validator t with Some h => [(generateValidatePath gvk, h)] | None => [] end
      ++ match wt_IsConvertible t with Ok true => [("/convert", conversion_Webhook)] | _ => [] end
  end.

(** First come, first served. *)
Definition claimed (cs : list (string * Hook)) : Mux := list_to_map (served <$> cs).

Lemma register_if_free_spec s w p hook : server_ok s → p ≠ "" →
  ∃ s' w', register_if_free p hook s w = (s', w', None)
    ∧ server_ok s' ∧ mux_of s' = mux_of s ∪ claimed [(p, hook)].
Proof.
  intros Hs Hp. unfold register_if_free, isAlreadyHandled.
  assert (Hm : match ws_WebhookMux s with None => false | Some mux => bool_decide (is_Some (mux !! p)) end
    = bool_decide (is_Some (mux_of s !! p))).
  { unfold mux_of. destruct (ws_WebhookMux s); [done|]. symmetry. apply bool_decide_eq_false_2. by intros [? ?]. }
  rewrite Hm. case_bool_decide as Hsome.
  - exists s, w. split_and!; [done|done|]. destruct Hsome as [h Hh]. apply map_eq. intros q.
    rewrite lookup_union. unfold claimed. cbn. destruct (decide (q = p)) as [->|Hq].
    + rewrite Hh. by rewrite union_Some_l.
    + rewrite lookup_insert_ne, lookup_empty by done. by rewrite (right_id_L None (∪)).
  - apply eq_None_not_Some in Hsome. destruct (Register_free s w p hook Hs Hp Hsome) as (s' & -> & Hs' & Hmux & _).
    do 2 eexists. split_and!; [done|done|]. rewrite Hmux. unfold claimed. cbn.
    rewrite <- insert_union_r by done. by rewrite (right_id_L ∅ (∪)).
Qed.

Lemma claimed_app cs cs' : claimed (cs ++ cs') = claimed cs ∪ claimed cs'.
Proof. unfold claimed. by rewrite fmap_app, list_to_map_app. Qed.

Lemma register_claim s w (hook : option Hook) p : server_ok s → p ≠ "" →
  ∃ s' w', match hook with None => (s, w, None) | Some h => register_if_free p h s w end = (s', w', None)
    ∧ server_ok s' ∧ mux_of s' = mux_of s ∪ claimed (match hook with Some h => [(p, h)] | None => [] end).
Proof.
  intros Hs Hp. destruct hook as [h|]; [by apply register_if_free_spec|].
  exists s, w. split_and!; [done|done|]. symmetry. apply (right_id_L ∅ (∪)).
Qed.

Lemma registerWebhooks_spec s w t gvk b :
  server_ok s → wt_GVKForObject t = Ok gvk → wt_IsConvertible t = Ok b →
  ∃ s' w', registerWebhooks t s w = (s', w', Returned None)
    ∧ server_ok s' ∧ mux_of s' = mux_of s ∪ claimed (claims t).
Proof.
  intros Hs Hgvk Hconv. unfold registerWebhooks, claims. rewrite Hgvk.
  destruct (register_claim s w (as_Defaulter t) (generateMutatePath gvk) Hs) as (s1 & w1 & H1 & Hs1 & Hm1); [done|].
  unfold registerDefaultingWebhook. rewrite H1.
  destruct (register_claim s1 w1 (as_Validator t) (generateValidatePath gvk) Hs1) as (s2 & w2 & H2 & Hs2 & Hm2); [done|].
  unfold registerValidatingWebhook. rewrite H2. unfold registerConversionWebhook. rewrite Hconv.
  destruct (register_claim s2 w2 (if b then Some conversion_Webhook else None) "/convert" Hs2)
    as (s3 & w3 & H3 & Hs3 & Hm3); [done|].
  rewrite !claimed_app, !(assoc_L (∪)), <- Hm1, <- Hm2.
  destruct b; [rewrite H3|simplify_eq]; do 2 eexists; by split_and!.
Qed.

Fixpoint complete_all (ts : list ApiType) s w : Server W Hook Other * W * outcome (option error) :=
  match ts with
  | [] => (s, w, Returned None)
  | t :: ts =>
      match registerWebhooks t s w with
      | (s, w, Returned None) => complete_all ts s w
      | r => r
      end
  end.

Lemma elem_of_flat_map {A B} (f : A → list B) l y : y ∈ flat_map f l ↔ ∃ x, x ∈ l ∧ y ∈ f x.
Proof.
  rewrite list_elem_of_In, in_flat_map. split; intros (x & Hx & Hy); exists x; by rewrite ?list_elem_of_In in *.
Qed.

Lemma claims_elem t p h :
  (p, h) ∈ claims t ↔ ∃ gvk, wt_GVKForObject t = Ok gvk ∧
    (p = generateMutatePath gvk ∧ as_Defaulter t = Some h ∨ p = generateValidatePath gvk ∧ as_Validator t = Some h
     ∨ p = "/convert" ∧ h = conversion_Webhook ∧ wt_IsConvertible t = Ok true).
Proof.
  unfold claims. destruct (wt_GVKForObject t) as [gvk|]; [|split; [by intros ?%elem_of_nil|by intros (? & ? & _)]].
  rewrite !elem_of_app. split.
  - intros Hin. exists gvk. split; [done|]. destruct Hin as [Hin|[Hin|Hin]].
    + left. destruct (as_Defaulter t); set_solver.
    + right; left. destruct (as_Validator t); set_solver.
    + right; right. destruct (wt_IsConvertible t) as [[|]|]; set_solver.
  - intros (gvk' & [= <-] & [[-> ->]|[[-> ->]|(-> & -> & ->)]]); set_solver.
Qed.

Lemma claimed_lookup cs p h :
  (p, h) ∈ cs → (∀ h', (p, h') ∈ cs → h' = h) → claimed cs !! p = Some (InstrumentedHook p h).
Proof.
  intros Hin Huniq. induction cs as [|[q h'] cs IH]; [by apply elem_of_nil in Hin|].
  unfold claimed. cbn. destruct (decide (q = p)) as [->|Hq].
  - rewrite lookup_insert_eq. by rewrite (Huniq h') by set_solver.
  - rewrite lookup_insert_ne by done. apply IH; set_solver.
Qed.

(** Completing the webhook builders of several types, one after the other,
    never panics and serves, next to what was already served, for each path the
    first webhook that was asked for: the defaulting and validating webhooks
    of the types that have them at the paths of their kinds, and one conversion
    webhook for all.  When the groups, versions and kinds have no dashes, types
    of different kinds (up to the case of the name) do not take each other's
    paths, so each is served its own webhooks. *)
Theorem webhooks_first_come ts s w :
  server_ok s → (∀ t, t ∈ ts → is_ok (wt_GVKForObject t) = true ∧ is_ok (wt_IsConvertible t) = true) →
  ∃ s' w', complete_all ts s w = (s', w', Returned None)
    ∧ mux_of s' = mux_of s ∪ claimed (flat_map claims ts)
    ∧ ∀ t gvk, t ∈ ts → wt_GVKForObject t = Ok gvk → dashless gvk →
        (∀ t' gvk', t' ∈ ts → wt_GVKForObject t' = Ok gvk' → dashless gvk' ∧ (same_lower gvk gvk' → t' = t)) →
        (∀ h, as_Defaulter t = Some h → mux_of s !! generateMutatePath gvk = None →
           mux_of s' !! generateMutatePath gvk = Some (InstrumentedHook (generateMutatePath gvk) h))
        ∧ (∀ h, as_Validator t = Some h → mux_of s !! generateValidatePath gvk = None →
           mux_of s' !! generateValidatePath gvk = Some (InstrumentedHook (generateValidatePath gvk) h)).
Proof.
  intros Hs Hok.
  assert (Hall : ∃ s' w', complete_all ts s w = (s', w', Returned None)
    ∧ mux_of s' = mux_of s ∪ claimed (flat_map claims ts)).
  { clear -Hs Hok. revert s w Hs. induction ts as [|t ts IH]; intros s w Hs.
    { exists s, w. split; [done|]. symmetry. apply (right_id_L ∅ (∪)). }
    destruct (Hok t) as [Hg Hc]; [set_solver|].
    destruct (wt_GVKForObject t) as [gvk|] eqn:Hgvk; [|done].
    destruct (wt_IsConvertible t) as [b|] eqn:Hconv; [|done].
    destruct (registerWebhooks_spec s w t gvk b Hs Hgvk Hconv) as (s1 & w1 & H1 & Hs1 & Hm1).
    destruct (IH ltac:(set_solver) s1 w1 Hs1) as (s' & w' & H2 & Hm2).
    exists s', w'. cbn [complete_all flat_map]. rewrite H1. split; [done|].
    by rewrite Hm2, Hm1, claimed_app, (assoc_L (∪)). }
  destruct Hall as (s' & w' & Hrun & Hm). exists s', w'. split_and!; [done|done|].
  intros t gvk Ht Hgvk Hd Hdist. rewrite Hm. split; intros h Hh Hfree; rewrite lookup_union, Hfree, (left_id_L None (∪)).
  - apply claimed_lookup.
    + apply elem_of_flat_map. exists t. split; [done|]. apply claims_elem. exists gvk. split; [done|]. by left.
    + intros h' (t' & Ht' & (gvk' & Hgvk' & Hcase)%claims_elem)%elem_of_flat_map.
      destruct (Hdist t' gvk' Ht' Hgvk') as [Hd' Hsame].
      destruct Hcase as [[Hp Hh']|[[Hp Hh']|(Hp & _ & _)]]; [|done|done].
      apply generateMutatePath_inj in Hp; [|done|done]. rewrite (Hsame Hp) in Hh'. congruence.
  - apply claimed_lookup.
    + apply elem_of_flat_map. exists t. split; [done|]. apply claims_elem. exists gvk. split; [done|]. right. by left.
    + intros h' (t' & Ht' & (gvk' & Hgvk' & Hcase)%claims_elem)%elem_of_flat_map.
      destruct (Hdist t' gvk' Ht' Hgvk') as [Hd' Hsame].
      destruct Hcase as [[Hp Hh']|[[Hp Hh']|(Hp & _ & _)]]; [done| |done].
      apply generateValidatePath_inj in Hp; [|done|done]. rewrite (Hsame Hp) in Hh'. congruence.
Qed.
End builder_facts.

(** ** A concrete server *)

Module Sample.

(** Hooks are names; the world is a log. *)
#[local] Instance sample_deps : ServerDeps (list string) string () string string string := {|
  os_TempDir := "/tmp";
  LoggerInto path hook w := (w ++ ["logger " +:+ path], None);
  certwatcher_New cert key w := (w, if decide (cert = "/certs/tls.crt") then Ok cert else Err (ErrorString "no such file"));
  go_CertWatcher cw w := w ++ ["watching " +:+ cw];
  ReadFile path w := if decide (path = "/certs/ca.crt") then Ok "CA" else Err (ErrorString "no such file");
  AppendCertsFromPEM bytes := if decide (bytes = "CA") then Some bytes else None;
  tls_Listen addr cfg w := (w ++ ["listening on " +:+ addr], Ok addr);
  http_Serve listener mux w := (w ++ ["serving"], None);
  wait_idle w := w ++ ["idle"];
|}.

#[local] Instance sample_range : MapRange string string := some_range _ _.

Definition new_server (ca version : string) : Server (list string) string () :=
  mkServer "" 0 "/certs" "" "" ca version None None None false.

Definition fields (hook : string) (w : list string) : list string * option error := (w ++ ["fields " +:+ hook], None).

Lemma hooks_served_and_injected_once_witness :
  ∃ s1 s2 s3,
    register_all [("/a", "A")] (new_server "" "") [] = (s1, [], None)
    ∧ InjectFunc fields s1 [] = (s2, ["fields A"; "logger /a"], None)
    ∧ register_all [("/b", "B")] s2 ["fields A"; "logger /a"]
      = (s3, ["fields A"; "logger /a"; "fields B"; "logger /b"], None).
Proof.
  destruct (hooks_served_and_injected_once (new_server "" "") [] fields [("/a", "A")] [("/b", "B")])
    as (s1 & s2 & s3 & before & H1 & Hperm & H2 & H3 & _).
  - done.
  - done.
  - done.
  - apply (bool_decide_unpack _). vm_compute. exact I.
  - by repeat constructor.
  - done.
  - done.
  - apply Permutation_singleton_r in Hperm. subst before. by exists s1, s2, s3.
Defined.

Lemma Start_serves_as_configured_witness :
  Start (new_server "ca.crt" "1.2") [] =
    (ensure_defaults (new_server "ca.crt" "1.2"),
     ["watching /certs/tls.crt"; "listening on :9443"; "serving"; "idle"], None)
  ∧ cannot_serve (ensure_defaults (new_server "other.crt" "1.2")) [] ["watching /certs/tls.crt"]
      (ErrorString "failed to read client CA cert: no such file").
Proof.
  split; [reflexivity|].
  assert (Hrun : Start (new_server "other.crt" "1.2") [] = (ensure_defaults (new_server "other.crt" "1.2"),
    ["watching /certs/tls.crt"], Some (ErrorString "failed to read client CA cert: no such file"))) by reflexivity.
  destruct (Start_serves_as_configured _ _ _ _ _ Hrun) as [_ [Hok|(e & He & Hno)]].
  - exfalso. destruct Hok as (w1 & watcher & v & pool & w2 & l & Hcw & _ & Hca & _).
    cbn in Hcw. injection Hcw as <- <-. unfold client_CA in Hca. rewrite decide_False in Hca by done.
    destruct Hca as (bytes & p & Hr & _). vm_compute in Hr. discriminate.
  - injection He as <-. exact Hno.
Defined.

(** Two kinds, with a defaulter and a validator, and convertible. *)
#[local] Instance sample_types : WebhookTypes (Hook := string) (ApiType := GVK) := {|
  wt_GVKForObject g := Ok g;
  as_Defaulter g := Some ("default " +:+ gvk_Kind g);
  as_Validator g := if decide (gvk_Kind g = "Job") then Some "validate Job" else None;
  wt_IsConvertible g := Ok true;
  conversion_Webhook := "convert";
|}.

Definition job : GVK := mkGVK "batch.example.com" "v1" "Job".
Definition cron : GVK := mkGVK "batch.example.com" "v1" "CronJob".

Example paths : generateMutatePath job = "/mutate-batch-example-com-v1-job"
  ∧ generateValidatePath cron = "/validate-batch-example-com-v1-cronjob".
Proof. done. Qed.

Lemma webhooks_first_come_witness :
  ∃ s' w', complete_all [job; cron] (new_server "" "") [] = (s', w', Returned None)
    ∧ mux_of s' !! "/mutate-batch-example-com-v1-cronjob"
      = Some (InstrumentedHook "/mutate-batch-example-com-v1-cronjob" "default CronJob").
Proof.
  destruct (webhooks_first_come [job; cron] (new_server "" "") []) as (s' & w' & Hrun & _ & Hown).
  - done.
  - done.
  - exists s', w'. split; [done|]. apply (Hown cron cron); [set_solver|done|done| |done|done].
    intros t' gvk' Ht' [= <-]. rewrite !elem_of_cons in Ht'. destruct Ht' as [->|[->|Hn]].
    + split; [done|]. intros (_ & _ & Hk). vm_compute in Hk. discriminate.
    + done.
    + by apply elem_of_nil in Hn.
Defined.

(** The groups a.b and a-b share their paths: the webhooks of the second type
    are not served, and nobody is told. *)
Example colliding_groups :
  let '(s', _, res) := complete_all [mkGVK "a.b" "v1" "Foo"; mkGVK "a-b" "v1" "Foo"; mkGVK "a-b" "v1" "Job"]
    (new_server "" "") [] in
  res = Returned None ∧ size (mux_of s') = 4.
Proof. vm_compute. done. Qed.
End Sample.
