(* ===== verification/EnvtestCRD.v ===== *)
(** * Installing CRDs into the test environment (src/pkg/envtest: crd.go, helper.go)

    Reading CRDs from files, merging them with those given, enabling their
    conversion webhooks, creating or updating them in the cluster and waiting
    for discovery to list them.  The file system, YAML, the content of
    unstructured objects, discovery, polling and retrying are parameters; the
    cluster is used through the client interface. *)

From S2P Require Export Conversion Client.

(** A function of apimachinery that looks for a nested field: the value, whether
    there is one, an error. *)
Definition nested (A : Type) : Type := A * bool * option error.

(** The value, when whether it was there does not matter. *)
Definition value_of {A} (n : nested A) : result A :=
  let '(v, _, err) := n in match err with Some e => Err e | None => Ok v end.

Record FileInfo := mkFileInfo { fi_Name : string; fi_IsDir : bool }.

(** ** What the code calls *)

Section crd.
(** Worlds, the content of unstructured objects and values in it, and Go types
    and values of a scheme. *)
Context {W Content Val T V : Type}.

Class CRDContent := {
  (** [crdScheme.Convert] into an unstructured object. *)
  crdScheme_Convert : Object → result Object;
  content : Object → Content;
  set_content : Content → Object → Object;
  as_map : Val → option Content;
  NestedString : Content → list string → nested string;
  NestedBool : Content → list string → nested bool;
  NestedSlice : Content → list string → nested (list Val);
  SetNestedField : string → list string → Content → result Content;
  SetNestedStringSlice : list string → list string → Content → result Content;
  SetNestedMap : list (string * string) → list string → Content → result Content;
  base64 : string → string;
}.

Class CRDFiles := {
  Stat : string → W → result FileInfo;
  IsNotExist : error → bool;
  ReadDir : string → W → result (list FileInfo);
  ReadFile : string → W → result string;
  filepath_Dir : string → string;
  filepath_Base_Join : string → string → string;
  filepath_Ext : string → string;
  (** The documents a YAML reader gives, and the error it ends with unless that
      is the end of the file. *)
  YAMLReader : string → list string * option error;
  yaml_Unmarshal : string → result Object;
}.

Class CRDCluster := {
  client_New : W → W * result (Client W);
  IsNotFound : error → bool;
  IsConflict : error → bool;
  (** [clientset.NewForConfig], and the names of the resources discovery lists
      for a group version; one poll sees one state of the cluster. *)
  clientset_New : W → result ();
  ServerResourcesForGroupVersion : string → W → result (list string);
  (** client-go's [retry.RetryOnConflict] with the default backoff, and the steps
      of that backoff. *)
  retry_Steps : nat;
  RetryOnConflict {S} : (S → S * option error) → S → S * option error;
  (** apimachinery's [wait.PollImmediate]. *)
  PollImmediate {S} : Z → Z → (S → W → S * result bool) → S → W → S * W * option error;
  ErrWaitTimeout : error;
}.

(** *** Their documented behaviour *)

(** A call is repeated while it ends with a conflict, [n] times at most, and the
    last result returned. *)
Definition is_conflict `{!CRDCluster} (err : option error) : bool :=
  match err with Some e => IsConflict e | None => false end.

Inductive retries `{!CRDCluster} {S} (f : S → S * option error) : nat → S → S → option error → Prop :=
  | retries_last n s s' err :
      f s = (s', err) → n = 1%nat ∨ is_conflict err = false → retries f n s s' err
  | retries_again n s s1 err1 s' err :
      f s = (s1, err1) → is_conflict err1 = true → retries f n s1 s' err → retries f (Datatypes.S n) s s' err.

(** The condition is tried at once and again after a while, until it is done,
    fails or the time is over.  What the world does meanwhile is open; [ws]
    are the worlds at the tries. *)
Inductive polls `{!CRDCluster} {S} (cond : S → W → S * result bool)
    : S → W → list W → S → W → option error → Prop :=
  | polls_done s w s' : cond s w = (s', Ok true) → polls cond s w [w] s' w None
  | polls_error s w s' e : cond s w = (s', Err e) → polls cond s w [w] s' w (Some e)
  | polls_timeout s w s' w' : cond s w = (s', Ok false) → polls cond s w [w] s' w' (Some ErrWaitTimeout)
  | polls_again s w s1 w1 ws s' w' r :
      cond s w = (s1, Ok false) → polls cond s1 w1 ws s' w' r → polls cond s w (w :: ws) s' w' r.

Class CRDClusterLaws `{!CRDCluster} := {
  RetryOnConflict_retries {S} (f : S → S * option error) s s' err :
    RetryOnConflict f s = (s', err) → retries f retry_Steps s s' err;
  retry_Steps_many : (1 < retry_Steps)%nat;
  PollImmediate_polls {S} interval max (cond : S → W → S * result bool) s w s' w' r :
    PollImmediate interval max cond s w = (s', w', r) → ∃ ws, polls cond s w ws s' w' r;
}.

Context `{!CRDContent} `{!CRDFiles} `{!CRDCluster}.
Context `{!ConvertibleTypes T V} `{!ConversionScheme T V} `{!MapRange GVK T}.
Implicit Types (w : W) (crd : Object) (c : Content).

(** ** Helpers (helper.go) *)

Definition runtimeCRDListToUnstructured (l : list Object) : list Object :=
  omap (λ obj, match crdScheme_Convert obj with Ok u => Some u | Err _ => None end) l.

Definition mergePaths `{!MapRange string ()} (s1 s2 : list string) : list string :=
  (map_range (foldl (λ m s, <[s := ()]> m) (foldl (λ m s, <[s := ()]> m) ∅ s1) s2)).*1.

Definition add_by_name (m : gmap string Object) (l : list Object) : gmap string Object :=
  foldl (λ m obj, <[GetName obj := obj]> m) m (runtimeCRDListToUnstructured l).

Definition mergeCRDs `{!MapRange string Object} (s1 s2 : list Object) : list Object :=
  (map_range (add_by_name (add_by_name ∅ s1) s2)).*2.

(** ** Reading files *)

Definition readDocuments (fp : string) w : result (list string) :=
  b ← ReadFile fp w;
  let '(docs, err) := YAMLReader b in
  match err with Some e => Err e | None => Ok docs end.

Definition crdExts : list string := [".json"; ".yaml"; ".yml"].

(** The documents of a file that are CRDs. *)
Fixpoint read_docs (docs : list string) : result (list Object) :=
  match docs with
  | [] => Ok []
  | doc :: docs =>
      crd ← yaml_Unmarshal doc;
      crdKind ← value_of (NestedString (content crd) ["spec"; "names"; "kind"]);
      crdGroup ← value_of (NestedString (content crd) ["spec"; "group"]);
      crds ← read_docs docs;
      if decide (gvk_Kind (o_gvk crd) ≠ "CustomResourceDefinition" ∨ crdKind = "" ∨ crdGroup = "")
      then Ok crds else Ok (crd :: crds)
  end.

Fixpoint readCRDs (basePath : string) (files : list FileInfo) w : result (list Object) :=
  match files with
  | [] => Ok []
  | file :: files =>
      if bool_decide (filepath_Ext (fi_Name file) ∈ crdExts) then
        docs ← readDocuments (filepath_Base_Join basePath (fi_Name file)) w;
        crds ← read_docs docs;
        more ← readCRDs basePath files w;
        Ok (crds ++ more)
      else readCRDs basePath files w
  end.

Abbreviation GVKN := (GVK * string)%type.

Definition gvkn_of crd : GVKN := (o_gvk crd, GetName crd).

(** Later definitions replace earlier ones of the same kind and name. *)
Definition add_crds (crdList : list Object) (crds : gmap GVKN Object) : gmap GVKN Object :=
  foldl (λ crds crd, <[gvkn_of crd := crd]> crds) crds crdList.

(** An error of [os.Stat] other than that the path does not exist leaves no
    info, and calling its method panics. *)
Fixpoint render_paths (errorIfPathMissing : bool) (paths : list string) w (crds : gmap GVKN Object)
    : outcome (result (gmap GVKN Object)) :=
  match paths with
  | [] => Returned (Ok crds)
  | path :: paths =>
      match Stat path w with
      | Err err =>
          if IsNotExist err then
            if errorIfPathMissing then Returned (Err err) else render_paths errorIfPathMissing paths w crds
          else Panicked "invalid memory address or nil pointer dereference"
      | Ok info =>
          let dir := if fi_IsDir info then files ← ReadDir path w; Ok (path, files)
                     else Ok (filepath_Dir path, [info]) in
          match ('(filePath, files) ← dir; readCRDs filePath files w) with
          | Err err => Returned (Err err)
          | Ok crdList => render_paths errorIfPathMissing paths w (add_crds crdList crds)
          end
      end
  end.

Definition renderCRDs `{!MapRange GVKN Object} (errorIfPathMissing : bool) (paths : list string) w
    : outcome (result (list Object)) :=
  crds ← render_paths errorIfPathMissing paths w ∅;
  Returned (crds ← crds; Ok (map_range crds).*2).

(** ** Conversion webhooks of CRDs *)

(** The typed CRDs, as far as the code looks into them; pointers may be nil. *)
Record WebhookClientConfig := mkWCC { wcc_Service : option string; wcc_URL : option string; wcc_CABundle : string }.

(** [CustomResourceConversion] of v1beta1, and of v1, where the client
    configuration is inside a pointer to its webhook. *)
Record ConversionV1beta1 := mkConvBeta { cb_Strategy : string; cb_WebhookClientConfig : option WebhookClientConfig }.
Record ConversionV1 := mkConvV1 { c1_Strategy : string; c1_Webhook : option (option WebhookClientConfig) }.

Inductive CRDView :=
  | ViewV1beta1 (preserve : option bool) (gk : GroupKind) (conversion : option ConversionV1beta1)
  | ViewV1 (preserve : bool) (gk : GroupKind) (conversion : option ConversionV1)
  | ViewUnstructured
  | ViewOther.

Class TypedCRDs := {
  crd_view : Object → CRDView;
  set_conversion_v1beta1 : ConversionV1beta1 → Object → Object;
  set_conversion_v1 : ConversionV1 → Object → Object;
}.
Context `{!TypedCRDs}.

(** The kinds of the scheme that have a hub and spokes; a kind that is not
    convertible or cannot be judged is left out. *)
Fixpoint collect_convertibles (known : list (GVK * T)) (convertibles : gset GroupKind) : result (gset GroupKind) :=
  match known with
  | [] => Ok convertibles
  | (gvk, _) :: known =>
      match scheme_New gvk with
      | Err err => Err err
      | Ok obj =>
          collect_convertibles known
            (match IsConvertible obj with
             | Convertible_is true => {[gvk_GroupKind gvk]} ∪ convertibles
             | _ => convertibles
             end)
      end
  end.

Definition nil_pointer {A} : outcome A := Panicked "invalid memory address or nil pointer dereference".

Definition local_config (url caData : string) : WebhookClientConfig := mkWCC None (Some url) caData.

(** The case of a typed v1beta1 CRD: the fields of nil pointers are written. *)
Definition modify_v1beta1 (url caData : string) (conversion : option ConversionV1beta1) crd : outcome Object :=
  match conversion with
  | None => nil_pointer
  | Some cv =>
      match cb_WebhookClientConfig cv with
      | None => nil_pointer
      | Some _ => Returned (set_conversion_v1beta1 (mkConvBeta "Webhook" (Some (local_config url caData))) crd)
      end
  end.

Definition modify_v1 (url caData : string) (conversion : option ConversionV1) crd : outcome Object :=
  match conversion with
  | None => nil_pointer
  | Some cv =>
      match c1_Webhook cv with
      | Some (Some _) => Returned (set_conversion_v1 (mkConvV1 "Webhook" (Some (Some (local_config url caData)))) crd)
      | _ => nil_pointer
      end
  end.

(** The group and kind of an unstructured CRD, if they are there. *)
Definition crd_group_kind c : result (option GroupKind) :=
  let '(group, found, err) := NestedString c ["spec"; "group"] in
  if negb found then Ok None
  else match err with
       | Some err => Err err
       | None =>
           let '(kind, found, err) := NestedString c ["spec"; "names"; "kind"] in
           if negb found then Ok None
           else match err with Some err => Err err | None => Ok (Some (mkGK group kind)) end
       end.

(** The three settings, each on the content the one before has left, and the
    content at the first error. *)
Definition set_webhook (versions : list string) (versions_at config_at : list string)
    (config : list (string * string)) c : Content * option error :=
  match SetNestedField "Webhook" ["spec"; "conversion"; "strategy"] c with
  | Err err => (c, Some err)
  | Ok c =>
      match SetNestedStringSlice versions versions_at c with
      | Err err => (c, Some err)
      | Ok c =>
          match SetNestedMap config config_at c with
          | Err err => (c, Some err)
          | Ok c => (c, None)
          end
      end
  end.

Definition modify_unstructured (url caData : string) (convertibles : gset GroupKind) crd : Object * option error :=
  let c := content crd in
  let config := [("url", url); ("caBundle", base64 caData)] in
  let enable (versions versions_at config_at : list string) :=
    match crd_group_kind c with
    | Err err => (crd, Some err)
    | Ok None => (crd, None)
    | Ok (Some gk) =>
        if decide (gk ∈ convertibles) then
          let '(c, err) := set_webhook versions versions_at config_at config c in (set_content c crd, err)
        else (crd, None)
    end in
  if decide (gvk_Version (o_gvk crd) = "v1beta1") then
    let '(preserve, found, err) := NestedBool c ["spec"; "preserveUnknownFields"] in
    if preserve || negb found then (crd, None)
    else match err with
         | Some err => (crd, Some err)
         | None => enable ["v1beta1"] ["spec"; "conversion"; "webhook"; "clientConfig"]
                     ["spec"; "conversion"; "webhookClientConfig"]
         end
  else if decide (gvk_Version (o_gvk crd) = "v1") then
    let '(preserve, _, err) := NestedBool c ["spec"; "preserveUnknownFields"] in
    if preserve then (crd, None)
    else match err with
         | Some err => (crd, Some err)
         | None => enable ["v1"; "v1beta1"] ["spec"; "conversion"; "webhook"; "conversionReviewVersions"]
                     ["spec"; "conversion"; "webhook"; "clientConfig"]
         end
  else (crd, None).

Definition modify_crd (url caData : string) (convertibles : gset GroupKind) crd : outcome (Object * option error) :=
  match crd_view crd with
  | ViewV1beta1 preserve gk conversion =>
      if default true preserve then Returned (crd, None)
      else if decide (gk ∈ convertibles) then crd ← modify_v1beta1 url caData conversion crd; Returned (crd, None)
      else Returned (crd, None)
  | ViewV1 preserve gk conversion =>
      if preserve then Returned (crd, None)
      else if decide (gk ∈ convertibles) then crd ← modify_v1 url caData conversion crd; Returned (crd, None)
      else Returned (crd, None)
  | ViewUnstructured => Returned (modify_unstructured url caData convertibles crd)
  | ViewOther => Returned (crd, None)
  end.

(** The CRDs are changed in place, up to the first error. *)
Fixpoint modify_crds (url caData : string) (convertibles : gset GroupKind) (crds : list Object)
    : outcome (list Object * option error) :=
  match crds with
  | [] => Returned ([], None)
  | crd :: crds =>
      r ← modify_crd url caData convertibles crd;
      match r with
      | (crd, Some err) => Returned (crd :: crds, Some err)
      | (crd, None) => '(crds, err) ← modify_crds url caData convertibles crds; Returned (crd :: crds, err)
      end
  end.

(** [hostPort] is what [generateHostPort] of the webhook options gives. *)
Definition modifyConversionWebhooks (crds : list Object) (caData : string) (hostPort : result string)
    : outcome (list Object * option error) :=
  if decide (caData = "") then Returned (crds, None)
  else match collect_convertibles (map_range scheme_AllKnownTypes) ∅ with
       | Err err => Returned (crds, Some err)
       | Ok convertibles =>
           match hostPort with
           | Err err => Returned (crds, Some err)
           | Ok hostPort => modify_crds ("https://" +:+ hostPort +:+ "/convert") caData convertibles crds
           end
       end.

(** ** Creating, updating and deleting *)

(** The body of the retried function: the CRD, what was read, the world. *)
Definition update_crd (cs : Client W) (st : Object * Object * W) : (Object * Object * W) * option error :=
  let '(crd, existingCrd, w) := st in
  let '(existingCrd, w, err) := Get cs (mkNN "" (GetName crd)) existingCrd w in
  match err with
  | Some err => ((crd, existingCrd, w), Some err)
  | None =>
      let crd := SetResourceVersion (GetResourceVersion existingCrd) crd in
      let '(crd, w, err) := Update cs [] crd w in
      ((crd, existingCrd, w), err)
  end.

Definition create_crd (cs : Client W) crd w : W * option error :=
  let '(existingCrd, w, err) := Get cs (mkNN "" (GetName crd)) crd w in
  match err with
  | Some err =>
      if IsNotFound err then
        let '(_, w, err) := Create cs [] crd w in
        (w, ErrorWrap ("unable to create CRD " +:+ quoted (GetName crd)) <$> err)
      else (w, Some (ErrorWrap ("unable to get CRD " +:+ quoted (GetName crd) +:+ " to check if it exists") err))
  | None => let '((_, _, w), err) := RetryOnConflict (update_crd cs) (crd, existingCrd, w) in (w, err)
  end.

Fixpoint create_loop (cs : Client W) (crds : list Object) w : W * option error :=
  match crds with
  | [] => (w, None)
  | crd :: crds =>
      match create_crd cs crd w with
      | (w, Some err) => (w, Some err)
      | (w, None) => create_loop cs crds w
      end
  end.

Definition CreateCRDs (crds : list Object) w : W * option error :=
  match client_New w with
  | (w, Err err) => (w, Some (ErrorWrap "unable to create client" err))
  | (w, Ok cs) => create_loop cs (runtimeCRDListToUnstructured crds) w
  end.

Fixpoint uninstall_loop (cs : Client W) (crds : list Object) w : W * option error :=
  match crds with
  | [] => (w, None)
  | crd :: crds =>
      let '(_, w, err) := Delete cs [] crd w in
      match err with
      | Some err => if IsNotFound err then uninstall_loop cs crds w else (w, Some err)
      | None => uninstall_loop cs crds w
      end
  end.

(** ** Waiting for discovery *)

(** The versions of a CRD that are served, in the order of the list; what is not
    a map is passed over. *)
Fixpoint served_versions (crdGroup : string) (versions : list Val) : result (list GroupVersion) :=
  match versions with
  | [] => Ok []
  | version :: versions =>
      match as_map version with
      | None => served_versions crdGroup versions
      | Some versionMap =>
          served ← value_of (NestedBool versionMap ["served"]);
          if (served : bool) then
            versionName ← value_of (NestedString versionMap ["name"]);
            gvs ← served_versions crdGroup versions;
            Ok (mkGV crdGroup versionName :: gvs)
          else served_versions crdGroup versions
      end
  end.

(** What a CRD has discovery list: group versions, and the resource in each. *)
Definition awaited crd : result (list GroupVersion * string) :=
  crdGroup ← value_of (NestedString (content crd) ["spec"; "group"]);
  crdPlural ← value_of (NestedString (content crd) ["spec"; "names"; "plural"]);
  crdVersion ← value_of (NestedString (content crd) ["spec"; "version"]);
  let '(versions, found, err) := NestedSlice (content crd) ["spec"; "versions"] in
  match err with
  | Some err => Err err
  | None =>
      let single := if bool_decide (crdVersion ≠ "") && negb found then [mkGV crdGroup crdVersion] else [] in
      gvs ← served_versions crdGroup versions;
      Ok (single ++ gvs, crdPlural)
  end.

Abbreviation Waiting := (gmap GroupVersion (gset string)).

Definition add_waiting (crdPlural : string) (waitingFor : Waiting) (gv : GroupVersion) : Waiting :=
  <[gv := {[crdPlural]} ∪ (default ∅ (waitingFor !! gv))]> waitingFor.

Fixpoint all_awaited (crds : list Object) (waitingFor : Waiting) : result Waiting :=
  match crds with
  | [] => Ok waitingFor
  | crd :: crds =>
      '(gvs, crdPlural) ← awaited crd;
      all_awaited crds (foldl (add_waiting crdPlural) waitingFor gvs)
  end.

(** The loop of [poll] over the map, which it changes. *)
Fixpoint poll_loop (entries : list (GroupVersion * gset string)) (allFound : bool) (waitingFor : Waiting) w
    : Waiting * bool :=
  match entries with
  | [] => (waitingFor, allFound)
  | (gv, resources) :: entries =>
      if decide (resources = ∅) then poll_loop entries allFound (delete gv waitingFor) w
      else match ServerResourcesForGroupVersion (gv_Group gv +:+ "/" +:+ gv_Version gv) w with
           | Err _ => (waitingFor, false)
           | Ok names =>
               let resources := resources ∖ list_to_set names in
               poll_loop entries (if decide (resources = ∅) then allFound else false)
                 (<[gv := resources]> waitingFor) w
           end
  end.

Definition poll `{!MapRange GroupVersion (gset string)} (waitingFor : Waiting) w : Waiting * result bool :=
  match clientset_New w with
  | Err err => (waitingFor, Err err)
  | Ok _ => let '(waitingFor, done_) := poll_loop (map_range waitingFor) true waitingFor w in (waitingFor, Ok done_)
  end.

Definition WaitForCRDs `{!MapRange GroupVersion (gset string)} (crds : list Object) (pollInterval maxTime : Z) w
    : W * option error :=
  match all_awaited (runtimeCRDListToUnstructured crds) ∅ with
  | Err err => (w, Some err)
  | Ok waitingFor =>
      let '(_, w, err) := PollImmediate pollInterval maxTime poll waitingFor w in (w, err)
  end.

(** ** Installing and uninstalling *)

(** The options without those of the webhooks, which come as the data of the CA
    and the address to serve on. *)
Record CRDInstallOptions := mkCRDInstallOptions {
  ci_Paths : list string;
  ci_CRDs : list Object;
  ci_ErrorIfPathMissing : bool;
  ci_MaxTime : Z;
  ci_PollInterval : Z;
  ci_CleanUpAfterUse : bool;
}.

Definition millisecond : Z := 1000000.
Definition defaultPollInterval : Z := 100 * millisecond.
Definition defaultMaxWait : Z := 10000 * millisecond.

Definition defaultCRDOptions (o : CRDInstallOptions) : CRDInstallOptions :=
  mkCRDInstallOptions (ci_Paths o) (ci_CRDs o) (ci_ErrorIfPathMissing o)
    (if decide (ci_MaxTime o = 0%Z) then defaultMaxWait else ci_MaxTime o)
    (if decide (ci_PollInterval o = 0%Z) then defaultPollInterval else ci_PollInterval o)
    (ci_CleanUpAfterUse o).

Definition with_CRDs (crds : list Object) (o : CRDInstallOptions) : CRDInstallOptions :=
  mkCRDInstallOptions (ci_Paths o) crds (ci_ErrorIfPathMissing o) (ci_MaxTime o) (ci_PollInterval o)
    (ci_CleanUpAfterUse o).

Section install.
Context `{!MapRange GVKN Object} `{!MapRange GroupVersion (gset string)}.

Definition readCRDFiles (options : CRDInstallOptions) w : outcome (result CRDInstallOptions) :=
  match ci_Paths options with
  | [] => Returned (Ok options)
  | paths =>
      crdList ← renderCRDs (ci_ErrorIfPathMissing options) paths w;
      Returned (crdList ← crdList; Ok (with_CRDs (ci_CRDs options ++ crdList) options))
  end.

(** The world, the CRDs returned ([None] is a nil slice) and the error. *)
Definition InstallCRDs (caData : string) (hostPort : result string) (options : CRDInstallOptions) w
    : outcome (W * option (list Object) * option error) :=
  let options := defaultCRDOptions options in
  options ← readCRDFiles options w;
  match options with
  | Err err => Returned (w, None, Some (ErrorWrap "unable to read CRD files" err))
  | Ok options =>
      '(crds, err) ← modifyConversionWebhooks (ci_CRDs options) caData hostPort;
      match err with
      | Some err => Returned (w, None, Some err)
      | None =>
          match CreateCRDs crds w with
          | (w, Some err) => Returned (w, Some crds, Some (ErrorWrap "unable to create CRD instances" err))
          | (w, None) =>
              match WaitForCRDs crds (ci_PollInterval options) (ci_MaxTime options) w with
              | (w, Some err) =>
                  Returned (w, Some crds,
                    Some (ErrorWrap "something went wrong waiting for CRDs to appear as API resources" err))
              | (w, None) => Returned (w, Some crds, None)
              end
          end
      end
  end.

Definition UninstallCRDs (options : CRDInstallOptions) w : outcome (W * option error) :=
  options ← readCRDFiles options w;
  match options with
  | Err err => Returned (w, Some err)
  | Ok options =>
      match client_New w with
      | (w, Err err) => Returned (w, Some err)
      | (w, Ok cs) => Returned (uninstall_loop cs (runtimeCRDListToUnstructured (ci_CRDs options)) w)
      end
  end.
End install.
End crd.
