(* ===== verification/EnvtestCRDFacts.v ===== *)
(** * CRDs in the test environment: facts

    What is installed, merged and waited for, and which CRDs get a conversion
    webhook (over src/pkg/envtest: crd.go, helper.go). *)

From S2P Require Export EnvtestCRD.

Section facts.
Context {W Content Val T V : Type} `{!EqDecision T}.
Context `{!CRDContent (Content := Content) (Val := Val)} `{!CRDFiles (W := W)} `{!CRDCluster (W := W)}
  `{!CRDClusterLaws (W := W)}.
Implicit Types (w : W) (crd u o : Object) (cs : Client W).

(** ** The cluster *)

(** What a cluster-scoped object is stored under. *)
Definition okey o : GroupKind * string := (gvk_GroupKind (o_gvk o), GetName o).

(** A client through which the cluster is a store of cluster-scoped objects by
    kind and name, for as long as nobody else writes to it and it does not
    fail: reading replaces the target, creating a new object and updating at
    the stored version succeed.  What the server makes of an object sent to it
    - its version, its defaults, its status - is [cl_admits]. *)
Class ClusterStore cs := {
  cl_view : W → GroupKind * string → option Object;
  cl_admits : Object → Object → Prop;
  cl_view_key w k o : cl_view w k = Some o → okey o = k;
  cl_Get_Some w n o obj : cl_view w (gvk_GroupKind (o_gvk obj), n) = Some o →
    Get cs (mkNN "" n) obj w = (o, w, None);
  cl_Get_None w n obj : cl_view w (gvk_GroupKind (o_gvk obj), n) = None →
    ∃ e, Get cs (mkNN "" n) obj w = (obj, w, Some e) ∧ IsNotFound e = true;
  cl_Create w obj : GetName obj ≠ "" → GetResourceVersion obj = "" → cl_view w (okey obj) = None →
    ∃ o obj' w', Create cs [] obj w = (obj', w', None) ∧ cl_admits obj o
      ∧ ∀ k, cl_view w' k = if decide (k = okey obj) then Some o else cl_view w k;
  cl_Update w obj old : GetName obj ≠ "" → cl_view w (okey obj) = Some old →
    GetResourceVersion obj = GetResourceVersion old →
    ∃ o obj' w', Update cs [] obj w = (obj', w', None) ∧ cl_admits obj o
      ∧ ∀ k, cl_view w' k = if decide (k = okey obj) then Some o else cl_view w k;
  cl_Delete_Some w obj o : cl_view w (okey obj) = Some o →
    ∃ obj' w', Delete cs [] obj w = (obj', w', None)
      ∧ ∀ k, cl_view w' k = if decide (k = okey obj) then None else cl_view w k;
  cl_Delete_None w obj : cl_view w (okey obj) = None →
    ∃ obj' e, Delete cs [] obj w = (obj', w, Some e) ∧ IsNotFound e = true;
}.

(** The server made [o] of [obj], sent at some version. *)
Definition made_of cs `{!ClusterStore cs} obj o : Prop := ∃ rv, cl_admits (SetResourceVersion rv obj) o.

(** [w'] stores what was made of [obj], and else what [w] does. *)
Definition stores cs `{!ClusterStore cs} w obj w' : Prop :=
  ∃ o, made_of cs obj o ∧ ∀ k, cl_view w' k = if decide (k = okey obj) then Some o else cl_view w k.

Lemma GetName_rv rv obj : GetName (SetResourceVersion rv obj) = GetName obj.
Proof. by destruct obj. Qed.

Lemma okey_rv rv obj : okey (SetResourceVersion rv obj) = okey obj.
Proof. by destruct obj. Qed.

Lemma SetResourceVersion_own obj : SetResourceVersion (GetResourceVersion obj) obj = obj.
Proof. by destruct obj as [? ? []]. Qed.

Lemma GetResourceVersion_rv rv obj : GetResourceVersion (SetResourceVersion rv obj) = rv.
Proof. by destruct obj. Qed.

(** The last object of a list with a key. *)
Definition last_with_key (l : list Object) (k : GroupKind * string) : option Object :=
  last (filter (λ o, okey o = k) l).

Lemma last_with_key_cons crd l k :
  last_with_key (crd :: l) k = match last_with_key l k with
                               | Some o => Some o
                               | None => if decide (k = okey crd) then Some crd else None
                               end.
Proof.
  unfold last_with_key. rewrite filter_cons. destruct (decide (okey crd = k)) as [->|Hne].
  - rewrite decide_True by done. by rewrite last_cons.
  - by rewrite decide_False by congruence; destruct (last _).
Qed.

(** The world after a list of objects was written one after the other. *)
Definition all_stored cs `{!ClusterStore cs} w (l : list Object) w' : Prop :=
  ∀ k, match last_with_key l k with
       | Some obj => ∃ o, made_of cs obj o ∧ cl_view w' k = Some o
       | None => cl_view w' k = cl_view w k
       end.

Section store.
Context (cs : Client W) `{!ClusterStore cs}.

Lemma all_stored_cons w w1 w' obj l :
  stores cs w obj w1 → all_stored cs w1 l w' → all_stored cs w (obj :: l) w'.
Proof.
  intros (o & Ho & Hview) Hall k. specialize (Hall k). rewrite last_with_key_cons.
  destruct (last_with_key l k); [done|]. rewrite Hall, Hview. case_decide; [by exists o|done].
Qed.

Lemma all_stored_app w w1 w' l1 l2 :
  all_stored cs w l1 w1 → all_stored cs w1 l2 w' → all_stored cs w (l1 ++ l2) w'.
Proof.
  intros H1 H2 k. specialize (H1 k). specialize (H2 k). unfold last_with_key in *.
  rewrite filter_app, last_app. destruct (last (filter _ l2)); [done|]. by rewrite H2.
Qed.

Lemma update_crd_stores crd existing w old :
  GetName crd ≠ "" → cl_view w (okey crd) = Some old → gvk_GroupKind (o_gvk existing) = gvk_GroupKind (o_gvk crd) →
  ∃ st w', update_crd cs (crd, existing, w) = ((st, w'), None) ∧ stores cs w crd w'.
Proof.
  intros Hn Hold Hgk. unfold update_crd. rewrite (cl_Get_Some _ _ old) by (rewrite Hgk; exact Hold).
  destruct (cl_Update w (SetResourceVersion (GetResourceVersion old) crd) old) as (o & obj' & w' & -> & Ha & Hview).
  - by rewrite GetName_rv.
  - by rewrite okey_rv.
  - by rewrite GetResourceVersion_rv.
  - do 2 eexists. split; [done|]. exists o. split; [by eexists|]. intros k. by rewrite Hview, okey_rv.
Qed.

Lemma created_stores crd w :
  GetName crd ≠ "" → GetResourceVersion crd = "" → cl_view w (okey crd) = None →
  ∃ obj' w', Create cs [] crd w = (obj', w', None) ∧ stores cs w crd w'.
Proof.
  intros Hn Hrv Hno. destruct (cl_Create w crd Hn Hrv Hno) as (o & obj' & w' & -> & Ha & Hview).
  exists obj', w'. split; [done|]. exists o. split; [|done]. exists "". by rewrite <- Hrv, SetResourceVersion_own.
Qed.

Lemma create_crd_stores crd w :
  GetName crd ≠ "" → GetResourceVersion crd = "" →
  ∃ w', create_crd cs crd w = (w', None) ∧ stores cs w crd w'.
Proof.
  intros Hn Hrv. unfold create_crd. destruct (cl_view w (okey crd)) as [old|] eqn:Hold.
  - rewrite (cl_Get_Some _ _ _ _ Hold). destruct (RetryOnConflict _ _) as [[st w'] err] eqn:Hr.
    pose proof (f_equal fst (cl_view_key _ _ _ Hold)) as Hgk.
    apply RetryOnConflict_retries in Hr. destruct (update_crd_stores crd old w old Hn Hold) as (st1 & w1 & Hu & Hs).
    { exact Hgk. }
    inversion Hr as [? ? ? ? Heq|? ? ? ? ? ? Heq Hc]; subst; rewrite Hu in Heq; simplify_eq.
    destruct st as [? ?]. by exists w'.
  - destruct (cl_Get_None _ (GetName crd) crd Hold) as (e & -> & ->).
    destruct (created_stores crd w Hn Hrv Hold) as (obj' & w' & -> & Hs). by exists w'.
Qed.

Lemma create_loop_stores crds w :
  Forall (λ o, GetName o ≠ "" ∧ GetResourceVersion o = "") crds →
  ∃ w', create_loop cs crds w = (w', None) ∧ all_stored cs w crds w'.
Proof.
  intros Hcrds. revert w. induction Hcrds as [|crd crds [Hn Hrv] _ IH]; intros w; [by exists w|].
  destruct (create_crd_stores crd w Hn Hrv) as (w1 & H1 & Hs).
  destruct (IH w1) as (w' & H2 & Hall). exists w'. cbn [create_loop]. rewrite H1. split; [done|].
  by eapply all_stored_cons.
Qed.

(** Over a store of cluster-scoped objects that nobody else writes to, creating
    CRDs succeeds and leaves, under every kind and name, what the server makes
    of the last of the given CRDs with them - created if there was none, else
    in place of the one there - and everything else untouched; what cannot be
    converted is left out. *)
Theorem CreateCRDs_stores crds w w0 :
  client_New w = (w0, Ok cs) →
  Forall (λ o, GetName o ≠ "" ∧ GetResourceVersion o = "") (runtimeCRDListToUnstructured crds) →
  ∃ w', CreateCRDs crds w = (w', None) ∧ all_stored cs w0 (runtimeCRDListToUnstructured crds) w'.
Proof. intros Hnew Hcrds. unfold CreateCRDs. rewrite Hnew. by apply create_loop_stores. Qed.

(** Uninstalling removes exactly the named objects; those not there are no
    errors. *)
Lemma uninstall_loop_removes crds w :
  ∃ w', uninstall_loop cs crds w = (w', None) ∧
    ∀ k, cl_view w' k = if decide (k ∈ okey <$> crds) then None else cl_view w k.
Proof.
  revert w. induction crds as [|crd crds IH]; intros w.
  { exists w. split; [done|]. intros n. rewrite decide_False; [done|]. by apply not_elem_of_nil. }
  cbn [uninstall_loop]. destruct (cl_view w (okey crd)) as [o|] eqn:Ho.
  - destruct (cl_Delete_Some w crd o Ho) as (obj' & w1 & -> & Hview). destruct (IH w1) as (w' & -> & Hall).
    exists w'. split; [done|]. intros n. rewrite Hall, Hview. cbn [fmap list_fmap].
    destruct (decide (n = okey crd)); repeat case_decide; set_solver.
  - destruct (cl_Delete_None w crd Ho) as (obj' & e & -> & ->). destruct (IH w) as (w' & -> & Hall).
    exists w'. split; [done|]. intros n. rewrite Hall. cbn [fmap list_fmap].
    destruct (decide (n = okey crd)) as [->|]; repeat case_decide; set_solver.
Qed.
End store.

(** ** Discovery *)

Section discovery.
Context `{!MapRange GroupVersion (gset string)}.
Implicit Types (wf : gmap GroupVersion (gset string)) (gv : GroupVersion) (r : string).

(** What is still waited for in a group version. *)
Definition missing wf gv : gset string := default ∅ (wf !! gv).

(** Discovery lists the resource at [w]. *)
Definition listed w gv r : Prop :=
  ∃ names, ServerResourcesForGroupVersion (gv_Group gv +:+ "/" +:+ gv_Version gv) w = Ok names ∧ r ∈ names.

(** Going through entries of the map: each is what the map still has. *)
Lemma poll_loop_spec w entries af wf :
  NoDup entries.*1 → (∀ gv res, (gv, res) ∈ entries → missing wf gv = res) →
  let '(wf', done_) := poll_loop entries af wf w in
  (∀ gv r, r ∈ missing wf' gv → r ∈ missing wf gv)
  ∧ (∀ gv r, r ∈ missing wf gv → r ∉ missing wf' gv → listed w gv r)
  ∧ (done_ = true → af = true ∧ ∀ gv, gv ∈ entries.*1 → missing wf' gv = ∅)
  ∧ (af = true → (∀ gv r, gv ∈ entries.*1 → r ∈ missing wf gv → listed w gv r) → done_ = true).
Proof.
  revert af wf. induction entries as [|[gv res] entries IH]; intros af wf Hnd Hmiss.
  { cbn. split_and!; [done|done| |done]. intros Haf. split; [done|]. by intros gv ?%elem_of_nil. }
  cbn in Hnd. apply NoDup_cons in Hnd as [Hgv Hnd]. cbn [poll_loop].
  assert (Hres : missing wf gv = res) by (apply Hmiss; by left).
  assert (Hother : ∀ m gv', gv' ≠ gv → missing (<[gv := m]> wf) gv' = missing wf gv').
  { intros m gv' Hne. unfold missing. by rewrite lookup_insert_ne. }
  assert (Hkeep : ∀ gv' res', (gv', res') ∈ entries → gv' ≠ gv).
  { intros gv' res' Hin ->. apply Hgv, list_elem_of_fmap. by exists (gv, res'). }
  case_decide as Hempty.
  - assert (Heq : ∀ gv', missing (delete gv wf) gv' = missing wf gv').
    { intros gv'. unfold missing in *. destruct (decide (gv' = gv)) as [->|Hne].
      - rewrite lookup_delete_eq, Hres. by rewrite Hempty.
      - by rewrite lookup_delete_ne. }
    specialize (IH af (delete gv wf) Hnd). destruct (poll_loop _ _ _ _) as [wf' done_].
    destruct IH as (H1 & H2 & H3 & H4); [intros gv' res' Hin; rewrite Heq; apply Hmiss; by right|].
    setoid_rewrite Heq in H1. setoid_rewrite Heq in H2. setoid_rewrite Heq in H4.
    split_and!; [done|done| |].
    + intros Hd. destruct (H3 Hd) as [Haf Hall]. split; [done|]. intros gv' [->|Hin]%elem_of_cons; [|by apply Hall].
      apply set_eq. intros r. split; [|by intros ?%elem_of_empty].
      intros Hr%H1. cbn in Hr. by rewrite Hres, Hempty in Hr.
    + intros Haf Hl. apply H4; [done|]. intros gv' r Hin. apply Hl. by right.
  - destruct (ServerResourcesForGroupVersion _ w) as [names|e] eqn:Hsr.
    2: { split_and!; [done|done|done|]. intros _ Hl. exfalso.
         apply set_choose_L in Hempty as [r Hr]. destruct (Hl gv r) as (names & Hn & _); [by left|by rewrite Hres|congruence]. }
    set (res' := res ∖ list_to_set names).
    assert (Hnew : missing (<[gv := res']> wf) gv = res') by (unfold missing; by rewrite lookup_insert_eq).
    specialize (IH (if decide (res' = ∅) then af else false) (<[gv := res']> wf) Hnd).
    destruct (poll_loop _ _ _ _) as [wf' done_].
    destruct IH as (H1 & H2 & H3 & H4).
    { intros gv' res'' Hin. rewrite Hother; [apply Hmiss; by right|]. by eapply Hkeep. }
    assert (Hsub : ∀ gv' r, r ∈ missing (<[gv := res']> wf) gv' → r ∈ missing wf gv').
    { intros gv' r. destruct (decide (gv' = gv)) as [->|Hne]; [|by rewrite Hother].
      rewrite Hnew, Hres. by intros [? _]%elem_of_difference. }
    split_and!.
    + intros gv' r Hr%H1. by apply Hsub.
    + intros gv' r Hr Hr'. destruct (decide (r ∈ missing (<[gv := res']> wf) gv')) as [Hin|Hin]; [by apply H2|].
      destruct (decide (gv' = gv)) as [->|Hne]; [|by rewrite Hother in Hin].
      rewrite Hnew in Hin. rewrite Hres in Hr. exists names. split; [done|].
      destruct (decide (r ∈ names)) as [|Hn]; [done|]. destruct Hin. apply elem_of_difference.
      split; [done|by rewrite elem_of_list_to_set].
    + intros Hd. destruct (H3 Hd) as [Haf Hall]. case_decide as Hr'; [|done]. split; [done|].
      intros gv' [->|Hin]%elem_of_cons; [|by apply Hall].
      apply set_eq. intros r. split; [|by intros ?%elem_of_empty]. intros Hr%H1. cbn in Hr. by rewrite Hnew, Hr' in Hr.
    + intros Haf Hl. assert (Hr' : res' = ∅).
      { apply set_eq. intros r. split; [|by intros ?%elem_of_empty]. intros [Hr Hnr]%elem_of_difference.
        destruct (Hl gv r) as (names' & Hn & Hin); [by left|by rewrite Hres|].
        rewrite Hsr in Hn. injection Hn as <-. destruct Hnr. by apply elem_of_list_to_set. }
      apply H4; [by rewrite decide_True|]. intros gv' r Hin Hr. apply Hl; [by right|by apply Hsub].
Qed.

Lemma map_range_missing wf gv res : (gv, res) ∈ map_range wf → missing wf gv = res.
Proof. intros Hin%elem_of_map_range. unfold missing. by rewrite Hin. Qed.

Lemma missing_range wf gv r : r ∈ missing wf gv → gv ∈ (map_range wf).*1.
Proof.
  unfold missing. intros Hr. apply elem_of_map_range_keys. destruct (wf !! gv); [by eexists|].
  by apply elem_of_empty in Hr.
Qed.

Lemma poll_spec wf w wf' res : poll wf w = (wf', res) →
  (∀ gv r, r ∈ missing wf' gv → r ∈ missing wf gv)
  ∧ (∀ gv r, r ∈ missing wf gv → r ∉ missing wf' gv → listed w gv r)
  ∧ (res = Ok true → ∀ gv, missing wf' gv = ∅)
  ∧ (is_ok (clientset_New w) = true → (∀ gv r, r ∈ missing wf gv → listed w gv r) → res = Ok true).
Proof.
  unfold poll. destruct (clientset_New w) as [|e]; [|intros [= <- <-]; by split_and!].
  pose proof (poll_loop_spec w (map_range wf) true wf (NoDup_map_range_keys _) (map_range_missing wf)) as Hspec.
  destruct (poll_loop _ _ _ _) as [wf1 d]. intros [= <- <-]. destruct Hspec as (H1 & H2 & H3 & H4). split_and!; [done|done| |].
  - intros [= ->] gv. apply set_eq. intros r. split; [|by intros ?%elem_of_empty].
    intros Hr. destruct (H3 eq_refl) as [_ Hall].
    rewrite Hall in Hr; [done|]. by apply (missing_range wf gv r), H1.
  - intros _ Hl. f_equal. by apply H4; [|intros; apply Hl].
Qed.

Lemma polls_listed wf w ws wf' w' res :
  polls poll wf w ws wf' w' res → res = None →
  ∀ gv r, r ∈ missing wf gv → ∃ w1, w1 ∈ ws ∧ listed w1 gv r.
Proof.
  induction 1 as [wf w wf' Hp|wf w wf' e Hp|wf w wf' w' Hp|wf w wf1 w1 ws wf' w' res Hp _ IH]; intros Hres gv r Hr; try done.
  - apply poll_spec in Hp as (H1 & H2 & H3 & _). exists w. split; [by left|]. apply H2; [done|].
    rewrite H3 by done. by intros ?%elem_of_empty.
  - apply poll_spec in Hp as (H1 & H2 & _). destruct (decide (r ∈ missing wf1 gv)) as [Hin|Hin].
    + destruct (IH Hres gv r Hin) as (w2 & Hw2 & Hl). exists w2. split; [by right|done].
    + exists w. split; [by left|]. by apply H2.
Qed.

(** What [WaitForCRDs] awaits. *)
Definition awaits (crds : list Object) gv r : Prop :=
  ∃ crd gvs, crd ∈ runtimeCRDListToUnstructured crds ∧ awaited crd = Ok (gvs, r) ∧ gv ∈ gvs.

Lemma missing_add plural gvs wf gv r :
  r ∈ missing (foldl (add_waiting plural) wf gvs) gv ↔ r ∈ missing wf gv ∨ r = plural ∧ gv ∈ gvs.
Proof.
  revert wf. induction gvs as [|gv1 gvs IH]; intros wf; cbn [foldl].
  { split; [by left|]. by intros [?|[_ ?%elem_of_nil]]. }
  rewrite IH, elem_of_cons. unfold missing at 1, add_waiting. destruct (decide (gv = gv1)) as [->|Hne].
  - rewrite lookup_insert_eq. cbn. rewrite elem_of_union, elem_of_singleton. unfold missing. tauto.
  - rewrite lookup_insert_ne by done. unfold missing. tauto.
Qed.

Lemma all_awaited_missing us wf wf' gv r : all_awaited us wf = Ok wf' →
  r ∈ missing wf' gv ↔ r ∈ missing wf gv ∨ ∃ u gvs, u ∈ us ∧ awaited u = Ok (gvs, r) ∧ gv ∈ gvs.
Proof.
  revert wf. induction us as [|u us IH]; intros wf; cbn [all_awaited].
  { intros [= <-]. split; [by left|]. by intros [?|(? & ? & ?%elem_of_nil & _)]. }
  destruct (awaited u) as [[gvs plural]|e] eqn:Hu; [|done]. cbn. intros Hall.
  rewrite (IH _ Hall), missing_add. split.
  - intros [[?|[-> Hgv]]|(u' & gvs' & Hin & Ha & Hgv)]; [by left|right..].
    + exists u, gvs. split; [by left|done].
    + exists u', gvs'. split; [by right|done].
  - intros [?|(u' & gvs' & Hin & Ha & Hgv)]; [by left; left|]. apply elem_of_cons in Hin as [->|Hin].
    + left; right. rewrite Hu in Ha. by injection Ha as <- <-.
    + right. by exists u', gvs'.
Qed.

(** Waiting for CRDs ends without an error only when discovery has listed
    the resource of every CRD in every version it serves, each at one of the
    tries; and it ends at the first try if they are all listed then.  It awaits
    nothing for what is not served. *)
Theorem WaitForCRDs_waits crds interval max w w' err :
  WaitForCRDs crds interval max w = (w', err) →
  (err = None → ∃ ws wf wf', polls poll wf w ws wf' w' None ∧
     ∀ gv r, awaits crds gv r → ∃ w1, w1 ∈ ws ∧ listed w1 gv r)
  ∧ (is_ok (all_awaited (runtimeCRDListToUnstructured crds) ∅) = true → is_ok (clientset_New w) = true →
     (∀ gv r, awaits crds gv r → listed w gv r) → w' = w ∧ err = None).
Proof.
  unfold WaitForCRDs. destruct (all_awaited _ ∅) as [wf|e] eqn:Hall; [|intros [= <- <-]; by split].
  assert (Hm : ∀ gv r, r ∈ missing wf gv ↔ awaits crds gv r).
  { intros gv r. rewrite (all_awaited_missing _ _ _ gv r Hall). unfold awaits, missing at 1. rewrite lookup_empty. set_solver. }
  destruct (PollImmediate _ _ _ _ _) as [[wf' w1] res] eqn:Hp. intros [= <- <-].
  apply PollImmediate_polls in Hp as [ws Hp]. split.
  - intros ->. exists ws, wf, wf'. split; [done|]. intros gv r Hr%Hm. by eapply polls_listed.
  - intros _ Hok Hl.
    assert (Hdone : (poll wf w).2 = Ok true).
    { destruct (poll wf w) as [wf1 res1] eqn:Hpw. cbn. apply poll_spec in Hpw as (_ & _ & _ & H4).
      apply H4; [done|]. intros gv r Hr. by apply Hl, Hm. }
    inversion Hp as [? ? ? Heq|? ? ? ? Heq|? ? ? ? Heq|? ? ? ? ? ? ? ? Heq]; subst; rewrite Heq in Hdone; cbn in Hdone; by simplify_eq.
Qed.
End discovery.

(** ** Reading *)

Section reading.
Context `{!MapRange (GVK * string) Object}.

(** The CRDs of a path, none for a path that does not exist. *)
Definition path_crds w (path : string) : result (list Object) :=
  match Stat path w with
  | Err _ => Ok []
  | Ok info =>
      if fi_IsDir info then files ← ReadDir path w; readCRDs path files w
      else readCRDs (filepath_Dir path) [info] w
  end.

Definition last_defined (l : list Object) (g : GVK * string) : option Object :=
  last (filter (λ o, gvkn_of o = g) l).

Lemma add_crds_lookup l m g :
  add_crds l m !! g = match last_defined l g with Some o => Some o | None => m !! g end.
Proof.
  unfold add_crds, last_defined. revert m. induction l as [|o l IH]; intros m; [done|]. cbn [foldl].
  rewrite IH, filter_cons. destruct (decide (gvkn_of o = g)) as [<-|Hne].
  - rewrite last_cons. destruct (last _); [done|]. by rewrite lookup_insert_eq.
  - by rewrite lookup_insert_ne.
Qed.

Lemma add_crds_app l1 l2 m : add_crds (l1 ++ l2) m = add_crds l2 (add_crds l1 m).
Proof. unfold add_crds. by rewrite foldl_app. Qed.

Fixpoint all_crds w (paths : list string) : result (list Object) :=
  match paths with
  | [] => Ok []
  | path :: paths => l ← path_crds w path; ls ← all_crds w paths; Ok (l ++ ls)
  end.

Lemma render_paths_Ok missing_err paths w m m' :
  render_paths missing_err paths w m = Returned (Ok m') →
  (∃ all, all_crds w paths = Ok all ∧ m' = add_crds all m)
  ∧ (missing_err = true → Forall (λ path, is_ok (Stat path w) = true) paths).
Proof.
  revert m. induction paths as [|path paths IH]; intros m; cbn [render_paths all_crds].
  { intros [= <-]. split; [by exists []|by constructor]. }
  unfold path_crds. destruct (Stat path w) as [info|e] eqn:Hs.
  - cbn -[readCRDs all_crds]. destruct (fi_IsDir info).
    + destruct (ReadDir path w) as [files|]; [|done]. cbn -[readCRDs all_crds].
      destruct (readCRDs path files w) as [l|]; [|done]. cbn -[readCRDs all_crds]. intros Hr.
      destruct (IH _ Hr) as [(all & -> & ->) Hex]. split; [|intros He; apply Forall_cons; split; [by rewrite Hs|by apply Hex]].
      exists (l ++ all). split; [done|]. by rewrite add_crds_app.
    + cbn -[readCRDs all_crds]. destruct (readCRDs (filepath_Dir path) [info] w) as [l|]; [|done]. cbn -[readCRDs all_crds]. intros Hr.
      destruct (IH _ Hr) as [(all & -> & ->) Hex]. split; [|intros He; apply Forall_cons; split; [by rewrite Hs|by apply Hex]].
      exists (l ++ all). split; [done|]. by rewrite add_crds_app.
  - destruct (IsNotExist e); [|done]. destruct missing_err; [done|]. intros Hr.
    destruct (IH _ Hr) as [(all & -> & ->) Hex]. split; [by exists all|done].
Qed.

Lemma last_defined_elem l g o : last_defined l g = Some o → o ∈ l ∧ gvkn_of o = g.
Proof.
  unfold last_defined. intros Hl. apply last_Some in Hl as [l' Hl].
  assert (Hin : o ∈ filter (λ o, gvkn_of o = g) l) by (rewrite Hl; set_solver).
  apply list_elem_of_filter in Hin as [? ?]. done.
Qed.

(** The CRDs read from paths are, of all definitions in their files in
    order, the last of each kind and name, one each, whatever order the map they
    are collected in is ranged over in; when missing paths are errors, all
    paths were there. *)
Theorem renderCRDs_last_definition missing_err paths w res :
  renderCRDs missing_err paths w = Returned (Ok res) →
  (∃ all, all_crds w paths = Ok all ∧ NoDup (gvkn_of <$> res)
     ∧ ∀ o, o ∈ res ↔ last_defined all (gvkn_of o) = Some o)
  ∧ (missing_err = true → Forall (λ path, is_ok (Stat path w) = true) paths).
Proof.
  unfold renderCRDs. destruct (render_paths _ _ _ _) as [[m|e]|] eqn:Hr; cbn; [|done..].
  intros [= <-]. destruct (render_paths_Ok _ _ _ _ _ Hr) as [(all & Hall & ->) Hex]. split; [|done].
  exists all. split; [done|].
  assert (Hl : ∀ g, (add_crds all ∅ : gmap (GVK * string) Object) !! g = last_defined all g).
  { intros g. rewrite add_crds_lookup. by destruct (last_defined all g). }
  assert (Hkey : ∀ g o, (g, o) ∈ map_range (add_crds all ∅) → gvkn_of o = g).
  { intros g o Hin%elem_of_map_range. rewrite Hl in Hin. by apply last_defined_elem in Hin as [_ ?]. }
  split.
  - rewrite <- list_fmap_compose.
    replace ((gvkn_of ∘ snd) <$> map_range (add_crds all ∅)) with ((map_range (add_crds all ∅)).*1).
    + apply NoDup_map_range_keys.
    + apply list_fmap_ext. intros i [g o] Hi. cbn. symmetry. eapply Hkey, list_elem_of_lookup_2, Hi.
  - intros o. rewrite list_elem_of_fmap. split.
    + intros ([g o'] & -> & Hin). cbn. pose proof (Hkey _ _ Hin) as <-.
      apply elem_of_map_range in Hin. by rewrite Hl in Hin.
    + intros Ho. exists (gvkn_of o, o). split; [done|]. apply elem_of_map_range. by rewrite Hl.
Qed.
End reading.

(** The last object of a list with a name. *)
Definition last_named (l : list Object) (n : string) : option Object := last (filter (λ o, GetName o = n) l).

Lemma last_named_cons crd l n :
  last_named (crd :: l) n = match last_named l n with
                            | Some o => Some o
                            | None => if decide (n = GetName crd) then Some crd else None
                            end.
Proof.
  unfold last_named. rewrite filter_cons. destruct (decide (GetName crd = n)) as [->|Hne].
  - rewrite decide_True by done. by rewrite last_cons.
  - by rewrite decide_False by congruence; destruct (last _).
Qed.

(** Merging keeps, for every name, the last of the second list, else the last of
    the first. *)
Lemma add_by_name_lookup m l n :
  add_by_name m l !! n = match last_named (runtimeCRDListToUnstructured l) n with Some o => Some o | None => m !! n end.
Proof.
  unfold add_by_name. generalize (runtimeCRDListToUnstructured l). clear l. intros l. revert m.
  induction l as [|o l IH]; intros m; [done|]. cbn [foldl]. rewrite IH, last_named_cons.
  destruct (last_named l n); [done|]. case_decide as Hn.
  - subst. by rewrite lookup_insert_eq.
  - by rewrite lookup_insert_ne.
Qed.

Lemma mergeCRDs_spec `{!MapRange string Object} s1 s2 o :
  o ∈ mergeCRDs s1 s2 ↔
  last_named (runtimeCRDListToUnstructured s2) (GetName o) = Some o
  ∨ last_named (runtimeCRDListToUnstructured s2) (GetName o) = None
    ∧ last_named (runtimeCRDListToUnstructured s1) (GetName o) = Some o.
Proof.
  unfold mergeCRDs. rewrite list_elem_of_fmap.
  assert (Hname : ∀ l n o, last_named l n = Some o → GetName o = n).
  { intros l n o' Hl. apply last_Some in Hl as [l' Hl].
    assert (Hin : o' ∈ filter (λ o, GetName o = n) l) by (rewrite Hl; set_solver).
    by apply list_elem_of_filter in Hin as [? ?]. }
  split.
  - intros ([n o'] & -> & Hin%elem_of_map_range). cbn. rewrite !add_by_name_lookup, lookup_empty in Hin.
    destruct (last_named _ n) as [o2|] eqn:H2; simplify_eq.
    + rewrite (Hname _ _ _ H2). by left.
    + destruct (last_named (runtimeCRDListToUnstructured s1) n) as [o1|] eqn:H1; simplify_eq.
      rewrite (Hname _ _ _ H1). by right.
  - intros Ho. exists (GetName o, o). split; [done|]. apply elem_of_map_range. rewrite !add_by_name_lookup.
    destruct Ho as [->|[-> ->]]; done.
Qed.

Lemma mergePaths_elem `{!MapRange string ()} s1 s2 p :
  p ∈ mergePaths s1 s2 ↔ p ∈ s1 ∨ p ∈ s2.
Proof.
  unfold mergePaths. rewrite elem_of_map_range_keys.
  assert (Hfold : ∀ l (m : gmap string ()), is_Some (foldl (λ m s, <[s := ()]> m) m l !! p) ↔ p ∈ l ∨ is_Some (m !! p)).
  { induction l as [|q l IH]; intros m; cbn [foldl]; [set_solver|]. rewrite IH, elem_of_cons.
    destruct (decide (p = q)) as [->|Hne].
    - rewrite lookup_insert_eq. split; [naive_solver|eauto].
    - rewrite lookup_insert_ne by done. tauto. }
  rewrite !Hfold, lookup_empty. split; [intros [?|[?|[? ?]]]; [by right|by left|done]|intros [?|?]; [right; by left|by left]].
Qed.

(** ** Conversion webhooks *)

Section conversion.
Context `{!ConvertibleTypes T V} `{!ConversionScheme T V} `{!ConversionSchemeLaws T V} `{!MapRange GVK T}.
Context `{!TypedCRDs}.
Implicit Types (gk : GroupKind) (c : Content).

(** A kind one of whose types, registered under one kind only, has it, and
    whose versions are a hub and its spokes. *)
Definition convertible_kind gk : Prop :=
  ∃ gvk obj hub_gvk, scheme_New gvk = Ok obj ∧ is_Some (scheme_AllKnownTypes !! gvk)
    ∧ scheme_ObjectKinds obj = Ok [gvk] ∧ gvk_GroupKind gvk = gk ∧ hub_and_spokes (T := T) (V := V) gk hub_gvk.

Lemma collect_convertibles_spec known convertibles :
  (∀ gvk t, (gvk, t) ∈ known → scheme_AllKnownTypes !! gvk = Some t) →
  ∃ convertibles', collect_convertibles known convertibles = Ok convertibles' ∧
    ∀ gk, gk ∈ convertibles' ↔ gk ∈ convertibles ∨
      ∃ gvk t obj, (gvk, t) ∈ known ∧ gvk_GroupKind gvk = gk ∧ scheme_New gvk = Ok obj
        ∧ IsConvertible obj = Convertible_is true.
Proof.
  revert convertibles. induction known as [|[gvk t] known IH]; intros cs Hk.
  { exists cs. split; [done|]. intros gk. split; [by left|]. by intros [?|(? & ? & ? & ?%elem_of_nil & _)]. }
  destruct (scheme_New_known gvk t) as (obj & Hobj & _); [apply Hk; by left|].
  cbn [collect_convertibles]. rewrite Hobj.
  set (cs' := match IsConvertible obj with Convertible_is true => _ | _ => _ end).
  destruct (IH cs') as (res & -> & Hres); [intros; apply Hk; by right|]. exists res. split; [done|].
  intros gk. rewrite Hres.
  assert (Hcs : gk ∈ cs' ↔ gk ∈ cs ∨ gvk_GroupKind gvk = gk ∧ IsConvertible obj = Convertible_is true).
  { unfold cs'. destruct (IsConvertible obj) as [[|]|e|e]; try (split; [by left|by intros [?|[_ ?]]]).
    rewrite elem_of_union, elem_of_singleton. split; [intros [->|?]; [by right|by left]|intros [?|[<- _]]; [by right|by left]]. }
  rewrite Hcs. split.
  - intros [[?|[? ?]]|(gvk' & t' & obj' & Hin & ?)]; [by left|right..].
    + exists gvk, t, obj. split; [by left|done].
    + exists gvk', t', obj'. split; [by right|done].
  - intros [?|(gvk' & t' & obj' & Hin & Hgk & Hnew & Hc)]; [by left; left|].
    apply elem_of_cons in Hin as [[= -> ->]|Hin].
    + left; right. rewrite Hobj in Hnew. by injection Hnew as ->.
    + right. by exists gvk', t', obj'.
Qed.

Lemma convertible_kinds :
  ∃ convertibles, collect_convertibles (map_range scheme_AllKnownTypes) ∅ = Ok convertibles
    ∧ ∀ gk, gk ∈ convertibles ↔ convertible_kind gk.
Proof.
  destruct (collect_convertibles_spec (map_range scheme_AllKnownTypes) ∅) as (cs & Hcs & Hall).
  { intros gvk t. by rewrite elem_of_map_range. }
  exists cs. split; [done|]. intros gk. rewrite Hall. split.
  - intros [?%elem_of_empty|(gvk & t & obj & Hin%elem_of_map_range & Hgk & Hnew & Hc)]; [done|].
    destruct (IsConvertible_hub _ Hc) as (g0 & hub & Hk & Hh).
    assert (g0 = gvk) as ->.
    { destruct (scheme_New_known gvk t Hin) as (obj' & Hnew' & Ht). rewrite Hnew in Hnew'. injection Hnew' as <-.
      assert (Hg : gvk ∈ [g0]) by (apply (scheme_ObjectKinds_known _ _ Hk); by rewrite Ht).
      by apply list_elem_of_singleton in Hg. }
    exists gvk, obj, hub. subst gk. by split_and!.
  - intros (gvk & obj & hub & Hnew & [t Ht] & Hk & Hgk & Hh). right. exists gvk, t, obj.
    rewrite elem_of_map_range. split_and!; [done..|]. eapply hub_IsConvertible; [done|]. by rewrite Hgk.
Qed.

(** How content answers after one of its fields was set: the field has what was
    set, and fields next to it are as before. *)
Definition apart (p q : list string) : Prop := ¬ p `prefix_of` q ∧ ¬ q `prefix_of` p.

Class ContentLaws := {
  get_field v p c c' : SetNestedField v p c = Ok c' → NestedString c' p = (v, true, None);
  get_map kvs p c c' k v : SetNestedMap kvs p c = Ok c' → NoDup kvs.*1 → (k, v) ∈ kvs →
    NestedString c' (p ++ [k]) = (v, true, None);
  field_frame v p c c' q : SetNestedField v p c = Ok c' → apart p q → NestedString c' q = NestedString c q;
  slice_frame vs p c c' q : SetNestedStringSlice vs p c = Ok c' → apart p q → NestedString c' q = NestedString c q;
  map_frame kvs p c c' q : SetNestedMap kvs p c = Ok c' → apart p q → NestedString c' q = NestedString c q;
  content_set c crd : content (set_content c crd) = c;
}.
Context `{!ContentLaws}.

(** An unstructured CRD that is to be converted by webhook: it prunes unknown
    fields - which v1beta1 must say - and its kind can be converted. *)
Definition wants_webhook crd : Prop :=
  ∃ gk, crd_group_kind (content crd) = Ok (Some gk) ∧ convertible_kind gk ∧
    let '(preserve, found, err) := NestedBool (content crd) ["spec"; "preserveUnknownFields"] in
    preserve = false ∧ err = None ∧
    (gvk_Version (o_gvk crd) = "v1" ∨ gvk_Version (o_gvk crd) = "v1beta1" ∧ found = true).

(** Where the client configuration of a version's webhook is. *)
Definition config_path crd : list string :=
  if decide (gvk_Version (o_gvk crd) = "v1") then ["spec"; "conversion"; "webhook"; "clientConfig"]
  else ["spec"; "conversion"; "webhookClientConfig"].

(** The conversion is done by the webhook at [url], and fields outside
    [spec.conversion] are as they were. *)
Definition converted_by (url caData : string) crd crd' : Prop :=
  NestedString (content crd') ["spec"; "conversion"; "strategy"] = ("Webhook", true, None)
  ∧ NestedString (content crd') (config_path crd ++ ["url"]) = (url, true, None)
  ∧ NestedString (content crd') (config_path crd ++ ["caBundle"]) = (base64 caData, true, None)
  ∧ ∀ q, apart ["spec"; "conversion"] q → NestedString (content crd') q = NestedString (content crd) q.

Lemma apart_conversion p q : apart ["spec"; "conversion"] q → apart (["spec"; "conversion"] ++ p) q.
Proof.
  intros [H1 H2]. split; intros Hp.
  - apply H1. etrans; [|exact Hp]. by apply prefix_app_r.
  - destruct (prefix_weak_total ["spec"; "conversion"] q _ (prefix_app_r _ _ _ (reflexivity _)) Hp); done.
Qed.

Lemma set_webhook_converts url caData versions vp cp c c' :
  set_webhook versions (["spec"; "conversion"] ++ vp) (["spec"; "conversion"] ++ cp)
    [("url", url); ("caBundle", base64 caData)] c = (c', None) →
  apart (["spec"; "conversion"] ++ vp) ["spec"; "conversion"; "strategy"] →
  apart (["spec"; "conversion"] ++ cp) ["spec"; "conversion"; "strategy"] →
  NestedString c' ["spec"; "conversion"; "strategy"] = ("Webhook", true, None)
  ∧ NestedString c' ((["spec"; "conversion"] ++ cp) ++ ["url"]) = (url, true, None)
  ∧ NestedString c' ((["spec"; "conversion"] ++ cp) ++ ["caBundle"]) = (base64 caData, true, None)
  ∧ ∀ q, apart ["spec"; "conversion"] q → NestedString c' q = NestedString c q.
Proof.
  unfold set_webhook. destruct (SetNestedField _ _ c) as [c1|] eqn:H1; [|done].
  destruct (SetNestedStringSlice _ _ c1) as [c2|] eqn:H2; [|done].
  destruct (SetNestedMap _ _ c2) as [c3|] eqn:H3; [|done]. intros [= <-] Hv Hc. split_and!.
  - rewrite (map_frame _ _ _ _ _ H3 Hc), (slice_frame _ _ _ _ _ H2 Hv). by eapply get_field.
  - eapply get_map; [exact H3| |by left]. by apply (bool_decide_unpack _).
  - eapply get_map; [exact H3| |by right; left]. by apply (bool_decide_unpack _).
  - intros q Hq. rewrite (map_frame _ _ _ _ _ H3), (slice_frame _ _ _ _ _ H2), (field_frame _ _ _ _ _ H1);
      [done| |by apply apart_conversion..]. by apply (apart_conversion ["strategy"]).
Qed.

Lemma apart_strategy a l : a ≠ "strategy" →
  apart (["spec"; "conversion"] ++ a :: l) ["spec"; "conversion"; "strategy"].
Proof. intros Ha. split; intros [k Hk]; cbn in Hk; by injection Hk. Qed.

(** One CRD whose version and flag are right. *)
Lemma enable_spec url caData (convertibles : gset GroupKind) versions vp va cp ca crd crd' :
  (∀ gk, gk ∈ convertibles ↔ convertible_kind gk) → va ≠ "strategy" → ca ≠ "strategy" →
  match crd_group_kind (content crd) with
  | Err err => (crd, Some err)
  | Ok None => (crd, None)
  | Ok (Some gk) =>
      if decide (gk ∈ convertibles) then
        let '(c, err) := set_webhook versions (["spec"; "conversion"] ++ va :: vp) (["spec"; "conversion"] ++ ca :: cp)
          [("url", url); ("caBundle", base64 caData)] (content crd) in (set_content c crd, err)
      else (crd, None)
  end = (crd', None) →
  config_path crd = ["spec"; "conversion"] ++ ca :: cp →
  ((∃ gk, crd_group_kind (content crd) = Ok (Some gk) ∧ convertible_kind gk) → converted_by url caData crd crd')
  ∧ (¬ (∃ gk, crd_group_kind (content crd) = Ok (Some gk) ∧ convertible_kind gk) → crd' = crd).
Proof.
  intros Hconv Hva Hca Heq Hpath. destruct (crd_group_kind (content crd)) as [[gk|]|]; [| |done].
  2: { injection Heq as <-. split; [by intros (? & ? & _)|done]. }
  case_decide as Hin.
  - destruct (set_webhook _ _ _ _ _) as [c' err] eqn:Hset. injection Heq as <- ->.
    split; [intros _|intros Hn; destruct Hn; exists gk; by rewrite <- Hconv].
    unfold converted_by. rewrite content_set, Hpath.
    apply (set_webhook_converts _ _ _ _ _ _ _ Hset); by apply apart_strategy.
  - injection Heq as <-. split; [|done]. intros (gk' & [= <-] & Hk). destruct Hin. by apply Hconv.
Qed.

Lemma modify_unstructured_spec url caData (convertibles : gset GroupKind) crd crd' :
  (∀ gk, gk ∈ convertibles ↔ convertible_kind gk) →
  modify_unstructured url caData convertibles crd = (crd', None) →
  (wants_webhook crd → converted_by url caData crd crd') ∧ (¬ wants_webhook crd → crd' = crd).
Proof.
  intros Hconv. unfold modify_unstructured, wants_webhook.
  destruct (NestedBool (content crd) ["spec"; "preserveUnknownFields"]) as [[preserve found] err].
  destruct (decide (gvk_Version (o_gvk crd) = "v1beta1")) as [Hb|Hb].
  - assert (Hpath : config_path crd = ["spec"; "conversion"] ++ ["webhookClientConfig"]).
    { unfold config_path. rewrite decide_False; [done|congruence]. }
    destruct preserve, found; cbn [orb negb]; try (intros [= <-]; split; [|done];
      by intros (gk & _ & _ & Hp & _ & [Hv|[_ Hf]]); congruence).
    destruct err as [err|]; [done|]. intros Heq.
    apply (enable_spec _ _ _ _ ["clientConfig"] "webhook" [] "webhookClientConfig" _ _ Hconv) in Heq as [H1 H2]; [|done..].
    split; [|intros Hn; apply H2; intros (gk & Hgk & Hk); apply Hn; exists gk; by refine (conj Hgk (conj Hk (conj eq_refl (conj eq_refl (or_intror (conj Hb eq_refl))))))].
    intros (gk & Hgk & Hk & _). apply H1. by exists gk.
  - destruct (decide (gvk_Version (o_gvk crd) = "v1")) as [Hv|Hv].
    + assert (Hpath : config_path crd = ["spec"; "conversion"] ++ ["webhook"; "clientConfig"]).
      { unfold config_path. by rewrite decide_True. }
      destruct preserve; [intros [= <-]; split; [|done]; by intros (gk & _ & _ & Hp & _)|].
      destruct err as [err|]; [done|]. intros Heq.
      apply (enable_spec _ _ _ _ ["conversionReviewVersions"] "webhook" ["clientConfig"] "webhook" _ _ Hconv) in Heq
        as [H1 H2]; [|done..].
      split; [|intros Hn; apply H2; intros (gk & Hgk & Hk); apply Hn; exists gk; by refine (conj Hgk (conj Hk (conj eq_refl (conj eq_refl (or_introl Hv)))))].
      intros (gk & Hgk & Hk & _). apply H1. by exists gk.
    + intros [= <-]. split; [|done]. intros (gk & _ & _ & _ & _ & [?|[? _]]); done.
Qed.

(** Of unstructured CRDs, exactly those that prune unknown fields (v1beta1
    has to say so) and whose kind the scheme knows as a hub with its spokes are
    changed: their conversion strategy becomes the webhook, at the address and
    with the CA of the local server, and nothing outside their conversion is
    touched; all others are returned as they are. *)
Theorem conversion_webhooks_enabled crds caData hostPort crds' :
  caData ≠ "" → Forall (λ crd, crd_view crd = ViewUnstructured) crds →
  modifyConversionWebhooks crds caData (Ok hostPort) = Returned (crds', None) →
  Forall2 (λ crd crd',
    (wants_webhook crd → converted_by ("https://" +:+ hostPort +:+ "/convert") caData crd crd')
    ∧ (¬ wants_webhook crd → crd' = crd)) crds crds'.
Proof.
  intros Hca Hun. unfold modifyConversionWebhooks. rewrite decide_False by done.
  destruct convertible_kinds as (convertibles & -> & Hconv).
  set (url := "https://" +:+ hostPort +:+ "/convert"). clearbody url.
  revert crds'. induction Hun as [|crd crds Hview _ IH]; intros crds'; cbn [modify_crds].
  { intros [= <-]. constructor. }
  unfold modify_crd. rewrite Hview. cbn [mbind outcome_bind].
  destruct (modify_unstructured url caData convertibles crd) as [crd1 [err|]] eqn:Hm; [done|].
  destruct (modify_crds url caData convertibles crds) as [[crds1 err]|]; cbn; [|done..].
  intros [= <- ->]. constructor; [by eapply modify_unstructured_spec|by apply IH].
Qed.
End conversion.
End facts.
