(* ===== verification/EnvtestCRDProtocol.v ===== *)
(** * What creating CRDs asks of the API server

    [CreateCRDs] (src/pkg/envtest/crd.go) over any API server, whoever else
    writes to it and whatever it answers: which requests are made, in which
    order, how often a conflict is tried again, and when an error is returned. *)

From S2P Require Export EnvtestCRDFacts.

(** ** Exchanges with the API server *)

(** A request and its answer: the object it fills in and the error. *)
Inductive Exchange :=
  | ExGet (key : NamespacedName) (target : Object) (answer : Object * option error)
  | ExCreate (obj : Object) (answer : Object * option error)
  | ExUpdate (obj : Object) (answer : Object * option error).

(** The objects the server accepted, in order. *)
Definition accepted_object (ex : Exchange) : option Object :=
  match ex with
  | ExCreate obj (_, None) | ExUpdate obj (_, None) => Some obj
  | _ => None
  end.
Definition accepted (exs : list Exchange) : list Object := omap accepted_object exs.

Lemma accepted_app l1 l2 : accepted (l1 ++ l2) = accepted l1 ++ accepted l2.
Proof. apply omap_app. Qed.

Section protocol.
Context {W Content Val T V : Type} `{!EqDecision T}.
Context `{!CRDContent (Content := Content) (Val := Val)} `{!CRDCluster (W := W)} `{!CRDClusterLaws (W := W)}.
Implicit Types (w : W) (crd ex : Object) (cs : Client W).

(** A client whose exchanges the world records.  Nothing is assumed of the
    answers; an object is filled in from an answer, so a failed update leaves
    it alone. *)
Class RecordedClient cs := {
  recorded : W → list Exchange;
  recorded_Get key obj w o w' err : Get cs key obj w = (o, w', err) →
    recorded w' = recorded w ++ [ExGet key obj (o, err)];
  recorded_Create obj w o w' err : Create cs [] obj w = (o, w', err) →
    recorded w' = recorded w ++ [ExCreate obj (o, err)];
  recorded_Update obj w o w' err : Update cs [] obj w = (o, w', err) →
    recorded w' = recorded w ++ [ExUpdate obj (o, err)] ∧ (is_Some err → o = obj);
}.

(** ** The protocol *)

(** CRDs are read by name alone. *)
Definition crd_key crd : NamespacedName := mkNN "" (GetName crd).

(** One try to replace a CRD that is there: read it again, and send the CRD at
    the version just read. *)
Inductive attempt crd : list Exchange → option error → Prop :=
  | attempt_unread ex ex' e : attempt crd [ExGet (crd_key crd) ex (ex', Some e)] (Some e)
  | attempt_sent ex ex' o err :
      attempt crd [ExGet (crd_key crd) ex (ex', None);
                   ExUpdate (SetResourceVersion (GetResourceVersion ex') crd) (o, err)] err.

(** Up to [n] tries: the last is the first that does not end with a conflict, or
    the [n]-th. *)
Inductive attempts crd : nat → list Exchange → option error → Prop :=
  | attempts_last n exs err :
      attempt crd exs err → n = 1 ∨ is_conflict err = false → attempts crd n exs err
  | attempts_again n exs err1 exs' err :
      attempt crd exs err1 → is_conflict err1 = true → attempts crd n exs' err →
      attempts crd (S n) (exs ++ exs') err.

(** A CRD is installed: created if it is not there, else replaced. *)
Inductive installed crd : list Exchange → option error → Prop :=
  | installed_created ex e o err :
      IsNotFound e = true →
      installed crd [ExGet (crd_key crd) crd (ex, Some e); ExCreate crd (o, err)]
        (ErrorWrap ("unable to create CRD " +:+ quoted (GetName crd)) <$> err)
  | installed_unknown ex e :
      IsNotFound e = false →
      installed crd [ExGet (crd_key crd) crd (ex, Some e)]
        (Some (ErrorWrap ("unable to get CRD " +:+ quoted (GetName crd) +:+ " to check if it exists") e))
  | installed_replaced ex exs err :
      attempts crd retry_Steps exs err →
      installed crd (ExGet (crd_key crd) crd (ex, None) :: exs) err.

(** One CRD after the other, up to the first that fails. *)
Inductive all_installed : list Object → list Exchange → option error → Prop :=
  | all_nil : all_installed [] [] None
  | all_cons crd crds exs exs' err :
      installed crd exs None → all_installed crds exs' err → all_installed (crd :: crds) (exs ++ exs') err
  | all_failed crd crds exs e :
      installed crd exs (Some e) → all_installed (crd :: crds) exs (Some e).

(** *** What the protocol gives *)

Definition a_version_of crd o : Prop := ∃ rv, o = SetResourceVersion rv crd.

Lemma attempt_rv crd rv exs err : attempt (SetResourceVersion rv crd) exs err → attempt crd exs err.
Proof.
  destruct 1 as [ex ex' e|ex ex' o err]; unfold crd_key; rewrite GetName_rv.
  - constructor.
  - rewrite SetResourceVersion_twice. apply attempt_sent.
Qed.

Lemma attempt_accepted crd exs err : attempt crd exs err →
  match err with None => ∃ o, accepted exs = [o] ∧ a_version_of crd o | Some _ => accepted exs = [] end.
Proof.
  destruct 1 as [|ex ex' o [e|]]; cbn; [done|done|]. eexists. split; [done|]. by eexists.
Qed.

Lemma attempts_accepted crd n exs err : attempts crd n exs err →
  match err with None => ∃ o, accepted exs = [o] ∧ a_version_of crd o | Some _ => accepted exs = [] end.
Proof.
  induction 1 as [n exs err Ha _|n exs err1 exs' err Ha Hc _ IH]; [by apply attempt_accepted|].
  apply attempt_accepted in Ha. destruct err1; [|done]. by rewrite accepted_app, Ha.
Qed.

Lemma installed_accepted crd exs err : installed crd exs err →
  match err with None => ∃ o, accepted exs = [o] ∧ a_version_of crd o | Some _ => accepted exs = [] end.
Proof.
  destruct 1 as [ex e o [err|] He|ex e He|ex exs err Ha%attempts_accepted]; cbn; try done.
  exists crd. split; [done|]. exists (GetResourceVersion crd). by rewrite SetResourceVersion_own.
Qed.

Lemma all_installed_accepted crds exs err : all_installed crds exs err →
  Forall2 a_version_of (take (length (accepted exs)) crds) (accepted exs)
  ∧ (err = None ↔ length (accepted exs) = length crds).
Proof.
  induction 1 as [|crd crds exs exs' err Hi _ [IH1 IH2]|crd crds exs e Hi].
  - split; [constructor|done].
  - apply installed_accepted in Hi as (o & Ho & Hv). rewrite accepted_app, Ho. cbn.
    split; [by constructor|]. rewrite IH2. by split; [intros ->|intros [= ->]].
  - apply installed_accepted in Hi. rewrite Hi. split; [constructor|done].
Qed.

(** ** The code follows it *)

Section client.
Context (cs : Client W) `{!RecordedClient cs}.

(** A failed try leaves the CRD as it is but for the version. *)
Lemma update_crd_attempt crd ex w crd' ex' w' err :
  update_crd cs (crd, ex, w) = ((crd', ex', w'), err) →
  ∃ exs, attempt crd exs err ∧ recorded w' = recorded w ++ exs ∧ (is_Some err → a_version_of crd crd').
Proof.
  unfold update_crd. destruct (Get cs _ ex w) as [[ex1 w1] [e|]] eqn:Hg; apply recorded_Get in Hg.
  - intros [= <- <- <- <-]. eexists. split; [apply attempt_unread|]. split; [done|].
    intros _. exists (GetResourceVersion crd). by rewrite SetResourceVersion_own.
  - destruct (Update cs [] _ w1) as [[o w2] err2] eqn:Hu; apply recorded_Update in Hu as [Hu Ho].
    intros [= <- <- <- <-]. eexists. split; [apply attempt_sent|].
    split; [rewrite Hu, Hg; by rewrite <- (assoc_L app)|]. intros He. rewrite (Ho He). by eexists.
Qed.

Lemma retries_attempts n st st' err : retries (update_crd cs) n st st' err →
  ∀ crd, a_version_of crd st.1.1 →
  ∃ exs, attempts crd n exs err ∧ recorded st'.2 = recorded st.2 ++ exs.
Proof.
  induction 1 as [n [[crd1 ex] w] [[crd2 ex'] w'] err Hu Hn|n [[crd1 ex] w] [[crd2 ex'] w1] err1 st' err Hu Hc _ IH];
    intros crd [rv Hrv]; cbn in *; subst crd1.
  - apply update_crd_attempt in Hu as (exs & Ha%attempt_rv & Hr & _). exists exs. split; [by constructor|done].
  - apply update_crd_attempt in Hu as (exs & Ha%attempt_rv & Hr & Hv).
    destruct err1 as [e|]; [|done]. destruct Hv as [rv' ->]; [done|].
    destruct (IH crd) as (exs' & Has & Hr'); [exists rv'; by rewrite SetResourceVersion_twice|].
    exists (exs ++ exs'). split; [by econstructor|]. by rewrite Hr', Hr, (assoc_L app).
Qed.

Lemma create_crd_installed crd w w' err :
  create_crd cs crd w = (w', err) → ∃ exs, installed crd exs err ∧ recorded w' = recorded w ++ exs.
Proof.
  unfold create_crd. destruct (Get cs _ crd w) as [[ex w1] [e|]] eqn:Hg; apply recorded_Get in Hg.
  - destruct (IsNotFound e) eqn:Hnf.
    + destruct (Create cs [] crd w1) as [[o w2] err2] eqn:Hc. apply recorded_Create in Hc. intros [= <- <-].
      eexists. split; [by apply (installed_created _ ex e o err2)|].
      rewrite Hc, Hg. by rewrite <- (assoc_L app).
    + intros [= <- <-]. eexists. split; [by apply installed_unknown|done].
  - destruct (RetryOnConflict _ _) as [[[crd2 ex2] w2] err2] eqn:Hr. intros [= <- <-].
    apply RetryOnConflict_retries in Hr. apply retries_attempts with (crd := crd) in Hr as (exs & Ha & Hrec).
    2: { exists (GetResourceVersion crd). by rewrite SetResourceVersion_own. }
    eexists. split; [by eapply installed_replaced|]. cbn in Hrec. rewrite Hrec, Hg. by rewrite <- (assoc_L app).
Qed.

Lemma create_loop_installed crds w w' err :
  create_loop cs crds w = (w', err) → ∃ exs, all_installed crds exs err ∧ recorded w' = recorded w ++ exs.
Proof.
  revert w. induction crds as [|crd crds IH]; intros w; cbn [create_loop].
  - intros [= <- <-]. exists []. split; [constructor|by rewrite app_nil_r].
  - destruct (create_crd cs crd w) as [w1 [e|]] eqn:Hc; apply create_crd_installed in Hc as (exs & Hi & Hr).
    + intros [= <- <-]. exists exs. split; [by constructor|done].
    + intros (exs' & Ha & Hr')%IH. exists (exs ++ exs'). split; [by constructor|]. by rewrite Hr', Hr, (assoc_L app).
Qed.

(** C37: whatever the API server answers and whoever else writes to it, creating
    CRDs takes the CRDs that can be converted one after the other, up to the
    first that fails, and returns that one's error.  A CRD the server does not
    have is created; any other failure to read it ends the call; one it has
    is read again and sent at the version just read, and that is tried again
    after a conflict - so that a conflict is only returned after as many of
    them as the backoff has steps, which are more than one.  What the server
    accepted are the first CRDs, in order and once each, and all of them
    exactly when no error is returned. *)
Theorem CreateCRDs_installs crds w w0 w' err :
  client_New w = (w0, Ok cs) → CreateCRDs crds w = (w', err) →
  let objs := runtimeCRDListToUnstructured crds in
  1 < retry_Steps ∧
  ∃ exs, recorded w' = recorded w0 ++ exs ∧ all_installed objs exs err
    ∧ Forall2 a_version_of (take (length (accepted exs)) objs) (accepted exs)
    ∧ (err = None ↔ length (accepted exs) = length objs).
Proof.
  intros Hnew Hc objs. split; [apply retry_Steps_many|]. unfold CreateCRDs in Hc. rewrite Hnew in Hc.
  apply create_loop_installed in Hc as (exs & Ha & Hr). exists exs. split; [done|]. split; [done|].
  by eapply all_installed_accepted.
Qed.
End client.
End protocol.
