(* ===== verification/EnvtestWebhook.v ===== *)
(** * Installing webhook configurations into the test environment (src/pkg/envtest/webhook.go)

    Reading webhook configurations from files, pointing them at the local
    server, creating them in the cluster, and what is meant to wait for them.
    Certificates, ports and directories are parameters. *)

From S2P Require Export NetAddr EnvtestCRDFacts.

Section webhook.
Context {W Content Val CA Cert : Type}.

Class WebhookDeps := {
  (** [runtime.DefaultUnstructuredConverter.ToUnstructured]. *)
  ToUnstructured : Object → result Object;
  NestedMap : Content → list string → nested Content;
  (** Assigning to a key of a map, and the values that are assigned. *)
  map_set : string → Val → Content → Content;
  val_string : string → Val;
  val_map : Content → Val;
  val_slice : list Val → Val;
  val_nil : Val;
  NewTinyCA : W → W * result CA;
  NewServingCert : CA → list string → W → W * result Cert;
  Cert_AsBytes : Cert → result (string * string);
  (** The directory, which is empty on an error. *)
  TempDir : string → W → W * string * option error;
  WriteFile : string → string → W → W * option error;
  RemoveAll : string → W → W * option error;
  addr_Suggest : string → W → W * result (Z * string);
  (** Kind, API version and name of a document. *)
  yaml_Metadata : string → result (string * string * string);
}.

Context `{!CRDContent (Content := Content) (Val := Val)} `{!CRDFiles (W := W)} `{!CRDCluster (W := W)} `{!WebhookDeps}.
Implicit Types (w : W) (obj hook : Object) (c : Content).

Record WebhookInstallOptions := mkWIO {
  wi_Paths : list string;
  wi_MutatingWebhooks : list Object;
  wi_ValidatingWebhooks : list Object;
  wi_IgnoreErrorIfPathMissing : bool;
  wi_LocalServingHost : string;
  wi_LocalServingPort : Z;
  wi_LocalServingCertDir : string;
  wi_LocalServingCAData : string;
  wi_LocalServingHostExternalName : string;
  wi_MaxTime : Z;
  wi_PollInterval : Z;
}.
Implicit Types o : WebhookInstallOptions.

Definition set_hooks (mutating validating : list Object) o : WebhookInstallOptions :=
  mkWIO (wi_Paths o) mutating validating (wi_IgnoreErrorIfPathMissing o) (wi_LocalServingHost o)
    (wi_LocalServingPort o) (wi_LocalServingCertDir o) (wi_LocalServingCAData o)
    (wi_LocalServingHostExternalName o) (wi_MaxTime o) (wi_PollInterval o).
Definition set_hostport (host : string) (port : Z) o : WebhookInstallOptions :=
  mkWIO (wi_Paths o) (wi_MutatingWebhooks o) (wi_ValidatingWebhooks o) (wi_IgnoreErrorIfPathMissing o) host
    port (wi_LocalServingCertDir o) (wi_LocalServingCAData o)
    (wi_LocalServingHostExternalName o) (wi_MaxTime o) (wi_PollInterval o).
Definition set_certs (dir caData : string) o : WebhookInstallOptions :=
  mkWIO (wi_Paths o) (wi_MutatingWebhooks o) (wi_ValidatingWebhooks o) (wi_IgnoreErrorIfPathMissing o)
    (wi_LocalServingHost o) (wi_LocalServingPort o) dir caData
    (wi_LocalServingHostExternalName o) (wi_MaxTime o) (wi_PollInterval o).

(** ** Pointing the hooks at the local server *)

(** The objects that cannot be converted are left out, so the others move up. *)
Definition runtimeListToUnstructured (l : list Object) : list Object :=
  omap (λ obj, match ToUnstructured obj with Ok u => Some u | Err _ => None end) l.

Definition generateHostPort o w : WebhookInstallOptions * W * result string :=
  let '(o, w, err) :=
    if decide (wi_LocalServingPort o = 0%Z) then
      match addr_Suggest (wi_LocalServingHost o) w with
      | (w, Err err) => (o, w, Some (ErrorString ("unable to grab random port for serving webhooks on: " +:+ error_text err)))
      | (w, Ok (port, host)) => (set_hostport host port o, w, None)
      end
    else (o, w, None) in
  match err with
  | Some err => (o, w, Err err)
  | None =>
      let host := if decide (wi_LocalServingHostExternalName o = "") then wi_LocalServingHost o
                  else wi_LocalServingHostExternalName o in
      (o, w, Ok (JoinHostPort host (Itoa (wi_LocalServingPort o))))
  end.

Definition modifyWebhook (webhook : Content) (caData hostPort : string) : result Content :=
  let '(clientConfig, found, err) := NestedMap webhook ["clientConfig"] in
  match err, found with
  | None, true =>
      let clientConfig := map_set "caBundle" (val_string (base64 caData)) clientConfig in
      let '(servicePath, found, err) := NestedString clientConfig ["service"; "path"] in
      let clientConfig :=
        match err, found with
        | None, true =>
            map_set "service" val_nil
              (map_set "url" (val_string ("https://" +:+ hostPort +:+ "/" +:+ servicePath)) clientConfig)
        | _, _ => clientConfig
        end in
      Ok (map_set "clientConfig" (val_map clientConfig) webhook)
  | _, _ => Err (ErrorString ("cannot find clientconfig: " +:+ percent_v err))
  end.

(** The loop over the hooks of one configuration: the hooks done before, which
    are stored back into the object after every step; a hook that is not a map
    is a panic. *)
Fixpoint modify_hooks (caData hostPort : string) (before after : list Val) hook (store : Object → list Object → list Object)
    (l : list Object) : outcome (list Object * option error) :=
  match after with
  | [] => Returned (l, None)
  | webhook :: after =>
      match as_map webhook with
      | None => Panicked "interface conversion"
      | Some m =>
          match modifyWebhook m caData hostPort with
          | Err err => Returned (l, Some err)
          | Ok m =>
              let webhooks := before ++ [val_map m] in
              let hook := set_content (map_set "webhooks" (val_slice (webhooks ++ after)) (content hook)) hook in
              modify_hooks caData hostPort webhooks after hook store (store hook l)
          end
      end
  end.

(** The loop over the configurations, the i-th of those converted being stored
    as the i-th of the list [l]. *)
Fixpoint modify_configurations (caData hostPort : string) (i : nat) (hooks l : list Object)
    : outcome (list Object * option error) :=
  match hooks with
  | [] => Returned (l, None)
  | hook :: hooks =>
      let '(webhooks, found, err) := NestedSlice (content hook) ["webhooks"] in
      match err, found with
      | None, true =>
          '(l, err) ← modify_hooks caData hostPort [] webhooks hook (λ hook l, <[i := hook]> l) l;
          match err with
          | Some err => Returned (l, Some err)
          | None => modify_configurations caData hostPort (S i) hooks l
          end
      | _, _ => Returned (l, Some (ErrorString ("unexpected object, " +:+ percent_v err)))
      end
  end.

Definition ModifyWebhookDefinitions o w : outcome (WebhookInstallOptions * W * option error) :=
  let caData := wi_LocalServingCAData o in
  match generateHostPort o w with
  | (o, w, Err err) => Returned (o, w, Some err)
  | (o, w, Ok hostPort) =>
      '(mutating, err) ← modify_configurations caData hostPort 0
          (runtimeListToUnstructured (wi_MutatingWebhooks o)) (wi_MutatingWebhooks o);
      match err with
      | Some err => Returned (set_hooks mutating (wi_ValidatingWebhooks o) o, w, Some err)
      | None =>
          '(validating, err) ← modify_configurations caData hostPort 0
              (runtimeListToUnstructured (wi_ValidatingWebhooks o)) (wi_ValidatingWebhooks o);
          Returned (set_hooks mutating validating o, w, err)
      end
  end.

(** ** Certificates *)

Definition failure (msg : string) (err : error) : option error := Some (ErrorString (msg +:+ ": " +:+ error_text err)).

Definition setupCA o w : WebhookInstallOptions * W * option error :=
  match NewTinyCA w with
  | (w, Err err) => (o, w, failure "unable to set up webhook CA" err)
  | (w, Ok hookCA) =>
      match NewServingCert hookCA ["localhost"; wi_LocalServingHost o; wi_LocalServingHostExternalName o] w with
      | (w, Err err) => (o, w, failure "unable to set up webhook serving certs" err)
      | (w, Ok hookCert) =>
          let '(w, dir, err) := TempDir "envtest-serving-certs-" w in
          let o := set_certs dir (wi_LocalServingCAData o) o in
          match err with
          | Some err => (o, w, failure "unable to create directory for webhook serving certs" err)
          | None =>
              match Cert_AsBytes hookCert with
              | Err err => (o, w, failure "unable to marshal webhook serving certs" err)
              | Ok (certData, keyData) =>
                  match WriteFile (filepath_Base_Join dir "tls.crt") certData w with
                  | (w, Some err) => (o, w, failure "unable to write webhook serving cert to disk" err)
                  | (w, None) =>
                      match WriteFile (filepath_Base_Join dir "tls.key") keyData w with
                      | (w, Some err) => (o, w, failure "unable to write webhook serving key to disk" err)
                      | (w, None) => (set_certs dir certData o, w, None)
                      end
                  end
              end
          end
      end
  end.

(** ** Reading *)

Definition admissionregv1 : string := "admissionregistration.k8s.io/v1".
Definition admissionregv1beta1 : string := "admissionregistration.k8s.io/v1beta1".

Definition err_version (kind name : string) : error :=
  ErrorString ("only v1beta1 and v1 are supported right now for " +:+ kind +:+ " (name: " +:+ name +:+ ")").

(** The mutating and the validating configurations of documents. *)
Fixpoint read_hook_docs (docs : list string) : result (list Object * list Object) :=
  match docs with
  | [] => Ok ([], [])
  | doc :: docs =>
      '(kind, apiVersion, name) ← yaml_Metadata doc;
      if decide (kind = "MutatingWebhookConfiguration" ∨ kind = "ValidatingWebhookConfiguration") then
        if decide (apiVersion ≠ admissionregv1beta1 ∧ apiVersion ≠ admissionregv1) then Err (err_version kind name)
        else
          hook ← yaml_Unmarshal doc;
          '(mutating, validating) ← read_hook_docs docs;
          if decide (kind = "MutatingWebhookConfiguration") then Ok (hook :: mutating, validating)
          else Ok (mutating, hook :: validating)
      else read_hook_docs docs
  end.

Fixpoint read_hook_files (path : string) (files : list FileInfo) w : result (list Object * list Object) :=
  match files with
  | [] => Ok ([], [])
  | file :: files =>
      if bool_decide (filepath_Ext (fi_Name file) ∈ crdExts) then
        docs ← readDocuments (filepath_Base_Join path (fi_Name file)) w;
        '(mutating, validating) ← read_hook_docs docs;
        '(mutating', validating') ← read_hook_files path files w;
        Ok (mutating ++ mutating', validating ++ validating')
      else read_hook_files path files w
  end.

Definition readWebhooks (path : string) w : result (list Object * list Object) :=
  info ← Stat path w;
  if fi_IsDir info then files ← ReadDir path w; read_hook_files path files w
  else read_hook_files (filepath_Dir path) [info] w.

(** The hooks of the paths before an error are kept. *)
Fixpoint parse_paths (paths : list string) o w : WebhookInstallOptions * option error :=
  match paths with
  | [] => (o, None)
  | path :: paths =>
      let missing := match Stat path w with Err err => if IsNotExist err then Some err else None | Ok _ => None end in
      match missing with
      | Some err => if wi_IgnoreErrorIfPathMissing o then parse_paths paths o w else (o, Some err)
      | None =>
          match readWebhooks path w with
          | Err err => (o, Some err)
          | Ok (mutHooks, valHooks) =>
              parse_paths paths (set_hooks (wi_MutatingWebhooks o ++ mutHooks) (wi_ValidatingWebhooks o ++ valHooks) o) w
          end
      end
  end.

Definition parseWebhook o w : WebhookInstallOptions * option error := parse_paths (wi_Paths o) o w.

(** ** Creating *)

Definition ensureCreated (cs : Client W) obj w : W * option error :=
  let '(existing, w, err) := Get cs (mkNN "" (GetName obj)) obj w in
  match err with
  | Some err =>
      if IsNotFound err then let '(_, w, err) := Create cs [] obj w in (w, err) else (w, Some err)
  | None =>
      let obj := SetResourceVersion (GetResourceVersion existing) obj in
      let '(_, w, err) := Update cs [] obj w in (w, err)
  end.

Fixpoint ensure_all (cs : Client W) (hooks : list Object) w : W * option error :=
  match hooks with
  | [] => (w, None)
  | hook :: hooks =>
      match ensureCreated cs hook w with
      | (w, Some err) => (w, Some err)
      | (w, None) => ensure_all cs hooks w
      end
  end.

Definition createWebhooks (mutHooks valHooks : list Object) w : W * option error :=
  match client_New w with
  | (w, Err err) => (w, Some err)
  | (w, Ok cs) =>
      match ensure_all cs (runtimeListToUnstructured mutHooks) w with
      | (w, Some err) => (w, Some err)
      | (w, None) => ensure_all cs (runtimeListToUnstructured valHooks) w
      end
  end.

(** ** Waiting *)

Abbreviation WaitingHooks := (gmap GVK (gset string)).

Definition add_hook (waitingFor : WaitingHooks) hook : WaitingHooks :=
  <[o_gvk hook := {[GetName hook]} ∪ default ∅ (waitingFor !! o_gvk hook)]> waitingFor.

(** The names of one kind, in order: those found are taken off the set; whether
    all were found, and the error that ends the poll. *)
Fixpoint poll_names (cs : Client W) (gvk : GVK) (names : list string) (left_ : gset string) w : gset string * option error :=
  match names with
  | [] => (left_, None)
  | name :: names =>
      let '(_, _, err) := Get cs (mkNN "" name) (bare_object Unstructured gvk "" "") w in
      match err with
      | None => poll_names cs gvk names (left_ ∖ {[name]}) w
      | Some err => (left_, Some err)
      end
  end.

(** The loop of [poll]: an object that is not found makes [allFound] false and
    is then returned as an error. *)
Fixpoint poll_kinds (cs : Client W) (entries : list (GVK * gset string)) (waitingFor : WaitingHooks) w
    : WaitingHooks * result bool :=
  match entries with
  | [] => (waitingFor, Ok true)
  | (gvk, names) :: entries =>
      if decide (names = ∅) then poll_kinds cs entries (delete gvk waitingFor) w
      else match poll_names cs gvk (sort_Strings (elements names)) names w with
           | (left_, Some err) => (<[gvk := left_]> waitingFor, Err err)
           | (left_, None) => poll_kinds cs entries (<[gvk := left_]> waitingFor) w
           end
  end.

Definition webhookPoller_poll `{!MapRange GVK (gset string)} (waitingFor : WaitingHooks) w : WaitingHooks * result bool :=
  match client_New w with
  | (w, Err err) => (waitingFor, Err err)
  | (w, Ok c) => poll_kinds c (map_range waitingFor) waitingFor w
  end.

Definition WaitForWebhooks `{!MapRange GVK (gset string)} (mutatingWebhooks validatingWebhooks : list Object) o w
    : W * option error :=
  let waitingFor := foldl add_hook ∅ (runtimeListToUnstructured (validatingWebhooks ++ mutatingWebhooks)) in
  let '(_, w, err) := PollImmediate (wi_PollInterval o) (wi_MaxTime o) webhookPoller_poll waitingFor w in
  (w, err).

(** ** Installing *)

Definition PrepWithoutInstalling o w : outcome (WebhookInstallOptions * W * option error) :=
  match setupCA o w with
  | (o, w, Some err) => Returned (o, w, Some err)
  | (o, w, None) =>
      match parseWebhook o w with
      | (o, Some err) => Returned (o, w, Some err)
      | (o, None) => ModifyWebhookDefinitions o w
      end
  end.

Definition Install `{!MapRange GVK (gset string)} o w : outcome (WebhookInstallOptions * W * option error) :=
  '(o, w, err) ← (if decide (wi_LocalServingCAData o = "") then PrepWithoutInstalling o w else Returned (o, w, None));
  match err with
  | Some err => Returned (o, w, Some err)
  | None =>
      match createWebhooks (wi_MutatingWebhooks o) (wi_ValidatingWebhooks o) w with
      | (w, Some err) => Returned (o, w, Some err)
      | (w, None) =>
          let '(w, err) := WaitForWebhooks (wi_MutatingWebhooks o) (wi_ValidatingWebhooks o) o w in
          Returned (o, w, err)
      end
  end.

Definition Cleanup o w : W * option error :=
  if decide (wi_LocalServingCertDir o ≠ "") then RemoveAll (wi_LocalServingCertDir o) w else (w, None).
End webhook.

(** ** Facts *)

Section facts.
Context {W Content Val CA Cert : Type}.
Context `{!CRDContent (Content := Content) (Val := Val)} `{!CRDFiles (W := W)} `{!CRDCluster (W := W)}
  `{!CRDClusterLaws (W := W)} `{!WebhookDeps (W := W) (Content := Content) (Val := Val) (CA := CA) (Cert := Cert)}.
Implicit Types (w : W) (obj hook : Object) (cs : Client W) (o : WebhookInstallOptions).

(** *** Creating *)

Section store.
Context (cs : Client W) `{!ClusterStore cs}.

Lemma ensureCreated_stores obj w :
  GetName obj ≠ "" → GetResourceVersion obj = "" →
  ∃ w', ensureCreated cs obj w = (w', None) ∧ stores cs w obj w'.
Proof.
  intros Hn Hrv. unfold ensureCreated. destruct (cl_view w (okey obj)) as [old|] eqn:Hold.
  - rewrite (cl_Get_Some _ _ _ _ Hold).
    destruct (cl_Update w (SetResourceVersion (GetResourceVersion old) obj) old)
      as (o & obj' & w' & -> & Ha & Hview).
    + by rewrite GetName_rv.
    + by rewrite okey_rv.
    + by rewrite GetResourceVersion_rv.
    + exists w'. split; [done|]. exists o. split; [by eexists|]. intros k. by rewrite Hview, okey_rv.
  - destruct (cl_Get_None _ (GetName obj) obj Hold) as (e & -> & ->).
    destruct (created_stores cs obj w Hn Hrv Hold) as (obj' & w' & -> & Hs). by exists w'.
Qed.

Lemma ensure_all_stores hooks w :
  Forall (λ h, GetName h ≠ "" ∧ GetResourceVersion h = "") hooks →
  ∃ w', ensure_all cs hooks w = (w', None) ∧ all_stored cs w hooks w'.
Proof.
  intros Hh. revert w. induction Hh as [|h hooks [Hn Hrv] _ IH]; intros w; [by exists w|].
  destruct (ensureCreated_stores h w Hn Hrv) as (w1 & H1 & Hs). destruct (IH w1) as (w' & H2 & Hall).
  exists w'. cbn [ensure_all]. rewrite H1. split; [done|]. by eapply all_stored_cons.
Qed.

(** Over a store of cluster-scoped objects, creating webhook configurations
    succeeds and leaves the given mutating and validating configurations - for
    each kind and name the last one - in the cluster, in place of what was
    there under their names, and nothing else changed. *)
Theorem createWebhooks_installs mutHooks valHooks w w0 :
  client_New w = (w0, Ok cs) →
  Forall (λ h, GetName h ≠ "" ∧ GetResourceVersion h = "")
    (runtimeListToUnstructured mutHooks ++ runtimeListToUnstructured valHooks) →
  ∃ w', createWebhooks mutHooks valHooks w = (w', None)
    ∧ all_stored cs w0 (runtimeListToUnstructured mutHooks ++ runtimeListToUnstructured valHooks) w'.
Proof.
  intros Hnew [Hm Hv]%Forall_app. unfold createWebhooks. rewrite Hnew.
  destruct (ensure_all_stores _ w0 Hm) as (w1 & -> & H1). destruct (ensure_all_stores _ w1 Hv) as (w' & -> & H2).
  exists w'. split; [done|]. by eapply all_stored_app.
Qed.
End store.

(** *** Waiting *)

Section waiting.
Context `{!MapRange GVK (gset string)}.

(** Reading the configuration of a kind and name, as the poller does. *)
Definition read_hook cs (gvk : GVK) (name : string) w : option error :=
  (Get cs (mkNN "" name) (bare_object Unstructured gvk "" "") w).2.

Lemma poll_names_spec cs gvk names left_ w :
  match (poll_names cs gvk names left_ w).2 with
  | None => Forall (λ n, read_hook cs gvk n w = None) names
  | Some e => ∃ n, n ∈ names ∧ read_hook cs gvk n w = Some e
  end.
Proof.
  revert left_. induction names as [|n names IH]; intros left_; cbn [poll_names]; [by constructor|].
  unfold read_hook in *. destruct (Get cs (mkNN "" n) _ w) as [[? ?] [e|]] eqn:Hg; cbn.
  - exists n. split; [by left|]. by rewrite Hg.
  - specialize (IH (left_ ∖ {[n]})). destruct (poll_names _ _ _ _ _).2.
    + destruct IH as (m & Hm & He). exists m. split; [by right|done].
    + constructor; [by rewrite Hg|done].
Qed.

Lemma poll_kinds_spec cs entries wf w :
  match (poll_kinds cs entries wf w).2 with
  | Ok done_ => done_ = true ∧ ∀ gvk names n, (gvk, names) ∈ entries → n ∈ names → read_hook cs gvk n w = None
  | Err e => ∃ gvk names n, (gvk, names) ∈ entries ∧ n ∈ names ∧ read_hook cs gvk n w = Some e
  end.
Proof.
  revert wf. induction entries as [|[gvk names] entries IH]; intros wf; cbn [poll_kinds].
  { split; [done|]. by intros ? ? ? ?%elem_of_nil. }
  case_decide as Hempty.
  - specialize (IH (delete gvk wf)). destruct (poll_kinds _ _ _ _).2 as [d|e].
    + destruct IH as [-> Hall]. split; [done|]. intros gvk' names' n [[= -> ->]|Hin]%elem_of_cons Hn.
      * subst names. by apply elem_of_empty in Hn.
      * by eapply Hall.
    + destruct IH as (gvk' & names' & n & Hin & ?). exists gvk', names', n. split; [by right|done].
  - pose proof (poll_names_spec cs gvk (sort_Strings (elements names)) names w) as Hnames.
    destruct (poll_names _ _ _ _ _) as [left_ [e|]]; cbn in *.
    + destruct Hnames as (n & Hn & He). exists gvk, names, n. split; [by left|]. split; [|done].
      by rewrite sort_Strings_Permutation, elem_of_elements in Hn.
    + specialize (IH (<[gvk := left_]> wf)). destruct (poll_kinds _ _ _ _).2 as [d|e].
      * destruct IH as [-> Hall]. split; [done|]. intros gvk' names' n [[= -> ->]|Hin]%elem_of_cons Hn.
        -- rewrite Forall_forall in Hnames. apply Hnames. by rewrite sort_Strings_Permutation, elem_of_elements.
        -- by eapply Hall.
      * destruct IH as (gvk' & names' & n & Hin & ?). exists gvk', names', n. split; [by right|done].
Qed.

Lemma add_hooks_elem hooks wf gvk n :
  n ∈ (default ∅ (foldl add_hook wf hooks !! gvk) : gset string) ↔
  n ∈ (default ∅ (wf !! gvk) : gset string) ∨ ∃ h, h ∈ hooks ∧ o_gvk h = gvk ∧ GetName h = n.
Proof.
  revert wf. induction hooks as [|h hooks IH]; intros wf; cbn [foldl].
  { split; [by left|]. by intros [?|(? & ?%elem_of_nil & _)]. }
  rewrite IH. unfold add_hook at 1. destruct (decide (gvk = o_gvk h)) as [->|Hne].
  - rewrite lookup_insert_eq. cbn. rewrite elem_of_union, elem_of_singleton. split.
    + intros [[->|?]|(h' & ? & ?)]; [right; exists h; split; [by left|done]|by left|right; exists h'; split; [by right|done]].
    + intros [?|(h' & [->|Hin]%elem_of_cons & Hg & Hn)]; [by left; right|left; by left|right; by exists h'].
  - rewrite lookup_insert_ne by done. split.
    + intros [?|(h' & ? & ?)]; [by left|right; exists h'; split; [by right|done]].
    + intros [?|(h' & [->|Hin]%elem_of_cons & Hg & Hn)]; [by left|by destruct Hne|right; by exists h'].
Qed.

(** What is meant to poll until the webhook configurations are there polls
    only once: it ends at once, without an error if every configuration can be
    read, and otherwise with the error of reading one that cannot - also if that
    is merely not there yet, which it should wait for. *)
Theorem WaitForWebhooks_polls_once mutating validating o w w0 w' cs err :
  client_New w = (w0, Ok cs) → WaitForWebhooks mutating validating o w = (w', err) →
  let hooks := runtimeListToUnstructured (validating ++ mutating) in
  w' = w ∧
  match err with
  | None => ∀ h, h ∈ hooks → read_hook cs (o_gvk h) (GetName h) w0 = None
  | Some e => ∃ h, h ∈ hooks ∧ read_hook cs (o_gvk h) (GetName h) w0 = Some e
  end.
Proof.
  intros Hnew. unfold WaitForWebhooks. set (hooks := runtimeListToUnstructured (validating ++ mutating)).
  set (wf := foldl add_hook ∅ hooks). destruct (PollImmediate _ _ _ _ _) as [[wf' w1] r] eqn:Hp. intros [= <- <-].
  apply PollImmediate_polls in Hp as [ws Hp]. cbn zeta.
  assert (Hmem : ∀ gvk names n, (gvk, names) ∈ map_range wf → n ∈ names ↔ ∃ h, h ∈ hooks ∧ o_gvk h = gvk ∧ GetName h = n).
  { intros gvk names n Hin%elem_of_map_range. pose proof (add_hooks_elem hooks ∅ gvk n) as Hadd.
    fold wf in Hadd. rewrite Hin, lookup_empty in Hadd. cbn in Hadd. rewrite Hadd. split; [|by right].
    intros [?%elem_of_empty|?]; done. }
  pose proof (poll_kinds_spec cs (map_range wf) wf w0) as Hspec.
  assert (Hpoll : webhookPoller_poll wf w = poll_kinds cs (map_range wf) wf w0) by (unfold webhookPoller_poll; by rewrite Hnew).
  inversion Hp as [? ? ? Heq|? ? ? ? Heq|? ? ? ? Heq|? ? ? ? ? ? ? ? Heq]; subst;
    rewrite Hpoll in Heq; rewrite Heq in Hspec; cbn in Hspec.
  - split; [done|]. intros h Hh. destruct Hspec as [_ Hall].
    assert (Hin : GetName h ∈ (default ∅ (wf !! o_gvk h) : gset string)).
    { apply add_hooks_elem. right. by exists h. }
    destruct (wf !! o_gvk h) as [names|] eqn:Hl; [|by apply elem_of_empty in Hin].
    eapply Hall; [by apply elem_of_map_range|done].
  - split; [done|]. destruct Hspec as (gvk & names & n & Hin & Hn & He).
    apply (Hmem _ _ _ Hin) in Hn as (h & Hh & <- & <-). by exists h.
  - by destruct Hspec.
  - by destruct Hspec.
Qed.
End waiting.

(** *** Pointing hooks at the local server *)

(** Setting a key of a map, or the content of an object, twice is setting it
    once. *)
Class MapSetLaws := {
  map_set_twice k v v' c : map_set k v (map_set k v' c) = map_set k v c;
  set_content_twice c c' obj : set_content c (set_content c' obj) = set_content c obj;
  content_of_set c obj : content (set_content c obj) = c;
}.

Lemma modify_hooks_spec `{!MapSetLaws} caData hostPort before after ms hook hook0 store l :
  Forall2 (λ v m, ∃ m0, as_map v = Some m0 ∧ modifyWebhook m0 caData hostPort = Ok m) after ms →
  (∀ h h' l, store h (store h' l) = store h l) →
  (hook = hook0 ∨ ∃ v, hook = set_content (map_set "webhooks" v (content hook0)) hook0) →
  modify_hooks caData hostPort before after hook store l =
  Returned (match after with
            | [] => l
            | _ => store (set_content (map_set "webhooks" (val_slice (before ++ (val_map <$> ms))) (content hook0)) hook0) l
            end, None).
Proof.
  intros Hall Hstore Hhook. revert before hook l Hhook.
  induction Hall as [|v m after ms (m0 & Hv & Hm) Hall IH]; intros before hook l Hhook; [done|].
  cbn [modify_hooks]. rewrite Hv, Hm.
  assert (Hset : ∀ x, set_content (map_set "webhooks" x (content hook)) hook =
    set_content (map_set "webhooks" x (content hook0)) hook0).
  { intros x. destruct Hhook as [->|[v' ->]]; [done|]. by rewrite content_of_set, map_set_twice, set_content_twice. }
  rewrite (IH (before ++ [val_map m])) by (right; eexists; apply Hset). rewrite Hset. f_equal. f_equal.
  destruct Hall as [|v2 m2 after ms ? ?]; [by rewrite app_nil_r|]. rewrite Hstore. cbn. by rewrite <- app_assoc.
Qed.

(** Every configuration that was converted has all its hooks modified, when
    nothing is left out by the conversion and no hook is refused. *)
Lemma modify_configurations_spec `{!MapSetLaws} caData hostPort hooks : ∀ results i l,
  Forall2 (λ hook result, ∃ vs ms, NestedSlice (content hook) ["webhooks"] = (vs, true, None)
    ∧ Forall2 (λ v m, ∃ m0, as_map v = Some m0 ∧ modifyWebhook m0 caData hostPort = Ok m) vs ms ∧ vs ≠ []
    ∧ result = set_content (map_set "webhooks" (val_slice (val_map <$> ms)) (content hook)) hook) hooks results →
  length l = (i + length hooks)%nat →
  modify_configurations caData hostPort i hooks l = Returned (take i l ++ results, None).
Proof.
  induction hooks as [|hook hooks IH]; intros results i l Hall Hlen; inversion Hall as [|? result ? results' Hh Hall']; subst.
  - cbn. rewrite app_nil_r, take_ge; [done|]. rewrite Hlen. cbn. lia.
  - destruct Hh as (vs & ms & Hs & Hvs & Hne & ->). cbn [modify_configurations]. rewrite Hs.
    rewrite (modify_hooks_spec caData hostPort [] vs ms hook hook); [|done|intros; by rewrite list_insert_insert_eq|by left].
    destruct vs as [|v vs]; [done|]. cbn [mbind outcome_bind]. cbn in Hlen.
    rewrite (IH results' (S i) _ Hall'); [|rewrite length_insert; lia]. f_equal. f_equal.
    rewrite (take_S_r _ _ (set_content (map_set "webhooks" (val_slice (val_map <$> ms)) (content hook)) hook)).
    + rewrite take_insert_ge by lia. by rewrite <- app_assoc.
    + apply list_lookup_insert_eq. lia.
Qed.
End facts.
