(* ===== verification/EnvtestInstallSamples.v ===== *)
(** * A cluster, files and content to install CRDs and webhooks with

    Instances of what EnvtestCRD and EnvtestWebhook call, which keep the laws
    their facts rely on, and these facts at concrete inputs. *)

From S2P Require Export EnvtestWebhook EnvtestCRDProtocol.

(** ** A cluster in memory: the objects and the next version *)

Definition Cluster : Type := gmap (GroupKind * string) Object * Z.

Definition not_found : error := StatusError "NotFound" "not found".
Definition conflict : error := StatusError "Conflict" "the object has been modified".
Definition unsupported : error := ErrorString "unsupported".

Definition put (obj : Object) (w : Cluster) : Object * Cluster * option error :=
  let obj := SetResourceVersion (Itoa (w.2 + 1)) obj in
  (obj, (<[okey obj := obj]> w.1, (w.2 + 1)%Z), None).

(** The objects are stored under their own keys. *)
Definition cluster_view (w : Cluster) (k : GroupKind * string) : option Object :=
  match w.1 !! k with Some o => if decide (okey o = k) then Some o else None | None => None end.

Definition cluster_client : Client Cluster := {|
  Get key obj w :=
    match cluster_view w (gvk_GroupKind (o_gvk obj), nn_Name key) with
    | Some o => (o, w, None)
    | None => (obj, w, Some not_found)
    end;
  List _ l w := (l, w, Some unsupported);
  Create _ obj w :=
    match cluster_view w (okey obj) with
    | Some _ => (obj, w, Some (StatusError "AlreadyExists" "already exists"))
    | None => put obj w
    end;
  Delete _ obj w :=
    match cluster_view w (okey obj) with
    | Some _ => (obj, (delete (okey obj) w.1, w.2), None)
    | None => (obj, w, Some not_found)
    end;
  Update _ obj w :=
    match cluster_view w (okey obj) with
    | Some old => if decide (GetResourceVersion obj = GetResourceVersion old) then put obj w else (obj, w, Some conflict)
    | None => (obj, w, Some not_found)
    end;
  Patch_ _ _ obj w := (obj, w, Some unsupported);
  DeleteAllOf _ obj w := (obj, w, Some unsupported);
  Status := {| Status_Update _ obj w := (obj, w, Some unsupported); Status_Patch _ _ obj w := (obj, w, Some unsupported) |};
  Client_Scheme := {| sch_ObjectKinds _ _ := Err unsupported; sch_Recognizes _ := false |};
  Client_RESTMapper := {| rm_RESTMapping _ _ := Err unsupported |};
|}.

(** [retry.RetryOnConflict] with a backoff of four steps. *)
Fixpoint retry_n {S} (is_conflict : error → bool) (n : nat) (f : S → S * option error) (s : S) : S * option error :=
  match f s, n with
  | (s, Some e), Datatypes.S (Datatypes.S _ as n) => if is_conflict e then retry_n is_conflict n f s else (s, Some e)
  | r, _ => r
  end.

(** Discovery lists the resource x of x/x once there is a third version. *)
#[export] Instance sample_cluster : CRDCluster (W := Cluster) := {|
  client_New w := (w, Ok cluster_client);
  IsNotFound e := bool_decide (e = not_found);
  IsConflict e := bool_decide (e = conflict);
  clientset_New w := Ok ();
  ServerResourcesForGroupVersion gv w :=
    if decide (gv = "x/x" ∧ (3 ≤ w.2)%Z) then Ok ["x"] else Err not_found;
  retry_Steps := 4;
  RetryOnConflict S f s := retry_n (λ e, bool_decide (e = conflict)) 4 f s;
  PollImmediate S _ _ cond s w :=
    match cond s w with
    | (s, Ok true) => (s, w, None)
    | (s, Ok false) => (s, w, Some (ErrorString "timed out"))
    | (s, Err e) => (s, w, Some e)
    end;
  ErrWaitTimeout := ErrorString "timed out";
|}.

Lemma retry_n_retries `{!CRDCluster (W := W)} {S} n (f : S → S * option error) s s' err :
  retry_n IsConflict (Datatypes.S n) f s = (s', err) → retries f (Datatypes.S n) s s' err.
Proof.
  revert s. induction n as [|n IH]; intros s; cbn [retry_n].
  - destruct (f s) as [s1 err1] eqn:Hf. destruct err1; intros [= <- <-]; apply retries_last; auto.
  - destruct (f s) as [s1 [e|]] eqn:Hf; [|intros [= <- <-]; apply retries_last; auto].
    destruct (IsConflict e) eqn:He; [|intros [= <- <-]; apply retries_last; auto].
    intros Hr%IH. by eapply retries_again.
Qed.

#[export] Instance sample_cluster_laws : CRDClusterLaws (W := Cluster).
Proof.
  split.
  - intros S f s s' err Hr. apply (retry_n_retries 3). exact Hr.
  - cbn. lia.
  - intros S interval max cond s w s' w' r. cbn. destruct (cond s w) as [s1 [[|]|e]] eqn:Hc; intros [= <- <- <-];
      exists [w]; by constructor.
Qed.

Lemma cluster_view_insert obj (w : Cluster) z k :
  cluster_view (<[okey obj := obj]> w.1, z) k = if decide (k = okey obj) then Some obj else cluster_view w k.
Proof.
  unfold cluster_view. cbn. case_decide as Hk.
  - subst. rewrite lookup_insert_eq. by rewrite decide_True.
  - by rewrite lookup_insert_ne.
Qed.

Lemma put_spec obj (w : Cluster) :
  ∃ o obj' w', put obj w = (obj', w', None) ∧ (∃ rv, o = SetResourceVersion rv obj)
    ∧ ∀ k, cluster_view w' k = if decide (k = okey obj) then Some o else cluster_view w k.
Proof.
  do 3 eexists. split; [done|]. split; [by eexists|]. intros k. by rewrite cluster_view_insert, okey_rv.
Qed.

#[export] Instance sample_store : ClusterStore cluster_client.
Proof.
  refine {| cl_view := cluster_view; cl_admits obj o := ∃ rv, o = SetResourceVersion rv obj |}.
  - intros w k o. unfold cluster_view. destruct (w.1 !! k); [|done]. case_decide; by intros [= <-].
  - intros w n o obj Hv. cbn. by rewrite Hv.
  - intros w n obj Hv. exists not_found. cbn. by rewrite Hv.
  - intros w obj _ _ Hv. cbn. rewrite Hv. apply put_spec.
  - intros w obj old _ Hv Hrv. cbn. rewrite Hv, decide_True by done. apply put_spec.
  - intros w obj o Hv. cbn. rewrite Hv. do 2 eexists. split; [done|]. intros k. unfold cluster_view. cbn.
    case_decide as Hk; [subst; by rewrite lookup_delete_eq|by rewrite lookup_delete_ne].
  - intros w obj Hv. exists obj, not_found. cbn. by rewrite Hv.
Defined.

(** ** A cluster somebody else writes to

    Next to the cluster the number of updates another writer gets ahead of, and
    the record of what was exchanged. *)

Definition Contested : Type := Cluster * nat * list Exchange.

(** A call of the cluster's client, recorded. *)
Definition recording (ex : Object → Object * option error → Exchange) (call : ObjCall Cluster) : ObjCall Contested :=
  λ obj w, let '(o, c, err) := call obj w.1.1 in (o, (c, w.1.2, w.2 ++ [ex obj (o, err)]), err).

(** The other writer writes the object as it is stored once more. *)
Definition overtake (obj : Object) (c : Cluster) : Cluster :=
  match cluster_view c (okey obj) with Some old => (put old c).1.2 | None => c end.

Definition contested_client : Client Contested := {|
  Get key := recording (ExGet key) (Get cluster_client key);
  List _ l w := (l, w, Some unsupported);
  Create opts := recording ExCreate (Create cluster_client opts);
  Delete opts obj w := (obj, w, Some unsupported);
  Update opts obj w :=
    let '(c, rivals) := match w.1.2 with S n => (overtake obj w.1.1, n) | O => (w.1.1, O) end in
    recording ExUpdate (Update cluster_client opts) obj (c, rivals, w.2);
  Patch_ _ _ obj w := (obj, w, Some unsupported);
  DeleteAllOf _ obj w := (obj, w, Some unsupported);
  Status := {| Status_Update _ obj w := (obj, w, Some unsupported); Status_Patch _ _ obj w := (obj, w, Some unsupported) |};
  Client_Scheme := Client_Scheme cluster_client;
  Client_RESTMapper := Client_RESTMapper cluster_client;
|}.

#[export] Instance contested_cluster : CRDCluster (W := Contested) := {|
  client_New w := (w, Ok contested_client);
  IsNotFound e := bool_decide (e = not_found);
  IsConflict e := bool_decide (e = conflict);
  clientset_New w := Ok ();
  ServerResourcesForGroupVersion gv w := Err not_found;
  retry_Steps := 4;
  RetryOnConflict S f s := retry_n (λ e, bool_decide (e = conflict)) 4 f s;
  PollImmediate S _ _ cond s w :=
    match cond s w with
    | (s, Ok true) => (s, w, None)
    | (s, Ok false) => (s, w, Some (ErrorString "timed out"))
    | (s, Err e) => (s, w, Some e)
    end;
  ErrWaitTimeout := ErrorString "timed out";
|}.

#[export] Instance contested_cluster_laws : CRDClusterLaws (W := Contested).
Proof.
  split.
  - intros S f s s' err Hr. apply (retry_n_retries 3). exact Hr.
  - cbn. lia.
  - intros S interval max cond s w s' w' r. cbn. destruct (cond s w) as [s1 [[|]|e]] eqn:Hc; intros [= <- <- <-];
      exists [w]; by constructor.
Qed.

Lemma recording_spec ex call obj w o w' err :
  recording ex call obj w = (o, w', err) →
  (∃ c, call obj w.1.1 = (o, c, err)) ∧ w'.2 = w.2 ++ [ex obj (o, err)].
Proof. unfold recording. destruct (call obj w.1.1) as [[o1 c] err1]. intros [= <- <- <-]. split; [by eexists|done]. Qed.

Lemma cluster_Update_fails opts obj (c : Cluster) o c' err :
  Update cluster_client opts obj c = (o, c', err) → is_Some err → o = obj.
Proof.
  cbn. destruct (cluster_view c (okey obj)) as [old|]; [case_decide|]; intros [= <- <- <-]; [|done..].
  by intros [? [=]].
Qed.

#[export] Instance contested_recorded : RecordedClient contested_client.
Proof.
  refine {| recorded := λ w : Contested, w.2 |}.
  - by intros key obj w o w' err [_ ?]%recording_spec.
  - by intros obj w o w' err [_ ?]%recording_spec.
  - intros obj w o w' err. cbn [Update contested_client].
    destruct (match w.1.2 with S n => _ | O => _ end) as [c rivals].
    intros [(c' & Hc) Hr]%recording_spec. cbn in Hr. split; [exact Hr|]. by eapply cluster_Update_fails.
Defined.

(** ** Files and objects whose content says nothing *)

Module Plain.

(** Every nested string is x, and there are no slices. *)
#[local] Instance plain_content : CRDContent (Content := ()) (Val := ()) := {|
  crdScheme_Convert o := match o_type o with Typed _ => Err unsupported | _ => Ok o end;
  content _ := ();
  set_content _ o := o;
  as_map _ := Some ();
  NestedString _ _ := ("x", true, None);
  NestedBool _ _ := (false, false, None);
  NestedSlice _ _ := ([], false, None);
  SetNestedField _ _ c := Ok c;
  SetNestedStringSlice _ _ c := Ok c;
  SetNestedMap _ _ c := Ok c;
  base64 s := s;
|}.

Definition crd_gvk : GVK := mkGVK "apiextensions.k8s.io" "v1" "CustomResourceDefinition".
Definition crd_named (name body : string) : Object :=
  mkObject Unstructured crd_gvk (o_meta (bare_object Unstructured crd_gvk "" name)) body.

(** Two files that define crontabs; a document is the name and the body. *)
#[local] Instance plain_files : CRDFiles (W := Cluster) := {|
  Stat path w := if decide (path = "config") then Ok (mkFileInfo "config" true) else Err not_found;
  IsNotExist e := bool_decide (e = not_found);
  ReadDir path w := Ok [mkFileInfo "a.yaml" false; mkFileInfo "b.yaml" false; mkFileInfo "c.txt" false];
  ReadFile path w := Ok path;
  filepath_Dir path := path;
  filepath_Base_Join dir name := name;
  filepath_Ext name := if decide (name = "c.txt") then ".txt" else ".yaml";
  YAMLReader b := ([b], None);
  yaml_Unmarshal doc := Ok (crd_named "crontabs" doc);
|}.

#[local] Instance gvkn_range : MapRange (GVK * string) Object := some_range _ _.
#[local] Instance gv_range : MapRange GroupVersion (gset string) := some_range _ _.
#[local] Instance gvk_range : MapRange GVK (gset string) := some_range _ _.

Definition old_cluster : Cluster :=
  ({[ okey (crd_named "crontabs" "") := SetResourceVersion "1" (crd_named "crontabs" "old") ]}, 1%Z).

Lemma CreateCRDs_stores_witness :
  ∃ w', CreateCRDs [crd_named "crontabs" "new"; crd_named "jobs" "j"; bare_object (Typed "Pod") crd_gvk "" "p"] old_cluster
      = (w', None)
    ∧ ∃ o, made_of cluster_client (crd_named "crontabs" "new") o
        ∧ cl_view w' (okey (crd_named "crontabs" "")) = Some o.
Proof.
  destruct (CreateCRDs_stores cluster_client
    [crd_named "crontabs" "new"; crd_named "jobs" "j"; bare_object (Typed "Pod") crd_gvk "" "p"] old_cluster old_cluster)
    as (w' & Hrun & Hall).
  - reflexivity.
  - repeat constructor; discriminate.
  - exists w'. split; [exact Hrun|]. exact (Hall (okey (crd_named "crontabs" ""))).
Defined.

(** Another writer is faster twice: the third try to replace the first CRD is
    accepted, and the second CRD is created. *)
Definition contested_start : Contested := (old_cluster, 2, []).
Definition contested_run : Contested * option error :=
  CreateCRDs [crd_named "crontabs" "new"; crd_named "jobs" "j"] contested_start.

Lemma CreateCRDs_installs_witness :
  contested_run.2 = None
  ∧ length (recorded contested_run.1) = 9
  ∧ all_installed [crd_named "crontabs" "new"; crd_named "jobs" "j"] (recorded contested_run.1) None
  ∧ length (accepted (recorded contested_run.1)) = 2.
Proof.
  assert (Hnone : contested_run.2 = None) by (vm_compute; reflexivity).
  split; [exact Hnone|]. split; [vm_compute; reflexivity|].
  assert (Hnew : client_New contested_start = (contested_start, Ok contested_client)) by reflexivity.
  destruct (CreateCRDs_installs contested_client [crd_named "crontabs" "new"; crd_named "jobs" "j"]
    contested_start contested_start contested_run.1 contested_run.2 Hnew (surjective_pairing contested_run)) as (_ & exs & Hrec & Hall & _ & Hiff).
  cbn [recorded contested_recorded snd app] in Hrec |- *. rewrite Hnone in *. rewrite Hrec.
  split; [exact Hall|]. by apply Hiff.
Defined.

Lemma renderCRDs_last_definition_witness :
  ∃ all, all_crds old_cluster ["config"; "missing"] = Ok all
    ∧ last_defined all (gvkn_of (crd_named "crontabs" "b.yaml")) = Some (crd_named "crontabs" "b.yaml").
Proof.
  destruct (renderCRDs_last_definition false ["config"; "missing"] old_cluster [crd_named "crontabs" "b.yaml"])
    as [(all & Hall & _ & Hlast) _].
  - vm_compute. reflexivity.
  - exists all. split; [exact Hall|]. apply (Hlast (crd_named "crontabs" "b.yaml")). apply list_elem_of_here.
Defined.

Lemma WaitForCRDs_waits_witness :
  WaitForCRDs [crd_named "crontabs" ""] 0 0 (∅, 3%Z) = ((∅, 3%Z), None).
Proof.
  destruct (WaitForCRDs [crd_named "crontabs" ""] 0 0 (∅, 3%Z)) as [w' err] eqn:Hw.
  destruct (WaitForCRDs_waits _ _ _ _ _ _ Hw) as [_ Hnow].
  destruct (Hnow eq_refl eq_refl) as [-> ->]; [|done].
  intros gv r (crd & gvs & Hcrd & Ha & Hgv). cbn in Hcrd. apply list_elem_of_singleton in Hcrd as ->.
  cbn in Ha. injection Ha as <- <-. apply list_elem_of_singleton in Hgv as ->.
  exists ["x"]. split; [reflexivity|by left].
Defined.

(** *** Webhook configurations *)

#[local] Instance plain_webhooks : WebhookDeps (W := Cluster) (Content := ()) (Val := ()) (CA := ()) (Cert := ()) := {|
  ToUnstructured o := match o_type o with Typed _ => Err unsupported | _ => Ok o end;
  NestedMap c _ := (c, true, None);
  map_set _ _ c := c;
  val_string _ := (); val_map _ := (); val_slice _ := (); val_nil := ();
  NewTinyCA w := (w, Ok ());
  NewServingCert _ _ w := (w, Ok ());
  Cert_AsBytes _ := Ok ("cert", "key");
  TempDir prefix w := (w, prefix, None);
  WriteFile _ _ w := (w, None);
  RemoveAll _ w := (w, None);
  addr_Suggest _ w := (w, Ok (8443%Z, "127.0.0.1"));
  yaml_Metadata _ := Err unsupported;
|}.

Definition hook_gvk (kind : string) : GVK := mkGVK "admissionregistration.k8s.io" "v1" kind.
Definition hook_named (kind name body : string) : Object :=
  mkObject Unstructured (hook_gvk kind) (o_meta (bare_object Unstructured crd_gvk "" name)) body.
Definition mutating : Object := hook_named "MutatingWebhookConfiguration" "hooks" "m".
Definition validating : Object := hook_named "ValidatingWebhookConfiguration" "hooks" "v".

Definition no_options : WebhookInstallOptions := mkWIO [] [] [] false "" 0 "" "" "" 0 0.

Lemma createWebhooks_installs_witness :
  ∃ w', createWebhooks [mutating] [validating] old_cluster = (w', None)
    ∧ ∃ o, made_of cluster_client mutating o ∧ cl_view w' (okey mutating) = Some o.
Proof.
  destruct (createWebhooks_installs cluster_client [mutating] [validating] old_cluster old_cluster) as (w' & Hrun & Hall).
  - reflexivity.
  - repeat constructor; discriminate.
  - exists w'. split; [exact Hrun|]. exact (Hall (okey mutating)).
Defined.

(** The second configuration is not there yet: the wait is over at once. *)
Definition second_only : Cluster := ({[ okey validating := validating ]}, 1%Z).

Lemma WaitForWebhooks_polls_once_witness :
  ∃ e, WaitForWebhooks [mutating] [validating] no_options second_only = (second_only, Some e) ∧ e = not_found.
Proof.
  assert (Hnew : client_New second_only = (second_only, Ok cluster_client)) by reflexivity.
  destruct (WaitForWebhooks [mutating] [validating] no_options second_only) as [w' err] eqn:Hw.
  destruct (WaitForWebhooks_polls_once [mutating] [validating] no_options second_only second_only w' cluster_client err
    Hnew Hw) as [-> Herr].
  assert (Hm : mutating ∈ runtimeListToUnstructured ([validating] ++ [mutating])) by (cbn; by right; left).
  assert (Hno : read_hook cluster_client (o_gvk mutating) (GetName mutating) second_only = Some not_found)
    by (vm_compute; reflexivity).
  assert (Hyes : read_hook cluster_client (o_gvk validating) (GetName validating) second_only = None)
    by (vm_compute; reflexivity).
  destruct err as [e|]; [|specialize (Herr _ Hm); congruence].
  destruct Herr as (h & Hh & He). exists e. split; [done|].
  cbn in Hh. apply elem_of_cons in Hh as [->|Hh%list_elem_of_singleton]; subst; congruence.
Defined.
End Plain.
