(* ===== verification/EnvtestServer.v ===== *)
(** * The test environment (src/pkg/envtest/server.go)

    Starting and stopping an environment: its control plane or the
    configuration of an existing cluster, the certificates, CRDs and webhooks.
    The webhook options get their certificates, directories and ports from the
    packages that model them. *)

From S2P Require Export ControlPlaneFacts EnvtestWebhook.

Section server.
Context {W Pid L Key PublicKey Cert IP DER X Template Content Val T V Sch : Type}.
Context `{!EqDecision Pid} `{!Environ (W := W)} `{!ProcessOS (W := W) (Pid := Pid)} `{!AddrOS (W := W) (L := L)}
  `{!CertLib W Key PublicKey Cert IP DER} `{!PlaneOS (W := W) (X := X) (Template := Template)}.
Context `{!MapRange Z Z} `{!MapRange string Arg} `{!MapRange string Slice} `{!MapRange string ()}
  `{!MapRange string Object} `{!MapRange (GVK * string) Object} `{!MapRange GroupVersion (gset string)}
  `{!MapRange GVK (gset string)} `{!MapRange GVK T}.
Context `{!CRDContent (Content := Content) (Val := Val)} `{!CRDFiles (W := W)}.
Context `{!ConvertibleTypes T V} `{!ConversionScheme T V} `{!TypedCRDs}.
Implicit Types w : W.

(** What is left open of the content of webhook configurations. *)
Class HookContent := {
  hook_ToUnstructured : Object → result Object;
  hook_NestedMap : Content → list string → nested Content;
  hook_map_set : string → Val → Content → Content;
  hook_string : string → Val;
  hook_map : Content → Val;
  hook_slice : list Val → Val;
  hook_nil : Val;
  hook_Metadata : string → result (string * string * string);
}.
Context `{!HookContent} `{!ConfigLoading (W := W)}.

(** The webhook options are served by the certificate authority, the temporary
    directories and the ports of the other packages. *)
#[export] Instance webhook_deps
    : WebhookDeps (W := W) (Content := Content) (Val := Val) (CA := TinyCA Key Cert) (Cert := CertPair Key Cert) := {|
  ToUnstructured := hook_ToUnstructured;
  NestedMap := hook_NestedMap;
  map_set := hook_map_set;
  val_string := hook_string;
  val_map := hook_map;
  val_slice := hook_slice;
  val_nil := hook_nil;
  EnvtestWebhook.NewTinyCA := TinyCA.NewTinyCA;
  EnvtestWebhook.NewServingCert ca names w := let '(_, w, r) := TinyCA.NewServingCert ca names w in (w, r);
  Cert_AsBytes := AsBytes;
  EnvtestWebhook.TempDir prefix w :=
    match TestProcess.TempDir prefix w with (w, Ok dir) => (w, dir, None) | (w, Err err) => (w, "", Some err) end;
  EnvtestWebhook.WriteFile := ControlPlane.WriteFile;
  EnvtestWebhook.RemoveAll := TestProcess.RemoveAll;
  EnvtestWebhook.addr_Suggest host w :=
    match ControlPlane.addr_Suggest host w with
    | (w, (_, _, Some err)) => (w, Err err)
    | (w, (port, host, None)) => (w, Ok (port, host))
    end;
  yaml_Metadata := hook_Metadata;
|}.

(** The cluster a client configuration leads to, or the lack of one; the value of
    the kubeconfig flag; [time.ParseDuration]; the scheme of client-go. *)
Context (cluster_of : option RestConfig → CRDCluster (W := W)) (kubeconfig : string)
  (ParseDuration : string → result Z) (scheme_Scheme : Sch).

Abbreviation APIServer := (@ControlPlane.APIServer Pid Key Cert X).
Abbreviation Etcd := (@ControlPlane.Etcd Pid).
Abbreviation Plane := (@ControlPlane.ControlPlane Pid Key Cert X).
Context (Execute_etcd : Template → Etcd → result string) (Execute_api : Template → APIServer → result string).
Implicit Types (a : APIServer) (e : Etcd) (f : Plane).

Definition defaultKubebuilderControlPlaneStartTimeout : Z := 20 * 1000000000.
Definition defaultKubebuilderControlPlaneStopTimeout : Z := 20 * 1000000000.
Definition envUseExistingCluster : string := "USE_EXISTING_CLUSTER".
Definition envStartTimeout : string := "KUBEBUILDER_CONTROLPLANE_START_TIMEOUT".
Definition envStopTimeout : string := "KUBEBUILDER_CONTROLPLANE_STOP_TIMEOUT".
Definition envAttachOutput : string := "KUBEBUILDER_ATTACH_CONTROL_PLANE_OUTPUT".

Definition DefaultKubeAPIServerFlags : list string := APIServerDefaultArgs.

Record Environment := mkEnvironment {
  te_ControlPlane : Plane;
  te_Scheme : option Sch;
  te_Config : option RestConfig;
  te_CRDInstallOptions : CRDInstallOptions;
  te_WebhookInstallOptions : WebhookInstallOptions;
  te_ErrorIfCRDPathMissing : bool;
  te_CRDs : list Object;
  te_CRDDirectoryPaths : list string;
  te_BinaryAssetsDirectory : string;
  te_UseExistingCluster : option bool;
  te_ControlPlaneStartTimeout : Z;
  te_ControlPlaneStopTimeout : Z;
  te_KubeAPIServerFlags : list string;
  te_AttachControlPlaneOutput : bool;
}.
Implicit Types te : Environment.

Definition set_plane f te : Environment :=
  mkEnvironment f (te_Scheme te) (te_Config te) (te_CRDInstallOptions te) (te_WebhookInstallOptions te)
    (te_ErrorIfCRDPathMissing te) (te_CRDs te) (te_CRDDirectoryPaths te) (te_BinaryAssetsDirectory te)
    (te_UseExistingCluster te) (te_ControlPlaneStartTimeout te) (te_ControlPlaneStopTimeout te)
    (te_KubeAPIServerFlags te) (te_AttachControlPlaneOutput te).
Definition set_config (config : option RestConfig) te : Environment :=
  mkEnvironment (te_ControlPlane te) (te_Scheme te) config (te_CRDInstallOptions te) (te_WebhookInstallOptions te)
    (te_ErrorIfCRDPathMissing te) (te_CRDs te) (te_CRDDirectoryPaths te) (te_BinaryAssetsDirectory te)
    (te_UseExistingCluster te) (te_ControlPlaneStartTimeout te) (te_ControlPlaneStopTimeout te)
    (te_KubeAPIServerFlags te) (te_AttachControlPlaneOutput te).
Definition set_scheme (scheme : option Sch) te : Environment :=
  mkEnvironment (te_ControlPlane te) scheme (te_Config te) (te_CRDInstallOptions te) (te_WebhookInstallOptions te)
    (te_ErrorIfCRDPathMissing te) (te_CRDs te) (te_CRDDirectoryPaths te) (te_BinaryAssetsDirectory te)
    (te_UseExistingCluster te) (te_ControlPlaneStartTimeout te) (te_ControlPlaneStopTimeout te)
    (te_KubeAPIServerFlags te) (te_AttachControlPlaneOutput te).
Definition set_attach (on : bool) te : Environment :=
  mkEnvironment (te_ControlPlane te) (te_Scheme te) (te_Config te) (te_CRDInstallOptions te)
    (te_WebhookInstallOptions te) (te_ErrorIfCRDPathMissing te) (te_CRDs te) (te_CRDDirectoryPaths te)
    (te_BinaryAssetsDirectory te) (te_UseExistingCluster te) (te_ControlPlaneStartTimeout te)
    (te_ControlPlaneStopTimeout te) (te_KubeAPIServerFlags te) on.
Definition set_timeouts (start stop : Z) te : Environment :=
  mkEnvironment (te_ControlPlane te) (te_Scheme te) (te_Config te) (te_CRDInstallOptions te)
    (te_WebhookInstallOptions te) (te_ErrorIfCRDPathMissing te) (te_CRDs te) (te_CRDDirectoryPaths te)
    (te_BinaryAssetsDirectory te) (te_UseExistingCluster te) start stop (te_KubeAPIServerFlags te)
    (te_AttachControlPlaneOutput te).
Definition set_crds (options : CRDInstallOptions) (crds : list Object) te : Environment :=
  mkEnvironment (te_ControlPlane te) (te_Scheme te) (te_Config te) options (te_WebhookInstallOptions te)
    (te_ErrorIfCRDPathMissing te) crds (te_CRDDirectoryPaths te) (te_BinaryAssetsDirectory te)
    (te_UseExistingCluster te) (te_ControlPlaneStartTimeout te) (te_ControlPlaneStopTimeout te)
    (te_KubeAPIServerFlags te) (te_AttachControlPlaneOutput te).
Definition set_webhooks (options : WebhookInstallOptions) te : Environment :=
  mkEnvironment (te_ControlPlane te) (te_Scheme te) (te_Config te) (te_CRDInstallOptions te) options
    (te_ErrorIfCRDPathMissing te) (te_CRDs te) (te_CRDDirectoryPaths te) (te_BinaryAssetsDirectory te)
    (te_UseExistingCluster te) (te_ControlPlaneStartTimeout te) (te_ControlPlaneStopTimeout te)
    (te_KubeAPIServerFlags te) (te_AttachControlPlaneOutput te).

(** ** Choices *)

Definition useExistingCluster te w : bool :=
  match te_UseExistingCluster te with
  | None => bool_decide (ToLower (Getenv envUseExistingCluster w) = "true")
  | Some b => b
  end.

(** A time-out that is not set: from the environment or the default.  On an
    error it is what [ParseDuration] returns with it. *)
Definition default_timeout_of (current : Z) (var : string) (dflt : Z) w : Z * option error :=
  if decide (current = 0%Z) then
    let envVal := Getenv var w in
    if decide (envVal ≠ "") then
      match ParseDuration envVal with Ok d => (d, None) | Err err => (0%Z, Some err) end
    else (dflt, None)
  else (current, None).

Definition defaultTimeouts te w : Environment * option error :=
  let '(start, err) := default_timeout_of (te_ControlPlaneStartTimeout te) envStartTimeout
                         defaultKubebuilderControlPlaneStartTimeout w in
  let te := set_timeouts start (te_ControlPlaneStopTimeout te) te in
  match err with
  | Some err => (te, Some err)
  | None =>
      let '(stop, err) := default_timeout_of (te_ControlPlaneStopTimeout te) envStopTimeout
                            defaultKubebuilderControlPlaneStopTimeout w in
      (set_timeouts start stop te, err)
  end.

(** ** The control plane *)

(** An output that is not set is attached if that is wanted. *)
Definition attach (on : bool) (file : string) (out : option string) : option string :=
  match out with None => if on then Some file else None | Some _ => out end.

Definition api_before (flags : list string) (on : bool) (path : string) a : APIServer :=
  mkAPIServer (as_URL a) (as_SecurePort a) (as_SecureServing a) (as_InsecureServing a) path
    (match as_Args a with [] => flags | args => args end) (as_CertDir a) (as_EtcdURL a) (as_StartTimeout a)
    (as_StopTimeout a) (attach on "stdout" (as_Out a)) (attach on "stderr" (as_Err a)) (as_processState a) (as_args a).
Definition api_timeouts (start stop : Z) a : APIServer :=
  mkAPIServer (as_URL a) (as_SecurePort a) (as_SecureServing a) (as_InsecureServing a) (as_Path a) (as_Args a)
    (as_CertDir a) (as_EtcdURL a) start stop (as_Out a) (as_Err a) (as_processState a) (as_args a).
Definition etcd_before (on : bool) (path : string) e : Etcd :=
  mkEtcd (et_URL e) path (et_Args e) (et_DataDir e) (et_StartTimeout e) (et_StopTimeout e)
    (attach on "stdout" (et_Out e)) (attach on "stderr" (et_Err e)) (et_processState e) (et_args e).
Definition etcd_timeouts (start stop : Z) e : Etcd :=
  mkEtcd (et_URL e) (et_Path e) (et_Args e) (et_DataDir e) start stop (et_Out e) (et_Err e) (et_processState e)
    (et_args e).

Definition maxRetries : nat := 5.

(** The loop: the plane, the number of tries that failed before it was left, and
    the last error. *)
Fixpoint start_tries (left_ numTries : nat) (err : option error) f w : outcome (Plane * W * nat * option error) :=
  match left_ with
  | 0 => Returned (f, w, numTries, err)
  | S left_ =>
      '(f, w, err) ← ControlPlane_Start Execute_etcd Execute_api f w;
      match err with
      | None => Returned (f, w, numTries, None)
      | Some _ => start_tries left_ (S numTries) err f w
      end
  end.

Definition startControlPlane f w : outcome (Plane * W * option error) :=
  '(f, w, numTries, err) ← start_tries maxRetries 0 None f w;
  Returned (f, w,
    if decide (numTries = maxRetries) then
      Some (ErrorWrap ("failed to start the controlplane. retried " +:+ Itoa (Z.of_nat numTries) +:+ " times")
              (default (ErrorString "") err))
    else None).

(** The environment before its control plane is started. *)
Definition prepare_plane te w : Environment * option error :=
  let f := te_ControlPlane te in
  let on := bool_decide (Getenv envAttachOutput w = "true") || te_AttachControlPlaneOutput te in
  let find (name : string) := BinPathFinder (λ v, LookupEnv v w) name (te_BinaryAssetsDirectory te) in
  let a := api_before (te_KubeAPIServerFlags te) on (find "kube-apiserver") (GetAPIServer f).2 in
  let e := etcd_before on (find "etcd") (default empty_Etcd (cp_Etcd f)) in
  let plane a e := mkPlane (Some a) (Some e) (find "kubectl") (cp_defaultUserCfg f) (cp_defaultUserKubectl f) in
  match defaultTimeouts (set_attach on (set_plane (plane a e) te)) w with
  | (te, Some err) => (te, Some err)
  | (te, None) =>
      let start := te_ControlPlaneStartTimeout te in let stop := te_ControlPlaneStopTimeout te in
      (set_plane (plane (api_timeouts start stop a) (etcd_timeouts start stop e)) te, None)
  end.

Definition admin : User := mkUser "admin" ["system:masters"].
Definition base_config : RestConfig := set_rate (rate 1000) 2000 empty_RestConfig.

(** What a call returns: a configuration, perhaps none, and an error. *)
Abbreviation returns := (option RestConfig * option error)%type.

(** The first half of [Start], with what it returns if it returns there. *)
Definition connect te w : outcome (Environment * W * option returns) :=
  if useExistingCluster te w then
    match te_Config te with
    | Some _ => Returned (te, w, None)
    | None =>
        match GetConfig kubeconfig w with
        | (w, Ok cfg) => Returned (set_config (Some cfg) te, w, None)
        | (w, Err err) =>
            Returned (te, w, Some (None, Some (ErrorWrap "unable to get configuration for existing cluster" err)))
        end
    end
  else
    match prepare_plane te w with
    | (te, Some err) => Returned (te, w, Some (None, Some (ErrorWrap "failed to default controlplane timeouts" err)))
    | (te, None) =>
        '(f, w, err) ← startControlPlane (te_ControlPlane te) w;
        match err with
        | Some err =>
            Returned (set_plane f te, w, Some (None, Some (ErrorWrap "unable to start control plane itself" err)))
        | None =>
            match AddUser admin (Some base_config) f w with
            | (f, w, Err err) =>
                Returned (set_plane f te, w, Some (te_Config te, Some (ErrorWrap "unable to provision admin user" err)))
            | (f, w, Ok adminUser) =>
                '(_, cfg) ← User_Config adminUser f;
                Returned (set_config (Some cfg) (set_plane f te), w, None)
            end
        end
    end.

(** The options for CRDs, put together from both places. *)
Definition merged_options te : CRDInstallOptions :=
  let o := te_CRDInstallOptions te in
  mkCRDInstallOptions (mergePaths (ci_Paths o) (te_CRDDirectoryPaths te)) (mergeCRDs (ci_CRDs o) (te_CRDs te))
    (te_ErrorIfCRDPathMissing te) (ci_MaxTime o) (ci_PollInterval o) (ci_CleanUpAfterUse o).

(** The address of the webhook options is set by the time it is asked for, so
    that asking changes nothing. *)
Definition install_CRDs te w : outcome (W * option (list Object) * option error) :=
  let cluster := cluster_of (te_Config te) in
  let o := te_WebhookInstallOptions te in
  InstallCRDs (wi_LocalServingCAData o) (generateHostPort o w).2 (te_CRDInstallOptions te) w.

Definition install_webhooks te w : outcome (WebhookInstallOptions * W * option error) :=
  let cluster := cluster_of (te_Config te) in Install (te_WebhookInstallOptions te) w.

(** The second half. *)
Definition install te w : outcome (Environment * W * returns) :=
  let te := set_scheme (Some (default scheme_Scheme (te_Scheme te))) te in
  '(o, w, err) ← PrepWithoutInstalling (te_WebhookInstallOptions te) w;
  let te := set_webhooks o te in
  match err with
  | Some err => Returned (te, w, (None, Some err))
  | None =>
      let te := set_crds (merged_options te) (te_CRDs te) te in
      '(w, crds, err) ← install_CRDs te w;
      match err with
      | Some err => Returned (te, w, (te_Config te, Some (ErrorWrap "unable to install CRDs onto control plane" err)))
      | None =>
          let te := set_crds (te_CRDInstallOptions te) (default [] crds) te in
          '(o, w, err) ← install_webhooks te w;
          let te := set_webhooks o te in
          match err with
          | Some err => Returned (te, w, (None, Some (ErrorWrap "unable to install webhooks onto control plane" err)))
          | None => Returned (te, w, (te_Config te, None))
          end
      end
  end.

Definition Environment_Start te w : outcome (Environment * W * returns) :=
  '(te, w, early) ← connect te w;
  match early with Some r => Returned (te, w, r) | None => install te w end.

Definition uninstall te w : outcome (W * option error) :=
  if ci_CleanUpAfterUse (te_CRDInstallOptions te) then
    let cluster := cluster_of (te_Config te) in UninstallCRDs (te_CRDInstallOptions te) w
  else Returned (w, None).

Definition Environment_Stop te w : outcome (Environment * W * option error) :=
  '(w, err) ← uninstall te w;
  match err with
  | Some err => Returned (te, w, Some err)
  | None =>
      match Cleanup (te_WebhookInstallOptions te) w with
      | (w, Some err) => Returned (te, w, Some err)
      | (w, None) =>
          if useExistingCluster te w then Returned (te, w, None)
          else '(f, w, err) ← ControlPlane_Stop (te_ControlPlane te) w; Returned (set_plane f te, w, err)
      end
  end.

Definition Environment_AddUser te (user : User) (baseConfig : option RestConfig) w
    : Environment * W * result AuthenticatedUser :=
  let '(f, w, r) := AddUser user baseConfig (te_ControlPlane te) w in (set_plane f te, w, r).
End server.
