(* ===== verification/EnvtestServerFacts.v ===== *)
(** * Starting and stopping a test environment

    How often a control plane is tried, which processes a stop reaches, when it
    does not reach them, and what the scheme of an environment is for. *)

From S2P Require Export EnvtestServer.

Section facts.
Context {W Pid L Key PublicKey Cert IP DER X Template Content Val T V Sch : Type}.
Context `{!EqDecision Pid} `{!Environ (W := W)} `{!ProcessOS (W := W) (Pid := Pid)} `{!AddrOS (W := W) (L := L)}
  `{!CertLib W Key PublicKey Cert IP DER} `{!PlaneOS (W := W) (X := X) (Template := Template)}.
Context `{!MapRange Z Z} `{!MapRange string Arg} `{!MapRange string Slice} `{!MapRange string ()}
  `{!MapRange string Object} `{!MapRange (GVK * string) Object} `{!MapRange GroupVersion (gset string)}
  `{!MapRange GVK (gset string)} `{!MapRange GVK T}.
Context `{!CRDContent (Content := Content) (Val := Val)} `{!CRDFiles (W := W)}.
Context `{!ConvertibleTypes T V} `{!ConversionScheme T V} `{!TypedCRDs}.
Context `{!HookContent (Content := Content) (Val := Val)} `{!ConfigLoading (W := W)}.
Context (cluster_of : option RestConfig → CRDCluster (W := W)) (kubeconfig : string)
  (ParseDuration : string → result Z) (scheme_Scheme : Sch).
Abbreviation APIServer := (@ControlPlane.APIServer Pid Key Cert X).
Abbreviation Etcd := (@ControlPlane.Etcd Pid).
Abbreviation Plane := (@ControlPlane.ControlPlane Pid Key Cert X).
Abbreviation Environment := (@Environment Pid Key Cert X Sch).
Context (Execute_etcd : Template → Etcd → result string) (Execute_api : Template → APIServer → result string).
Implicit Types (w : W) (a : APIServer) (e : Etcd) (f : Plane) (te : Environment) (p : Pid).

Abbreviation startControlPlane := (startControlPlane Execute_etcd Execute_api).
Abbreviation plane_start := (ControlPlane_Start Execute_etcd Execute_api).

(** ** Retries *)

(** Starts that fail, one after the other, and the planes they leave behind. *)
Inductive failed_starts : Plane → W → list Plane → Plane → W → Prop :=
  | failed_none f w : failed_starts f w [] f w
  | failed_more f w f1 w1 err l f2 w2 :
      plane_start f w = Returned (f1, w1, Some err) → failed_starts f1 w1 l f2 w2 →
      failed_starts f w (f1 :: l) f2 w2.

Lemma start_tries_spec left_ n last f w f' w' n' err :
  start_tries Execute_etcd Execute_api left_ n last f w = Returned (f', w', n', err) →
  ∃ failed f1 w1, failed_starts f w failed f1 w1 ∧ n' = (n + length failed)%nat ∧ (length failed ≤ left_)%nat
    ∧ (length failed < left_ → plane_start f1 w1 = Returned (f', w', None))%nat
    ∧ (length failed = left_ → f' = f1 ∧ w' = w1).
Proof.
  revert n last f w. induction left_ as [|left_ IH]; intros n last f w; cbn.
  { intros [= <- <- <- <-]. exists [], f, w. cbn. split_and!; [constructor|lia..|done]. }
  destruct (plane_start f w) as [[[f1 w1] [e|]]|] eqn:Hs; cbn; [| |done].
  - intros (failed & f2 & w2 & Hf & -> & Hle & Hlt & Heq)%IH. exists (f1 :: failed), f2, w2. cbn.
    split_and!; [by econstructor|lia|lia|intros; apply Hlt; lia|intros; apply Heq; lia].
  - intros [= <- <- <- <-]. exists [], f, w. cbn. split_and!; [constructor|lia|lia|done|lia].
Qed.

(** A start that succeeds after one that failed. *)
Lemma failed_starts_one f w f1 w1 err f2 w2 l f3 w3 r :
  plane_start f w = Returned (f1, w1, Some err) → plane_start f1 w1 = Returned (f2, w2, None) →
  failed_starts f w l f3 w3 → plane_start f3 w3 = Returned (r, None) → l = [f1].
Proof.
  intros H1 H2 Hl H3. inversion Hl as [|? ? g1 v1 ? l1 ? ? Hg1 Hl1]; subst; [congruence|].
  inversion Hl1; subst; congruence.
Qed.

Context `{!ProcessLaws (W := W) (Pid := Pid)} `{!PlaneLaws (W := W) (X := X) (Template := Template)}.

(** What runs after some failed starts; the last of them is the current plane. *)
Lemma failed_starts_spec f w l f' w' :
  plane_once f → failed_starts f w l f' w' →
  plane_once f' ∧ (∀ q, seen w q → seen w' q)
  ∧ (∀ q, alive w' q → alive w q ∨ ∃ g, g ∈ l ∧ plane_tracks g q)
  ∧ (∀ g q, g ∈ l → tracks (etcd_state g) q → ¬ seen w q ∧ seen w' q)
  ∧ (l = [] → f' = f ∧ w' = w).
Proof.
  intros Hf Hl. induction Hl as [f w|f w f1 w1 err l f2 w2 Hs Hl IH].
  { split_and!; try done; [by left|]. by intros g q ?%not_elem_of_nil. }
  apply ControlPlane_Start_spec in Hs as (Hf1 & Hal & Hnew & Hse & _); [|apply _|done].
  destruct (IH Hf1) as (Hf2 & Hse2 & Hal2 & Hnew2 & _). split_and!; [done|auto| | |done].
  - intros q [[?|?]%Hal|(g & Hg & ?)]%Hal2; [by left|right; exists f1|right; exists g]; (split; [|done]); by constructor.
  - intros g q [->|Hg]%elem_of_cons Hq; [destruct (Hnew q Hq); auto|]. destruct (Hnew2 g q Hg Hq) as [Hno ?]. auto.
Qed.

(** C33: a control plane is tried five times at most, each try going on from where
    the one before failed, and an error means that all five have failed.  When
    a try succeeds after others have failed, the etcd processes these started
    are not the one of the plane that runs: nothing keeps track of them, and a
    stop cannot end them. *)
Theorem control_plane_retried f w f' w' err :
  plane_once f → startControlPlane f w = Returned (f', w', err) →
  ∃ failed f1 w1, failed_starts f w failed f1 w1 ∧ (length failed ≤ 5)%nat
    ∧ match err with
      | Some _ => length failed = 5%nat ∧ f' = f1 ∧ w' = w1
      | None => (length failed < 5)%nat ∧ plane_start f1 w1 = Returned (f', w', None)
          ∧ ∀ g q, g ∈ failed → tracks (etcd_state g) q → ¬ tracks (etcd_state f') q
      end
    ∧ ∀ q, alive w' q → alive w q ∨ plane_tracks f' q ∨ ∃ g, g ∈ failed ∧ plane_tracks g q.
Proof.
  intros Hf. unfold startControlPlane.
  destruct (start_tries _ _ maxRetries 0 None f w) as [[[[f2 w2] n] e]|] eqn:Ht; cbn [mbind outcome_bind]; [|done].
  apply start_tries_spec in Ht as (failed & f1 & w1 & Hl & -> & Hle & Hlt & Heq).
  destruct (failed_starts_spec _ _ _ _ _ Hf Hl) as (Hf1 & _ & Hal & Hnew & _).
  intros [= <- <- <-]. exists failed, f1, w1. split_and!; [done|done| |]; unfold maxRetries in *; cbn in *.
  - case_decide as Hn; [by destruct (Heq Hn) as [-> ->]|].
    assert (Hlt5 : (length failed < 5)%nat) by lia. pose proof (Hlt Hlt5) as Hs. split_and!; [done..|].
    intros g q Hg Hq Hq'. apply ControlPlane_Start_spec in Hs as (_ & _ & Hnew' & _); [|apply _|done].
    apply (Hnew' q Hq'). by apply (Hnew g q).
  - intros q Hq. destruct (decide (length failed = 5%nat)) as [Hn|Hn].
    + destruct (Heq Hn) as [-> ->]. destruct (Hal q Hq); auto.
    + assert (Hlt5 : (length failed < 5)%nat) by lia.
      destruct (ControlPlane_Start_spec _ _ _ _ _ _ _ Hf1 (Hlt Hlt5)) as (_ & Hal' & _).
      destruct (Hal' q Hq) as [[?|?]%Hal|?]; auto.
Qed.

(** ** Stopping *)

Section stopping.
Context (Haggregate : ∀ errs, NewAggregate errs = None ↔ errs = []).

(** Stopping an environment with a control plane of its own: if there is no
    error, no process its servers were last started as still runs; but when
    the CRDs cannot be removed, or the directory of the certificates, the
    control plane is not stopped at all.  The plane of an environment on an
    existing cluster is left as it is. *)
Theorem stop_reaches_plane te w te' w' err :
  plane_once (te_ControlPlane te) → Environment_Stop cluster_of te w = Returned (te', w', err) →
  (te_UseExistingCluster te = Some true → te' = te)
  ∧ (te_UseExistingCluster te = Some false → err = None →
       ∀ p, plane_tracks (te_ControlPlane te) p → ¬ alive w' p)
  ∧ (∀ w1 er, uninstall cluster_of te w = Returned (w1, Some er) → te' = te ∧ w' = w1 ∧ err = Some er)
  ∧ (∀ w1 w2 er, uninstall cluster_of te w = Returned (w1, None) →
       Cleanup (te_WebhookInstallOptions te) w1 = (w2, Some er) → te' = te ∧ w' = w2 ∧ err = Some er).
Proof.
  intros Hf. unfold Environment_Stop.
  destruct (uninstall cluster_of te w) as [[w1 [e1|]]|] eqn:Hu; cbn [mbind outcome_bind]; [| |done].
  { intros [= <- <- <-]. split_and!; [done|done| |done]. by intros w2 er [= <- <-]. }
  destruct (Cleanup _ w1) as [w2 [e2|]] eqn:Hc.
  { intros [= <- <- <-]. split_and!; [done|done|done|]. intros w3 w4 er [= <-]. rewrite Hc. by intros [= <- <-]. }
  assert (Hrest : (∀ w3 er, Returned (w1, None) = Returned (w3, Some er) → te' = te ∧ w' = w3 ∧ err = Some er)
    ∧ (∀ w3 w4 er, Returned (w1, @None error) = Returned (w3, None) → Cleanup (te_WebhookInstallOptions te) w3 = (w4, Some er) →
         te' = te ∧ w' = w4 ∧ err = Some er)).
  { split; [done|]. intros w3 w4 er [= <-]. by rewrite Hc. }
  unfold useExistingCluster. intros Hend. split; [|split; [|done]].
  - intros Hex. rewrite Hex in Hend. by injection Hend as <- _ _.
  - intros Hex ->. rewrite Hex in Hend.
    destruct (ControlPlane_Stop _ w2) as [[[f w3] e3]|] eqn:Hs; cbn in Hend; [|done].
    injection Hend as _ <- ->. by apply (ControlPlane_Stop_spec Haggregate) in Hs as [_ Hdead].
Qed.
End stopping.

(** Without an etcd that starts, no process is ever the API server's, and a stop
    of the environment that could not be started fails hard: the state of the
    API server is looked into before it is found to be missing. *)
Lemma no_etcd_no_api f w f' w' err :
  (∀ e w, ∃ e' w' er, Etcd_Start Execute_etcd e w = Returned (e', w', Some er)) →
  startControlPlane f w = Returned (f', w', err) → is_Some err ∧ cp_APIServer f' = cp_APIServer f.
Proof.
  intros Hno. unfold startControlPlane, maxRetries.
  assert (Hplane : ∀ f w, ∃ f' w' er, plane_start f w = Returned (f', w', Some er) ∧ cp_APIServer f' = cp_APIServer f).
  { clear f w. intros f w. unfold ControlPlane_Start. destruct (Hno (default empty_Etcd (cp_Etcd f)) w) as (e' & w1 & er & ->).
    cbn. by do 3 eexists. }
  enough (Htries : ∀ n m last f w, ∃ f' w' er, start_tries Execute_etcd Execute_api n m last f w = Returned (f', w', (m + n)%nat, er)
    ∧ cp_APIServer f' = cp_APIServer f).
  { destruct (Htries 5%nat 0%nat None f w) as (f1 & w1 & er & -> & Hf). cbn. intros [= <- <- <-]. by split. }
  clear f w. induction n as [|n IH]; intros m last f w.
  { rewrite Nat.add_0_r. by do 3 eexists. }
  destruct (Hplane f w) as (f1 & w1 & er & Hs & Hf). destruct (IH (S m) (Some er) f1 w1) as (f2 & w2 & er2 & Ht & Hf2).
  exists f2, w2, er2. cbn. rewrite Hs. cbn. rewrite Ht, Hf2, Hf. split; [|done].
  by rewrite Nat.add_succ_r.
Qed.

Lemma prepare_plane_api te w te' err :
  prepare_plane ParseDuration te w = (te', err) →
  te_UseExistingCluster te' = te_UseExistingCluster te
  ∧ ∃ a, cp_APIServer (te_ControlPlane te') = Some a
    ∧ as_processState a = cp_APIServer (te_ControlPlane te) ≫= as_processState.
Proof.
  unfold prepare_plane, defaultTimeouts. intros Hp.
  repeat (case_match; simplify_eq/=); (split; [done|]); eexists; (split; [reflexivity|]); cbn;
    by destruct (cp_APIServer (te_ControlPlane te)).
Qed.

(** When etcd cannot be started, starting an environment returns an error
    and no configuration, and stopping the environment then panics. *)
Theorem stop_after_failed_start_panics te w te' w' r :
  (∀ e w, ∃ e' w' er, Etcd_Start Execute_etcd e w = Returned (e', w', Some er)) →
  te_UseExistingCluster te = Some false → cp_APIServer (te_ControlPlane te) = None →
  Environment_Start cluster_of kubeconfig ParseDuration scheme_Scheme Execute_etcd Execute_api te w
    = Returned (te', w', r) →
  r.1 = None ∧ is_Some r.2
  ∧ ∀ w1 w2 w3, uninstall cluster_of te' w1 = Returned (w2, None) →
      Cleanup (te_WebhookInstallOptions te') w2 = (w3, None) → ∃ msg, Environment_Stop cluster_of te' w1 = Panicked msg.
Proof.
  intros Hno Hown Hfresh. unfold Environment_Start, connect, useExistingCluster. rewrite Hown.
  destruct (prepare_plane ParseDuration te w) as [te1 err1] eqn:Hp.
  apply prepare_plane_api in Hp as (Hown1 & a & Ha & Hst). rewrite Hfresh in Hst. cbn in Hst. rewrite Hown in Hown1.
  assert (Hpanic : ∀ te2, te_UseExistingCluster te2 = Some false → cp_APIServer (te_ControlPlane te2) = Some a →
    ∀ w1 w2 w3, uninstall cluster_of te2 w1 = Returned (w2, None) →
      Cleanup (te_WebhookInstallOptions te2) w2 = (w3, None) → ∃ msg, Environment_Stop cluster_of te2 w1 = Panicked msg).
  { intros te2 Hown2 Ha2 w1 w2 w3 Hu Hc. unfold Environment_Stop. rewrite Hu. cbn. rewrite Hc.
    unfold useExistingCluster. rewrite Hown2. unfold ControlPlane_Stop. rewrite Ha2. cbn.
    unfold APIServer_Stop. rewrite Hst. cbn. by eexists. }
  destruct err1 as [err1|]; cbn [mbind outcome_bind].
  { intros [= <- <- <-]. split_and!; [done|done|]. by apply Hpanic. }
  destruct (startControlPlane (te_ControlPlane te1) w) as [[[f w1] err]|] eqn:Hs; cbn [mbind outcome_bind]; [|done].
  apply no_etcd_no_api in Hs as [[er ->] Hf]; [|done]. cbn. intros [= <- <- <-].
  split_and!; [done|done|]. apply Hpanic; cbn; [done|by rewrite Hf].
Qed.

(** ** The scheme *)

(** An outcome, but for the scheme of the environment. *)
Definition but_scheme {R} (r : outcome (Environment * W * R)) : outcome (Environment * W * R) :=
  match r with Returned (te, w, x) => Returned (set_scheme None te, w, x) | Panicked msg => Panicked msg end.

Definition with_scheme {R} (s : option Sch) (r : outcome (Environment * W * R)) : outcome (Environment * W * R) :=
  match r with Returned (te, w, x) => Returned (set_scheme s te, w, x) | Panicked msg => Panicked msg end.

Lemma connect_scheme s te w :
  connect kubeconfig ParseDuration Execute_etcd Execute_api (set_scheme s te) w
  = with_scheme s (connect kubeconfig ParseDuration Execute_etcd Execute_api te w).
Proof.
  unfold connect. change (useExistingCluster (set_scheme s te) w) with (useExistingCluster te w).
  destruct (useExistingCluster te w).
  { change (te_Config (set_scheme s te)) with (te_Config te). destruct (te_Config te); [done|].
    by destruct (GetConfig kubeconfig w) as [w1 []]. }
  assert (Hp : prepare_plane ParseDuration (set_scheme s te) w
    = (set_scheme s (prepare_plane ParseDuration te w).1, (prepare_plane ParseDuration te w).2)).
  { unfold prepare_plane, defaultTimeouts. cbn. repeat case_match; by simplify_eq/=. }
  rewrite Hp. destruct (prepare_plane ParseDuration te w) as [te1 [err|]]; cbn [fst snd]; [done|].
  change (te_ControlPlane (set_scheme s te1)) with (te_ControlPlane te1).
  destruct (startControlPlane _ w) as [[[f w1] [err|]]|]; cbn -[AddUser User_Config]; [done| |done].
  destruct (AddUser _ _ f w1) as [[f1 w2] [u|err]]; cbn -[User_Config]; [|done].
  by destruct (User_Config u f1) as [[u1 cfg]|].
Qed.

Lemma install_scheme s te w :
  but_scheme (install cluster_of scheme_Scheme (set_scheme s te) w) = but_scheme (install cluster_of scheme_Scheme te w).
Proof.
  unfold install.
  match goal with |- but_scheme (PrepWithoutInstalling ?o1 _ ≫= _) = but_scheme (PrepWithoutInstalling ?o2 _ ≫= _) =>
    change o1 with o2 end.
  destruct (PrepWithoutInstalling _ w) as [[[o w1] [err|]]|]; cbn -[install_CRDs install_webhooks]; [done| |done].
  match goal with |- but_scheme (install_CRDs _ ?te1 _ ≫= _) = but_scheme (install_CRDs _ ?te2 _ ≫= _) =>
    change (install_CRDs cluster_of te1 w1) with (install_CRDs cluster_of te2 w1) end.
  destruct (install_CRDs _ _ w1) as [[[w2 crds] [err|]]|]; cbn -[install_webhooks]; [done| |done].
  match goal with |- but_scheme (install_webhooks _ ?te1 _ ≫= _) = but_scheme (install_webhooks _ ?te2 _ ≫= _) =>
    change (install_webhooks cluster_of te1 w2) with (install_webhooks cluster_of te2 w2) end.
  by destruct (install_webhooks _ _ w2) as [[[o' w3] [err|]]|].
Qed.

(** The scheme of an environment decides nothing, in particular not which
    CRDs get conversion webhooks: an environment with any other scheme starts
    in the same way, installs the same and returns the same. *)
Theorem scheme_unused s te w :
  but_scheme (Environment_Start cluster_of kubeconfig ParseDuration scheme_Scheme Execute_etcd Execute_api (set_scheme s te) w)
  = but_scheme (Environment_Start cluster_of kubeconfig ParseDuration scheme_Scheme Execute_etcd Execute_api te w).
Proof.
  unfold Environment_Start. rewrite connect_scheme.
  destruct (connect _ _ _ _ te w) as [[[te1 w1] [r|]]|]; cbn; [done| |done]. apply install_scheme.
Qed.
End facts.
