(* ===== verification/EnvtestServerSamples.v ===== *)
(** * A machine to start test environments on

    The processes of TestProcess with addresses, files, certificates and a
    cluster on which every call succeeds, and the facts about control planes
    and environments at concrete inputs. *)

From S2P Require Export EnvtestServerFacts.

Module Sample.
Import TestProcess.Sample.

#[local] Instance one_address : AddrOS (W := Machine) (L := ()) := {|
  ResolveTCPAddr host w := (w, Ok "127.0.0.1");
  ListenTCP _ w := (w, Ok ((), 8443%Z));
  Close _ w := (w, None);
  Now w := (w, 0%Z);
|}.

#[local] Instance same_keys : CertLib Machine () () () string () := {|
  GenerateKey _ w := (w, Ok ());
  Public key := key;
  NewSelfSignedCACert _ _ w := (w, Ok ());
  CreateCertificate _ _ _ _ w := (w, Ok ());
  ParseCertificate _ := Ok ();
  Raw cert := cert;
  EncodeToMemory kind _ := kind;
  MarshalPKCS8PrivateKey _ := Ok ();
  ParseIP s := Some s;
  LookupHost _ w := (w, Ok []);
  time_Now w := (w, 0%Z);
|}.

#[local] Instance plane_os : PlaneOS (W := Machine) (X := Empty_set) (Template := ()) := {|
  ports _ := ∅;
  set_ports _ w := w;
  ControlPlane.WriteFile _ _ w := (w, None);
  ControlPlane.Stat _ _ := Err (ErrorString "not found");
  ControlPlane.IsNotExist _ := true;
  CreateTemp dir name w := (w, Ok (dir +:+ "/" +:+ name));
  WriteTo _ _ w := (w, None);
  IsConfigTransportTLS _ := true;
  url_Parse s := Ok (mkURL "https" "127.0.0.1:8443" "");
  clientcmd_Write _ := Ok "kubeconfig";
  cmd_Run _ _ w := (w, ("", "", None));
  NewAggregate errs := match errs with [] => None | err :: _ => Some err end;
  template_Parse _ := Ok ();
  other_Configure := Empty_set_rect _;
  other_Start := Empty_set_rect _;
  other_AddUser := Empty_set_rect _;
  other_Stop := Empty_set_rect _;
|}.

#[local] Instance plane_laws : PlaneLaws (W := Machine) (X := Empty_set) (Template := ()).
Proof.
  split; try (cbn; intros; simplify_eq; reflexivity); intros [].
Qed.

Lemma aggregate_law errs : NewAggregate errs = None ↔ errs = [].
Proof. by destruct errs. Qed.

#[local] Instance range_zz : MapRange Z Z := some_range _ _.
#[local] Instance range_arg : MapRange string Arg := some_range _ _.
#[local] Instance range_slice : MapRange string Slice := some_range _ _.
#[local] Instance range_string : MapRange string () := some_range _ _.
#[local] Instance range_object : MapRange string Object := some_range _ _.
#[local] Instance range_gvkn : MapRange (GVK * string) Object := some_range _ _.
#[local] Instance range_gv : MapRange GroupVersion (gset string) := some_range _ _.
#[local] Instance range_gvk : MapRange GVK (gset string) := some_range _ _.
#[local] Instance range_types : MapRange GVK () := some_range _ _.

Definition render {D} (t : ()) (d : D) : result string := Ok "".
Abbreviation start := (ControlPlane_Start (X := Empty_set) render render).
Abbreviation Plane := (@ControlPlane.ControlPlane nat () () Empty_set).

Definition no_plane : Plane := mkPlane None None "" None None.
Definition plane_of {R} (r : outcome (Plane * Machine * R)) : Plane :=
  match r with Returned (f, _, _) => f | Panicked _ => no_plane end.
Definition world_of {S R} (r : outcome (S * Machine * R)) : Machine :=
  match r with Returned (_, w, _) => w | Panicked _ => machine [] end.

Lemma no_plane_once : plane_once no_plane.
Proof. by split. Qed.

(** In the first start etcd comes up and the API server ends at once; in the second
    both come up. *)
Definition r1 := start no_plane (machine [Some Ready; Some WaitDone; Some Ready; Some Ready]).
Definition r2 := start (plane_of r1) (world_of r1).
Definition r3 := ControlPlane_Stop (plane_of r2) (world_of r2).

(** The second start succeeds and the stop after it too, but the first etcd runs
    on. *)
Lemma control_plane_processes_witness :
  r2 = Returned (plane_of r2, world_of r2, None) ∧ r3 = Returned (plane_of r3, world_of r3, None)
  ∧ tracks (etcd_state (plane_of r1)) 1%nat ∧ ¬ tracks (etcd_state (plane_of r2)) 1%nat
  ∧ running (world_of r3) 1.
Proof.
  assert (H1 : ∃ err, r1 = Returned (plane_of r1, world_of r1, Some err)) by (eexists; vm_compute; reflexivity).
  assert (H2 : r2 = Returned (plane_of r2, world_of r2, None)) by (vm_compute; reflexivity).
  assert (Ht : tracks (etcd_state (plane_of r1)) 1%nat) by (eexists; split; vm_compute; reflexivity).
  destruct H1 as [err H1].
  destruct (control_plane_processes render render aggregate_law no_plane _ _ _ _ no_plane_once H1) as [_ Hleak].
  split_and!; [exact H2|vm_compute; reflexivity|exact Ht| |].
  - refine (Hleak (world_of r1) _ _ _ _ H2 1%nat Ht). reflexivity.
  - assert (Hrun : bool_decide (1%nat ∈ m_alive (world_of r3) ∧ 1%nat ∉ (m_exits (world_of r3)).*1) = true)
      by (vm_compute; reflexivity).
    exact (bool_decide_eq_true_1 _ Hrun).
Defined.

(** ** Environments *)

Definition no_client : Client Machine := {|
  Client.Get _ o w := (o, w, Some (ErrorString "unsupported"));
  Client.List _ l w := (l, w, Some (ErrorString "unsupported"));
  Create _ o w := (o, w, Some (ErrorString "unsupported"));
  Client.Delete _ o w := (o, w, Some (ErrorString "unsupported"));
  Update _ o w := (o, w, Some (ErrorString "unsupported"));
  Patch_ _ _ o w := (o, w, Some (ErrorString "unsupported"));
  DeleteAllOf _ o w := (o, w, Some (ErrorString "unsupported"));
  Status := {| Status_Update _ o w := (o, w, Some (ErrorString "unsupported"));
               Status_Patch _ _ o w := (o, w, Some (ErrorString "unsupported")) |};
  Client_Scheme := {| sch_ObjectKinds _ _ := Err (ErrorString "unsupported"); sch_Recognizes _ := false |};
  Client_RESTMapper := {| rm_RESTMapping _ _ := Err (ErrorString "unsupported") |};
|}.

Definition cluster_of (config : option RestConfig) : CRDCluster (W := Machine) := {|
  client_New w := (w, match config with Some _ => Ok no_client | None => Err (ErrorString "must provide a config") end);
  IsNotFound _ := false;
  IsConflict _ := false;
  clientset_New w := Ok ();
  ServerResourcesForGroupVersion _ _ := Ok [];
  retry_Steps := 1;
  RetryOnConflict S f s := f s;
  PollImmediate S _ _ cond s w :=
    match cond s w with
    | (s, Ok true) => (s, w, None)
    | (s, Ok false) => (s, w, Some (ErrorString "timed out"))
    | (s, Err e) => (s, w, Some e)
    end;
  ErrWaitTimeout := ErrorString "timed out";
|}.

#[local] Instance no_content : CRDContent (Content := ()) (Val := ()) := {|
  crdScheme_Convert o := Ok o;
  content _ := ();
  set_content _ o := o;
  as_map _ := None;
  NestedString _ _ := ("", false, None);
  NestedBool _ _ := (false, false, None);
  NestedSlice _ _ := ([], false, None);
  SetNestedField _ _ c := Ok c;
  SetNestedStringSlice _ _ c := Ok c;
  SetNestedMap _ _ c := Ok c;
  base64 s := s;
|}.

#[local] Instance no_files : CRDFiles (W := Machine) := {|
  Stat _ _ := Err (ErrorString "not found");
  IsNotExist _ := true;
  ReadDir _ _ := Ok [];
  ReadFile _ _ := Err (ErrorString "not found");
  filepath_Dir path := path;
  filepath_Base_Join dir name := dir +:+ "/" +:+ name;
  filepath_Ext _ := "";
  YAMLReader _ := ([], None);
  yaml_Unmarshal _ := Err (ErrorString "unsupported");
|}.

#[local] Instance no_hooks : HookContent (Content := ()) (Val := ()) := {|
  hook_ToUnstructured o := Ok o;
  hook_NestedMap c _ := (c, false, None);
  hook_map_set _ _ c := c;
  hook_string _ := (); hook_map _ := (); hook_slice _ := (); hook_nil := ();
  hook_Metadata _ := Err (ErrorString "unsupported");
|}.

#[local] Instance no_types : ConvertibleTypes () () := {|
  implements_Hub _ := false;
  implements_Convertible _ := false;
  ConvertTo o _ := Returned (o, None);
  ConvertFrom o _ := Returned (o, None);
  type_name _ := "";
  object_text _ := "";
|}.
#[local] Instance no_scheme : ConversionScheme () () := {|
  scheme_New _ := Err (ErrorString "unsupported");
  scheme_ObjectKinds _ := Err (ErrorString "unsupported");
  scheme_AllKnownTypes := ∅;
  FromAPIVersionAndKind _ _ := mkGVK "" "" "";
  TypeAccessor _ := None;
  gvk_text _ := "";
|}.
#[local] Instance no_views : TypedCRDs := {|
  crd_view _ := ViewUnstructured;
  set_conversion_v1beta1 _ o := o;
  set_conversion_v1 _ o := o;
|}.
#[local] Instance no_loading : ConfigLoading (W := Machine) := {|
  InClusterConfig _ := Err (ErrorString "not in a cluster");
  NewDefaultClientConfigLoadingRules _ := mkRules "" [];
  user_Current _ := Ok "/root";
  ClientConfig _ _ _ w := (w, Err (ErrorString "no configuration"));
|}.

Abbreviation Environment := (@EnvtestServer.Environment nat () () Empty_set ()).
Definition new_environment (cleanup : bool) : Environment :=
  mkEnvironment no_plane None None (mkCRDInstallOptions [] [] false 0 0 cleanup) (mkWIO [] [] [] false "" 0 "" "" "" 0 0)
    false [] [] "/bin" (Some false) 0 0 [] false.
Abbreviation env_start := (Environment_Start cluster_of "" (λ _, Err (ErrorString "unsupported")) () render render).
Abbreviation env_stop := (Environment_Stop (Sch := ()) cluster_of).

Definition env_of {R} (r : outcome (Environment * Machine * R)) : Environment :=
  match r with Returned (te, _, _) => te | Panicked _ => new_environment false end.

Definition s1 := env_start (new_environment true) (machine [Some Ready; Some WaitDone; Some Ready; Some Ready]).
Definition s2 := env_stop (env_of s1) (world_of s1).

Example environment_runs :
  (m_alive (world_of s1), m_alive (world_of s2)) = ([4; 3; 1], [1])%nat.
Proof. vm_compute. reflexivity. Qed.

(** The environment starts at the second try. *)
Lemma control_plane_retried_witness :
  ∃ (f' : Plane) w' (failed : list Plane) g, startControlPlane render render no_plane (machine [Some Ready; Some WaitDone; Some Ready; Some Ready])
      = Returned (f', w', None) ∧ failed = [g] ∧ tracks (etcd_state g) 1%nat ∧ ¬ tracks (etcd_state f') 1%nat.
Proof.
  set (r := startControlPlane render render no_plane (machine [Some Ready; Some WaitDone; Some Ready; Some Ready])).
  assert (Hr : r = Returned (plane_of r, world_of r, None)) by (vm_compute; reflexivity).
  assert (H1 : ∃ err, r1 = Returned (plane_of r1, world_of r1, Some err)) by (eexists; vm_compute; reflexivity).
  assert (H2 : r2 = Returned (plane_of r2, world_of r2, None)) by (vm_compute; reflexivity).
  assert (Ht : tracks (etcd_state (plane_of r1)) 1%nat) by (eexists; split; vm_compute; reflexivity).
  destruct H1 as [err H1].
  destruct (control_plane_retried render render no_plane _ _ _ _ no_plane_once Hr)
    as (failed & f1 & w1 & Hl & _ & (_ & Hlast & Hno) & _).
  pose proof (failed_starts_one render render _ _ _ _ _ _ _ _ _ _ _ H1 H2 Hl Hlast) as Hf.
  exists (plane_of r), (world_of r), failed, (plane_of r1). split; [exact Hr|]. split; [exact Hf|]. split; [exact Ht|].
  refine (Hno (plane_of r1) 1%nat _ Ht). rewrite Hf. apply list_elem_of_here.
Defined.

Lemma stop_reaches_plane_witness :
  s2 = Returned (env_of s2, world_of s2, None) ∧ plane_tracks (te_ControlPlane (env_of s1)) 3%nat
  ∧ ¬ running (world_of s2) 3.
Proof.
  assert (Hs : env_stop (env_of s1) (world_of s1) = Returned (env_of s2, world_of s2, None)) by (vm_compute; reflexivity).
  assert (Honce : plane_once (te_ControlPlane (env_of s1))).
  { split; intros st Hst; vm_compute in Hst; injection Hst as <-; by split. }
  assert (Ht : plane_tracks (te_ControlPlane (env_of s1)) 3%nat) by (left; eexists; split; vm_compute; reflexivity).
  assert (Hown : te_UseExistingCluster (env_of s1) = Some false) by (vm_compute; reflexivity).
  split; [exact Hs|]. split; [exact Ht|].
  destruct (stop_reaches_plane cluster_of aggregate_law _ _ _ _ _ Honce Hs) as (_ & Hdead & _).
  exact (Hdead Hown eq_refl 3%nat Ht).
Defined.

(** No binary can be started. *)
Definition broken_os : ProcessOS (W := Machine) (Pid := nat) := {|
  TestProcess.TempDir prefix m := (m, Ok prefix);
  TestProcess.RemoveAll _ m := (m, None);
  CombinedOutput _ _ m := (m, Err (ErrorString "no such file"));
  regexp_Match _ _ := Ok true;
  http_Get _ m := (m, Ok 200%Z);
  stop_closed _ := false;
  Sleep _ m := m;
  go_poll _ _ m := m;
  close_poller m := m;
  cmd_Start _ _ m := (m, Err (ErrorString "no such file"));
  select_start _ _ m := (m, TimedOut);
  Signal_TERM _ m := (m, None);
  select_stop _ _ m := (m, false);
  exits := m_exits;
|}.

Section broken.
#[local] Existing Instance broken_os | 0.
Abbreviation broken_start := (Environment_Start cluster_of "" (λ _, Err (ErrorString "unsupported")) () render render).

Lemma no_etcd e w : ∃ e' w' er, Etcd_Start render e w = Returned (e', w', Some er).
Proof.
  unfold Etcd_Start. destruct (Etcd_setProcessState render e w) as [[e1 w1] [er|]] eqn:Hp; [by do 3 eexists|].
  assert (Hf : ∃ s, et_processState e1 = Some s ∧ ps_ready s = false).
  { revert Hp. unfold Etcd_setProcessState, Init. intros Hp.
    repeat (case_match; simplify_eq/=); eexists; (split; [reflexivity|done]). }
  destruct Hf as (s & -> & Hr). unfold Start. rewrite Hr. cbn. by do 3 eexists.
Qed.

Lemma stop_after_failed_start_panics_witness :
  ∃ te' w', (∃ r, broken_start (new_environment false) (machine []) = Returned (te', w', r) ∧ r.1 = None ∧ is_Some r.2)
    ∧ ∃ msg, env_stop te' w' = Panicked msg.
Proof.
  destruct (broken_start (new_environment false) (machine [])) as [[[te' w'] r]|msg] eqn:Hs.
  2:{ exfalso. vm_compute in Hs. discriminate. }
  destruct (stop_after_failed_start_panics cluster_of "" (λ _, Err (ErrorString "unsupported")) () render render
    (new_environment false) (machine []) te' w' r no_etcd eq_refl eq_refl Hs) as (Hnone & Herr & Hpanic).
  exists te', w'. split; [exists r; split; [reflexivity|split; [exact Hnone|exact Herr]]|].
  assert (Hu : ∃ w2, uninstall cluster_of te' w' = Returned (w2, None) ∧ Cleanup (te_WebhookInstallOptions te') w2 = (w2, None)).
  { revert Hs. vm_compute. intros [= <- <- _]. eexists. split; reflexivity. }
  destruct Hu as (w2 & Hu & Hc). exact (Hpanic w' w2 w2 Hu Hc).
Defined.
End broken.
End Sample.
