(* ===== verification/RestMapper.v ===== *)
(** * The dynamic REST mapper (src/pkg/client/apiutil/dynamicrestmapper.go)

    The mapper of kinds to resources that asks the API server again when it
    does not know a kind.  The static mappers it holds, the discovery that
    makes them and the rate limiter are parameters.  Here one call runs at a
    time; calls that overlap are in RestMapperCalls. *)

From S2P Require Export Objects.

(** [schema.GroupVersionResource] and [meta.RESTMapping]. *)
Record GVR := mkGVR { gvr_Group : string; gvr_Version : string; gvr_Resource : string }.

#[export] Instance GVR_eq_dec : EqDecision GVR.
Proof. solve_decision. Defined.

Record RESTMapping := mkMapping { mapping_Resource : GVR; mapping_Scope : RESTScopeName }.

#[export] Instance RESTMapping_eq_dec : EqDecision RESTMapping.
Proof. solve_decision. Defined.

(** A [meta.RESTMapper] with all its methods; made from the answers of the
    API server, it does not change. *)
Record StaticMapper := {
  sm_KindFor : GVR → result GVK;
  sm_KindsFor : GVR → result (list GVK);
  sm_ResourceFor : GVR → result GVR;
  sm_ResourcesFor : GVR → result (list GVR);
  sm_RESTMapping : GroupKind → list string → result RESTMapping;
  sm_RESTMappings : GroupKind → list string → result (list RESTMapping);
  sm_ResourceSingularizer : string → result string;
}.

(** The [RESTMapper] the wrapping clients ask, which look at scopes only. *)
Definition mapper_scopes (m : StaticMapper) : RESTMapper := {|
  rm_RESTMapping := λ gk versions,
    match sm_RESTMapping m gk versions with
    | Ok r => Ok (mapping_Scope r)
    | Err e => Err e
    end |}.

(** ** The mapper *)

Section dynamic.
Context {W : Type}.
(** [Allow] of the [rate.Limiter]: takes a token if there is one. *)
Variable Allow : W → bool * W.
(** [newMapper]: by default, discovery of the groups and resources served. *)
Variable newMapper : W → result StaticMapper * W.

(** [dynamicRESTMapper]; [drm_inited] tells whether [initOnce] is done. *)
Record dynamicRESTMapper := mkDRM {
  drm_staticMapper : option StaticMapper;
  drm_lazy : bool;
  drm_inited : bool;
}.

Definition setStaticMapper (d : dynamicRESTMapper) (w : W) : dynamicRESTMapper * W * option error :=
  match newMapper w with
  | (Err e, w) => (d, w, Some e)
  | (Ok m, w) => (mkDRM (Some m) (drm_lazy d) (drm_inited d), w, None)
  end.

(** [NewDynamicRESTMapper] once the discovery client is made; an option is a
    function on the mapper that may fail. *)
Definition DynamicRESTMapperOption : Type := dynamicRESTMapper → result dynamicRESTMapper.

Definition WithLazyDiscovery : DynamicRESTMapperOption := λ d,
  Ok (mkDRM (drm_staticMapper d) true (drm_inited d)).

Fixpoint apply_drm_options (opts : list DynamicRESTMapperOption) (d : dynamicRESTMapper)
    : result dynamicRESTMapper :=
  match opts with
  | [] => Ok d
  | opt :: opts => d ← opt d; apply_drm_options opts d
  end.

Definition NewDynamicRESTMapper (discovery_err : option error)
    (opts : list DynamicRESTMapperOption) (w : W) : result dynamicRESTMapper * W :=
  match discovery_err with
  | Some e => (Err e, w)
  | None =>
      match apply_drm_options opts (mkDRM None false false) with
      | Err e => (Err e, w)
      | Ok d =>
          if drm_lazy d then (Ok d, w) else
          match setStaticMapper d w with
          | (_, w, Some e) => (Err e, w)
          | (d, w, None) => (Ok d, w)
          end
      end
  end.

(** [init]: the error of the first call only, whatever becomes of it. *)
Definition drm_init (d : dynamicRESTMapper) (w : W) : dynamicRESTMapper * W * option error :=
  if drm_inited d then (d, w, None) else
  let d := mkDRM (drm_staticMapper d) (drm_lazy d) true in
  if drm_lazy d then setStaticMapper d w else (d, w, None).

(** A callback: what to ask the static mapper.  A nil mapper panics. *)
Definition ask {A} (q : StaticMapper → result A) (d : dynamicRESTMapper) : outcome (result A) :=
  match drm_staticMapper d with
  | Some m => Returned (q m)
  | None => Panicked "invalid memory address or nil pointer dereference"
  end.

(** [errors.As(err, &needsReloadErr)] where [needsReloadErr] is a variable of
    the interface type [error]: true for every error that is not nil. *)
Definition needsReload {A} (r : result A) : bool :=
  match r with Ok _ => false | Err _ => true end.

(** The part of [checkAndReload] under the write lock. *)
Definition reload_section {A} (q : StaticMapper → result A) (d : dynamicRESTMapper) (w : W)
    : dynamicRESTMapper * W * outcome (result A) :=
  match ask q d with
  | Panicked m => (d, w, Panicked m)
  | Returned r =>
      if needsReload r then
        match Allow w with
        | (false, w) => (d, w, Returned r)
        | (true, w) =>
            match setStaticMapper d w with
            | (d, w, Some e) => (d, w, Returned (Err e))
            | (d, w, None) => (d, w, ask q d)
            end
        end
      else (d, w, Returned r)
  end.

(** [checkAndReload], when nothing happens between its two sections. *)
Definition checkAndReload {A} (q : StaticMapper → result A) (d : dynamicRESTMapper) (w : W)
    : dynamicRESTMapper * W * outcome (result A) :=
  match ask q d with
  | Panicked m => (d, w, Panicked m)
  | Returned r => if needsReload r then reload_section q d w else (d, w, Returned r)
  end.

(** The shape of all methods: [init], then [checkAndReload]. *)
Definition drm_method {A} (q : StaticMapper → result A) (d : dynamicRESTMapper) (w : W)
    : dynamicRESTMapper * W * outcome (result A) :=
  match drm_init d w with
  | (d, w, Some e) => (d, w, Returned (Err e))
  | (d, w, None) => checkAndReload q d w
  end.

Definition drm_KindFor (resource : GVR) := drm_method (λ m, sm_KindFor m resource).
Definition drm_KindsFor (resource : GVR) := drm_method (λ m, sm_KindsFor m resource).
Definition drm_ResourceFor (input : GVR) := drm_method (λ m, sm_ResourceFor m input).
Definition drm_ResourcesFor (input : GVR) := drm_method (λ m, sm_ResourcesFor m input).
Definition drm_RESTMapping (gk : GroupKind) (versions : list string) :=
  drm_method (λ m, sm_RESTMapping m gk versions).
Definition drm_RESTMappings (gk : GroupKind) (versions : list string) :=
  drm_method (λ m, sm_RESTMappings m gk versions).
Definition drm_ResourceSingularizer (resource : string) :=
  drm_method (λ m, sm_ResourceSingularizer m resource).

(** ** One call at a time *)

Implicit Types (d : dynamicRESTMapper) (w : W) (m : StaticMapper).

(** A mapper that is ready: it has a static mapper and will not initialize. *)
Definition ready d : Prop :=
  is_Some (drm_staticMapper d) ∧ (drm_inited d = true ∨ drm_lazy d = false).

Lemma drm_init_ready d w : ready d →
  ∃ d', drm_init d w = (d', w, None) ∧ drm_staticMapper d' = drm_staticMapper d ∧ ready d'.
Proof.
  intros [Hs Hi]. unfold drm_init, ready.
  destruct (drm_inited d) eqn:?, (drm_lazy d) eqn:?; destruct Hi; try done;
    eexists; repeat split; eauto.
Qed.

(** What the section under the write lock gives when the static mapper in
    place is [m]. *)
Lemma reload_section_cases {A} (q : StaticMapper → result A) d w m :
  drm_staticMapper d = Some m →
  reload_section q d w =
    match q m with
    | Ok a => (d, w, Returned (Ok a))
    | Err e =>
        match Allow w with
        | (false, w) => (d, w, Returned (Err e))
        | (true, w) =>
            match newMapper w with
            | (Err e, w) => (d, w, Returned (Err e))
            | (Ok m', w) => (mkDRM (Some m') (drm_lazy d) (drm_inited d), w, Returned (q m'))
            end
        end
    end.
Proof.
  intros Hm. unfold reload_section, ask, setStaticMapper. rewrite Hm.
  destruct (q m); cbn; [done|]. destruct (Allow w) as [[] w']; [|done].
  by destruct (newMapper w') as [[]].
Qed.

(** C16: a call of a method of a mapper that is ready answers what the static
    mapper it holds answers, without asking the API server, when that is not
    an error.  On any error whatsoever - not only on the no-match error the
    method names - it takes a token of the limiter: without one it returns
    the error, with one it discovers, and then either returns the error of
    the discovery, the static mapper staying, or holds the new static mapper
    and answers what that one answers.  It never panics and stays ready. *)
Theorem dynamic_mapper_call {A} (q : StaticMapper → result A) d w m :
  ready d → drm_staticMapper d = Some m →
  ∃ d', ready d' ∧
    match q m with
    | Ok a => drm_method q d w = (d', w, Returned (Ok a)) ∧ drm_staticMapper d' = Some m
    | Err e =>
        match Allow w with
        | (false, w1) => drm_method q d w = (d', w1, Returned (Err e)) ∧ drm_staticMapper d' = Some m
        | (true, w1) =>
            match newMapper w1 with
            | (Err e', w2) =>
                drm_method q d w = (d', w2, Returned (Err e')) ∧ drm_staticMapper d' = Some m
            | (Ok m', w2) =>
                drm_method q d w = (d', w2, Returned (q m')) ∧ drm_staticMapper d' = Some m'
            end
        end
    end.
Proof.
  intros Hr Hm. destruct (drm_init_ready d w Hr) as (d' & Hi & Hs & Hr').
  rewrite Hm in Hs. unfold drm_method. rewrite Hi. unfold checkAndReload.
  rewrite (reload_section_cases q d' w m Hs). unfold ask. rewrite Hs.
  destruct (q m) as [a|e]; cbn; [by exists d'|].
  destruct (Allow w) as [[] w1]; [|by exists d'].
  destruct (newMapper w1) as [[m'|e'] w2]; [|by exists d'].
  exists (mkDRM (Some m') (drm_lazy d') (drm_inited d')). repeat split; [eauto|].
  by destruct Hr' as [_ Hi'].
Qed.

(** A lazy mapper whose first discovery fails reports that error to the
    first call and is broken for good: nothing sets its static mapper any
    more, so every later call of any method dereferences a nil mapper and
    panics, whatever the API server would answer by then. *)
Theorem lazy_init_failure_is_permanent {A B} (q1 : StaticMapper → result A)
    (q2 : StaticMapper → result B) d w e w' :
  NewDynamicRESTMapper None [WithLazyDiscovery] w = (Ok d, w) →
  newMapper w = (Err e, w') →
  ∃ d', drm_method q1 d w = (d', w', Returned (Err e)) ∧
    ∀ w2, ∃ msg, drm_method q2 d' w2 = (d', w2, Panicked msg).
Proof.
  cbn. intros [= <-] Hn. eexists. split.
  - unfold drm_method, drm_init, setStaticMapper. cbn. by rewrite Hn.
  - intros w2. by eexists.
Qed.

End dynamic.

(** ** Concrete inputs *)

Definition empty_static (e : error) : StaticMapper := {|
  sm_KindFor := λ _, Err e; sm_KindsFor := λ _, Err e;
  sm_ResourceFor := λ _, Err e; sm_ResourcesFor := λ _, Err e;
  sm_RESTMapping := λ _ _, Err e; sm_RESTMappings := λ _ _, Err e;
  sm_ResourceSingularizer := λ _, Err e |}.

Definition no_match : error := ErrorString "no matches for kind".
Definition web_mapping : RESTMapping :=
  mkMapping (mkGVR "apps.example.org" "v1" "webs") (ScopeOther "namespace").

(** Before and after the definition of the kind Web is installed. *)
Definition static_before : StaticMapper := empty_static no_match.
Definition static_after : StaticMapper := {|
  sm_KindFor := λ _, Err no_match; sm_KindsFor := λ _, Err no_match;
  sm_ResourceFor := λ _, Err no_match; sm_ResourcesFor := λ _, Err no_match;
  sm_RESTMapping := λ gk _, if decide (gk_Kind gk = "Web") then Ok web_mapping else Err no_match;
  sm_RESTMappings := λ _ _, Err no_match;
  sm_ResourceSingularizer := λ _, Err no_match |}.

(** The world is the number of tokens left. *)
Definition tokens_Allow (w : nat) : bool * nat :=
  match w with O => (false, O) | S w => (true, w) end.
Definition tokens_newMapper (w : nat) : result StaticMapper * nat := (Ok static_after, w).
Definition failing_newMapper (w : nat) : result StaticMapper * nat := (Err (ErrorString "no server"), w).

Definition drm_before : dynamicRESTMapper := mkDRM (Some static_before) false false.
Definition ask_web (m : StaticMapper) : result RESTMapping :=
  sm_RESTMapping m (mkGK "apps.example.org" "Web") ["v1"].

Lemma dynamic_mapper_call_witness :
  ready drm_before ∧
  ∃ d', ready d' ∧ drm_method tokens_Allow tokens_newMapper ask_web drm_before 3
                   = (d', 2, Returned (Ok web_mapping)).
Proof.
  assert (ready drm_before) as Hr by (split; [eexists; reflexivity|right; reflexivity]).
  split; [exact Hr|].
  destruct (dynamic_mapper_call tokens_Allow tokens_newMapper ask_web drm_before 3 static_before Hr eq_refl)
    as (d' & Hr' & Hc & _).
  exists d'. split; [exact Hr'|exact Hc].
Defined.

Lemma lazy_init_failure_is_permanent_witness :
  ∃ d', drm_method tokens_Allow failing_newMapper ask_web (mkDRM None true false) 3
        = (d', 3, Returned (Err (ErrorString "no server"))) ∧
    ∃ msg, drm_method tokens_Allow failing_newMapper ask_web d' 3 = (d', 3, Panicked msg).
Proof.
  destruct (lazy_init_failure_is_permanent tokens_Allow failing_newMapper ask_web ask_web
    (mkDRM None true false) 3 (ErrorString "no server") 3 eq_refl eq_refl) as (d' & Hc & Hp).
  exists d'. split; [exact Hc|exact (Hp 3)].
Defined.
