(* ===== verification/RestMapperCalls.v ===== *)
(** * Overlapping calls of the dynamic REST mapper (src/pkg/client/apiutil/dynamicrestmapper.go)

    The calls in flight, the [sync.Once] of [init] and the [sync.RWMutex] of
    [checkAndReload], one operation of a call at a time: every lock, unlock,
    question and discovery is a step, and a call that has to wait has none. *)

From S2P Require Export RestMapper.
Local Open Scope nat_scope.

Section calls.
Context {W A : Type}.
Variable Allow : W → bool * W.
Variable newMapper : W → result StaticMapper * W.

Abbreviation query := (StaticMapper → result A).

(** ** State *)

(** Where a call is: before [initOnce.Do]; in the function it runs; before
    [mu.RLock]; with the read lock; before its deferred [RUnlock], with what
    the callback gave; before [mu.Lock]; waiting in it; with the write lock,
    before the double check, before [limiter.Allow], before
    [setStaticMapper], before the last question; before the deferred
    [Unlock]; and at its end. *)
Inductive drm_call :=
  | Starting (q : query)
  | Initializing (q : query)
  | AtRLock (q : query)
  | Reading (q : query)
  | RUnlocking (q : query) (r : outcome (result A))
  | AtLock (q : query)
  | Waiting (q : query)
  | Checking (q : query)
  | Limiting (q : query) (e : error)
  | Reloading (q : query)
  | AskingAgain (q : query)
  | Unlocking (r : outcome (result A))
  | Answered (r : outcome (result A)).

(** The mapper and the world; whether the function of [initOnce] is running; of
    the mutex how many read locks are held, whether the write lock is, and how
    many calls wait for it.  [sh_reloads] counts the discoveries of
    [checkAndReload]. *)
Record shared := mkShared {
  sh_drm : dynamicRESTMapper;
  sh_world : W;
  sh_initializing : bool;
  sh_readers : nat;
  sh_writing : bool;
  sh_waiting : nat;
  sh_reloads : nat;
}.

Definition set_once (d : dynamicRESTMapper) (w : W) (initializing : bool) (sh : shared) : shared :=
  mkShared d w initializing (sh_readers sh) (sh_writing sh) (sh_waiting sh) (sh_reloads sh).
Definition set_mutex (readers : nat) (writing : bool) (waiting : nat) (sh : shared) : shared :=
  mkShared (sh_drm sh) (sh_world sh) (sh_initializing sh) readers writing waiting (sh_reloads sh).
Definition set_mapper (d : dynamicRESTMapper) (w : W) (reloads : nat) (sh : shared) : shared :=
  mkShared d w (sh_initializing sh) (sh_readers sh) (sh_writing sh) (sh_waiting sh) reloads.

(** ** Steps

    [sync.Once]: a call waits while the function runs.  [sync.RWMutex]: a read
    lock waits for a writer, and a waiting writer keeps new readers out
    ([strict]) - but for those it found waiting, which the writer before it
    lets in; a write lock waits for the readers and the writer before it.
    Unlocking what is not locked is a fatal error, no step. *)
Definition call_step (strict : bool) (c : drm_call) (sh : shared) : option (drm_call * shared) :=
  let d := sh_drm sh in
  let w := sh_world sh in
  match c with
  | Starting q =>
      if drm_inited d then Some (AtRLock q, sh)
      else if sh_initializing sh then None
      else Some (Initializing q, set_once d w true sh)
  | Initializing q =>
      let '(d, w, err) := drm_init newMapper d w in
      Some (match err with Some e => Answered (Returned (Err e)) | None => AtRLock q end, set_once d w false sh)
  | AtRLock q =>
      if sh_writing sh || (strict && (0 <? sh_waiting sh)) then None
      else Some (Reading q, set_mutex (S (sh_readers sh)) (sh_writing sh) (sh_waiting sh) sh)
  | Reading q => Some (RUnlocking q (ask q d), sh)
  | RUnlocking q r =>
      match sh_readers sh with
      | 0 => None
      | S readers =>
          Some (match r with
                | Panicked msg => Answered (Panicked msg)
                | Returned r => if needsReload r then AtLock q else Answered (Returned r)
                end, set_mutex readers (sh_writing sh) (sh_waiting sh) sh)
      end
  | AtLock q => Some (Waiting q, set_mutex (sh_readers sh) (sh_writing sh) (S (sh_waiting sh)) sh)
  | Waiting q =>
      if sh_writing sh || (0 <? sh_readers sh) then None
      else Some (Checking q, set_mutex (sh_readers sh) true (pred (sh_waiting sh)) sh)
  | Checking q =>
      Some (match ask q d with
            | Panicked msg => Unlocking (Panicked msg)
            | Returned (Ok a) => Unlocking (Returned (Ok a))
            | Returned (Err e) => Limiting q e
            end, sh)
  | Limiting q e =>
      let '(allowed, w) := Allow w in
      Some (if (allowed : bool) then Reloading q else Unlocking (Returned (Err e)), set_mapper d w (sh_reloads sh) sh)
  | Reloading q =>
      let '(d, w, err) := setStaticMapper newMapper d w in
      Some (match err with Some e => Unlocking (Returned (Err e)) | None => AskingAgain q end,
            set_mapper d w (S (sh_reloads sh)) sh)
  | AskingAgain q => Some (Unlocking (ask q d), sh)
  | Unlocking r =>
      if sh_writing sh then Some (Answered r, set_mutex (sh_readers sh) false (sh_waiting sh) sh) else None
  | Answered _ => None
  end.

Definition run_state : Type := shared * list drm_call.

(** Any call that can goes on.  The runs are those of [calls_step false], where
    a reader may overtake a waiting writer; that none waits for ever is shown
    of [calls_step true], where none does. *)
Inductive calls_step (strict : bool) : run_state → run_state → Prop :=
  | step_call sh calls i c c' sh' :
      calls !! i = Some c → call_step strict c sh = Some (c', sh') →
      calls_step strict (sh, calls) (sh', <[i := c']> calls).

(** Calls are made of a mapper that nobody has called. *)
Definition fresh (d : dynamicRESTMapper) (w : W) (qs : list query) : run_state :=
  (mkShared d w false 0 false 0 0, Starting <$> qs).

(** ** Counting calls *)

Fixpoint total (f : drm_call → nat) (calls : list drm_call) : nat :=
  match calls with [] => 0 | c :: calls => f c + total f calls end.

Lemma total_update f calls i c c' : calls !! i = Some c →
  total f (<[i := c']> calls) + f c = total f calls + f c'.
Proof.
  revert i. induction calls as [|x calls IH]; intros [|i] Hi; csimpl in *; simplify_eq; [lia|].
  specialize (IH i Hi). lia.
Qed.

Lemma total_lookup f calls i c : calls !! i = Some c → f c ≤ total f calls.
Proof.
  revert i. induction calls as [|x calls IH]; intros [|i] Hi; csimpl in *; simplify_eq; [lia|].
  specialize (IH i Hi). lia.
Qed.

Lemma total_two f calls i j c c' : i ≠ j → calls !! i = Some c → calls !! j = Some c' →
  f c + f c' ≤ total f calls.
Proof.
  revert i j. induction calls as [|x calls IH]; intros [|i] [|j] Hne Hi Hj; csimpl in *; simplify_eq.
  - pose proof (total_lookup f _ _ _ Hj). lia.
  - pose proof (total_lookup f _ _ _ Hi). lia.
  - specialize (IH i j ltac:(congruence) Hi Hj). lia.
Qed.

(** Steps a call has left at most, and what it holds or waits for. *)
Definition steps_left (c : drm_call) : nat :=
  match c with
  | Starting _ => 12 | Initializing _ => 11 | AtRLock _ => 10 | Reading _ => 9 | RUnlocking _ _ => 8
  | AtLock _ => 7 | Waiting _ => 6 | Checking _ => 5 | Limiting _ _ => 4 | Reloading _ => 3
  | AskingAgain _ => 2 | Unlocking _ => 1 | Answered _ => 0
  end.
Definition initializes (c : drm_call) : nat := match c with Initializing _ => 1 | _ => 0 end.
Definition reads (c : drm_call) : nat := match c with Reading _ | RUnlocking _ _ => 1 | _ => 0 end.
Definition waits (c : drm_call) : nat := match c with Waiting _ => 1 | _ => 0 end.
Definition writes (c : drm_call) : nat :=
  match c with Checking _ | Limiting _ _ | Reloading _ | AskingAgain _ | Unlocking _ => 1 | _ => 0 end.
(** Past [init]. *)
Definition past_init (c : drm_call) : nat := match c with Starting _ | Initializing _ => 0 | _ => 1 end.

(** ** The locks are held as the calls say *)

Definition locks_ok (sh : shared) (calls : list drm_call) : Prop :=
  Nat.b2n (sh_initializing sh) = total initializes calls
  ∧ sh_readers sh = total reads calls
  ∧ Nat.b2n (sh_writing sh) = total writes calls
  ∧ sh_waiting sh = total waits calls
  ∧ (sh_writing sh = true → sh_readers sh = 0)
  ∧ (drm_inited (sh_drm sh) = false → total past_init calls = 0)
  ∧ (sh_initializing sh = true → drm_inited (sh_drm sh) = false).

Lemma setStaticMapper_inited d w d' w' err :
  setStaticMapper newMapper d w = (d', w', err) → drm_inited d' = drm_inited d.
Proof. unfold setStaticMapper. destruct (newMapper w) as [[]]; by intros [= <- _ _]. Qed.

Lemma drm_init_inited d w d' w' err : drm_init newMapper d w = (d', w', err) → drm_inited d' = true.
Proof.
  unfold drm_init. destruct (drm_inited d) eqn:Hi; [by intros [= <- _ _]|].
  destruct (drm_lazy d); [|by intros [= <- _ _]]. by intros ->%setStaticMapper_inited.
Qed.

Ltac count_calls Hi c' :=
  pose proof (total_update initializes _ _ _ c' Hi); pose proof (total_update reads _ _ _ c' Hi);
  pose proof (total_update writes _ _ _ c' Hi); pose proof (total_update waits _ _ _ c' Hi);
  pose proof (total_update past_init _ _ _ c' Hi).

(** The cases of a step. *)
Ltac step_cases Hc := cbn -[Nat.ltb] in Hc; simplify_eq; repeat (case_match; simplify_eq).

Lemma call_step_locks b sh calls i c c' sh' :
  locks_ok sh calls → calls !! i = Some c → call_step b c sh = Some (c', sh') →
  locks_ok sh' (<[i := c']> calls).
Proof.
  intros (H1 & H2 & H3 & H4 & H5 & H6 & H7) Hi Hc.
  count_calls Hi c'. pose proof (total_lookup past_init _ _ _ Hi) as Hpast.
  destruct sh as [d w [] rd [] wt rl]; destruct c; step_cases Hc;
    repeat match goal with
    | H : setStaticMapper _ _ _ = _ |- _ => apply setStaticMapper_inited in H
    | H : drm_init _ _ _ = _ |- _ => apply drm_init_inited in H
    | H : _ || _ = false |- _ => apply orb_false_iff in H as [? ?]
    | H : (_ <? _) = false |- _ => apply Nat.ltb_ge in H
    end; unfold locks_ok; cbn in *;
    try congruence;
    repeat match goal with H : ?x = ?x → _ |- _ => specialize (H eq_refl) end;
    split_and!; intros; try congruence; try lia; try (specialize (H6 ltac:(congruence)); lia).
Qed.

Lemma fresh_locks d w qs : locks_ok (fresh d w qs).1 (fresh d w qs).2.
Proof.
  assert (H0 : ∀ f, (∀ q, f (Starting q) = 0) → total f (Starting <$> qs) = 0).
  { intros f Hf. induction qs as [|q qs' IH]; [done|]. cbn. by rewrite Hf, IH. }
  unfold locks_ok. cbn. rewrite !H0 by done. done.
Qed.

(** ** Nobody waits for ever *)

Lemma call_step_left b c sh c' sh' : call_step b c sh = Some (c', sh') → steps_left c' < steps_left c.
Proof. intros Hc. destruct c; step_cases Hc; cbn; lia. Qed.

Lemma total_pos f calls : 0 < total f calls → ∃ i c, calls !! i = Some c ∧ 0 < f c.
Proof.
  induction calls as [|c calls IH]; cbn; [lia|]. intros Hpos. destruct (decide (0 < f c)); [by exists 0, c|].
  destruct IH as (i & c' & Hi & Hf); [lia|]. by exists (S i), c'.
Qed.

(** A call that holds something can go on. *)
Lemma holder_goes_on sh calls i c :
  locks_ok sh calls → calls !! i = Some c → 0 < initializes c + reads c + writes c → is_Some (call_step true c sh).
Proof.
  intros (_ & H2 & H3 & _) Hi Hh.
  pose proof (total_lookup reads _ _ _ Hi). pose proof (total_lookup writes _ _ _ Hi).
  destruct c; cbn in *; try lia; repeat (case_match; simplify_eq/=); try done; lia.
Qed.

Lemma goes_on sh calls i c : calls !! i = Some c → is_Some (call_step true c sh) → ∃ s', calls_step true (sh, calls) s'.
Proof. intros Hi [[c' sh'] Hc]. eexists. by eapply step_call. Qed.

Lemma never_stuck sh calls i c :
  locks_ok sh calls → calls !! i = Some c → 0 < steps_left c → ∃ s', calls_step true (sh, calls) s'.
Proof.
  intros Hok Hi Hleft. pose proof Hok as (H1 & H2 & H3 & H4 & _).
  assert (Hhold : 0 < total (λ c, initializes c + reads c + writes c) calls → ∃ s', calls_step true (sh, calls) s').
  { intros (j & cj & Hj & Hpos)%total_pos. by eapply goes_on, holder_goes_on. }
  assert (Hsum : total (λ c, initializes c + reads c + writes c) calls
    = total initializes calls + total reads calls + total writes calls).
  { clear. induction calls as [|c calls IH]; cbn; lia. }
  destruct (decide (0 < total (λ c, initializes c + reads c + writes c) calls)); [by apply Hhold|].
  assert (sh_initializing sh = false ∧ sh_readers sh = 0 ∧ sh_writing sh = false) as (Hi0 & Hr0 & Hw0).
  { destruct (sh_initializing sh), (sh_writing sh); cbn in *; lia || (split_and!; done || lia). }
  destruct (decide (0 < total waits calls)) as [(j & cj & Hj & Hpos)%total_pos|Hno].
  { eapply goes_on; [exact Hj|]. destruct cj; cbn in Hpos; try lia. cbn. by rewrite Hw0, Hr0. }
  assert (sh_waiting sh = 0) as Hwait0 by lia.
  assert (0 < initializes c + reads c + writes c ∨ is_Some (call_step true c sh)) as [?|?]; [| |by eapply goes_on].
  { pose proof (total_lookup waits _ _ _ Hi). destruct c; cbn in *; try lia; try (left; lia); try (right; done).
    - right. rewrite Hi0. by destruct (drm_inited _).
    - right. by rewrite Hw0, Hwait0. }
  by eapply goes_on, holder_goes_on.
Qed.

Lemma total_left_insert calls i c c' : calls !! i = Some c → steps_left c' < steps_left c →
  total steps_left (<[i := c']> calls) < total steps_left calls.
Proof. intros Hi Hlt. pose proof (total_update steps_left _ _ _ c' Hi). lia. Qed.

(** ** What is answered *)

(** A call panics only when there is no static mapper, and [init] is over. *)
Definition call_ok (d : dynamicRESTMapper) (c : drm_call) : Prop :=
  match c with
  | RUnlocking _ (Panicked _) | Unlocking (Panicked _) | Answered (Panicked _) =>
      drm_staticMapper d = None ∧ drm_inited d = true
  | Limiting _ _ | Reloading _ | AskingAgain _ => is_Some (drm_staticMapper d)
  | _ => True
  end.

Definition calls_ok (s : run_state) : Prop :=
  locks_ok s.1 s.2 ∧ Forall (call_ok (sh_drm s.1)) s.2.

Lemma past_inited sh calls i c :
  locks_ok sh calls → calls !! i = Some c → past_init c = 1 → drm_inited (sh_drm sh) = true.
Proof.
  intros (_ & _ & _ & _ & _ & H6 & _) Hi Hp. pose proof (total_lookup past_init _ _ _ Hi).
  destruct (drm_inited _); [done|]. specialize (H6 eq_refl). lia.
Qed.

Lemma setStaticMapper_static d w d' w' err :
  setStaticMapper newMapper d w = (d', w', err) → is_Some (drm_staticMapper d) → is_Some (drm_staticMapper d').
Proof. unfold setStaticMapper. destruct (newMapper w) as [[]]; intros [= <- _ _]; [by eexists|done]. Qed.

(** Nobody is past [init] while its function runs. *)
Lemma initializing_first sh calls i q j x :
  locks_ok sh calls → calls !! i = Some (Initializing q) → calls !! j = Some x → past_init x = 0.
Proof.
  intros (H1 & _ & _ & _ & _ & H6 & H7) Hi Hj. pose proof (total_lookup initializes _ _ _ Hi) as Hl. cbn in Hl.
  destruct (sh_initializing sh); cbn in H1; [|lia]. specialize (H6 (H7 eq_refl)).
  pose proof (total_lookup past_init _ _ _ Hj). lia.
Qed.

(** A step leaves the mapper alone, or is the one in [initOnce], or replaces a
    static mapper. *)
Lemma call_step_mapper b sh calls i c c' sh' :
  locks_ok sh calls → calls !! i = Some c → call_step b c sh = Some (c', sh') → call_ok (sh_drm sh) c →
  sh_drm sh' = sh_drm sh
  ∨ (∀ j x, calls !! j = Some x → past_init x = 0)
  ∨ is_Some (drm_staticMapper (sh_drm sh)) ∧ is_Some (drm_staticMapper (sh_drm sh')).
Proof.
  intros Hok Hi Hc Hcall. destruct c; step_cases Hc; try (by left);
    try (right; left; intros j x; by eapply initializing_first); right; right; cbn in Hcall |- *;
    (split; [done|]); by eapply setStaticMapper_static.
Qed.

Lemma call_step_own b sh calls i c c' sh' :
  locks_ok sh calls → calls !! i = Some c → call_step b c sh = Some (c', sh') → call_ok (sh_drm sh) c →
  call_ok (sh_drm sh') c'.
Proof.
  intros Hok Hi Hc Hcall. pose proof (past_inited _ _ _ _ Hok Hi) as Hin.
  destruct c; step_cases Hc; cbn in Hcall, Hin |- *; unfold ask in *; repeat (case_match; simplify_eq); cbn; try done;
    try (by eexists); try (by split; [|apply Hin]); try (by eapply setStaticMapper_static); try (by destruct Hcall).
Qed.

Lemma calls_step_ok b s s' : calls_step b s s' → calls_ok s → calls_ok s'.
Proof.
  intros [sh calls i c c' sh' Hi Hc] [Hok Hcalls]. unfold calls_ok in *. cbn [fst snd] in *.
  split; [by eapply call_step_locks|].
  rewrite Forall_lookup in Hcalls. pose proof (Hcalls _ _ Hi) as Hown.
  apply Forall_lookup. intros j x [(<- & <- & _)|[Hne Hj]]%list_lookup_insert_Some; [exact (call_step_own _ _ _ _ _ _ _ Hok Hi Hc Hown)|].
  specialize (Hcalls _ _ Hj).
  destruct (call_step_mapper _ _ _ _ _ _ _ Hok Hi Hc Hown) as [->|[Hpast|[[m Hm] Hs]]]; [done|..].
  - specialize (Hpast _ _ Hj). by destruct x.
  - destruct x as [| | | |? []| | | | | | |[]|[]]; cbn in *; try done; destruct Hcalls; congruence.
Qed.

Lemma fresh_ok d w qs : calls_ok (fresh d w qs).
Proof. split; [apply fresh_locks|]. apply Forall_fmap, Forall_true. done. Qed.

Lemma rtc_calls_ok s s' : calls_ok s → rtc (calls_step false) s s' → calls_ok s' ∧ length s'.2 = length s.2.
Proof.
  intros Hok Hsteps. induction Hsteps as [|x y z Hxy _ IH]; [done|]. destruct IH as [? ->]; [by eapply calls_step_ok|].
  split; [done|]. destruct Hxy. cbn. apply length_insert.
Qed.

(** A call whose next step looks at the static mapper, and one whose next step
    replaces it. *)
Definition touches (c : drm_call) : bool :=
  match c with Initializing _ | Reading _ | Checking _ | Reloading _ | AskingAgain _ => true | _ => false end.
Definition replaces (c : drm_call) : bool :=
  match c with Initializing _ | Reloading _ => true | _ => false end.

Lemma replaced_alone sh calls i j c x :
  locks_ok sh calls → calls !! i = Some c → calls !! j = Some x → i ≠ j → replaces c = true → touches x = false.
Proof.
  intros Hok Hi Hj Hne Hc. pose proof Hok as (H1 & H2 & H3 & _ & H5 & _).
  destruct c as [|q| | | | | | | |q| | |]; try done.
  - pose proof (initializing_first _ _ _ _ _ _ Hok Hi Hj) as Hp.
    pose proof (total_two initializes _ _ _ _ _ Hne Hi Hj). destruct x; cbn in *; try done.
    destruct (sh_initializing sh); cbn in H1; lia.
  - pose proof (total_two writes _ _ _ _ _ Hne Hi Hj) as Hw. pose proof (total_lookup reads _ _ _ Hj) as Hr.
    assert (sh_writing sh = true) as Hwr by (destruct (sh_writing sh); cbn in *; [done|lia]).
    specialize (H5 Hwr). rewrite Hwr in H3. cbn in H3, Hw.
    destruct x as [|q'| | | | | | | | | | |]; cbn in *; try done; try lia.
    pose proof (initializing_first _ _ _ _ _ _ Hok Hj Hi) as Hp. done.
Qed.

(** The answer [r] to a question is one a static mapper gave, unless it is an
    error or a panic. *)
Definition answers (q : query) (r : outcome (result A)) : Prop :=
  match r with Returned (Ok a) => ∃ m, q m = Ok a | _ => True end.
Definition call_answers (q : query) (c : drm_call) : Prop :=
  match c with
  | Starting q' | Initializing q' | AtRLock q' | Reading q' | AtLock q' | Waiting q'
  | Checking q' | Limiting q' _ | Reloading q' | AskingAgain q' => q' = q
  | RUnlocking q' r => q' = q ∧ answers q r
  | Unlocking r | Answered r => answers q r
  end.

Lemma ask_answers q d : answers q (ask q d).
Proof. unfold ask. destruct (drm_staticMapper d) as [m|]; [|done]. cbn. destruct (q m) eqn:Hq; [by exists m|done]. Qed.

Lemma call_step_answers b q c sh c' sh' : call_step b c sh = Some (c', sh') → call_answers q c → call_answers q c'.
Proof.
  intros Hc Ha. destruct c as [q'|q'|q'|q'|q' r|q'|q'|q'|q' e|q'|q'|r|r]; cbn in Ha; try discriminate Hc;
    try subst q'; try (step_cases Hc; done).
  - injection Hc as <- <-. split; [done|]. apply ask_answers.
  - destruct Ha as [-> Ha]. step_cases Hc; done.
  - cbn in Hc. injection Hc as <- _. pose proof (ask_answers q (sh_drm sh)) as Hq.
    by destruct (ask q (sh_drm sh)) as [[]|].
  - injection Hc as <- <-. apply ask_answers.
Qed.

Lemma rtc_answers s s' b qs :
  rtc (calls_step b) s s' → Forall2 call_answers qs s.2 → Forall2 call_answers qs s'.2.
Proof.
  induction 1 as [s|s t u Hst _ IH]; [done|]. intros Hs. apply IH.
  destruct Hst as [sh calls i c c' sh' Hi Hc]. cbn in *.
  destruct (Forall2_lookup_r _ _ _ _ _ Hs Hi) as (q & Hq & Ha).
  rewrite <- (list_insert_id qs i q Hq). apply Forall2_insert; [done|]. by eapply call_step_answers.
Qed.

(** C17: however overlapping calls of a mapper interleave - at every lock,
    unlock, question, token and discovery - none waits for ever, and none looks
    at the static mapper while another call replaces it.  Every run ends, after
    at most twelve steps per call; a run that cannot go on has answered every
    call, and left the mutex and [initOnce] free.  A call is answered what a
    static mapper answers to its question, or with an error, or with a panic,
    which happens only when the mapper has no static mapper although [init] is
    over: its lazy discovery failed. *)
Theorem overlapping_calls_all_answered d w qs :
  (∀ n s', nsteps (calls_step false) n (fresh d w qs) s' → n ≤ 12 * length qs) ∧
  (∀ s', rtc (calls_step false) (fresh d w qs) s' →
     (∀ i j c x, s'.2 !! i = Some c → s'.2 !! j = Some x → i ≠ j → replaces c = true → touches x = false) ∧
     ((∃ s'', calls_step true s' s'') ∨
      (sh_initializing s'.1 = false ∧ sh_readers s'.1 = 0 ∧ sh_writing s'.1 = false ∧ sh_waiting s'.1 = 0
       ∧ length s'.2 = length qs ∧ ∀ i c, s'.2 !! i = Some c → ∃ r, c = Answered r ∧
           match r with
           | Returned (Ok a) => ∃ q m, qs !! i = Some q ∧ q m = Ok a
           | Returned (Err _) => True
           | Panicked _ => drm_staticMapper (sh_drm s'.1) = None ∧ drm_inited (sh_drm s'.1) = true
           end))).
Proof.
  split.
  - intros n s' Hn.
    assert (n + total steps_left s'.2 ≤ total steps_left (fresh d w qs).2) as Hle.
    { induction Hn as [s|n s t u [sh calls i c c' sh' Hi Hc] _ IH]; [lia|]. cbn in *.
      pose proof (total_left_insert _ _ _ _ Hi (call_step_left _ _ _ _ _ Hc)). lia. }
    assert (total steps_left (fresh d w qs).2 = 12 * length qs) as Heq; [|lia].
    clear. cbn. induction qs as [|q qs IH]; cbn; [done|]. rewrite IH. lia.
  - intros s' Hrun. destruct (rtc_calls_ok _ _ (fresh_ok d w qs) Hrun) as [[Hok Hcalls] Hlen].
    assert (Forall2 call_answers qs s'.2) as Hans.
    { apply (rtc_answers (fresh d w qs) s' false); [exact Hrun|]. cbn. clear. induction qs; by constructor. }
    destruct s' as [sh calls]. cbn in *. rewrite length_fmap in Hlen.
    split; [intros i j c x Hi Hj; by eapply replaced_alone|].
    destruct (decide (0 < total steps_left calls)) as [(i & c & Hi & Hpos)%total_pos|Hno].
    { left. by eapply never_stuck. }
    right.
    assert (Hend : ∀ i c, calls !! i = Some c → ∃ r, c = Answered r).
    { intros i c Hi. pose proof (total_lookup steps_left _ _ _ Hi). destruct c; cbn in *; try lia. by eexists. }
    assert (Hzero : ∀ f, (∀ r, f (Answered r) = 0) → total f calls = 0).
    { intros f Hf. destruct (decide (0 < total f calls)) as [(i & c & Hi & Hpos)%total_pos|]; [|lia].
      destruct (Hend _ _ Hi) as [r ->]. rewrite Hf in Hpos. lia. }
    destruct Hok as (H1 & H2 & H3 & H4 & _). rewrite !Hzero in * by done.
    split; [by destruct (sh_initializing sh)|]. split; [done|]. split; [by destruct (sh_writing sh)|].
    split; [done|]. split; [done|]. intros i c Hi. destruct (Hend _ _ Hi) as [r ->]. exists r. split; [done|].
    rewrite Forall_lookup in Hcalls. specialize (Hcalls _ _ Hi).
    destruct (Forall2_lookup_r _ _ _ _ _ Hans Hi) as (q & Hq & Ha).
    destruct r as [[a|e]|msg]; [|done|done]. destruct Ha as [m Hm]. by exists q, m.
Qed.

(** ** One call alone is the method *)

Fixpoint run_alone (n : nat) (c : drm_call) (sh : shared) : drm_call * shared :=
  match n with
  | 0 => (c, sh)
  | S n =>
      match call_step true c sh with
      | Some (c, sh) => run_alone n c sh
      | None => (c, sh)
      end
  end.

Definition free_mapper (d : dynamicRESTMapper) (w : W) (reloads : nat) : shared :=
  mkShared d w false 0 false 0 reloads.

(** [checkAndReload] from the read lock on. *)
Lemma alone_checkAndReload q d w k :
  let '(d', w', r) := checkAndReload Allow newMapper q d w in
  ∃ k', run_alone 10 (AtRLock q) (free_mapper d w k) = (Answered r, free_mapper d' w' k').
Proof.
  unfold checkAndReload, reload_section. destruct (ask q d) as [[a|e]|msg] eqn:Ha; cbn; rewrite ?Ha; cbn.
  - by eexists.
  - rewrite Ha. cbn. destruct (Allow w) as [[] w1] eqn:Hl; cbn; [|by eexists].
    destruct (setStaticMapper newMapper d w1) as [[d2 w2] [err|]] eqn:Hs; cbn; by eexists.
  - by eexists.
Qed.

Lemma run_alone_answered n r sh : run_alone n (Answered r) sh = (Answered r, sh).
Proof. by destruct n. Qed.

Lemma run_alone_more n m c sh r sh' :
  run_alone n c sh = (Answered r, sh') → run_alone (n + m) c sh = (Answered r, sh').
Proof.
  revert c sh. induction n as [|n IH]; intros c sh; cbn; [intros [= -> ->]; apply run_alone_answered|].
  destruct (call_step true c sh) as [[c1 sh1]|]; [apply IH|done].
Qed.

Lemma run_alone_S n c sh c1 sh1 :
  call_step true c sh = Some (c1, sh1) → run_alone (S n) c sh = run_alone n c1 sh1.
Proof. intros Hc. cbn [run_alone]. by rewrite Hc. Qed.

(** A call that nobody disturbs does what the method does, and leaves the locks
    free. *)
Theorem alone_is_the_method q d w :
  let '(d', w', r) := drm_method Allow newMapper q d w in
  ∃ k, run_alone 12 (Starting q) (free_mapper d w 0) = (Answered r, free_mapper d' w' k).
Proof.
  unfold drm_method. destruct (drm_init newMapper d w) as [[d1 w1] err] eqn:Hinit.
  destruct (drm_inited d) eqn:Hi.
  - unfold drm_init in Hinit. rewrite Hi in Hinit. injection Hinit as <- <- <-.
    pose proof (alone_checkAndReload q d w 0) as Hc.
    destruct (checkAndReload _ _ q d w) as [[d' w'] r]. destruct Hc as [k Hc]. exists k.
    rewrite (run_alone_S 11 _ _ (AtRLock q) (free_mapper d w 0)) by (cbn; by rewrite Hi).
    by apply (run_alone_more 10 1).
  - rewrite (run_alone_S 11 _ _ (Initializing q) (set_once d w true (free_mapper d w 0))) by (cbn; by rewrite Hi).
    rewrite (run_alone_S 10 _ _ (match err with Some e => Answered (Returned (Err e)) | None => AtRLock q end)
      (free_mapper d1 w1 0)) by (cbn; by rewrite Hinit).
    destruct err as [e|]; [exists 0; apply run_alone_answered|].
    pose proof (alone_checkAndReload q d1 w1 0) as Hc.
    destruct (checkAndReload _ _ q d1 w1) as [[d' w'] r]. exact Hc.
Qed.

(** ** How often the API server is asked *)

(** [budget w] bounds the tokens the limiter still gives away. *)
Definition limits (budget : W → nat) : Prop :=
  (∀ w w', Allow w = (true, w') → S (budget w') ≤ budget w)
  ∧ (∀ w w', Allow w = (false, w') → budget w' ≤ budget w)
  ∧ (∀ w r w', newMapper w = (r, w') → budget w' ≤ budget w).

(** Calls with a token in hand. *)
Definition has_token (c : drm_call) : nat := match c with Reloading _ => 1 | _ => 0 end.

Lemma setStaticMapper_budget budget d w d' w' err :
  limits budget → setStaticMapper newMapper d w = (d', w', err) → budget w' ≤ budget w.
Proof.
  intros (_ & _ & Hn). unfold setStaticMapper. destruct (newMapper w) as [[] w1] eqn:Hw; intros [= <- <- <-]; by eapply Hn.
Qed.

Lemma drm_init_budget budget d w d' w' err :
  limits budget → drm_init newMapper d w = (d', w', err) → budget w' ≤ budget w.
Proof.
  intros Hl. unfold drm_init. destruct (drm_inited d); [by intros [= <- <- <-]|].
  destruct (drm_lazy d); [by apply setStaticMapper_budget|by intros [= <- <- <-]].
Qed.

Definition spent (budget : W → nat) (s : run_state) : nat :=
  sh_reloads s.1 + total has_token s.2 + budget (sh_world s.1).

Lemma calls_step_budget b budget s s' : limits budget → calls_step b s s' → spent budget s' ≤ spent budget s.
Proof.
  intros Hl [sh calls i c c' sh' Hi Hc]. unfold spent. cbn [fst snd].
  pose proof (total_update has_token _ _ _ c' Hi). pose proof Hl as (Ht & Hf & _).
  destruct c; step_cases Hc; cbn in *; try lia;
    repeat match goal with
    | H : setStaticMapper _ _ _ = _ |- _ => apply (setStaticMapper_budget _ _ _ _ _ _ Hl) in H
    | H : drm_init _ _ _ = _ |- _ => apply (drm_init_budget _ _ _ _ _ _ Hl) in H
    | H : Allow _ = (true, _) |- _ => apply Ht in H
    | H : Allow _ = (false, _) |- _ => apply Hf in H
    end; lia.
Qed.

(** What a call still asks, and mappers with an answer to all of it. *)
Definition call_query (c : drm_call) : option query :=
  match c with
  | Starting q | Initializing q | AtRLock q | Reading q | RUnlocking q _ | AtLock q | Waiting q
  | Checking q | Limiting q _ | Reloading q | AskingAgain q => Some q
  | Unlocking _ | Answered _ => None
  end.
Definition all_known (m : StaticMapper) (calls : list drm_call) : Prop :=
  ∀ i c q, calls !! i = Some c → call_query c = Some q → is_ok (q m) = true.
Definition discovery_knows (calls : list drm_call) : Prop :=
  ∀ w r w', newMapper w = (r, w') → ∃ m, r = Ok m ∧ all_known m calls.

Lemma call_step_query b c sh c' sh' q :
  call_step b c sh = Some (c', sh') → call_query c' = Some q → call_query c = Some q.
Proof. intros Hc. destruct c; step_cases Hc; cbn; intros; congruence. Qed.

Lemma all_known_insert m calls i c c' :
  all_known m calls → calls !! i = Some c →
  (∀ q, call_query c' = Some q → call_query c = Some q) → all_known m (<[i := c']> calls).
Proof.
  intros Hk Hi Hq j x q [(<- & <- & _)|[_ Hj]]%list_lookup_insert_Some Hx; [|by eapply Hk].
  by eapply Hk, Hq.
Qed.

(** The error a call is about to reload for is that of the static mapper; and
    once one reload answers all calls, no other is made. *)
Definition stale_ok (d : dynamicRESTMapper) (c : drm_call) : Prop :=
  match c with
  | Limiting q _ | Reloading q => ∃ m, drm_staticMapper d = Some m ∧ is_ok (q m) = false
  | _ => True
  end.

Definition settled (s : run_state) : Prop :=
  Forall (stale_ok (sh_drm s.1)) s.2
  ∧ (sh_reloads s.1 = 0 ∨ sh_reloads s.1 = 1 ∧ drm_inited (sh_drm s.1) = true
       ∧ ∃ m, drm_staticMapper (sh_drm s.1) = Some m ∧ all_known m s.2).

(** Only one call at a time is past its double check. *)
Lemma one_writer sh calls i j c x :
  locks_ok sh calls → calls !! i = Some c → calls !! j = Some x → i ≠ j → writes c = 1 → writes x = 0.
Proof.
  intros (_ & _ & H3 & _) Hi Hj Hne Hc. pose proof (total_two writes _ _ _ _ _ Hne Hi Hj).
  destruct (sh_writing sh); cbn in H3; lia.
Qed.

Lemma call_step_stale b sh calls i c c' sh' :
  locks_ok sh calls → calls !! i = Some c → call_step b c sh = Some (c', sh') → Forall (stale_ok (sh_drm sh)) calls →
  Forall (stale_ok (sh_drm sh')) (<[i := c']> calls).
Proof.
  intros Hok Hi Hc Hst. rewrite Forall_lookup in Hst. pose proof (Hst _ _ Hi) as Hown.
  apply Forall_lookup. intros j x [(<- & <- & _)|[Hne Hj]]%list_lookup_insert_Some.
  - destruct c; step_cases Hc; try done. cbn. unfold ask in *. destruct (drm_staticMapper _) as [m|]; [|done].
    exists m. split; [done|]. simplify_eq. by match goal with H : _ m = Err _ |- _ => rewrite H end.
  - specialize (Hst _ _ Hj). pose proof (one_writer sh calls i j c x Hok Hi Hj Hne) as Hw.
    destruct c; step_cases Hc; try done; try (pose proof (initializing_first _ _ _ _ _ _ Hok Hi Hj));
      try (specialize (Hw eq_refl)); by destruct x.
Qed.

(** Only [init] and a reload touch the mapper. *)
Lemma call_step_quiet b c sh c' sh' :
  call_step b c sh = Some (c', sh') →
  (∃ q, c = Reloading q) ∨ (∃ q, c = Initializing q) ∧ sh_reloads sh' = sh_reloads sh
  ∨ sh_drm sh' = sh_drm sh ∧ sh_reloads sh' = sh_reloads sh.
Proof.
  intros Hc. destruct c; try discriminate Hc; try (left; by eexists); right;
    try (left; split; [by eexists|]); try right;
    step_cases Hc; done.
Qed.

Lemma calls_step_settled b s s' :
  calls_step b s s' → locks_ok s.1 s.2 → discovery_knows s.2 → settled s →
  discovery_knows s'.2 ∧ settled s'.
Proof.
  intros [sh calls i c c' sh' Hi Hc] Hok Hdk [Hst Hset]. cbn [fst snd] in *.
  pose proof (λ q, call_step_query _ _ _ _ _ q Hc) as Hq.
  assert (Hins : ∀ m, all_known m calls → all_known m (<[i := c']> calls))
    by (intros m Hk; by eapply all_known_insert).
  split.
  { intros w r w' Hn. destruct (Hdk _ _ _ Hn) as (m & -> & Hk). eexists. split; [done|]. by apply Hins. }
  split; [by eapply call_step_stale|]. cbn [fst snd].
  pose proof (past_inited _ _ _ _ Hok Hi) as Hin. rewrite Forall_lookup in Hst. pose proof (Hst _ _ Hi) as Hown.
  destruct Hset as [H0|(H1 & Hinit & m & Hm & Hk)];
    destruct (call_step_quiet _ _ _ _ _ Hc) as [[q ->]|[[[q ->] Hr]|[Hd Hr]]]; try (left; congruence).
  - right. specialize (Hin eq_refl). clear Hst. cbn in Hc. unfold setStaticMapper in Hc.
    destruct (newMapper _) as [r w1] eqn:Hn. destruct (Hdk _ _ _ Hn) as (m & -> & Hk).
    injection Hc as <- <-. cbn. rewrite H0. split; [done|]. split; [exact Hin|].
    exists m. split; [done|]. by apply Hins.
  - exfalso. destruct Hown as (m' & Hm' & Hno). rewrite Hm in Hm'. injection Hm' as <-.
    by rewrite (Hk _ _ _ Hi eq_refl) in Hno.
  - exfalso. destruct Hok as (Ho1 & _ & _ & _ & _ & _ & Ho7). pose proof (total_lookup initializes _ _ _ Hi) as Hl.
    cbn in Hl. destruct (sh_initializing sh); cbn in Ho1; [|lia]. by rewrite Ho7 in Hinit.
  - right. rewrite Hr, Hd. split_and!; [done..|]. exists m. split; [done|]. by apply Hins.
Qed.

(** The limiter bounds the discoveries [checkAndReload] makes: along every run of
    overlapping calls, discoveries made and tokens left are together at most
    the tokens there were; and if discovery never fails and every static
    mapper it gives answers all the calls, the calls make at most one
    discovery together, because each of them looks again once it holds the
    write lock. *)
Theorem overlapping_calls_bound_reloads budget d w qs s' :
  limits budget → rtc (calls_step false) (fresh d w qs) s' →
  sh_reloads s'.1 + budget (sh_world s'.1) ≤ budget w
  ∧ (discovery_knows (Starting <$> qs) → sh_reloads s'.1 ≤ 1).
Proof.
  intros Hl Hrun. split.
  - assert (spent budget s' ≤ spent budget (fresh d w qs)) as Hle.
    { clear -Hl Hrun. induction Hrun as [s|s t u Hst _ IH]; [done|].
      pose proof (calls_step_budget _ _ _ _ Hl Hst). lia. }
    assert (total has_token (Starting <$> qs) = 0) as H0 by (clear; induction qs; cbn; done).
    unfold spent in Hle. cbn in Hle. lia.
  - intros Hdk.
    assert (Hset : settled (fresh d w qs)) by (split; [by apply Forall_fmap, Forall_true|by left]).
    assert (Hok : calls_ok (fresh d w qs)) by apply fresh_ok.
    change (discovery_knows (fresh d w qs).2) in Hdk.
    cut (settled s'); [intros [_ [?|[? _]]]; lia|].
    induction Hrun as [s|s t u Hst _ IH]; [done|].
    destruct (calls_step_settled _ _ _ Hst (proj1 Hok) Hdk Hset). apply IH; [done..|]. by eapply calls_step_ok.
Qed.
End calls.
Arguments drm_call : clear implicits.
Arguments shared : clear implicits.

(** ** Concrete inputs *)

(** Two calls of the mapper of [RestMapper] that does not know the kind yet. *)
Definition two_calls : shared nat * list (drm_call RESTMapping) := fresh drm_before 3 [ask_web; ask_web].

(** Calls go on by number. *)
Fixpoint schedule (order : list nat) (s : shared nat * list (drm_call RESTMapping)) :
    option (shared nat * list (drm_call RESTMapping)) :=
  match order with
  | [] => Some s
  | i :: order =>
      match s.2 !! i with
      | Some c =>
          match call_step tokens_Allow tokens_newMapper false c s.1 with
          | Some (c, sh) => schedule order (sh, <[i := c]> s.2)
          | None => None
          end
      | None => None
      end
  end.

Lemma schedule_runs order s s' :
  schedule order s = Some s' → rtc (calls_step tokens_Allow tokens_newMapper false) s s'.
Proof.
  revert s. induction order as [|i order IH]; intros [sh calls] Hs; cbn in Hs; [by simplify_eq|].
  destruct (calls !! i) as [c|] eqn:Hi; [|done].
  destruct (call_step tokens_Allow tokens_newMapper false c sh) as [[c' sh']|] eqn:Hc; [|done].
  eapply rtc_l; [by econstructor|]. by apply IH.
Qed.

(** Both calls find the static mapper stale; the first discovers while the
    second waits, and the second is answered without a token. *)
Definition one_discovers : list nat :=
  [0; 0; 1; 0; 1; 0; 1; 0; 1; 0; 1; 0; 0; 0; 0; 0; 0; 1; 1; 1].

Lemma one_discovers_ends :
  schedule one_discovers two_calls
  = Some (mkShared (mkDRM (Some static_after) false true) 2 false 0 false 0 1,
          [Answered (Returned (Ok web_mapping)); Answered (Returned (Ok web_mapping))]).
Proof. vm_compute. reflexivity. Qed.

Lemma overlapping_calls_all_answered_witness :
  ∃ s', schedule one_discovers two_calls = Some s' ∧ sh_writing s'.1 = false ∧ sh_readers s'.1 = 0 ∧
    ∀ i c, s'.2 !! i = Some c → ∃ r, c = Answered r.
Proof.
  destruct (overlapping_calls_all_answered tokens_Allow tokens_newMapper drm_before 3 [ask_web; ask_web]) as [_ Hend].
  eexists. split; [exact one_discovers_ends|].
  destruct (Hend _ (schedule_runs _ _ _ one_discovers_ends)) as [_ [[s3 Hs]|(_ & Hr & Hw & _ & _ & Hall)]].
  - exfalso. inversion Hs as [sh calls i c c' sh' Hi Hc]. subst. destruct i as [|[|i]]; cbn in Hi; simplify_eq.
  - split; [exact Hw|]. split; [exact Hr|]. intros i c Hi. destruct (Hall i c Hi) as (r & Hc & _). by exists r.
Defined.

Lemma overlapping_calls_bound_reloads_witness :
  ∃ s', schedule one_discovers two_calls = Some s' ∧ sh_reloads s'.1 + sh_world s'.1 ≤ 3.
Proof.
  eexists. split; [exact one_discovers_ends|].
  apply (overlapping_calls_bound_reloads tokens_Allow tokens_newMapper (λ w, w) drm_before 3 [ask_web; ask_web]);
    [|exact (schedule_runs _ _ _ one_discovers_ends)].
  split_and!.
  - intros [|w] w'; cbn; intros [= <-]; lia.
  - intros [|w] w'; cbn; intros [=]; subst; lia.
  - intros w r w' [= _ <-]. lia.
Defined.
