(* ===== verification/RestClient.v ===== *)
(** * The client that talks to the API server

    [client.New] (src/pkg/client/client.go) and the three clients behind it:
    for Go types, for unstructured objects and for metadata only
    (typed_client.go, unstructured_client.go, metadata_client.go), the cache of
    REST clients and mappings they share (client_cache.go), the configuration
    of a REST client (apiutil/apimachinery.go) and the client that watches
    (watch.go).  A call builds a [RestRequest] with the calls of client-go's
    request builder; the API server behind client-go, the decoding of its
    answers and client-go's metadata client are the class RestAPI. *)

From S2P Require Export RestMapper Client.

(** ** Requests *)

(** A [rest.Config]: the fields the code reads or writes, and the rest. *)
Inductive NegotiatedSerializer :=
  | BaseSerializer (name : string)
  | WithoutConversionCodecFactory
  | serializerWithDecodedGVK.

Record RestConfig := mkConfig {
  cfg_GroupVersion : option GroupVersion;
  cfg_APIPath : string;
  cfg_UserAgent : string;
  cfg_ContentType : string;
  cfg_NegotiatedSerializer : option NegotiatedSerializer;
  cfg_rest : string;
}.

#[export] Instance NegotiatedSerializer_eq_dec : EqDecision NegotiatedSerializer.
Proof. solve_decision. Defined.
#[export] Instance RestConfig_eq_dec : EqDecision RestConfig.
Proof. solve_decision. Defined.

Inductive Verb := Post | Put | Delete_ | Patch_type (type : string) | Get_.

(** Which codec turns the options of a call into parameters of its URL: that
    of the scheme or the one without conversion (codec.go). *)
Inductive ParamCodec := SchemeParamCodec | noConversionParamCodec.

Inductive Params :=
  | CreateParams (o : RawCreateOptions)
  | UpdateParams (o : RawUpdateOptions)
  | PatchParams (o : RawPatchOptions)
  | ListParams (o : RawListOptions).

Inductive Body :=
  | ObjectBody (o : Object)
  | DeleteBody (o : RawDeleteOptions)
  | DataBody (data : string).

Record RestRequest := mkRequest {
  rq_Verb : Verb;
  rq_Namespace : option string;
  rq_Resource : string;
  rq_Name : option string;
  rq_SubResource : option string;
  rq_Params : option (ParamCodec * Params);
  rq_Body : option Body;
}.

(** [NamespaceIfScoped]. *)
Definition NamespaceIfScoped (ns : string) (isNamespaced : bool) : option string :=
  if isNamespaced then Some ns else None.

(** A call of client-go's metadata client on a resource, and in a namespace
    when [Namespace] was called. *)
Inductive MetadataCall :=
  | MDelete (name : string) (o : RawDeleteOptions)
  | MDeleteCollection (o : RawDeleteOptions) (l : RawListOptions)
  | MPatch (name type data : string) (o : RawPatchOptions) (subresources : list string)
  | MGet (name : string)
  | MList (l : RawListOptions)
  | MWatch (l : RawListOptions).

Record MetadataRequest := mkMetadataRequest {
  mrq_Resource : GVR;
  mrq_Namespace : option string;
  mrq_Call : MetadataCall;
}.

(** The API server seen through client-go.  [rest_Do] sends a request of a
    client made from a configuration; [Into] decodes the answer into an
    object, which a failing decoder may leave half written. *)
Class RestAPI (W : Type) := {
  ContentTypeProtobuf : string;
  DefaultKubernetesUserAgent : string;
  protobufScheme_Recognizes : GVK → bool;
  RESTClientFor : RestConfig → option error;
  rest_Do : RestConfig → RestRequest → W → result string * W;
  Into : RestConfig → string → Object → Object * option error;
  Into_list : RestConfig → string → ObjectList → ObjectList * option error;
  metadata_Do : MetadataRequest → W → option error * W;
  metadata_Object : MetadataRequest → W → result Object * W;
  metadata_List : MetadataRequest → W → result ObjectList * W;
  IsListType : GoType → bool;
  (** Does a Go type have [SetGroupVersionKind] itself, as the types that
      embed [metav1.TypeMeta] do? *)
  typed_ObjectKind : string → bool;
}.

(** ** Configurations of REST clients (apimachinery.go) *)

Section config.
Context `{RestAPI W}.

Definition createRestConfig (gvk : GVK) (isUnstructured : bool) (baseConfig : RestConfig) : RestConfig :=
  let path := if decide (gvk_Group gvk = "") then "/api" else "/apis" in
  let agent := if decide (cfg_UserAgent baseConfig = "") then DefaultKubernetesUserAgent
               else cfg_UserAgent baseConfig in
  let contentType :=
    if decide (cfg_ContentType baseConfig = "" ∧ isUnstructured = false
               ∧ protobufScheme_Recognizes gvk = true)
    then ContentTypeProtobuf else cfg_ContentType baseConfig in
  let serializer :=
    match cfg_NegotiatedSerializer baseConfig with
    | Some s => s
    | None => if isUnstructured then serializerWithDecodedGVK else WithoutConversionCodecFactory
    end in
  mkConfig (Some (gvk_GroupVersion gvk)) path agent contentType (Some serializer) (cfg_rest baseConfig).

Definition RESTClientForGVK (gvk : GVK) (isUnstructured : bool) (baseConfig : RestConfig)
    : result RestConfig :=
  let cfg := createRestConfig gvk isUnstructured baseConfig in
  match RESTClientFor cfg with
  | Some e => Err e
  | None => Ok cfg
  end.
End config.

(** ** The state of a client *)

(** What raw options point to. *)
Record RawHeaps := mkHeaps {
  h_create : gmap loc RawCreateOptions;
  h_update : gmap loc RawUpdateOptions;
  h_patch : gmap loc RawPatchOptions;
  h_delete : gmap loc RawDeleteOptions;
  h_list : gmap loc RawListOptions;
}.

(** [resourceMeta]: the REST client, given by its configuration, the kind and
    the mapping. *)
Record resourceMeta := mkResourceMeta {
  rme_Interface : RestConfig;
  rme_gvk : GVK;
  rme_mapping : RESTMapping;
}.

#[export] Instance resourceMeta_eq_dec : EqDecision resourceMeta.
Proof. solve_decision. Defined.

Definition rme_isNamespaced (r : resourceMeta) : bool :=
  bool_decide (mapping_Scope (rme_mapping r) ≠ ScopeRoot).
Definition rme_resource (r : resourceMeta) : string := gvr_Resource (mapping_Resource (rme_mapping r)).

(** The maps of a [clientCache], the memory of the options and the world. *)
Record RestState (W : Type) := mkState {
  st_structuredResourceByType : gmap GVK resourceMeta;
  st_unstructuredResourceByType : gmap GVK resourceMeta;
  st_heaps : RawHeaps;
  st_world : W;
}.
Arguments mkState {W} _ _ _ _.
Arguments st_structuredResourceByType {W} _.
Arguments st_unstructuredResourceByType {W} _.
Arguments st_heaps {W} _.
Arguments st_world {W} _.

(** A mapper, which may ask the API server (the dynamic one of RestMapper). *)
Definition Mapper (W : Type) : Type := GroupKind → list string → W → result RESTMapping * W.

(** The parts of a [client] that do not change: the [config], [scheme] and
    [mapper] of its cache. *)
Record restClient (W : Type) := mkClient {
  rc_config : RestConfig;
  rc_scheme : Scheme;
  rc_mapper : Mapper W;
}.
Arguments mkClient {W} _ _ _.
Arguments rc_config {W} _.
Arguments rc_scheme {W} _.
Arguments rc_mapper {W} _.

Section client.
Context `{RestAPI W}.
Implicit Types (c : restClient W) (s : RestState W) (obj : Object) (l : ObjectList).

Definition set_world s (w : W) : RestState W :=
  mkState (st_structuredResourceByType s) (st_unstructuredResourceByType s) (st_heaps s) w.
Definition set_heaps s (h : RawHeaps) : RestState W :=
  mkState (st_structuredResourceByType s) (st_unstructuredResourceByType s) h (st_world s).

Definition resourceByType s (isUnstructured : bool) : gmap GVK resourceMeta :=
  if isUnstructured then st_unstructuredResourceByType s else st_structuredResourceByType s.
Definition insert_resource s (isUnstructured : bool) (gvk : GVK) (r : resourceMeta) : RestState W :=
  if isUnstructured
  then mkState (st_structuredResourceByType s) (<[gvk := r]> (st_unstructuredResourceByType s))
         (st_heaps s) (st_world s)
  else mkState (<[gvk := r]> (st_structuredResourceByType s)) (st_unstructuredResourceByType s)
         (st_heaps s) (st_world s).

(** [gvk.Kind[:len(gvk.Kind)-4]] when the kind ends in [List]. *)
Definition trim_List (gvk : GVK) : GVK :=
  mkGVK (gvk_Group gvk) (gvk_Version gvk) (TrimSuffix (gvk_Kind gvk) "List").

Definition newResource c (gvk : GVK) (isList isUnstructured : bool) (w : W) : result resourceMeta * W :=
  let gvk := if HasSuffix (gvk_Kind gvk) "List" && isList then trim_List gvk else gvk in
  match RESTClientForGVK gvk isUnstructured (rc_config c) with
  | Err e => (Err e, w)
  | Ok client =>
      match rc_mapper c (gvk_GroupKind gvk) [gvk_Version gvk] w with
      | (Err e, w) => (Err e, w)
      | (Ok mapping, w) => (Ok (mkResourceMeta client gvk mapping), w)
      end
  end.

Definition getResource_of c (t : GoType) (own : GVK) s : result resourceMeta * RestState W :=
  match GVKForObject_of t own (rc_scheme c) with
  | Err e => (Err e, s)
  | Ok gvk =>
      let isUnstructured := is_unstructured t in
      match resourceByType s isUnstructured !! gvk with
      | Some r => (Ok r, s)
      | None =>
          match newResource c gvk (IsListType t) isUnstructured (st_world s) with
          | (Err e, w) => (Err e, set_world s w)
          | (Ok r, w) => (Ok r, insert_resource (set_world s w) isUnstructured gvk r)
          end
      end
  end.

Definition getResource c obj := getResource_of c (o_type obj) (o_gvk obj).
Definition getResource_list c l := getResource_of c (ol_type l) (ol_gvk l).

(** [getObjMeta]: with the accessor of the object's metadata, which every
    [client.Object] is itself. *)
Definition getObjMeta c obj s : result (resourceMeta * Object) * RestState W :=
  match getResource c obj s with
  | (Err e, s) => (Err e, s)
  | (Ok r, s) => (Ok (r, obj), s)
  end.

(** ** Options on the wire

    [AsCreateOptions] and its siblings: the struct the call sends, written
    through the raw pointer of the options. *)
Definition as_create (o : CreateOptions) s : RawCreateOptions * RestState W :=
  let hs := st_heaps s in
  let '(_, l, h) := AsCreateOptions (h_create hs) (Some o) in
  (default (mkRawCreate None "" "") (h !! l),
   set_heaps s (mkHeaps h (h_update hs) (h_patch hs) (h_delete hs) (h_list hs))).
Definition as_update (o : UpdateOptions) s : RawUpdateOptions * RestState W :=
  let hs := st_heaps s in
  let '(_, l, h) := AsUpdateOptions (h_update hs) (Some o) in
  (default (mkRawUpdate None "" "") (h !! l),
   set_heaps s (mkHeaps (h_create hs) h (h_patch hs) (h_delete hs) (h_list hs))).
Definition as_patch (o : PatchOptions) s : RawPatchOptions * RestState W :=
  let hs := st_heaps s in
  let '(_, l, h) := AsPatchOptions (h_patch hs) (Some o) in
  (default (mkRawPatch None None "" "") (h !! l),
   set_heaps s (mkHeaps (h_create hs) (h_update hs) h (h_delete hs) (h_list hs))).
Definition as_delete (o : DeleteOptions) s : RawDeleteOptions * RestState W :=
  let hs := st_heaps s in
  let '(_, l, h) := AsDeleteOptions (h_delete hs) (Some o) in
  (default (mkRawDelete None None None None "") (h !! l),
   set_heaps s (mkHeaps (h_create hs) (h_update hs) (h_patch hs) h (h_list hs))).
Definition as_list (o : ListOptions) s : RawListOptions * RestState W :=
  let hs := st_heaps s in
  let '(_, l, h) := AsListOptions (h_list hs) (Some o) in
  (default (mkRawList "" "" false 0 "" "") (h !! l),
   set_heaps s (mkHeaps (h_create hs) (h_update hs) (h_patch hs) (h_delete hs) h)).

Definition zero_create : CreateOptions := mkCreateOptions None "" None.
Definition zero_update : UpdateOptions := mkUpdateOptions None "" None.
Definition zero_patch : PatchOptions := mkPatchOptions None None "" None.
Definition zero_delete : DeleteOptions := mkDeleteOptions None None None None None.
Definition zero_list : ListOptions := mkListOptions None None "" 0 "" None.
Definition zero_deleteAllOf : DeleteAllOfOptions := mkDeleteAllOfOptions zero_list zero_delete.

(** [.Do(ctx).Into(obj)] and [.Do(ctx).Error()]. *)
Definition do_into (cfg : RestConfig) (rq : RestRequest) obj s : Object * RestState W * option error :=
  match rest_Do cfg rq (st_world s) with
  | (Err e, w) => (obj, set_world s w, Some e)
  | (Ok body, w) => let '(obj, err) := Into cfg body obj in (obj, set_world s w, err)
  end.
Definition do_into_list (cfg : RestConfig) (rq : RestRequest) l s
    : ObjectList * RestState W * option error :=
  match rest_Do cfg rq (st_world s) with
  | (Err e, w) => (l, set_world s w, Some e)
  | (Ok body, w) => let '(l, err) := Into_list cfg body l in (l, set_world s w, err)
  end.
Definition do_error (cfg : RestConfig) (rq : RestRequest) s : RestState W * option error :=
  match rest_Do cfg rq (st_world s) with
  | (Err e, w) => (set_world s w, Some e)
  | (Ok _, w) => (set_world s w, None)
  end.

(** The requests both clients make of an object, or of a kind of objects,
    whose resource is [r]. *)
Definition create_request (codec : ParamCodec) (r : resourceMeta) obj (p : RawCreateOptions) : RestRequest :=
  mkRequest Post (NamespaceIfScoped (GetNamespace obj) (rme_isNamespaced r)) (rme_resource r)
    None None (Some (codec, CreateParams p)) (Some (ObjectBody obj)).
Definition update_request (codec : ParamCodec) (sub : option string) (r : resourceMeta) obj
    (p : RawUpdateOptions) : RestRequest :=
  mkRequest Put (NamespaceIfScoped (GetNamespace obj) (rme_isNamespaced r)) (rme_resource r)
    (Some (GetName obj)) sub (Some (codec, UpdateParams p)) (Some (ObjectBody obj)).
Definition delete_request (r : resourceMeta) obj (p : RawDeleteOptions) : RestRequest :=
  mkRequest Delete_ (NamespaceIfScoped (GetNamespace obj) (rme_isNamespaced r)) (rme_resource r)
    (Some (GetName obj)) None None (Some (DeleteBody p)).
Definition deleteAllOf_request (codec : ParamCodec) (r : resourceMeta) (ns : string)
    (p : RawListOptions) (d : RawDeleteOptions) : RestRequest :=
  mkRequest Delete_ (NamespaceIfScoped ns (rme_isNamespaced r)) (rme_resource r)
    None None (Some (codec, ListParams p)) (Some (DeleteBody d)).
Definition patch_request (codec : ParamCodec) (sub : option string) (r : resourceMeta) obj
    (type data : string) (p : RawPatchOptions) : RestRequest :=
  mkRequest (Patch_type type) (NamespaceIfScoped (GetNamespace obj) (rme_isNamespaced r)) (rme_resource r)
    (Some (GetName obj)) sub (Some (codec, PatchParams p)) (Some (DataBody data)).
Definition get_request (r : resourceMeta) (key : NamespacedName) : RestRequest :=
  mkRequest Get_ (NamespaceIfScoped (nn_Namespace key) (rme_isNamespaced r)) (rme_resource r)
    (Some (nn_Name key)) None None None.
Definition list_request (codec : ParamCodec) (r : resourceMeta) (ns : string)
    (p : RawListOptions) : RestRequest :=
  mkRequest Get_ (NamespaceIfScoped ns (rme_isNamespaced r)) (rme_resource r)
    None None (Some (codec, ListParams p)) None.

(** ** The client for Go types *)

Definition typed_Create c (opts : list CreateOption) : ObjCall (RestState W) := λ obj s,
  match getObjMeta c obj s with
  | (Err e, s) => (obj, s, Some e)
  | (Ok (r, o), s) =>
      let '(p, s) := as_create (CreateOptions_ApplyOptions opts zero_create) s in
      do_into (rme_Interface r) (create_request SchemeParamCodec r o p) obj s
  end.

Definition typed_put c (sub : option string) (opts : list UpdateOption) : ObjCall (RestState W) := λ obj s,
  match getObjMeta c obj s with
  | (Err e, s) => (obj, s, Some e)
  | (Ok (r, o), s) =>
      let '(p, s) := as_update (UpdateOptions_ApplyOptions opts zero_update) s in
      do_into (rme_Interface r) (update_request SchemeParamCodec sub r o p) obj s
  end.
Definition typed_Update c := typed_put c None.
Definition typed_UpdateStatus c := typed_put c (Some "status").

Definition typed_Delete c (opts : list DeleteOption) : ObjCall (RestState W) := λ obj s,
  match getObjMeta c obj s with
  | (Err e, s) => (obj, s, Some e)
  | (Ok (r, o), s) =>
      let '(p, s) := as_delete (DeleteOptions_ApplyOptions opts zero_delete) s in
      let '(s, err) := do_error (rme_Interface r) (delete_request r o p) s in
      (obj, s, err)
  end.

Definition typed_DeleteAllOf c (opts : list DeleteAllOfOption) : ObjCall (RestState W) := λ obj s,
  match getObjMeta c obj s with
  | (Err e, s) => (obj, s, Some e)
  | (Ok (r, _), s) =>
      let deleteAllOfOpts := DeleteAllOfOptions_ApplyOptions opts zero_deleteAllOf in
      let '(p, s) := as_list (dao_ListOptions deleteAllOfOpts) s in
      let '(d, s) := as_delete (dao_DeleteOptions deleteAllOfOpts) s in
      let '(s, err) := do_error (rme_Interface r)
        (deleteAllOf_request SchemeParamCodec r (lo_Namespace (dao_ListOptions deleteAllOfOpts)) p d) s in
      (obj, s, err)
  end.

Definition typed_patch c (sub : option string) (patch : Patch) (opts : list PatchOption)
    : ObjCall (RestState W) := λ obj s,
  match getObjMeta c obj s with
  | (Err e, s) => (obj, s, Some e)
  | (Ok (r, o), s) =>
      match patch_Data patch obj with
      | Err e => (obj, s, Some e)
      | Ok data =>
          let '(p, s) := as_patch (PatchOptions_ApplyOptions opts zero_patch) s in
          do_into (rme_Interface r) (patch_request SchemeParamCodec sub r o (patch_Type patch) data p) obj s
      end
  end.
Definition typed_Patch c := typed_patch c None.
Definition typed_PatchStatus c := typed_patch c (Some "status").

Definition typed_Get c (key : NamespacedName) : ObjCall (RestState W) := λ obj s,
  match getResource c obj s with
  | (Err e, s) => (obj, s, Some e)
  | (Ok r, s) => do_into (rme_Interface r) (get_request r key) obj s
  end.

Definition typed_List c (opts : list ListOption) : ListCall (RestState W) := λ l s,
  match getResource_list c l s with
  | (Err e, s) => (l, s, Some e)
  | (Ok r, s) =>
      let listOpts := ListOptions_ApplyOptions opts zero_list in
      let '(p, s) := as_list listOpts s in
      do_into_list (rme_Interface r) (list_request SchemeParamCodec r (lo_Namespace listOpts) p) l s
  end.

(** ** The client for unstructured objects

    Each method first checks the type of its argument. *)
Definition err_unstructured : error := ErrorString "unstructured client did not understand object".

(** [result := ....Into(obj); u.SetGroupVersionKind(gvk); return result]. *)
Definition restore_gvk (gvk : GVK) (r : Object * RestState W * option error)
    : Object * RestState W * option error :=
  let '(obj, s, err) := r in (SetGroupVersionKind gvk obj, s, err).

Definition unstructured_Create c (opts : list CreateOption) : ObjCall (RestState W) := λ obj s,
  if decide (o_type obj ≠ Unstructured) then (obj, s, Some err_unstructured) else
  let gvk := o_gvk obj in
  match getObjMeta c obj s with
  | (Err e, s) => (obj, s, Some e)
  | (Ok (r, o), s) =>
      let '(p, s) := as_create (CreateOptions_ApplyOptions opts zero_create) s in
      restore_gvk gvk
        (do_into (rme_Interface r) (create_request noConversionParamCodec r o p) obj s)
  end.

Definition unstructured_Update c (opts : list UpdateOption) : ObjCall (RestState W) := λ obj s,
  if decide (o_type obj ≠ Unstructured) then (obj, s, Some err_unstructured) else
  let gvk := o_gvk obj in
  match getObjMeta c obj s with
  | (Err e, s) => (obj, s, Some e)
  | (Ok (r, o), s) =>
      let '(p, s) := as_update (UpdateOptions_ApplyOptions opts zero_update) s in
      restore_gvk gvk
        (do_into (rme_Interface r) (update_request noConversionParamCodec None r o p) obj s)
  end.

Definition unstructured_UpdateStatus c (opts : list UpdateOption) : ObjCall (RestState W) := λ obj s,
  if decide (o_type obj ≠ Unstructured) then (obj, s, Some err_unstructured) else
  match getObjMeta c obj s with
  | (Err e, s) => (obj, s, Some e)
  | (Ok (r, o), s) =>
      let '(p, s) := as_update (UpdateOptions_ApplyOptions opts zero_update) s in
      do_into (rme_Interface r) (update_request noConversionParamCodec (Some "status") r o p) obj s
  end.

Definition unstructured_Delete c (opts : list DeleteOption) : ObjCall (RestState W) := λ obj s,
  if decide (o_type obj ≠ Unstructured) then (obj, s, Some err_unstructured) else
  match getObjMeta c obj s with
  | (Err e, s) => (obj, s, Some e)
  | (Ok (r, o), s) =>
      let '(p, s) := as_delete (DeleteOptions_ApplyOptions opts zero_delete) s in
      let '(s, err) := do_error (rme_Interface r) (delete_request r o p) s in
      (obj, s, err)
  end.

Definition unstructured_DeleteAllOf c (opts : list DeleteAllOfOption) : ObjCall (RestState W) := λ obj s,
  if decide (o_type obj ≠ Unstructured) then (obj, s, Some err_unstructured) else
  match getObjMeta c obj s with
  | (Err e, s) => (obj, s, Some e)
  | (Ok (r, _), s) =>
      let deleteAllOfOpts := DeleteAllOfOptions_ApplyOptions opts zero_deleteAllOf in
      let '(p, s) := as_list (dao_ListOptions deleteAllOfOpts) s in
      let '(d, s) := as_delete (dao_DeleteOptions deleteAllOfOpts) s in
      let '(s, err) := do_error (rme_Interface r)
        (deleteAllOf_request noConversionParamCodec r
           (lo_Namespace (dao_ListOptions deleteAllOfOpts)) p d) s in
      (obj, s, err)
  end.

Definition unstructured_Patch c (patch : Patch) (opts : list PatchOption) : ObjCall (RestState W) := λ obj s,
  if decide (o_type obj ≠ Unstructured) then (obj, s, Some err_unstructured) else
  match getObjMeta c obj s with
  | (Err e, s) => (obj, s, Some e)
  | (Ok (r, o), s) =>
      match patch_Data patch obj with
      | Err e => (obj, s, Some e)
      | Ok data =>
          let '(p, s) := as_patch (PatchOptions_ApplyOptions opts zero_patch) s in
          do_into (rme_Interface r)
            (patch_request noConversionParamCodec None r o (patch_Type patch) data p) obj s
      end
  end.

Definition unstructured_PatchStatus c (patch : Patch) (opts : list PatchOption)
    : ObjCall (RestState W) := λ obj s,
  if decide (o_type obj ≠ Unstructured) then (obj, s, Some err_unstructured) else
  let gvk := o_gvk obj in
  match getObjMeta c obj s with
  | (Err e, s) => (obj, s, Some e)
  | (Ok (r, o), s) =>
      match patch_Data patch obj with
      | Err e => (obj, s, Some e)
      | Ok data =>
          let '(p, s) := as_patch (PatchOptions_ApplyOptions opts zero_patch) s in
          restore_gvk gvk (do_into (rme_Interface r)
            (patch_request noConversionParamCodec (Some "status") r o (patch_Type patch) data p) obj s)
      end
  end.

Definition unstructured_Get c (key : NamespacedName) : ObjCall (RestState W) := λ obj s,
  if decide (o_type obj ≠ Unstructured) then (obj, s, Some err_unstructured) else
  let gvk := o_gvk obj in
  match getResource c obj s with
  | (Err e, s) => (obj, s, Some e)
  | (Ok r, s) => restore_gvk gvk (do_into (rme_Interface r) (get_request r key) obj s)
  end.

(** The kind it computes first is never used. *)
Definition unstructured_List c (opts : list ListOption) : ListCall (RestState W) := λ l s,
  if decide (ol_type l ≠ UnstructuredList) then (l, s, Some err_unstructured) else
  let listOpts := ListOptions_ApplyOptions opts zero_list in
  match getResource_list c l s with
  | (Err e, s) => (l, s, Some e)
  | (Ok r, s) =>
      let '(p, s) := as_list listOpts s in
      do_into_list (rme_Interface r) (list_request noConversionParamCodec r (lo_Namespace listOpts) p) l s
  end.

(** ** The client for metadata *)

Definition err_metadata : error := ErrorString "metadata client did not understand object".

(** [getResourceInterface]: the resource and, unless it is cluster-scoped,
    the namespace. *)
Definition getResourceInterface c (gvk : GVK) (ns : string) (w : W) : result (GVR * option string) * W :=
  match rc_mapper c (gvk_GroupKind gvk) [gvk_Version gvk] w with
  | (Err e, w) => (Err e, w)
  | (Ok mapping, w) =>
      if decide (mapping_Scope mapping = ScopeRoot)
      then (Ok (mapping_Resource mapping, None), w)
      else (Ok (mapping_Resource mapping, Some ns), w)
  end.

Definition metadata_Delete c (opts : list DeleteOption) : ObjCall (RestState W) := λ obj s,
  if decide (o_type obj ≠ PartialObjectMetadata) then (obj, s, Some err_metadata) else
  match getResourceInterface c (o_gvk obj) (GetNamespace obj) (st_world s) with
  | (Err e, w) => (obj, set_world s w, Some e)
  | (Ok (res, ns), w) =>
      let '(p, s) := as_delete (DeleteOptions_ApplyOptions opts zero_delete) (set_world s w) in
      let '(err, w) := metadata_Do (mkMetadataRequest res ns (MDelete (GetName obj) p)) (st_world s) in
      (obj, set_world s w, err)
  end.

Definition metadata_DeleteAllOf c (opts : list DeleteAllOfOption) : ObjCall (RestState W) := λ obj s,
  if decide (o_type obj ≠ PartialObjectMetadata) then (obj, s, Some err_metadata) else
  let deleteAllOfOpts := DeleteAllOfOptions_ApplyOptions opts zero_deleteAllOf in
  match getResourceInterface c (o_gvk obj) (lo_Namespace (dao_ListOptions deleteAllOfOpts)) (st_world s) with
  | (Err e, w) => (obj, set_world s w, Some e)
  | (Ok (res, ns), w) =>
      let '(d, s) := as_delete (dao_DeleteOptions deleteAllOfOpts) (set_world s w) in
      let '(p, s) := as_list (dao_ListOptions deleteAllOfOpts) s in
      let '(err, w) := metadata_Do (mkMetadataRequest res ns (MDeleteCollection d p)) (st_world s) in
      (obj, set_world s w, err)
  end.

(** The end of the calls that return metadata: the whole object is replaced
    by the answer and its kind restored. *)
Definition metadata_into (gvk : GVK) (rq : MetadataRequest) obj s : Object * RestState W * option error :=
  match metadata_Object rq (st_world s) with
  | (Err e, w) => (obj, set_world s w, Some e)
  | (Ok res, w) => (SetGroupVersionKind gvk res, set_world s w, None)
  end.

Definition metadata_Patch c (patch : Patch) (opts : list PatchOption) : ObjCall (RestState W) := λ obj s,
  if decide (o_type obj ≠ PartialObjectMetadata) then (obj, s, Some err_metadata) else
  let gvk := o_gvk obj in
  match getResourceInterface c gvk (GetNamespace obj) (st_world s) with
  | (Err e, w) => (obj, set_world s w, Some e)
  | (Ok (res, ns), w) =>
      let s := set_world s w in
      match patch_Data patch obj with
      | Err e => (obj, s, Some e)
      | Ok data =>
          let '(p, s) := as_patch (PatchOptions_ApplyOptions opts zero_patch) s in
          metadata_into gvk
            (mkMetadataRequest res ns (MPatch (GetName obj) (patch_Type patch) data p [])) obj s
      end
  end.

(** The options are never applied. *)
Definition metadata_PatchStatus c (patch : Patch) (opts : list PatchOption)
    : ObjCall (RestState W) := λ obj s,
  if decide (o_type obj ≠ PartialObjectMetadata) then (obj, s, Some err_metadata) else
  let gvk := o_gvk obj in
  match getResourceInterface c gvk (GetNamespace obj) (st_world s) with
  | (Err e, w) => (obj, set_world s w, Some e)
  | (Ok (res, ns), w) =>
      let s := set_world s w in
      match patch_Data patch obj with
      | Err e => (obj, s, Some e)
      | Ok data =>
          let '(p, s) := as_patch zero_patch s in
          metadata_into gvk
            (mkMetadataRequest res ns (MPatch (GetName obj) (patch_Type patch) data p ["status"])) obj s
      end
  end.

Definition metadata_Get c (key : NamespacedName) : ObjCall (RestState W) := λ obj s,
  if decide (o_type obj ≠ PartialObjectMetadata) then (obj, s, Some err_metadata) else
  let gvk := o_gvk obj in
  match getResourceInterface c gvk (nn_Namespace key) (st_world s) with
  | (Err e, w) => (obj, set_world s w, Some e)
  | (Ok (res, ns), w) => metadata_into gvk (mkMetadataRequest res ns (MGet (nn_Name key))) obj (set_world s w)
  end.

Definition set_list_gvk (gvk : GVK) l : ObjectList := mkList (ol_type l) gvk (ol_items l).

Definition metadata_List_ c (opts : list ListOption) : ListCall (RestState W) := λ l s,
  if decide (ol_type l ≠ PartialObjectMetadataList) then (l, s, Some err_metadata) else
  let gvk := trim_List (ol_gvk l) in
  let listOpts := ListOptions_ApplyOptions opts zero_list in
  match getResourceInterface c gvk (lo_Namespace listOpts) (st_world s) with
  | (Err e, w) => (l, set_world s w, Some e)
  | (Ok (res, ns), w) =>
      let '(p, s) := as_list listOpts (set_world s w) in
      match metadata_List (mkMetadataRequest res ns (MList p)) (st_world s) with
      | (Err e, w) => (l, set_world s w, Some e)
      | (Ok res, w) => (set_list_gvk gvk res, set_world s w, None)
      end
  end.

(** ** The client *)

Definition EmptyGVK : GVK := mkGVK "" "" "".

Definition implements_ObjectKind (t : GoType) : bool :=
  match t with Typed name => typed_ObjectKind name | _ => true end.

Definition resetGroupVersionKind obj (gvk : GVK) : Object :=
  if decide (gvk ≠ EmptyGVK) then
    if implements_ObjectKind (o_type obj) then SetGroupVersionKind gvk obj else obj
  else obj.
Definition resetGroupVersionKind_list l (gvk : GVK) : ObjectList :=
  if decide (gvk ≠ EmptyGVK) then
    if implements_ObjectKind (ol_type l) then set_list_gvk gvk l else l
  else l.

(** [defer c.resetGroupVersionKind(obj, obj.GetObjectKind().GroupVersionKind())]:
    the kind is read on entry and written back on every return. *)
Definition deferred_reset (call : ObjCall (RestState W)) : ObjCall (RestState W) := λ obj s,
  let gvk := o_gvk obj in
  let '(obj, s, err) := call obj s in
  (resetGroupVersionKind obj gvk, s, err).

Definition client_Create c (opts : list CreateOption) : ObjCall (RestState W) := λ obj s,
  match o_type obj with
  | Unstructured => unstructured_Create c opts obj s
  | PartialObjectMetadata => (obj, s, Some (ErrorString "cannot create using only metadata"))
  | _ => typed_Create c opts obj s
  end.

Definition client_Update c (opts : list UpdateOption) : ObjCall (RestState W) := deferred_reset (λ obj s,
  match o_type obj with
  | Unstructured => unstructured_Update c opts obj s
  | PartialObjectMetadata =>
      (obj, s, Some (ErrorString "cannot update using only metadata -- did you mean to patch?"))
  | _ => typed_Update c opts obj s
  end).

Definition client_Delete c (opts : list DeleteOption) : ObjCall (RestState W) := λ obj s,
  match o_type obj with
  | Unstructured => unstructured_Delete c opts obj s
  | PartialObjectMetadata => metadata_Delete c opts obj s
  | _ => typed_Delete c opts obj s
  end.

Definition client_DeleteAllOf c (opts : list DeleteAllOfOption) : ObjCall (RestState W) := λ obj s,
  match o_type obj with
  | Unstructured => unstructured_DeleteAllOf c opts obj s
  | PartialObjectMetadata => metadata_DeleteAllOf c opts obj s
  | _ => typed_DeleteAllOf c opts obj s
  end.

Definition client_Patch c (patch : Patch) (opts : list PatchOption) : ObjCall (RestState W) :=
  deferred_reset (λ obj s,
  match o_type obj with
  | Unstructured => unstructured_Patch c patch opts obj s
  | PartialObjectMetadata => metadata_Patch c patch opts obj s
  | _ => typed_Patch c patch opts obj s
  end).

Definition client_Get c (key : NamespacedName) : ObjCall (RestState W) := λ obj s,
  match o_type obj with
  | Unstructured => unstructured_Get c key obj s
  | PartialObjectMetadata => deferred_reset (metadata_Get c key) obj s
  | _ => typed_Get c key obj s
  end.

Definition client_List c (opts : list ListOption) : ListCall (RestState W) := λ l s,
  match ol_type l with
  | UnstructuredList => unstructured_List c opts l s
  | PartialObjectMetadataList =>
      let gvk := ol_gvk l in
      let '(l, s, err) := metadata_List_ c opts l s in
      let l := match err with
               | Some _ => l
               | None => mkList (ol_type l) (ol_gvk l) (SetGroupVersionKind (trim_List gvk) <$> ol_items l)
               end in
      (resetGroupVersionKind_list l gvk, s, err)
  | _ => typed_List c opts l s
  end.

Definition statusWriter_Update c (opts : list UpdateOption) : ObjCall (RestState W) :=
  deferred_reset (λ obj s,
  match o_type obj with
  | Unstructured => unstructured_UpdateStatus c opts obj s
  | PartialObjectMetadata =>
      (obj, s, Some (ErrorString "cannot update status using only metadata -- did you mean to patch?"))
  | _ => typed_UpdateStatus c opts obj s
  end).

Definition statusWriter_Patch c (patch : Patch) (opts : list PatchOption) : ObjCall (RestState W) :=
  deferred_reset (λ obj s,
  match o_type obj with
  | Unstructured => unstructured_PatchStatus c patch opts obj s
  | PartialObjectMetadata => metadata_PatchStatus c patch opts obj s
  | _ => typed_PatchStatus c patch opts obj s
  end).

(** The client as the interface the wrapping clients take, [scopes] being the
    view they have of its mapper. *)
Definition rest_Client c (scopes : RESTMapper) : Client (RestState W) := {|
  Get := client_Get c;
  List := client_List c;
  Create := client_Create c;
  Delete := client_Delete c;
  Update := client_Update c;
  Patch_ := client_Patch c;
  DeleteAllOf := client_DeleteAllOf c;
  Status := {| Status_Update := statusWriter_Update c; Status_Patch := statusWriter_Patch c |};
  Client_Scheme := rc_scheme c;
  Client_RESTMapper := scopes;
|}.

(** ** Construction (client.go) *)

(** [client.Options]; [None] stands for a nil scheme or mapper. *)
Record ClientOptions := mkClientOptions {
  cop_Scheme : option Scheme;
  cop_Mapper : option (Mapper W);
  cop_SuppressWarnings : bool;
  cop_AllowDuplicateLogs : bool;
}.

(** What [newClient] takes from elsewhere: client-go's scheme, the dynamic
    mapper, the constructor of the metadata client, and the process-wide
    warning handler, given by whether it removes duplicates. *)
Record ClientEnv := {
  env_scheme : Scheme;
  env_NewDynamicRESTMapper : RestConfig → W → result (Mapper W) * W;
  env_metadata_NewForConfig : RestConfig → option error;
  env_SetDefaultWarningHandler : bool → W → W;
}.

Definition newClient (env : ClientEnv) (config : option RestConfig) (options : ClientOptions) (w : W)
    : result (restClient W) * RestState W :=
  let empty := mkState ∅ ∅ (mkHeaps ∅ ∅ ∅ ∅ ∅) in
  match config with
  | None => (Err (ErrorString "must provide non-nil rest.Config to client.New"), empty w)
  | Some config =>
      let w := if cop_SuppressWarnings options then w
               else env_SetDefaultWarningHandler env (negb (cop_AllowDuplicateLogs options)) w in
      let scheme := default (env_scheme env) (cop_Scheme options) in
      let '(mapper, w) := match cop_Mapper options with
                          | Some m => (Ok m, w)
                          | None => env_NewDynamicRESTMapper env config w
                          end in
      match mapper with
      | Err e => (Err e, empty w)
      | Ok mapper =>
          match env_metadata_NewForConfig env config with
          | Some e => (Err (ErrorWrap "unable to construct metadata-only client for use as part of client" e), empty w)
          | None => (Ok (mkClient config scheme mapper), empty w)
          end
      end
  end.

(** ** The watching client (watch.go) *)

(** A [watch.Interface] is an opaque number. *)
Class WatchAPI := {
  rest_Watch : RestConfig → RestRequest → W → result nat * W;
  metadata_Watch : MetadataRequest → W → result nat * W;
  dynamic_Watch : GVR → option string → RawListOptions → W → result nat * W;
}.

(** [listOpts]: the options applied, and [Watch] set through their raw
    pointer. *)
Definition watch_listOpts (opts : list ListOption) s : ListOptions * RestState W :=
  let listOpts := ListOptions_ApplyOptions opts zero_list in
  let hs := st_heaps s in
  let '(l, h) := ensure_raw (mkRawList "" "" false 0 "" "")
    (λ r, mkRawList (rl_LabelSelector r) (rl_FieldSelector r) true (rl_Limit r) (rl_Continue r) (rl_rest r))
    (h_list hs) (lo_Raw listOpts) in
  (mkListOptions (lo_LabelSelector listOpts) (lo_FieldSelector listOpts) (lo_Namespace listOpts)
     (lo_Limit listOpts) (lo_Continue listOpts) (Some l),
   set_heaps s (mkHeaps (h_create hs) (h_update hs) (h_patch hs) (h_delete hs) h)).

Definition with_watch_world s (r : result nat * W) : result nat * RestState W :=
  (r.1, set_world s r.2).

Definition metadataWatch `{!WatchAPI} c (opts : list ListOption) l s : result nat * RestState W :=
  let gvk := trim_List (ol_gvk l) in
  let '(listOpts, s) := watch_listOpts opts s in
  match getResourceInterface c gvk (lo_Namespace listOpts) (st_world s) with
  | (Err e, w) => (Err e, set_world s w)
  | (Ok (res, ns), w) =>
      let '(p, s) := as_list listOpts (set_world s w) in
      with_watch_world s (metadata_Watch (mkMetadataRequest res ns (MWatch p)) (st_world s))
  end.

Definition unstructuredWatch `{!WatchAPI} c (opts : list ListOption) l s : result nat * RestState W :=
  match getResource_list c l s with
  | (Err e, s) => (Err e, s)
  | (Ok r, s) =>
      let '(listOpts, s) := watch_listOpts opts s in
      let '(p, s) := as_list listOpts s in
      let ns := if decide (lo_Namespace listOpts ≠ "" ∧ rme_isNamespaced r = true)
                then Some (lo_Namespace listOpts) else None in
      with_watch_world s (dynamic_Watch (mapping_Resource (rme_mapping r)) ns p (st_world s))
  end.

Definition typedWatch `{!WatchAPI} c (opts : list ListOption) l s : result nat * RestState W :=
  match getResource_list c l s with
  | (Err e, s) => (Err e, s)
  | (Ok r, s) =>
      let '(listOpts, s) := watch_listOpts opts s in
      let '(p, s) := as_list listOpts s in
      with_watch_world s (rest_Watch (rme_Interface r)
        (list_request SchemeParamCodec r (lo_Namespace listOpts) p) (st_world s))
  end.

Definition watchingClient_Watch `{!WatchAPI} c (opts : list ListOption) l s : result nat * RestState W :=
  match ol_type l with
  | UnstructuredList => unstructuredWatch c opts l s
  | PartialObjectMetadataList => metadataWatch c opts l s
  | _ => typedWatch c opts l s
  end.

(** ** The caches do not show

    The operations of the client as data, and two ways to run a sequence of
    them: as the client does, and with empty caches before each. *)
Inductive client_op :=
  | OpGet (key : NamespacedName) (obj : Object)
  | OpList (opts : list ListOption) (l : ObjectList)
  | OpCreate (opts : list CreateOption) (obj : Object)
  | OpUpdate (opts : list UpdateOption) (obj : Object)
  | OpDelete (opts : list DeleteOption) (obj : Object)
  | OpDeleteAllOf (opts : list DeleteAllOfOption) (obj : Object)
  | OpPatch (patch : Patch) (opts : list PatchOption) (obj : Object)
  | OpStatusUpdate (opts : list UpdateOption) (obj : Object)
  | OpStatusPatch (patch : Patch) (opts : list PatchOption) (obj : Object).

(** What a call leaves in its argument, and its error. *)
Definition op_result : Type := (Object + ObjectList) * option error.

Definition obj_result (r : Object * RestState W * option error) : op_result * RestState W :=
  ((inl r.1.1, r.2), r.1.2).
Definition list_result (r : ObjectList * RestState W * option error) : op_result * RestState W :=
  ((inr r.1.1, r.2), r.1.2).

Definition run_op c (op : client_op) s : op_result * RestState W :=
  match op with
  | OpGet key obj => obj_result (client_Get c key obj s)
  | OpList opts l => list_result (client_List c opts l s)
  | OpCreate opts obj => obj_result (client_Create c opts obj s)
  | OpUpdate opts obj => obj_result (client_Update c opts obj s)
  | OpDelete opts obj => obj_result (client_Delete c opts obj s)
  | OpDeleteAllOf opts obj => obj_result (client_DeleteAllOf c opts obj s)
  | OpPatch patch opts obj => obj_result (client_Patch c patch opts obj s)
  | OpStatusUpdate opts obj => obj_result (statusWriter_Update c opts obj s)
  | OpStatusPatch patch opts obj => obj_result (statusWriter_Patch c patch opts obj s)
  end.

Definition forget_caches s : RestState W := mkState ∅ ∅ (st_heaps s) (st_world s).

Fixpoint run_ops c (ops : list client_op) s : list op_result * RestState W :=
  match ops with
  | [] => ([], s)
  | op :: ops =>
      let '(r, s) := run_op c op s in
      let '(rs, s) := run_ops c ops s in
      (r :: rs, s)
  end.

Fixpoint run_ops_uncached c (ops : list client_op) s : list op_result * RestState W :=
  match ops with
  | [] => ([], s)
  | op :: ops =>
      let '(r, s) := run_op c op (forget_caches s) in
      let '(rs, s) := run_ops_uncached c ops s in
      (r :: rs, s)
  end.
End client.
