(* ===== verification/RestClientFacts.v ===== *)
(** * What the client that talks to the API server promises

    Theorems about the definitions of RestClient: the caches of REST clients
    do not show, requests address the resource of the object, dry runs reach
    the API server as such, kinds of untyped objects survive. *)

From S2P Require Export RestClient.

(** ** The caches do not show *)

(** ** The last option applied *)

Section options_snoc.
Lemma CreateOptions_snoc opts (f : CreateOption) o :
  CreateOptions_ApplyOptions (opts ++ [f]) o = f (CreateOptions_ApplyOptions opts o).
Proof. apply apply_options_snoc. Qed.
Lemma UpdateOptions_snoc opts (f : UpdateOption) o :
  UpdateOptions_ApplyOptions (opts ++ [f]) o = f (UpdateOptions_ApplyOptions opts o).
Proof. apply apply_options_snoc. Qed.
Lemma DeleteOptions_snoc opts (f : DeleteOption) o :
  DeleteOptions_ApplyOptions (opts ++ [f]) o = f (DeleteOptions_ApplyOptions opts o).
Proof. apply apply_options_snoc. Qed.
Lemma DeleteAllOfOptions_snoc opts (f : DeleteAllOfOption) o :
  DeleteAllOfOptions_ApplyOptions (opts ++ [f]) o = f (DeleteAllOfOptions_ApplyOptions opts o).
Proof. apply apply_options_snoc. Qed.
Lemma PatchOptions_snoc opts (f : PatchOption) o :
  PatchOptions_ApplyOptions (opts ++ [f]) o = f (PatchOptions_ApplyOptions opts o).
Proof. apply apply_options_snoc. Qed.
Lemma ListOptions_snoc opts (f : ListOption) o :
  ListOptions_ApplyOptions (opts ++ [f]) o = f (ListOptions_ApplyOptions opts o).
Proof. apply apply_options_snoc. Qed.
End options_snoc.

Create Rewrite HintDb options.
#[export] Hint Rewrite CreateOptions_snoc UpdateOptions_snoc DeleteOptions_snoc
  DeleteAllOfOptions_snoc PatchOptions_snoc ListOptions_snoc : options.

#[local] Arguments set_world : simpl never.
#[local] Arguments set_heaps : simpl never.
#[local] Arguments as_create : simpl never.
#[local] Arguments as_update : simpl never.
#[local] Arguments as_patch : simpl never.
#[local] Arguments as_delete : simpl never.
#[local] Arguments as_list : simpl never.
#[local] Arguments do_into : simpl never.
#[local] Arguments do_into_list : simpl never.
#[local] Arguments do_error : simpl never.
#[local] Arguments getResource_of : simpl never.
#[local] Arguments getResourceInterface : simpl never.
#[local] Arguments resetGroupVersionKind : simpl never.
#[local] Arguments resetGroupVersionKind_list : simpl never.

(** What can happen to the world: a request of the API server, or a question to
    the mapper of the client. *)
Inductive asks `{RestAPI W} (c : restClient W) : W → W → Prop :=
  | asks_Do cfg rq w : asks c w (rest_Do cfg rq w).2
  | asks_metadata_Do rq w : asks c w (metadata_Do rq w).2
  | asks_metadata_Object rq w : asks c w (metadata_Object rq w).2
  | asks_metadata_List rq w : asks c w (metadata_List rq w).2
  | asks_mapper gk vs w : asks c w (rc_mapper c gk vs w).2.

(** From the world [w0] on a mapping that was found stays, whatever is asked
    after it, and is given again without asking anybody.  Of kinds that were
    not found nothing is said: the mapper may ask the API server for them each
    time, and find them later. *)
Class StableMapper `{RestAPI W} (c : restClient W) (w0 : W) : Prop :=
  mapper_stable : ∀ gk vs w m w', rtc (asks c) w0 w → rc_mapper c gk vs w = (Ok m, w') →
    ∀ w2, rtc (asks c) w' w2 → rc_mapper c gk vs w2 = (Ok m, w2).

(** So is one whose answers never change. *)
Lemma static_stable `{RestAPI W} (c : restClient W) (mapping_of : GroupKind → list string → result RESTMapping) :
  (∀ gk vs w, rc_mapper c gk vs w = (mapping_of gk vs, w)) → ∀ w0, StableMapper c w0.
Proof. intros Hm w0 gk vs w m w' _. rewrite Hm. intros [= Hok <-] w2 _. by rewrite Hm, Hok. Qed.

Section caches.
Context `{RestAPI W}.
Variables (c : restClient W) (w0 : W).
Context `{!StableMapper c w0}.
Implicit Types (s : RestState W) (obj : Object) (l : ObjectList).

(** Every entry is what [newResource] makes of its key, now and later. *)
Definition cache_ok s : Prop := ∀ u gvk r,
  resourceByType s u !! gvk = Some r →
  ∀ w, rtc (asks c) (st_world s) w → newResource c gvk true u w = (Ok r, w).

(** Both states agree on all but the caches, which are good. *)
Definition same s1 s2 : Prop :=
  st_heaps s1 = st_heaps s2 ∧ st_world s1 = st_world s2 ∧ cache_ok s1 ∧ cache_ok s2
  ∧ rtc (asks c) w0 (st_world s2).

(** A kind that ends in [List] is that of a list. *)
Definition list_kind (t : GoType) (own : GVK) : Prop := ∀ gvk,
  GVKForObject_of t own (rc_scheme c) = Ok gvk → HasSuffix (gvk_Kind gvk) "List" = true →
  IsListType t = true.

Definition op_list_kind (op : client_op) : Prop :=
  match op with
  | OpGet _ obj | OpCreate _ obj | OpUpdate _ obj | OpDelete _ obj | OpDeleteAllOf _ obj
  | OpPatch _ _ obj | OpStatusUpdate _ obj | OpStatusPatch _ _ obj => list_kind (o_type obj) (o_gvk obj)
  | OpList _ l => list_kind (ol_type l) (ol_gvk l)
  end.

Lemma newResource_stable gvk isList u w r w' :
  rtc (asks c) w0 w → newResource c gvk isList u w = (Ok r, w') →
  ∀ w2, rtc (asks c) w' w2 → newResource c gvk isList u w2 = (Ok r, w2).
Proof.
  unfold newResource. intros Hfrom. destruct (RESTClientForGVK _ _ _); [|done].
  destruct (rc_mapper c _ _ w) as [[m|e] w1] eqn:Hm; [|done]. intros [= <- <-] w2 Hw.
  by rewrite (mapper_stable _ _ _ _ _ Hfrom Hm).
Qed.

Lemma mapper_asks gk vs w r w' : rc_mapper c gk vs w = (r, w') → rtc (asks c) w w'.
Proof. intros Hm. apply rtc_once. pose proof (asks_mapper c gk vs w) as Ha. by rewrite Hm in Ha. Qed.

Lemma newResource_asks gvk isList u w r w' :
  newResource c gvk isList u w = (r, w') → rtc (asks c) w w'.
Proof.
  unfold newResource. destruct (RESTClientForGVK _ _ _); [|by intros [= _ <-]].
  destruct (rc_mapper c _ _ w) as [[m|e] w1] eqn:Hm; intros [= _ <-]; by eapply mapper_asks.
Qed.

Lemma newResource_list gvk isList u w :
  (HasSuffix (gvk_Kind gvk) "List" = true → isList = true) →
  newResource c gvk isList u w = newResource c gvk true u w.
Proof.
  intros Hl. unfold newResource. destruct (HasSuffix _ _) eqn:Hs; [by rewrite Hl|done].
Qed.

Lemma cache_ok_world s w : rtc (asks c) (st_world s) w → cache_ok s → cache_ok (set_world s w).
Proof. intros Hw Hok u gvk r Hr w2 Hw2. apply (Hok u gvk r Hr). by etrans. Qed.
Lemma cache_ok_heaps s h : cache_ok s → cache_ok (set_heaps s h).
Proof. intros Hok u. exact (Hok u). Qed.

Lemma cache_ok_insert s u gvk r w :
  rtc (asks c) w0 w → cache_ok s → newResource c gvk true u w = (Ok r, st_world s) → cache_ok (insert_resource s u gvk r).
Proof.
  intros Hfrom Hok Hn u' g r'. destruct u, u'; cbn; try exact (Hok true g r'); try exact (Hok false g r');
    intros [[<- <-]|[_ Hg]]%lookup_insert_Some;
    try exact (Hok true _ _ Hg); try exact (Hok false _ _ Hg); by eapply newResource_stable.
Qed.

Lemma same_world s1 s2 w :
  same s1 s2 → rtc (asks c) (st_world s2) w → same (set_world s1 w) (set_world s2 w).
Proof.
  intros (Hh & Hw & ? & ? & ?) Ha.
  repeat split; try done; try (apply cache_ok_world; try done; by rewrite Hw). cbn. by etrans.
Qed.
Lemma same_heaps s1 s2 h : same s1 s2 → same (set_heaps s1 h) (set_heaps s2 h).
Proof. intros (? & ? & ? & ? & ?). repeat split; auto using cache_ok_heaps. Qed.

(** A good cache gives what a lookup without it gives. *)
Lemma getResource_of_spec t own s :
  list_kind t own → cache_ok s → rtc (asks c) w0 (st_world s) →
  ∃ s', getResource_of c t own s =
    (match GVKForObject_of t own (rc_scheme c) with
     | Ok gvk => (newResource c gvk true (is_unstructured t) (st_world s)).1
     | Err e => Err e
     end, s')
  ∧ st_heaps s' = st_heaps s
  ∧ st_world s' = match GVKForObject_of t own (rc_scheme c) with
                  | Ok gvk => (newResource c gvk true (is_unstructured t) (st_world s)).2
                  | Err e => st_world s
                  end
  ∧ cache_ok s'.
Proof.
  intros Hk Hok Hfrom. unfold getResource_of.
  destruct (GVKForObject_of _ _ _) as [gvk|e] eqn:Hg; [|by exists s].
  destruct (resourceByType _ _ !! gvk) as [r|] eqn:Hr.
  - exists s. by rewrite (Hok _ _ _ Hr (st_world s) (rtc_refl _ _)).
  - rewrite newResource_list by (intros; by eapply Hk).
    destruct (newResource _ _ _ _ _) as [[r|e] w] eqn:Hnew; pose proof (newResource_asks _ _ _ _ _ _ Hnew) as Ha.
    + eexists. split; [done|]. split; [by destruct t|]. split; [by destruct t|].
      eapply cache_ok_insert; [exact Hfrom|by apply cache_ok_world|]. exact Hnew.
    + eexists. split; [done|]. do 2 (split; [done|]). by apply cache_ok_world.
Qed.

Lemma getResource_of_same t own s1 s2 :
  list_kind t own → same s1 s2 → ∃ r s1' s2', getResource_of c t own s1 = (r, s1')
    ∧ getResource_of c t own s2 = (r, s2') ∧ same s1' s2'.
Proof.
  intros Hk (Hh & Hw & H1 & H2 & Hfrom). assert (rtc (asks c) w0 (st_world s1)) as Hfrom1 by by rewrite Hw.
  destruct (getResource_of_spec t own s1 Hk H1 Hfrom1) as (s1' & E1 & Hh1 & Hw1 & ?).
  destruct (getResource_of_spec t own s2 Hk H2 Hfrom) as (s2' & E2 & Hh2 & Hw2 & ?).
  rewrite Hw in E1, Hw1. do 3 eexists. split; [exact E1|]. split; [exact E2|].
  repeat split; try done || congruence. rewrite Hw2. etrans; [exact Hfrom|].
  destruct (GVKForObject_of _ _ _) as [gvk|]; [|done].
  destruct (newResource c gvk _ _ _) eqn:Hn. by eapply newResource_asks.
Qed.

(** A step of a call that looks at heaps and world only. *)
Ltac same_heap_step := intros Hs; pose proof Hs as (Hh & _);
  unfold as_create, as_update, as_patch, as_delete, as_list; rewrite Hh;
  match goal with |- context [let '(_, _) := ?x in _] => destruct x as [[? ?] ?] end;
  do 3 eexists; (split; [done|]); (split; [done|]); by apply same_heaps.

Lemma as_create_same o s1 s2 : same s1 s2 → ∃ p s1' s2',
  as_create o s1 = (p, s1') ∧ as_create o s2 = (p, s2') ∧ same s1' s2'.
Proof. same_heap_step. Qed.
Lemma as_update_same o s1 s2 : same s1 s2 → ∃ p s1' s2',
  as_update o s1 = (p, s1') ∧ as_update o s2 = (p, s2') ∧ same s1' s2'.
Proof. same_heap_step. Qed.
Lemma as_patch_same o s1 s2 : same s1 s2 → ∃ p s1' s2',
  as_patch o s1 = (p, s1') ∧ as_patch o s2 = (p, s2') ∧ same s1' s2'.
Proof. same_heap_step. Qed.
Lemma as_delete_same o s1 s2 : same s1 s2 → ∃ p s1' s2',
  as_delete o s1 = (p, s1') ∧ as_delete o s2 = (p, s2') ∧ same s1' s2'.
Proof. same_heap_step. Qed.
Lemma as_list_same o s1 s2 : same s1 s2 → ∃ p s1' s2',
  as_list o s1 = (p, s1') ∧ as_list o s2 = (p, s2') ∧ same s1' s2'.
Proof. same_heap_step. Qed.

(** The answer of the world, from equal worlds. *)
Lemma do_into_same cfg rq obj s1 s2 : same s1 s2 → ∃ o s1' s2' e,
  do_into cfg rq obj s1 = (o, s1', e) ∧ do_into cfg rq obj s2 = (o, s2', e) ∧ same s1' s2'.
Proof.
  intros Hs; pose proof Hs as (_ & Hw & _). unfold do_into. rewrite Hw.
  pose proof (asks_Do c cfg rq (st_world s2)) as Ha.
  destruct (rest_Do _ _ _) as [[b|e] w]; [destruct (Into _ _ _)|];
    do 4 eexists; (split; [done|]); (split; [done|]); (apply same_world; [done|by apply rtc_once]).
Qed.
Lemma do_into_list_same cfg rq l s1 s2 : same s1 s2 → ∃ o s1' s2' e,
  do_into_list cfg rq l s1 = (o, s1', e) ∧ do_into_list cfg rq l s2 = (o, s2', e) ∧ same s1' s2'.
Proof.
  intros Hs; pose proof Hs as (_ & Hw & _). unfold do_into_list. rewrite Hw.
  pose proof (asks_Do c cfg rq (st_world s2)) as Ha.
  destruct (rest_Do _ _ _) as [[b|e] w]; [destruct (Into_list _ _ _)|];
    do 4 eexists; (split; [done|]); (split; [done|]); (apply same_world; [done|by apply rtc_once]).
Qed.
Lemma do_error_same cfg rq s1 s2 : same s1 s2 → ∃ s1' s2' e,
  do_error cfg rq s1 = (s1', e) ∧ do_error cfg rq s2 = (s2', e) ∧ same s1' s2'.
Proof.
  intros Hs; pose proof Hs as (_ & Hw & _). unfold do_error. rewrite Hw.
  pose proof (asks_Do c cfg rq (st_world s2)) as Ha.
  destruct (rest_Do _ _ _) as [[b|e] w];
    do 3 eexists; (split; [done|]); (split; [done|]); (apply same_world; [done|by apply rtc_once]).
Qed.

Lemma getResourceInterface_asks gvk ns w r w' :
  getResourceInterface c gvk ns w = (r, w') → rtc (asks c) w w'.
Proof.
  unfold getResourceInterface. destruct (rc_mapper c _ _ w) as [[m|e] w1] eqn:Hm; [case_decide|];
    intros [= _ <-]; by eapply mapper_asks.
Qed.

(** Go through a call from both states at once. *)
Ltac same_call :=
  repeat match goal with
  | |- context [match patch_Data ?p ?o with _ => _ end] => destruct (patch_Data p o)
  | Hs : same ?s1 ?s2 |- context [getResource_of c ?t ?own ?s1] =>
      let E1 := fresh in let E2 := fresh in
      destruct (getResource_of_same t own s1 s2 ltac:(eassumption) Hs) as ([?|?] & ? & ? & E1 & E2 & ?);
      rewrite E1, E2; clear E1 E2 Hs
  | Hs : same ?s1 ?s2 |- context [as_create ?o ?s1] =>
      let E1 := fresh in let E2 := fresh in
      destruct (as_create_same o s1 s2 Hs) as (? & ? & ? & E1 & E2 & ?); rewrite E1, E2; clear E1 E2 Hs
  | Hs : same ?s1 ?s2 |- context [as_update ?o ?s1] =>
      let E1 := fresh in let E2 := fresh in
      destruct (as_update_same o s1 s2 Hs) as (? & ? & ? & E1 & E2 & ?); rewrite E1, E2; clear E1 E2 Hs
  | Hs : same ?s1 ?s2 |- context [as_patch ?o ?s1] =>
      let E1 := fresh in let E2 := fresh in
      destruct (as_patch_same o s1 s2 Hs) as (? & ? & ? & E1 & E2 & ?); rewrite E1, E2; clear E1 E2 Hs
  | Hs : same ?s1 ?s2 |- context [as_delete ?o ?s1] =>
      let E1 := fresh in let E2 := fresh in
      destruct (as_delete_same o s1 s2 Hs) as (? & ? & ? & E1 & E2 & ?); rewrite E1, E2; clear E1 E2 Hs
  | Hs : same ?s1 ?s2 |- context [as_list ?o ?s1] =>
      let E1 := fresh in let E2 := fresh in
      destruct (as_list_same o s1 s2 Hs) as (? & ? & ? & E1 & E2 & ?); rewrite E1, E2; clear E1 E2 Hs
  | Hs : same ?s1 ?s2 |- context [do_into ?cfg ?rq ?o ?s1] =>
      let E1 := fresh in let E2 := fresh in
      destruct (do_into_same cfg rq o s1 s2 Hs) as (? & ? & ? & ? & E1 & E2 & ?); rewrite E1, E2; clear E1 E2 Hs
  | Hs : same ?s1 ?s2 |- context [do_into_list ?cfg ?rq ?o ?s1] =>
      let E1 := fresh in let E2 := fresh in
      destruct (do_into_list_same cfg rq o s1 s2 Hs) as (? & ? & ? & ? & E1 & E2 & ?); rewrite E1, E2; clear E1 E2 Hs
  | Hs : same ?s1 ?s2 |- context [do_error ?cfg ?rq ?s1] =>
      let E1 := fresh in let E2 := fresh in
      destruct (do_error_same cfg rq s1 s2 Hs) as (? & ? & ? & E1 & E2 & ?); rewrite E1, E2; clear E1 E2 Hs
  | Hs : same ?s1 ?s2 |- context [getResourceInterface c ?g ?n (st_world ?s1)] =>
      let E := fresh in let w := fresh "w" in
      rewrite (proj1 (proj2 Hs)); destruct (getResourceInterface c g n (st_world s2)) as [[[? ?]|?] w] eqn:E;
      apply getResourceInterface_asks in E; (apply (same_world _ _ w) in Hs; [clear E|exact E])
  | Hs : same ?s1 ?s2 |- context [metadata_Do ?rq (st_world ?s1)] =>
      rewrite (proj1 (proj2 Hs));
      generalize (same_world _ _ _ Hs (rtc_once _ _ (asks_metadata_Do c rq (st_world s2)))); clear Hs;
      destruct (metadata_Do rq (st_world s2)) as [? ?]; cbn; intros Hs
  | Hs : same ?s1 ?s2 |- context [metadata_Object ?rq (st_world ?s1)] =>
      rewrite (proj1 (proj2 Hs));
      generalize (same_world _ _ _ Hs (rtc_once _ _ (asks_metadata_Object c rq (st_world s2)))); clear Hs;
      destruct (metadata_Object rq (st_world s2)) as [[?|?] ?]; cbn; intros Hs
  | Hs : same ?s1 ?s2 |- context [metadata_List ?rq (st_world ?s1)] =>
      rewrite (proj1 (proj2 Hs));
      generalize (same_world _ _ _ Hs (rtc_once _ _ (asks_metadata_List c rq (st_world s2)))); clear Hs;
      destruct (metadata_List rq (st_world s2)) as [[?|?] ?]; cbn; intros Hs
  | _ => progress cbn
  end.

(** Equal results, and states that still agree. *)
Definition agree {A} (r1 r2 : A * RestState W) : Prop := r1.1 = r2.1 ∧ same r1.2 r2.2.

Ltac same_done :=
  split; [reflexivity|]; eassumption.

(** An operation does the same from states that agree but for the caches. *)
Lemma run_op_same op s1 s2 :
  op_list_kind op → same s1 s2 → agree (run_op c op s1) (run_op c op s2).
Proof.
  intros Hk Hs. destruct op; cbn in Hk; cbn [run_op];
    unfold client_Get, client_List, client_Create, client_Update, client_Delete, client_DeleteAllOf,
      client_Patch, statusWriter_Update, statusWriter_Patch, deferred_reset;
    revert Hk; (destruct (o_type obj) eqn:Ht || destruct (ol_type l) eqn:Ht); intros Hk;
    unfold typed_Get, typed_List, typed_Create, typed_Update, typed_UpdateStatus, typed_put, typed_Delete,
      typed_DeleteAllOf, typed_Patch, typed_PatchStatus, typed_patch,
      unstructured_Get, unstructured_List, unstructured_Create, unstructured_Update,
      unstructured_UpdateStatus, unstructured_Delete, unstructured_DeleteAllOf,
      unstructured_Patch, unstructured_PatchStatus, restore_gvk,
      metadata_Get, metadata_List_, metadata_Delete, metadata_DeleteAllOf, metadata_Patch,
      metadata_PatchStatus, metadata_into,
      getObjMeta, getResource, getResource_list, agree, obj_result, list_result;
    rewrite ?Ht; repeat (rewrite decide_False by (intros Hne; by apply Hne)); same_call; same_done.
Qed.

Lemma cache_ok_empty h w : cache_ok (mkState ∅ ∅ h w).
Proof. intros [] g r; cbn; by rewrite lookup_empty. Qed.

Lemma same_forget s1 s2 : same s1 s2 → same s1 (forget_caches s2).
Proof. intros (? & ? & ? & _ & ?). repeat split; try done. apply cache_ok_empty. Qed.

Lemma run_ops_same ops s1 s2 :
  Forall op_list_kind ops → same s1 s2 → agree (run_ops c ops s1) (run_ops_uncached c ops s2).
Proof.
  revert s1 s2. induction ops as [|op ops IH]; intros s1 s2 Hk Hs; cbn; [done|].
  apply Forall_cons in Hk as [Hop Hk].
  destruct (run_op_same op s1 (forget_caches s2) Hop (same_forget _ _ Hs)) as [Hr Hs'].
  destruct (run_op c op s1) as [r1 s1'], (run_op c op (forget_caches s2)) as [r2 s2']. cbn in *. subst r2.
  destruct (IH s1' s2' Hk Hs') as [Hrs Hs''].
  destruct (run_ops c ops s1'), (run_ops_uncached c ops s2'). cbn in *. subst. done.
Qed.

(** C8: the caches of REST clients and mappings do not show: with a mapper that
    keeps the mappings it found - a static one, or the dynamic one while kinds
    are only added to the API server - any sequence of operations of the
    client, on Go types, unstructured objects and metadata, with any options,
    errors included, that is started with empty caches gives the same results,
    the same requests in the same order (the same final world) and the same
    raw options as the client that forgets its caches before every operation
    and so makes every REST client and asks for every mapping anew; and after
    it every cached entry is what making it anew would give.  The operations
    must not mix lists and objects under one kind: no object that is not a
    list has a kind that ends in [List]; with one they do differ. *)
Theorem client_caches_refine_recomputation ops h :
  Forall op_list_kind ops →
  let s := mkState ∅ ∅ h w0 in
  (run_ops c ops s).1 = (run_ops_uncached c ops s).1
  ∧ st_world (run_ops c ops s).2 = st_world (run_ops_uncached c ops s).2
  ∧ st_heaps (run_ops c ops s).2 = st_heaps (run_ops_uncached c ops s).2
  ∧ cache_ok (run_ops c ops s).2.
Proof.
  intros Hk s. destruct (run_ops_same ops s s Hk) as (Hr & Hh & Hw & Hok & _).
  - repeat split; apply cache_ok_empty || done.
  - done.
Qed.
End caches.

(** ** What reaches the API server *)

(** A world that keeps the requests made of it; discovery by the mapper is
    not counted. *)
Class SentRequests (W : Type) `{RestAPI W} (c : restClient W) := {
  sent : W → list (RestRequest + MetadataRequest);
  sent_Do : ∀ cfg rq w, sent (rest_Do cfg rq w).2 = sent w ++ [inl rq];
  sent_metadata_Do : ∀ rq w, sent (metadata_Do rq w).2 = sent w ++ [inr rq];
  sent_metadata_Object : ∀ rq w, sent (metadata_Object rq w).2 = sent w ++ [inr rq];
  sent_metadata_List : ∀ rq w, sent (metadata_List rq w).2 = sent w ++ [inr rq];
  sent_mapper : ∀ gk vs w, sent (rc_mapper c gk vs w).2 = sent w;
}.

Section requests.
Context `{RestAPI W} (c : restClient W) `{!SentRequests W c}.
Implicit Types (s : RestState W) (obj : Object).

(** At most one request is sent, and it is one of [P]. *)
Definition sends {R} (P : RestRequest + MetadataRequest → Prop) s (r : R * RestState W * option error) : Prop :=
  sent (st_world r.1.2) = sent (st_world s) ∨
  ∃ rq, sent (st_world r.1.2) = sent (st_world s) ++ [rq] ∧ P rq.

(** A step that sends nothing and leaves what raw options point to. *)
Definition quiet s s' : Prop := sent (st_world s') = sent (st_world s) ∧ st_heaps s' = st_heaps s.

Lemma quiet_refl s : quiet s s.
Proof. done. Qed.

Lemma getResource_of_quiet t own s r s' : getResource_of c t own s = (r, s') → quiet s s'.
Proof.
  unfold getResource_of, newResource, quiet. intros Hr.
  destruct (GVKForObject_of _ _ _); [|by simplify_eq].
  destruct (_ !! _); [by simplify_eq|]. 
  destruct (RESTClientForGVK _ _ _); [|by simplify_eq].
  match type of Hr with context [rc_mapper c ?gk ?vs ?w] => pose proof (sent_mapper gk vs w) as Hm;
    destruct (rc_mapper c gk vs w) as [[m|e] w'] end; cbn in Hm;
    [destruct (is_unstructured t)|]; by simplify_eq/=.
Qed.

Lemma getResourceInterface_quiet gvk ns s r w :
  getResourceInterface c gvk ns (st_world s) = (r, w) → quiet s (set_world s w).
Proof.
  unfold getResourceInterface, quiet. intros Hr.
  pose proof (sent_mapper (gvk_GroupKind gvk) [gvk_Version gvk] (st_world s)) as Hm.
  destruct (rc_mapper _ _ _ _) as [[m|e] w']; cbn in Hm; repeat case_decide; by simplify_eq/=.
Qed.

Lemma do_into_sends cfg rq obj s :
  sent (st_world (do_into cfg rq obj s).1.2) = sent (st_world s) ++ [inl rq].
Proof.
  unfold do_into. rewrite <- (sent_Do cfg). destruct (rest_Do _ _ _) as [[b|e] w]; [|done].
  by destruct (Into _ _ _).
Qed.
Lemma do_error_sends cfg rq s :
  sent (st_world (do_error cfg rq s).1) = sent (st_world s) ++ [inl rq].
Proof. unfold do_error. rewrite <- (sent_Do cfg). by destruct (rest_Do _ _ _) as [[b|e] w]. Qed.
Lemma do_into_list_sends cfg rq l s :
  sent (st_world (do_into_list cfg rq l s).1.2) = sent (st_world s) ++ [inl rq].
Proof.
  unfold do_into_list. rewrite <- (sent_Do cfg). destruct (rest_Do _ _ _) as [[b|e] w]; [|done].
  by destruct (Into_list _ _ _).
Qed.

(** The options on the wire are those of the call. *)
Ltac wire := unfold as_create, as_update, as_patch, as_delete, as_list, AsCreateOptions, AsUpdateOptions,
    AsPatchOptions, AsDeleteOptions, AsListOptions; intros Hok;
  match goal with |- context [ensure_raw ?z ?f ?h ?raw] =>
    let He := fresh in destruct (ensure_raw z f h raw) as [l h'] eqn:He;
    rewrite (ensure_raw_deref _ _ _ _ _ _ Hok He) end; done.

Lemma as_create_wire o s : raw_ok (h_create (st_heaps s)) (co_Raw o) →
  rc_DryRun (as_create o s).1 = co_DryRun o ∧ rc_FieldManager (as_create o s).1 = co_FieldManager o
  ∧ st_world (as_create o s).2 = st_world s.
Proof. wire. Qed.
Lemma as_update_wire o s : raw_ok (h_update (st_heaps s)) (uo_Raw o) →
  ru_DryRun (as_update o s).1 = uo_DryRun o ∧ ru_FieldManager (as_update o s).1 = uo_FieldManager o
  ∧ st_world (as_update o s).2 = st_world s.
Proof. wire. Qed.
Lemma as_patch_wire o s : raw_ok (h_patch (st_heaps s)) (po_Raw o) →
  rp_DryRun (as_patch o s).1 = po_DryRun o ∧ rp_FieldManager (as_patch o s).1 = po_FieldManager o
  ∧ rp_Force (as_patch o s).1 = po_Force o ∧ st_world (as_patch o s).2 = st_world s.
Proof. wire. Qed.
Lemma as_delete_wire o s : raw_ok (h_delete (st_heaps s)) (do_Raw o) →
  rd_DryRun (as_delete o s).1 = do_DryRun o
  ∧ rd_Preconditions (as_delete o s).1 = do_Preconditions o
  ∧ st_world (as_delete o s).2 = st_world s.
Proof. wire. Qed.
Lemma as_list_quiet o s :
  st_world (as_list o s).2 = st_world s ∧ h_delete (st_heaps (as_list o s).2) = h_delete (st_heaps s).
Proof. unfold as_list, AsListOptions. by destruct (ensure_raw _ _ _ _). Qed.
Lemma as_delete_quiet o s : st_world (as_delete o s).2 = st_world s.
Proof. unfold as_delete, AsDeleteOptions. by destruct (ensure_raw _ _ _ _). Qed.

(** ** The request of an operation *)

Definition codec_of (t : GoType) : ParamCodec :=
  if decide (t = Unstructured) then noConversionParamCodec else SchemeParamCodec.
Definition list_codec_of (t : GoType) : ParamCodec :=
  if decide (t = UnstructuredList) then noConversionParamCodec else SchemeParamCodec.

(** The options of the operation go through valid raw pointers. *)
Definition op_raw_ok s (op : client_op) : Prop :=
  match op with
  | OpGet _ _ | OpList _ _ => True
  | OpCreate opts _ => raw_ok (h_create (st_heaps s)) (co_Raw (CreateOptions_ApplyOptions opts zero_create))
  | OpUpdate opts _ | OpStatusUpdate opts _ =>
      raw_ok (h_update (st_heaps s)) (uo_Raw (UpdateOptions_ApplyOptions opts zero_update))
  | OpDelete opts _ => raw_ok (h_delete (st_heaps s)) (do_Raw (DeleteOptions_ApplyOptions opts zero_delete))
  | OpDeleteAllOf opts _ =>
      raw_ok (h_delete (st_heaps s))
        (do_Raw (dao_DeleteOptions (DeleteAllOfOptions_ApplyOptions opts zero_deleteAllOf)))
  | OpPatch _ opts _ | OpStatusPatch _ opts _ =>
      raw_ok (h_patch (st_heaps s)) (po_Raw (PatchOptions_ApplyOptions opts zero_patch))
  end.

(** The options fit the raw ones. *)
Definition fits_create (o : CreateOptions) (p : RawCreateOptions) : Prop :=
  rc_DryRun p = co_DryRun o ∧ rc_FieldManager p = co_FieldManager o.
Definition fits_update (o : UpdateOptions) (p : RawUpdateOptions) : Prop :=
  ru_DryRun p = uo_DryRun o ∧ ru_FieldManager p = uo_FieldManager o.
Definition fits_patch (o : PatchOptions) (p : RawPatchOptions) : Prop :=
  rp_DryRun p = po_DryRun o ∧ rp_FieldManager p = po_FieldManager o ∧ rp_Force p = po_Force o.
Definition fits_delete (o : DeleteOptions) (d : RawDeleteOptions) : Prop :=
  rd_DryRun d = do_DryRun o ∧ rd_Preconditions d = do_Preconditions o.

(** The request an operation on a Go type or an unstructured object makes,
    the resource being [r]. *)
Definition rest_request_of (op : client_op) (r : resourceMeta) (rq : RestRequest) : Prop :=
  match op with
  | OpGet key _ => rq = get_request r key
  | OpList opts l => ∃ p, rq = list_request (list_codec_of (ol_type l)) r
      (lo_Namespace (ListOptions_ApplyOptions opts zero_list)) p
  | OpCreate opts obj => ∃ p, rq = create_request (codec_of (o_type obj)) r obj p
      ∧ fits_create (CreateOptions_ApplyOptions opts zero_create) p
  | OpUpdate opts obj => ∃ p, rq = update_request (codec_of (o_type obj)) None r obj p
      ∧ fits_update (UpdateOptions_ApplyOptions opts zero_update) p
  | OpStatusUpdate opts obj => ∃ p, rq = update_request (codec_of (o_type obj)) (Some "status") r obj p
      ∧ fits_update (UpdateOptions_ApplyOptions opts zero_update) p
  | OpDelete opts obj => ∃ p, rq = delete_request r obj p
      ∧ fits_delete (DeleteOptions_ApplyOptions opts zero_delete) p
  | OpDeleteAllOf opts obj =>
      let o := DeleteAllOfOptions_ApplyOptions opts zero_deleteAllOf in
      ∃ p d, rq = deleteAllOf_request (codec_of (o_type obj)) r (lo_Namespace (dao_ListOptions o)) p d
      ∧ fits_delete (dao_DeleteOptions o) d
  | OpPatch patch opts obj => ∃ data p, patch_Data patch obj = Ok data
      ∧ rq = patch_request (codec_of (o_type obj)) None r obj (patch_Type patch) data p
      ∧ fits_patch (PatchOptions_ApplyOptions opts zero_patch) p
  | OpStatusPatch patch opts obj => ∃ data p, patch_Data patch obj = Ok data
      ∧ rq = patch_request (codec_of (o_type obj)) (Some "status") r obj (patch_Type patch) data p
      ∧ fits_patch (PatchOptions_ApplyOptions opts zero_patch) p
  end.

(** The call of the metadata client an operation on metadata makes. *)
Definition metadata_call_of (op : client_op) (call : MetadataCall) : Prop :=
  match op with
  | OpGet key _ => call = MGet (nn_Name key)
  | OpList _ _ => ∃ p, call = MList p
  | OpDelete opts obj => ∃ p, call = MDelete (GetName obj) p
      ∧ fits_delete (DeleteOptions_ApplyOptions opts zero_delete) p
  | OpDeleteAllOf opts obj => ∃ d p, call = MDeleteCollection d p
      ∧ fits_delete (dao_DeleteOptions (DeleteAllOfOptions_ApplyOptions opts zero_deleteAllOf)) d
  | OpPatch patch opts obj => ∃ data p, patch_Data patch obj = Ok data
      ∧ call = MPatch (GetName obj) (patch_Type patch) data p []
      ∧ fits_patch (PatchOptions_ApplyOptions opts zero_patch) p
  | OpStatusPatch patch _ obj => ∃ data p, patch_Data patch obj = Ok data
      ∧ call = MPatch (GetName obj) (patch_Type patch) data p ["status"]
      ∧ fits_patch zero_patch p
  | OpCreate _ _ | OpUpdate _ _ | OpStatusUpdate _ _ => False
  end.

Definition op_type (op : client_op) : GoType :=
  match op with
  | OpGet _ obj | OpCreate _ obj | OpUpdate _ obj | OpDelete _ obj | OpDeleteAllOf _ obj
  | OpPatch _ _ obj | OpStatusUpdate _ obj | OpStatusPatch _ _ obj => o_type obj
  | OpList _ l => ol_type l
  end.
Definition op_gvk (op : client_op) : GVK :=
  match op with
  | OpGet _ obj | OpCreate _ obj | OpUpdate _ obj | OpDelete _ obj | OpDeleteAllOf _ obj
  | OpPatch _ _ obj | OpStatusUpdate _ obj | OpStatusPatch _ _ obj => o_gvk obj
  | OpList _ l => ol_gvk l
  end.
(** The namespace an operation names. *)
Definition op_namespace (op : client_op) : string :=
  match op with
  | OpGet key _ => nn_Namespace key
  | OpList opts _ => lo_Namespace (ListOptions_ApplyOptions opts zero_list)
  | OpDeleteAllOf opts _ =>
      lo_Namespace (dao_ListOptions (DeleteAllOfOptions_ApplyOptions opts zero_deleteAllOf))
  | OpCreate _ obj | OpUpdate _ obj | OpDelete _ obj
  | OpPatch _ _ obj | OpStatusUpdate _ obj | OpStatusPatch _ _ obj => GetNamespace obj
  end.

Definition is_metadata (op : client_op) : bool :=
  match op with
  | OpList _ l => bool_decide (ol_type l = PartialObjectMetadataList)
  | _ => bool_decide (op_type op = PartialObjectMetadata)
  end.

Definition op_request s (op : client_op) (rq : RestRequest + MetadataRequest) : Prop :=
  match rq with
  | inl rq => is_metadata op = false
      ∧ ∃ r, (getResource_of c (op_type op) (op_gvk op) s).1 = Ok r ∧ rest_request_of op r rq
  | inr rq => is_metadata op = true ∧
      let gvk := match op with OpList _ _ => trim_List (op_gvk op) | _ => op_gvk op end in
      (getResourceInterface c gvk (op_namespace op) (st_world s)).1
        = Ok (mrq_Resource rq, mrq_Namespace rq)
      ∧ metadata_call_of op (mrq_Call rq)
  end.

#[local] Arguments op_request : simpl never.
Ltac see_world :=
  repeat match goal with
  | |- context [st_world (set_world ?s ?w)] => change (st_world (set_world s w)) with w
  | Hx : context [st_world (set_world ?s ?w)] |- _ => change (st_world (set_world s w)) with w in Hx
  | |- context [st_heaps (set_world ?s ?w)] => change (st_heaps (set_world s w)) with (st_heaps s)
  | Hx : context [st_heaps (set_world ?s ?w)] |- _ =>
      change (st_heaps (set_world s w)) with (st_heaps s) in Hx
  end.

(** Go through a call, keeping track of what is sent. *)
Ltac sends_step :=
  match goal with
  | |- context [match patch_Data ?p ?o with _ => _ end] => destruct (patch_Data p o) eqn:?
  | |- context [getResource_of c ?t ?own ?s] =>
      let Hr := fresh in destruct (getResource_of c t own s) as [[?|?] ?] eqn:Hr;
      pose proof (getResource_of_quiet _ _ _ _ _ Hr) as [? ?]
  | |- context [getResourceInterface c ?g ?n (st_world ?s)] =>
      let Hr := fresh in destruct (getResourceInterface c g n (st_world s)) as [[[? ?]|?] ?] eqn:Hr;
      pose proof (getResourceInterface_quiet _ _ _ _ _ Hr) as [? ?]
  | |- context [as_create ?o ?s] =>
      pose proof (as_create_wire o s ltac:(assumption || congruence)) as (? & ? & ?); destruct (as_create o s)
  | |- context [as_update ?o ?s] =>
      pose proof (as_update_wire o s ltac:(assumption || congruence)) as (? & ? & ?); destruct (as_update o s)
  | |- context [as_patch ?o ?s] =>
      pose proof (as_patch_wire o s ltac:(exact I || assumption || congruence)) as (? & ? & ? & ?); destruct (as_patch o s)
  | |- context [as_delete ?o ?s] =>
      pose proof (as_delete_wire o s ltac:(assumption || congruence)) as (? & ? & ?); destruct (as_delete o s)
  | |- context [as_list ?o ?s] => pose proof (as_list_quiet o s) as [? ?]; destruct (as_list o s)
  | |- context [do_into ?cfg ?rq ?o ?s] =>
      pose proof (do_into_sends cfg rq o s); destruct (do_into cfg rq o s) as [[? ?] ?]
  | |- context [do_into_list ?cfg ?rq ?o ?s] =>
      pose proof (do_into_list_sends cfg rq o s); destruct (do_into_list cfg rq o s) as [[? ?] ?]
  | |- context [do_error ?cfg ?rq ?s] =>
      pose proof (do_error_sends cfg rq s); destruct (do_error cfg rq s) as [? ?]
  | |- context [metadata_Do ?rq ?w] =>
      pose proof (sent_metadata_Do rq w); destruct (metadata_Do rq w) as [? ?]
  | |- context [metadata_Object ?rq ?w] =>
      pose proof (sent_metadata_Object rq w); destruct (metadata_Object rq w) as [[?|?] ?]
  | |- context [metadata_List ?rq ?w] =>
      pose proof (sent_metadata_List rq w); destruct (metadata_List rq w) as [[?|?] ?]
  end; cbn in *; see_world.

Ltac sends_done :=
  cbn in *;
  first
  [ left; congruence
  | match goal with
    | Hs : sent _ = sent _ ++ [?rq] |- _ =>
        right; exists rq; split; [congruence|]
    end;
    unfold op_request, is_metadata, fits_create, fits_update, fits_patch, fits_delete; cbn;
    unfold codec_of, list_codec_of, fits_create, fits_update, fits_patch, fits_delete;
    match goal with
    | Ht : o_type _ = _ |- _ => rewrite ?Ht
    | Ht : ol_type _ = _ |- _ => rewrite ?Ht
    end;
    first [rewrite bool_decide_false by done | rewrite bool_decide_true by done]; split; [done|];
    match goal with
    | Hr : getResource_of c _ _ _ = _ |- _ => rewrite Hr
    | Hr : getResourceInterface c _ _ _ = _ |- _ => rewrite Hr
    end; cbn; eauto 12 ].

(** Every operation of the client sends at most one request, the one of the
    operation. *)
Lemma run_op_sends op s :
  op_raw_ok s op →
  sent (st_world (run_op c op s).2) = sent (st_world s) ∨
  ∃ rq, sent (st_world (run_op c op s).2) = sent (st_world s) ++ [rq] ∧ op_request s op rq.
Proof.
  intros Hok. destruct op; cbn in Hok; cbn [run_op];
    unfold client_Get, client_List, client_Create, client_Update, client_Delete, client_DeleteAllOf,
      client_Patch, statusWriter_Update, statusWriter_Patch, deferred_reset;
    (destruct (o_type obj) eqn:Ht || destruct (ol_type l) eqn:Ht);
    unfold typed_Get, typed_List, typed_Create, typed_Update, typed_UpdateStatus, typed_put, typed_Delete,
      typed_DeleteAllOf, typed_Patch, typed_PatchStatus, typed_patch,
      unstructured_Get, unstructured_List, unstructured_Create, unstructured_Update,
      unstructured_UpdateStatus, unstructured_Delete, unstructured_DeleteAllOf,
      unstructured_Patch, unstructured_PatchStatus, restore_gvk,
      metadata_Get, metadata_List_, metadata_Delete, metadata_DeleteAllOf, metadata_Patch,
      metadata_PatchStatus, metadata_into,
      getObjMeta, getResource, getResource_list, obj_result, list_result;
    rewrite ?Ht; repeat (rewrite decide_False by (intros Hne; by apply Hne)).
  all: repeat sends_step.
  all: sends_done.
Qed.

(** ** Operations of any client over the same state *)

Definition call_op (cl : Client (RestState W)) (op : client_op) s : op_result * RestState W :=
  match op with
  | OpGet key obj => obj_result (Get cl key obj s)
  | OpList opts l => list_result (List cl opts l s)
  | OpCreate opts obj => obj_result (Create cl opts obj s)
  | OpUpdate opts obj => obj_result (Update cl opts obj s)
  | OpDelete opts obj => obj_result (Delete cl opts obj s)
  | OpDeleteAllOf opts obj => obj_result (DeleteAllOf cl opts obj s)
  | OpPatch patch opts obj => obj_result (Patch_ cl patch opts obj s)
  | OpStatusUpdate opts obj => obj_result (Status_Update (Status cl) opts obj s)
  | OpStatusPatch patch opts obj => obj_result (Status_Patch (Status cl) patch opts obj s)
  end.

Lemma call_op_rest scopes op s : call_op (rest_Client c scopes) op s = run_op c op s.
Proof. by destruct op. Qed.

(** ** Dry runs *)

Definition mutating (op : client_op) : Prop :=
  match op with OpGet _ _ | OpList _ _ => False | _ => True end.
Definition metadata_status_patch (op : client_op) : Prop :=
  match op with OpStatusPatch _ _ obj => o_type obj = PartialObjectMetadata | _ => False end.
Definition is_metadata_status_patch (op : client_op) : bool :=
  match op with OpStatusPatch _ _ obj => bool_decide (o_type obj = PartialObjectMetadata) | _ => false end.
Lemma is_metadata_status_patch_spec op : is_metadata_status_patch op = true ↔ metadata_status_patch op.
Proof. destruct op; cbn; [done..|]. apply bool_decide_eq_true. Qed.

(** The dry-run directive of a request that changes something. *)
Definition request_DryRun (rq : RestRequest + MetadataRequest) : option (list string) :=
  match rq with
  | inl rq =>
      match rq_Params rq, rq_Body rq with
      | Some (_, CreateParams o), _ => rc_DryRun o
      | Some (_, UpdateParams o), _ => ru_DryRun o
      | Some (_, PatchParams o), _ => rp_DryRun o
      | _, Some (DeleteBody d) => rd_DryRun d
      | _, _ => None
      end
  | inr rq =>
      match mrq_Call rq with
      | MDelete _ d | MDeleteCollection d _ => rd_DryRun d
      | MPatch _ _ _ o _ => rp_DryRun o
      | _ => None
      end
  end.

Definition dry_op (op : client_op) : client_op :=
  match op with
  | OpGet _ _ | OpList _ _ => op
  | OpCreate opts obj => OpCreate (opts ++ [dryRunAll_ApplyToCreate]) obj
  | OpUpdate opts obj => OpUpdate (opts ++ [dryRunAll_ApplyToUpdate]) obj
  | OpDelete opts obj => OpDelete (opts ++ [dryRunAll_ApplyToDelete]) obj
  | OpDeleteAllOf opts obj => OpDeleteAllOf (opts ++ [dryRunAll_ApplyToDeleteAllOf]) obj
  | OpPatch patch opts obj => OpPatch patch (opts ++ [dryRunAll_ApplyToPatch]) obj
  | OpStatusUpdate opts obj => OpStatusUpdate (opts ++ [dryRunAll_ApplyToUpdate]) obj
  | OpStatusPatch patch opts obj => OpStatusPatch patch (opts ++ [dryRunAll_ApplyToPatch]) obj
  end.

Lemma dry_op_raw_ok s op : op_raw_ok s op → op_raw_ok s (dry_op op).
Proof.
  destruct op; cbn [op_raw_ok dry_op]; by autorewrite with options.
Qed.

(** What the dry-run client promises holds on the wire, with one
    exception.  An operation of a dry-run client over the client of the API
    server sends at most one request; when the operation changes something,
    the request carries the dry-run directive [All], whatever options the
    caller gives - unless the operation patches the status of an object of
    which only the metadata is known, in which case the request carries no
    directive at all and changes the object. *)
Theorem dry_run_on_the_wire scopes op s :
  mutating op → op_raw_ok s op →
  let s' := (call_op (NewDryRunClient (rest_Client c scopes)) op s).2 in
  sent (st_world s') = sent (st_world s) ∨
  ∃ rq, sent (st_world s') = sent (st_world s) ++ [rq]
    ∧ (metadata_status_patch op → request_DryRun rq = None)
    ∧ (¬ metadata_status_patch op → request_DryRun rq = dry_run_all).
Proof.
  intros Hm Hok s'.
  assert (call_op (NewDryRunClient (rest_Client c scopes)) op s = run_op c (dry_op op) s) as Heq
    by by destruct op.
  subst s'. rewrite Heq. clear Heq.
  destruct (run_op_sends (dry_op op) s (dry_op_raw_ok _ _ Hok)) as [?|(rq & Hs & Hrq)]; [by left|].
  right. exists rq. split; [done|]. clear Hs.
  unfold op_request in Hrq. destruct rq as [rq|rq].
  - destruct Hrq as (Hmd & r & _ & Hrq).
    destruct op; try done; cbn in Hrq, Hmd;
      unfold fits_create, fits_update, fits_patch, fits_delete in Hrq; autorewrite with options in Hrq;
      (split; [intros Hst; cbn in Hst|intros _]); try done;
      try (by rewrite bool_decide_true in Hmd); naive_solver.
  - destruct Hrq as (Hmd & _ & Hrq). destruct rq as [res ns call]. cbn in Hrq.
    destruct op; try done; cbn in Hrq, Hmd; apply bool_decide_eq_true in Hmd;
      unfold fits_patch, fits_delete in Hrq; autorewrite with options in Hrq;
      (split; [intros Hst; cbn in Hst|intros Hst; cbn in Hst]); try done; naive_solver.
Qed.
End requests.

(** ** Where requests go *)

Section addresses.
Context `{RestAPI W} (c : restClient W) `{!SentRequests W c}.
Variable mapping_of : GroupKind → list string → result RESTMapping.
Hypothesis mapper_static : ∀ gk vs w, rc_mapper c gk vs w = (mapping_of gk vs, w).
Implicit Types (s : RestState W) (obj : Object).

#[local] Instance addresses_stable w0 : StableMapper c w0 := static_stable c mapping_of mapper_static w0.

(** The kind of the objects an operation is about: that of the elements for a
    list.  The metadata client takes the object's word for it. *)
Definition op_kind (op : client_op) (gvk : GVK) : Prop :=
  if is_metadata op then
    gvk = match op with OpList _ _ => trim_List (op_gvk op) | _ => op_gvk op end
  else ∃ g, GVKForObject_of (op_type op) (op_gvk op) (rc_scheme c) = Ok g ∧
    gvk = if HasSuffix (gvk_Kind g) "List" then trim_List g else g.

Definition op_name (op : client_op) : option string :=
  match op with
  | OpGet key _ => Some (nn_Name key)
  | OpList _ _ | OpCreate _ _ | OpDeleteAllOf _ _ => None
  | OpUpdate _ obj | OpDelete _ obj | OpPatch _ _ obj | OpStatusUpdate _ obj | OpStatusPatch _ _ obj =>
      Some (GetName obj)
  end.
Definition op_subresource (op : client_op) : option string :=
  match op with OpStatusUpdate _ _ | OpStatusPatch _ _ _ => Some "status" | _ => None end.

(** Resource, namespace, name and subresource of a request. *)
Definition address (rq : RestRequest + MetadataRequest)
    : string * option string * option string * option string :=
  match rq with
  | inl rq => (rq_Resource rq, rq_Namespace rq, rq_Name rq, rq_SubResource rq)
  | inr rq =>
      let '(name, sub) := match mrq_Call rq with
        | MDelete name _ | MGet name => (Some name, None)
        | MPatch name _ _ _ subs => (Some name, head subs)
        | MDeleteCollection _ _ | MList _ | MWatch _ => (None, None)
        end in
      (gvr_Resource (mrq_Resource rq), mrq_Namespace rq, name, sub)
  end.

Definition mapping_address (m : RESTMapping) (op : client_op)
    : string * option string * option string * option string :=
  (gvr_Resource (mapping_Resource m),
   if decide (mapping_Scope m = ScopeRoot) then None else Some (op_namespace op),
   op_name op, op_subresource op).

Lemma newResource_mapping gvk u w r w' :
  newResource c gvk true u w = (Ok r, w') →
  let gvk := if HasSuffix (gvk_Kind gvk) "List" then trim_List gvk else gvk in
  mapping_of (gvk_GroupKind gvk) [gvk_Version gvk] = Ok (rme_mapping r).
Proof.
  unfold newResource. rewrite andb_true_r. destruct (RESTClientForGVK _ _ _); [|done].
  rewrite mapper_static. destruct (mapping_of _ _) eqn:Hm; [|done]. by intros [= <- _].
Qed.

Lemma NamespaceIfScoped_mapping r ns :
  NamespaceIfScoped ns (rme_isNamespaced r)
  = if decide (mapping_Scope (rme_mapping r) = ScopeRoot) then None else Some ns.
Proof. unfold NamespaceIfScoped, rme_isNamespaced. by case_decide; case_bool_decide. Qed.

(** An operation of the client sends at most one request, and sends it to
    the resource the mapper gives for the kind of the object - of the
    elements for a list - under the operation's name, with the namespace of
    the object, key or options exactly when the mapping is not
    cluster-scoped, and to the subresource [status] for the two status
    writes; whether the object is of a Go type, unstructured or metadata
    only, and whether the mapping was cached or not. *)
Theorem requests_address_the_resource op s :
  op_raw_ok s op → op_list_kind c op → cache_ok c s →
  sent (st_world (run_op c op s).2) = sent (st_world s) ∨
  ∃ rq gvk m, sent (st_world (run_op c op s).2) = sent (st_world s) ++ [rq]
    ∧ op_kind op gvk ∧ mapping_of (gvk_GroupKind gvk) [gvk_Version gvk] = Ok m
    ∧ address rq = mapping_address m op.
Proof.
  intros Hraw Hk Hok. destruct (run_op_sends c op s Hraw) as [?|(rq & Hs & Hrq)]; [by left|].
  right. exists rq. unfold op_request in Hrq. unfold op_kind, mapping_address. destruct rq as [rq|rq].
  - destruct Hrq as (Hmd & r & Hr & Hrq). rewrite Hmd.
    assert (list_kind c (op_type op) (op_gvk op)) as Hlk by by destruct op.
    destruct (getResource_of_spec c _ _ _ s Hlk Hok (rtc_refl _ _)) as (s' & Hg & _).
    rewrite Hg in Hr. cbn in Hr.
    destruct (GVKForObject_of _ _ _) as [g|e] eqn:Hgvk; [|done].
    destruct (newResource c g true _ _) as [nr w'] eqn:Hn. cbn in Hr. subst nr.
    apply newResource_mapping in Hn. do 2 eexists. split; [exact Hs|].
    split; [by exists g|]. split; [exact Hn|].
    destruct op; cbn in Hrq |- *; naive_solver (rewrite ?NamespaceIfScoped_mapping; done).
  - destruct Hrq as (Hmd & Hi & Hcall). rewrite Hmd.
    unfold getResourceInterface in Hi. rewrite mapper_static in Hi.
    destruct (mapping_of _ _) as [m|e] eqn:Hm; [|done].
    do 2 eexists. split; [exact Hs|]. split; [done|]. split; [exact Hm|].
    destruct rq as [res ns call]; cbn in *.
    assert (res = mapping_Resource m
      ∧ ns = if decide (mapping_Scope m = ScopeRoot) then None else Some (op_namespace op)) as [-> ->]
      by (by case_decide; simplify_eq/=).
    destruct op; cbn in Hcall |- *; naive_solver.
Qed.

(** ** A namespaced client over the client of the API server *)

(** The wrapping client sees the same scopes, which do not depend on the
    version, and the scheme believes unstructured objects. *)
Definition scopes_agree (scopes : RESTMapper) : Prop :=
  (∀ gk v m, mapping_of gk [v] = Ok m → rm_RESTMapping scopes gk [] = Ok ScopeRoot →
     mapping_Scope m = ScopeRoot)
  ∧ (∀ own g, GVKForObject_of Unstructured own (rc_scheme c) = Ok g → g = own).

(** The object of the operations that write one. *)
Definition write_object (op : client_op) : option Object :=
  match op with
  | OpCreate _ obj | OpUpdate _ obj | OpDelete _ obj | OpPatch _ _ obj
  | OpStatusUpdate _ obj | OpStatusPatch _ _ obj => Some obj
  | OpGet _ _ | OpList _ _ | OpDeleteAllOf _ _ => None
  end.
Definition with_object (op : client_op) (obj : Object) : client_op :=
  match op with
  | OpGet key _ => OpGet key obj
  | OpList opts l => OpList opts l
  | OpCreate opts _ => OpCreate opts obj
  | OpUpdate opts _ => OpUpdate opts obj
  | OpDelete opts _ => OpDelete opts obj
  | OpDeleteAllOf opts _ => OpDeleteAllOf opts obj
  | OpPatch patch opts _ => OpPatch patch opts obj
  | OpStatusUpdate opts _ => OpStatusUpdate opts obj
  | OpStatusPatch patch opts _ => OpStatusPatch patch opts obj
  end.

(** Objects are not of list types. *)
Definition op_object_type (op : client_op) : Prop :=
  match op with
  | OpList _ _ => True
  | _ => IsListType (op_type op) = false ∧ op_type op ≠ UnstructuredList
  end.
Definition op_is_list (op : client_op) : bool :=
  match op with OpList _ _ => true | _ => false end.

(** An object the namespaced client takes for cluster-scoped has a
    cluster-scoped mapping. *)
Lemma not_namespaced_root scopes op obj gvk m :
  scopes_agree scopes → isNamespaced (rest_Client c scopes) obj = Ok false →
  op_type op = o_type obj → op_gvk op = o_gvk obj → op_is_list op = false →
  op_object_type op → op_list_kind c op →
  op_kind op gvk → mapping_of (gvk_GroupKind gvk) [gvk_Version gvk] = Ok m →
  mapping_Scope m = ScopeRoot.
Proof.
  intros [Hroot Huns] Hn Ht Hg Hnl Hty Hlk Hkind Hm.
  assert (IsListType (o_type obj) = false ∧ o_type obj ≠ UnstructuredList) as [Hl Hul]
    by (rewrite <- Ht; by destruct op).
  assert (list_kind c (o_type obj) (o_gvk obj)) as Hlk'
    by (rewrite <- Ht, <- Hg; by destruct op).
  apply result_bind_Ok in Hn as (g & Hgk & Hn).
  assert (rm_RESTMapping scopes (gvk_GroupKind g) [] = Ok ScopeRoot) as Hrm.
  { change (gvk_GroupKind g) with (mkGK (gvk_Group g) (gvk_Kind g)). cbn in Hn.
    by destruct (rm_RESTMapping scopes _ _) as [[]|]. }
  enough (g = gvk) as <- by by eapply Hroot. clear Hrm Hn Hm Hroot.
  unfold op_kind, GVKForObject in *. revert Hkind. rewrite Ht, Hg.
  assert (is_metadata op = bool_decide (o_type obj = PartialObjectMetadata)) as ->
    by (rewrite <- Ht; by destruct op).
  case_bool_decide as Hpm.
  - rewrite Hpm in Hgk. cbn in Hgk. destruct op; try done; cbn in Hg; intros ->; rewrite ?Hg;
      by repeat case_decide; simplify_eq/=.
  - intros (g' & Hg' & ->).
    assert (HasSuffix (gvk_Kind g') "List" = false) as ->.
    { destruct (HasSuffix _ _) eqn:Hs; [|done]. by rewrite (Hlk' g' Hg' Hs) in Hl. }
    change (Client_Scheme _) with (rc_scheme c) in Hgk.
    destruct (o_type obj); cbv iota in Hgk; try congruence. apply Huns in Hg'. congruence.
Qed.

Lemma with_object_facts op obj obj' s :
  write_object op = Some obj → o_type obj' = o_type obj → o_gvk obj' = o_gvk obj →
  op_type (with_object op obj') = op_type op ∧ op_gvk (with_object op obj') = op_gvk op
  ∧ op_type op = o_type obj ∧ op_gvk op = o_gvk obj
  ∧ op_is_list (with_object op obj') = false
  ∧ op_namespace (with_object op obj') = GetNamespace obj'
  ∧ (op_raw_ok s op → op_raw_ok s (with_object op obj'))
  ∧ (op_list_kind c op → op_list_kind c (with_object op obj'))
  ∧ (op_object_type op → op_object_type (with_object op obj')).
Proof.
  intros Hw Ht Hg. destruct op; cbn in Hw; simplify_eq; cbn; rewrite ?Ht, ?Hg; repeat split; tauto.
Qed.

Lemma op_kind_ext op op' gvk :
  op_type op = op_type op' → op_gvk op = op_gvk op' → op_is_list op = op_is_list op' →
  op_kind op gvk → op_kind op' gvk.
Proof.
  assert (∀ o, is_metadata o = if op_is_list o then bool_decide (op_type o = PartialObjectMetadataList)
                               else bool_decide (op_type o = PartialObjectMetadata)) as Hmd
    by by intros [].
  assert (∀ o, match o with OpList _ _ => trim_List (op_gvk o) | _ => op_gvk o end
               = if op_is_list o then trim_List (op_gvk o) else op_gvk o) as Htr by by intros [].
  intros Ht Hg Hl. unfold op_kind. by rewrite !Htr, !Hmd, Ht, Hg, Hl.
Qed.

(** What an operation of the namespaced client becomes: nothing, or an
    operation of the wrapped client of the same sort, on the same type and
    kind, whose namespace is the client's unless its object is
    cluster-scoped. *)
Lemma namespaced_op scopes ns op s :
  ns ≠ "" →
  (call_op (NewNamespacedClient (rest_Client c scopes) ns) op s).2 = s ∨
  ∃ op', (call_op (NewNamespacedClient (rest_Client c scopes) ns) op s).2 = (run_op c op' s).2
    ∧ op_type op' = op_type op ∧ op_gvk op' = op_gvk op ∧ op_is_list op' = op_is_list op
    ∧ (op_raw_ok s op → op_raw_ok s op') ∧ (op_list_kind c op → op_list_kind c op')
    ∧ (op_object_type op → op_object_type op')
    ∧ (op_namespace op' = ns ∨
       ∃ obj, op_is_list op' = false ∧ op_type op' = o_type obj ∧ op_gvk op' = o_gvk obj
         ∧ isNamespaced (rest_Client c scopes) obj = Ok false).
Proof.
  intros Hns. set (cl := rest_Client c scopes).
  assert (∀ obj op, write_object op = Some obj →
    call_op (NewNamespacedClient cl ns) op s
    = match enforce_namespace cl ns obj with
      | Err e => ((inl obj, Some e), s)
      | Ok obj' => run_op c (with_object op obj') s
      end) as Hw.
  { intros obj op' Hw. destruct op'; cbn in Hw; simplify_eq; cbn;
      unfold namespaced_Create, namespaced_Update, namespaced_Delete, namespaced_Patch,
        namespaced_Status_Update, namespaced_Status_Patch, with_namespace, cl;
      by destruct (enforce_namespace _ _ _). }
  destruct (write_object op) as [obj|] eqn:Hop.
  - rewrite (Hw obj op Hop). unfold enforce_namespace.
    destruct (isNamespaced cl obj) as [b|e] eqn:Hn; [|by left].
    case_decide as Hother; [by left|]. right.
    assert (∀ obj', o_type obj' = o_type obj → o_gvk obj' = o_gvk obj →
      GetNamespace obj' = ns ∨ (obj' = obj ∧ b = false) →
      ∃ op', (run_op c (with_object op obj') s).2 = (run_op c op' s).2
        ∧ op_type op' = op_type op ∧ op_gvk op' = op_gvk op ∧ op_is_list op' = op_is_list op
        ∧ (op_raw_ok s op → op_raw_ok s op') ∧ (op_list_kind c op → op_list_kind c op')
        ∧ (op_object_type op → op_object_type op')
        ∧ (op_namespace op' = ns ∨
           ∃ obj, op_is_list op' = false ∧ op_type op' = o_type obj ∧ op_gvk op' = o_gvk obj
             ∧ isNamespaced cl obj = Ok false)) as Hgo.
    { intros obj' Ht Hg Hcase. exists (with_object op obj').
      destruct (with_object_facts op obj obj' s Hop Ht Hg)
        as (? & ? & ? & ? & ? & Hnamespace & ? & ? & ?).
      do 3 (split; [done|]). split; [by destruct op|]. do 3 (split; [done|]). rewrite Hnamespace.
      destruct Hcase as [->|[-> ->]]; [by left|right]. exists obj. repeat split; congruence. }
    case_decide as Hdef; [apply Hgo; [done..|by left]|apply Hgo; [done..|]].
    destruct b; [left|by right].
    destruct (decide (GetNamespace obj = ns)), (decide (GetNamespace obj = "")); tauto.
  - destruct op as [key obj|opts l| | |opts obj| | | |]; try done; cbn.
    + unfold namespaced_Get. destruct (isNamespaced cl obj) as [[]|e] eqn:Hn; [| |by left].
      * case_decide; [by left|]. right. exists (OpGet (mkNN ns (nn_Name key)) obj).
        repeat (split; [done|]). by left.
      * right. exists (OpGet key obj). repeat (split; [done|]). right. by exists obj.
    + right. exists (OpList (opts ++ [InNamespace_ApplyToList ns]) l).
      unfold namespaced_List. rewrite decide_True by done. repeat (split; [done|]).
      left. cbn. by rewrite ListOptions_snoc.
    + unfold namespaced_DeleteAllOf. destruct (isNamespaced cl obj) as [[]|e] eqn:Hn; [| |by left].
      * right. exists (OpDeleteAllOf (opts ++ [InNamespace_ApplyToDeleteAllOf ns]) obj).
        cbn. rewrite DeleteAllOfOptions_snoc. repeat (split; [done|]). by left.
      * right. exists (OpDeleteAllOf opts obj). repeat (split; [done|]). right. by exists obj.
Qed.

(** What the namespaced client promises holds on the wire: an operation
    of a client for the namespace [ns] over the client of the API server -
    with any options, on objects of any sort that name any namespace - sends
    at most one request, and the request is in the namespace [ns], unless the
    resource it goes to, the one of the kind of the object, is
    cluster-scoped, in which case it names no namespace. *)
Theorem namespaced_requests_on_the_wire scopes ns op s :
  scopes_agree scopes → ns ≠ "" →
  op_raw_ok s op → op_list_kind c op → op_object_type op → cache_ok c s →
  let s' := (call_op (NewNamespacedClient (rest_Client c scopes) ns) op s).2 in
  sent (st_world s') = sent (st_world s) ∨
  ∃ rq gvk m, sent (st_world s') = sent (st_world s) ++ [rq]
    ∧ op_kind op gvk ∧ mapping_of (gvk_GroupKind gvk) [gvk_Version gvk] = Ok m
    ∧ (address rq).1.1 = (gvr_Resource (mapping_Resource m),
                          if decide (mapping_Scope m = ScopeRoot) then None else Some ns).
Proof.
  intros Hsc Hns Hraw Hlk Hty Hok s'. subst s'.
  destruct (namespaced_op scopes ns op s Hns)
    as [->|(op' & -> & Ht & Hg & Hl & Hraw' & Hlk' & Hty' & Hcase)]; [by left|].
  destruct (requests_address_the_resource op' s (Hraw' Hraw) (Hlk' Hlk) Hok)
    as [?|(rq & gvk & m & Hs & Hkind & Hm & Ha)]; [by left|].
  right. exists rq, gvk, m. split; [done|]. split.
  { by apply (op_kind_ext op' op). }
  split; [done|]. rewrite Ha. cbn. case_decide as Hroot; [done|].
  destruct Hcase as [->|(obj & Hnl & Hto & Hgo & Hn)]; [done|].
  destruct Hroot. by eapply (not_namespaced_root scopes op' obj); eauto.
Qed.
End addresses.

(** ** Kinds of objects *)

(** Decoding does not change the Go type of the target, and the metadata
    client returns metadata objects. *)
Class RestAPILaws (W : Type) `{RestAPI W} := {
  Into_type : ∀ cfg body obj, o_type (Into cfg body obj).1 = o_type obj;
  metadata_Object_type : ∀ rq w obj w',
    metadata_Object rq w = (Ok obj, w') → o_type obj = PartialObjectMetadata;
  metadata_List_type : ∀ rq w l w',
    metadata_List rq w = (Ok l, w') → ol_type l = PartialObjectMetadataList;
}.

Section kinds.
Context `{RestAPI W} (c : restClient W) `{!RestAPILaws W}.
Implicit Types (s : RestState W) (obj : Object).



















End kinds.

(** ** Raw options after a watch *)

Section watches.
Context `{RestAPI W} (c : restClient W) `{!SentRequests W c, !WatchAPI (W := W)}.
Implicit Types (s : RestState W) (l : ObjectList) (p : loc).

(** What the options of a list request are on the wire. *)
Definition request_list_params (rq : RestRequest + MetadataRequest) : option RawListOptions :=
  match rq with
  | inl rq => match rq_Params rq with Some (_, ListParams r) => Some r | _ => None end
  | inr rq => match mrq_Call rq with MList r => Some r | _ => None end
  end.

(** The raw options at [p] ask for a watch. *)
Definition raw_watches s p : Prop :=
  ∃ r, h_list (st_heaps s) !! p = Some r ∧ rl_Watch r = true.

Lemma as_list_at o s p r :
  lo_Raw o = Some p → h_list (st_heaps s) !! p = Some r →
  (as_list o s).1 = AsListOptions_fill o r
  ∧ h_list (st_heaps (as_list o s).2) !! p = Some (AsListOptions_fill o r).
Proof.
  intros Hp Hr. unfold as_list, AsListOptions. rewrite Hp. cbn. unfold set_heaps. cbn.
  by rewrite lookup_alter_eq, Hr.
Qed.

Lemma watch_listOpts_at opts s p :
  lo_Raw (ListOptions_ApplyOptions opts zero_list) = Some p → is_Some (h_list (st_heaps s) !! p) →
  lo_Raw (watch_listOpts opts s).1 = Some p ∧ raw_watches (watch_listOpts opts s).2 p.
Proof.
  intros Hp [r Hr]. unfold watch_listOpts. rewrite Hp. cbn. split; [done|].
  eexists. unfold set_heaps. cbn. by rewrite lookup_alter_eq, Hr.
Qed.

Lemma as_list_watches o s p : lo_Raw o = Some p → raw_watches s p → raw_watches (as_list o s).2 p.
Proof. intros Hp (r & Hr & Hw). eexists. split; [by apply (as_list_at o s p r)|done]. Qed.

Lemma watch_raw_watches opts l s r s' p :
  watchingClient_Watch c opts l s = (r, s') →
  lo_Raw (ListOptions_ApplyOptions opts zero_list) = Some p → is_Some (h_list (st_heaps s) !! p) →
  is_ok r = true → raw_watches s' p.
Proof.
  intros Hw Hp Hs Hok.
  assert (∀ s1, st_heaps s1 = st_heaps s → ∀ lo s2, watch_listOpts opts s1 = (lo, s2) →
    ∀ s3, st_heaps s3 = st_heaps s2 → raw_watches (as_list lo s3).2 p) as Hgo.
  { intros s1 Hh lo s2 Hl s3 Hh3. destruct (watch_listOpts_at opts s1 p Hp) as [Hlo Hr]; [by rewrite Hh|].
    rewrite Hl in Hlo, Hr. apply as_list_watches; [done|]. destruct Hr as (r0 & ? & ?). exists r0.
    cbn in *. by rewrite Hh3. }
  unfold watchingClient_Watch, typedWatch, unstructuredWatch, metadataWatch, getResource_list in Hw.
  destruct (ol_type l);
    try (destruct (getResource_of _ _ _ _) as [[rm|e] s1] eqn:Hr;
         [pose proof (getResource_of_quiet _ _ _ _ _ _ Hr) as [_ Hh]|by simplify_eq/=];
         destruct (watch_listOpts opts s1) as [lo s2] eqn:Hl;
         specialize (Hgo _ Hh _ _ Hl s2 eq_refl); destruct (as_list lo s2) as [lp s3];
         cbn in Hw; injection Hw as <- <-; exact Hgo).
  destruct (watch_listOpts opts s) as [lo s2] eqn:Hl.
  destruct (getResourceInterface _ _ _ _) as [[[res ns]|e] w] eqn:Hr; [|by simplify_eq/=].
  specialize (Hgo s eq_refl _ _ Hl (set_world s2 w) eq_refl).
  destruct (as_list lo _) as [lp s3]. cbn in Hw. injection Hw as <- <-. exact Hgo.
Qed.

(** A list request through the pointer [p]. *)
Lemma list_request_at opts l s p r :
  lo_Raw (ListOptions_ApplyOptions opts zero_list) = Some p → h_list (st_heaps s) !! p = Some r →
  let s' := (run_op c (OpList opts l) s).2 in
  sent (st_world s') = sent (st_world s) ∨
  ∃ rq, sent (st_world s') = sent (st_world s) ++ [rq]
    ∧ request_list_params rq = Some (AsListOptions_fill (ListOptions_ApplyOptions opts zero_list) r).
Proof.
  intros Hp Hr. cbn. unfold client_List, typed_List, unstructured_List, metadata_List_, getResource_list.
  destruct (ol_type l) eqn:Ht; repeat (rewrite decide_False by (intros Hne; by apply Hne));
    try (destruct (getResource_of _ _ _ _) as [[rm|e] s1] eqn:Hg;
         pose proof (getResource_of_quiet _ _ _ _ _ _ Hg) as [Hq Hh]; [|by left];
         rewrite <- Hh in Hr;
         pose proof (proj1 (as_list_at _ s1 _ _ Hp Hr)) as Hfill;
         pose proof (as_list_quiet (ListOptions_ApplyOptions opts zero_list) s1) as [Hw _];
         destruct (as_list _ s1) as [lp s2]; cbn in Hfill, Hw; subst lp;
         right; eexists; cbn;
         (split; [rewrite do_into_list_sends; rewrite Hw, Hq; reflexivity|done])).
  destruct (getResourceInterface _ _ _ _) as [[[res ns]|e] w] eqn:Hg;
    pose proof (getResourceInterface_quiet _ _ _ _ _ _ Hg) as [Hq _]; [|by left].
  pose proof (proj1 (as_list_at _ (set_world s w) _ _ Hp Hr)) as Hfill.
  pose proof (as_list_quiet (ListOptions_ApplyOptions opts zero_list) (set_world s w)) as [Hw _].
  destruct (as_list _ _) as [lp s2]. cbn in Hfill, Hw. subst lp.
  right. exists (inr (mkMetadataRequest res ns
    (MList (AsListOptions_fill (ListOptions_ApplyOptions opts zero_list) r)))).
  split; [|done]. cbn in *.
  pose proof (sent_metadata_List (mkMetadataRequest res ns
    (MList (AsListOptions_fill (ListOptions_ApplyOptions opts zero_list) r))) (st_world s2)) as Hsent.
  destruct (metadata_List _ _) as [[lr|e] w2]; unfold set_world in *; cbn in *; by rewrite Hsent, Hw, <- Hq.
Qed.

(** A watch leaves the raw options of its caller asking for a watch: when
    the options of a watch carry a raw pointer, the struct behind it has
    [Watch] set after a successful watch - of Go types, unstructured objects
    or metadata - and stays so; and then every list made with options that
    carry the same pointer is sent to the API server with [Watch] set, and
    with the limit and continue token of the raw struct, not those of its own
    options. *)
Theorem watch_marks_shared_raw_options opts l s id s' p :
  watchingClient_Watch c opts l s = (Ok id, s') →
  lo_Raw (ListOptions_ApplyOptions opts zero_list) = Some p → is_Some (h_list (st_heaps s) !! p) →
  ∃ r, h_list (st_heaps s') !! p = Some r ∧ rl_Watch r = true ∧
    ∀ opts' l', lo_Raw (ListOptions_ApplyOptions opts' zero_list) = Some p →
      let s'' := (run_op c (OpList opts' l') s').2 in
      sent (st_world s'') = sent (st_world s') ∨
      ∃ rq r', sent (st_world s'') = sent (st_world s') ++ [rq] ∧ request_list_params rq = Some r'
        ∧ rl_Watch r' = true ∧ rl_Limit r' = rl_Limit r ∧ rl_Continue r' = rl_Continue r.
Proof.
  intros Hw Hp Hs. destruct (watch_raw_watches _ _ _ _ _ _ Hw Hp Hs eq_refl) as (r & Hr & Hwatch).
  exists r. do 2 (split; [done|]). intros opts' l' Hp'.
  destruct (list_request_at opts' l' s' p r Hp' Hr) as [?|(rq & Hsent & Hrq)]; [by left|].
  right. exists rq. eexists. do 2 (split; [done|]). cbn. by rewrite Hwatch.
Qed.
End watches.
