(* ===== verification/Samples.v ===== *)
(** * Concrete instances of the parameters of the model

    One concrete scheme, REST mapper, [metav1] helper set and inert client.
    The theorems of the development are proved for every instance; these only
    serve to evaluate definitions and to show that the hypotheses of the
    theorems can hold together. *)

From S2P Require Export Client.

Definition pod_gvk : GVK := mkGVK "" "v1" "Pod".
Definition deployment_gvk : GVK := mkGVK "apps" "v1" "Deployment".
Definition node_gvk : GVK := mkGVK "" "v1" "Node".

(** A scheme that knows pods, deployments, nodes and their lists, and takes
    an unstructured object's word for its kind. *)
Definition sample_scheme : Scheme := {|
  sch_ObjectKinds := λ t own,
    match t with
    | Typed "Pod" => Ok ([pod_gvk], false)
    | Typed "PodList" => Ok ([mkGVK "" "v1" "PodList"], false)
    | Typed "Deployment" => Ok ([deployment_gvk], false)
    | Typed "Node" => Ok ([node_gvk], false)
    | Typed _ => Err (ErrorString "no kind is registered for the type")
    | _ => Ok ([own], false)
    end;
  sch_Recognizes := λ g, bool_decide (g = pod_gvk ∨ g = deployment_gvk ∨ g = node_gvk);
|}.

(** Nodes are cluster-scoped, the rest is namespaced. *)
Definition sample_mapper : RESTMapper := {|
  rm_RESTMapping := λ gk _,
    Ok (if decide (gk_Kind gk = "Node") then ScopeRoot else ScopeOther "namespace");
|}.

Definition sample_IsListType (t : GoType) : bool :=
  match t with
  | Typed n => HasSuffix n "List"
  | UnstructuredList | PartialObjectMetadataList => true
  | _ => false
  end.

(** "group/version" or "version". *)
Definition sample_ParseGroupVersion (s : string) : result GroupVersion :=
  match String.index 0 "/" s with
  | None => Ok (mkGV "" s)
  | Some i =>
      let rest := String.substring (S i) (String.length s) s in
      match String.index 0 "/" rest with
      | None => Ok (mkGV (String.substring 0 i s) rest)
      | Some _ => Err (ErrorString "unexpected GroupVersion string")
      end
  end.

Definition sample_gv_String (gv : GroupVersion) : string :=
  if decide (gv_Group gv = "") then gv_Version gv else gv_Group gv +:+ "/" +:+ gv_Version gv.

Definition sample_GetControllerOf (o : Object) : option OwnerReference :=
  snd <$> list_find (λ r, is_controller_ref r = true) (GetOwnerReferences o).

Definition sample_MetaV1 : MetaV1 := {|
  ParseGroupVersion := sample_ParseGroupVersion;
  gv_String := sample_gv_String;
  GetControllerOf := sample_GetControllerOf;
|}.

Lemma sample_MetaV1_laws : @MetaV1Laws sample_MetaV1.
Proof.
  split.
  - intros o r. cbn. unfold sample_GetControllerOf.
    destruct (list_find _ _) as [[i x]|] eqn:Hf; cbn; [|done]. intros [= ->].
    apply list_find_Some in Hf as (Hi & Hc & _). split; [|done].
    by eapply list_elem_of_lookup_2.
  - intros o. cbn. unfold sample_GetControllerOf. rewrite fmap_None, list_find_None.
    apply Forall_proper; [|done]. intros r. by destruct (is_controller_ref r).
Qed.

(** A client that does nothing. *)
Definition inert_client (W : Type) : Client W := {|
  Get := λ _ o w, (o, w, None);
  List := λ _ l w, (l, w, None);
  Create := λ _ o w, (o, w, None);
  Delete := λ _ o w, (o, w, None);
  Update := λ _ o w, (o, w, None);
  Patch_ := λ _ _ o w, (o, w, None);
  DeleteAllOf := λ _ o w, (o, w, None);
  Status := {| Status_Update := λ _ o w, (o, w, None); Status_Patch := λ _ _ o w, (o, w, None) |};
  Client_Scheme := sample_scheme;
  Client_RESTMapper := sample_mapper;
|}.

Definition sample_pod : Object := bare_object (Typed "Pod") pod_gvk "default" "web".
Definition sample_podlist : ObjectList := mkList (Typed "PodList") (mkGVK "" "v1" "PodList") [].

Definition sample_delegating_input : NewDelegatingClientInput unit :=
  Build_NewDelegatingClientInput (Client_Reader (inert_client unit)) (inert_client unit)
    [sample_pod] false.

Lemma delegatingClient_routes_witness :
  ∃ d bypass, NewDelegatingClient sample_IsListType sample_delegating_input = Ok d ∧ bypass = true ∧
    (∀ key w, Get d key sample_pod w =
      if (bypass : bool) then Get (inert_client unit) key sample_pod w
      else Get (inert_client unit) key sample_pod w).
Proof.
  destruct (NewDelegatingClient sample_IsListType sample_delegating_input) as [d|] eqn:Hd;
    [|discriminate Hd].
  destruct (delegatingClient_routes sample_IsListType sample_delegating_input d sample_pod
              sample_podlist pod_gvk Hd eq_refl eq_refl eq_refl eq_refl eq_refl)
    as (bypass & Hb & Hget & _).
  exists d, bypass. split; [reflexivity|]. split; [|exact Hget].
  apply Hb. left. exists sample_pod. split; [apply list_elem_of_singleton; reflexivity|reflexivity].
Defined.
