(* ===== verification/RestSamples.v ===== *)
(** * The theorems of RestClientFacts at concrete inputs

    An API server that accepts everything and keeps the requests it got, the
    scheme and mapper of Samples, and the theorems about the client applied
    to operations on pods, deployments and nodes. *)

From S2P Require Export RestClientFacts Samples.

(** The world is the list of requests received. *)
Definition log_world : Type := list (RestRequest + MetadataRequest).

#[export] Instance log_API : RestAPI log_world := {|
  ContentTypeProtobuf := "application/vnd.kubernetes.protobuf";
  DefaultKubernetesUserAgent := "agent";
  protobufScheme_Recognizes := λ g, bool_decide (g = pod_gvk);
  RESTClientFor := λ _, None;
  rest_Do := λ _ rq w, (Ok "stored", w ++ [inl rq]);
  Into := λ _ body o, (mkObject (o_type o) EmptyGVK (o_meta o) body, None);
  Into_list := λ _ _ l, (l, None);
  metadata_Do := λ rq w, (None, w ++ [inr rq]);
  metadata_Object := λ rq w, (Ok (bare_object PartialObjectMetadata EmptyGVK "" ""), w ++ [inr rq]);
  metadata_List := λ rq w,
    (Ok (mkList PartialObjectMetadataList EmptyGVK
           [bare_object PartialObjectMetadata EmptyGVK "default" "web"]), w ++ [inr rq]);
  IsListType := sample_IsListType;
  typed_ObjectKind := λ _, true;
|}.

#[export] Instance log_WatchAPI : WatchAPI (W := log_world) := {|
  rest_Watch := λ _ rq w, (Ok 0, w);
  metadata_Watch := λ rq w, (Ok 0, w);
  dynamic_Watch := λ _ _ _ w, (Ok 0, w);
|}.

(** Pods, deployments and nodes have resources; nodes are cluster-scoped. *)
Definition sample_mapping (gk : GroupKind) (vs : list string) : result RESTMapping :=
  Ok (mkMapping (mkGVR (gk_Group gk) (default "" (head vs)) (gk_Kind gk +:+ "s"))
        (if decide (gk_Kind gk = "Node") then ScopeRoot else ScopeOther "namespace")).

Definition log_client : restClient log_world :=
  mkClient (mkConfig None "" "" "" None "") sample_scheme (λ gk vs w, (sample_mapping gk vs, w)).

#[export] Instance log_sent : SentRequests log_world log_client.
Proof. refine {| sent := id |}; reflexivity. Defined.

#[export] Instance log_laws : RestAPILaws log_world.
Proof.
  split; [reflexivity| |].
  - intros rq w obj w' [= <- _]. reflexivity.
  - intros rq w l w' [= <- _]. reflexivity.
Qed.

Definition log_start : RestState log_world := mkState ∅ ∅ (mkHeaps ∅ ∅ ∅ ∅ ∅) [].

Definition metadata_pod : Object := bare_object PartialObjectMetadata pod_gvk "default" "web".
Definition scale_patch : Patch := {| patch_Type := "merge"; patch_Data := λ _, Ok "{}" |}.

Lemma sample_list_kind t own :
  IsListType t = true ∨ t = Typed "Pod" →
  list_kind log_client t own.
Proof.
  intros [Ht| ->] g Hg Hs; [exact Ht|]. cbn in Hg. injection Hg as <-. discriminate Hs.
Qed.

(** The same API server and the dynamic mapper of [RestMapper], which does not
    know the kind Web at first: the world holds the mapper, the tokens of its
    limiter and the requests. *)
Definition dynamic_world : Type := dynamicRESTMapper * nat * log_world.

Definition logged {A} (w : dynamic_world) (r : A * log_world) : A * dynamic_world := (r.1, (w.1, r.2)).

#[export] Instance dynamic_API : RestAPI dynamic_world := {|
  ContentTypeProtobuf := ContentTypeProtobuf (RestAPI := log_API);
  DefaultKubernetesUserAgent := DefaultKubernetesUserAgent (RestAPI := log_API);
  protobufScheme_Recognizes := protobufScheme_Recognizes (RestAPI := log_API);
  RESTClientFor := RESTClientFor (RestAPI := log_API);
  rest_Do := λ cfg rq w, logged w (rest_Do cfg rq w.2);
  Into := Into (RestAPI := log_API);
  Into_list := Into_list (RestAPI := log_API);
  metadata_Do := λ rq w, logged w (metadata_Do rq w.2);
  metadata_Object := λ rq w, logged w (metadata_Object rq w.2);
  metadata_List := λ rq w, logged w (metadata_List rq w.2);
  IsListType := sample_IsListType;
  typed_ObjectKind := λ _, true;
|}.

(** A mapper that is ready never panics. *)
Definition dynamic_mapper : Mapper dynamic_world := λ gk vs w,
  let '(d, tokens, r) := drm_RESTMapping tokens_Allow tokens_newMapper gk vs w.1.1 w.1.2 in
  (match r with Returned r => r | Panicked msg => Err (ErrorString msg) end, (d, tokens, w.2)).

Definition dynamic_client : restClient dynamic_world :=
  mkClient (mkConfig None "" "" "" None "") sample_scheme dynamic_mapper.
Definition dynamic_start : dynamic_world := (drm_before, 3, []).

(** The mapper before and after it has found the kind. *)
Definition before_Web (w : dynamic_world) : Prop :=
  drm_staticMapper w.1.1 = Some static_before ∧ drm_lazy w.1.1 = false.
Definition after_Web (w : dynamic_world) : Prop := w.1.1 = mkDRM (Some static_after) false true.

(** The mapper is asked with a static mapper in place. *)
Lemma dynamic_mapper_asked gk vs w m :
  drm_staticMapper w.1.1 = Some m → drm_lazy w.1.1 = false →
  dynamic_mapper gk vs w =
  match sm_RESTMapping m gk vs, w.1.2 with
  | Ok a, n => (Ok a, (mkDRM (Some m) false true, n, w.2))
  | Err e, 0 => (Err e, (mkDRM (Some m) false true, 0, w.2))
  | Err e, S n => (sm_RESTMapping static_after gk vs, (mkDRM (Some static_after) false true, n, w.2))
  end.
Proof.
  destruct w as [[[sm lazy inited] n] log]. cbn. intros -> ->.
  unfold dynamic_mapper, drm_RESTMapping, drm_method, drm_init, checkAndReload, reload_section, ask. cbn.
  destruct inited; cbn; destruct (sm_RESTMapping m gk vs) as [a|e] eqn:Ha; cbn; try done;
    unfold ask; cbn; rewrite ?Ha; by destruct n.
Qed.

Lemma after_asked gk vs w : after_Web w →
  (dynamic_mapper gk vs w).1 = sm_RESTMapping static_after gk vs
  ∧ after_Web (dynamic_mapper gk vs w).2
  ∧ (is_ok (sm_RESTMapping static_after gk vs) = true → (dynamic_mapper gk vs w).2 = w).
Proof.
  intros Hw. rewrite (dynamic_mapper_asked _ _ w static_after) by by rewrite Hw.
  destruct w as [[d n] log]. unfold after_Web in *. cbn in Hw. subst d.
  cbn [fst snd]. destruct (sm_RESTMapping static_after gk vs), n; done.
Qed.

Lemma before_asked gk vs w : before_Web w →
  after_Web (dynamic_mapper gk vs w).2
  ∨ before_Web (dynamic_mapper gk vs w).2 ∧ is_ok (dynamic_mapper gk vs w).1 = false.
Proof.
  intros [Hm Hl]. rewrite (dynamic_mapper_asked _ _ w static_before) by done. cbn.
  destruct (w.1.2); [by right|by left].
Qed.

Lemma asks_after w w' : rtc (asks dynamic_client) w w' → after_Web w → after_Web w'.
Proof.
  induction 1 as [w|w1 w2 w3 Hs _ IH]; [done|]. intros Hw. apply IH.
  destruct Hs; try exact Hw. by apply (after_asked gk vs w).
Qed.

Lemma asks_before w w' : rtc (asks dynamic_client) w w' → before_Web w → before_Web w' ∨ after_Web w'.
Proof.
  induction 1 as [w|w1 w2 w3 Hs Hr IH]; [by left|]. intros Hw.
  destruct Hs; try (by apply IH).
  destruct (before_asked gk vs w Hw) as [Ha|[Hb _]]; [right; by eapply asks_after|by apply IH].
Qed.

#[export] Instance dynamic_stable : StableMapper dynamic_client dynamic_start.
Proof.
  intros gk vs w m w' Hw Hm w2 Hw2. cbn in Hm |- *.
  assert (after_Web w' ∧ sm_RESTMapping static_after gk vs = Ok m) as (Ha & Hr).
  { destruct (asks_before _ _ Hw) as [Hb|Ha]; [done|..].
    - pose proof Hb as [Hs Hl]. rewrite (dynamic_mapper_asked _ _ _ _ Hs Hl) in Hm. cbn in Hm.
      destruct (w.1.2); [done|]. by injection Hm as Hm <-.
    - destruct (after_asked gk vs w Ha) as (H1 & H2 & _). rewrite Hm in H1, H2. cbn in H1, H2. done. }
  pose proof (asks_after _ _ Hw2 Ha) as Ha2. destruct (after_asked gk vs w2 Ha2) as (H1 & _ & H3).
  rewrite Hr in H1, H3. specialize (H3 eq_refl). destruct (dynamic_mapper gk vs w2). cbn in *. by subst.
Qed.

Definition web_gvk : GVK := mkGVK "apps.example.org" "v1" "Web".
Definition sample_web : Object := bare_object Unstructured web_gvk "default" "web".

(** A kind nobody knows, one that is found when it is asked for, twice, and a
    list of it. *)
Definition dynamic_ops : list client_op :=
  [OpGet (mkNN "default" "db") (bare_object Unstructured (mkGVK "" "v1" "Db") "default" "db");
   OpGet (mkNN "default" "web") sample_web; OpGet (mkNN "default" "web") sample_web;
   OpList [] (mkList UnstructuredList (mkGVK "apps.example.org" "v1" "WebList") [])].

Lemma dynamic_ops_list_kind : Forall (op_list_kind dynamic_client) dynamic_ops.
Proof.
  repeat constructor; intros g Hg Hs; cbn in Hg; try (injection Hg as <-; discriminate Hs).
Qed.

Lemma client_caches_refine_recomputation_witness :
  Forall (op_list_kind dynamic_client) dynamic_ops ∧
  (run_ops dynamic_client dynamic_ops (mkState ∅ ∅ (mkHeaps ∅ ∅ ∅ ∅ ∅) dynamic_start)).1
  = (run_ops_uncached dynamic_client dynamic_ops (mkState ∅ ∅ (mkHeaps ∅ ∅ ∅ ∅ ∅) dynamic_start)).1.
Proof.
  split; [exact dynamic_ops_list_kind|].
  exact (proj1 (client_caches_refine_recomputation dynamic_client dynamic_start
    dynamic_ops (mkHeaps ∅ ∅ ∅ ∅ ∅) dynamic_ops_list_kind)).
Defined.

(** A delete whose caller asks for no dry run, and the patch of a status of
    metadata, through a dry-run client. *)
Definition dry_delete : client_op := OpDelete [] sample_pod.
Definition dry_status_patch : client_op := OpStatusPatch scale_patch [] metadata_pod.

Lemma dry_run_on_the_wire_witness :
  (∃ rq, sent (st_world (call_op (NewDryRunClient (rest_Client log_client sample_mapper)) dry_delete log_start).2)
         = [rq] ∧ request_DryRun rq = dry_run_all) ∧
  (∃ rq, sent (st_world (call_op (NewDryRunClient (rest_Client log_client sample_mapper))
                           dry_status_patch log_start).2)
         = [rq] ∧ request_DryRun rq = None).
Proof.
  split.
  - destruct (dry_run_on_the_wire log_client sample_mapper dry_delete log_start I I)
      as [Hn|(rq & Hs & _ & Hd)]; [discriminate Hn|].
    exists rq. split; [exact Hs|]. apply Hd. intros Hf. exact Hf.
  - destruct (dry_run_on_the_wire log_client sample_mapper dry_status_patch log_start I I)
      as [Hn|(rq & Hs & Hd & _)]; [discriminate Hn|].
    exists rq. split; [exact Hs|]. apply Hd. reflexivity.
Defined.

Lemma log_start_cache_ok : cache_ok log_client log_start.
Proof. intros [] g r Hg; cbn in Hg; rewrite lookup_empty in Hg; discriminate Hg. Qed.

Lemma requests_address_the_resource_witness :
  ∃ rq gvk m, sent (st_world (run_op log_client (OpGet (mkNN "default" "web") sample_pod) log_start).2) = [rq]
    ∧ op_kind log_client (OpGet (mkNN "default" "web") sample_pod) gvk
    ∧ address rq = mapping_address m (OpGet (mkNN "default" "web") sample_pod).
Proof.
  destruct (requests_address_the_resource log_client sample_mapping (λ _ _ _, eq_refl)
    (OpGet (mkNN "default" "web") sample_pod) log_start I
    (sample_list_kind (Typed "Pod") pod_gvk (or_intror eq_refl)) log_start_cache_ok)
    as [Hn|(rq & gvk & m & Hs & Hk & Hm & Ha)]; [discriminate Hn|].
  exists rq, gvk, m. split; [exact Hs|]. split; [exact Hk|exact Ha].
Defined.

Lemma sample_scopes_agree : scopes_agree log_client sample_mapping sample_mapper.
Proof.
  split.
  - intros gk v m [= <-] Hr. cbn in *. destruct (decide (gk_Kind gk = "Node")); [reflexivity|discriminate Hr].
  - intros own g [= <-]. reflexivity.
Qed.

Lemma namespaced_requests_on_the_wire_witness :
  ∃ rq m, sent (st_world (call_op (NewNamespacedClient (rest_Client log_client sample_mapper) "default")
                            (OpDelete [] sample_pod) log_start).2) = [rq]
    ∧ (address rq).1.1 = (gvr_Resource (mapping_Resource m),
                          if decide (mapping_Scope m = ScopeRoot) then None else Some "default").
Proof.
  assert ("default" ≠ "") as Hne by discriminate.
  assert (op_object_type (OpDelete [] sample_pod)) as Hty by (split; [reflexivity|discriminate]).
  destruct (namespaced_requests_on_the_wire log_client sample_mapping (λ _ _ _, eq_refl) sample_mapper
    "default" (OpDelete [] sample_pod) log_start sample_scopes_agree Hne I
    (sample_list_kind (Typed "Pod") pod_gvk (or_intror eq_refl)) Hty log_start_cache_ok)
    as [Hn|(rq & gvk & m & Hs & _ & _ & Ha)]; [discriminate Hn|].
  exists rq, m. split; [exact Hs|exact Ha].
Defined.


(** Raw options with a limit of their own. *)
Definition raw_start : RestState log_world :=
  mkState ∅ ∅ (mkHeaps ∅ ∅ ∅ ∅ {[ 1%positive := mkRawList "" "" false 7 "" "" ]}) [].
Definition raw_options (limit : Z) : list ListOption :=
  [λ o, mkListOptions None None "default" limit "" (Some 1%positive)].

Lemma watch_marks_shared_raw_options_witness :
  ∃ s' r, watchingClient_Watch log_client (raw_options 0) sample_podlist raw_start = (Ok 0, s')
    ∧ h_list (st_heaps s') !! 1%positive = Some r ∧ rl_Watch r = true.
Proof.
  destruct (watchingClient_Watch log_client (raw_options 0) sample_podlist raw_start) as [id s'] eqn:Hw.
  assert (id = Ok 0) as -> by (vm_compute in Hw; injection Hw as <- _; reflexivity).
  assert (is_Some (h_list (st_heaps raw_start) !! 1%positive)) as Hs by (vm_compute; eexists; reflexivity).
  destruct (watch_marks_shared_raw_options log_client (raw_options 0) sample_podlist raw_start 0 s' 1%positive
    Hw eq_refl Hs) as (r & Hr & Hwatch & _).
  exists s', r. split; [reflexivity|]. split; [exact Hr|exact Hwatch].
Defined.
