(* ===== verification/FakeClient.v ===== *)
(** * The fake client (src/pkg/client/fake/client.go)

    The versioned tracker, which puts optimistic concurrency on top of
    client-go's [testing.ObjectTracker], and the client built on it.  The
    tracker, random strings, the clock, the JSON round trip of a read and the
    patch reaction of client-go are parameters.  [meta.Accessor] and
    [meta.TypeAccessor] cannot fail on an [Object], which has the accessors by
    construction, so their error branches do not appear. *)

From S2P Require Export Client.

Record GVR := mkGVR { gvr_Group : string; gvr_Version : string; gvr_Resource : string }.

#[export] Instance GVR_eq_dec : EqDecision GVR.
Proof. solve_decision. Defined.
#[export] Instance GVR_countable : Countable GVR.
Proof.
  refine (inj_countable' (λ g, (gvr_Group g, gvr_Version g, gvr_Resource g))
            (λ p, mkGVR p.1.1 p.1.2 p.2) _).
  by intros [].
Defined.

(** ** Code outside the repository *)

(** [testing.ObjectTracker] of client-go over a state [T]. *)
Class ObjectTracker (T : Type) := {
  t_Add : Object → T → T * option error;
  t_Get : GVR → string → string → T → result Object;
  t_Create : GVR → Object → string → T → T * option error;
  t_Update : GVR → Object → string → T → T * option error;
  t_Delete : GVR → string → string → T → T * option error;
  t_List : GVR → GVK → string → T → result ObjectList;
}.

(** Random strings, the clock, and functions of apimachinery and client-go. *)
Class FakeEnv (E T : Type) := {
  utilrand_String : nat → E → string * E;
  metav1_Now : E → Z * E;
  IsNotFound : error → bool;
  IsListType : GoType → bool;
  UnsafeGuessKindToResource : GVK → GVR;
  AddKnownTypeWithName : GVK → GoType → Scheme → Scheme;
  (** [json.Marshal] then [Decode] into an object or a list. *)
  decode_into : Object → Object → result Object;
  decode_list_into : ObjectList → ObjectList → result ObjectList;
  (** [testing.ObjectReaction] on a patch action: it runs on a tracker whose
      [Update] is given, and says whether it handled the action. *)
  ObjectReaction_Patch :
    (GVR → Object → string → T → Object * T * option error) →
    GVR → string → string → string → string → T → T * bool * result Object;
}.

(** The behaviour of the tracker the code relies on: a store of objects by
    resource, namespace and name. *)
Class ObjectTrackerLaws (T E : Type) `{ObjectTracker T, FakeEnv E T} := {
  t_view : T → gmap (GVR * string * string) Object;
  t_Get_Some : ∀ gvr ns n t o,
    t_view t !! (gvr, ns, n) = Some o → t_Get gvr ns n t = Ok o;
  t_Get_None : ∀ gvr ns n t,
    t_view t !! (gvr, ns, n) = None → ∃ e, t_Get gvr ns n t = Err e ∧ IsNotFound e = true;
  t_Create_spec : ∀ gvr o ns t, ns = GetNamespace o →
    match t_view t !! (gvr, ns, GetName o) with
    | Some _ => ∃ e, t_Create gvr o ns t = (t, Some e)
    | None => ∃ t', t_Create gvr o ns t = (t', None)
                    ∧ t_view t' = <[(gvr, ns, GetName o) := o]> (t_view t)
    end;
  t_Update_spec : ∀ gvr o ns t, ns = GetNamespace o →
    match t_view t !! (gvr, ns, GetName o) with
    | Some _ => ∃ t', t_Update gvr o ns t = (t', None)
                      ∧ t_view t' = <[(gvr, ns, GetName o) := o]> (t_view t)
    | None => ∃ e, t_Update gvr o ns t = (t, Some e)
    end;
  t_Delete_spec : ∀ gvr ns n t,
    match t_view t !! (gvr, ns, n) with
    | Some _ => ∃ t', t_Delete gvr ns n t = (t', None)
                      ∧ t_view t' = delete (gvr, ns, n) (t_view t)
    | None => ∃ e, t_Delete gvr ns n t = (t, Some e)
    end;
  t_Add_spec : ∀ o t t' err, t_Add o t = (t', err) →
    ∀ k x, t_view t' !! k = Some x → x = o ∨ t_view t !! k = Some x;
  (** A request whose namespace is not the object's is refused. *)
  t_wrong_namespace : ∀ gvr o ns t, ns ≠ GetNamespace o →
    (∃ e, t_Create gvr o ns t = (t, Some e)) ∧ (∃ e, t_Update gvr o ns t = (t, Some e));
  (** The reaction changes the tracker through the [Update] it is given only. *)
  ObjectReaction_inv : ∀ (P : T → Prop) upd,
    (∀ gvr o ns t, P t → P (upd gvr o ns t).1.2) →
    ∀ gvr ns n ty data t, P t → P (ObjectReaction_Patch (E := E) upd gvr ns n ty data t).1.1;
}.

(** ** Which kinds may be updated unconditionally, or created by an update *)

Definition allowsUnconditionalUpdate (gvk : GVK) : bool :=
  let kind_in ks := bool_decide (gvk_Kind gvk ∈ (ks : list string)) in
  match gvk_Group gvk with
  | "apps" => kind_in ["ControllerRevision"; "DaemonSet"; "Deployment"; "ReplicaSet"; "StatefulSet"]
  | "autoscaling" => kind_in ["HorizontalPodAutoscaler"]
  | "batch" => kind_in ["CronJob"; "Job"]
  | "certificates" => kind_in ["Certificates"]
  | "flowcontrol" => kind_in ["FlowSchema"; "PriorityLevelConfiguration"]
  | "networking" => kind_in ["Ingress"; "IngressClass"; "NetworkPolicy"]
  | "policy" => kind_in ["PodSecurityPolicy"]
  | "rbac" => kind_in ["ClusterRole"; "ClusterRoleBinding"; "Role"; "RoleBinding"]
  | "scheduling" => kind_in ["PriorityClass"]
  | "settings" => kind_in ["PodPreset"]
  | "storage" => kind_in ["StorageClass"]
  | "" => kind_in ["ConfigMap"; "Endpoint"; "Event"; "LimitRange"; "Namespace"; "Node";
                   "PersistentVolume"; "PersistentVolumeClaim"; "Pod"; "PodTemplate";
                   "ReplicationController"; "ResourceQuota"; "Secret"; "Service";
                   "ServiceAccount"; "EndpointSlice"]
  | _ => false
  end%string.

Definition allowsCreateOnUpdate (gvk : GVK) : bool :=
  let kind_in ks := bool_decide (gvk_Kind gvk ∈ (ks : list string)) in
  match gvk_Group gvk with
  | "coordination" => kind_in ["Lease"]
  | "node" => kind_in ["RuntimeClass"]
  | "rbac" => kind_in ["ClusterRole"; "ClusterRoleBinding"; "Role"; "RoleBinding"]
  | "" => kind_in ["Endpoint"; "Event"; "LimitRange"; "Service"]
  | _ => false
  end%string.

(** [gvk.Empty()]. *)
Definition gvk_Empty (g : GVK) : bool := bool_decide (g = mkGVK "" "" "").

Definition trackerAddResourceVersion : string := "999".

(** ** [objectutil.FilterWithLabels] (src/pkg/internal/objectutil/objectutil.go) *)

Fixpoint FilterWithLabels (objs : list Object) (labelSel : option Selector) : list Object :=
  match objs with
  | [] => []
  | obj :: objs =>
      match labelSel with
      | Some sel =>
          if sel_Matches sel (GetLabels obj) then obj :: FilterWithLabels objs labelSel
          else FilterWithLabels objs labelSel
      | None => obj :: FilterWithLabels objs labelSel
      end
  end.

Section tracker.
Context {T E : Type} `{!ObjectTracker T, !FakeEnv E T}.

(** What [tracker.Add] is given: an object, or a list object. *)
Inductive AddArg := AddObject (o : Object) | AddList (l : ObjectList).

Fixpoint vt_Add_objects (objs : list Object) (t : T) : T * option error :=
  match objs with
  | [] => (t, None)
  | obj :: objs =>
      let obj := if decide (GetResourceVersion obj = "")
                 then SetResourceVersion trackerAddResourceVersion obj else obj in
      match t_Add obj t with
      | (t, Some e) => (t, Some e)
      | (t, None) => vt_Add_objects objs t
      end
  end.

Definition vt_Add (arg : AddArg) (t : T) : T * option error :=
  match arg with
  | AddList l => vt_Add_objects (ol_items l) t
  | AddObject o => vt_Add_objects [o] t
  end.

Definition err_invalid_name : error := StatusError "Invalid" "metadata.name: name is required".
Definition err_rv_set : error :=
  StatusError "BadRequest" "resourceVersion can not be set for Create requests".
Definition err_conflict : error := StatusError "Conflict" "object was modified".
Definition err_rv_number : error := ErrorString "can not convert resourceVersion to int".

(** The calls take a pointer to the object and may change it, also when
    they fail. *)
Definition vt_Create (gvr : GVR) (obj : Object) (ns : string) (t : T) : Object * T * option error :=
  if decide (GetName obj = "") then (obj, t, Some err_invalid_name)
  else if decide (GetResourceVersion obj ≠ "") then (obj, t, Some err_rv_set)
  else
    let obj := SetResourceVersion "1" obj in
    match t_Create gvr obj ns t with
    | (t, Some e) => (SetResourceVersion "" obj, t, Some e)
    | (t, None) => (obj, t, None)
    end.

(** The end of [Update], with the stored object at hand. *)
Definition vt_Update_existing (gvr : GVR) (obj old : Object) (gvk : GVK) (ns : string) (t : T)
    : Object * T * option error :=
  let obj := if bool_decide (GetResourceVersion obj = "") && allowsUnconditionalUpdate gvk
             then SetResourceVersion (GetResourceVersion old) obj else obj in
  if decide (GetResourceVersion obj ≠ GetResourceVersion old) then (obj, t, Some err_conflict)
  else
    let oldRV := if decide (GetResourceVersion old = "") then "0" else GetResourceVersion old in
    match ParseUint oldRV with
    | None => (obj, t, Some err_rv_number)
    | Some intResourceVersion =>
        let obj := SetResourceVersion (FormatUint (uint64_add intResourceVersion 1)) obj in
        if bool_decide (is_Some (GetDeletionTimestamp obj)) && bool_decide (GetFinalizers obj = [])
        then let '(t, err) := t_Delete gvr (GetNamespace obj) (GetName obj) t in (obj, t, err)
        else let '(t, err) := t_Update gvr obj ns t in (obj, t, err)
    end.

Definition vt_Update (scheme : Scheme) (gvr : GVR) (obj : Object) (ns : string) (t : T)
    : Object * T * option error :=
  if decide (GetName obj = "") then (obj, t, Some err_invalid_name)
  else
    match (if gvk_Empty (o_gvk obj) then GVKForObject obj scheme else Ok (o_gvk obj)) with
    | Err e => (obj, t, Some e)
    | Ok gvk =>
        match t_Get gvr ns (GetName obj) t with
        | Err e => if IsNotFound e && allowsCreateOnUpdate gvk then vt_Create gvr obj ns t
                   else (obj, t, Some e)
        | Ok old => vt_Update_existing gvr obj old gvk ns t
        end
    end.
End tracker.

(** ** The fake client *)

Section fake.
Context {T E : Type} `{!ObjectTracker T, !FakeEnv E T}.

Record fakeClient := mkFake { fc_tracker : T; fc_scheme : Scheme; fc_env : E }.

Definition set_tracker (t : T) (c : fakeClient) : fakeClient :=
  mkFake t (fc_scheme c) (fc_env c).
Definition set_env (e : E) (c : fakeClient) : fakeClient :=
  mkFake (fc_tracker c) (fc_scheme c) e.

(** The client builder: its fields, and [Build], which panics when an
    initial object cannot be added. *)
Record ClientBuilder := mkBuilder {
  cb_scheme : option Scheme;
  cb_initObject : list Object;
  cb_initLists : list ObjectList;
  cb_initRuntimeObjects : list AddArg;
}.

Definition NewClientBuilder : ClientBuilder := mkBuilder None [] [] [].
Definition WithScheme (s : Scheme) (f : ClientBuilder) : ClientBuilder :=
  mkBuilder (Some s) (cb_initObject f) (cb_initLists f) (cb_initRuntimeObjects f).
Definition WithObjects (os : list Object) (f : ClientBuilder) : ClientBuilder :=
  mkBuilder (cb_scheme f) (cb_initObject f ++ os) (cb_initLists f) (cb_initRuntimeObjects f).
Definition WithLists (ls : list ObjectList) (f : ClientBuilder) : ClientBuilder :=
  mkBuilder (cb_scheme f) (cb_initObject f) (cb_initLists f ++ ls) (cb_initRuntimeObjects f).
Definition WithRuntimeObjects (os : list AddArg) (f : ClientBuilder) : ClientBuilder :=
  mkBuilder (cb_scheme f) (cb_initObject f) (cb_initLists f) (cb_initRuntimeObjects f ++ os).

Fixpoint add_all (msg : string) (args : list AddArg) (t : T) : outcome T :=
  match args with
  | [] => Returned t
  | a :: args =>
      match vt_Add a t with
      | (t, None) => add_all msg args t
      | (_, Some _) => Panicked msg
      end
  end.

(** [new_tracker] is [testing.NewObjectTracker], [default] is
    [scheme.Scheme] of client-go. *)
Definition Build (default : Scheme) (new_tracker : Scheme → T) (env : E) (f : ClientBuilder)
    : outcome fakeClient :=
  let scheme := match cb_scheme f with Some s => s | None => default end in
  t ← add_all "failed to add object to fake client" (AddObject <$> cb_initObject f) (new_tracker scheme);
  t ← add_all "failed to add list to fake client" (AddList <$> cb_initLists f) t;
  t ← add_all "failed to add runtime object to fake client" (cb_initRuntimeObjects f) t;
  Returned (mkFake t scheme env).

Definition getGVRFromObject (obj : Object) (scheme : Scheme) : result GVR :=
  gvk ← GVKForObject obj scheme; Ok (UnsafeGuessKindToResource gvk).

(** [for _, dryRunOpt := range opts.DryRun { if dryRunOpt == metav1.DryRunAll { return nil } }]. *)
Definition is_dry_run (d : option (list string)) : bool :=
  bool_decide (metav1_DryRunAll ∈ default [] d).

Definition fake_Get (key : NamespacedName) : ObjCall fakeClient := λ obj c,
  match getGVRFromObject obj (fc_scheme c) with
  | Err e => (obj, c, Some e)
  | Ok gvr =>
      match t_Get gvr (nn_Namespace key) (nn_Name key) (fc_tracker c) with
      | Err e => (obj, c, Some e)
      | Ok o =>
          match GVKForObject obj (fc_scheme c) with
          | Err e => (obj, c, Some e)
          | Ok gvk =>
              match decode_into (SetGroupVersionKind gvk o) obj with
              | Err e => (obj, c, Some e)
              | Ok obj => (obj, c, None)
              end
          end
      end
  end.

Definition maxGeneratedNameLength : nat := (63 - 5)%nat.
Definition randomLength : nat := 5%nat.

Definition fake_Create (opts : list CreateOption) : ObjCall fakeClient := λ obj c,
  let createOptions := CreateOptions_ApplyOptions opts (mkCreateOptions None "" None) in
  if is_dry_run (co_DryRun createOptions) then (obj, c, None)
  else match getGVRFromObject obj (fc_scheme c) with
  | Err e => (obj, c, Some e)
  | Ok gvr =>
      let '(obj, c) :=
        if bool_decide (GetName obj = "") && bool_decide (GetGenerateName obj ≠ "") then
          let base := GetGenerateName obj in
          let base := if decide (maxGeneratedNameLength < String.length base)%nat
                      then str_take maxGeneratedNameLength base else base in
          let '(rnd, e) := utilrand_String randomLength (fc_env c) in
          (SetName (base +:+ rnd) obj, set_env e c)
        else (obj, c) in
      let '(obj, t, err) := vt_Create gvr obj (GetNamespace obj) (fc_tracker c) in
      (obj, set_tracker t c, err)
  end.

(** [deleteObject]: [accessor] is only read. *)
Definition deleteObject (gvr : GVR) (accessor : Object) (c : fakeClient) : fakeClient * option error :=
  let delete_now :=
    let '(t, err) := t_Delete gvr (GetNamespace accessor) (GetName accessor) (fc_tracker c) in
    (set_tracker t c, err) in
  match t_Get gvr (GetNamespace accessor) (GetName accessor) (fc_tracker c) with
  | Ok old =>
      if decide (GetFinalizers old ≠ []) then
        let '(now, e) := metav1_Now (fc_env c) in
        let '(_, t, err) := vt_Update (fc_scheme c) gvr (SetDeletionTimestamp (Some now) old)
                              (GetNamespace accessor) (fc_tracker c) in
        (set_tracker t (set_env e c), err)
      else delete_now
  | Err _ => delete_now
  end.

(** The delete options are applied and then not looked at. *)
Definition fake_Delete (opts : list DeleteOption) : ObjCall fakeClient := λ obj c,
  match getGVRFromObject obj (fc_scheme c) with
  | Err e => (obj, c, Some e)
  | Ok gvr =>
      let delOptions := DeleteOptions_ApplyOptions opts (mkDeleteOptions None None None None None) in
      let '(c, err) := deleteObject gvr obj c in (obj, c, err)
  end.

Fixpoint delete_each (gvr : GVR) (objs : list Object) (c : fakeClient) : fakeClient * option error :=
  match objs with
  | [] => (c, None)
  | o :: objs =>
      match deleteObject gvr o c with
      | (c, Some e) => (c, Some e)
      | (c, None) => delete_each gvr objs c
      end
  end.

Definition fake_DeleteAllOf (opts : list DeleteAllOfOption) : ObjCall fakeClient := λ obj c,
  match GVKForObject obj (fc_scheme c) with
  | Err e => (obj, c, Some e)
  | Ok gvk =>
      let dcOptions := DeleteAllOfOptions_ApplyOptions opts
        (mkDeleteAllOfOptions (mkListOptions None None "" 0 "" None)
           (mkDeleteOptions None None None None None)) in
      let gvr := UnsafeGuessKindToResource gvk in
      match t_List gvr gvk (lo_Namespace (dao_ListOptions dcOptions)) (fc_tracker c) with
      | Err e => (obj, c, Some e)
      | Ok o =>
          let filteredObjs := FilterWithLabels (ol_items o)
                                (lo_LabelSelector (dao_ListOptions dcOptions)) in
          let '(c, err) := delete_each gvr filteredObjs c in (obj, c, err)
      end
  end.

Definition fake_Update (opts : list UpdateOption) : ObjCall fakeClient := λ obj c,
  let updateOptions := UpdateOptions_ApplyOptions opts (mkUpdateOptions None "" None) in
  if is_dry_run (uo_DryRun updateOptions) then (obj, c, None)
  else match getGVRFromObject obj (fc_scheme c) with
  | Err e => (obj, c, Some e)
  | Ok gvr =>
      let '(obj, t, err) := vt_Update (fc_scheme c) gvr obj (GetNamespace obj) (fc_tracker c) in
      (obj, set_tracker t c, err)
  end.

(** A patch the tracker does not handle panics; the model reports it as an
    error with a message no other path has. *)
Definition err_patch_panic : error := ErrorString "panic: tracker could not handle patch method".

Definition fake_Patch (p : Patch) (opts : list PatchOption) : ObjCall fakeClient := λ obj c,
  let patchOptions := PatchOptions_ApplyOptions opts (mkPatchOptions None None "" None) in
  if is_dry_run (po_DryRun patchOptions) then (obj, c, None)
  else match getGVRFromObject obj (fc_scheme c) with
  | Err e => (obj, c, Some e)
  | Ok gvr =>
      match patch_Data p obj with
      | Err e => (obj, c, Some e)
      | Ok data =>
          let '(t, handled, r) :=
            ObjectReaction_Patch (E := E) (vt_Update (fc_scheme c)) gvr (GetNamespace obj) (GetName obj)
              (patch_Type p) data (fc_tracker c) in
          let c := set_tracker t c in
          match r with
          | Err e => (obj, c, Some e)
          | Ok o =>
              if negb handled then (obj, c, Some err_patch_panic)
              else match GVKForObject obj (fc_scheme c) with
              | Err e => (obj, c, Some e)
              | Ok gvk =>
                  match decode_into (SetGroupVersionKind gvk o) obj with
                  | Err e => (obj, c, Some e)
                  | Ok obj => (obj, c, None)
                  end
              end
          end
      end
  end.

(** [if strings.HasSuffix(gvk.Kind, "List") { gvk.Kind = gvk.Kind[:len(gvk.Kind)-4] }]. *)
Definition strip_List (gvk : GVK) : GVK :=
  mkGVK (gvk_Group gvk) (gvk_Version gvk) (TrimSuffix (gvk_Kind gvk) "List").

(** [Watch]; what the tracker answers a watch with is its own. *)
Definition fake_Watch {Interface : Type} (t_Watch : GVR → string → T → result Interface)
    (opts : list ListOption) (list_ : ObjectList) (c : fakeClient) : result Interface :=
  match GVKForList list_ (fc_scheme c) with
  | Err e => Err e
  | Ok gvk =>
      let gvk := strip_List gvk in
      let listOpts := ListOptions_ApplyOptions opts (mkListOptions None None "" 0 "" None) in
      t_Watch (UnsafeGuessKindToResource gvk) (lo_Namespace listOpts) (fc_tracker c)
  end.

Definition fake_List (opts : list ListOption) : ListCall fakeClient := λ obj c,
  match GVKForList obj (fc_scheme c) with
  | Err e => (obj, c, Some e)
  | Ok gvk0 =>
      let originalKind := gvk_Kind gvk0 in
      let gvk := strip_List gvk0 in
      let c := if bool_decide (ol_type obj = UnstructuredList)
                  && negb (sch_Recognizes (fc_scheme c) gvk)
               then mkFake (fc_tracker c)
                      (AddKnownTypeWithName
                         (mkGVK (gvk_Group gvk) (gvk_Version gvk) (gvk_Kind gvk +:+ "List"))
                         UnstructuredList (fc_scheme c)) (fc_env c)
               else c in
      let listOpts := ListOptions_ApplyOptions opts (mkListOptions None None "" 0 "" None) in
      let gvr := UnsafeGuessKindToResource gvk in
      match t_List gvr gvk (lo_Namespace listOpts) (fc_tracker c) with
      | Err e => (obj, c, Some e)
      | Ok o =>
          let o := mkList (ol_type o) (mkGVK (gvk_Group gvk) (gvk_Version gvk) originalKind)
                     (ol_items o) in
          match decode_list_into o obj with
          | Err e => (obj, c, Some e)
          | Ok obj =>
              let obj := match lo_LabelSelector listOpts with
                         | Some sel => mkList (ol_type obj) (ol_gvk obj)
                                         (FilterWithLabels (ol_items obj) (Some sel))
                         | None => obj
                         end in
              (obj, c, None)
          end
      end
  end.

(** The fake client as a [Client]; its status writer writes the whole
    object. *)
Definition fake_Status : StatusWriter fakeClient :=
  {| Status_Update := fake_Update; Status_Patch := fake_Patch |}.

Definition fake_Client (scheme : Scheme) (mapper : RESTMapper) : Client fakeClient := {|
  Get := fake_Get;
  List := fake_List;
  Create := fake_Create;
  Delete := fake_Delete;
  Update := fake_Update;
  Patch_ := fake_Patch;
  DeleteAllOf := fake_DeleteAllOf;
  Status := fake_Status;
  Client_Scheme := scheme;
  Client_RESTMapper := mapper;
|}.
End fake.
Arguments fakeClient : clear implicits.

(** ** Optimistic concurrency *)

Section tracker_facts.
Context {T E : Type} `{!ObjectTracker T, !FakeEnv E T, !ObjectTrackerLaws T E}.
Implicit Types (t : T) (obj old : Object) (gvr : GVR).

Definition key_of gvr obj : GVR * string * string := (gvr, GetNamespace obj, GetName obj).

(** The resource version [vt_Update] compares with the stored one. *)
Definition effective_rv obj old gvk : string :=
  if bool_decide (GetResourceVersion obj = "") && allowsUnconditionalUpdate gvk
  then GetResourceVersion old else GetResourceVersion obj.

Definition stored_rv old : string :=
  if decide (GetResourceVersion old = "") then "0" else GetResourceVersion old.

(** The store after a successful update. *)
Definition after_update gvr obj (m : gmap (GVR * string * string) Object) :=
  if bool_decide (is_Some (GetDeletionTimestamp obj)) && bool_decide (GetFinalizers obj = [])
  then delete (key_of gvr obj) m else <[key_of gvr obj := obj]> m.

Lemma vt_Update_existing_spec gvr obj old gvk t :
  t_view t !! key_of gvr obj = Some old →
  match vt_Update_existing gvr obj old gvk (GetNamespace obj) t with
  | (obj', t', None) =>
      effective_rv obj old gvk = GetResourceVersion old
      ∧ ∃ n, ParseUint (stored_rv old) = Some n
        ∧ obj' = SetResourceVersion (FormatUint (uint64_add n 1)) obj
        ∧ t_view t' = after_update gvr obj' (t_view t)
  | (_, t', Some _) =>
      t' = t ∧ (effective_rv obj old gvk ≠ GetResourceVersion old ∨ ParseUint (stored_rv old) = None)
  end.
Proof.
  intros Hold. unfold vt_Update_existing. fold (stored_rv old).
  set (obj1 := if _ && _ then SetResourceVersion _ obj else obj).
  assert (GetResourceVersion obj1 = effective_rv obj old gvk) as ->
    by (unfold obj1, effective_rv; by case_match).
  assert (∀ rv, SetResourceVersion rv obj1 = SetResourceVersion rv obj) as Hset
    by (intros rv; unfold obj1; by case_match).
  case_decide as Hrv; [cbn; by eauto|].
  destruct (ParseUint (stored_rv old)) as [n|] eqn:Hn; [|cbn; by eauto].
  rewrite !Hset. set (obj2 := SetResourceVersion _ obj).
  change (GetDeletionTimestamp obj2) with (GetDeletionTimestamp obj).
  change (GetFinalizers obj2) with (GetFinalizers obj).
  change (GetNamespace obj2) with (GetNamespace obj).
  change (GetName obj2) with (GetName obj).
  assert (after_update gvr obj2 (t_view t) =
    if bool_decide (is_Some (GetDeletionTimestamp obj)) && bool_decide (GetFinalizers obj = [])
    then delete (key_of gvr obj) (t_view t) else <[key_of gvr obj := obj2]> (t_view t)) as Hafter
    by done.
  unfold key_of in *. clear Hset. clearbody obj1.
  destruct (_ && _) eqn:Hdel.
  - pose proof (t_Delete_spec gvr (GetNamespace obj) (GetName obj) t) as Hd.
    rewrite Hold in Hd. destruct Hd as (t' & -> & Hv). split; [done|]. exists n. rewrite Hafter. by eauto.
  - pose proof (t_Update_spec gvr obj2 (GetNamespace obj) t eq_refl) as Hu.
    change (GetName obj2) with (GetName obj) in Hu.
    rewrite Hold in Hu. destruct Hu as (t' & -> & Hv). split; [done|]. exists n. rewrite Hafter. by eauto.
Qed.

(** The kind [vt_Update] looks at. *)
Definition update_gvk (scheme : Scheme) obj : result GVK :=
  if gvk_Empty (o_gvk obj) then GVKForObject obj scheme else Ok (o_gvk obj).

Lemma vt_Create_spec gvr obj t :
  match vt_Create gvr obj (GetNamespace obj) t with
  | (obj', t', None) =>
      GetName obj ≠ "" ∧ GetResourceVersion obj = "" ∧ t_view t !! key_of gvr obj = None
      ∧ obj' = SetResourceVersion "1" obj
      ∧ t_view t' = <[key_of gvr obj := obj']> (t_view t)
  | (obj', t', Some _) =>
      t' = t ∧ obj' = obj
      ∧ (GetName obj = "" ∨ GetResourceVersion obj ≠ "" ∨ is_Some (t_view t !! key_of gvr obj))
  end.
Proof.
  unfold vt_Create. case_decide as Hn; [by eauto|]. case_decide as Hr; [by eauto|].
  pose proof (t_Create_spec gvr (SetResourceVersion "1" obj) (GetNamespace obj) t eq_refl) as Hc.
  unfold key_of. cbn in Hc.
  change (GetName (SetResourceVersion "1" obj)) with (GetName obj) in Hc.
  destruct (t_view t !! (gvr, GetNamespace obj, GetName obj)) as [x|] eqn:Hx.
  - destruct Hc as [e ->]. split; [done|]. split; [|by eauto].
    rewrite SetResourceVersion_twice, <- Hr. by destruct obj as [? ? []].
  - destruct Hc as (t' & -> & Hv). by eauto.
Qed.

(** What a failed update leaves behind, and what a successful one does. *)
Lemma vt_Update_spec scheme gvr obj t :
  match vt_Update scheme gvr obj (GetNamespace obj) t with
  | (obj', t', None) =>
      GetName obj ≠ "" ∧ ∃ gvk, update_gvk scheme obj = Ok gvk
      ∧ match t_view t !! key_of gvr obj with
        | Some old =>
            effective_rv obj old gvk = GetResourceVersion old
            ∧ ∃ n, ParseUint (stored_rv old) = Some n
              ∧ obj' = SetResourceVersion (FormatUint (uint64_add n 1)) obj
              ∧ t_view t' = after_update gvr obj' (t_view t)
        | None =>
            allowsCreateOnUpdate gvk = true ∧ GetResourceVersion obj = ""
            ∧ obj' = SetResourceVersion "1" obj
            ∧ t_view t' = <[key_of gvr obj := obj']> (t_view t)
        end
  | (_, t', Some _) => t' = t
  end.
Proof.
  unfold vt_Update. fold (update_gvk scheme obj). case_decide as Hn; [done|].
  destruct (update_gvk scheme obj) as [gvk|e]; [|done].
  destruct (t_view t !! key_of gvr obj) as [old|] eqn:Hold.
  - rewrite (t_Get_Some _ _ _ _ _ Hold).
    pose proof (vt_Update_existing_spec gvr obj old gvk t Hold) as Hs.
    destruct (vt_Update_existing _ _ _ _ _ _) as [[obj' t'] [e|]]; [naive_solver|].
    eauto.
  - destruct (t_Get_None _ _ _ _ Hold) as (e & -> & ->). cbn.
    destruct (allowsCreateOnUpdate gvk) eqn:Ha; [|done].
    pose proof (vt_Create_spec gvr obj t) as Hc.
    destruct (vt_Create _ _ _ _) as [[obj' t'] [e'|]]; [naive_solver|].
    destruct Hc as (? & ? & ? & ? & ?). eauto 10.
Qed.

Lemma uint64_add_one_ne n : (0 ≤ n < two64)%Z → uint64_add n 1 ≠ n.
Proof.
  unfold uint64_add, two64. intros Hn Heq.
  destruct (decide (n = 2 ^ 64 - 1)%Z) as [->|Hne]; [by vm_compute in Heq|].
  rewrite Z.mod_small in Heq; lia.
Qed.

Lemma ParseUint_range s n : ParseUint s = Some n → (0 ≤ n < two64)%Z.
Proof.
  unfold ParseUint, parse_digits. intros (z & Hz & Hr)%bind_Some.
  apply bind_Some in Hz as (d & _ & [= <-]). case_decide; simplify_eq. lia.
Qed.

(** The version an update writes differs from the one it replaced. *)
Lemma next_rv_ne s n : ParseUint s = Some n → FormatUint (uint64_add n 1) ≠ s.
Proof.
  intros Hn <-. pose proof (ParseUint_range _ _ Hn) as Hr.
  assert (0 ≤ uint64_add n 1 < two64)%Z as Hr'
    by (unfold uint64_add; apply Z.mod_pos_bound; done).
  rewrite ParseUint_FormatUint in Hn by done. injection Hn as Hn.
  by apply (uint64_add_one_ne n).
Qed.

(** An object that carries version [v] does not get in over another version. *)
Lemma vt_Update_stale scheme gvr obj t v :
  GetResourceVersion obj = v → v ≠ "" →
  (∀ old, t_view t !! key_of gvr obj = Some old → GetResourceVersion old ≠ v) →
  ∃ obj' e, vt_Update scheme gvr obj (GetNamespace obj) t = (obj', t, Some e).
Proof.
  intros Hv Hne Hold. pose proof (vt_Update_spec scheme gvr obj t) as Hs.
  destruct (vt_Update _ _ _ _ _) as [[obj' t'] [e|]]; [subst; eauto|].
  exfalso. destruct Hs as (_ & gvk & _ & Hs).
  destruct (t_view t !! key_of gvr obj) as [old|] eqn:Ho.
  - destruct Hs as [Heff _]. unfold effective_rv in Heff.
    rewrite bool_decide_eq_false_2 in Heff by congruence. cbn in Heff.
    eapply Hold; [done|]. congruence.
  - destruct Hs as (_ & Hrv & _). congruence.
Qed.

(** After an update that carried version [v], the stored object, if there
    still is one, has another version. *)
Lemma vt_Update_new_version scheme gvr obj t obj' t' v :
  GetResourceVersion obj = v → v ≠ "" →
  vt_Update scheme gvr obj (GetNamespace obj) t = (obj', t', None) →
  ∀ old, t_view t' !! key_of gvr obj = Some old → GetResourceVersion old ≠ v.
Proof.
  intros Hv Hne Hu. pose proof (vt_Update_spec scheme gvr obj t) as Hs. rewrite Hu in Hs.
  destruct Hs as (_ & gvk & _ & Hs).
  destruct (t_view t !! key_of gvr obj) as [old0|]; [|destruct Hs as (_ & ? & _); congruence].
  destruct Hs as (Heff & m & Hm & -> & ->).
  assert (GetResourceVersion old0 = v) as Hold0.
  { rewrite <- Heff. unfold effective_rv. rewrite bool_decide_eq_false_2 by congruence. done. }
  unfold stored_rv in Hm. rewrite decide_False, Hold0 in Hm by congruence.
  unfold after_update.
  change (key_of gvr (SetResourceVersion _ obj)) with (key_of gvr obj).
  intros old. case_match; [by rewrite lookup_delete_eq|].
  rewrite lookup_insert_eq. intros [= <-]. by apply next_rv_ne.
Qed.

(** The outcomes of a sequence of updates, in order. *)
Fixpoint run_updates (scheme : Scheme) gvr (objs : list Object) t : list (option error) * T :=
  match objs with
  | [] => ([], t)
  | obj :: objs =>
      let '(_, t, err) := vt_Update scheme gvr obj (GetNamespace obj) t in
      let '(errs, t) := run_updates scheme gvr objs t in (err :: errs, t)
  end.

Definition successes (errs : list (option error)) : nat := length (filter (λ e, e = None) errs).

Lemma successes_cons err errs :
  successes (err :: errs) = match err with None => S (successes errs) | Some _ => successes errs end.
Proof. unfold successes. rewrite filter_cons. by destruct err. Qed.

Lemma run_updates_cons scheme gvr obj objs t obj' t' err :
  vt_Update scheme gvr obj (GetNamespace obj) t = (obj', t', err) →
  run_updates scheme gvr (obj :: objs) t
  = (err :: (run_updates scheme gvr objs t').1, (run_updates scheme gvr objs t').2).
Proof. intros Hu. cbn. rewrite Hu. by destruct (run_updates _ _ _ _). Qed.

Lemma run_updates_stale scheme gvr ns n v objs t :
  v ≠ "" → Forall (λ o, GetNamespace o = ns ∧ GetName o = n ∧ GetResourceVersion o = v) objs →
  (∀ old, t_view t !! (gvr, ns, n) = Some old → GetResourceVersion old ≠ v) →
  successes (run_updates scheme gvr objs t).1 = 0 ∧ (run_updates scheme gvr objs t).2 = t.
Proof.
  intros Hv Hall Hold. induction Hall as [|o objs (Hns & Hn & Hrv) _ IH]; [done|].
  destruct (vt_Update_stale scheme gvr o t v Hrv Hv) as (o' & e & Hu).
  { unfold key_of. by rewrite Hns, Hn. }
  rewrite (run_updates_cons _ _ _ _ _ _ _ _ Hu). cbn [fst snd]. by rewrite successes_cons.
Qed.

(** C2: no update is lost.  Whatever clients read an object at resource version
    [v] and send back their own changed copies of it, in whatever order the
    tracker handles them, at most one of the updates succeeds, provided [v]
    is a real version (not empty, which asks for an unconditional
    update). *)
Theorem versionedTracker_no_lost_update scheme gvr ns n v (objs : list Object) t :
  v ≠ "" →
  Forall (λ o, GetNamespace o = ns ∧ GetName o = n ∧ GetResourceVersion o = v) objs →
  (successes (run_updates scheme gvr objs t).1 ≤ 1)%nat.
Proof.
  intros Hv Hall. induction Hall as [|o objs (Hns & Hn & Hrv) Hall IH]; [cbn; lia|].
  pose proof (vt_Update_spec scheme gvr o t) as Hs.
  destruct (vt_Update scheme gvr o (GetNamespace o) t) as [[o' t'] err] eqn:Hu.
  rewrite (run_updates_cons _ _ _ _ _ _ _ _ Hu). cbn [fst snd]. rewrite successes_cons.
  destruct err as [e|]; [by subst t'|].
  assert (∀ old, t_view t' !! (gvr, ns, n) = Some old → GetResourceVersion old ≠ v) as Hstale.
  { assert (key_of gvr o = (gvr, ns, n)) as Hk by (unfold key_of; congruence).
    rewrite <- Hk in *. by eapply vt_Update_new_version. }
  destruct (run_updates_stale scheme gvr ns n v objs t' Hv Hall Hstale) as [Hz _].
  lia.
Qed.
End tracker_facts.

(** ** The finalizer protocol, dry runs, and the invariant of the store *)

Section fake_facts.
Context {T E : Type} `{!ObjectTracker T, !FakeEnv E T, !ObjectTrackerLaws T E}.
Implicit Types (t : T) (c : fakeClient T E) (obj old : Object) (gvr : GVR).

Definition fc_view c := t_view (fc_tracker c).

Lemma getGVR_gvk obj scheme gvr :
  getGVRFromObject obj scheme = Ok gvr →
  ∃ gvk, GVKForObject obj scheme = Ok gvk ∧ gvr = UnsafeGuessKindToResource gvk.
Proof. unfold getGVRFromObject. intros (gvk & ? & [= <-])%result_bind_Ok. eauto. Qed.

Lemma vt_Update_ok scheme gvr obj old gvk n t :
  GetName obj ≠ "" → update_gvk scheme obj = Ok gvk →
  t_view t !! key_of gvr obj = Some old →
  effective_rv obj old gvk = GetResourceVersion old → ParseUint (stored_rv old) = Some n →
  let obj' := SetResourceVersion (FormatUint (uint64_add n 1)) obj in
  ∃ t', vt_Update scheme gvr obj (GetNamespace obj) t = (obj', t', None)
        ∧ t_view t' = after_update gvr obj' (t_view t).
Proof.
  intros Hname Hg Hold Heff Hn. unfold vt_Update. rewrite decide_False by done.
  fold (update_gvk scheme obj). rewrite Hg, (t_Get_Some _ _ _ _ _ Hold).
  pose proof (vt_Update_existing_spec gvr obj old gvk t Hold) as Hs.
  destruct (vt_Update_existing _ _ _ _ _ _) as [[obj1 t1] [e1|]].
  - destruct Hs as [_ [Hbad|Hbad]]; congruence.
  - destruct Hs as (_ & m & Hm & -> & Hview). rewrite Hn in Hm. injection Hm as <-. eauto.
Qed.

Lemma effective_rv_same obj old gvk :
  GetResourceVersion obj = GetResourceVersion old →
  effective_rv obj old gvk = GetResourceVersion old.
Proof. unfold effective_rv. by case_match. Qed.

Lemma stored_rv_nonempty old :
  GetResourceVersion old ≠ "" → stored_rv old = GetResourceVersion old.
Proof. intros ?. unfold stored_rv. by rewrite decide_False. Qed.

Lemma next_rv_parses obj n :
  ParseUint (stored_rv (SetResourceVersion (FormatUint (uint64_add n 1)) obj))
  = Some (uint64_add n 1).
Proof.
  rewrite stored_rv_nonempty by apply FormatUint_not_empty.
  apply ParseUint_FormatUint, Z.mod_pos_bound. done.
Qed.

Lemma deleteObject_marks c gvr old gvk n :
  GetName old ≠ "" → GetFinalizers old ≠ [] → update_gvk (fc_scheme c) old = Ok gvk →
  fc_view c !! key_of gvr old = Some old →
  GetResourceVersion old ≠ "" → ParseUint (GetResourceVersion old) = Some n →
  ∃ c1 now, deleteObject gvr old c = (c1, None) ∧ fc_scheme c1 = fc_scheme c
    ∧ fc_view c1 = <[key_of gvr old := SetResourceVersion (FormatUint (uint64_add n 1))
                       (SetDeletionTimestamp (Some now) old)]> (fc_view c).
Proof.
  intros Hname Hfin Hg Hold Hrv Hn. unfold deleteObject.
  rewrite (t_Get_Some _ _ _ _ _ Hold), decide_True by done.
  destruct (metav1_Now (fc_env c)) as [now e].
  set (dying := SetDeletionTimestamp (Some now) old).
  destruct (vt_Update_ok (fc_scheme c) gvr dying old gvk n (fc_tracker c)) as (t1 & Hu & Hview);
    try done.
  { by apply effective_rv_same. }
  { by rewrite stored_rv_nonempty. }
  change (GetNamespace dying) with (GetNamespace old) in Hu. rewrite Hu.
  exists (set_tracker t1 (set_env e c)), now. split; [done|]. split; [done|].
  unfold fc_view. cbn [set_tracker fc_tracker]. rewrite Hview. unfold after_update.
  change (GetFinalizers (SetResourceVersion _ dying)) with (GetFinalizers old).
  by rewrite (bool_decide_eq_false_2 (GetFinalizers old = [])), andb_false_r.
Qed.

(** Deletion waits for finalizers.  Deleting a stored object that has
    finalizers and a numeric resource version keeps it, with the same
    content, the current time as deletion timestamp and the next resource
    version; an update that then sends it back with no finalizers left
    removes it, and it alone, from the store.  The object's kind has to be
    known (its own, or its type's in the scheme). *)
Theorem fake_delete_waits_for_finalizers c gvr old n :
  GetName old ≠ "" → GetFinalizers old ≠ [] →
  is_ok (update_gvk (fc_scheme c) old) = true →
  fc_view c !! key_of gvr old = Some old →
  GetResourceVersion old ≠ "" → ParseUint (GetResourceVersion old) = Some n →
  ∃ c1 now marked t2 final,
    deleteObject gvr old c = (c1, None)
    ∧ marked = SetResourceVersion (FormatUint (uint64_add n 1)) (SetDeletionTimestamp (Some now) old)
    ∧ fc_view c1 = <[key_of gvr old := marked]> (fc_view c)
    ∧ vt_Update (fc_scheme c1) gvr (SetFinalizers [] marked) (GetNamespace old) (fc_tracker c1)
      = (final, t2, None)
    ∧ t_view t2 = delete (key_of gvr old) (fc_view c).
Proof.
  intros Hname Hfin Hok Hold Hrv Hn.
  destruct (update_gvk (fc_scheme c) old) as [gvk|] eqn:Hg; [|done].
  destruct (deleteObject_marks c gvr old gvk n) as (c1 & now & Hd & Hsch & Hview); try done.
  set (marked := SetResourceVersion _ _) in Hview.
  set (last := SetFinalizers [] marked).
  destruct (vt_Update_ok (fc_scheme c1) gvr last marked gvk (uint64_add n 1) (fc_tracker c1))
    as (t2 & Hu & Hview2).
  { done. }
  { by rewrite Hsch. }
  { fold (fc_view c1). rewrite Hview. apply lookup_insert_eq. }
  { by apply effective_rv_same. }
  { apply next_rv_parses. }
  exists c1, now, marked, t2. eexists. split; [done|]. split; [done|]. split; [done|].
  split; [exact Hu|]. rewrite Hview2. fold (fc_view c1). rewrite Hview.
  unfold after_update. rewrite !bool_decide_eq_true_2 by (cbn; eauto).
  apply delete_insert_eq.
Qed.

Lemma dry_run_elem d : is_dry_run dry_run_all = true ∧ (d = dry_run_all → is_dry_run d = true).
Proof. split; [done|]. by intros ->. Qed.

(** The dry-run client over the fake client.  Creates, updates, patches and
    both status writes return nil and change neither the fake client nor
    the object, whatever the caller's options; a delete or a delete-all is
    carried out for real, exactly as without the dry-run client, because
    the fake client does not look at its delete options. *)
Theorem fake_dry_run_deletes (scheme : Scheme) (mapper : RESTMapper) :
  let fc := fake_Client (T := T) (E := E) scheme mapper in
  let d := NewDryRunClient fc in
  (∀ opts obj c, Create d opts obj c = (obj, c, None))
  ∧ (∀ opts obj c, Update d opts obj c = (obj, c, None))
  ∧ (∀ p opts obj c, Patch_ d p opts obj c = (obj, c, None))
  ∧ (∀ opts obj c, Status_Update (Status d) opts obj c = (obj, c, None))
  ∧ (∀ p opts obj c, Status_Patch (Status d) p opts obj c = (obj, c, None))
  ∧ (∀ opts opts' obj c, Delete d opts obj c = Delete fc opts' obj c)
  ∧ (∀ opts obj c, DeleteAllOf d opts obj c = DeleteAllOf fc opts obj c).
Proof.
  cbn. repeat split; intros.
  1: unfold dryrun_Create; cbn; unfold fake_Create, CreateOptions_ApplyOptions.
  2, 4: unfold dryrun_Update; cbn; unfold fake_Update, UpdateOptions_ApplyOptions.
  4, 5: unfold dryrun_Patch; cbn; unfold fake_Patch, PatchOptions_ApplyOptions.
  1-5: by rewrite fold_left_app.
  - unfold dryrun_DeleteAllOf. cbn. unfold fake_DeleteAllOf, DeleteAllOfOptions_ApplyOptions.
    by rewrite fold_left_app.
Qed.

(** *** Every stored object has a resource version *)

Definition versioned t : Prop := map_Forall (λ _ o, GetResourceVersion o ≠ "") (t_view t).

Lemma t_Create_view gvr o ns t t' err :
  t_Create gvr o ns t = (t', err) →
  t_view t' = t_view t ∨ t_view t' = <[(gvr, ns, GetName o) := o]> (t_view t).
Proof.
  intros Hc. destruct (decide (ns = GetNamespace o)) as [Hns|Hns].
  - pose proof (t_Create_spec gvr o ns t Hns) as Hs. destruct (t_view t !! _).
    + destruct Hs as [e He]. left. congruence.
    + destruct Hs as (t1 & He & Hv). right. congruence.
  - destruct (t_wrong_namespace gvr o ns t Hns) as [[e He] _]. left. congruence.
Qed.

Lemma t_Update_view gvr o ns t t' err :
  t_Update gvr o ns t = (t', err) →
  t_view t' = t_view t ∨ t_view t' = <[(gvr, ns, GetName o) := o]> (t_view t).
Proof.
  intros Hc. destruct (decide (ns = GetNamespace o)) as [Hns|Hns].
  - pose proof (t_Update_spec gvr o ns t Hns) as Hs. destruct (t_view t !! _).
    + destruct Hs as (t1 & He & Hv). right. congruence.
    + destruct Hs as [e He]. left. congruence.
  - destruct (t_wrong_namespace gvr o ns t Hns) as [_ [e He]]. left. congruence.
Qed.

Lemma versioned_insert t t' k o :
  versioned t → GetResourceVersion o ≠ "" →
  t_view t' = t_view t ∨ t_view t' = <[k := o]> (t_view t) → versioned t'.
Proof.
  intros Ht Ho [Hv|Hv]; unfold versioned; rewrite Hv; [done|].
  by apply map_Forall_insert_2.
Qed.

Lemma versioned_delete gvr ns n t t' err :
  versioned t → t_Delete gvr ns n t = (t', err) → versioned t'.
Proof.
  intros Ht Hd. pose proof (t_Delete_spec gvr ns n t) as Hs. destruct (t_view t !! _).
  - destruct Hs as (t1 & He & Hv). assert (t1 = t') as -> by congruence.
    unfold versioned. rewrite Hv. by apply map_Forall_delete.
  - destruct Hs as [e He]. by assert (t = t') as <- by congruence.
Qed.

Lemma vt_Create_versioned gvr o ns t : versioned t → versioned (vt_Create gvr o ns t).1.2.
Proof.
  intros Ht. unfold vt_Create. do 2 (case_decide; [done|]).
  destruct (t_Create _ _ _ _) as [t' [e|]] eqn:Hc;
    (eapply (versioned_insert t); [done| |by eapply t_Create_view]; done).
Qed.

Lemma vt_Update_versioned scheme gvr o ns t :
  versioned t → versioned (vt_Update scheme gvr o ns t).1.2.
Proof.
  intros Ht. unfold vt_Update. case_decide; [done|].
  destruct (if gvk_Empty _ then _ else _) as [gvk|]; [|done].
  destruct (t_Get _ _ _ _) as [old|e].
  - unfold vt_Update_existing.
    set (o1 := if _ && _ then SetResourceVersion _ o else o). clearbody o1.
    case_decide; [done|]. destruct (ParseUint _) as [n|]; [|done]. case_match.
    + destruct (t_Delete _ _ _ _) as [t' err] eqn:Hd. by eapply (versioned_delete _ _ _ t).
    + destruct (t_Update _ _ _ _) as [t' err] eqn:Hu.
      eapply (versioned_insert t); [done| |by eapply t_Update_view].
      apply FormatUint_not_empty.
  - case_match; [by apply vt_Create_versioned|done].
Qed.

Lemma vt_Add_objects_versioned objs t : versioned t → versioned (vt_Add_objects objs t).1.
Proof.
  revert t. induction objs as [|o objs IH]; intros t Ht; cbn; [done|].
  set (o' := if decide _ then _ else o).
  assert (GetResourceVersion o' ≠ "") as Ho' by (unfold o'; by case_decide).
  destruct (t_Add o' t) as [t' err] eqn:Ha.
  assert (versioned t') as Ht'.
  { intros k x Hx. destruct (t_Add_spec _ _ _ _ Ha k x Hx) as [->|]; [done|by eapply Ht]. }
  destruct err; [done|by apply IH].
Qed.

Lemma add_all_versioned msg args t t' :
  versioned t → add_all msg args t = Returned t' → versioned t'.
Proof.
  revert t. induction args as [|a args IH]; intros t Ht; cbn; [by intros [= <-]|].
  destruct (vt_Add a t) as [t1 [e|]] eqn:Ha; [done|]. apply IH.
  replace t1 with (vt_Add a t).1 by by rewrite Ha.
  destruct a as [o|l]; by apply (vt_Add_objects_versioned _ t).
Qed.

Definition fc_versioned c : Prop := versioned (fc_tracker c).

Lemma deleteObject_versioned gvr o c : fc_versioned c → fc_versioned (deleteObject gvr o c).1.
Proof.
  intros Hc. unfold deleteObject.
  destruct (t_Get _ _ _ _) as [old|e]; [case_decide|].
  2-3: destruct (t_Delete _ _ _ _) as [t' err] eqn:Hd; by eapply (versioned_delete _ _ _ (fc_tracker c)).
  destruct (metav1_Now _) as [now e].
  pose proof (vt_Update_versioned (fc_scheme c) gvr (SetDeletionTimestamp (Some now) old)
                (GetNamespace o) (fc_tracker c) Hc) as Hu.
  by destruct (vt_Update _ _ _ _ _) as [[o' t'] err].
Qed.

Lemma delete_each_versioned gvr objs c : fc_versioned c → fc_versioned (delete_each gvr objs c).1.
Proof.
  revert c. induction objs as [|o objs IH]; intros c Hc; cbn; [done|].
  pose proof (deleteObject_versioned gvr o c Hc) as Hd.
  destruct (deleteObject gvr o c) as [c' [e|]]; [done|by apply IH].
Qed.

(** The calls a user can make on the fake client. *)
Inductive fc_step : fakeClient T E → fakeClient T E → Prop :=
  | fs_Get key obj c : fc_step c (fake_Get key obj c).1.2
  | fs_List opts l c : fc_step c (fake_List opts l c).1.2
  | fs_Create opts obj c : fc_step c (fake_Create opts obj c).1.2
  | fs_Delete opts obj c : fc_step c (fake_Delete opts obj c).1.2
  | fs_DeleteAllOf opts obj c : fc_step c (fake_DeleteAllOf opts obj c).1.2
  | fs_Update opts obj c : fc_step c (fake_Update opts obj c).1.2
  | fs_Patch p opts obj c : fc_step c (fake_Patch p opts obj c).1.2.

Lemma fc_step_versioned c c' : fc_step c c' → fc_versioned c → fc_versioned c'.
Proof.
  intros Hstep Hc. destruct Hstep; unfold fc_versioned in *.
  - unfold fake_Get. by case_all.
  - unfold fake_List. by case_all.
  - unfold fake_Create. case_match; [done|]. destruct (getGVRFromObject _ _) as [gvr|]; [|done].
    destruct (if _ && _ then _ else _) as [o1 c1] eqn:Hname.
    assert (fc_tracker c1 = fc_tracker c) as Ht
      by (case_match; [destruct (utilrand_String _ _) as [rnd e]|]; by simplify_eq).
    rewrite Ht. pose proof (vt_Create_versioned gvr o1 (GetNamespace o1) _ Hc).
    by destruct (vt_Create _ _ _ _) as [[o2 t2] err].
  - unfold fake_Delete. destruct (getGVRFromObject _ _) as [gvr|]; [|done].
    pose proof (deleteObject_versioned gvr obj c Hc).
    by destruct (deleteObject gvr obj c).
  - unfold fake_DeleteAllOf. destruct (GVKForObject _ _) as [gvk|]; [|done].
    destruct (t_List _ _ _ _) as [l|]; [|done]. 
    set (objs := FilterWithLabels _ _). set (gvr := UnsafeGuessKindToResource gvk).
    pose proof (delete_each_versioned gvr objs c Hc).
    by destruct (delete_each gvr objs c).
  - unfold fake_Update. case_match; [done|]. destruct (getGVRFromObject _ _) as [gvr|]; [|done].
    pose proof (vt_Update_versioned (fc_scheme c) gvr obj (GetNamespace obj) _ Hc).
    by destruct (vt_Update _ _ _ _ _) as [[o2 t2] err].
  - unfold fake_Patch. case_match; [done|]. destruct (getGVRFromObject _ _) as [gvr|]; [|done].
    destruct (patch_Data p obj) as [data|]; [|done].
    pose proof (ObjectReaction_inv versioned (vt_Update (fc_scheme c))
      (λ g o ns t, vt_Update_versioned (fc_scheme c) g o ns t)
      gvr (GetNamespace obj) (GetName obj) (patch_Type p) data _ Hc) as Hr.
    destruct (ObjectReaction_Patch _ _ _ _ _ _ _) as [[t' handled] r]. by case_all.
Qed.

(** Every object the fake client ever stores has a resource version: it
    holds for what [Build] makes from a builder with any initial objects
    (an object without one gets "999") and is preserved by every call of
    the client, succeeding or failing. *)
Theorem fake_client_objects_versioned default new_tracker env f c c' :
  (∀ s, t_view (new_tracker s) = ∅) →
  Build default new_tracker env f = Returned c → rtc fc_step c c' →
  ∀ k o, fc_view c' !! k = Some o → GetResourceVersion o ≠ "".
Proof.
  intros Hempty Hbuild Hsteps.
  assert (fc_versioned c) as Hc.
  { unfold Build in Hbuild. set (s := match cb_scheme f with Some s => s | None => _ end) in *.
    apply outcome_bind_Returned in Hbuild as (t1 & H1 & Hbuild).
    apply outcome_bind_Returned in Hbuild as (t2 & H2 & Hbuild).
    apply outcome_bind_Returned in Hbuild as (t3 & H3 & [= <-]).
    do 3 (eapply add_all_versioned; [|eassumption]). intros k x. by rewrite Hempty, lookup_empty. }
  clear Hbuild. induction Hsteps as [|c1 c2 c3 Hstep _ IH]; [exact Hc|].
  apply IH. by eapply fc_step_versioned.
Qed.
End fake_facts.
