(* ===== verification/FakeStore.v ===== *)
(** * The fake client as a store, and a concrete tracker

    [fake_StoreClient]: for one Go type and kind, the fake client keeps the
    promises of the [StoreClient] interface, so what is proved against the
    interface holds on the fake client.  The second half instantiates the
    parameters of the fake client with a finite map. *)

From S2P Require Export FakeClient Samples.

Section store.
Context {T E : Type} `{!ObjectTracker T, !FakeEnv E T, !ObjectTrackerLaws T E}.
Context (scheme : Scheme) (mapper : RESTMapper) (ty : GoType) (g : GVK).
Implicit Types (c : fakeClient T E) (o obj : Object).

Definition fs_managed o : Prop := o_type o = ty ∧ o_gvk o = g.
Definition fs_target o : Prop := fs_managed o ∧ GetName o ≠ "" ∧ GetResourceVersion o = "".
Definition fs_gvr : GVR := UnsafeGuessKindToResource g.
Definition fs_view c (key : NamespacedName) : option Object :=
  fc_view c !! (fs_gvr, nn_Namespace key, nn_Name key).
Definition fs_ok c : Prop :=
  fc_scheme c = scheme ∧
  ∀ key o, fs_view c key = Some o →
    fs_managed o ∧ ObjectKeyFromObject o = key ∧ GetResourceVersion o ≠ "" ∧
    is_Some (ParseUint (GetResourceVersion o)).

(** The scheme knows the type by this kind alone; reading the JSON of an
    object of the type into a fresh target gives the object back. *)
Hypothesis g_known : GVKForObject_of ty g scheme = Ok g.
Hypothesis g_nonempty : gvk_Empty g = false.
Hypothesis decode_fresh : ∀ x obj, fs_managed x → fs_target obj →
  ObjectKeyFromObject x = ObjectKeyFromObject obj → decode_into x obj = Ok x.

Lemma fs_gvr_known o : fs_managed o → getGVRFromObject o scheme = Ok fs_gvr.
Proof. intros [Ht Hg]. unfold getGVRFromObject, GVKForObject. by rewrite Ht, Hg, g_known. Qed.

Lemma fs_view_insert c c' obj :
  fc_view c' = <[key_of fs_gvr obj := obj]> (fc_view c) →
  ∀ k, fs_view c' k = if decide (k = ObjectKeyFromObject obj) then Some obj else fs_view c k.
Proof.
  intros Hv [ns n]. unfold fs_view. rewrite Hv. unfold key_of, ObjectKeyFromObject. cbn.
  case_decide as Hk; [simplify_eq; apply lookup_insert_eq|].
  apply lookup_insert_ne. congruence.
Qed.

Lemma fs_ok_insert c c' obj :
  fs_ok c → fc_scheme c' = scheme → fs_managed obj →
  GetResourceVersion obj ≠ "" → is_Some (ParseUint (GetResourceVersion obj)) →
  fc_view c' = <[key_of fs_gvr obj := obj]> (fc_view c) → fs_ok c'.
Proof.
  intros [_ Hok] Hs Hm Hrv Hp Hv. split; [done|]. intros key o.
  rewrite (fs_view_insert _ _ _ Hv). case_decide; [|apply Hok].
  intros [= <-]. subst key. done.
Qed.

Lemma fs_Create c obj :
  fs_ok c → fs_managed obj → GetName obj ≠ "" → GetResourceVersion obj = "" →
  fs_view c (ObjectKeyFromObject obj) = None →
  ∃ rv c', fake_Create [] obj c = (SetResourceVersion rv obj, c', None) ∧ fs_ok c' ∧
    ∀ k, fs_view c' k = if decide (k = ObjectKeyFromObject obj)
                        then Some (SetResourceVersion rv obj) else fs_view c k.
Proof.
  intros Hok Hm Hn Hrv Hnone. pose proof Hok as [Hs _].
  unfold fake_Create. cbn. rewrite Hs, (fs_gvr_known obj Hm).
  rewrite bool_decide_eq_false_2 by done. cbn.
  pose proof (vt_Create_spec fs_gvr obj (fc_tracker c)) as Hc.
  destruct (vt_Create _ _ _ _) as [[obj' t'] [e|]].
  - destruct Hc as (_ & _ & [?|[?|[x Hx]]]); [done|done|].
    unfold fs_view, ObjectKeyFromObject in Hnone. cbn in Hnone. unfold key_of in Hx.
    unfold fc_view in Hnone. congruence.
  - destruct Hc as (_ & _ & _ & -> & Hv).
    exists "1", (set_tracker t' c). split; [done|].
    change (key_of fs_gvr obj) with (key_of fs_gvr (SetResourceVersion "1" obj)) in Hv.
    split; [|by apply (fs_view_insert c (set_tracker t' c) (SetResourceVersion "1" obj))].
    apply (fs_ok_insert c (set_tracker t' c) (SetResourceVersion "1" obj)); [done|exact Hs|exact Hm|done|by exists 1%Z|exact Hv].
Qed.

Lemma fs_Update c obj old :
  fs_ok c → fs_managed obj → GetName obj ≠ "" → GetDeletionTimestamp obj = None →
  fs_view c (ObjectKeyFromObject obj) = Some old → GetResourceVersion obj = GetResourceVersion old →
  ∃ rv c', fake_Update [] obj c = (SetResourceVersion rv obj, c', None) ∧ fs_ok c' ∧
    ∀ k, fs_view c' k = if decide (k = ObjectKeyFromObject obj)
                        then Some (SetResourceVersion rv obj) else fs_view c k.
Proof.
  intros Hok Hm Hn Hdt Hold Hrv. pose proof Hok as [Hs Hall].
  destruct (Hall _ _ Hold) as (_ & _ & Hne & n & Hp).
  unfold fake_Update. cbn. rewrite Hs, (fs_gvr_known obj Hm).
  destruct (vt_Update_ok scheme fs_gvr obj old g n (fc_tracker c)) as (t' & -> & Hv).
  { done. }
  { unfold update_gvk. destruct Hm as [_ ->]. by rewrite g_nonempty. }
  { exact Hold. }
  { by apply effective_rv_same. }
  { by rewrite stored_rv_nonempty. }
  set (obj' := SetResourceVersion _ obj) in *.
  eexists _, (set_tracker t' c). split; [done|]. fold obj'.
  unfold after_update in Hv. change (GetDeletionTimestamp obj') with (GetDeletionTimestamp obj) in Hv.
  rewrite Hdt, bool_decide_eq_false_2 in Hv by (intros [? ?]; done). cbn in Hv.
  split; [|by apply (fs_view_insert c (set_tracker t' c) obj')].
  apply (fs_ok_insert c (set_tracker t' c) obj'); [done|exact Hs|exact Hm|apply FormatUint_not_empty| |exact Hv].
  change (GetResourceVersion obj') with (FormatUint (uint64_add n 1)).
  rewrite ParseUint_FormatUint; [by eexists|]. by apply Z.mod_pos_bound.
Qed.

#[export, program] Instance fake_StoreClient :
  StoreClient (fake_Client (T := T) (E := E) scheme mapper) IsNotFound :=
{ sc_ok := fs_ok;
  sc_managed := fs_managed;
  sc_target := fs_target;
  sc_view := fs_view;
  sc_Create := fs_Create;
  sc_Update := fs_Update }.
Next Obligation. intros rv o [? ?]. by split. Qed.
Next Obligation. intros o (? & ? & ?). done. Qed.
Next Obligation. intros c key o [_ Hok] Hk. destruct (Hok _ _ Hk) as (? & ? & ? & _). done. Qed.
Next Obligation.
  intros c o obj [Hs Hok] Ht Hv. destruct (Hok _ _ Hv) as (Hm & Hk & _).
  pose proof Ht as [Hmo _]. cbn. unfold fake_Get.
  rewrite Hs, (fs_gvr_known obj Hmo), (t_Get_Some _ _ _ _ _ Hv).
  unfold GVKForObject. destruct Hmo as [-> ->]. rewrite g_known.
  assert (SetGroupVersionKind g o = o) as ->
    by (destruct Hm as [_ <-]; by destruct o).
  by rewrite decode_fresh.
Qed.
Next Obligation.
  intros c obj [Hs Hok] Ht Hv. pose proof Ht as [Hmo _]. cbn. unfold fake_Get.
  rewrite Hs, (fs_gvr_known obj Hmo).
  destruct (t_Get_None _ _ _ _ Hv) as (e & -> & He). eauto.
Qed.
End store.

(** ** A concrete tracker *)

Abbreviation sample_tracker := (gmap (GVR * string * string) Object).

Definition err_not_found : error := StatusError "NotFound" "not found".
Definition err_exists : error := StatusError "AlreadyExists" "already exists".
Definition err_bad_namespace : error :=
  StatusError "BadRequest" "request namespace does not match object namespace".

Definition sample_gvr (g : GVK) : GVR := mkGVR (gvk_Group g) (gvk_Version g) (gvk_Kind g).

Definition sample_write (must_exist : bool) (gvr : GVR) (o : Object) (ns : string)
    (t : sample_tracker) : sample_tracker * option error :=
  if decide (ns ≠ GetNamespace o) then (t, Some err_bad_namespace)
  else match t !! (gvr, ns, GetName o), must_exist with
  | Some _, true | None, false => (<[(gvr, ns, GetName o) := o]> t, None)
  | Some _, false => (t, Some err_exists)
  | None, true => (t, Some err_not_found)
  end.

#[export] Instance sample_ObjectTracker : ObjectTracker sample_tracker := {
  t_Add := λ o t, (<[(sample_gvr (o_gvk o), GetNamespace o, GetName o) := o]> t, None);
  t_Get := λ gvr ns n t, match t !! (gvr, ns, n) with Some o => Ok o | None => Err err_not_found end;
  t_Create := sample_write false;
  t_Update := sample_write true;
  t_Delete := λ gvr ns n t,
    match t !! (gvr, ns, n) with
    | Some _ => (delete (gvr, ns, n) t, None)
    | None => (t, Some err_not_found)
    end;
  t_List := λ gvr gvk ns t,
    Ok (mkList (Typed "List") gvk
          (snd <$> filter (λ kv : GVR * string * string * Object,
                             kv.1.1.1 = gvr ∧ (ns = "" ∨ kv.1.1.2 = ns)) (map_to_list t)));
}.

(** The environment: a counter serves as clock, random strings are constant,
    and the patch reaction replaces the object's body by the data. *)
#[export] Instance sample_FakeEnv : FakeEnv Z sample_tracker := {
  utilrand_String := λ n e, ("abcde", e);
  metav1_Now := λ e, (e, e + 1)%Z;
  IsNotFound := λ e, match e with StatusError r _ => bool_decide (r = "NotFound") | _ => false end;
  IsListType := sample_IsListType;
  UnsafeGuessKindToResource := sample_gvr;
  AddKnownTypeWithName := λ _ _ s, s;
  decode_into := λ from into, Ok from;
  decode_list_into := λ from into, Ok from;
  ObjectReaction_Patch := λ upd gvr ns n ty data t,
    match t !! (gvr, ns, n) with
    | None => (t, true, Err err_not_found)
    | Some o =>
        let '(o', t', err) := upd gvr (mkObject (o_type o) (o_gvk o) (o_meta o) data) ns t in
        (t', true, match err with Some e => Err e | None => Ok o' end)
    end;
}.

#[export, program] Instance sample_ObjectTrackerLaws : ObjectTrackerLaws sample_tracker Z :=
  { t_view := λ t, t }.
Next Obligation. intros gvr ns n t o Ho. cbn. by rewrite Ho. Qed.
Next Obligation. intros gvr ns n t Ho. cbn. rewrite Ho. eauto. Qed.
Next Obligation.
  intros gvr o ns t Hns. cbn. unfold sample_write. rewrite decide_False by congruence.
  case_match; eauto.
Qed.
Next Obligation.
  intros gvr o ns t Hns. cbn. unfold sample_write. rewrite decide_False by congruence.
  case_match; eauto.
Qed.
Next Obligation. intros gvr ns n t. cbn. case_match; eauto. Qed.
Next Obligation.
  intros o t t' err [= <- <-] k x. rewrite lookup_insert_Some. naive_solver.
Qed.
Next Obligation. intros gvr o ns t Hns. cbn. unfold sample_write. rewrite !decide_True by done. eauto. Qed.
Next Obligation.
  intros P upd Hupd gvr ns n ty data t Ht. cbn. case_match; [|done].
  pose proof (Hupd gvr (mkObject (o_type o) (o_gvk o) (o_meta o) data) ns t Ht) as Hp.
  by destruct (upd _ _ _ _) as [[o' t'] err].
Qed.

(** ** The theorems of the fake client at concrete inputs *)

Definition stored_pod : Object := SetResourceVersion "999" sample_pod.
Definition finalized_pod : Object := SetFinalizers ["example.com/cleanup"] stored_pod.
Definition pod_gvr : GVR := sample_gvr pod_gvk.
Definition store_of (o : Object) : sample_tracker := {[ key_of pod_gvr o := o ]}.
Definition fake_of (o : Object) : fakeClient sample_tracker Z := mkFake (store_of o) sample_scheme 100%Z.

Definition two_writers : list Object :=
  [SetFinalizers ["a"] stored_pod; SetFinalizers ["b"] stored_pod].

Lemma versionedTracker_no_lost_update_witness :
  Forall (λ o, GetNamespace o = "default" ∧ GetName o = "web" ∧ GetResourceVersion o = "999") two_writers
  ∧ (successes (run_updates (E := Z) sample_scheme pod_gvr two_writers (store_of stored_pod)).1 ≤ 1)%nat.
Proof.
  assert (Forall (λ o, GetNamespace o = "default" ∧ GetName o = "web" ∧ GetResourceVersion o = "999")
            two_writers) as Hall by (repeat constructor).
  split; [exact Hall|].
  apply (versionedTracker_no_lost_update (E := Z) sample_scheme pod_gvr "default" "web" "999"
           two_writers (store_of stored_pod)); [discriminate|exact Hall].
Defined.

(** The first of the two writers does succeed. *)
Example two_writers_first_wins :
  (run_updates (E := Z) sample_scheme pod_gvr two_writers (store_of stored_pod)).1
  = [None; Some err_conflict].
Proof. vm_compute. reflexivity. Qed.

Lemma fake_delete_waits_for_finalizers_witness :
  fc_view (fake_of finalized_pod) !! key_of pod_gvr finalized_pod = Some finalized_pod ∧
  ∃ c1 now marked t2 final,
    deleteObject pod_gvr finalized_pod (fake_of finalized_pod) = (c1, None)
    ∧ marked = SetResourceVersion (FormatUint 1000) (SetDeletionTimestamp (Some now) finalized_pod)
    ∧ fc_view c1 = <[key_of pod_gvr finalized_pod := marked]> (fc_view (fake_of finalized_pod))
    ∧ vt_Update (fc_scheme c1) pod_gvr (SetFinalizers [] marked) (GetNamespace finalized_pod)
        (fc_tracker c1) = (final, t2, None)
    ∧ t_view t2 = delete (key_of pod_gvr finalized_pod) (fc_view (fake_of finalized_pod)).
Proof.
  split; [reflexivity|].
  apply (fake_delete_waits_for_finalizers (fake_of finalized_pod) pod_gvr finalized_pod 999);
    (reflexivity || discriminate).
Defined.

Definition sample_builder : ClientBuilder :=
  WithObjects [sample_pod] (WithScheme sample_scheme NewClientBuilder).

Lemma fake_client_objects_versioned_witness :
  ∃ c, Build (T := sample_tracker) (E := Z) sample_scheme (λ _, ∅) 100%Z sample_builder = Returned c ∧
    ∀ k o, fc_view c !! k = Some o → GetResourceVersion o ≠ "".
Proof.
  eexists. split; [reflexivity|].
  apply (fake_client_objects_versioned (T := sample_tracker) (E := Z) sample_scheme (λ _, ∅) 100%Z
           sample_builder (fake_of stored_pod) (fake_of stored_pod));
    [reflexivity|reflexivity|apply rtc_refl].
Defined.
