(* ===== verification/Patch.v ===== *)
(** * Patches (src/pkg/client/patch.go)

    The patches a caller can send: raw data, the diff against an earlier copy
    of the object with or without optimistic locking, and the whole object.
    JSON encoding and the diff algorithms are outside the repository. *)

From S2P Require Export Client.

Class PatchLib := {
  MergePatchType : string;
  StrategicMergePatchType : string;
  ApplyPatchType : string;
  json_Marshal : Object → result string;
  jsonpatch_CreateMergePatch : string → string → result string;
  CreateTwoWayMergePatch : string → string → Object → result string;
}.

Section patch.
Context `{PatchLib}.

Definition RawPatch (patchType data : string) : Patch :=
  {| patch_Type := patchType; patch_Data := λ _, Ok data |}.

Record MergeFromOptions := mkMergeFromOptions { OptimisticLock : bool }.
Definition MergeFromOption : Type := MergeFromOptions → MergeFromOptions.

Definition MergeFromWithOptimisticLock : MergeFromOption := λ _, mkMergeFromOptions true.

Record mergeFromPatch := mkMergeFromPatch {
  mfp_patchType : string;
  mfp_createPatch : string → string → Object → result string;
  mfp_from : Object;
  mfp_opts : MergeFromOptions;
}.

Definition err_lock : error :=
  ErrorString "cannot use OptimisticLock, object does not have any resource version we can use".

(** The two objects that are compared: under optimistic locking the original
    loses its resource version and the modified object gets it. *)
Definition mergeFrom_documents (s : mergeFromPatch) (obj : Object) : result (Object * Object) :=
  if OptimisticLock (mfp_opts s) then
    let version := GetResourceVersion (mfp_from s) in
    if decide (String.length version = 0)%nat then Err err_lock
    else Ok (SetResourceVersion "" (mfp_from s), SetResourceVersion version obj)
  else Ok (mfp_from s, obj).

Definition mergeFromPatch_Data (s : mergeFromPatch) (obj : Object) : result string :=
  '(original, modified) ← mergeFrom_documents s obj;
  originalJSON ← json_Marshal original;
  modifiedJSON ← json_Marshal modified;
  data ← mfp_createPatch s originalJSON modifiedJSON obj;
  Ok data.

Definition mergeFromPatch_Patch (s : mergeFromPatch) : Patch :=
  {| patch_Type := mfp_patchType s; patch_Data := mergeFromPatch_Data s |}.

Definition createMergePatch (originalJSON modifiedJSON : string) (_ : Object) : result string :=
  jsonpatch_CreateMergePatch originalJSON modifiedJSON.
Definition createStrategicMergePatch (originalJSON modifiedJSON : string) (dataStruct : Object)
    : result string :=
  CreateTwoWayMergePatch originalJSON modifiedJSON dataStruct.

Definition MergeFrom (obj : Object) : Patch :=
  mergeFromPatch_Patch (mkMergeFromPatch MergePatchType createMergePatch obj (mkMergeFromOptions false)).

Definition apply_merge_options (opts : list MergeFromOption) : MergeFromOptions :=
  fold_left (λ o opt, opt o) opts (mkMergeFromOptions false).

Definition MergeFromWithOptions (obj : Object) (opts : list MergeFromOption) : Patch :=
  mergeFromPatch_Patch
    (mkMergeFromPatch MergePatchType createMergePatch obj (apply_merge_options opts)).

Definition StrategicMergeFrom (obj : Object) (opts : list MergeFromOption) : Patch :=
  mergeFromPatch_Patch
    (mkMergeFromPatch StrategicMergePatchType createStrategicMergePatch obj (apply_merge_options opts)).

(** [client.Merge] and [client.Apply] send the object itself. *)
Definition mergePatch : Patch := {| patch_Type := MergePatchType; patch_Data := json_Marshal |}.
Definition applyPatch : Patch := {| patch_Type := ApplyPatchType; patch_Data := json_Marshal |}.
End patch.
