(* ===== verification/Controllerutil.v ===== *)
(** * Helpers for controllers (src/pkg/controller/controllerutil/controllerutil.go)

    Owner references, [CreateOrUpdate] and [CreateOrPatch], and finalizer
    lists.  An object the Go code changes in place is an argument and a
    result here. *)

From S2P Require Export Patch.

(** ** Owner references *)

Section owners.
Context `{MetaV1}.

(** An owner is a [metav1.Object], which may fail to be a [runtime.Object]. *)
Inductive Owner :=
  | RuntimeOwner (o : Object)
  | MetadataOnly (m : ObjectMeta).

Definition owner_meta (owner : Owner) : ObjectMeta :=
  match owner with RuntimeOwner o => o_meta o | MetadataOnly m => m end.

Inductive ref_error :=
  | RefError (e : error)
  | AlreadyOwnedError (obj : Object) (owner : OwnerReference).

Definition err_not_runtime : error := ErrorString "owner is not a runtime.Object".
Definition err_cluster_scoped : error :=
  ErrorString "cluster-scoped resource must not have a namespace-scoped owner".
Definition err_cross_namespace : error :=
  ErrorString "cross-namespace owner references are disallowed".

Definition validateOwner (owner : ObjectMeta) (object : Object) : option error :=
  let ownerNs := m_Namespace owner in
  if decide (ownerNs ≠ "") then
    let objNs := GetNamespace object in
    if decide (objNs = "") then Some err_cluster_scoped
    else if decide (ownerNs ≠ objNs) then Some err_cross_namespace
    else None
  else None.

Definition referSameObject (a b : OwnerReference) : bool :=
  match ParseGroupVersion (or_APIVersion a) with
  | Err _ => false
  | Ok aGV =>
      match ParseGroupVersion (or_APIVersion b) with
      | Err _ => false
      | Ok bGV =>
          bool_decide (gv_Group aGV = gv_Group bGV) && bool_decide (or_Kind a = or_Kind b) &&
          bool_decide (or_Name a = or_Name b)
      end
  end.

(** The loop over the references; [index] is the loop variable. *)
Fixpoint indexOwnerRef_from (index : Z) (ownerReferences : list OwnerReference)
    (ref : OwnerReference) : Z :=
  match ownerReferences with
  | [] => -1
  | r :: rs => if referSameObject r ref then index else indexOwnerRef_from (index + 1) rs ref
  end.

Definition indexOwnerRef (ownerReferences : list OwnerReference) (ref : OwnerReference) : Z :=
  indexOwnerRef_from 0 ownerReferences ref.

Definition upsertOwnerRef (ref : OwnerReference) (object : Object) : Object :=
  let owners := GetOwnerReferences object in
  let idx := indexOwnerRef owners ref in
  let owners := if decide (idx = -1)%Z then owners ++ [ref] else <[Z.to_nat idx := ref]> owners in
  SetOwnerReferences owners object.

(** The reference to [owner] of kind [gvk]; both flags are set for a
    controller and nil otherwise. *)
Definition controller_ref (gvk : GVK) (owner : Object) : OwnerReference :=
  mkOwnerRef (gv_String (gvk_GroupVersion gvk)) (gvk_Kind gvk) (GetName owner) (GetUID owner)
    (Some true) (Some true).
Definition plain_ref (gvk : GVK) (owner : Object) : OwnerReference :=
  mkOwnerRef (gv_String (gvk_GroupVersion gvk)) (gvk_Kind gvk) (GetName owner) (GetUID owner)
    None None.

Definition SetControllerReference (owner : Owner) (controlled : Object) (scheme : Scheme)
    : Object * option ref_error :=
  match owner with
  | MetadataOnly _ => (controlled, Some (RefError err_not_runtime))
  | RuntimeOwner ro =>
      match validateOwner (owner_meta owner) controlled with
      | Some e => (controlled, Some (RefError e))
      | None =>
          match GVKForObject ro scheme with
          | Err e => (controlled, Some (RefError e))
          | Ok gvk =>
              let ref := controller_ref gvk ro in
              match GetControllerOf controlled with
              | Some existing =>
                  if negb (referSameObject existing ref)
                  then (controlled, Some (AlreadyOwnedError controlled existing))
                  else (upsertOwnerRef ref controlled, None)
              | None => (upsertOwnerRef ref controlled, None)
              end
          end
      end
  end.

Definition SetOwnerReference (owner : Owner) (object : Object) (scheme : Scheme)
    : Object * option ref_error :=
  match owner with
  | MetadataOnly _ => (object, Some (RefError err_not_runtime))
  | RuntimeOwner ro =>
      match validateOwner (owner_meta owner) object with
      | Some e => (object, Some (RefError e))
      | None =>
          match GVKForObject ro scheme with
          | Err e => (object, Some (RefError e))
          | Ok gvk => (upsertOwnerRef (plain_ref gvk ro) object, None)
          end
      end
  end.
End owners.

(** ** Finalizers *)

Definition AddFinalizer (o : Object) (finalizer : string) : Object :=
  let f := GetFinalizers o in
  if existsb (λ e, bool_decide (e = finalizer)) f then o
  else SetFinalizers (f ++ [finalizer]) o.

(** The loop of [RemoveFinalizer]: [for i := 0; i < len(f); i++], where a match
    cuts [f[i]] out of the slice and steps [i] back.  [fuel] bounds the number
    of iterations. *)
Fixpoint remove_finalizer_loop (fuel : nat) (i : nat) (f : list string) (finalizer : string)
    : option (list string) :=
  match fuel with
  | O => None
  | S fuel =>
      match f !! i with
      | None => Some f
      | Some e =>
          if decide (e = finalizer)
          then remove_finalizer_loop fuel i (take i f ++ drop (S i) f) finalizer
          else remove_finalizer_loop fuel (S i) f finalizer
      end
  end.

Definition RemoveFinalizer_fuel (fuel : nat) (o : Object) (finalizer : string) : option Object :=
  f ← remove_finalizer_loop fuel 0 (GetFinalizers o) finalizer; Some (SetFinalizers f o).

(** Each iteration takes one element off what is left to look at, so one more
    than the length is enough ([RemoveFinalizer_terminates]). *)
Definition RemoveFinalizer (o : Object) (finalizer : string) : Object :=
  default o (RemoveFinalizer_fuel (S (length (GetFinalizers o))) o finalizer).

Definition ContainsFinalizer (o : Object) (finalizer : string) : bool :=
  existsb (λ e, bool_decide (e = finalizer)) (GetFinalizers o).

(** ** CreateOrUpdate and CreateOrPatch *)

Inductive OperationResult :=
  | OperationResultNone
  | OperationResultCreated
  | OperationResultUpdated
  | OperationResultUpdatedStatus
  | OperationResultUpdatedStatusOnly.

#[export] Instance OperationResult_eq_dec : EqDecision OperationResult.
Proof. solve_decision. Defined.

(** A [MutateFn] is a closure over the object; what it does to it is its
    result, also when it returns an error. *)
Definition MutateFn : Type := Object → Object * option error.

Definition err_key_mutated : error :=
  ErrorString "MutateFn cannot mutate object name and/or object namespace".

Definition mutate (f : MutateFn) (key : NamespacedName) (obj : Object) : Object * option error :=
  match f obj with
  | (obj, Some err) => (obj, Some err)
  | (obj, None) => if decide (key ≠ ObjectKeyFromObject obj) then (obj, Some err_key_mutated) else (obj, None)
  end.

Section create_or.
Context {W : Type}.
(** [apierrors.IsNotFound] and [equality.Semantic.DeepEqual]. *)
Variable IsNotFound : error → bool.
Variable DeepEqual : Object → Object → bool.

(** What a call leaves: the object, the world, the operation and the error. *)
Definition OpOutcome : Type := Object * W * OperationResult * option error.

Definition CreateOrUpdate (c : Client W) (f : MutateFn) (obj : Object) (w : W) : OpOutcome :=
  let key := ObjectKeyFromObject obj in
  match Get c key obj w with
  | (obj, w, Some err) =>
      if negb (IsNotFound err) then (obj, w, OperationResultNone, Some err)
      else match mutate f key obj with
      | (obj, Some err) => (obj, w, OperationResultNone, Some err)
      | (obj, None) =>
          match Create c [] obj w with
          | (obj, w, Some err) => (obj, w, OperationResultNone, Some err)
          | (obj, w, None) => (obj, w, OperationResultCreated, None)
          end
      end
  | (obj, w, None) =>
      let existing := obj in
      match mutate f key obj with
      | (obj, Some err) => (obj, w, OperationResultNone, Some err)
      | (obj, None) =>
          if DeepEqual existing obj then (obj, w, OperationResultNone, None)
          else match Update c [] obj w with
          | (obj, w, Some err) => (obj, w, OperationResultNone, Some err)
          | (obj, w, None) => (obj, w, OperationResultUpdated, None)
          end
      end
  end.

(** Unstructured content and its "status" field: [ToUnstructured],
    [NestedFieldCopy], [RemoveNestedField], [SetNestedField] and
    [FromUnstructured] of apimachinery, and [reflect.DeepEqual] on what they
    return. *)
Context {U S : Type} `{PatchLib}.
Variable ToUnstructured : Object → result U.
Variable NestedStatus : U → result (option S * bool).
Variable RemoveStatus : U → U.
Variable SetStatus : U → option S → result U.
Variable FromUnstructured : U → Object → result Object.
Variable U_DeepEqual : U → U → bool.
Variable S_DeepEqual : option S → option S → bool.

(** The content of an object without its status, its status, and whether it
    has one. *)
Definition split_status (obj : Object) : result (U * option S * bool) :=
  u ← ToUnstructured obj;
  '(status, has) ← NestedStatus u;
  Ok (if (has : bool) then RemoveStatus u else u, status, has).

(** [if f != nil { mutate(f, key, obj) }]. *)
Definition mutate_opt (f : option MutateFn) (key : NamespacedName) (obj : Object)
    : Object * option error :=
  match f with Some f => mutate f key obj | None => (obj, None) end.

(** Restore the mutated status on an object a patch has just replaced. *)
Definition restore_status (afterStatus : option S) (obj : Object) : result Object :=
  objectAfterPatch ← ToUnstructured obj;
  objectAfterPatch ← SetStatus objectAfterPatch afterStatus;
  FromUnstructured objectAfterPatch obj.

(** The end of [CreateOrPatch], once the object proper is patched or not. *)
Definition patch_status (c : Client W) (statusPatch : Patch) (statusChanged : bool)
    (afterStatus : option S) (obj : Object) (w : W) (result : OperationResult) : OpOutcome :=
  if statusChanged then
    match (if decide (result = OperationResultUpdated) then restore_status afterStatus obj
           else Ok obj) with
    | Err err => (obj, w, result, Some err)
    | Ok obj =>
        match Status_Patch (Status c) statusPatch [] obj w with
        | (obj, w, Some err) => (obj, w, result, Some err)
        | (obj, w, None) =>
            (obj, w,
             if decide (result = OperationResultUpdated) then OperationResultUpdatedStatus
             else OperationResultUpdatedStatusOnly, None)
        end
    end
  else (obj, w, result, None).

Definition CreateOrPatch (c : Client W) (f : option MutateFn) (obj : Object) (w : W) : OpOutcome :=
  let key := ObjectKeyFromObject obj in
  match Get c key obj w with
  | (obj, w, Some err) =>
      if negb (IsNotFound err) then (obj, w, OperationResultNone, Some err)
      else match mutate_opt f key obj with
      | (obj, Some err) => (obj, w, OperationResultNone, Some err)
      | (obj, None) =>
          match Create c [] obj w with
          | (obj, w, Some err) => (obj, w, OperationResultNone, Some err)
          | (obj, w, None) => (obj, w, OperationResultCreated, None)
          end
      end
  | (obj, w, None) =>
      let objPatch := MergeFrom obj in
      let statusPatch := MergeFrom obj in
      match split_status obj with
      | Err err => (obj, w, OperationResultNone, Some err)
      | Ok (before, beforeStatus, hasBeforeStatus) =>
          match mutate_opt f key obj with
          | (obj, Some err) => (obj, w, OperationResultNone, Some err)
          | (obj, None) =>
              match split_status obj with
              | Err err => (obj, w, OperationResultNone, Some err)
              | Ok (after, afterStatus, hasAfterStatus) =>
                  let statusChanged := (hasBeforeStatus || hasAfterStatus)
                                       && negb (S_DeepEqual beforeStatus afterStatus) in
                  if negb (U_DeepEqual before after) then
                    match Patch_ c objPatch [] obj w with
                    | (obj, w, Some err) => (obj, w, OperationResultNone, Some err)
                    | (obj, w, None) =>
                        patch_status c statusPatch statusChanged afterStatus obj w OperationResultUpdated
                    end
                  else patch_status c statusPatch statusChanged afterStatus obj w OperationResultNone
              end
          end
      end
  end.
End create_or.

(** ** Facts about owner references *)

Section owner_facts.
Context `{MetaV1}.
Implicit Types (r ref : OwnerReference) (rs : list OwnerReference) (o : Object).

Lemma referSameObject_true a b :
  referSameObject a b = true ↔
  ∃ ga gb, ParseGroupVersion (or_APIVersion a) = Ok ga ∧ ParseGroupVersion (or_APIVersion b) = Ok gb
    ∧ gv_Group ga = gv_Group gb ∧ or_Kind a = or_Kind b ∧ or_Name a = or_Name b.
Proof.
  unfold referSameObject. split.
  - repeat case_match; try done. rewrite !andb_true_iff, !bool_decide_eq_true.
    intros [[? ?] ?]. eauto 10.
  - intros (ga & gb & -> & -> & ? & ? & ?).
    rewrite !andb_true_iff, !bool_decide_eq_true. done.
Qed.

Lemma referSameObject_sym a b : referSameObject a b = true → referSameObject b a = true.
Proof. rewrite !referSameObject_true. intros (ga & gb & ? & ? & ? & ? & ?). exists gb, ga. auto. Qed.

Lemma referSameObject_trans a b c :
  referSameObject a b = true → referSameObject b c = true → referSameObject a c = true.
Proof.
  rewrite !referSameObject_true. intros (ga & gb & ? & ? & ? & ? & ?) (gb' & gc & ? & ? & ? & ? & ?).
  simplify_eq. exists ga, gc. repeat split; congruence.
Qed.

(** [upsertOwnerRef] on the list of references. *)
Definition upsert_refs (ref : OwnerReference) (owners : list OwnerReference) : list OwnerReference :=
  let idx := indexOwnerRef owners ref in
  if decide (idx = -1)%Z then owners ++ [ref] else <[Z.to_nat idx := ref]> owners.

Lemma upsertOwnerRef_refs ref o :
  upsertOwnerRef ref o = SetOwnerReferences (upsert_refs ref (GetOwnerReferences o)) o.
Proof. done. Qed.

Lemma indexOwnerRef_from_spec rs ref k :
  (0 ≤ k)%Z →
  (indexOwnerRef_from k rs ref = (-1)%Z ∧ Forall (λ r, referSameObject r ref = false) rs)
  ∨ ∃ l1 r l2, rs = l1 ++ r :: l2 ∧ referSameObject r ref = true
      ∧ Forall (λ r, referSameObject r ref = false) l1
      ∧ indexOwnerRef_from k rs ref = (k + Z.of_nat (length l1))%Z.
Proof.
  revert k. induction rs as [|r rs IH]; intros k Hk; cbn; [by left|].
  destruct (referSameObject r ref) eqn:Hr.
  - right. exists [], r, rs. cbn. repeat split; [done|constructor|lia].
  - destruct (IH (k + 1)%Z) as [[-> ?]|(l1 & r' & l2 & -> & ? & ? & ->)]; [lia| |].
    + left. auto.
    + right. exists (r :: l1), r', l2. cbn. repeat split; [done|by constructor|lia].
Qed.

(** The two ways an upsert goes: nothing refers to the object and the
    reference is appended, or the first reference to it is replaced. *)
Lemma upsert_refs_cases ref rs :
  (Forall (λ r, referSameObject r ref = false) rs ∧ upsert_refs ref rs = rs ++ [ref])
  ∨ ∃ l1 r l2, rs = l1 ++ r :: l2 ∧ referSameObject r ref = true
      ∧ Forall (λ r, referSameObject r ref = false) l1
      ∧ upsert_refs ref rs = l1 ++ ref :: l2.
Proof.
  unfold upsert_refs, indexOwnerRef.
  destruct (indexOwnerRef_from_spec rs ref 0) as [[-> ?]|(l1 & r & l2 & -> & ? & ? & ->)]; [lia| |].
  - left. auto.
  - right. exists l1, r, l2. rewrite decide_False by lia.
    rewrite Z.add_0_l, Nat2Z.id. split; [done|]. split; [done|]. split; [done|].
    pose proof (insert_app_r l1 (r :: l2) 0 ref) as Hins. by rewrite Nat.add_0_r in Hins.
Qed.

(** The invariant of a list of owner references: one reference per object,
    and one controller. *)
Definition refs_wf rs : Prop := ∀ i j a b,
  rs !! i = Some a → rs !! j = Some b →
  referSameObject a b = true ∨ (is_controller_ref a = true ∧ is_controller_ref b = true) → i = j.

Lemma lookup_middle_ne {A} (l1 l2 : list A) x y i :
  (l1 ++ y :: l2) !! i = Some x → i ≠ length l1 → x ∈ l1 ++ l2.
Proof.
  intros [Hi|[Hle Hi]]%lookup_app_Some Hne; apply elem_of_app.
  - left. by eapply list_elem_of_lookup_2.
  - right. destruct (i - length l1)%nat as [|k] eqn:Hk; [lia|]. by eapply list_elem_of_lookup_2.
Qed.

Lemma lookup_middle_swap {A} (l1 l2 : list A) x y i :
  i ≠ length l1 → (l1 ++ x :: l2) !! i = (l1 ++ y :: l2) !! i.
Proof.
  intros Hne. destruct (decide (i < length l1)%nat); [by rewrite !lookup_app_l|].
  rewrite !lookup_app_r by lia. by destruct (i - length l1)%nat as [|k] eqn:Hk; [lia|].
Qed.

Lemma refs_wf_middle l1 r l2 x :
  refs_wf (l1 ++ r :: l2) → x ∈ l1 ++ l2 →
  referSameObject x r = false ∧ (is_controller_ref r = true → is_controller_ref x = false).
Proof.
  intros Hwf Hx.
  assert (∃ i, i ≠ length l1 ∧ (l1 ++ r :: l2) !! i = Some x) as (i & Hi & Hix).
  { apply elem_of_app in Hx as [[i Hi]%list_elem_of_lookup|[i Hi]%list_elem_of_lookup].
    - exists i. pose proof (lookup_lt_Some _ _ _ Hi). split; [lia|]. by apply lookup_app_l_Some.
    - exists (length l1 + S i)%nat. split; [lia|].
      rewrite lookup_app_r by lia. by replace (length l1 + S i - length l1)%nat with (S i) by lia. }
  assert (Hr : (l1 ++ r :: l2) !! length l1 = Some r) by by rewrite list_lookup_middle.
  split; [|intros Hc]; apply not_true_is_false; intros Ht; apply Hi; eapply Hwf; eauto.
Qed.

Lemma refs_wf_filter rs ref r :
  refs_wf rs → r ∈ rs → is_controller_ref r = true →
  ∃ l1 l2, rs = l1 ++ r :: l2 ∧ filter (λ r, is_controller_ref r = true) (l1 ++ l2) = [].
Proof.
  intros Hwf Hr Hc. apply list_elem_of_split in Hr as (l1 & l2 & ->). exists l1, l2.
  split; [done|]. apply elem_of_nil_inv. intros x [Hx Hin]%list_elem_of_filter.
  destruct (refs_wf_middle _ _ _ _ Hwf Hin) as [_ Hn]. rewrite Hn in Hx; done.
Qed.

Lemma filter_not_same_upsert ref rs :
  refs_wf rs → referSameObject ref ref = true →
  filter (λ r, referSameObject r ref = false) (upsert_refs ref rs)
  = filter (λ r, referSameObject r ref = false) rs.
Proof.
  intros Hwf Hself. destruct (upsert_refs_cases ref rs) as [[Hno ->]|(l1 & r & l2 & -> & Hr & Hl1 & ->)].
  - rewrite list.filter_app, filter_cons_False by congruence. by rewrite filter_nil, app_nil_r.
  - rewrite !list.filter_app, !filter_cons_False by congruence. done.
Qed.

(** An upsert of a reference that refers to itself keeps the invariant, when
    the reference is no controller or no other object controls. *)
Lemma upsert_refs_wf ref rs :
  refs_wf rs → referSameObject ref ref = true →
  (is_controller_ref ref = true →
   Forall (λ r, is_controller_ref r = true → referSameObject r ref = true) rs) →
  refs_wf (upsert_refs ref rs).
Proof.
  intros Hwf Hself Hctl. rewrite list.Forall_forall in Hctl.
  assert (Hx : ∀ x, x ∈ rs → referSameObject x ref = false →
            ¬ (referSameObject x ref = true ∨ is_controller_ref x = true ∧ is_controller_ref ref = true)).
  { intros x Hx Hs [?|[Hc Hc']]; [congruence|]. rewrite (Hctl Hc' x Hx Hc) in Hs. done. }
  assert (Hswap : ∀ a b, referSameObject a b = true ∨ is_controller_ref a = true ∧ is_controller_ref b = true →
            referSameObject b a = true ∨ is_controller_ref b = true ∧ is_controller_ref a = true).
  { intros a b [?%referSameObject_sym|[? ?]]; auto. }
  destruct (upsert_refs_cases ref rs) as [[Hno ->]|(l1 & r & l2 & -> & Hr & Hl1 & ->)].
  - rewrite list.Forall_forall in Hno.
    intros i j a b [Hi|[? [? <-]%list_lookup_singleton_Some]]%lookup_app_Some
      [Hj|[? [? <-]%list_lookup_singleton_Some]]%lookup_app_Some Hab; [by eapply Hwf| | |lia].
    + exfalso. pose proof (list_elem_of_lookup_2 _ _ _ Hi). by apply (Hx a); auto.
    + exfalso. pose proof (list_elem_of_lookup_2 _ _ _ Hj). by apply (Hx b); auto.
  - assert (Hother : ∀ x, x ∈ l1 ++ l2 → referSameObject x ref = false).
    { intros x Hin. destruct (refs_wf_middle _ _ _ _ Hwf Hin) as [Hxr _].
      apply not_true_is_false. intros Ht. rewrite (referSameObject_trans x ref r) in Hxr; [done|done|].
      by apply referSameObject_sym. }
    intros i j a b Hi Hj Hab.
    destruct (decide (i = length l1)) as [->|Hi'], (decide (j = length l1)) as [->|Hj']; [done| | |].
    + rewrite list_lookup_middle in Hi by done. injection Hi as <-.
      assert (Hin : b ∈ l1 ++ l2) by (by eapply lookup_middle_ne; eauto).
      exfalso. eapply (Hx b); [|by apply Hother|by apply Hswap]. apply elem_of_app in Hin. set_solver.
    + rewrite list_lookup_middle in Hj by done. injection Hj as <-.
      assert (Hin : a ∈ l1 ++ l2) by (by eapply lookup_middle_ne; eauto).
      exfalso. eapply (Hx a); [|by apply Hother|done]. apply elem_of_app in Hin. set_solver.
    + eapply Hwf; [| |exact Hab]; by rewrite lookup_middle_swap with (y := ref).
Qed.

Lemma upsert_refs_self ref rs : referSameObject ref ref = true → ref ∈ upsert_refs ref rs.
Proof.
  intros Hself. destruct (upsert_refs_cases ref rs) as [[_ ->]|(l1 & r & l2 & _ & _ & _ & ->)];
    apply elem_of_app; right; by left.
Qed.

(** Once the reference is in the list, an upsert changes nothing. *)
Lemma upsert_refs_id ref rs :
  refs_wf rs → referSameObject ref ref = true → ref ∈ rs → upsert_refs ref rs = rs.
Proof.
  intros Hwf Hself Hin. destruct (upsert_refs_cases ref rs) as [[Hno _]|(l1 & r & l2 & -> & Hr & _ & ->)].
  - rewrite list.Forall_forall in Hno. rewrite (Hno _ Hin) in Hself. done.
  - destruct (decide (r = ref)) as [->|Hne]; [done|]. exfalso.
    assert (ref ∈ l1 ++ l2) as Hin' by (rewrite elem_of_app in *; set_solver).
    destruct (refs_wf_middle _ _ _ _ Hwf Hin') as [Hn _].
    rewrite (referSameObject_sym r ref Hr) in Hn. done.
Qed.

Lemma controllers_singleton rs r :
  refs_wf rs → r ∈ rs → is_controller_ref r = true →
  filter (λ r, is_controller_ref r = true) rs = [r].
Proof.
  intros Hwf Hr Hc. destruct (refs_wf_filter rs r r Hwf Hr Hc) as (l1 & l2 & -> & Hnil).
  rewrite list.filter_app in Hnil. apply app_nil in Hnil as [Hn1 Hn2].
  by rewrite list.filter_app, filter_cons_True, Hn1, Hn2.
Qed.

(** The controller [GetControllerOf] finds is the object [ref] refers to, or
    there is none, exactly when every controller among the references refers
    to that object. *)
Lemma GetControllerOf_same `{!MetaV1Laws} o ref :
  refs_wf (GetOwnerReferences o) →
  (∀ r, GetControllerOf o = Some r → referSameObject r ref = true) ↔
  Forall (λ r, is_controller_ref r = true → referSameObject r ref = true) (GetOwnerReferences o).
Proof.
  intros Hwf. rewrite list.Forall_forall. split.
  - intros Hall r Hr Hc. destruct (GetControllerOf o) as [e|] eqn:He.
    + destruct (GetControllerOf_Some _ _ He) as [Hin Hce].
      pose proof (controllers_singleton _ _ Hwf Hin Hce) as Hs.
      assert (r ∈ [e]) as ->%list_elem_of_singleton by (rewrite <- Hs; by apply list_elem_of_filter).
      by apply Hall.
    + apply GetControllerOf_None in He. rewrite list.Forall_forall in He.
      rewrite (He _ Hr) in Hc. done.
  - intros Hall r [Hin Hc]%GetControllerOf_Some. auto.
Qed.

Lemma SetControllerReference_cases ro controlled scheme gvk :
  GVKForObject ro scheme = Ok gvk →
  let ref := controller_ref gvk ro in
  SetControllerReference (RuntimeOwner ro) controlled scheme =
    match validateOwner (o_meta ro) controlled with
    | Some e => (controlled, Some (RefError e))
    | None => match GetControllerOf controlled with
              | Some e => if referSameObject e ref then (upsertOwnerRef ref controlled, None)
                          else (controlled, Some (AlreadyOwnedError controlled e))
              | None => (upsertOwnerRef ref controlled, None)
              end
    end.
Proof.
  intros Hg ref. unfold SetControllerReference. cbn.
  destruct (validateOwner _ _); [done|]. rewrite Hg. destruct (GetControllerOf _); [|done].
  fold ref. by destruct (referSameObject _ _).
Qed.

Lemma SetControllerReference_effect `{!MetaV1Laws} ro controlled scheme gvk :
  let rs := GetOwnerReferences controlled in
  let ref := controller_ref gvk ro in
  refs_wf rs → GVKForObject ro scheme = Ok gvk → validateOwner (o_meta ro) controlled = None →
  referSameObject ref ref = true →
  Forall (λ r, is_controller_ref r = true → referSameObject r ref = true) rs →
  ∃ rs', upsertOwnerRef ref controlled = SetOwnerReferences rs' controlled ∧ refs_wf rs'
     ∧ filter (λ r, is_controller_ref r = true) rs' = [ref]
     ∧ filter (λ r, referSameObject r ref = false) rs'
       = filter (λ r, referSameObject r ref = false) rs
     ∧ SetControllerReference (RuntimeOwner ro) (upsertOwnerRef ref controlled) scheme
       = (upsertOwnerRef ref controlled, None).
Proof.
  intros rs ref Hwf Hg Hv Hself Hall. exists (upsert_refs ref rs).
  assert (Hwf' : refs_wf (upsert_refs ref rs)) by (by apply upsert_refs_wf).
  pose proof (upsert_refs_self ref rs Hself) as Hin.
  pose proof (controllers_singleton _ ref Hwf' Hin eq_refl) as Hone.
  split; [done|]. split; [done|]. split; [done|]. split; [by apply filter_not_same_upsert|].
  rewrite SetControllerReference_cases with (gvk := gvk) by done. fold ref.
  change (validateOwner (o_meta ro) (upsertOwnerRef ref controlled))
    with (validateOwner (o_meta ro) controlled). rewrite Hv.
  assert (upsertOwnerRef ref (upsertOwnerRef ref controlled) = upsertOwnerRef ref controlled) as ->.
  { rewrite (upsertOwnerRef_refs ref (upsertOwnerRef ref controlled)), upsertOwnerRef_refs.
    autorewrite with accessors. fold rs. by rewrite upsert_refs_id. }
  destruct (GetControllerOf _) as [e|] eqn:He; [|done].
  apply GetControllerOf_Some in He as [Hein Hec].
  assert (e ∈ [ref]) as ->%list_elem_of_singleton by (rewrite <- Hone; by apply list_elem_of_filter).
  by rewrite Hself.
Qed.

(** C15: on an object with at most one reference per owner and at most one
    controller, [SetControllerReference] succeeds exactly when the owner
    may own the object and no other object controls it.  It then only
    changes the owner references, keeps both uniqueness properties, makes
    the owner the one controller, leaves the references to other objects
    as they are and in order, and doing it again changes nothing; on an
    error the object is left as it was. *)
Theorem SetControllerReference_one_controller `{!MetaV1Laws} ro controlled scheme gvk :
  refs_wf (GetOwnerReferences controlled) →
  GVKForObject ro scheme = Ok gvk →
  ParseGroupVersion (gv_String (gvk_GroupVersion gvk)) = Ok (gvk_GroupVersion gvk) →
  let rs := GetOwnerReferences controlled in
  let ref := controller_ref gvk ro in
  let '(controlled', err) := SetControllerReference (RuntimeOwner ro) controlled scheme in
  (err = None ↔ validateOwner (o_meta ro) controlled = None
     ∧ Forall (λ r, is_controller_ref r = true → referSameObject r ref = true) rs)
  ∧ (err ≠ None → controlled' = controlled)
  ∧ (err = None → ∃ rs',
       controlled' = SetOwnerReferences rs' controlled ∧ refs_wf rs'
       ∧ filter (λ r, is_controller_ref r = true) rs' = [ref]
       ∧ filter (λ r, referSameObject r ref = false) rs'
         = filter (λ r, referSameObject r ref = false) rs
       ∧ SetControllerReference (RuntimeOwner ro) controlled' scheme = (controlled', None)).
Proof.
  intros Hwf Hg Hparse rs ref.
  assert (Hself : referSameObject ref ref = true) by (apply referSameObject_true; by repeat eexists).
  pose proof (GetControllerOf_same controlled ref Hwf) as Hsame. fold rs in Hsame, Hwf.
  rewrite SetControllerReference_cases with (gvk := gvk) by done. fold ref.
  destruct (validateOwner (o_meta ro) controlled) eqn:Hv;
    [split; [split; [done|by intros [? ?]]|by split]|].
  pose proof (SetControllerReference_effect ro controlled scheme gvk Hwf Hg Hv Hself) as Hok.
  fold rs ref in Hok.
  destruct (GetControllerOf controlled) as [e|] eqn:He; [destruct (referSameObject e ref) eqn:Hse|].
  - assert (Hall : Forall (λ r, is_controller_ref r = true → referSameObject r ref = true) rs).
    { apply Hsame. intros r [= <-]. done. }
    split; [done|]. split; [done|]. auto.
  - split; [|done]. split; [done|]. intros [_ Hall]. rewrite <- Hsame in Hall.
    rewrite (Hall e) in Hse; done.
  - assert (Hall : Forall (λ r, is_controller_ref r = true → referSameObject r ref = true) rs).
    { by apply Hsame. }
    split; [done|]. split; [done|]. auto.
Qed.
End owner_facts.

(** ** Facts about finalizers *)

Section finalizer_facts.
Implicit Types (o : Object) (fin : string).

Lemma remove_finalizer_loop_spec fuel i f fin :
  (i ≤ length f)%nat → (length f - i < fuel)%nat →
  remove_finalizer_loop fuel i f fin = Some (take i f ++ filter (λ e, e ≠ fin) (drop i f)).
Proof.
  revert i f. induction fuel as [|fuel IH]; intros i f Hi Hfuel; [lia|]. cbn.
  destruct (f !! i) as [e|] eqn:He.
  - pose proof (lookup_lt_Some _ _ _ He) as Hlt. rewrite (drop_S f e i He), filter_cons.
    destruct (decide (e = fin)) as [->|Hne].
    + rewrite decide_False by (intros Hn; by apply Hn).
      rewrite IH by (rewrite length_app, length_take, length_drop; lia).
      rewrite take_app_length', drop_app_length' by (rewrite length_take; lia). done.
    + rewrite decide_True by done. rewrite IH by lia.
      by rewrite (take_S_r f i e He), <- (assoc_L app).
  - apply lookup_ge_None in He. by rewrite drop_ge, filter_nil, app_nil_r, take_ge.
Qed.

Lemma RemoveFinalizer_fuel_filter fuel o fin :
  (length (GetFinalizers o) < fuel)%nat →
  RemoveFinalizer_fuel fuel o fin
  = Some (SetFinalizers (filter (λ e, e ≠ fin) (GetFinalizers o)) o).
Proof.
  intros Hf. unfold RemoveFinalizer_fuel. by rewrite remove_finalizer_loop_spec by lia.
Qed.

Lemma RemoveFinalizer_filter o fin :
  RemoveFinalizer o fin = SetFinalizers (filter (λ e, e ≠ fin) (GetFinalizers o)) o.
Proof. unfold RemoveFinalizer. by rewrite RemoveFinalizer_fuel_filter by lia. Qed.

Lemma ContainsFinalizer_elem o fin : ContainsFinalizer o fin = true ↔ fin ∈ GetFinalizers o.
Proof.
  unfold ContainsFinalizer. rewrite existsb_Exists, list.Exists_exists. split.
  - intros (x & Hx & ->%bool_decide_eq_true). done.
  - intros Hin. exists fin. by rewrite bool_decide_eq_true.
Qed.

Lemma AddFinalizer_cases o fin :
  AddFinalizer o fin = if ContainsFinalizer o fin then o
                       else SetFinalizers (GetFinalizers o ++ [fin]) o.
Proof. done. Qed.

Lemma elem_of_AddFinalizer o fin x :
  x ∈ GetFinalizers (AddFinalizer o fin) ↔ x ∈ GetFinalizers o ∨ x = fin.
Proof.
  rewrite AddFinalizer_cases. destruct (ContainsFinalizer o fin) eqn:Hc.
  - apply ContainsFinalizer_elem in Hc. naive_solver.
  - autorewrite with accessors. by rewrite elem_of_app, list_elem_of_singleton.
Qed.

Lemma elem_of_RemoveFinalizer o fin x :
  x ∈ GetFinalizers (RemoveFinalizer o fin) ↔ x ∈ GetFinalizers o ∧ x ≠ fin.
Proof.
  rewrite RemoveFinalizer_filter. autorewrite with accessors. rewrite list_elem_of_filter. tauto.
Qed.

Lemma RemoveFinalizer_AddFinalizer o fin :
  ContainsFinalizer o fin = false → RemoveFinalizer (AddFinalizer o fin) fin = o.
Proof.
  intros Hc. rewrite RemoveFinalizer_filter, AddFinalizer_cases, Hc. autorewrite with accessors.
  rewrite list.filter_app, filter_cons_False, filter_nil, app_nil_r by (intros Hn; by apply Hn).
  rewrite filter_all; [apply SetFinalizers_id|].
  apply list.Forall_forall. intros x Hx ->. apply ContainsFinalizer_elem in Hx. congruence.
Qed.

(** The loop of [RemoveFinalizer], which deletes from the slice it
    walks and steps its index back, always ends, within one iteration more
    than there are finalizers, and removes every occurrence of the
    finalizer and nothing else.  Adding is idempotent, a membership test
    after an addition or a removal answers accordingly and is unchanged for
    other finalizers, and removing what was added restores the object. *)
Theorem finalizer_list_laws o fin :
  (∀ fuel, (length (GetFinalizers o) < fuel)%nat →
     RemoveFinalizer_fuel fuel o fin
     = Some (SetFinalizers (filter (λ e, e ≠ fin) (GetFinalizers o)) o))
  ∧ AddFinalizer (AddFinalizer o fin) fin = AddFinalizer o fin
  ∧ (∀ other, ContainsFinalizer (AddFinalizer o fin) other
              = ContainsFinalizer o other || bool_decide (other = fin))
  ∧ (∀ other, ContainsFinalizer (RemoveFinalizer o fin) other
              = ContainsFinalizer o other && bool_decide (other ≠ fin))
  ∧ (ContainsFinalizer o fin = false → RemoveFinalizer (AddFinalizer o fin) fin = o).
Proof.
  split; [intros; by apply RemoveFinalizer_fuel_filter|]. split; [|split; [|split]].
  - rewrite (AddFinalizer_cases (AddFinalizer o fin)).
    assert (ContainsFinalizer (AddFinalizer o fin) fin = true) as ->; [|done].
    apply ContainsFinalizer_elem, elem_of_AddFinalizer. by right.
  - intros other. apply eq_true_iff_eq.
    rewrite orb_true_iff, bool_decide_eq_true, !ContainsFinalizer_elem. apply elem_of_AddFinalizer.
  - intros other. apply eq_true_iff_eq.
    rewrite andb_true_iff, bool_decide_eq_true, !ContainsFinalizer_elem. apply elem_of_RemoveFinalizer.
  - apply RemoveFinalizer_AddFinalizer.
Qed.
End finalizer_facts.

(** ** What [CreateOrUpdate] achieves *)

Section create_or_update_facts.
Context {W : Type} (c : Client W) (IsNotFound : error → bool) `{!StoreClient c IsNotFound}.
Variable DeepEqual : Object → Object → bool.

(** A mutation that brings an object to a desired state: it always succeeds,
    does not move the object, leaves its resource version and deletion
    timestamp alone and does not look at the former, and has nothing left to
    do on its own result. *)
Definition reaches_desired_state (f : MutateFn) : Prop := ∀ o, sc_managed o → ∃ o',
  f o = (o', None) ∧ sc_managed o'
  ∧ ObjectKeyFromObject o' = ObjectKeyFromObject o
  ∧ GetResourceVersion o' = GetResourceVersion o
  ∧ GetDeletionTimestamp o' = GetDeletionTimestamp o
  ∧ f o' = (o', None)
  ∧ ∀ rv, f (SetResourceVersion rv o) = (SetResourceVersion rv o', None).

Lemma mutate_same_key f key o o' :
  f o = (o', None) → ObjectKeyFromObject o' = key → mutate f key o = (o', None).
Proof. intros Hf Hk. unfold mutate. rewrite Hf. case_decide; [congruence|done]. Qed.

(** The object is in the store and the mutation has nothing to do on it. *)
Definition settled (f : MutateFn) (w : W) (key : NamespacedName) : Prop := ∃ s s',
  sc_view w key = Some s ∧ f s = (s', None)
  ∧ ObjectKeyFromObject s' = key ∧ DeepEqual s s' = true.

Lemma CreateOrUpdate_settled f obj w :
  sc_ok w → sc_target obj → settled f w (ObjectKeyFromObject obj) →
  ∃ o, CreateOrUpdate IsNotFound DeepEqual c f obj w = (o, w, OperationResultNone, None).
Proof.
  intros Hok Ht (s & s' & Hs & Hf & Hk & Heq). exists s'. unfold CreateOrUpdate.
  rewrite (sc_Get_Some _ _ _ Hok Ht Hs).
  rewrite (mutate_same_key _ _ _ _ Hf) by done. by rewrite Heq.
Qed.

Lemma written_settled f w o rv key :
  (∀ o, DeepEqual o o = true) → reaches_desired_state f → sc_managed o → f o = (o, None) →
  ObjectKeyFromObject o = key → sc_view w key = Some (SetResourceVersion rv o) → settled f w key.
Proof.
  intros Hrefl Hf Hm Hfix Hk Hw. exists (SetResourceVersion rv o), (SetResourceVersion rv o).
  destruct (Hf o Hm) as (o' & Hfo & _ & _ & _ & _ & _ & Hrvs).
  rewrite Hfix in Hfo. injection Hfo as <-. repeat split; [done|by rewrite Hrvs|done|by apply Hrefl].
Qed.

(** One call that takes the world from [w] to a world where the object under
    [key] is settled. *)
Definition settles (f : MutateFn) (w : W) (key : NamespacedName) (out : OpOutcome) : Prop :=
  ∃ o w' r, out = (o, w', r, None) ∧ sc_ok w' ∧ settled f w' key
    ∧ (∀ k, k ≠ key → sc_view w' k = sc_view w k)
    ∧ (r = OperationResultCreated ↔ sc_view w key = None)
    ∧ (r = OperationResultNone ↔ settled f w key).

Lemma CreateOrUpdate_missing f obj w :
  sc_ok w → sc_target obj → reaches_desired_state f → (∀ o, DeepEqual o o = true) →
  sc_view w (ObjectKeyFromObject obj) = None →
  settles f w (ObjectKeyFromObject obj) (CreateOrUpdate IsNotFound DeepEqual c f obj w).
Proof.
  intros Hok Ht Hf Hrefl Hv. pose proof (sc_target_managed _ Ht) as (Hm & Hn & Hrv0).
  unfold CreateOrUpdate. destruct (sc_Get_None _ _ Hok Ht Hv) as (e & -> & He). rewrite He. cbn.
  destruct (Hf obj Hm) as (o' & Hfo & Hm' & Hk' & Hrv' & _ & Hfo' & _).
  rewrite (mutate_same_key _ _ _ _ Hfo) by done.
  assert (GetName o' ≠ "") by (apply (f_equal nn_Name) in Hk'; cbn in Hk'; by rewrite Hk').
  destruct (sc_Create w o') as (rv & w' & -> & Hok' & Hview); try congruence.
  eexists _, w', OperationResultCreated. split; [done|]. split; [done|]. split; [|split; [|split]].
  - apply (written_settled f w' o' rv); try done. by rewrite Hview, decide_True by congruence.
  - intros k Hk. rewrite Hview, decide_False by congruence. done.
  - done.
  - split; [done|]. intros (s & s' & ? & _). congruence.
Qed.

Lemma CreateOrUpdate_existing f obj w old :
  sc_ok w → sc_target obj → reaches_desired_state f → (∀ o, DeepEqual o o = true) →
  sc_view w (ObjectKeyFromObject obj) = Some old → GetDeletionTimestamp old = None →
  settles f w (ObjectKeyFromObject obj) (CreateOrUpdate IsNotFound DeepEqual c f obj w).
Proof.
  intros Hok Ht Hf Hrefl Hv Hdt. unfold CreateOrUpdate. rewrite (sc_Get_Some _ _ _ Hok Ht Hv).
  destruct (sc_view_key _ _ _ Hok Hv) as (Hmo & Hko & _).
  destruct (Hf old Hmo) as (o' & Hfo & Hm' & Hk' & Hrv' & Hdt' & Hfo' & _).
  assert (Hkey : ObjectKeyFromObject o' = ObjectKeyFromObject obj) by congruence.
  rewrite (mutate_same_key _ _ _ _ Hfo) by done.
  assert (Hset : settled f w (ObjectKeyFromObject obj) ↔ DeepEqual old o' = true).
  { split; [|intros Heq; by exists old, o'].
    intros (s & s' & Hs & Hfs & _ & Hd). rewrite Hv in Hs. injection Hs as <-. congruence. }
  destruct (DeepEqual old o') eqn:Heq.
  { exists o', w, OperationResultNone. rewrite Hset, Hv. by repeat split. }
  assert (GetName o' ≠ "").
  { pose proof (sc_target_managed _ Ht) as (_ & Hn & _). apply (f_equal nn_Name) in Hkey. cbn in Hkey.
    by rewrite Hkey. }
  destruct (sc_Update w o' old) as (rv & w' & -> & Hok' & Hview); try congruence.
  eexists _, w', OperationResultUpdated. split; [done|]. split; [done|]. split; [|split; [|split]].
  - apply (written_settled f w' o' rv); try done. by rewrite Hview, decide_True by congruence.
  - intros k Hk. rewrite Hview, decide_False by congruence. done.
  - rewrite Hv. done.
  - by rewrite Hset.
Qed.

(** C5: [CreateOrUpdate] over a store brings the object to the state the
    mutation asks for, and does so once: it succeeds, creates the object
    when it is not there, updates it when the mutation changes it and does
    nothing otherwise; afterwards the stored object is one the mutation has
    nothing to do on, the objects under other keys are as they were, and any
    further call, from a fresh target, reports that there was nothing to do
    and leaves the world as it is. *)
Theorem CreateOrUpdate_converges f obj w :
  sc_ok w → sc_target obj → reaches_desired_state f → (∀ o, DeepEqual o o = true) →
  (∀ o, sc_view w (ObjectKeyFromObject obj) = Some o → GetDeletionTimestamp o = None) →
  let key := ObjectKeyFromObject obj in
  ∃ o w' r,
    CreateOrUpdate IsNotFound DeepEqual c f obj w = (o, w', r, None)
    ∧ sc_ok w' ∧ settled f w' key
    ∧ (∀ k, k ≠ key → sc_view w' k = sc_view w k)
    ∧ (r = OperationResultCreated ↔ sc_view w key = None)
    ∧ (r = OperationResultNone ↔ settled f w key)
    ∧ ∀ obj2, sc_target obj2 → ObjectKeyFromObject obj2 = key →
        ∃ o2, CreateOrUpdate IsNotFound DeepEqual c f obj2 w' = (o2, w', OperationResultNone, None).
Proof.
  intros Hok Ht Hf Hrefl Hdt key.
  assert (settles f w key (CreateOrUpdate IsNotFound DeepEqual c f obj w))
    as (o & w' & r & Hr & Hok' & Hset & Hother & Hc & Hnone).
  { destruct (sc_view w key) as [old|] eqn:Hv; [|by apply CreateOrUpdate_missing].
    eapply CreateOrUpdate_existing; eauto. }
  exists o, w', r. repeat (split; [done|]).
  intros obj2 Ht2 Hk2. apply CreateOrUpdate_settled; [done|done|]. by rewrite Hk2.
Qed.
End create_or_update_facts.

(** ** The reported operation and the writes made *)

Inductive WriteCall := CallCreate | CallUpdate | CallPatch | CallStatusPatch | CallOther.

(** A client that notes each write it passes on. *)
Section logging.
Context {W : Type}.

Definition logged (call : WriteCall) (f : ObjCall W) : ObjCall (W * list WriteCall) := λ obj wl,
  let '(obj, w, err) := f obj wl.1 in (obj, (w, wl.2 ++ [call]), err).

Definition unlogged (f : ObjCall W) : ObjCall (W * list WriteCall) := λ obj wl,
  let '(obj, w, err) := f obj wl.1 in (obj, (w, wl.2), err).

Definition logging_client (c : Client W) : Client (W * list WriteCall) := {|
  Get := λ key, unlogged (Get c key);
  List := λ opts l wl, let '(l, w, err) := List c opts l wl.1 in (l, (w, wl.2), err);
  Create := λ opts, logged CallCreate (Create c opts);
  Delete := λ opts, logged CallOther (Delete c opts);
  Update := λ opts, logged CallUpdate (Update c opts);
  Patch_ := λ p opts, logged CallPatch (Patch_ c p opts);
  DeleteAllOf := λ opts, logged CallOther (DeleteAllOf c opts);
  Status := {| Status_Update := λ opts, logged CallOther (Status_Update (Status c) opts);
               Status_Patch := λ p opts, logged CallStatusPatch (Status_Patch (Status c) p opts) |};
  Client_Scheme := Client_Scheme c;
  Client_RESTMapper := Client_RESTMapper c;
|}.

(** The writes a successful call makes, by the operation it reports. *)
Definition writes_of (r : OperationResult) : list WriteCall :=
  match r with
  | OperationResultNone => []
  | OperationResultCreated => [CallCreate]
  | OperationResultUpdated => [CallPatch]
  | OperationResultUpdatedStatus => [CallPatch; CallStatusPatch]
  | OperationResultUpdatedStatusOnly => [CallStatusPatch]
  end.

(** The same for [CreateOrUpdate], which updates instead of patching. *)
Definition update_writes_of (r : OperationResult) : list WriteCall :=
  match r with OperationResultUpdated => [CallUpdate] | r => writes_of r end.

Implicit Types (c : Client W) (f : MutateFn) (obj : Object) (w : W).

(** Writes are those of the reported operation, or on an error those of some
    operation. *)
Definition reported (ops : OperationResult → list WriteCall)
    (out : @OpOutcome (W * list WriteCall)) : Prop :=
  let '(_, wl, r, err) := out in
  (err = None → wl.2 = ops r) ∧ (err ≠ None → ∃ r', wl.2 = ops r').

#[local] Arguments reported : simpl never.

Lemma reported_intro ops o wl r err : wl.2 = ops r → reported ops (o, wl, r, err).
Proof. intros Hw. split; [done|]. intros _. by exists r. Qed.
Lemma reported_error ops o wl r err r' : wl.2 = ops r' → reported ops (o, wl, r, Some err).
Proof. intros Hw. split; [done|]. intros _. by exists r'. Qed.

Lemma CreateOrUpdate_reported IsNotFound DeepEqual c f obj w :
  reported update_writes_of
    (CreateOrUpdate IsNotFound DeepEqual (logging_client c) f obj (w, [])).
Proof.
  unfold CreateOrUpdate; cbn; unfold logged, unlogged; cbn.
  repeat case_match; simplify_eq/=; try (by apply reported_intro);
    (by apply reported_error with OperationResultCreated)
    || (by apply reported_error with OperationResultUpdated).
Qed.

Lemma patch_status_reported {U S} `{PatchLib} (ToU : Object → result U)
    (SetS : U → option S → result U) FromU c sp changed after obj wl r :
  r = OperationResultUpdated ∨ r = OperationResultNone → wl.2 = writes_of r →
  reported writes_of (patch_status ToU SetS FromU (logging_client c) sp changed after obj wl r).
Proof.
  intros [-> | ->] Hw; unfold patch_status; cbn; unfold logged, unlogged;
    repeat case_match; simplify_eq/=; try (by apply reported_intro);
    try (apply reported_intro; cbn; by rewrite Hw);
    (apply reported_error with OperationResultUpdatedStatus; cbn; by rewrite Hw)
    || (apply reported_error with OperationResultUpdatedStatusOnly; cbn; by rewrite Hw).
Qed.

Lemma CreateOrPatch_reported IsNotFound {U S} `{PatchLib} ToU
    (NestedStatus : U → result (option S * bool)) Rm SetS FromU Ueq Seq c fo obj w :
  reported writes_of (CreateOrPatch IsNotFound ToU NestedStatus Rm SetS FromU Ueq Seq
                        (logging_client c) fo obj (w, [])).
Proof.
  unfold CreateOrPatch; cbn; unfold logged, unlogged; cbn.
  repeat case_match; simplify_eq/=; try (by apply reported_intro);
    try (by apply reported_error with OperationResultCreated);
    try (by apply reported_error with OperationResultUpdated);
    apply patch_status_reported; auto.
Qed.

(** The operation [CreateOrUpdate] and [CreateOrPatch] report is the
    write they made, over every client: without an error, the sequence of
    writes that reached the client is exactly the one the reported
    operation names (in particular none when nothing changed, and the
    object before its status when both did); with an error, it is the
    sequence some operation names, so never, say, an update after a
    creation; and when the mutation fails or moves the object, no write was
    made. *)
Theorem create_or_reports_writes IsNotFound DeepEqual c f obj w
    {U S} `{PatchLib} ToU (NestedStatus : U → result (option S * bool)) Rm SetS FromU Ueq Seq fo :
  let key := ObjectKeyFromObject obj in
  let cu := CreateOrUpdate IsNotFound DeepEqual (logging_client c) f obj (w, []) in
  let cp := CreateOrPatch IsNotFound ToU NestedStatus Rm SetS FromU Ueq Seq
              (logging_client c) fo obj (w, []) in
  reported update_writes_of cu
  ∧ reported writes_of cp
  ∧ ((∀ o, (mutate f key o).2 ≠ None) → cu.1.1.2.2 = [])
  ∧ ((∀ o, (mutate_opt fo key o).2 ≠ None) → cp.1.1.2.2 = []).
Proof.
  intros key cu cp. split; [apply CreateOrUpdate_reported|].
  split; [apply CreateOrPatch_reported|]. split; intros Hm.
  - unfold cu, CreateOrUpdate; cbn; unfold logged, unlogged; cbn.
    repeat case_match; simplify_eq/=; try done;
      match goal with Hf : mutate f _ ?o = (_, None) |- _ =>
        exfalso; apply (Hm o); fold key in Hf; by rewrite Hf end.
  - unfold cp, CreateOrPatch; cbn; unfold logged, unlogged; cbn.
    repeat case_match; simplify_eq/=; try done;
      match goal with Hf : mutate_opt fo _ ?o = (_, None) |- _ =>
        exfalso; apply (Hm o); fold key in Hf; by rewrite Hf end.
Qed.
End logging.
