(* ===== verification/Finalizer.v ===== *)
(** * The finalizer registry (src/pkg/finalizer/finalizer.go)

    A registry maps finalizer keys to finalizers, and [Finalize] brings an
    object in line with it: it adds the missing finalizers to an object that is
    not being deleted, and runs those that are present on one that is.  A
    finalizer may change the object it is handed and the world. *)

From S2P Require Export Controllerutil.

Record FinResult := mkFinResult { Updated : bool; StatusUpdated : bool }.

(** The [Finalizer] interface; a result comes with an error too. *)
Definition Finalizer (W : Type) : Type := Object → W → Object * W * FinResult * option error.

Definition finalizers (W : Type) : Type := gmap string (Finalizer W).

Section finalizers.
Context {W : Type}.
(** [fmt.Errorf("... %v", err)] and [kerrors.NewAggregate]. *)
Variable finalizer_failed : string → error → error.
Variable NewAggregate : list error → option error.

Definition NewFinalizers : finalizers W := ∅.

Definition err_registered : error := ErrorString "finalizer for key already registered".

Definition Register (f : finalizers W) (key : string) (finalizer : Finalizer W)
    : finalizers W * option error :=
  match f !! key with
  | Some _ => (f, Some err_registered)
  | None => (<[key := finalizer]> f, None)
  end.

(** What one iteration of the loop in [Finalize] works on. *)
Record finalize_state := mkFin {
  fin_obj : Object; fin_world : W; fin_res : FinResult; fin_errs : list error }.

Definition finalize_step (s : finalize_state) (entry : string * Finalizer W) : finalize_state :=
  let '(key, finalizer) := entry in
  let obj := fin_obj s in
  let res := fin_res s in
  if decide (GetDeletionTimestamp obj = None ∧ ContainsFinalizer obj key = false) then
    mkFin (AddFinalizer obj key) (fin_world s) (mkFinResult true (StatusUpdated res)) (fin_errs s)
  else if decide (GetDeletionTimestamp obj ≠ None ∧ ContainsFinalizer obj key = true) then
    match finalizer obj (fin_world s) with
    | (obj, w, finalizerRes, Some err) =>
        mkFin obj w (mkFinResult (Updated res || Updated finalizerRes)
                       (StatusUpdated res || StatusUpdated finalizerRes))
          (fin_errs s ++ [finalizer_failed key err])
    | (obj, w, finalizerRes, None) =>
        mkFin (RemoveFinalizer obj key) w
          (mkFinResult true (StatusUpdated res || StatusUpdated finalizerRes)) (fin_errs s)
    end
  else s.

Definition Finalize `{!MapRange string (Finalizer W)} (f : finalizers W) (obj : Object) (w : W)
    : Object * W * FinResult * option error :=
  let s := fold_left finalize_step (map_range f) (mkFin obj w (mkFinResult false false) []) in
  (fin_obj s, fin_world s, fin_res s, NewAggregate (fin_errs s)).
End finalizers.

(** ** Registration and finalization *)

Section facts.
Context {W : Type} (finalizer_failed : string → error → error).
Context (NewAggregate : list error → option error).
Context `{!MapRange string (Finalizer W)}.
Implicit Types (o obj : Object) (w : W).

#[local] Abbreviation step := (finalize_step finalizer_failed).

#[local] Arguments finalize_step : simpl never.
Implicit Types (s : finalize_state (W := W)) (k : string) (fin : Finalizer W).

(** The four ways an iteration goes. *)
Lemma step_alive s k fin :
  GetDeletionTimestamp (fin_obj s) = None →
  step s (k, fin) =
    if ContainsFinalizer (fin_obj s) k then s
    else mkFin (AddFinalizer (fin_obj s) k) (fin_world s)
           (mkFinResult true (StatusUpdated (fin_res s))) (fin_errs s).
Proof.
  intros Hdt. unfold finalize_step. destruct (ContainsFinalizer _ k); repeat case_decide; naive_solver.
Qed.

Lemma step_deleted_absent s k fin :
  GetDeletionTimestamp (fin_obj s) ≠ None → ContainsFinalizer (fin_obj s) k = false →
  step s (k, fin) = s.
Proof. intros Hdt Hc. unfold finalize_step. by rewrite !decide_False by (intros [? ?]; congruence). Qed.

Lemma step_deleted_present s k fin :
  GetDeletionTimestamp (fin_obj s) ≠ None → ContainsFinalizer (fin_obj s) k = true →
  step s (k, fin) =
    match fin (fin_obj s) (fin_world s) with
    | (obj, w, r, Some err) =>
        mkFin obj w (mkFinResult (Updated (fin_res s) || Updated r)
                       (StatusUpdated (fin_res s) || StatusUpdated r))
          (fin_errs s ++ [finalizer_failed k err])
    | (obj, w, r, None) =>
        mkFin (RemoveFinalizer obj k) w
          (mkFinResult true (StatusUpdated (fin_res s) || StatusUpdated r)) (fin_errs s)
    end.
Proof.
  intros Hdt Hc. unfold finalize_step.
  rewrite decide_False by (intros [? ?]; congruence). by rewrite decide_True by done.
Qed.

Lemma finalize_alive_loop (es : list (string * Finalizer W)) s :
  GetDeletionTimestamp (fin_obj s) = None → NoDup es.*1 →
  let missing := filter (λ k, ContainsFinalizer (fin_obj s) k = false) es.*1 in
  fold_left step es s =
    mkFin (SetFinalizers (GetFinalizers (fin_obj s) ++ missing) (fin_obj s)) (fin_world s)
      (mkFinResult (Updated (fin_res s) || bool_decide (missing ≠ [])) (StatusUpdated (fin_res s)))
      (fin_errs s).
Proof.
  revert s. induction es as [|[k fin] es IH]; intros s Hdt.
  { intros _. cbn. rewrite app_nil_r, SetFinalizers_id, orb_false_r. by destruct s as [? ? []]. }
  rewrite fmap_cons. intros [Hk Hnd]%list.NoDup_cons. rewrite filter_cons. cbn [fold_left fst].
  rewrite step_alive by done.
  destruct (ContainsFinalizer (fin_obj s) k) eqn:Hc; [by apply IH|].
  rewrite decide_True by done. rewrite IH by (by rewrite ?AddFinalizer_cases, ?Hc). cbn.
  rewrite AddFinalizer_cases, Hc. autorewrite with accessors. cbn.
  assert (Heq : filter (λ k', ContainsFinalizer (SetFinalizers (GetFinalizers (fin_obj s) ++ [k])
             (fin_obj s)) k' = false) es.*1
          = filter (λ k', ContainsFinalizer (fin_obj s) k' = false) es.*1).
  { apply filter_ext_in. intros x Hx. rewrite <- !not_true_iff_false, !ContainsFinalizer_elem.
    autorewrite with accessors. rewrite elem_of_app, list_elem_of_singleton.
    split; [tauto|]. intros Hn [?| ->]; done. }
  rewrite Heq, <- (assoc_L app). f_equal. f_equal. by rewrite orb_true_r.
Qed.

(** On an object that is not being deleted, [Finalize] runs no
    finalizer: it appends the registered keys the object lacks, whatever
    the order the registry is ranged over, keeps the finalizers that were
    there in place, and reports an update exactly when a key was missing;
    a second call then changes nothing and reports so. *)
Theorem Finalize_registers (f : finalizers W) obj w :
  GetDeletionTimestamp obj = None → NewAggregate [] = None →
  ∃ missing,
    (∀ k, k ∈ missing ↔ is_Some (f !! k) ∧ ContainsFinalizer obj k = false) ∧ NoDup missing ∧
    let obj' := SetFinalizers (GetFinalizers obj ++ missing) obj in
    Finalize finalizer_failed NewAggregate f obj w
      = (obj', w, mkFinResult (bool_decide (missing ≠ [])) false, None)
    ∧ Finalize finalizer_failed NewAggregate f obj' w = (obj', w, mkFinResult false false, None).
Proof.
  intros Hdt Hagg. set (missing := filter (λ k, ContainsFinalizer obj k = false) (map_range f).*1).
  assert (Hrun : ∀ o, GetDeletionTimestamp o = None →
    let m := filter (λ k, ContainsFinalizer o k = false) (map_range f).*1 in
    Finalize finalizer_failed NewAggregate f o w
    = (SetFinalizers (GetFinalizers o ++ m) o, w, mkFinResult (bool_decide (m ≠ [])) false, None)).
  { intros o Ho. unfold Finalize. rewrite finalize_alive_loop; [|done|apply NoDup_map_range_keys].
    cbn. by rewrite Hagg. }
  exists missing. split; [|split; [by apply NoDup_filter, NoDup_map_range_keys|]].
  { intros k. unfold missing. rewrite list_elem_of_filter, elem_of_map_range_keys. tauto. }
  cbn. split; [by apply Hrun|]. rewrite Hrun by done.
  assert (filter (λ k, ContainsFinalizer (SetFinalizers (GetFinalizers obj ++ missing) obj) k = false)
            (map_range f).*1 = []) as ->.
  { apply elem_of_nil_inv. intros k [Hc Hk]%list_elem_of_filter.
    assert (¬ k ∈ GetFinalizers obj ++ missing) as Hn.
    { intros Hin. apply not_true_iff_false in Hc. apply Hc. by apply ContainsFinalizer_elem. }
    rewrite elem_of_app in Hn. apply Hn. right. apply list_elem_of_filter. split; [|done].
    apply not_true_iff_false. rewrite ContainsFinalizer_elem. tauto. }
  rewrite app_nil_r. by autorewrite with accessors.
Qed.
End facts.

(** ** Finalization of a deleted object *)

Section deleted.
Context {W : Type} (finalizer_failed : string → error → error).
Context (NewAggregate : list error → option error).

(** A world that notes which finalizers ran, in order, and whether each
    succeeded. *)
Definition run_log : Type := list (string * bool).
Definition recording (key : string) (fin : Finalizer W) : Finalizer (W * run_log) := λ obj wl,
  let '(obj, w, r, err) := fin obj wl.1 in
  (obj, (w, wl.2 ++ [(key, bool_decide (err = None))]), r, err).
Definition recorded (f : finalizers W) : finalizers (W * run_log) :=
  map_imap (λ key fin, Some (recording key fin)) f.

Lemma recording_run key fin obj wl obj' w r err :
  fin obj wl.1 = (obj', w, r, err) →
  recording key fin obj wl = (obj', (w, wl.2 ++ [(key, bool_decide (err = None))]), r, err).
Proof. intros Hf. unfold recording. by rewrite Hf. Qed.

Lemma lookup_recorded (f : finalizers W) key : recorded f !! key = recording key <$> f !! key.
Proof.
  transitivity (f !! key ≫= λ fin, Some (recording key fin)).
  - apply (map_lookup_imap (λ key fin, Some (recording key fin)) f key).
  - by destruct (f !! key).
Qed.

(** A finalizer that leaves the finalizer list and the deletion timestamp of
    the object to the registry. *)
Definition well_behaved (fin : Finalizer W) : Prop := ∀ obj w,
  let obj' := (fin obj w).1.1.1 in
  GetFinalizers obj' = GetFinalizers obj ∧ GetDeletionTimestamp obj' = GetDeletionTimestamp obj.

#[local] Abbreviation step := (finalize_step (W := W * run_log) finalizer_failed).
Implicit Types (s : finalize_state (W := W * run_log)) (k : string).

(** What running the entries [es] from [s] to [s'] adds to the log and does
    to the object. *)
Definition ran (keys : list string) s s' : Prop := ∃ delta,
  (fin_world s').2 = (fin_world s).2 ++ delta
  ∧ delta.*1 = filter (λ k, ContainsFinalizer (fin_obj s) k = true) keys
  ∧ GetFinalizers (fin_obj s') = filter (λ e, (e, true) ∉ delta) (GetFinalizers (fin_obj s))
  ∧ (fin_errs s' = [] ↔ fin_errs s = [] ∧ ∀ k, (k, false) ∉ delta)
  ∧ (delta = [] → s' = s)
  ∧ (Updated (fin_res s) = true ∨ (∃ k, (k, true) ∈ delta) → Updated (fin_res s') = true).

Lemma ran_nil s : ran [] s s.
Proof.
  exists []. repeat split; try set_solver.
  - by rewrite app_nil_r.
  - symmetry. apply filter_all, Forall_true. set_solver.
Qed.

(** One run followed by the rest: the keys that come later are not the one
    that just ran, so they are on the object before it exactly when they are
    after it. *)
Lemma ran_cons k ok keys s s1 s' :
  ContainsFinalizer (fin_obj s) k = true → k ∉ keys →
  (fin_world s1).2 = (fin_world s).2 ++ [(k, ok)] →
  GetFinalizers (fin_obj s1) = filter (λ e, (e, true) ∉ [(k, ok)]) (GetFinalizers (fin_obj s)) →
  (fin_errs s1 = [] ↔ fin_errs s = [] ∧ ok = true) →
  (Updated (fin_res s) = true ∨ ok = true → Updated (fin_res s1) = true) →
  ran keys s1 s' → ran (k :: keys) s s'.
Proof.
  intros Hc Hk Hw Hf He Hu (delta & Hw' & Hd & Hf' & He' & _ & Hu').
  exists ((k, ok) :: delta). rewrite filter_cons_True by done.
  split; [|split; [|split; [|split; [|split]]]].
  - by rewrite Hw', Hw, <- (assoc_L app).
  - cbn. f_equal. rewrite Hd. apply filter_ext_in. intros x Hx.
    rewrite !ContainsFinalizer_elem, Hf, list_elem_of_filter, list_elem_of_singleton.
    split; [tauto|]. intros ?. split; [|done]. intros [= -> _]. done.
  - rewrite Hf', Hf, list_filter_filter. apply filter_ext_in. intros x _.
    rewrite !elem_of_cons, elem_of_nil. tauto.
  - rewrite He', He. split.
    + intros [[? ->] Hn]. split; [done|]. intros k'. rewrite elem_of_cons. intros [?|?]; [done|by eapply Hn].
    + intros [? Hn]. split; [|set_solver]. split; [done|]. destruct ok; [done|]. destruct (Hn k). by left.
  - done.
  - intros [?|[k' [[= -> <-]|?]%elem_of_cons]]; apply Hu'; eauto.
Qed.

Lemma finalize_deleted_loop (es : list (string * Finalizer W)) s :
  GetDeletionTimestamp (fin_obj s) ≠ None → NoDup es.*1 → Forall well_behaved es.*2 →
  ran es.*1 s (fold_left step ((λ e, (e.1, recording e.1 e.2)) <$> es) s).
Proof.
  revert s. induction es as [|[k fin] es IH]; intros s Hdt; [intros; apply ran_nil|].
  rewrite !fmap_cons. intros [Hk Hnd]%NoDup_cons [Hwb Hall]%Forall_cons. cbn [fold_left fst snd] in *.
  destruct (ContainsFinalizer (fin_obj s) k) eqn:Hc.
  - rewrite step_deleted_present by done.
    pose proof (Hwb (fin_obj s) (fin_world s).1) as [Hf Hd].
    cbn in Hf, Hd. destruct (fin (fin_obj s) (fin_world s).1) as [[[o w] r] err] eqn:Hfin.
    cbn in Hf, Hd. rewrite (recording_run _ _ _ _ _ _ _ _ Hfin).
    destruct err as [e|]; (eapply ran_cons; [done|done|..|apply IH; [|done|done]]);
      cbn [fin_obj fin_world fin_res fin_errs fst snd Updated].
    + done.
    + rewrite Hf. symmetry. apply filter_all, Forall_true. intros x. rewrite list_elem_of_singleton. done.
    + split; [|by intros [_ ?]]. intros Hn. by apply app_nil in Hn as [_ ?].
    + intros [-> | ?]; done.
    + by rewrite Hd.
    + done.
    + rewrite RemoveFinalizer_filter. autorewrite with accessors. rewrite Hf.
      apply filter_ext_in. intros x _. rewrite list_elem_of_singleton, bool_decide_true by done.
      split; congruence.
    + split; [done|by intros [? _]].
    + done.
    + rewrite RemoveFinalizer_filter.
      change (GetDeletionTimestamp (SetFinalizers ?f o)) with (GetDeletionTimestamp o). by rewrite Hd.
  - rewrite step_deleted_absent by done. destruct (IH s Hdt Hnd Hall) as (delta & Hran).
    exists delta. by rewrite filter_cons_False by congruence.
Qed.

Lemma map_range_recorded `{!MapRange string (Finalizer (W * run_log))} (f : finalizers W) :
  ∃ es, map_range (recorded f) = (λ e, (e.1, recording e.1 e.2)) <$> es
    ∧ NoDup es.*1 ∧ (∀ k, k ∈ es.*1 ↔ is_Some (f !! k)) ∧ (∀ fin, fin ∈ es.*2 → ∃ k, f !! k = Some fin).
Proof.
  assert (Hes : ∀ l : list (string * Finalizer (W * run_log)),
    (∀ k fin, (k, fin) ∈ l → recorded f !! k = Some fin) →
    ∃ es, l = (λ e, (e.1, recording e.1 e.2)) <$> es ∧ Forall (λ e, f !! e.1 = Some e.2) es).
  { induction l as [|[k fin] l IH]; intros Hl; [by exists []|].
    destruct IH as (es & -> & Hes); [set_solver|].
    pose proof (Hl k fin ltac:(by left)) as Hk.
    rewrite lookup_recorded in Hk. apply fmap_Some in Hk as (fin0 & Hk & ->).
    by exists ((k, fin0) :: es); split; [|constructor]. }
  destruct (Hes (map_range (recorded f))) as (es & Hmr & Hall).
  { intros k fin. apply elem_of_map_range. }
  exists es. split; [done|].
  assert (Hkeys : (map_range (recorded f)).*1 = es.*1).
  { rewrite Hmr, <- list_fmap_compose. by apply list_fmap_ext. }
  split; [rewrite <- Hkeys; apply NoDup_map_range_keys|]. split.
  - intros k. rewrite <- Hkeys, elem_of_map_range_keys. rewrite lookup_recorded.
    apply fmap_is_Some.
  - intros fin ([k fin'] & -> & Hin)%list_elem_of_fmap. exists k.
    rewrite Forall_forall in Hall. by apply (Hall (k, fin')).
Qed.

(** C13: on an object that is being deleted, [Finalize] runs exactly the
    registered finalizers whose key is on the object, each once, whatever
    the order the registry is ranged over.  Afterwards the object has lost
    exactly the keys of those that succeeded, the error is nil exactly when
    none failed (so a nil error means no registered key is left), a success
    is always reported as an update, and when none had to run the object and
    the world are untouched and no update is reported. *)
Theorem Finalize_runs `{!MapRange string (Finalizer (W * run_log))} (f : finalizers W) obj w :
  GetDeletionTimestamp obj ≠ None →
  (∀ k fin, f !! k = Some fin → well_behaved fin) →
  (∀ errs, NewAggregate errs = None ↔ errs = []) →
  ∃ obj' w' log res err,
    Finalize finalizer_failed NewAggregate (recorded f) obj (w, []) = (obj', (w', log), res, err)
    ∧ NoDup log.*1
    ∧ (∀ k, k ∈ log.*1 ↔ is_Some (f !! k) ∧ ContainsFinalizer obj k = true)
    ∧ GetFinalizers obj' = filter (λ e, (e, true) ∉ log) (GetFinalizers obj)
    ∧ (err = None ↔ ∀ k, (k, false) ∉ log)
    ∧ (err = None → ∀ k, is_Some (f !! k) → ContainsFinalizer obj' k = false)
    ∧ ((∃ k, (k, true) ∈ log) → Updated res = true)
    ∧ (log = [] → obj' = obj ∧ w' = w ∧ res = mkFinResult false false).
Proof.
  intros Hdt Hwb Hagg. destruct (map_range_recorded f) as (es & Hmr & Hnd & Hkeys & Hfins).
  unfold Finalize. rewrite Hmr. set (s0 := mkFin (W := W * run_log) obj (w, []) (mkFinResult false false) []).
  destruct (finalize_deleted_loop es s0) as (log & Hw & Hd & Hf & He & Hnone & Hu); [done|done| |].
  { apply Forall_forall. intros fin [k Hk]%Hfins. by eapply Hwb. }
  set (s := fold_left _ _ _) in *. cbn in Hw, Hd, Hf, Hu.
  assert (Hran : ∀ k, k ∈ log.*1 ↔ is_Some (f !! k) ∧ ContainsFinalizer obj k = true).
  { intros k. rewrite Hd, list_elem_of_filter, Hkeys. tauto. }
  assert (Herr : NewAggregate (fin_errs s) = None ↔ ∀ k, (k, false) ∉ log).
  { rewrite Hagg, He. split; [by intros [_ ?]|]. done. }
  exists (fin_obj s), (fin_world s).1, log, (fin_res s), (NewAggregate (fin_errs s)).
  split; [by rewrite <- Hw, <- surjective_pairing|].
  split; [rewrite Hd; by apply NoDup_filter|]. split; [done|]. split; [done|]. split; [done|].
  split; [|split; [auto|intros ->; by rewrite Hnone]].
  rewrite Herr. intros Hno k Hk. apply not_true_iff_false. rewrite ContainsFinalizer_elem, Hf.
  intros [Hn Hin%ContainsFinalizer_elem]%list_elem_of_filter.
  assert (k ∈ log.*1) as ([k' ok] & -> & Hin')%list_elem_of_fmap by by apply Hran.
  destruct ok; [done|by eapply Hno].
Qed.
End deleted.
