(* ===== verification/Predicates.v ===== *)
(** * Events and predicates (src/pkg/event/event.go, src/pkg/predicate/predicate.go)

    An object of an event is [None] when the interface value is nil.  A
    predicate is user code: it returns a boolean or panics, as reading a field
    of a nil object does.  What the predicates log is left out. *)

From S2P Require Export Objects Options.

(** ** Events *)

Record CreateEvent := mkCreateEvent { ce_Object : option Object }.
Record UpdateEvent := mkUpdateEvent { ue_ObjectOld : option Object; ue_ObjectNew : option Object }.
Record DeleteEvent := mkDeleteEvent { de_Object : option Object; de_DeleteStateUnknown : bool }.
Record GenericEvent := mkGenericEvent { ge_Object : option Object }.

(** ** Predicates *)

(** The [Predicate] interface. *)
Record Predicate := mkPredicate {
  p_Create : CreateEvent → outcome bool;
  p_Delete : DeleteEvent → outcome bool;
  p_Update : UpdateEvent → outcome bool;
  p_Generic : GenericEvent → outcome bool;
}.

(** [Funcs]: a field is [None] when the function is nil. *)
Record Funcs := mkFuncs {
  CreateFunc : option (CreateEvent → outcome bool);
  DeleteFunc : option (DeleteEvent → outcome bool);
  UpdateFunc : option (UpdateEvent → outcome bool);
  GenericFunc : option (GenericEvent → outcome bool);
}.

Definition Funcs_Create (p : Funcs) (e : CreateEvent) : outcome bool :=
  match CreateFunc p with Some f => f e | None => Returned true end.
Definition Funcs_Delete (p : Funcs) (e : DeleteEvent) : outcome bool :=
  match DeleteFunc p with Some f => f e | None => Returned true end.
Definition Funcs_Update (p : Funcs) (e : UpdateEvent) : outcome bool :=
  match UpdateFunc p with Some f => f e | None => Returned true end.
Definition Funcs_Generic (p : Funcs) (e : GenericEvent) : outcome bool :=
  match GenericFunc p with Some f => f e | None => Returned true end.

Definition Funcs_Predicate (p : Funcs) : Predicate :=
  mkPredicate (Funcs_Create p) (Funcs_Delete p) (Funcs_Update p) (Funcs_Generic p).

Definition NewPredicateFuncs (filter : option Object → outcome bool) : Funcs := {|
  CreateFunc := Some (λ e, filter (ce_Object e));
  UpdateFunc := Some (λ e, filter (ue_ObjectNew e));
  DeleteFunc := Some (λ e, filter (de_Object e));
  GenericFunc := Some (λ e, filter (ge_Object e));
|}.

Definition zero_Funcs : Funcs := mkFuncs None None None None.

(** The four predicates that look at what an update changed: [Update] is
    their own, the rest is that of the embedded [Funcs]. *)
Definition ResourceVersionChangedPredicate_Update (e : UpdateEvent) : outcome bool :=
  match ue_ObjectOld e with
  | None => Returned false
  | Some old =>
      match ue_ObjectNew e with
      | None => Returned false
      | Some new => Returned (negb (bool_decide (GetResourceVersion new = GetResourceVersion old)))
      end
  end.

Definition GenerationChangedPredicate_Update (e : UpdateEvent) : outcome bool :=
  match ue_ObjectOld e with
  | None => Returned false
  | Some old =>
      match ue_ObjectNew e with
      | None => Returned false
      | Some new => Returned (negb (bool_decide (GetGeneration new = GetGeneration old)))
      end
  end.

(** [reflect.DeepEqual] on two string maps, a nil map being different from an
    empty one. *)
Definition reflect_DeepEqual_map (a b : option (gmap string string)) : bool := bool_decide (a = b).

Definition AnnotationChangedPredicate_Update (e : UpdateEvent) : outcome bool :=
  match ue_ObjectOld e with
  | None => Returned false
  | Some old =>
      match ue_ObjectNew e with
      | None => Returned false
      | Some new => Returned (negb (reflect_DeepEqual_map (GetAnnotations new) (GetAnnotations old)))
      end
  end.

Definition LabelChangedPredicate_Update (e : UpdateEvent) : outcome bool :=
  match ue_ObjectOld e with
  | None => Returned false
  | Some old =>
      match ue_ObjectNew e with
      | None => Returned false
      | Some new => Returned (negb (reflect_DeepEqual_map (GetLabels new) (GetLabels old)))
      end
  end.

(** Embedding [Funcs] and overriding [Update]. *)
Definition overriding_Update (f : Funcs) (upd : UpdateEvent → outcome bool) : Predicate :=
  mkPredicate (Funcs_Create f) (Funcs_Delete f) upd (Funcs_Generic f).

Definition ResourceVersionChangedPredicate (f : Funcs) : Predicate :=
  overriding_Update f ResourceVersionChangedPredicate_Update.
Definition GenerationChangedPredicate (f : Funcs) : Predicate :=
  overriding_Update f GenerationChangedPredicate_Update.
Definition AnnotationChangedPredicate (f : Funcs) : Predicate :=
  overriding_Update f AnnotationChangedPredicate_Update.
Definition LabelChangedPredicate (f : Funcs) : Predicate :=
  overriding_Update f LabelChangedPredicate_Update.

(** The loop of the methods of [and]: stop at the first predicate that says
    no. *)
Fixpoint all_pass {E} (method : Predicate → E → outcome bool) (predicates : list Predicate) (e : E)
    : outcome bool :=
  match predicates with
  | [] => Returned true
  | p :: ps => b ← method p e; if (b : bool) then all_pass method ps e else Returned false
  end.

Definition And (predicates : list Predicate) : Predicate := {|
  p_Create := all_pass p_Create predicates;
  p_Update := all_pass p_Update predicates;
  p_Delete := all_pass p_Delete predicates;
  p_Generic := all_pass p_Generic predicates;
|}.

(** The loop of the methods of [or]. *)
Fixpoint any_pass {E} (method : Predicate → E → outcome bool) (predicates : list Predicate) (e : E)
    : outcome bool :=
  match predicates with
  | [] => Returned false
  | p :: ps => b ← method p e; if (b : bool) then Returned true else any_pass method ps e
  end.

Definition Or (predicates : list Predicate) : Predicate := {|
  p_Create := any_pass p_Create predicates;
  p_Update := any_pass p_Update predicates;
  p_Delete := any_pass p_Delete predicates;
  p_Generic := any_pass p_Generic predicates;
|}.

(** A panic of a method call on a nil interface value. *)
Definition nil_dereference : string := "invalid memory address or nil pointer dereference".

(** [metav1.LabelSelectorAsSelector] of the selector, given by its result. *)
Definition LabelSelectorPredicate (selector : result Selector) : Predicate * option error :=
  match selector with
  | Err err => (Funcs_Predicate zero_Funcs, Some err)
  | Ok selector =>
      (Funcs_Predicate (NewPredicateFuncs (λ o,
         match o with
         | None => Panicked nil_dereference
         | Some o => Returned (sel_Matches selector (GetLabels o))
         end)), None)
  end.

(** ** Combining predicates *)

(** The four kinds of event in one type, and a predicate's answer to it. *)
Inductive Event :=
  | EvCreate (e : CreateEvent)
  | EvUpdate (e : UpdateEvent)
  | EvDelete (e : DeleteEvent)
  | EvGeneric (e : GenericEvent).

Definition passes (p : Predicate) (ev : Event) : outcome bool :=
  match ev with
  | EvCreate e => p_Create p e
  | EvUpdate e => p_Update p e
  | EvDelete e => p_Delete p e
  | EvGeneric e => p_Generic p e
  end.

(** The opposite predicate; a panic stays one. *)
Definition outcome_negb (r : outcome bool) : outcome bool := b ← r; Returned (negb b).
Definition Not (p : Predicate) : Predicate :=
  mkPredicate (outcome_negb ∘ p_Create p) (outcome_negb ∘ p_Delete p)
    (outcome_negb ∘ p_Update p) (outcome_negb ∘ p_Generic p).

Section combine.
Implicit Types (p : Predicate) (ps : list Predicate) (ev : Event).

Lemma passes_And ps ev :
  passes (And ps) ev = match ps with
                       | [] => Returned true
                       | p :: ps => b ← passes p ev; if (b : bool) then passes (And ps) ev else Returned false
                       end.
Proof. by destruct ps, ev. Qed.
Lemma passes_Or ps ev :
  passes (Or ps) ev = match ps with
                      | [] => Returned false
                      | p :: ps => b ← passes p ev; if (b : bool) then Returned true else passes (Or ps) ev
                      end.
Proof. by destruct ps, ev. Qed.
Lemma passes_Not p ev : passes (Not p) ev = outcome_negb (passes p ev).
Proof. by destruct ev. Qed.

Lemma Or_Not ps ev : passes (Or ps) ev = outcome_negb (passes (And (Not <$> ps)) ev).
Proof.
  induction ps as [|p ps IH]; rewrite passes_Or, passes_And; [done|]. cbn.
  rewrite passes_Not. destruct (passes p ev) as [[]|m]; cbn; done || exact IH.
Qed.

(** The first predicate that does not say [b] decides. *)
Definition decided_by (b : bool) ps ev (r : outcome bool) : Prop := ∃ l1 p l2,
  ps = l1 ++ p :: l2 ∧ Forall (λ q, passes q ev = Returned b) l1 ∧ passes p ev = r.

Lemma decided_by_cons b p ps ev r :
  passes p ev = Returned b → decided_by b ps ev r → decided_by b (p :: ps) ev r.
Proof. intros Hp (l1 & q & l2 & -> & Hl1 & Hq). exists (p :: l1), q, l2. repeat constructor; done. Qed.

Lemma And_cases ps ev :
  (Forall (λ p, passes p ev = Returned true) ps ∧ passes (And ps) ev = Returned true)
  ∨ (passes (And ps) ev ≠ Returned true ∧ decided_by true ps ev (passes (And ps) ev)).
Proof.
  induction ps as [|p ps IH]; rewrite passes_And; [by left|].
  destruct (passes p ev) as [[]|m] eqn:Hp; cbn.
  - destruct IH as [[Hall Heq]|[Hne Hdec]]; [left|right]; [by repeat constructor|].
    split; [done|by apply decided_by_cons].
  - right. split; [done|]. by exists [], p, ps.
  - right. split; [done|]. by exists [], p, ps.
Qed.

Lemma And_app ps qs ev :
  passes (And (ps ++ qs)) ev = passes (And [And ps; And qs]) ev.
Proof.
  induction ps as [|p ps IH]; cbn [app].
  - rewrite (passes_And [And []; And qs]), (passes_And [And qs]), (passes_And []). cbn.
    destruct (passes (And qs) ev) as [[]|]; done.
  - rewrite passes_And, IH, (passes_And [And ps; And qs]), (passes_And [And (p :: ps); And qs]).
    rewrite (passes_And (p :: ps)). by destruct (passes p ev) as [[]|].
Qed.

(** [And] lets an event through exactly when every predicate does; when
    it does not, its answer (a refusal or a panic) is that of the first
    predicate that does not let the event through, so later predicates are
    not asked.  [Or] is the dual: it gives the opposite of the conjunction
    of the opposites, on every outcome.  Conjunctions may be nested or
    flattened at will. *)
Theorem predicates_combine ps qs ev :
  (passes (And ps) ev = Returned true ↔ Forall (λ p, passes p ev = Returned true) ps)
  ∧ (∀ r, r ≠ Returned true → passes (And ps) ev = r ↔ decided_by true ps ev r)
  ∧ passes (Or ps) ev = outcome_negb (passes (And (Not <$> ps)) ev)
  ∧ passes (And (ps ++ qs)) ev = passes (And [And ps; And qs]) ev.
Proof.
  assert (Hconfl : ∀ r, r ≠ Returned true → decided_by true ps ev r →
    ¬ Forall (λ p, passes p ev = Returned true) ps).
  { intros r Hr (l1 & p & l2 & -> & _ & Hp) [_ [? _]%Forall_cons]%Forall_app. congruence. }
  split; [|split; [|split; [apply Or_Not|apply And_app]]].
  - destruct (And_cases ps ev) as [[? ?]|[? Hd]]; [done|]. split; [done|].
    intros Hall. by destruct (Hconfl _ ltac:(done) Hd).
  - intros r Hr. destruct (And_cases ps ev) as [[? Ht]|[? Hd]].
    + split; [congruence|]. intros Hd. by destruct (Hconfl _ Hr Hd).
    + split; [by intros <-|]. intros (l1' & p' & l2' & Heq' & Hl1' & Hp').
      destruct Hd as (l1 & p & l2 & Heq & Hl1 & Hp).
      assert (p = p') as <-; [|congruence].
      eapply (first_failing (λ q, passes q ev = Returned true) l1 l1' p p' l2 l2'); [by rewrite <- Heq|done|done|congruence..].
Qed.
End combine.

(** ** The predicates of the package *)

(** The predicate that lets an update through when one of three parts of the
    object changed, built the way a controller would. *)
Definition SpecOrMetadataChanged : Predicate :=
  Or [GenerationChangedPredicate zero_Funcs; AnnotationChangedPredicate zero_Funcs;
      LabelChangedPredicate zero_Funcs].

(** The predicates of the package read an event as documented.  The
    disjunction of the generation, annotation and label predicates lets an
    update through exactly when one of the three changed between the old and
    the new object (a nil map and an empty one count as different), refuses an
    update that lacks one of its objects, and lets every other event through;
    a resource version predicate differs only in the field.  A label selector
    predicate judges an update by its new object alone, so that an object
    whose labels stop matching is let through no more, whatever its old
    labels were. *)
Theorem builtin_predicates_spec (old new : Object) (s : Selector) ev :
  (passes SpecOrMetadataChanged (EvUpdate (mkUpdateEvent (Some old) (Some new))) = Returned true ↔
     GetGeneration new ≠ GetGeneration old ∨ GetAnnotations new ≠ GetAnnotations old
     ∨ GetLabels new ≠ GetLabels old)
  ∧ (passes (ResourceVersionChangedPredicate zero_Funcs)
       (EvUpdate (mkUpdateEvent (Some old) (Some new))) = Returned true ↔
     GetResourceVersion new ≠ GetResourceVersion old)
  ∧ ((∃ e, ev = EvUpdate e ∧ (ue_ObjectOld e = None ∨ ue_ObjectNew e = None)) →
     passes SpecOrMetadataChanged ev = Returned false
     ∧ passes (ResourceVersionChangedPredicate zero_Funcs) ev = Returned false)
  ∧ ((∀ e, ev ≠ EvUpdate e) →
     passes SpecOrMetadataChanged ev = Returned true
     ∧ passes (ResourceVersionChangedPredicate zero_Funcs) ev = Returned true)
  ∧ (∀ o, passes (LabelSelectorPredicate (Ok s)).1 (EvUpdate (mkUpdateEvent o (Some new)))
          = passes (LabelSelectorPredicate (Ok s)).1 (EvCreate (mkCreateEvent (Some new)))).
Proof.
  split; [|split; [|split; [|split]]].
  - cbn. unfold reflect_DeepEqual_map.
    do 3 (case_bool_decide; cbn; [|split; [tauto|done]]). split; [done|tauto].
  - cbn. case_bool_decide; cbn; split; congruence.
  - intros (e & -> & He). cbn.
    unfold GenerationChangedPredicate_Update, AnnotationChangedPredicate_Update,
      LabelChangedPredicate_Update, ResourceVersionChangedPredicate_Update.
    destruct (ue_ObjectOld e), (ue_ObjectNew e); naive_solver.
  - intros Hno. destruct ev as [e|e|e|e]; try done. by destruct (Hno e).
  - done.
Qed.
