(* ===== verification/Handlers.v ===== *)
(** * Event handlers and the informer adapter

    The handlers of src/pkg/handler, which turn an event into requests on the
    work queue, and the adapter of src/pkg/source/internal/eventsource.go,
    which turns what an informer reports into events, filters them and calls a
    handler.  The work queue itself ([k8s.io/client-go/util/workqueue]) is the
    class [WorkQueue]. *)

From S2P Require Export Predicates.

(** What a work queue holds is an [interface{}]: a request, or anything else
    user code put there. *)
Inductive QueueItem := ItemRequest (r : Request) | ItemOther (description : string).

#[export] Instance QueueItem_eq_dec : EqDecision QueueItem.
Proof. solve_decision. Defined.
#[export] Instance QueueItem_countable : Countable QueueItem.
Proof.
  refine (inj_countable' (λ i, match i with ItemRequest r => inl r | ItemOther d => inr d end)
            (λ s, match s with inl r => ItemRequest r | inr d => ItemOther d end) _).
  by intros [].
Defined.

(** [workqueue.RateLimitingInterface]: the calls that change the queue.
    [q_Get] is what a call of [Get] that does not block returns and leaves. *)
Class WorkQueue (Q : Type) := {
  q_Add : Request → Q → Q;
  q_AddAfter : Request → Z → Q → Q;
  q_AddRateLimited : Request → Q → Q;
  q_Forget : QueueItem → Q → Q;
  q_Done : QueueItem → Q → Q;
  q_ShutDown : Q → Q;
  q_Get : Q → option (option QueueItem * Q);
}.

(** Adding a list of requests, in order. *)
Definition add_all `{WorkQueue Q} (reqs : list Request) (q : Q) : Q :=
  fold_left (λ q r, q_Add r q) reqs q.

(** The [EventHandler] interface; a handler is user code and may panic. *)
Record EventHandler (Q : Type) := mkEventHandler {
  h_Create : CreateEvent → Q → outcome Q;
  h_Update : UpdateEvent → Q → outcome Q;
  h_Delete : DeleteEvent → Q → outcome Q;
  h_Generic : GenericEvent → Q → outcome Q;
}.
Arguments mkEventHandler {Q} _ _ _ _.
Arguments h_Create {Q} _ _ _.
Arguments h_Update {Q} _ _ _.
Arguments h_Delete {Q} _ _ _.
Arguments h_Generic {Q} _ _ _.

(** ** [handler.Funcs] (eventhandler.go) *)

Section funcs.
Context {Q : Type}.

Record HandlerFuncs := mkHandlerFuncs {
  hf_CreateFunc : option (CreateEvent → Q → outcome Q);
  hf_UpdateFunc : option (UpdateEvent → Q → outcome Q);
  hf_DeleteFunc : option (DeleteEvent → Q → outcome Q);
  hf_GenericFunc : option (GenericEvent → Q → outcome Q);
}.

Definition HandlerFuncs_Create (h : HandlerFuncs) (e : CreateEvent) (q : Q) : outcome Q :=
  match hf_CreateFunc h with Some f => f e q | None => Returned q end.
Definition HandlerFuncs_Delete (h : HandlerFuncs) (e : DeleteEvent) (q : Q) : outcome Q :=
  match hf_DeleteFunc h with Some f => f e q | None => Returned q end.
Definition HandlerFuncs_Update (h : HandlerFuncs) (e : UpdateEvent) (q : Q) : outcome Q :=
  match hf_UpdateFunc h with Some f => f e q | None => Returned q end.
Definition HandlerFuncs_Generic (h : HandlerFuncs) (e : GenericEvent) (q : Q) : outcome Q :=
  match hf_GenericFunc h with Some f => f e q | None => Returned q end.

Definition HandlerFuncs_EventHandler (h : HandlerFuncs) : EventHandler Q :=
  mkEventHandler (HandlerFuncs_Create h) (HandlerFuncs_Update h) (HandlerFuncs_Delete h)
    (HandlerFuncs_Generic h).
End funcs.
Arguments HandlerFuncs : clear implicits.

(** ** [EnqueueRequestForObject] (enqueue.go) *)

Section enqueue_object.
Context `{WorkQueue Q}.

(** [reconcile.Request] of an object. *)
Definition request_for (o : Object) : Request := mkNN (GetNamespace o) (GetName o).

Definition EnqueueRequestForObject_Create (evt : CreateEvent) (q : Q) : outcome Q :=
  match ce_Object evt with
  | None => Returned q
  | Some o => Returned (q_Add (request_for o) q)
  end.
Definition EnqueueRequestForObject_Update (evt : UpdateEvent) (q : Q) : outcome Q :=
  match ue_ObjectNew evt, ue_ObjectOld evt with
  | Some o, _ => Returned (q_Add (request_for o) q)
  | None, Some o => Returned (q_Add (request_for o) q)
  | None, None => Returned q
  end.
Definition EnqueueRequestForObject_Delete (evt : DeleteEvent) (q : Q) : outcome Q :=
  match de_Object evt with
  | None => Returned q
  | Some o => Returned (q_Add (request_for o) q)
  end.
Definition EnqueueRequestForObject_Generic (evt : GenericEvent) (q : Q) : outcome Q :=
  match ge_Object evt with
  | None => Returned q
  | Some o => Returned (q_Add (request_for o) q)
  end.

Definition EnqueueRequestForObject : EventHandler Q :=
  mkEventHandler EnqueueRequestForObject_Create EnqueueRequestForObject_Update
    EnqueueRequestForObject_Delete EnqueueRequestForObject_Generic.
End enqueue_object.

(** ** [EnqueueRequestForOwner] (enqueue_owner.go) *)

Section enqueue_owner.
Context `{MetaV1} `{WorkQueue Q} `{!MapRange Request ()}.

(** The handler after injection; [eo_mapper] is what [InjectMapper] set. *)
Record EnqueueRequestForOwner := mkEnqueueOwner {
  eo_OwnerType : GoType * GVK;
  eo_IsController : bool;
  eo_groupKind : GroupKind;
  eo_mapper : option RESTMapper;
}.

Definition err_kinds : error := ErrorString "expected exactly 1 kind for OwnerType".

Definition parseOwnerTypeGroupKind (e : EnqueueRequestForOwner) (scheme : Scheme)
    : EnqueueRequestForOwner * option error :=
  match sch_ObjectKinds scheme (eo_OwnerType e).1 (eo_OwnerType e).2 with
  | Err err => (e, Some err)
  | Ok (kinds, _) =>
      match kinds with
      | [k] => (mkEnqueueOwner (eo_OwnerType e) (eo_IsController e) (mkGK (gvk_Group k) (gvk_Kind k))
                  (eo_mapper e), None)
      | _ => (e, Some err_kinds)
      end
  end.

Definition InjectScheme (e : EnqueueRequestForOwner) (s : Scheme) := parseOwnerTypeGroupKind e s.

Definition InjectMapper (e : EnqueueRequestForOwner) (m : RESTMapper)
    : EnqueueRequestForOwner * option error :=
  (mkEnqueueOwner (eo_OwnerType e) (eo_IsController e) (eo_groupKind e) (Some m), None).

Definition getOwnersReferences (e : EnqueueRequestForOwner) (object : option Object)
    : list OwnerReference :=
  match object with
  | None => []
  | Some object =>
      if negb (eo_IsController e) then GetOwnerReferences object
      else match GetControllerOf object with
      | Some ownerRef => [ownerRef]
      | None => []
      end
  end.

(** The loop over the references; it stops at the first reference that does
    not parse or whose kind has no mapping, keeping what it has. *)
Fixpoint owner_requests (e : EnqueueRequestForOwner) (ns : string) (refs : list OwnerReference)
    (result : gmap Request ()) : outcome (gmap Request ()) :=
  match refs with
  | [] => Returned result
  | ref :: refs =>
      match ParseGroupVersion (or_APIVersion ref) with
      | Err _ => Returned result
      | Ok refGV =>
          if bool_decide (or_Kind ref = gk_Kind (eo_groupKind e)) &&
             bool_decide (gv_Group refGV = gk_Group (eo_groupKind e)) then
            match eo_mapper e with
            | None => Panicked nil_dereference
            | Some mapper =>
                match rm_RESTMapping mapper (eo_groupKind e) [gv_Version refGV] with
                | Err _ => Returned result
                | Ok scope =>
                    let request := mkNN (if decide (scope ≠ ScopeRoot) then ns else "") (or_Name ref) in
                    owner_requests e ns refs (<[request := ()]> result)
                end
            end
          else owner_requests e ns refs result
      end
  end.

(** A nil object has no references, so its namespace is not read. *)
Definition getOwnerReconcileRequest (e : EnqueueRequestForOwner) (object : option Object)
    (result : gmap Request ()) : outcome (gmap Request ()) :=
  owner_requests e (default "" (GetNamespace <$> object)) (getOwnersReferences e object) result.

(** [for req := range reqs { q.Add(req) }]. *)
Definition enqueue_requests (reqs : gmap Request ()) (q : Q) : Q := add_all (map_range reqs).*1 q.

Definition EnqueueRequestForOwner_Create (e : EnqueueRequestForOwner) (evt : CreateEvent) (q : Q)
    : outcome Q :=
  reqs ← getOwnerReconcileRequest e (ce_Object evt) ∅;
  Returned (enqueue_requests reqs q).
Definition EnqueueRequestForOwner_Update (e : EnqueueRequestForOwner) (evt : UpdateEvent) (q : Q)
    : outcome Q :=
  reqs ← getOwnerReconcileRequest e (ue_ObjectOld evt) ∅;
  reqs ← getOwnerReconcileRequest e (ue_ObjectNew evt) reqs;
  Returned (enqueue_requests reqs q).
Definition EnqueueRequestForOwner_Delete (e : EnqueueRequestForOwner) (evt : DeleteEvent) (q : Q)
    : outcome Q :=
  reqs ← getOwnerReconcileRequest e (de_Object evt) ∅;
  Returned (enqueue_requests reqs q).
Definition EnqueueRequestForOwner_Generic (e : EnqueueRequestForOwner) (evt : GenericEvent) (q : Q)
    : outcome Q :=
  reqs ← getOwnerReconcileRequest e (ge_Object evt) ∅;
  Returned (enqueue_requests reqs q).

Definition EnqueueRequestForOwner_EventHandler (e : EnqueueRequestForOwner) : EventHandler Q :=
  mkEventHandler (EnqueueRequestForOwner_Create e) (EnqueueRequestForOwner_Update e)
    (EnqueueRequestForOwner_Delete e) (EnqueueRequestForOwner_Generic e).
End enqueue_owner.

(** ** [EnqueueRequestsFromMapFunc] (enqueue_mapped.go) *)

Section enqueue_mapped.
Context `{WorkQueue Q}.

Definition MapFunc : Type := option Object → outcome (list Request).

(** The loop of [mapAndEnqueue]; [reqs] is the set of requests added so far. *)
Fixpoint enqueue_new (l : list Request) (reqs : gset Request) (q : Q) : gset Request * Q :=
  match l with
  | [] => (reqs, q)
  | req :: l =>
      if decide (req ∈ reqs) then enqueue_new l reqs q
      else enqueue_new l (reqs ∪ {[req]}) (q_Add req q)
  end.

Definition mapAndEnqueue (toRequests : MapFunc) (q : Q) (object : option Object) (reqs : gset Request)
    : outcome (gset Request * Q) :=
  l ← toRequests object; Returned (enqueue_new l reqs q).

Definition enqueueRequestsFromMapFunc_Create (f : MapFunc) (evt : CreateEvent) (q : Q) : outcome Q :=
  '(_, q) ← mapAndEnqueue f q (ce_Object evt) ∅; Returned q.
Definition enqueueRequestsFromMapFunc_Update (f : MapFunc) (evt : UpdateEvent) (q : Q) : outcome Q :=
  '(reqs, q) ← mapAndEnqueue f q (ue_ObjectOld evt) ∅;
  '(_, q) ← mapAndEnqueue f q (ue_ObjectNew evt) reqs; Returned q.
Definition enqueueRequestsFromMapFunc_Delete (f : MapFunc) (evt : DeleteEvent) (q : Q) : outcome Q :=
  '(_, q) ← mapAndEnqueue f q (de_Object evt) ∅; Returned q.
Definition enqueueRequestsFromMapFunc_Generic (f : MapFunc) (evt : GenericEvent) (q : Q) : outcome Q :=
  '(_, q) ← mapAndEnqueue f q (ge_Object evt) ∅; Returned q.

(** [InjectFunc]: the function is handed the mapping, unless it is nil. *)
Definition enqueueRequestsFromMapFunc_InjectFunc {W : Type} (toRequests : MapFunc)
    (f : option (MapFunc → W → W * option error)) (w : W) : W * option error :=
  match f with None => (w, None) | Some f => f toRequests w end.

Definition EnqueueRequestsFromMapFunc (fn : MapFunc) : EventHandler Q :=
  mkEventHandler (enqueueRequestsFromMapFunc_Create fn) (enqueueRequestsFromMapFunc_Update fn)
    (enqueueRequestsFromMapFunc_Delete fn) (enqueueRequestsFromMapFunc_Generic fn).
End enqueue_mapped.

(** ** The informer adapter (source/internal/eventsource.go) *)

(** A value of type [interface{}] an informer hands over: an object, a
    [cache.DeletedFinalStateUnknown], or anything else. *)
Inductive InformerValue :=
  | AnObject (o : Object)
  | DeletedFinalStateUnknown (key : string) (obj : InformerValue)
  | OtherValue.

Section event_source.
Context {Q : Type}.

Record SourceEventHandler := mkSourceHandler {
  se_EventHandler : EventHandler Q;
  se_Predicates : list Predicate;
}.

(** [for _, p := range e.Predicates { if !p.M(ev) { return } }], then the
    handler. *)
Definition filtered {E} (method : Predicate → E → outcome bool) (predicates : list Predicate)
    (ev : E) (deliver : Q → outcome Q) (q : Q) : outcome Q :=
  b ← all_pass method predicates ev;
  if (b : bool) then deliver q else Returned q.

Definition OnAdd (e : SourceEventHandler) (obj : InformerValue) (q : Q) : outcome Q :=
  match obj with
  | AnObject o =>
      let c := mkCreateEvent (Some o) in
      filtered p_Create (se_Predicates e) c (h_Create (se_EventHandler e) c) q
  | _ => Returned q
  end.

Definition OnUpdate (e : SourceEventHandler) (oldObj newObj : InformerValue) (q : Q) : outcome Q :=
  match oldObj with
  | AnObject old =>
      match newObj with
      | AnObject new =>
          let u := mkUpdateEvent (Some old) (Some new) in
          filtered p_Update (se_Predicates e) u (h_Update (se_EventHandler e) u) q
      | _ => Returned q
      end
  | _ => Returned q
  end.

Definition OnDelete (e : SourceEventHandler) (obj : InformerValue) (q : Q) : outcome Q :=
  match (match obj with
         | AnObject _ => Some obj
         | DeletedFinalStateUnknown _ inner => Some inner
         | OtherValue => None
         end) with
  | None => Returned q
  | Some obj =>
      match obj with
      | AnObject o =>
          let d := mkDeleteEvent (Some o) false in
          filtered p_Delete (se_Predicates e) d (h_Delete (se_EventHandler e) d) q
      | _ => Returned q
      end
  end.
End event_source.
Arguments SourceEventHandler : clear implicits.

(** ** What handlers put on the queue *)

Section handler_facts.
Context `{WorkQueue Q}.
Implicit Types (q : Q) (ev : Event) (reqs : list Request).

Definition handle (h : EventHandler Q) ev q : outcome Q :=
  match ev with
  | EvCreate e => h_Create h e q
  | EvUpdate e => h_Update h e q
  | EvDelete e => h_Delete h e q
  | EvGeneric e => h_Generic h e q
  end.

(** The objects of an event, the old one of an update first. *)
Definition event_objects ev : list (option Object) :=
  match ev with
  | EvCreate e => [ce_Object e]
  | EvUpdate e => [ue_ObjectOld e; ue_ObjectNew e]
  | EvDelete e => [de_Object e]
  | EvGeneric e => [ge_Object e]
  end.

Lemma add_all_app l1 l2 q : add_all (l1 ++ l2) q = add_all l2 (add_all l1 q).
Proof. apply fold_left_app. Qed.

(** *** Requests for owners *)

Context `{MetaV1} `{!MapRange Request ()}.
Implicit Types (e : EnqueueRequestForOwner) (m : RESTMapper) (o : option Object).

(** The reference names an owner of the handler's group and kind. *)
Definition ref_matches e (ref : OwnerReference) (gv : GroupVersion) : Prop :=
  ParseGroupVersion (or_APIVersion ref) = Ok gv
  ∧ or_Kind ref = gk_Kind (eo_groupKind e) ∧ gv_Group gv = gk_Group (eo_groupKind e).

(** The reference can be read: its group and version parse, and if it names an
    owner of the handler's kind the mapper has a mapping for it. *)
Definition ref_readable e m (ref : OwnerReference) : Prop := ∃ gv,
  ParseGroupVersion (or_APIVersion ref) = Ok gv
  ∧ (ref_matches e ref gv → is_ok (rm_RESTMapping m (eo_groupKind e) [gv_Version gv]) = true).

(** The request for a matching reference that no unreadable one precedes. *)
Definition owner_request e m (ns : string) (refs : list OwnerReference) (r : Request) : Prop :=
  ∃ before ref after gv scope, refs = before ++ ref :: after ∧ Forall (ref_readable e m) before
    ∧ ref_matches e ref gv ∧ rm_RESTMapping m (eo_groupKind e) [gv_Version gv] = Ok scope
    ∧ r = mkNN (if decide (scope ≠ ScopeRoot) then ns else "") (or_Name ref).

Lemma owner_request_cons e m ns ref refs r :
  owner_request e m ns (ref :: refs) r ↔
  (∃ gv scope, ref_matches e ref gv ∧ rm_RESTMapping m (eo_groupKind e) [gv_Version gv] = Ok scope
     ∧ r = mkNN (if decide (scope ≠ ScopeRoot) then ns else "") (or_Name ref))
  ∨ ref_readable e m ref ∧ owner_request e m ns refs r.
Proof.
  split.
  - intros ([|x before] & ref' & after & gv & scope & Heq & Hb & Hrest); injection Heq as -> ->.
    + left. by exists gv, scope.
    + right. apply Forall_cons in Hb as [Hx Hb]. split; [done|]. by exists before, ref', after, gv, scope.
  - intros [(gv & scope & Hrest)|[Hx (before & ref' & after & gv & scope & -> & Hb & Hrest)]].
    + exists [], ref, refs, gv, scope. split; [done|]. by split.
    + exists (ref :: before), ref', after, gv, scope. split; [done|]. split; [by constructor|done].
Qed.

Lemma owner_requests_spec e m ns refs (result : gmap Request ()) :
  eo_mapper e = Some m →
  ∃ result', owner_requests e ns refs result = Returned result'
    ∧ ∀ r, is_Some (result' !! r) ↔ is_Some (result !! r) ∨ owner_request e m ns refs r.
Proof.
  intros Hm. revert result. induction refs as [|ref refs IH]; intros result; cbn.
  { exists result. split; [done|]. intros r. split; [tauto|].
    intros [?|([] & ? & ? & ? & ? & ? & _)]; done. }
  setoid_rewrite owner_request_cons. unfold ref_readable, ref_matches.
  destruct (ParseGroupVersion _) as [gv|err] eqn:Hgv; [|exists result; split; [done|naive_solver]].
  destruct (bool_decide _ && bool_decide _) eqn:Hb.
  - rewrite andb_true_iff, !bool_decide_eq_true in Hb. destruct Hb as [Hk Hg]. rewrite Hm.
    destruct (rm_RESTMapping m _ _) as [scope|err] eqn:Hscope.
    2: { exists result. split; [done|]. intros r. split; [tauto|].
      intros [?|[(gv' & scope & (? & _) & ? & _)|[(gv' & ? & Hok) _]]]; [done|congruence|].
      simplify_eq. rewrite Hscope in Hok. by discriminate Hok. }
    destruct (IH (<[mkNN (if decide (scope ≠ ScopeRoot) then ns else "") (or_Name ref):=()]> result))
      as (result' & -> & Hr).
    exists result'. split; [done|]. intros r. rewrite Hr, lookup_insert_is_Some'. split.
    + intros [[<-|?]|?]; [right; left; by exists gv, scope|by left|right; right].
      split; [|done]. exists gv. split; [done|]. by rewrite Hscope.
    + intros [?|[(gv' & scope' & (? & _) & ? & ->)|[_ ?]]]; [tauto| |tauto].
      simplify_eq. rewrite Hscope in *. simplify_eq. tauto.
  - rewrite <- not_true_iff_false, andb_true_iff, !bool_decide_eq_true in Hb.
    destruct (IH result) as (result' & -> & Hr). exists result'. split; [done|].
    intros r. rewrite Hr. split; [|naive_solver]. intros [?|?]; [tauto|]. right. right.
    split; [|done]. exists gv. split; [done|]. tauto.
Qed.

Definition object_owner_request e m o (r : Request) : Prop :=
  owner_request e m (default "" (GetNamespace <$> o)) (getOwnersReferences e o) r.

Lemma enqueue_requests_spec (result : gmap Request ()) (P : Request → Prop) q :
  (∀ r, is_Some (result !! r) ↔ P r) →
  ∃ reqs, NoDup reqs ∧ (∀ r, r ∈ reqs ↔ P r) ∧ enqueue_requests result q = add_all reqs q.
Proof.
  intros HP. exists (map_range result).*1. split; [apply NoDup_map_range_keys|]. split; [|done].
  intros r. by rewrite elem_of_map_range_keys.
Qed.

(** C18: for every event, [EnqueueRequestForOwner] with an injected mapper
    adds one request per distinct owner of the event's objects and nothing
    else, whatever the order Go ranges over the set it collects.  A request is
    added exactly when one of the objects (both of them for an update) has an
    owner reference (the controller's, if only controllers are asked for) of
    the handler's group and kind, in any version the mapper knows, and every
    reference before that one can be read: the first reference whose group and
    version do not parse, or whose matching kind has no mapping, hides those
    after it.  The request carries the owner's name and the object's namespace,
    or no namespace when the owner's kind is cluster-scoped. *)
Theorem EnqueueRequestForOwner_spec e m ev q :
  eo_mapper e = Some m →
  ∃ reqs, NoDup reqs
    ∧ (∀ r, r ∈ reqs ↔ Exists (λ o, object_owner_request e m o r) (event_objects ev))
    ∧ handle (EnqueueRequestForOwner_EventHandler e) ev q = Returned (add_all reqs q).
Proof.
  intros Hm.
  assert (Hone : ∀ o result, ∃ result',
    getOwnerReconcileRequest e o result = Returned result'
    ∧ ∀ r, is_Some (result' !! r) ↔ is_Some (result !! r) ∨ object_owner_request e m o r).
  { intros o result. by apply owner_requests_spec. }
  assert (Hempty : ∀ r, is_Some ((∅ : gmap Request ()) !! r) ↔ False).
  { intros r. rewrite lookup_empty. split; [by intros [? ?]|done]. }
  destruct ev as [ev|ev|ev|ev]; cbn;
    [destruct (Hone (ce_Object ev) ∅) as (r1 & Hr1 & Hin1)|destruct (Hone (ue_ObjectOld ev) ∅) as (r1 & Hr1 & Hin1)
    |destruct (Hone (de_Object ev) ∅) as (r1 & Hr1 & Hin1)|destruct (Hone (ge_Object ev) ∅) as (r1 & Hr1 & Hin1)].
  2: { destruct (Hone (ue_ObjectNew ev) r1) as (r2 & Hr2 & Hin2).
    unfold EnqueueRequestForOwner_Update. rewrite Hr1. cbn. rewrite Hr2. cbn.
    destruct (enqueue_requests_spec r2 (λ r, Exists (λ o, object_owner_request e m o r)
      [ue_ObjectOld ev; ue_ObjectNew ev]) q) as (reqs & ? & ? & ->); [|by exists reqs].
    intros r. rewrite Hin2, Hin1, Hempty, !Exists_cons, Exists_nil. tauto. }
  all: unfold EnqueueRequestForOwner_Create, EnqueueRequestForOwner_Delete,
         EnqueueRequestForOwner_Generic; rewrite Hr1; cbn;
    (destruct (enqueue_requests_spec r1 (λ r, is_Some (r1 !! r)) q) as (reqs & ? & Hreqs & ->); [done|]);
    exists reqs; (split; [done|]); (split; [|done]);
    intros r; rewrite Hreqs, Hin1, Hempty, Exists_cons, Exists_nil; tauto.
Qed.
End handler_facts.

Section mapped_facts.
Context `{WorkQueue Q}.
Implicit Types (q : Q) (ev : Event) (reqs : list Request).

Lemma enqueue_new_spec (l : list Request) (seen : gset Request) q : ∃ fresh,
  enqueue_new l seen q = (seen ∪ list_to_set fresh, add_all fresh q)
  ∧ NoDup fresh ∧ (∀ r, r ∈ fresh ↔ r ∈ l ∧ r ∉ seen).
Proof.
  revert seen q. induction l as [|x l IH]; intros seen q; cbn [enqueue_new].
  { exists []. split; [f_equal; set_solver|]. split; [constructor|]. intros r.
    rewrite !elem_of_nil. tauto. }
  destruct (decide (x ∈ seen)) as [Hx|Hx].
  - destruct (IH seen q) as (fresh & -> & Hnd & Hin). exists fresh. split; [done|]. split; [done|].
    intros r. rewrite Hin, elem_of_cons. split; [tauto|]. intros [[->|?] ?]; tauto.
  - destruct (IH (seen ∪ {[x]}) (q_Add x q)) as (fresh & -> & Hnd & Hin). exists (x :: fresh).
    split; [f_equal; set_solver|]. split.
    { apply NoDup_cons. split; [|done]. rewrite Hin. set_solver. }
    intros r. rewrite !elem_of_cons, Hin, elem_of_union, elem_of_singleton.
    destruct (decide (r = x)) as [->|]; tauto.
Qed.

Lemma mapAndEnqueue_spec f o l seen q :
  f o = Returned l → ∃ fresh,
    mapAndEnqueue f q o seen = Returned (seen ∪ list_to_set fresh, add_all fresh q)
    ∧ NoDup fresh ∧ (∀ r, r ∈ fresh ↔ r ∈ l ∧ r ∉ seen).
Proof.
  intros Hf. destruct (enqueue_new_spec l seen q) as (fresh & Heq & ? & ?).
  exists fresh. split; [|done]. unfold mapAndEnqueue. rewrite Hf. cbn. by rewrite Heq.
Qed.

(** For every event, a handler made by [EnqueueRequestsFromMapFunc] adds
    each distinct request the function maps the event's objects to exactly
    once, those of the old object of an update first, and nothing else. *)
Theorem EnqueueRequestsFromMapFunc_spec (f : MapFunc) ev q :
  Forall (λ o, ∃ l, f o = Returned l) (event_objects ev) →
  ∃ reqs, NoDup reqs
    ∧ (∀ r, r ∈ reqs ↔ Exists (λ o, ∃ l, f o = Returned l ∧ r ∈ l) (event_objects ev))
    ∧ handle (EnqueueRequestsFromMapFunc f) ev q = Returned (add_all reqs q).
Proof.
  assert (Hex : ∀ o l r, f o = Returned l → (∃ l', f o = Returned l' ∧ r ∈ l') ↔ r ∈ l).
  { intros o l r Hf. rewrite Hf. split; [by intros (? & [= <-] & ?)|eauto]. }
  intros Hall. destruct ev as [ev|ev|ev|ev]; cbn in Hall |- *;
    apply Forall_cons in Hall as [[l Hl] Hall].
  2: { apply Forall_cons in Hall as [[l2 Hl2] _].
    destruct (mapAndEnqueue_spec f _ l ∅ q Hl) as (r1 & Heq1 & Hnd1 & Hin1).
    destruct (mapAndEnqueue_spec f _ l2 (∅ ∪ list_to_set r1) (add_all r1 q) Hl2)
      as (r2 & Heq2 & Hnd2 & Hin2).
    exists (r1 ++ r2). unfold enqueueRequestsFromMapFunc_Update. rewrite Heq1. cbn. rewrite Heq2. cbn.
    rewrite add_all_app. split; [|split; [|done]].
    - apply NoDup_app. split; [done|]. split; [|done]. intros r Hr1 [_ Hr2]%Hin2. set_solver.
    - intros r. rewrite elem_of_app, Hin2, Hin1, !Exists_cons, Exists_nil, (Hex _ _ _ Hl), (Hex _ _ _ Hl2).
      rewrite elem_of_union, elem_of_list_to_set, elem_of_empty, Hin1, elem_of_empty.
      destruct (decide (r ∈ l)); tauto. }
  all: destruct (mapAndEnqueue_spec f _ l ∅ q Hl) as (r1 & Heq1 & Hnd1 & Hin1); exists r1;
    unfold enqueueRequestsFromMapFunc_Create, enqueueRequestsFromMapFunc_Delete,
      enqueueRequestsFromMapFunc_Generic; rewrite Heq1; cbn;
    (split; [done|]); (split; [|done]); intros r;
    rewrite Hin1, Exists_cons, Exists_nil, (Hex _ _ _ Hl), elem_of_empty; tauto.
Qed.

(** *** From an informer to the queue *)

(** The object a deletion reports, in a tombstone or not. *)
Definition deleted_object (v : InformerValue) : option Object :=
  match v with
  | AnObject o | DeletedFinalStateUnknown _ (AnObject o) => Some o
  | _ => None
  end.

Lemma filtered_And ps ev (deliver : Q → outcome Q) q :
  (match ev with
   | EvCreate e => filtered p_Create ps e deliver q
   | EvUpdate e => filtered p_Update ps e deliver q
   | EvDelete e => filtered p_Delete ps e deliver q
   | EvGeneric e => filtered p_Generic ps e deliver q
   end) = (b ← passes (And ps) ev; if (b : bool) then deliver q else Returned q).
Proof. by destruct ev. Qed.

(** An informer's report, taken by the adapter with predicates [ps] and
    handed to [EnqueueRequestForObject], puts the key of the reported object
    on the queue exactly once when the conjunction of the predicates lets
    the event through, nothing when it refuses, and panics when it panics;
    the key is the new object's for an update, and the wrapped object's for
    a deletion seen through a tombstone, which
    is reported like any other, with [DeleteStateUnknown] unset; a report of something that is no
    object leaves the queue as it is, without asking the predicates. *)
Theorem informer_to_queue ps q v w :
  let e := mkSourceHandler EnqueueRequestForObject ps in
  let deliver ev o := b ← passes (And ps) ev; Returned (if (b : bool) then q_Add (ObjectKeyFromObject o) q else q) in
  OnAdd e v q = match v with
                | AnObject o => deliver (EvCreate (mkCreateEvent (Some o))) o
                | _ => Returned q
                end
  ∧ OnUpdate e v w q = match v, w with
                       | AnObject old, AnObject new =>
                           deliver (EvUpdate (mkUpdateEvent (Some old) (Some new))) new
                       | _, _ => Returned q
                       end
  ∧ OnDelete e v q = match deleted_object v with
                     | Some o => deliver (EvDelete (mkDeleteEvent (Some o) false)) o
                     | None => Returned q
                     end.
Proof.
  intros e deliver.
  assert (Hd : ∀ ev o, deliver ev o = (b ← passes (And ps) ev;
    if (b : bool) then Returned (q_Add (ObjectKeyFromObject o) q) else Returned q)).
  { intros ev o. unfold deliver. by destruct (passes (And ps) ev) as [[]|]. }
  clearbody deliver. split; [|split].
  - by destruct v.
  - by destruct v, w.
  - destruct v as [o|k [o|k' v|]|]; try done; cbn [deleted_object]; by rewrite Hd.
Qed.
End mapped_facts.
