(* ===== verification/Controller.v ===== *)
(** * The controller (src/pkg/internal/controller/controller.go and
      src/pkg/controller/controller.go)

    [Controller] is the controller's setup: [Watch] and [Start] up to the
    point where the workers run, with the mutex that guards them.  [Worker] is
    what a worker does with one item of the queue, and [Workers] the
    interleavings of several workers and the event handlers over one queue. *)

From S2P Require Export Handlers.

(** ** Setup *)

Section setup.
(** The world sources act on, references to work queues, and the loggers
    and rate limiters the options carry. *)
Context {W QRef H Reconciler RateLimiter Logger : Type}.

(** The [Source] interface, whose queue argument is nil before a controller
    has a queue; [src_WaitForSync] is there for a [SyncingSource]
    and takes the timeout of its context. *)
Record Source := mkSource {
  src_Start : H → option QRef → list Predicate → W → W * option error;
  src_WaitForSync : option (Z → W → W * option error);
}.

Record watchDescription := mkWatch {
  wd_src : Source;
  wd_handler : H;
  wd_predicates : list Predicate;
}.

(** What [SetFields] is called on. *)
Inductive InjectTarget :=
  | TargetSource (s : Source)
  | TargetHandler (h : H)
  | TargetPredicate (p : Predicate)
  | TargetReconciler (r : Reconciler).

Definition Injector : Type := InjectTarget → W → W * option error.

(** [c_mu] says whether the mutex is held. *)
Record Controller := mkController {
  c_Name : string;
  c_MaxConcurrentReconciles : Z;
  c_Do : Reconciler;
  c_MakeQueue : W → QRef * W;
  c_Queue : option QRef;
  c_SetFields : Injector;
  c_mu : bool;
  c_Started : bool;
  c_CacheSyncTimeout : Z;
  c_startWatches : list watchDescription;
  c_Log : Logger;
}.

Definition set_setup (queue : option QRef) (mu started : bool) (watches : list watchDescription)
    (c : Controller) : Controller :=
  mkController (c_Name c) (c_MaxConcurrentReconciles c) (c_Do c) (c_MakeQueue c) queue (c_SetFields c)
    mu started (c_CacheSyncTimeout c) watches (c_Log c).

Definition lock (c : Controller) : Controller :=
  set_setup (c_Queue c) true (c_Started c) (c_startWatches c) c.
Definition unlock (c : Controller) : Controller :=
  set_setup (c_Queue c) false (c_Started c) (c_startWatches c) c.

(** [SetFields] on every predicate, stopping at the first error. *)
Fixpoint inject_predicates (SetFields : Injector) (prct : list Predicate) (w : W) : W * option error :=
  match prct with
  | [] => (w, None)
  | pr :: prct =>
      match SetFields (TargetPredicate pr) w with
      | (w, Some err) => (w, Some err)
      | (w, None) => inject_predicates SetFields prct w
      end
  end.

(** [Watch] between [Lock] and [Unlock]. *)
Definition Watch_locked (c : Controller) (src : Source) (evthdler : H) (prct : list Predicate) (w : W)
    : Controller * W * option error :=
  match c_SetFields c (TargetSource src) w with
  | (w, Some err) => (c, w, Some err)
  | (w, None) =>
      match c_SetFields c (TargetHandler evthdler) w with
      | (w, Some err) => (c, w, Some err)
      | (w, None) =>
          match inject_predicates (c_SetFields c) prct w with
          | (w, Some err) => (c, w, Some err)
          | (w, None) =>
              if negb (c_Started c) then
                (set_setup (c_Queue c) (c_mu c) (c_Started c)
                   (c_startWatches c ++ [mkWatch src evthdler prct]) c, w, None)
              else let '(w, err) := src_Start src evthdler (c_Queue c) prct w in (c, w, err)
          end
      end
  end.

(** [None] is a call that blocks on the mutex for ever. *)
Definition Watch (c : Controller) (src : Source) (evthdler : H) (prct : list Predicate) (w : W)
    : option (Controller * W * option error) :=
  if c_mu c then None
  else let '(c, w, err) := Watch_locked (lock c) src evthdler prct w in Some (unlock c, w, err).

(** The first loop of [Start]: start the sources in order. *)
Fixpoint start_sources (watches : list watchDescription) (q : option QRef) (w : W) : W * option error :=
  match watches with
  | [] => (w, None)
  | watch :: watches =>
      match src_Start (wd_src watch) (wd_handler watch) q (wd_predicates watch) w with
      | (w, Some err) => (w, Some err)
      | (w, None) => start_sources watches q w
      end
  end.

Definition err_sync (name : string) (err : error) : error :=
  ErrorWrap ("failed to wait for " +:+ name +:+ " caches to sync") err.

(** The second loop: wait for the sources that sync. *)
Fixpoint wait_for_sources (name : string) (timeout : Z) (watches : list watchDescription) (w : W)
    : W * option error :=
  match watches with
  | [] => (w, None)
  | watch :: watches =>
      match src_WaitForSync (wd_src watch) with
      | None => wait_for_sources name timeout watches w
      | Some WaitForSync =>
          match WaitForSync timeout w with
          | (w, Some err) => (w, Some (err_sync name err))
          | (w, None) => wait_for_sources name timeout watches w
          end
      end
  end.

Definition err_started_twice : error := ErrorString "controller was started more than once".

(** How [Start] goes: it blocks on the mutex, returns an error, panics, or
    has launched its workers and waits for the context to be done. *)
Inductive StartOutcome :=
  | StartBlocked
  | StartReturned (c : Controller) (w : W) (err : error)
  | StartPanicked
  | StartServing (c : Controller) (w : W) (workers : nat).

(** [initMetrics] is part of [Metrics] below.  A negative worker count makes
    [WaitGroup.Add] panic. *)
Definition Start (c : Controller) (w : W) : StartOutcome :=
  if c_mu c then StartBlocked
  else
    let c := lock c in
    if c_Started c then StartReturned c w err_started_twice
    else
      let '(q, w) := c_MakeQueue c w in
      let c := set_setup (Some q) true (c_Started c) (c_startWatches c) c in
      match start_sources (c_startWatches c) (c_Queue c) w with
      | (w, Some err) => StartReturned (unlock c) w err
      | (w, None) =>
          match wait_for_sources (c_Name c) (c_CacheSyncTimeout c) (c_startWatches c) w with
          | (w, Some err) => StartReturned (unlock c) w err
          | (w, None) =>
              let c := set_setup (c_Queue c) true (c_Started c) [] c in
              if decide (c_MaxConcurrentReconciles c < 0)%Z then StartPanicked
              else
                let c := set_setup (c_Queue c) true true (c_startWatches c) c in
                StartServing (unlock c) w (Z.to_nat (c_MaxConcurrentReconciles c))
          end
      end.

(** *** Construction *)

(** [controller.Options]; nil interfaces are [None]. *)
Record ControllerOptions := mkControllerOptions {
  co_MaxConcurrentReconciles : Z;
  co_Reconciler : option Reconciler;
  co_RateLimiter : option RateLimiter;
  co_Log : option Logger;
  co_CacheSyncTimeout : Z;
}.

(** What is used of the manager, of the work queue package and of the
    logger. *)
Variable mgr_SetFields : Injector.
Variable mgr_GetLogger : Logger.
Variable DefaultControllerRateLimiter : RateLimiter.
Variable NewNamedRateLimitingQueue : RateLimiter → string → W → QRef * W.
Variable WithName : string → Logger → Logger.

Definition err_no_reconciler : error := ErrorString "must specify Reconciler".
Definition err_no_name : error := ErrorString "must specify Name for Controller".

Definition two_minutes : Z := (2 * 60 * 10 ^ 9)%Z.

Definition NewUnmanaged (name : string) (options : ControllerOptions) (w : W)
    : W * result Controller :=
  match co_Reconciler options with
  | None => (w, Err err_no_reconciler)
  | Some rec =>
      if decide (String.length name = 0)%nat then (w, Err err_no_name)
      else
        let log := default mgr_GetLogger (co_Log options) in
        let max := if decide (co_MaxConcurrentReconciles options <= 0)%Z then 1%Z
                   else co_MaxConcurrentReconciles options in
        let timeout := if decide (co_CacheSyncTimeout options = 0)%Z then two_minutes
                       else co_CacheSyncTimeout options in
        let limiter := default DefaultControllerRateLimiter (co_RateLimiter options) in
        match mgr_SetFields (TargetReconciler rec) w with
        | (w, Some err) => (w, Err err)
        | (w, None) =>
            (w, Ok (mkController name max rec (NewNamedRateLimitingQueue limiter name) None
                      mgr_SetFields false false timeout []
                      (WithName name (WithName "controller" log))))
        end
  end.
End setup.
Arguments Source : clear implicits.
Arguments watchDescription : clear implicits.
Arguments InjectTarget : clear implicits.
Arguments Controller : clear implicits.
Arguments StartOutcome : clear implicits.

(** ** One item *)

(** The metrics of one controller; the reconcile time is kept as the number of
    observations. *)
Record Metrics := mkMetrics {
  ActiveWorkers : Z;
  ReconcileErrors : Z;
  ReconcileTotal_error : Z;
  ReconcileTotal_requeue_after : Z;
  ReconcileTotal_requeue : Z;
  ReconcileTotal_success : Z;
  WorkerCount : Z;
  ReconcileTime_observations : Z;
}.

Section worker.
Context {W : Type} `{WorkQueue Q}.
(** [c.Do.Reconcile]. *)
Variable Reconcile : Request → W → W * ReconcileResult * option error.

Record WorkState := mkWork { ws_world : W; ws_queue : Q; ws_metrics : Metrics }.

Definition on_queue (f : Q → Q) (s : WorkState) : WorkState :=
  mkWork (ws_world s) (f (ws_queue s)) (ws_metrics s).
Definition on_metrics (f : Metrics → Metrics) (s : WorkState) : WorkState :=
  mkWork (ws_world s) (ws_queue s) (f (ws_metrics s)).

(** [initMetrics]: adding zero to a counter makes it exist. *)
Definition initMetrics (MaxConcurrentReconciles : Z) (m : Metrics) : Metrics :=
  mkMetrics 0 (ReconcileErrors m + 0) (ReconcileTotal_error m + 0) (ReconcileTotal_requeue_after m + 0)
    (ReconcileTotal_requeue m + 0) (ReconcileTotal_success m + 0) MaxConcurrentReconciles
    (ReconcileTime_observations m).

Definition add_ActiveWorkers (n : Z) (m : Metrics) : Metrics :=
  mkMetrics (ActiveWorkers m + n) (ReconcileErrors m) (ReconcileTotal_error m)
    (ReconcileTotal_requeue_after m) (ReconcileTotal_requeue m) (ReconcileTotal_success m)
    (WorkerCount m) (ReconcileTime_observations m).
Definition inc_error (m : Metrics) : Metrics :=
  mkMetrics (ActiveWorkers m) (ReconcileErrors m + 1) (ReconcileTotal_error m + 1)
    (ReconcileTotal_requeue_after m) (ReconcileTotal_requeue m) (ReconcileTotal_success m)
    (WorkerCount m) (ReconcileTime_observations m).
Definition inc_requeue_after (m : Metrics) : Metrics :=
  mkMetrics (ActiveWorkers m) (ReconcileErrors m) (ReconcileTotal_error m)
    (ReconcileTotal_requeue_after m + 1) (ReconcileTotal_requeue m) (ReconcileTotal_success m)
    (WorkerCount m) (ReconcileTime_observations m).
Definition inc_requeue (m : Metrics) : Metrics :=
  mkMetrics (ActiveWorkers m) (ReconcileErrors m) (ReconcileTotal_error m)
    (ReconcileTotal_requeue_after m) (ReconcileTotal_requeue m + 1) (ReconcileTotal_success m)
    (WorkerCount m) (ReconcileTime_observations m).
Definition inc_success (m : Metrics) : Metrics :=
  mkMetrics (ActiveWorkers m) (ReconcileErrors m) (ReconcileTotal_error m)
    (ReconcileTotal_requeue_after m) (ReconcileTotal_requeue m) (ReconcileTotal_success m + 1)
    (WorkerCount m) (ReconcileTime_observations m).
Definition updateMetrics (m : Metrics) : Metrics :=
  mkMetrics (ActiveWorkers m) (ReconcileErrors m) (ReconcileTotal_error m)
    (ReconcileTotal_requeue_after m) (ReconcileTotal_requeue m) (ReconcileTotal_success m)
    (WorkerCount m) (ReconcileTime_observations m + 1).

Definition reconcileHandler (obj : QueueItem) (s : WorkState) : WorkState :=
  let s :=
    match obj with
    | ItemOther _ => on_queue (q_Forget obj) s
    | ItemRequest req =>
        let '(w, result, err) := Reconcile req (ws_world s) in
        let s := mkWork w (ws_queue s) (ws_metrics s) in
        match err with
        | Some _ => on_metrics inc_error (on_queue (q_AddRateLimited req) s)
        | None =>
            if decide (r_RequeueAfter result > 0)%Z then
              on_metrics inc_requeue_after
                (on_queue (λ q, q_AddAfter req (r_RequeueAfter result) (q_Forget obj q)) s)
            else if r_Requeue result then on_metrics inc_requeue (on_queue (q_AddRateLimited req) s)
            else on_metrics inc_success (on_queue (q_Forget obj) s)
        end
    end in
  on_metrics updateMetrics s.

(** What happens between [Get] returning [obj] and the end of
    [processNextWorkItem]; the deferred calls run in reverse order. *)
Definition process_item (obj : QueueItem) (s : WorkState) : WorkState :=
  let s := on_metrics (add_ActiveWorkers 1) s in
  let s := reconcileHandler obj s in
  let s := on_metrics (add_ActiveWorkers (-1)) s in
  on_queue (q_Done obj) s.

(** [None] when [Get] blocks; the boolean is the result of the call. *)
Definition processNextWorkItem (s : WorkState) : option (bool * WorkState) :=
  '(got, q) ← q_Get (ws_queue s);
  let s := mkWork (ws_world s) q (ws_metrics s) in
  match got with
  | None => Some (false, s)
  | Some obj => Some (true, process_item obj s)
  end.
End worker.

(** ** Setup, as seen by the sources *)

Section setup_facts.
Context {QRef H Reconciler RateLimiter Logger : Type}.

(** The calls a controller makes on its sources. *)
Inductive SourceCall :=
  | CallStart (id : nat) (h : H) (q : option QRef) (ps : list Predicate)
  | CallWait (id : nat) (timeout : Z).

(** A source that notes the calls and answers as told: [t_wait] is [None]
    for a source that does not sync. *)
Record TracedSource := mkTraced {
  t_id : nat;
  t_start : option error;
  t_wait : option (option error);
  t_handler : H;
  t_predicates : list Predicate;
}.

Definition traced_source (t : TracedSource) : Source (list SourceCall) QRef H := {|
  src_Start := λ h q ps tr, (tr ++ [CallStart (t_id t) h q ps], t_start t);
  src_WaitForSync := (λ r timeout tr, (tr ++ [CallWait (t_id t) timeout], r)) <$> t_wait t;
|}.
Definition traced_watch (t : TracedSource) : watchDescription (list SourceCall) QRef H :=
  mkWatch (traced_source t) (t_handler t) (t_predicates t).

Definition start_call (q : option QRef) (t : TracedSource) : SourceCall :=
  CallStart (t_id t) (t_handler t) q (t_predicates t).
Definition wait_calls (timeout : Z) (ts : list TracedSource) : list SourceCall :=
  (λ t, CallWait (t_id t) timeout) <$> filter (λ t, is_Some (t_wait t)) ts.

(** [ts] up to and including the first element whose [f] is an error, with
    that error. *)
Fixpoint until_error (f : TracedSource → option error) (ts : list TracedSource)
    : list TracedSource * option error :=
  match ts with
  | [] => ([], None)
  | t :: ts => match f t with
               | Some e => ([t], Some e)
               | None => let '(l, e) := until_error f ts in (t :: l, e)
               end
  end.

Lemma start_sources_traced ts q tr :
  start_sources (traced_watch <$> ts) q tr =
    let '(l, e) := until_error t_start ts in (tr ++ (start_call q <$> l), e).
Proof.
  revert tr. induction ts as [|t ts IH]; intros tr; cbn; [by rewrite app_nil_r|].
  destruct (t_start t); [done|]. rewrite IH. destruct (until_error t_start ts) as [l e].
  by rewrite <- (assoc_L app).
Qed.

Lemma wait_calls_cons timeout t ts :
  wait_calls timeout (t :: ts) =
    match t_wait t with Some _ => [CallWait (t_id t) timeout] | None => [] end ++ wait_calls timeout ts.
Proof.
  unfold wait_calls. rewrite filter_cons. case_decide as Hd; destruct (t_wait t); try done.
  by destruct Hd.
Qed.
#[local] Arguments wait_calls : simpl never.

Lemma wait_for_sources_traced name timeout ts tr :
  wait_for_sources name timeout (traced_watch <$> ts) tr =
    let '(l, e) := until_error (λ t, default None (t_wait t)) ts in
    (tr ++ wait_calls timeout l, err_sync name <$> e).
Proof.
  revert tr. induction ts as [|t ts IH]; intros tr; cbn; [by rewrite app_nil_r|].
  destruct (t_wait t) as [[e|]|] eqn:Ht; cbn.
  - by rewrite wait_calls_cons, Ht.
  - rewrite IH. destruct (until_error _ ts) as [l e].
    by rewrite wait_calls_cons, Ht, (assoc_L app).
  - rewrite IH. destruct (until_error _ ts) as [l e]. by rewrite wait_calls_cons, Ht.
Qed.

Implicit Types (c : Controller (list SourceCall) QRef H Reconciler Logger).

(** Registering the watches one after the other on a controller that has not
    been started, injection always succeeding. *)
Fixpoint watch_all c (ts : list TracedSource) (tr : list SourceCall)
    : option (Controller (list SourceCall) QRef H Reconciler Logger * list SourceCall) :=
  match ts with
  | [] => Some (c, tr)
  | t :: ts =>
      '(c, tr, _) ← Watch c (traced_source t) (t_handler t) (t_predicates t) tr;
      watch_all c ts tr
  end.

(** A controller fresh from its constructor, with the watches [ws] stored. *)
Definition idle c : Prop := c_mu c = false ∧ c_Started c = false ∧ (∀ t w, c_SetFields c t w = (w, None)).

Lemma inject_predicates_ok c ps (tr : list SourceCall) :
  (∀ t w, c_SetFields c t w = (w, None)) → inject_predicates (c_SetFields c) ps tr = (tr, None).
Proof. intros Hs. induction ps as [|p ps IH]; cbn; [done|]. by rewrite Hs. Qed.

Lemma Watch_ok c src h ps (tr : list SourceCall) :
  c_mu c = false → (∀ t w, c_SetFields c t w = (w, None)) →
  Watch c src h ps tr =
    if c_Started c then
      let '(tr, err) := src_Start src h (c_Queue c) ps tr in Some (c, tr, err)
    else Some (set_setup (c_Queue c) false false (c_startWatches c ++ [mkWatch src h ps]) c, tr, None).
Proof.
  intros Hmu Hs. unfold Watch, Watch_locked. rewrite Hmu. cbn.
  rewrite !Hs, inject_predicates_ok by done. destruct (c_Started c) eqn:Hst; cbn; [|done].
  destruct (src_Start _ _ _ _ _) as [w err]. f_equal. f_equal. f_equal.
  destruct c; unfold unlock, lock, set_setup; cbn in *; congruence.
Qed.

Lemma watch_all_idle c ts tr :
  idle c → watch_all c ts tr =
    Some (set_setup (c_Queue c) false false (c_startWatches c ++ (traced_watch <$> ts)) c, tr).
Proof.
  revert c. induction ts as [|t ts IH]; intros c (Hmu & Hst & Hs).
  { cbn. rewrite app_nil_r. f_equal. f_equal. destruct c; unfold set_setup; cbn in *; congruence. }
  cbn [watch_all]. rewrite Watch_ok, Hst by done. cbn [mbind option_bind].
  rewrite IH by done. cbn. by rewrite <- (assoc_L app).
Qed.

(** C6: a controller starts the sources it watches in the order they were
    registered, each once, with its handler, its predicates and the
    controller's queue, and waits for none before all are started; then it
    waits, in the same order, for those that sync, and only when all have
    synced does it launch its workers, as many as configured.  Registering
    a watch before that calls no source.  At the first source that fails to
    start, or to sync, [Start] stops and returns the error (wrapped, when
    syncing failed), and the controller can be started again with the same
    watches.  Once it serves, it holds no watches, and a further [Watch]
    starts its source at once with the same queue. *)
Theorem Start_runs_watches_in_order c ts tr q :
  idle c → c_startWatches c = [] → (∀ w, c_MakeQueue c w = (q, w)) →
  (0 ≤ c_MaxConcurrentReconciles c)%Z →
  let starts := fst (until_error t_start ts) in
  let waits := fst (until_error (λ t, default None (t_wait t)) ts) in
  ∃ c1 c2,
    watch_all c ts tr = Some (c1, tr)
    ∧ Start c1 tr =
        match snd (until_error t_start ts), snd (until_error (λ t, default None (t_wait t)) ts) with
        | Some e, _ => StartReturned c2 (tr ++ (start_call (Some q) <$> starts)) e
        | None, Some e =>
            StartReturned c2 (tr ++ (start_call (Some q) <$> ts) ++ wait_calls (c_CacheSyncTimeout c) waits)
              (err_sync (c_Name c) e)
        | None, None =>
            StartServing c2 (tr ++ (start_call (Some q) <$> ts) ++ wait_calls (c_CacheSyncTimeout c) ts)
              (Z.to_nat (c_MaxConcurrentReconciles c))
        end
    ∧ (if c_Started c2 then
         c_startWatches c2 = []
         ∧ ∀ t tr', Watch c2 (traced_source t) (t_handler t) (t_predicates t) tr'
                    = Some (c2, tr' ++ [start_call (Some q) t], t_start t)
       else idle c2 ∧ c_startWatches c2 = c_startWatches c1).
Proof.
  intros Hidle Hw Hq Hmax starts waits. pose proof Hidle as (Hmu & Hst & Hs).
  rewrite (watch_all_idle c ts tr Hidle), Hw. cbn [app].
  exists (set_setup (c_Queue c) false false (traced_watch <$> ts) c).
  assert (Hall : ∀ f, snd (until_error f ts) = None → fst (until_error f ts) = ts).
  { intros f. induction ts as [|t l IH]; cbn; [done|]. destruct (f t); [done|].
    destruct (until_error f l) as [l' e]. cbn in *. intros He. by rewrite IH. }
  pose proof (Hall t_start) as Hstarts. pose proof (Hall (λ t, default None (t_wait t))) as Hwaits.
  unfold Start. cbn. rewrite Hq. cbn. rewrite start_sources_traced. unfold starts, waits.
  destruct (until_error t_start ts) as [l [e|]]; cbn in *; [by eexists|].
  rewrite Hstarts by done. rewrite wait_for_sources_traced.
  destruct (until_error _ ts) as [l' [e|]]; cbn in *; [eexists; by rewrite <- (assoc_L app)|].
  rewrite decide_False by lia. rewrite Hwaits, <- (assoc_L app) by done.
  eexists. split; [done|]. split; [done|]. split; [done|].
  intros t tr'. by rewrite Watch_ok.
Qed.

(** Once a controller serves, starting it again is refused with an error,
    but that call never releases the mutex: every later [Start] and every
    later [Watch] blocks for ever. *)
Theorem second_Start_blocks_the_controller c c' tr tr' n :
  Start c tr = StartServing c' tr' n →
  ∃ c'', Start c' tr' = StartReturned c'' tr' err_started_twice
    ∧ (∀ w, Start c'' w = StartBlocked)
    ∧ (∀ src h ps w, Watch c'' src h ps w = None).
Proof.
  intros Hs. assert (c_mu c' = false ∧ c_Started c' = true) as [Hmu Hst].
  { unfold Start in Hs. repeat case_match; by simplify_eq/=. }
  exists (lock c'). unfold Start, Watch. cbn. by rewrite Hmu, Hst.
Qed.
End setup_facts.

(** ** One item, as seen by the queue *)

Inductive QueueCall :=
  | CallAdd (r : Request)
  | CallAddAfter (r : Request) (d : Z)
  | CallAddRateLimited (r : Request)
  | CallForget (i : QueueItem)
  | CallDone (i : QueueItem)
  | CallShutDown.

#[export] Instance QueueCall_eq_dec : EqDecision QueueCall.
Proof. solve_decision. Defined.

Definition run_call `{WorkQueue Q} (call : QueueCall) : Q → Q :=
  match call with
  | CallAdd r => q_Add r
  | CallAddAfter r d => q_AddAfter r d
  | CallAddRateLimited r => q_AddRateLimited r
  | CallForget i => q_Forget i
  | CallDone i => q_Done i
  | CallShutDown => q_ShutDown
  end.

Definition run_calls `{WorkQueue Q} (calls : list QueueCall) (q : Q) : Q :=
  fold_left (λ q c, run_call c q) calls q.

(** What a work queue promises ([k8s.io/client-go/util/workqueue]): an item
    that is handed out is not handed out again until it is done, and the rate
    limiter counts the failures of an item until they are forgotten. *)
Class WorkQueueLaws (Q : Type) `{WorkQueue Q} := {
  q_processing : Q → gset QueueItem;
  q_NumRequeues : QueueItem → Q → Z;
  q_Get_item : ∀ q i q', q_Get q = Some (Some i, q') →
    (i ∉ q_processing q) ∧ q_processing q' = (q_processing q ∪ {[i]})
    ∧ ∀ j, q_NumRequeues j q' = q_NumRequeues j q;
  q_Get_shutdown : ∀ q q', q_Get q = Some (None, q') → q_processing q' = q_processing q;
  q_call_processing : ∀ c q,
    q_processing (run_call c q) = match c with
                                  | CallDone i => q_processing q ∖ {[i]}
                                  | _ => q_processing q
                                  end;
  q_call_NumRequeues : ∀ c q i,
    q_NumRequeues i (run_call c q) = match c with
                                     | CallAddRateLimited r =>
                                         if decide (i = ItemRequest r) then q_NumRequeues i q + 1
                                         else q_NumRequeues i q
                                     | CallForget j => if decide (i = j) then 0 else q_NumRequeues i q
                                     | _ => q_NumRequeues i q
                                     end%Z;
}.

(** Whether a call puts the request back on the queue. *)
Definition readds (r : Request) (c : QueueCall) : Prop :=
  match c with
  | CallAdd r' | CallAddAfter r' _ | CallAddRateLimited r' => r' = r
  | _ => False
  end.

#[export] Instance readds_dec r c : Decision (readds r c).
Proof. destruct c; cbn; apply _. Defined.

(** The calls on the queue that follow a reconciliation. *)
Definition calls_after (obj : QueueItem) (res : ReconcileResult * option error) : list QueueCall :=
  match obj with
  | ItemOther _ => [CallForget obj]
  | ItemRequest r =>
      match res with
      | (_, Some _) => [CallAddRateLimited r]
      | (result, None) =>
          if decide (r_RequeueAfter result > 0)%Z then [CallForget obj; CallAddAfter r (r_RequeueAfter result)]
          else if r_Requeue result then [CallAddRateLimited r] else [CallForget obj]
      end
  end.

#[global] Arguments run_call : simpl never.

Section worker_facts.
Context {W : Type} `{WorkQueueLaws Q}.
Variable Reconcile : Request → W → W * ReconcileResult * option error.
Implicit Types (obj : QueueItem) (s : @WorkState W Q).

#[local] Arguments filter : simpl never.

Lemma process_item_queue obj s :
  ws_queue (process_item Reconcile obj s) =
    run_calls (calls_after obj (match obj with
                                | ItemRequest r => let '(_, result, err) := Reconcile r (ws_world s) in (result, err)
                                | ItemOther _ => (mkResult false 0, None)
                                end) ++ [CallDone obj]) (ws_queue s).
Proof.
  unfold process_item, reconcileHandler. destruct obj as [r|d]; cbn; [|done].
  destruct (Reconcile r (ws_world s)) as [[w result] [e|]]; cbn; [done|].
  case_decide; cbn; [done|]. by destruct (r_Requeue result).
Qed.

Lemma NumRequeues_calls_after obj res q :
  q_NumRequeues obj (run_calls (calls_after obj res ++ [CallDone obj]) q) =
    if decide (CallForget obj ∈ calls_after obj res) then 0%Z else (q_NumRequeues obj q + 1)%Z.
Proof.
  unfold run_calls. rewrite fold_left_app. cbn. rewrite q_call_NumRequeues.
  destruct obj as [r|d]; [destruct res as [result [e|]]; cbn|];
    repeat case_decide; cbn; try (destruct (r_Requeue result)); cbn;
    rewrite ?q_call_NumRequeues; repeat case_decide; set_solver.
Qed.

Lemma processing_run_calls calls i q :
  Forall (λ c, ∀ i, c ≠ CallDone i) calls →
  q_processing (run_calls (calls ++ [CallDone i]) q) = q_processing q ∖ {[i]}.
Proof.
  intros Hcalls. unfold run_calls. rewrite fold_left_app. cbn. rewrite q_call_processing. f_equal.
  revert q. induction Hcalls as [|c calls Hc _ IH]; intros q; cbn; [done|].
  rewrite IH, q_call_processing. destruct c as [| | | |j|]; try done. by destruct (Hc j).
Qed.

Lemma calls_after_shape r result (err : option error) :
  let failed := bool_decide (err ≠ None) in
  let delayed := negb failed && bool_decide (0 < r_RequeueAfter result)%Z in
  let again := negb failed && negb delayed && r_Requeue result in
  let calls := calls_after (ItemRequest r) (result, err) in
  Forall (λ c, ∀ i, c ≠ CallDone i) calls
  ∧ length (filter (readds r) calls) = (if failed || delayed || again then 1%nat else 0%nat)
  ∧ (∀ d, CallAddAfter r d ∈ calls ↔ delayed = true ∧ d = r_RequeueAfter result)
  ∧ (CallForget (ItemRequest r) ∈ calls ↔ failed || again = false).
Proof.
  cbn. destruct err as [e|]; cbn.
  { split; [by repeat constructor|]. rewrite filter_cons_True, filter_nil by done.
    split; [done|]. split; [intros d|]; rewrite list_elem_of_singleton; naive_solver. }
  case_decide; case_bool_decide; try lia; cbn.
  { split; [by repeat constructor|].
    rewrite filter_cons_False, filter_cons_True, filter_nil by (done || by intros []).
    split; [done|]. split; [intros d|]; rewrite !elem_of_cons, elem_of_nil; naive_solver. }
  destruct (r_Requeue result); cbn; (split; [by repeat constructor|]).
  - rewrite filter_cons_True, filter_nil by done. split; [done|].
    split; [intros d|]; rewrite list_elem_of_singleton; naive_solver.
  - rewrite filter_cons_False, filter_nil by (by intros []). split; [done|].
    split; [intros d|]; rewrite list_elem_of_singleton; naive_solver.
Qed.

(** C4: processing one request ends with exactly one [Done], after
    everything else.  The request is put back on the queue exactly once when
    the reconciler failed, asked for a delay or asked for a requeue, and not
    otherwise; a delay asked for along with an error is lost.  Its failure
    count grows by one after an error or a plain requeue, so the next delay
    grows, and is reset after a success or a requested delay.  The count of
    active workers is as before, exactly one reconciliation is counted,
    under the label of its outcome, and an error is counted once in the
    error metric. *)
Theorem process_request_protocol r s w result err :
  Reconcile r (ws_world s) = (w, result, err) →
  let s' := process_item Reconcile (ItemRequest r) s in
  let m := ws_metrics s in let m' := ws_metrics s' in
  let failed := bool_decide (err ≠ None) in
  let delayed := negb failed && bool_decide (0 < r_RequeueAfter result)%Z in
  let again := negb failed && negb delayed && r_Requeue result in
  let done_ := negb failed && negb delayed && negb again in
  ws_world s' = w
  ∧ (∃ calls, ws_queue s' = run_calls (calls ++ [CallDone (ItemRequest r)]) (ws_queue s)
       ∧ Forall (λ c, ∀ i, c ≠ CallDone i) calls
       ∧ length (filter (readds r) calls) = (if failed || delayed || again then 1%nat else 0%nat)
       ∧ ∀ d, CallAddAfter r d ∈ calls ↔ delayed = true ∧ d = r_RequeueAfter result)
  ∧ q_NumRequeues (ItemRequest r) (ws_queue s')
    = (if failed || again then q_NumRequeues (ItemRequest r) (ws_queue s) + 1 else 0)%Z
  ∧ q_processing (ws_queue s') = q_processing (ws_queue s) ∖ {[ItemRequest r]}
  ∧ ActiveWorkers m' = ActiveWorkers m
  ∧ ReconcileErrors m' = (ReconcileErrors m + Z.b2z failed)%Z
  ∧ ReconcileTotal_error m' = (ReconcileTotal_error m + Z.b2z failed)%Z
  ∧ ReconcileTotal_requeue_after m' = (ReconcileTotal_requeue_after m + Z.b2z delayed)%Z
  ∧ ReconcileTotal_requeue m' = (ReconcileTotal_requeue m + Z.b2z again)%Z
  ∧ ReconcileTotal_success m' = (ReconcileTotal_success m + Z.b2z done_)%Z
  ∧ (Z.b2z failed + Z.b2z delayed + Z.b2z again + Z.b2z done_ = 1)%Z.
Proof.
  intros Hr s' m m' failed delayed again done_.
  assert (Hq : ws_queue s' = run_calls (calls_after (ItemRequest r) (result, err) ++ [CallDone (ItemRequest r)])
                               (ws_queue s)).
  { unfold s'. rewrite process_item_queue. by rewrite Hr. }
  split; [unfold s', process_item, reconcileHandler; cbn; rewrite Hr; by repeat case_match|].
  destruct (calls_after_shape r result err) as (Hdone & Hlen & Hafter & Hforget).
  fold failed delayed again in Hlen, Hafter, Hforget.
  split; [|split; [|split]].
  - by exists (calls_after (ItemRequest r) (result, err)).
  - rewrite Hq, NumRequeues_calls_after. case_decide as Hd; rewrite Hforget in Hd; [by rewrite Hd|].
    apply not_false_iff_true in Hd. by rewrite Hd.
  - by rewrite Hq, processing_run_calls.
  - unfold m', m, s', process_item, reconcileHandler, done_, again, delayed, failed. cbn. rewrite Hr.
    destruct err as [e|]; cbn; [repeat split; cbn; lia|].
    case_decide; case_bool_decide; try lia; cbn; [repeat split; cbn; lia|].
    destruct (r_Requeue result); repeat split; cbn; lia.
Qed.
End worker_facts.

(** ** Workers *)

Section workers.
Context `{WorkQueueLaws Q}.

(** Where a worker is: in [Get], reconciling an item, making the calls that
    follow (the last of them is the deferred [Done]), or gone because the
    queue was shut down. *)
Inductive WorkerStatus :=
  | Idle
  | Reconciling (obj : QueueItem)
  | Finishing (obj : QueueItem) (calls : list QueueCall)
  | Stopped.

Record WorkersState := mkWorkers { wk_queue : Q; wk_workers : list WorkerStatus }.

Definition set_worker (i : nat) (st : WorkerStatus) (q : Q) (s : WorkersState) : WorkersState :=
  mkWorkers q (<[i := st]> (wk_workers s)).

(** The queue is safe for concurrent use, so its calls are the atomic steps:
    those of the workers' loops around [processNextWorkItem], and those of
    event handlers and of the shutdown, which never call [Done]. *)
Inductive workers_step (s : WorkersState) : WorkersState → Prop :=
  | step_Get i obj q :
      wk_workers s !! i = Some Idle → q_Get (wk_queue s) = Some (Some obj, q) →
      workers_step s (set_worker i (Reconciling obj) q s)
  | step_Get_shutdown i q :
      wk_workers s !! i = Some Idle → q_Get (wk_queue s) = Some (None, q) →
      workers_step s (set_worker i Stopped q s)
  | step_reconciled i obj res :
      wk_workers s !! i = Some (Reconciling obj) →
      workers_step s (set_worker i (Finishing obj (calls_after obj res)) (wk_queue s) s)
  | step_call i obj c calls :
      wk_workers s !! i = Some (Finishing obj (c :: calls)) →
      workers_step s (set_worker i (Finishing obj calls) (run_call c (wk_queue s)) s)
  | step_Done i obj :
      wk_workers s !! i = Some (Finishing obj []) →
      workers_step s (set_worker i Idle (run_call (CallDone obj) (wk_queue s)) s)
  | step_environment c :
      (∀ i, c ≠ CallDone i) →
      workers_step s (mkWorkers (run_call c (wk_queue s)) (wk_workers s)).

(** The item a worker holds. *)
Definition working_on (st : WorkerStatus) : option QueueItem :=
  match st with
  | Reconciling obj | Finishing obj _ => Some obj
  | Idle | Stopped => None
  end.

(** The calls left to a worker that is finishing. *)
Definition calls_left (st : WorkerStatus) : list QueueCall :=
  match st with Finishing _ calls => calls | _ => [] end.

Definition not_done (c : QueueCall) : Prop := ∀ i, c ≠ CallDone i.

Definition workers_inv (s : WorkersState) : Prop :=
  (∀ i st obj, wk_workers s !! i = Some st → working_on st = Some obj → obj ∈ q_processing (wk_queue s))
  ∧ (∀ i j st st' obj, wk_workers s !! i = Some st → wk_workers s !! j = Some st' →
       working_on st = Some obj → working_on st' = Some obj → i = j)
  ∧ (∀ i st, wk_workers s !! i = Some st → Forall not_done (calls_left st)).

(** A step that leaves every worker's item as it is keeps the invariant. *)
Lemma workers_inv_same_items s i st q :
  workers_inv s →
  (∀ old, wk_workers s !! i = Some old → working_on st = working_on old) →
  Forall not_done (calls_left st) →
  q_processing q = q_processing (wk_queue s) →
  workers_inv (set_worker i st q s).
Proof.
  intros (Hp & Hu & Hd) Hst Hcalls Hq.
  assert (Hold : ∀ k st' obj, <[i:=st]> (wk_workers s) !! k = Some st' → working_on st' = Some obj →
    ∃ st'', wk_workers s !! k = Some st'' ∧ working_on st'' = Some obj).
  { intros k st' obj Hk Hw. apply list_lookup_insert_Some in Hk as [(-> & <- & Hlt)|[Hne Hk]]; [|eauto].
    apply lookup_lt_is_Some in Hlt as [old Hold]. exists old. by rewrite <- (Hst _ Hold). }
  split; [|split]; cbn.
  - intros k st' obj Hk Hw. rewrite Hq. destruct (Hold _ _ _ Hk Hw) as (? & ? & ?). eauto.
  - intros k l st1 st2 obj Hk Hl Hw1 Hw2.
    destruct (Hold _ _ _ Hk Hw1) as (? & ? & ?), (Hold _ _ _ Hl Hw2) as (? & ? & ?). eauto.
  - intros k st' [(-> & <- & _)|[_ Hk]]%list_lookup_insert_Some; eauto.
Qed.

(** So does one where a worker takes an item nobody holds. *)
Lemma workers_inv_take s i obj q :
  workers_inv s → obj ∉ q_processing (wk_queue s) →
  q_processing q = q_processing (wk_queue s) ∪ {[obj]} →
  workers_inv (set_worker i (Reconciling obj) q s).
Proof.
  intros (Hp & Hu & Hd) Hn Hq.
  assert (Hcase : ∀ k st' obj', <[i:=Reconciling obj]> (wk_workers s) !! k = Some st' →
    working_on st' = Some obj' →
    (k = i ∧ obj' = obj) ∨ (k ≠ i ∧ wk_workers s !! k = Some st' ∧ obj' ∈ q_processing (wk_queue s))).
  { intros k st' obj' [(-> & <- & _)|[Hne Hk]]%list_lookup_insert_Some Hw.
    - cbn in Hw. injection Hw as ->. by left.
    - right. eauto. }
  split; [|split]; cbn.
  - intros k st' obj' Hk Hw. rewrite Hq.
    destruct (Hcase _ _ _ Hk Hw) as [[_ ->]|(_ & _ & ?)]; set_solver.
  - intros k l st1 st2 obj' Hk Hl Hw1 Hw2.
    destruct (Hcase _ _ _ Hk Hw1) as [[-> ->]|(_ & Hk' & Hin1)],
      (Hcase _ _ _ Hl Hw2) as [[-> ?]|(_ & Hl' & Hin2)]; [done|done| |eauto].
    congruence.
  - intros k st' [(-> & <- & _)|[_ Hk]]%list_lookup_insert_Some; [constructor|eauto].
Qed.

(** And one where a worker gives its item back. *)
Lemma workers_inv_done s i obj q :
  workers_inv s → wk_workers s !! i = Some (Finishing obj []) →
  q_processing q = q_processing (wk_queue s) ∖ {[obj]} →
  workers_inv (set_worker i Idle q s).
Proof.
  intros (Hp & Hu & Hd) Hi Hq.
  assert (Hcase : ∀ k st' obj', <[i:=Idle]> (wk_workers s) !! k = Some st' →
    working_on st' = Some obj' → k ≠ i ∧ wk_workers s !! k = Some st').
  { intros k st' obj' [(-> & <- & _)|[Hne Hk]]%list_lookup_insert_Some Hw; [done|auto]. }
  split; [|split]; cbn.
  - intros k st' obj' Hk Hw. destruct (Hcase _ _ _ Hk Hw) as [Hne Hk'].
    rewrite Hq, elem_of_difference, elem_of_singleton. split; [eauto|].
    intros ->. apply Hne. by eapply Hu.
  - intros k l st1 st2 obj' Hk Hl Hw1 Hw2.
    destruct (Hcase _ _ _ Hk Hw1), (Hcase _ _ _ Hl Hw2). eauto.
  - intros k st' [(-> & <- & _)|[_ Hk]]%list_lookup_insert_Some; [constructor|eauto].
Qed.

Lemma calls_after_not_done obj res : Forall not_done (calls_after obj res).
Proof.
  destruct obj as [r|d], res as [result [e|]]; cbn; try (by repeat constructor).
  case_decide; [by repeat constructor|]. destruct (r_Requeue result); by repeat constructor.
Qed.

Lemma run_not_done c q : not_done c → q_processing (run_call c q) = q_processing q.
Proof. intros Hc. rewrite q_call_processing. destruct c as [| | | |j|]; try done. by destruct (Hc j). Qed.

Lemma workers_step_inv s s' : workers_inv s → workers_step s s' → workers_inv s'.
Proof.
  intros Hinv Hstep. pose proof Hinv as (Hp & Hu & Hd).
  destruct Hstep as [i obj q Hi Hg|i q Hi Hg|i obj res Hi|i obj c calls Hi|i obj Hi|c Hc].
  - destruct (q_Get_item _ _ _ Hg) as (? & ? & _). by apply workers_inv_take.
  - apply workers_inv_same_items; [done|by intros old [= <-]%(eq_trans (eq_sym Hi))|constructor|].
    by apply q_Get_shutdown.
  - apply workers_inv_same_items; [done|by intros old [= <-]%(eq_trans (eq_sym Hi))| |done].
    apply calls_after_not_done.
  - pose proof (Hd _ _ Hi) as [Hc Hcalls]%Forall_cons.
    apply workers_inv_same_items; [done|by intros old [= <-]%(eq_trans (eq_sym Hi))|done|].
    by apply run_not_done.
  - eapply workers_inv_done; [done|done|]. by rewrite q_call_processing.
  - split; [|by split]. cbn. intros i st obj Hi Hw. rewrite run_not_done by done. eauto.
Qed.

Lemma workers_steps_inv s s' : rtc workers_step s s' → workers_inv s → workers_inv s'.
Proof. induction 1; [done|]. eauto using workers_step_inv. Qed.

Lemma workers_inv_init n q0 : workers_inv (mkWorkers q0 (replicate n Idle)).
Proof.
  split; [|split]; cbn.
  - by intros i st obj [-> _]%lookup_replicate.
  - by intros i j st st' obj [-> _]%lookup_replicate.
  - intros i st [-> _]%lookup_replicate. constructor.
Qed.

(** C1: however the workers of a controller, its event handlers and the
    queue's shutdown interleave, no two workers ever hold the same item: the
    reconciler is never called for a request while another call for it is
    running, or before that call's results are on the queue and [Done] has
    been called.  An item a worker holds is one the queue knows to be in
    processing. *)
Theorem no_concurrent_reconciles (n : nat) q0 s i j st st' obj :
  rtc workers_step (mkWorkers q0 (replicate n Idle)) s →
  wk_workers s !! i = Some st → wk_workers s !! j = Some st' →
  working_on st = Some obj → working_on st' = Some obj →
  i = j ∧ obj ∈ q_processing (wk_queue s).
Proof.
  intros Hsteps Hi Hj Hw Hw'.
  destruct (workers_steps_inv _ _ Hsteps (workers_inv_init n q0)) as (Hp & Hu & _).
  split; eauto.
Qed.
End workers.
