(* ===== verification/ControllerStop.v ===== *)
(** * The end of a controller (src/pkg/internal/controller/controller.go)

    [Start] from the launch of the workers on: the goroutine that shuts the queue
    down when the context is done, the workers that drain it, and the wait for all
    of them.  What the workers do is Controller's. *)

From S2P Require Export Controller.

(** What a work queue promises about its end ([k8s.io/client-go/util/workqueue]):
    once it is shut down it takes no new items, [Get] never blocks, and hands out
    what is left before it says that it is shut down.  [q_waiting] counts the items
    that are still to be handed out. *)
Class ShutDownLaws (Q : Type) `{WorkQueueLaws Q} := {
  q_ShuttingDown : Q → bool;
  q_waiting : Q → nat;
  q_call_ShuttingDown : ∀ c q,
    q_ShuttingDown (run_call c q) = match c with CallShutDown => true | _ => q_ShuttingDown q end;
  q_Get_ShuttingDown : ∀ q i q', q_Get q = Some (i, q') → q_ShuttingDown q' = q_ShuttingDown q;
  q_Get_says_so : ∀ q q', q_Get q = Some (None, q') → q_ShuttingDown q = true;
  q_Get_answers : ∀ q, q_ShuttingDown q = true → is_Some (q_Get q);
  q_call_waiting : ∀ c q, q_ShuttingDown q = true → (∀ i, c = CallDone i → i ∈ q_processing q) →
    q_waiting (run_call c q) <= q_waiting q;
  q_Get_waiting : ∀ q i q', q_Get q = Some (Some i, q') → q_waiting q' < q_waiting q;
  q_Get_none_waiting : ∀ q q', q_Get q = Some (None, q') → q_waiting q' <= q_waiting q;
}.

Section stop.
Context `{ShutDownLaws Q}.

(** The workers with the queue; whether the context is done, the queue was told to
    shut down, and [Start] has returned. *)
Record ControllerRun := mkControllerRun {
  cr_workers : WorkersState (Q := Q);
  cr_ctx_done : bool;
  cr_shut_down : bool;
  cr_returned : bool;
}.
Implicit Types s : ControllerRun.

Definition launched (n : nat) (q0 : Q) : ControllerRun := mkControllerRun (mkWorkers q0 (replicate n Idle)) false false false.

(** An event handler's calls. *)
Definition adds_item (c : QueueCall) : bool :=
  match c with CallAdd _ | CallAddAfter _ _ | CallAddRateLimited _ => true | _ => false end.

(** The label tells whether a worker made the step: the steps of workers are those
    that change where a worker is. *)
Inductive ctrl_step : bool → ControllerRun → ControllerRun → Prop :=
  | ctrl_worker s ws :
      workers_step (cr_workers s) ws → wk_workers ws ≠ wk_workers (cr_workers s) →
      ctrl_step true s (mkControllerRun ws (cr_ctx_done s) (cr_shut_down s) (cr_returned s))
  | ctrl_event s c :
      adds_item c = true →
      ctrl_step false s (mkControllerRun (mkWorkers (run_call c (wk_queue (cr_workers s))) (wk_workers (cr_workers s)))
                          (cr_ctx_done s) (cr_shut_down s) (cr_returned s))
  | ctrl_ctx_done s : ctrl_step false s (mkControllerRun (cr_workers s) true (cr_shut_down s) (cr_returned s))
  | ctrl_shut_down s :
      cr_ctx_done s = true → cr_shut_down s = false →
      ctrl_step false s (mkControllerRun (mkWorkers (run_call CallShutDown (wk_queue (cr_workers s))) (wk_workers (cr_workers s)))
                          true true (cr_returned s))
  (** [wg.Wait()] returns when the workers are gone. *)
  | ctrl_return s :
      cr_ctx_done s = true → Forall (λ st, st = Stopped) (wk_workers (cr_workers s)) →
      ctrl_step false s (mkControllerRun (cr_workers s) (cr_ctx_done s) (cr_shut_down s) true).

(** A run, with the number of steps of workers in it. *)
Inductive ctrl_steps : nat → ControllerRun → ControllerRun → Prop :=
  | ctrl_refl s : ctrl_steps 0 s s
  | ctrl_l (b : bool) k s1 s2 s3 :
      ctrl_step b s1 s2 → ctrl_steps k s2 s3 → ctrl_steps ((if b then 1 else 0) + k) s1 s3.

(** ** What holds in every state *)

Record ctrl_inv (n : nat) s : Prop := {
  ri_workers : workers_inv (cr_workers s);
  ri_length : length (wk_workers (cr_workers s)) = n;
  ri_held : ∀ obj, obj ∈ q_processing (wk_queue (cr_workers s)) →
              ∃ i st, wk_workers (cr_workers s) !! i = Some st ∧ working_on st = Some obj;
  ri_calls : ∀ i st, wk_workers (cr_workers s) !! i = Some st → CallShutDown ∉ calls_left st;
  ri_ctx : cr_shut_down s = true → cr_ctx_done s = true;
  ri_down : q_ShuttingDown (wk_queue (cr_workers s)) = cr_shut_down s;
  ri_stopped : ∀ i, wk_workers (cr_workers s) !! i = Some Stopped → cr_shut_down s = true;
  ri_returned : cr_returned s = true → cr_ctx_done s = true ∧ Forall (λ st, st = Stopped) (wk_workers (cr_workers s));
}.

Lemma calls_after_short obj res : length (calls_after obj res) <= 2 ∧ CallShutDown ∉ calls_after obj res.
Proof.
  destruct obj as [r|d], res as [result [e|]]; cbn; try (split; [lia|set_solver]).
  case_decide; [split; cbn; [lia|set_solver]|]. destruct (r_Requeue result); split; cbn; (lia || set_solver).
Qed.

(** The work left to a worker in a queue that is shut down. *)
Definition work_left (st : WorkerStatus) : nat :=
  match st with
  | Idle => 1
  | Reconciling _ => 5
  | Finishing _ calls => 2 + length calls
  | Stopped => 0
  end.

Definition total_work (ws : WorkersState (Q := Q)) : nat :=
  6 * q_waiting (wk_queue ws) + sum_list_with work_left (wk_workers ws).

Lemma sum_insert i st old (l : list WorkerStatus) :
  l !! i = Some old → sum_list_with work_left (<[i := st]> l) + work_left old = sum_list_with work_left l + work_left st.
Proof. revert i. induction l as [|x l IH]; intros [|i]; cbn; [done..|intros [= ->]; lia|]. intros Hi. specialize (IH _ Hi). unfold insert in *. lia. Qed.

(** The five steps a worker makes: from one place to the next, with what becomes of
    the queue. *)
Inductive worker_move (q : Q) : WorkerStatus → WorkerStatus → Q → Prop :=
  | move_Get obj q' : q_Get q = Some (Some obj, q') → worker_move q Idle (Reconciling obj) q'
  | move_Get_shutdown q' : q_Get q = Some (None, q') → worker_move q Idle Stopped q'
  | move_reconciled obj res : worker_move q (Reconciling obj) (Finishing obj (calls_after obj res)) q
  | move_call obj c calls : worker_move q (Finishing obj (c :: calls)) (Finishing obj calls) (run_call c q)
  | move_Done obj : worker_move q (Finishing obj []) Idle (run_call (CallDone obj) q).

Lemma worker_moves ws ws' :
  workers_step ws ws' → wk_workers ws' ≠ wk_workers ws →
  ∃ i old st q, wk_workers ws !! i = Some old ∧ worker_move (wk_queue ws) old st q ∧ ws' = set_worker i st q ws.
Proof.
  intros Hstep Hne. destruct Hstep as [i obj q Hi Hg|i q Hi Hg|i obj res Hi|i obj c calls Hi|i obj Hi|c Hc]; [..|done];
    eexists i, _, _, _; (split; [exact Hi|]); (split; [by econstructor|done]).
Qed.

Lemma move_step ws i old st q :
  wk_workers ws !! i = Some old → worker_move (wk_queue ws) old st q → workers_step ws (set_worker i st q ws).
Proof. intros Hi Hm. destruct Hm; by econstructor. Qed.

Lemma move_differs q old st q' : worker_move q old st q' → st ≠ old.
Proof.
  intros Hm Heq. destruct Hm; try discriminate. injection Heq as Hc. apply (f_equal length) in Hc. cbn in Hc. lia.
Qed.

(** What is in processing after a move: what was, less what was done, and what was
    taken. *)
Lemma move_held q old st q' obj :
  worker_move q old st q' → Forall not_done (calls_left old) →
  obj ∈ q_processing q' → working_on st = Some obj ∨ (obj ∈ q_processing q ∧ working_on old ≠ Some obj).
Proof.
  intros Hm Hcalls Hin. destruct Hm as [obj' q' Hg|q' Hg|obj' res|obj' c calls|obj'].
  - destruct (q_Get_item _ _ _ Hg) as (_ & Heq & _). rewrite Heq in Hin. cbn. set_solver.
  - rewrite (q_Get_shutdown _ _ Hg) in Hin. by right.
  - destruct (decide (obj = obj')) as [->|Hne]; [by left|right; split; [done|]]. intros [= ->]. done.
  - apply Forall_cons in Hcalls as [Hc _]. rewrite run_not_done in Hin by done.
    destruct (decide (obj = obj')) as [->|Hne]; [by left|right; split; [done|]]. intros [= ->]. done.
  - rewrite q_call_processing in Hin. right. split; [set_solver|]. intros [= ->]. set_solver.
Qed.

Lemma move_down q old st q' :
  worker_move q old st q' → CallShutDown ∉ calls_left old → q_ShuttingDown q' = q_ShuttingDown q.
Proof.
  intros Hm Hc. destruct Hm as [obj' q' Hg|q' Hg|obj' res|obj' c calls|obj'].
  - by eapply q_Get_ShuttingDown.
  - by eapply q_Get_ShuttingDown.
  - done.
  - rewrite q_call_ShuttingDown. destruct c; try done. destruct Hc. by left.
  - by rewrite q_call_ShuttingDown.
Qed.

Lemma move_calls q old st q' : worker_move q old st q' → CallShutDown ∉ calls_left old → CallShutDown ∉ calls_left st.
Proof.
  intros Hm Hc. destruct Hm; cbn in *; try (intros ?%elem_of_nil; done).
  - apply calls_after_short.
  - intros Hin. apply Hc. by right.
Qed.

(** In a queue that is shut down every move leaves less work. *)
Lemma move_works q old st q' :
  worker_move q old st q' → q_ShuttingDown q = true → (∀ obj, working_on old = Some obj → obj ∈ q_processing q) →
  Forall not_done (calls_left old) →
  6 * q_waiting q' + work_left st < 6 * q_waiting q + work_left old.
Proof.
  intros Hm Hdown Hwork Hcalls. destruct Hm as [obj' q' Hg|q' Hg|obj' res|obj' c calls|obj']; cbn [work_left].
  - apply q_Get_waiting in Hg. lia.
  - apply q_Get_none_waiting in Hg. lia.
  - destruct (calls_after_short obj' res). lia.
  - apply Forall_cons in Hcalls as [Hc _].
    assert (q_waiting (run_call c q) <= q_waiting q) by (apply q_call_waiting; [done|]; intros j ->; by destruct (Hc j)).
    cbn. lia.
  - assert (q_waiting (run_call (CallDone obj') q) <= q_waiting q)
      by (apply q_call_waiting; [done|]; intros j [= <-]; by apply Hwork).
    cbn. lia.
Qed.

Lemma ctrl_inv_worker n s ws :
  ctrl_inv n s → workers_step (cr_workers s) ws → wk_workers ws ≠ wk_workers (cr_workers s) →
  ctrl_inv n (mkControllerRun ws (cr_ctx_done s) (cr_shut_down s) (cr_returned s))
  ∧ (cr_shut_down s = true → total_work ws < total_work (cr_workers s)).
Proof.
  intros [Hinv Hlen Hheld Hcalls Hctx Hdown Hstop Hret] Hstep Hne.
  pose proof (workers_step_inv _ _ Hinv Hstep) as Hinv'.
  destruct (worker_moves _ _ Hstep Hne) as (i & old & st & q & Hi & Hm & ->).
  destruct Hinv as (Hp & Hu & Hnd). pose proof (Hnd _ _ Hi) as Hndi. split.
  - split; cbn; [done|by rewrite length_insert|..|done| | |].
    + intros obj Hobj. destruct (move_held _ _ _ _ _ Hm Hndi Hobj) as [Hw|[Hin Hw]].
      * exists i, st. split; [|done]. apply list_lookup_insert_eq. by eapply lookup_lt_Some.
      * destruct (Hheld _ Hin) as (j & st' & Hj & Hw'). exists j, st'. split; [|done].
        rewrite list_lookup_insert_ne; [done|]. intros ->. rewrite Hi in Hj. injection Hj as ->. done.
    + intros j st' [(-> & <- & _)|[_ Hj]]%list_lookup_insert_Some; [|by eapply Hcalls].
      eapply move_calls; [done|]. by eapply Hcalls.
    + rewrite <- Hdown. eapply move_down; [done|]. by eapply Hcalls.
    + intros j [(-> & Heq & _)|[_ Hj]]%list_lookup_insert_Some; [|by eapply Hstop].
      destruct Hm; try discriminate. rewrite <- Hdown. by eapply q_Get_says_so.
    + intros Hr. destruct (Hret Hr) as [_ Hall]. rewrite Forall_lookup in Hall. specialize (Hall _ _ Hi). subst old. inversion Hm.
  - intros Hsd. unfold total_work. cbn. pose proof (sum_insert i st old _ Hi).
    assert (6 * q_waiting q + work_left st < 6 * q_waiting (wk_queue (cr_workers s)) + work_left old); [|lia].
    eapply move_works; [done|by rewrite Hdown| |done]. intros obj Hw. by eapply Hp.
Qed.

Lemma adds_item_not_done c : adds_item c = true → not_done c ∧ c ≠ CallShutDown.
Proof. by destruct c. Qed.

(** A call that is not of a worker. *)
Lemma ctrl_inv_call n s c (ctx down : bool) :
  ctrl_inv n s → not_done c → (cr_ctx_done s = true → ctx = true) → (cr_shut_down s = true → down = true) →
  (down = true → ctx = true) → q_ShuttingDown (run_call c (wk_queue (cr_workers s))) = down →
  ctrl_inv n (mkControllerRun (mkWorkers (run_call c (wk_queue (cr_workers s))) (wk_workers (cr_workers s))) ctx down (cr_returned s)).
Proof.
  intros [Hinv Hlen Hheld Hcalls Hctx Hdown Hstop Hret] Hc Hctx' Hdown' Hdc Hq.
  split; cbn; try done.
  - eapply workers_step_inv; [exact Hinv|]. apply step_environment. exact Hc.
  - rewrite run_not_done by done. apply Hheld.
  - intros i Hi. eapply Hdown', Hstop, Hi.
  - intros Hr. destruct (Hret Hr). auto.
Qed.

Lemma ctrl_step_inv n b s s' : ctrl_inv n s → ctrl_step b s s' → ctrl_inv n s'.
Proof.
  intros Hinv Hstep. destruct Hstep as [s ws Hw Hne|s c Hc|s|s Hctx Hsd|s Hctx Hall].
  - by apply ctrl_inv_worker.
  - apply adds_item_not_done in Hc as [Hnd Hns]. apply ctrl_inv_call; auto; [apply Hinv|].
    rewrite q_call_ShuttingDown, (ri_down _ _ Hinv). by destruct c.
  - destruct Hinv as [Hw Hlen Hheld Hcalls Hc Hdown Hstop Hret]. split; cbn; try done. intros Hr. by destruct (Hret Hr).
  - apply ctrl_inv_call; try done. by rewrite q_call_ShuttingDown.
  - destruct Hinv as [Hw Hlen Hheld Hcalls Hc Hdown Hstop Hret]. by split.
Qed.

Lemma ctrl_steps_inv n k s s' : ctrl_steps k s s' → ctrl_inv n s → ctrl_inv n s'.
Proof. induction 1 as [|b k s1 s2 s3 Hstep _ IH]; [done|]. intros Hinv. by eapply IH, ctrl_step_inv. Qed.

Lemma launched_inv n q0 : q_processing q0 = ∅ → q_ShuttingDown q0 = false → ctrl_inv n (launched n q0).
Proof.
  intros Hp Hd. split; cbn; try done.
  - apply workers_inv_init.
  - by rewrite length_replicate.
  - rewrite Hp. set_solver.
  - intros i st [-> _]%lookup_replicate. cbn. set_solver.
  - by intros i [? _]%lookup_replicate.
Qed.

Lemma all_stopped_or_not (l : list (WorkerStatus)) :
  Forall (λ st, st = Stopped) l ∨ ∃ i st, l !! i = Some st ∧ st ≠ Stopped.
Proof.
  induction l as [|st l [IH|(i & st' & Hi & Hst)]]; [left; constructor| |right; by exists (S i), st'].
  destruct st; [right; exists 0; by eexists..|left; by constructor].
Qed.

(** A worker that is not gone can go on in a queue that is shut down. *)
Lemma worker_can_move q old : q_ShuttingDown q = true → old ≠ Stopped → ∃ st q', worker_move q old st q'.
Proof.
  intros Hdown Hold. destruct old as [|obj|obj [|c calls]|]; [| | | |done].
  - destruct (q_Get_answers _ Hdown) as [[[obj|] q'] Hg]; eexists _, _; [by apply move_Get|by apply move_Get_shutdown].
  - eexists _, _. by apply (move_reconciled _ obj (mkResult false 0, None)).
  - eexists _, _. apply move_Done.
  - eexists _, _. apply move_call.
Qed.

(** A run that begins with a move of a worker. *)
Lemma ctrl_move i k s s' old st q :
  wk_workers (cr_workers s) !! i = Some old → worker_move (wk_queue (cr_workers s)) old st q →
  ctrl_steps k (mkControllerRun (set_worker i st q (cr_workers s)) (cr_ctx_done s) (cr_shut_down s) (cr_returned s)) s' →
  ctrl_steps (S k) s s'.
Proof.
  intros Hi Hm Hsteps. eapply (ctrl_l true); [|exact Hsteps]. apply ctrl_worker; [by eapply move_step|]. cbn. intros Heq.
  apply (f_equal (λ l, l !! i)) in Heq. rewrite list_lookup_insert_eq, Hi in Heq by by eapply lookup_lt_Some.
  injection Heq as Heq. by eapply move_differs.
Qed.

(** ** The end *)

(** C34: When [Start] has returned its context is done, every worker is gone, and every
    item that was handed out was given back: no call of the reconciler is running
    or still to be reported to the queue. *)
Theorem Start_returns_when_workers_are_gone n q0 k s :
  q_processing q0 = ∅ → q_ShuttingDown q0 = false → ctrl_steps k (launched n q0) s → cr_returned s = true →
  cr_ctx_done s = true ∧ length (wk_workers (cr_workers s)) = n
  ∧ Forall (λ st, st = Stopped) (wk_workers (cr_workers s)) ∧ q_processing (wk_queue (cr_workers s)) = ∅
  ∧ (0 < n → q_ShuttingDown (wk_queue (cr_workers s)) = true).
Proof.
  intros Hp Hd Hsteps Hr. pose proof (ctrl_steps_inv _ _ _ _ Hsteps (launched_inv n q0 Hp Hd)) as Hinv.
  destruct (ri_returned _ _ Hinv Hr) as [Hctx Hall]. split_and!; [done|apply Hinv|done|..].
  - apply set_eq. intros obj. split; [|by intros ?%not_elem_of_empty].
    intros (i & st & Hi & Hw)%(ri_held _ _ Hinv). rewrite Forall_lookup in Hall. by rewrite (Hall _ _ Hi) in Hw.
  - intros Hn. rewrite (ri_down _ _ Hinv). apply (ri_stopped _ _ Hinv 0).
    rewrite Forall_lookup in Hall. destruct (lookup_lt_is_Some_2 (wk_workers (cr_workers s)) 0) as [st Hst];
      [by rewrite (ri_length _ _ Hinv)|]. by rewrite (Hall _ _ Hst) in Hst.
Qed.

(** C30: Once the queue is shut down the workers can make only so many steps, however
    many events still come, and until all are gone one of them can make one; then
    [Start] can return. *)
Theorem workers_drain_and_end n q0 k k' s s' :
  q_processing q0 = ∅ → q_ShuttingDown q0 = false → ctrl_steps k (launched n q0) s → cr_shut_down s = true →
  ctrl_steps k' s s' →
  k' + total_work (cr_workers s') <= total_work (cr_workers s)
  ∧ ((∃ s'', ctrl_step true s' s'')
     ∨ (total_work (cr_workers s') = 6 * q_waiting (wk_queue (cr_workers s'))
        ∧ ctrl_step false s' (mkControllerRun (cr_workers s') (cr_ctx_done s') (cr_shut_down s') true))).
Proof.
  intros Hp Hd Hsteps Hsd Hsteps'. pose proof (ctrl_steps_inv _ _ _ _ Hsteps (launched_inv n q0 Hp Hd)) as Hinv.
  clear Hsteps Hp Hd. induction Hsteps' as [s|b k' s1 s2 s3 Hstep Hsteps' IH].
  - split; [lia|].
    destruct (all_stopped_or_not (wk_workers (cr_workers s))) as [Hall|(i & old & Hi & Hold)].
    + right. split; [|apply ctrl_return; [by eapply ri_ctx|done]]. unfold total_work.
      assert (sum_list_with work_left (wk_workers (cr_workers s)) = 0) as ->; [|lia].
      induction Hall as [|st l -> _ IHl]; [done|]. exact IHl.
    + left. destruct (worker_can_move (wk_queue (cr_workers s)) old) as (st & q & Hm);
        [by rewrite (ri_down _ _ Hinv)|done|].
      eexists. apply ctrl_worker; [by eapply move_step|]. cbn. intros Heq.
      apply (f_equal (λ l, l !! i)) in Heq. rewrite list_lookup_insert_eq, Hi in Heq by by eapply lookup_lt_Some.
      injection Heq as Heq. by eapply move_differs.
  - pose proof (ctrl_step_inv _ _ _ _ Hinv Hstep) as Hinv2.
    assert (cr_shut_down s2 = true ∧ (if b then 1 else 0) + total_work (cr_workers s2) <= total_work (cr_workers s1)) as [Hsd2 Hwork].
    { destruct Hstep as [s ws Hw Hne|s c Hc|s|s Hctx Hns|s Hctx Hall]; cbn [cr_workers cr_shut_down] in *; try (split; [done|lia]).
      - destruct (ctrl_inv_worker _ _ _ Hinv Hw Hne) as [_ Hlt]. specialize (Hlt Hsd). split; [done|lia].
      - apply adds_item_not_done in Hc as [Hnd _]. split; [done|]. unfold total_work. cbn.
        assert (q_waiting (run_call c (wk_queue (cr_workers s))) <= q_waiting (wk_queue (cr_workers s))); [|lia].
        apply q_call_waiting; [by rewrite (ri_down _ _ Hinv)|]. intros i ->. by destruct (Hnd i).
      - congruence. }
    destruct (IH Hsd2 Hinv2) as [Hle Hend]. split; [lia|done].
Qed.
End stop.
