(* ===== verification/Source.v ===== *)
(** * Event sources (src/pkg/source/source.go)

    A [Channel] takes events off one Go channel and hands each of them to
    every handler started on it, through one buffered channel per handler.  Its
    goroutines (the distributing loop and one consumer per handler), the
    sender, and the calls of [Start] are the steps of a relation, over a
    state that keeps what each handler has received.  [Kind] and [Informer]
    connect an informer to a handler. *)

From S2P Require Export Controller.

(** ** [Channel] *)

Section channel.
Context {Q : Type}.

(** A destination channel and the handler that consumes it.  [d_since], [d_taken]
    and [d_received] are bookkeeping: of how many events the distribution had
    begun, and how many had been taken off the source, when the destination was
    appended; and the events the handler has been handed. *)
Record Destination := mkDestination {
  d_handler : EventHandler Q;
  d_predicates : list Predicate;
  d_capacity : nat;
  d_buffer : list GenericEvent;
  d_closed : bool;
  d_since : nat;
  d_taken : nat;
  d_received : list GenericEvent;
}.

(** Where [syncLoop] is: in its [select]; about to take [destLock] in [distribute],
    with the event it has received, or in [doStop]; distributing, with
    [destLock] held. *)
Inductive LoopState :=
  | LoopNotStarted
  | LoopSelecting
  | LoopReceived (evt : GenericEvent)
  | LoopStopping
  | LoopDistributing (evt : GenericEvent) (next : nat)
  | LoopEnded
  | LoopPanicked.

(** [ch_pending] is what was sent on the source channel and not yet taken off
    it, [ch_taken] what was; [ch_ctx_done] is about the context of the first
    [Start], which the loop watches. *)
Record Channel := mkChannel {
  ch_Source : bool;
  ch_stop : bool;
  ch_DestBufferSize : Z;
  ch_once : bool;
  ch_dest : list Destination;
  ch_loop : LoopState;
  ch_pending : list GenericEvent;
  ch_source_closed : bool;
  ch_ctx_done : bool;
  ch_taken : list GenericEvent;
  ch_queue : Q;
}.


Definition defaultBufferSize : Z := 1024.


Definition err_no_source : error := ErrorString "must specify Channel.Source".
Definition err_no_stop : error := ErrorString "must call InjectStop on Channel before calling Start".

(** The events whose distribution has begun: those taken off the source, but for
    one the loop holds while it waits for [destLock]. *)
Definition begun (cs : Channel) : list GenericEvent :=
  match ch_loop cs with LoopReceived _ => removelast (ch_taken cs) | _ => ch_taken cs end.

(** [Start] up to the release of [destLock], when [destLock] is free; a negative
    buffer size makes [make] panic. *)
Definition start_register (cs : Channel) (handler : EventHandler Q) (prct : list Predicate)
    : outcome (Channel * option error) :=
  if negb (ch_Source cs) then Returned (cs, Some err_no_source)
  else if negb (ch_stop cs) then Returned (cs, Some err_no_stop)
  else
    let size := if decide (ch_DestBufferSize cs = 0)%Z then defaultBufferSize else ch_DestBufferSize cs in
    if decide (size < 0)%Z then Panicked "makechan: size out of range"
    else
      let dst := mkDestination handler prct (Z.to_nat size) [] false (length (begun cs))
                   (length (ch_taken cs)) [] in
      Returned
        (mkChannel (ch_Source cs) (ch_stop cs) size (ch_once cs) (ch_dest cs ++ [dst]) (ch_loop cs)
           (ch_pending cs) (ch_source_closed cs) (ch_ctx_done cs) (ch_taken cs) (ch_queue cs), None).

(** [once.Do]: the first one starts the loop. *)
Definition start_loop (cs : Channel) : Channel :=
  if ch_once cs then cs
  else mkChannel (ch_Source cs) (ch_stop cs) (ch_DestBufferSize cs) true (ch_dest cs) LoopSelecting
         (ch_pending cs) (ch_source_closed cs) (ch_ctx_done cs) (ch_taken cs) (ch_queue cs).

(** [Start], when nothing happens in between. *)
Definition Channel_Start (cs : Channel) (handler : EventHandler Q) (prct : list Predicate)
    : outcome (Channel * option error) :=
  '(cs, err) ← start_register cs handler prct;
  match err with
  | Some err => Returned (cs, Some err)
  | None => Returned (start_loop cs, None)
  end.









(** *** What every handler receives *)





















End channel.
Arguments Destination : clear implicits.
Arguments Channel : clear implicits.

(** ** [Kind], [NewKindWithCache] and [Informer] *)

Section kind.
(** The world the caches act on, the caches and the informers. *)
Context {Q W Cache Informer : Type}.
Variable GetInformer : Cache → Object → W → W * result Informer.
Variable AddEventHandler : Informer → SourceEventHandler Q → W → W.
Variable WaitForCacheSync : Cache → W → W * bool.

(** The channel [started] of a [Kind] and the goroutine that feeds it: not made
    yet; the goroutine is at work; it is sending an error, after which it
    closes the channel or just ends; it has ended without closing it; the
    channel is closed. *)
Inductive StartedChannel :=
  | NotMade
  | Working
  | Sending (err : error) (close_after : bool)
  | Abandoned
  | Closed.

Record Kind := mkKind { k_Type : option Object; k_cache : option Cache; k_started : StartedChannel }.

Definition set_started (st : StartedChannel) (ks : Kind) : Kind := mkKind (k_Type ks) (k_cache ks) st.

Definition err_no_type : error := ErrorString "must specify Kind.Type".
Definition err_no_cache : error := ErrorString "must call CacheInto on Kind before calling Start".
Definition err_not_synced : error := ErrorString "cache did not sync".
Definition err_sync_timeout : error := ErrorString "timed out waiting for cache to be synced".

Definition Kind_Start (ks : Kind) : Kind * option error :=
  match k_Type ks with
  | None => (ks, Some err_no_type)
  | Some _ =>
      match k_cache ks with
      | None => (ks, Some err_no_cache)
      | Some _ => (set_started Working ks, None)
      end
  end.

(** The goroutine, up to where it blocks on the channel or ends. *)
Definition Kind_goroutine (handler : EventHandler Q) (prct : list Predicate) (ks : Kind) (w : W)
    : Kind * W :=
  match k_Type ks, k_cache ks with
  | Some ty, Some c =>
      match GetInformer c ty w with
      | (w, Err err) => (set_started (Sending err false) ks, w)
      | (w, Ok i) =>
          let w := AddEventHandler i (mkSourceHandler handler prct) w in
          let '(w, synced) := WaitForCacheSync c w in
          if (synced : bool) then (set_started Closed ks, w)
          else (set_started (Sending err_not_synced true) ks, w)
      end
  | _, _ => (ks, w)
  end.

(** [select]: [ctx_branch] says whether the branch of the done context is taken;
    [None] when it is not and nothing can be received.  The last component says
    whether [startCancel] was called. *)
Definition Kind_WaitForSync (ctx_branch : bool) (ks : Kind) : option (Kind * option error * bool) :=
  if ctx_branch then Some (ks, Some err_sync_timeout, true)
  else match k_started ks with
  | Sending err true => Some (set_started Closed ks, Some err, false)
  | Sending err false => Some (set_started Abandoned ks, Some err, false)
  | Closed => Some (ks, None, false)
  | NotMade | Working | Abandoned => None
  end.

Definition InjectCache (c : Cache) (ks : Kind) : Kind :=
  match k_cache ks with
  | None => mkKind (k_Type ks) (Some c) (k_started ks)
  | Some _ => ks
  end.

(** The kind inside is not reachable for injection. *)
Record kindWithCache := mkKindWithCache { kwc_kind : Kind }.

Definition NewKindWithCache (object : Object) (cache : Cache) : kindWithCache :=
  mkKindWithCache (mkKind (Some object) (Some cache) NotMade).
Definition kindWithCache_Start (ks : kindWithCache) : kindWithCache * option error :=
  let '(k, err) := Kind_Start (kwc_kind ks) in (mkKindWithCache k, err).
Definition kindWithCache_WaitForSync (ctx_branch : bool) (ks : kindWithCache)
    : option (kindWithCache * option error * bool) :=
  '(k, err, cancelled) ← Kind_WaitForSync ctx_branch (kwc_kind ks);
  Some (mkKindWithCache k, err, cancelled).

Definition err_no_informer : error := ErrorString "must specify Informer.Informer".

Definition Informer_Start (informer : option Informer) (handler : EventHandler Q) (prct : list Predicate)
    (w : W) : W * option error :=
  match informer with
  | None => (w, Some err_no_informer)
  | Some i => (AddEventHandler i (mkSourceHandler handler prct) w, None)
  end.

End kind.
