(* ===== verification/ManagerOptions.v ===== *)
(** * Manager options and the configuration file

    The options of src/pkg/manager/manager.go that [AndFrom] merges with a
    configuration file (src/pkg/config/v1alpha1/types.go) and
    [setOptionsDefaults] fills in, and the loader of the file
    (src/pkg/config/config.go).  Fields of [Options] that neither function
    reads or writes are left out. *)

From S2P Require Export Objects.

(** ** The configuration file *)

(** [LeaderElectionConfiguration] of component-base; a zero duration stands for
    one that is not set. *)
Record LeaderElectionConfiguration := mkLeaderElectionConfiguration {
  le_LeaderElect : option bool;
  le_LeaseDuration : Z;
  le_RenewDeadline : Z;
  le_RetryPeriod : Z;
  le_ResourceLock : string;
  le_ResourceName : string;
  le_ResourceNamespace : string;
}.

Record ControllerConfigurationSpec := mkControllerConfigurationSpec {
  cc_GroupKindConcurrency : gmap string Z;
  cc_CacheSyncTimeout : option Z;
}.

Record ControllerManagerConfigurationSpec := mkConfigSpec {
  cfg_SyncPeriod : option Z;
  cfg_LeaderElection : option LeaderElectionConfiguration;
  cfg_CacheNamespace : string;
  cfg_GracefulShutdownTimeout : option Z;
  cfg_Controller : option ControllerConfigurationSpec;
  cfg_Metrics_BindAddress : string;
  cfg_HealthProbeBindAddress : string;
  cfg_ReadinessEndpointName : string;
  cfg_LivenessEndpointName : string;
  cfg_Webhook_Port : option Z;
  cfg_Webhook_Host : string;
  cfg_Webhook_CertDir : string;
}.

(** ** The options *)

Section manager_options.
(** The types of the fields that hold functions, loggers and broadcasters. *)
Context {SchemeRef Logger Broadcaster Producer NewProvider NewLock NewListener : Type}.

Record ManagerOptions := mkManagerOptions {
  mo_Scheme : option SchemeRef;
  mo_SyncPeriod : option Z;
  mo_Logger : option Logger;
  mo_LeaderElection : bool;
  mo_LeaderElectionResourceLock : string;
  mo_LeaderElectionNamespace : string;
  mo_LeaderElectionID : string;
  mo_LeaseDuration : option Z;
  mo_RenewDeadline : option Z;
  mo_RetryPeriod : option Z;
  mo_Namespace : string;
  mo_MetricsBindAddress : string;
  mo_HealthProbeBindAddress : string;
  mo_ReadinessEndpointName : string;
  mo_LivenessEndpointName : string;
  mo_Port : Z;
  mo_Host : string;
  mo_CertDir : string;
  mo_EventBroadcaster : option Broadcaster;
  mo_GracefulShutdownTimeout : option Z;
  mo_Controller : ControllerConfigurationSpec;
  mo_makeBroadcaster : option Producer;
  mo_newRecorderProvider : option NewProvider;
  mo_newResourceLock : option NewLock;
  mo_newMetricsListener : option NewListener;
  mo_newHealthProbeListener : option NewListener;
}.

Definition str_or (o c : string) : string := if decide (o = "" ∧ c ≠ "") then c else o.

(** A duration of the file counts as set when it is not zero. *)
Definition duration_or (o : option Z) (c : Z) : option Z :=
  match o with
  | None => if decide (c ≠ 0%Z) then Some c else None
  | Some d => Some d
  end.

(** [setLeaderElectionConfig]: a field of [obj.LeaderElection] is read when the
    option it could set is not set; with a nil pointer that read panics. *)
Definition setLeaderElectionConfig (o : ManagerOptions) (obj : ControllerManagerConfigurationSpec)
    : outcome ManagerOptions :=
  match cfg_LeaderElection obj with
  | None =>
      if decide (mo_LeaderElection o = true ∧ mo_LeaderElectionResourceLock o ≠ ""
                 ∧ mo_LeaderElectionNamespace o ≠ "" ∧ mo_LeaderElectionID o ≠ ""
                 ∧ mo_LeaseDuration o ≠ None ∧ mo_RenewDeadline o ≠ None ∧ mo_RetryPeriod o ≠ None)
      then Returned o
      else Panicked "invalid memory address or nil pointer dereference"
  | Some le =>
      Returned (mkManagerOptions
        (mo_Scheme o) (mo_SyncPeriod o) (mo_Logger o)
        (if mo_LeaderElection o then true
         else match le_LeaderElect le with Some b => b | None => false end)
        (str_or (mo_LeaderElectionResourceLock o) (le_ResourceLock le))
        (str_or (mo_LeaderElectionNamespace o) (le_ResourceNamespace le))
        (str_or (mo_LeaderElectionID o) (le_ResourceName le))
        (duration_or (mo_LeaseDuration o) (le_LeaseDuration le))
        (duration_or (mo_RenewDeadline o) (le_RenewDeadline le))
        (duration_or (mo_RetryPeriod o) (le_RetryPeriod le))
        (mo_Namespace o) (mo_MetricsBindAddress o) (mo_HealthProbeBindAddress o)
        (mo_ReadinessEndpointName o) (mo_LivenessEndpointName o) (mo_Port o) (mo_Host o) (mo_CertDir o)
        (mo_EventBroadcaster o) (mo_GracefulShutdownTimeout o) (mo_Controller o) (mo_makeBroadcaster o)
        (mo_newRecorderProvider o) (mo_newResourceLock o) (mo_newMetricsListener o)
        (mo_newHealthProbeListener o))
  end.

Definition opt_or (o c : option Z) : option Z := match o with None => c | Some d => Some d end.

Definition controller_config_or (o : ControllerConfigurationSpec) (c : option ControllerConfigurationSpec)
    : ControllerConfigurationSpec :=
  match c with
  | None => o
  | Some c =>
      mkControllerConfigurationSpec
        (if decide (cc_GroupKindConcurrency o = ∅ ∧ cc_GroupKindConcurrency c ≠ ∅)
         then cc_GroupKindConcurrency c else cc_GroupKindConcurrency o)
        (opt_or (cc_CacheSyncTimeout o) (cc_CacheSyncTimeout c))
  end.

(** [AndFrom]; [loader] is the result of injecting the scheme, if the loader
    wants one, and of [Complete]. *)
Definition AndFrom (o : ManagerOptions) (inject : option SchemeRef → option error)
    (complete : result ControllerManagerConfigurationSpec) : outcome (ManagerOptions * option error) :=
  match inject (mo_Scheme o) with
  | Some err => Returned (o, Some err)
  | None =>
      match complete with
      | Err err => Returned (o, Some err)
      | Ok newObj =>
          o ← setLeaderElectionConfig o newObj;
          Returned (mkManagerOptions
            (mo_Scheme o) (opt_or (mo_SyncPeriod o) (cfg_SyncPeriod newObj)) (mo_Logger o)
            (mo_LeaderElection o) (mo_LeaderElectionResourceLock o) (mo_LeaderElectionNamespace o)
            (mo_LeaderElectionID o) (mo_LeaseDuration o) (mo_RenewDeadline o) (mo_RetryPeriod o)
            (str_or (mo_Namespace o) (cfg_CacheNamespace newObj))
            (str_or (mo_MetricsBindAddress o) (cfg_Metrics_BindAddress newObj))
            (str_or (mo_HealthProbeBindAddress o) (cfg_HealthProbeBindAddress newObj))
            (str_or (mo_ReadinessEndpointName o) (cfg_ReadinessEndpointName newObj))
            (str_or (mo_LivenessEndpointName o) (cfg_LivenessEndpointName newObj))
            (if decide (mo_Port o = 0%Z) then default (mo_Port o) (cfg_Webhook_Port newObj) else mo_Port o)
            (str_or (mo_Host o) (cfg_Webhook_Host newObj))
            (str_or (mo_CertDir o) (cfg_Webhook_CertDir newObj))
            (mo_EventBroadcaster o) (mo_GracefulShutdownTimeout o)
            (controller_config_or (mo_Controller o) (cfg_Controller newObj)) (mo_makeBroadcaster o)
            (mo_newRecorderProvider o) (mo_newResourceLock o) (mo_newMetricsListener o)
            (mo_newHealthProbeListener o), None)
      end
  end.

Definition AndFromOrDie (o : ManagerOptions) (inject : option SchemeRef → option error)
    (complete : result ControllerManagerConfigurationSpec) : outcome ManagerOptions :=
  '(o, err) ← AndFrom o inject complete;
  match err with
  | Some _ => Panicked "could not parse config file"
  | None => Returned o
  end.

Definition second : Z := 10 ^ 9.
Definition defaultLeaseDuration : Z := 15 * second.
Definition defaultRenewDeadline : Z := 10 * second.
Definition defaultRetryPeriod : Z := 2 * second.
Definition defaultGracefulShutdownPeriod : Z := 30 * second.
Definition defaultReadinessEndpoint : string := "/readyz".
Definition defaultLivenessEndpoint : string := "/healthz".

(** The functions the defaults are taken from. *)
Variable leaderelection_NewResourceLock : NewLock.
Variable intrec_NewProvider : NewProvider.
Variable metrics_NewListener : NewListener.
Variable defaultHealthProbeListener : NewListener.
Variable new_broadcaster : Producer.
Variable use_broadcaster : Broadcaster → Producer.
Variable manager_logger : Logger.

Definition setOptionsDefaults (options : ManagerOptions) : ManagerOptions :=
  mkManagerOptions
    (mo_Scheme options) (mo_SyncPeriod options) (Some (default manager_logger (mo_Logger options)))
    (mo_LeaderElection options) (mo_LeaderElectionResourceLock options)
    (mo_LeaderElectionNamespace options) (mo_LeaderElectionID options)
    (Some (default defaultLeaseDuration (mo_LeaseDuration options)))
    (Some (default defaultRenewDeadline (mo_RenewDeadline options)))
    (Some (default defaultRetryPeriod (mo_RetryPeriod options)))
    (mo_Namespace options) (mo_MetricsBindAddress options) (mo_HealthProbeBindAddress options)
    (if decide (mo_ReadinessEndpointName options = "") then defaultReadinessEndpoint
     else mo_ReadinessEndpointName options)
    (if decide (mo_LivenessEndpointName options = "") then defaultLivenessEndpoint
     else mo_LivenessEndpointName options)
    (mo_Port options) (mo_Host options) (mo_CertDir options) (mo_EventBroadcaster options)
    (Some (default defaultGracefulShutdownPeriod (mo_GracefulShutdownTimeout options)))
    (mo_Controller options)
    (Some (match mo_EventBroadcaster options with
           | None => new_broadcaster
           | Some b => use_broadcaster b
           end))
    (Some (default intrec_NewProvider (mo_newRecorderProvider options)))
    (Some (default leaderelection_NewResourceLock (mo_newResourceLock options)))
    (Some (default metrics_NewListener (mo_newMetricsListener options)))
    (Some (default defaultHealthProbeListener (mo_newHealthProbeListener options))).

(** ** Precedence *)

(** A string, a duration or a number that is set: by the options, else by the
    file, else by the default. *)
Definition first_set (o c d : string) : string :=
  if decide (o = "") then (if decide (c = "") then d else c) else o.
Definition first_duration (o : option Z) (c : Z) (d : Z) : option Z :=
  match o with Some d => Some d | None => if decide (c = 0%Z) then Some d else Some c end.

Lemma str_or_first_set o c : str_or o c = first_set o c "".
Proof. unfold str_or, first_set. repeat case_decide; naive_solver. Qed.

Lemma default_str_or o c d : d ≠ "" →
  (if decide (str_or o c = "") then d else str_or o c) = first_set o c d.
Proof. intros Hd. unfold str_or, first_set. repeat case_decide; naive_solver. Qed.

Lemma default_duration_or o c d : Some (default d (duration_or o c)) = first_duration o c d.
Proof. unfold duration_or, first_duration. destruct o; [done|]. repeat case_decide; naive_solver. Qed.

(** Merging options with a configuration file that has a leader election
    section, and then filling in the defaults, succeeds and gives every
    setting the file knows the value of the options when they set it, else
    that of the file when it sets it, else the default; leader election is on
    when either turns it on.  The one exception is the graceful shutdown
    timeout, for which the file's value is never used. *)
Theorem AndFrom_precedence o inject cfg le :
  inject (mo_Scheme o) = None → cfg_LeaderElection cfg = Some le →
  ∃ o1, AndFrom o inject (Ok cfg) = Returned (o1, None) ∧
  let o2 := setOptionsDefaults o1 in
  mo_LeaderElection o2 = mo_LeaderElection o || default false (le_LeaderElect le)
  ∧ mo_LeaderElectionResourceLock o2 = first_set (mo_LeaderElectionResourceLock o) (le_ResourceLock le) ""
  ∧ mo_LeaderElectionNamespace o2 = first_set (mo_LeaderElectionNamespace o) (le_ResourceNamespace le) ""
  ∧ mo_LeaderElectionID o2 = first_set (mo_LeaderElectionID o) (le_ResourceName le) ""
  ∧ mo_LeaseDuration o2 = first_duration (mo_LeaseDuration o) (le_LeaseDuration le) defaultLeaseDuration
  ∧ mo_RenewDeadline o2 = first_duration (mo_RenewDeadline o) (le_RenewDeadline le) defaultRenewDeadline
  ∧ mo_RetryPeriod o2 = first_duration (mo_RetryPeriod o) (le_RetryPeriod le) defaultRetryPeriod
  ∧ mo_SyncPeriod o2 = (match mo_SyncPeriod o with Some d => Some d | None => cfg_SyncPeriod cfg end)
  ∧ mo_Namespace o2 = first_set (mo_Namespace o) (cfg_CacheNamespace cfg) ""
  ∧ mo_MetricsBindAddress o2 = first_set (mo_MetricsBindAddress o) (cfg_Metrics_BindAddress cfg) ""
  ∧ mo_HealthProbeBindAddress o2
    = first_set (mo_HealthProbeBindAddress o) (cfg_HealthProbeBindAddress cfg) ""
  ∧ mo_ReadinessEndpointName o2
    = first_set (mo_ReadinessEndpointName o) (cfg_ReadinessEndpointName cfg) defaultReadinessEndpoint
  ∧ mo_LivenessEndpointName o2
    = first_set (mo_LivenessEndpointName o) (cfg_LivenessEndpointName cfg) defaultLivenessEndpoint
  ∧ mo_Port o2 = (if decide (mo_Port o = 0%Z) then default 0%Z (cfg_Webhook_Port cfg) else mo_Port o)
  ∧ mo_Host o2 = first_set (mo_Host o) (cfg_Webhook_Host cfg) ""
  ∧ mo_CertDir o2 = first_set (mo_CertDir o) (cfg_Webhook_CertDir cfg) ""
  ∧ mo_GracefulShutdownTimeout o2
    = Some (default defaultGracefulShutdownPeriod (mo_GracefulShutdownTimeout o)).
Proof.
  intros Hi Hle. unfold AndFrom, setLeaderElectionConfig. rewrite Hi, Hle. eexists. split; [done|].
  repeat match goal with |- _ ∧ _ => split end; cbn;
    first [done | apply str_or_first_set | apply default_str_or; done | apply default_duration_or | idtac].
  case_decide as Hp; [by rewrite Hp|done].
Qed.

(** A configuration file without a leader election section makes [AndFrom]
    panic, unless the options already set every leader election setting the
    file could have set. *)
Theorem AndFrom_panics_without_leader_election o inject cfg :
  inject (mo_Scheme o) = None → cfg_LeaderElection cfg = None →
  (∃ msg, AndFrom o inject (Ok cfg) = Panicked msg) ↔
  (mo_LeaderElection o = false ∨ mo_LeaderElectionResourceLock o = "" ∨ mo_LeaderElectionNamespace o = ""
   ∨ mo_LeaderElectionID o = "" ∨ mo_LeaseDuration o = None ∨ mo_RenewDeadline o = None
   ∨ mo_RetryPeriod o = None).
Proof.
  intros Hi Hle. unfold AndFrom, setLeaderElectionConfig. rewrite Hi, Hle.
  case_decide as Hd.
  - cbn. split; [by intros [msg [=]]|]. destruct Hd as (? & ? & ? & ? & ? & ? & ?).
    intros [?|[?|[?|[?|[?|[?|?]]]]]]; congruence.
  - split; [intros _|intros _; by eexists].
    destruct (mo_LeaderElection o); [|by left].
    destruct (decide (mo_LeaderElectionResourceLock o = "")); [tauto|].
    destruct (decide (mo_LeaderElectionNamespace o = "")); [tauto|].
    destruct (decide (mo_LeaderElectionID o = "")); [tauto|].
    destruct (mo_LeaseDuration o); [|tauto]. destruct (mo_RenewDeadline o); [|tauto].
    destruct (mo_RetryPeriod o); [|tauto]. by destruct Hd.
Qed.

End manager_options.
Arguments ManagerOptions : clear implicits.

(** ** The loader of the configuration file *)

Section loader.
(** The configuration type the file is decoded into, schemes, and the file
    system. *)
Context {Config SchemeRef FileSystem : Type}.
Variable ReadFile : FileSystem → string → result string.
Variable DecodeInto : SchemeRef → string → Config → result Config.
Variable Config_Complete : Config → result ControllerManagerConfigurationSpec.
Variable generic_config : Config.
Variable generic_scheme : SchemeRef.

Record DeferredFileLoader := mkLoader {
  dl_Config : Config;
  dl_path : string;
  dl_scheme : option SchemeRef;
  dl_once : bool;
  dl_err : option error;
}.

Definition File : DeferredFileLoader :=
  mkLoader generic_config "./config.yaml" (Some generic_scheme) false None.

Definition AtPath (path : string) (d : DeferredFileLoader) : DeferredFileLoader :=
  mkLoader (dl_Config d) path (dl_scheme d) (dl_once d) (dl_err d).
Definition OfKind (obj : Config) (d : DeferredFileLoader) : DeferredFileLoader :=
  mkLoader obj (dl_path d) (dl_scheme d) (dl_once d) (dl_err d).
Definition Loader_InjectScheme (scheme : option SchemeRef) (d : DeferredFileLoader) : DeferredFileLoader :=
  mkLoader (dl_Config d) (dl_path d) scheme (dl_once d) (dl_err d).

Definition set_loaded (c : Config) (err : option error) (d : DeferredFileLoader) : DeferredFileLoader :=
  mkLoader c (dl_path d) (dl_scheme d) true err.

Definition err_no_scheme : error :=
  ErrorString "scheme not supplied to controller configuration loader".
Definition err_read : error := ErrorString "could not read file".
Definition err_decode : error := ErrorString "could not decode file into runtime.Object".

Definition loadFile (fs : FileSystem) (d : DeferredFileLoader) : DeferredFileLoader :=
  match dl_scheme d with
  | None => set_loaded (dl_Config d) (Some err_no_scheme) d
  | Some scheme =>
      match ReadFile fs (dl_path d) with
      | Err _ => set_loaded (dl_Config d) (Some err_read) d
      | Ok content =>
          match DecodeInto scheme content (dl_Config d) with
          | Err _ => set_loaded (dl_Config d) (Some err_decode) d
          | Ok c => set_loaded c (dl_err d) d
          end
      end
  end.

(** [Complete] loads the file the first time it is called. *)
Definition Loader_Complete (fs : FileSystem) (d : DeferredFileLoader)
    : DeferredFileLoader * result ControllerManagerConfigurationSpec :=
  let d := if dl_once d then d else loadFile fs d in
  match dl_err d with
  | Some err => (d, Err err)
  | None => (d, Config_Complete (dl_Config d))
  end.

(** The file is read once: whatever happens to the file system afterwards, a
    further call answers the same. *)
Lemma Loader_Complete_once fs fs' d :
  let '(d1, r1) := Loader_Complete fs d in Loader_Complete fs' d1 = (d1, r1).
Proof.
  assert (Hloaded : ∀ fs d, dl_once (loadFile fs d) = true).
  { intros f l. unfold loadFile. by repeat case_match. }
  unfold Loader_Complete. destruct (dl_once d) eqn:Ho.
  - destruct (dl_err d) eqn:He; by rewrite Ho, He.
  - destruct (dl_err (loadFile fs d)) eqn:He; by rewrite Hloaded, He.
Qed.

End loader.
