(* ===== verification/Builder.v ===== *)
(** * The controller builder (src/pkg/builder/controller.go and options.go)

    A builder collects what a controller reconciles, owns and watches, and
    [Build] makes the controller, has the manager add it and registers the
    watches.  Sources of sort [Kind] are pointers: the builder changes the
    type of one it is given in place, so they are kept in a heap (class
    KindHeap), and the manager may have started the controller before its
    watches are registered. *)

From S2P Require Export ManagerOptions Controller.

(** How a call of the builder ends: with a value or an error, by a panic, or
    blocked on the controller's mutex. *)
Inductive building (A : Type) :=
  | Built (a : A)
  | Failed (err : error)
  | BuildPanicked (msg : string)
  | BuildBlocked.
Arguments Built {A} _.
Arguments Failed {A} _.
Arguments BuildPanicked {A} _.
Arguments BuildBlocked {A}.

Section builder.
Context {W QRef H Reconciler RateLimiter Logger : Type}.

Abbreviation Ctrl := (Controller W QRef H Reconciler Logger).
Abbreviation CtrlOptions := (@ControllerOptions Reconciler RateLimiter Logger).

(** ** Inputs *)

(** [objectProjection], an [int]. *)
Definition projectAsNormal : Z := 0.
Definition projectAsMetadata : Z := 1.

Record ForInput := mkForInput {
  for_object : option Object;
  for_predicates : list Predicate;
  for_projection : Z;
  for_err : option error;
}.
Record OwnsInput := mkOwnsInput {
  owns_object : option Object;
  owns_predicates : list Predicate;
  owns_projection : Z;
}.

(** A [source.Source]: a pointer to a [Kind], or any other source. *)
Inductive BuilderSource :=
  | KindAt (p : nat)
  | OtherSource (s : Source W QRef H).

Record WatchesInput := mkWatchesInput {
  wi_src : BuilderSource;
  wi_eventhandler : H;
  wi_predicates : list Predicate;
  wi_projection : Z;
}.

(** [Predicates] and [projectAs], the two options, which all three calls take. *)
Inductive BuilderOption :=
  | WithPredicates (predicates : list Predicate)
  | ProjectAs (p : Z).
Definition OnlyMetadata : BuilderOption := ProjectAs projectAsMetadata.

Definition ApplyToFor (i : ForInput) (o : BuilderOption) : ForInput :=
  match o with
  | WithPredicates ps => mkForInput (for_object i) ps (for_projection i) (for_err i)
  | ProjectAs p => mkForInput (for_object i) (for_predicates i) p (for_err i)
  end.
Definition ApplyToOwns (i : OwnsInput) (o : BuilderOption) : OwnsInput :=
  match o with
  | WithPredicates ps => mkOwnsInput (owns_object i) ps (owns_projection i)
  | ProjectAs p => mkOwnsInput (owns_object i) (owns_predicates i) p
  end.
Definition ApplyToWatches (i : WatchesInput) (o : BuilderOption) : WatchesInput :=
  match o with
  | WithPredicates ps => mkWatchesInput (wi_src i) (wi_eventhandler i) ps (wi_projection i)
  | ProjectAs p => mkWatchesInput (wi_src i) (wi_eventhandler i) (wi_predicates i) p
  end.

(** What the builder uses of a manager.  [Add] gets a pointer to the
    controller, and may have started it when it returns. *)
Record BuilderManager := mkBuilderManager {
  bm_Scheme : Scheme;
  bm_ControllerOptions : ControllerConfigurationSpec;
  bm_Logger : Logger;
  bm_SetFields : InjectTarget W QRef H Reconciler → W → W * option error;
  bm_Add : Ctrl → W → Ctrl * W * option error;
}.

Record Builder := mkBuilder {
  b_forInput : ForInput;
  b_ownsInput : list OwnsInput;
  b_watchesInput : list WatchesInput;
  b_mgr : option BuilderManager;
  b_globalPredicates : list Predicate;
  b_ctrlOptions : CtrlOptions;
  b_name : string;
}.

Definition ControllerManagedBy (m : option BuilderManager) : Builder :=
  mkBuilder (mkForInput None [] projectAsNormal None) [] [] m [] (mkControllerOptions 0 None None None 0) "".

Definition err_for_twice : error :=
  ErrorString "For(...) should only be called once, could not assign multiple objects for reconciliation".

Definition For (object : option Object) (opts : list BuilderOption) (b : Builder) : Builder :=
  let input :=
    match for_object (b_forInput b) with
    | Some _ => mkForInput (for_object (b_forInput b)) (for_predicates (b_forInput b))
                  (for_projection (b_forInput b)) (Some err_for_twice)
    | None => foldl ApplyToFor (mkForInput object [] projectAsNormal None) opts
    end in
  mkBuilder input (b_ownsInput b) (b_watchesInput b) (b_mgr b) (b_globalPredicates b) (b_ctrlOptions b) (b_name b).

Definition Owns (object : option Object) (opts : list BuilderOption) (b : Builder) : Builder :=
  mkBuilder (b_forInput b) (b_ownsInput b ++ [foldl ApplyToOwns (mkOwnsInput object [] projectAsNormal) opts])
    (b_watchesInput b) (b_mgr b) (b_globalPredicates b) (b_ctrlOptions b) (b_name b).

Definition Watches (src : BuilderSource) (eventhandler : H) (opts : list BuilderOption) (b : Builder) : Builder :=
  mkBuilder (b_forInput b) (b_ownsInput b)
    (b_watchesInput b ++ [foldl ApplyToWatches (mkWatchesInput src eventhandler [] projectAsNormal) opts])
    (b_mgr b) (b_globalPredicates b) (b_ctrlOptions b) (b_name b).

Definition WithEventFilter (p : Predicate) (b : Builder) : Builder :=
  mkBuilder (b_forInput b) (b_ownsInput b) (b_watchesInput b) (b_mgr b) (b_globalPredicates b ++ [p])
    (b_ctrlOptions b) (b_name b).

Definition WithOptions (options : CtrlOptions) (b : Builder) : Builder :=
  mkBuilder (b_forInput b) (b_ownsInput b) (b_watchesInput b) (b_mgr b) (b_globalPredicates b) options (b_name b).

Definition set_log (log : option Logger) (o : CtrlOptions) : CtrlOptions :=
  mkControllerOptions (co_MaxConcurrentReconciles o) (co_Reconciler o) (co_RateLimiter o) log (co_CacheSyncTimeout o).

Definition WithLogger (log : Logger) (b : Builder) : Builder :=
  WithOptions (set_log (Some log) (b_ctrlOptions b)) b.

Definition Named (name : string) (b : Builder) : Builder :=
  mkBuilder (b_forInput b) (b_ownsInput b) (b_watchesInput b) (b_mgr b) (b_globalPredicates b)
    (b_ctrlOptions b) name.

(** ** Building *)

(** The heap of [source.Kind]s, and the two handlers of package handler the
    builder makes. *)
Class KindHeap := {
  new_Kind : option Object → W → W * nat;
  Kind_Type : nat → W → option Object;
  set_Kind_Type : nat → option Object → W → W;
  kind_source : nat → Source W QRef H;
  handler_for_object : H;
  handler_for_owner : EnqueueRequestForOwner → H;
}.

(** What [controller.New] uses of the work queue package and of loggers. *)
Class ControllerParts := {
  DefaultControllerRateLimiter : RateLimiter;
  NewNamedRateLimitingQueue : RateLimiter → string → W → QRef * W;
  WithName : string → Logger → Logger;
  WithValues : GVK → Logger → Logger;
}.

Context `{!KindHeap} `{!ControllerParts}.

Definition BM (A : Type) : Type := W → W * building A.
#[export] Instance BM_ret : MRet BM := λ A a w, (w, Built a).
#[export] Instance BM_bind : MBind BM := λ A B f m w,
  match m w with
  | (w, Built a) => f a w
  | (w, Failed err) => (w, Failed err)
  | (w, BuildPanicked msg) => (w, BuildPanicked msg)
  | (w, BuildBlocked) => (w, BuildBlocked)
  end.
Definition fail {A} (err : error) : BM A := λ w, (w, Failed err).
Definition from_result {A} (r : result A) : BM A := match r with Ok a => mret a | Err e => fail e end.
Definition on_heap {A} (f : W → W * A) : BM A := λ w, let '(w, a) := f w in (w, Built a).

(** [getGvk], where a nil object has no kind. *)
Definition err_nil_object : error := ErrorString "expected pointer, but got invalid kind".
Definition getGvk (obj : option Object) (scheme : Scheme) : result GVK :=
  match obj with Some obj => GVKForObject obj scheme | None => Err err_nil_object end.

Definition metadata_object (gvk : GVK) : Object := bare_object PartialObjectMetadata gvk "" "".

Definition project (scheme : Scheme) (obj : option Object) (proj : Z) : BM (option Object) :=
  if decide (proj = projectAsNormal) then mret obj
  else if decide (proj = projectAsMetadata) then
    match getGvk obj scheme with
    | Err e => fail (ErrorWrap "unable to determine GVK of the object for a metadata-only watch" e)
    | Ok gvk => mret (Some (metadata_object gvk))
    end
  else λ w, (w, BuildPanicked ("unexpected projection type " +:+ Itoa proj)).

Definition source_of (s : BuilderSource) : Source W QRef H :=
  match s with KindAt p => kind_source p | OtherSource s => s end.

(** [blder.ctrl.Watch] *)
Definition ctrl_Watch (c : Ctrl) (src : BuilderSource) (h : H) (ps : list Predicate) : BM Ctrl := λ w,
  match Watch c (source_of src) h ps w with
  | None => (w, BuildBlocked)
  | Some (c, w, Some err) => (w, Failed err)
  | Some (c, w, None) => (w, Built c)
  end.

(** A source of an object that is projected: the watches of [For] and
    [Owns]. *)
Definition watch_object (scheme : Scheme) (c : Ctrl) (obj : option Object) (proj : Z) (h : H)
    (ps : list Predicate) : BM Ctrl :=
  typeForSrc ← project scheme obj proj;
  p ← on_heap (new_Kind typeForSrc);
  ctrl_Watch c (KindAt p) h ps.

(** Before it is injected; [Build] has checked that the object is not nil. *)
Definition owner_handler (object : option Object) : H :=
  handler_for_owner (mkEnqueueOwner (from_option (λ o, (o_type o, o_gvk o)) (Typed "", mkGVK "" "" "") object)
    true (mkGK "" "") None).

Fixpoint watch_owns (b : Builder) (scheme : Scheme) (owns : list OwnsInput) (c : Ctrl) : BM Ctrl :=
  match owns with
  | [] => mret c
  | own :: owns =>
      c ← watch_object scheme c (owns_object own) (owns_projection own)
            (owner_handler (for_object (b_forInput b))) (b_globalPredicates b ++ owns_predicates own);
      watch_owns b scheme owns c
  end.

(** The type a [Kind] is watched with is changed in place. *)
Definition project_source (scheme : Scheme) (src : BuilderSource) (proj : Z) : BM unit :=
  match src with
  | KindAt p =>
      obj ← on_heap (λ w, (w, Kind_Type p w));
      typeForSrc ← project scheme obj proj;
      on_heap (λ w, (set_Kind_Type p typeForSrc w, ()))
  | OtherSource _ => mret ()
  end.

Fixpoint watch_watches (b : Builder) (scheme : Scheme) (ws : list WatchesInput) (c : Ctrl) : BM Ctrl :=
  match ws with
  | [] => mret c
  | w :: ws =>
      _ ← project_source scheme (wi_src w) (wi_projection w);
      c ← ctrl_Watch c (wi_src w) (wi_eventhandler w) (b_globalPredicates b ++ wi_predicates w);
      watch_watches b scheme ws c
  end.

Definition doWatch (b : Builder) (scheme : Scheme) (c : Ctrl) : BM Ctrl :=
  c ← watch_object scheme c (for_object (b_forInput b)) (for_projection (b_forInput b)) handler_for_object
        (b_globalPredicates b ++ for_predicates (b_forInput b));
  c ← watch_owns b scheme (b_ownsInput b) c;
  watch_watches b scheme (b_watchesInput b) c.

Definition getControllerName (b : Builder) (gvk : GVK) : string :=
  if decide (b_name b ≠ "") then b_name b else ToLower (gvk_Kind gvk).

(** [controller.New]. *)
Definition New (name : string) (m : BuilderManager) (options : CtrlOptions) : BM Ctrl := λ w,
  match NewUnmanaged (bm_SetFields m) (bm_Logger m) DefaultControllerRateLimiter NewNamedRateLimitingQueue
          WithName name options w with
  | (w, Err e) => (w, Failed e)
  | (w, Ok c) =>
      match bm_Add m c w with
      | (c, w, Some err) => (w, Failed err)
      | (c, w, None) => (w, Built c)
      end
  end.

(** The options of the controller [doController] makes. *)
Definition controller_options (b : Builder) (m : BuilderManager) (r : Reconciler) (gvk : GVK) : CtrlOptions :=
  let o := b_ctrlOptions b in
  let globalOpts := bm_ControllerOptions m in
  let max :=
    if decide (co_MaxConcurrentReconciles o = 0)%Z then
      match cc_GroupKindConcurrency globalOpts !! GroupKind_String (gvk_GroupKind gvk) with
      | Some concurrency => if decide (concurrency > 0)%Z then concurrency else co_MaxConcurrentReconciles o
      | None => co_MaxConcurrentReconciles o
      end
    else co_MaxConcurrentReconciles o in
  let timeout :=
    match cc_CacheSyncTimeout globalOpts with
    | Some timeout => if decide (co_CacheSyncTimeout o = 0)%Z then timeout else co_CacheSyncTimeout o
    | None => co_CacheSyncTimeout o
    end in
  mkControllerOptions max (Some (default r (co_Reconciler o))) (co_RateLimiter o)
    (Some (WithValues gvk (default (bm_Logger m) (co_Log o)))) timeout.

Definition doController (b : Builder) (m : BuilderManager) (r : Reconciler) : BM Ctrl :=
  gvk ← from_result (getGvk (for_object (b_forInput b)) (bm_Scheme m));
  New (getControllerName b gvk) m (controller_options b m r gvk).

Definition Build (r : option Reconciler) (b : Builder) : BM Ctrl :=
  match r with
  | None => fail (ErrorString "must provide a non-nil Reconciler")
  | Some r =>
      match b_mgr b with
      | None => fail (ErrorString "must provide a non-nil Manager")
      | Some m =>
          match for_err (b_forInput b) with
          | Some err => fail err
          | None =>
              if decide (for_object (b_forInput b) = None)
              then fail (ErrorString "must provide an object for reconciliation")
              else c ← doController b m r; doWatch b (bm_Scheme m) c
          end
      end
  end.

Definition Complete (r : option Reconciler) (b : Builder) : BM unit := _ ← Build r b; mret ().
End builder.
Arguments BuilderSource : clear implicits.
Arguments KindHeap : clear implicits.
Arguments ControllerParts : clear implicits.

(** ** What is watched *)

(** The heap of kinds: a new one is a pointer nobody has. *)
Class KindHeapLaws (W QRef H : Type) `{!KindHeap W QRef H} := {
  allocated : nat → W → Prop;
  new_Kind_spec : ∀ obj w,
    ¬ allocated (new_Kind obj w).2 w ∧ Kind_Type (new_Kind obj w).2 (new_Kind obj w).1 = obj
    ∧ (∀ q, allocated q (new_Kind obj w).1 ↔ q = (new_Kind obj w).2 ∨ allocated q w)
    ∧ ∀ q, q ≠ (new_Kind obj w).2 → Kind_Type q (new_Kind obj w).1 = Kind_Type q w;
  set_Kind_Type_spec : ∀ p obj w q, allocated p w →
    Kind_Type q (set_Kind_Type p obj w) = (if decide (q = p) then obj else Kind_Type q w)
    ∧ (allocated q (set_Kind_Type p obj w) ↔ allocated q w);
}.

Section facts.
Context {W QRef H Reconciler RateLimiter Logger : Type}.
Context `{!KindHeap W QRef H} `{!KindHeapLaws W QRef H} `{!ControllerParts W QRef RateLimiter Logger}.

Abbreviation Ctrl := (Controller W QRef H Reconciler Logger).
Abbreviation TheBuilder := (@Builder W QRef H Reconciler RateLimiter Logger).
Abbreviation TheManager := (@BuilderManager W QRef H Reconciler Logger).
Implicit Types (c : Ctrl) (w : W) (b : TheBuilder) (m : TheManager).

(** A controller that has not been started, injection always succeeding. *)
Definition waiting c : Prop :=
  c_mu c = false ∧ c_Started c = false ∧ ∀ t w, c_SetFields c t w = (w, None).

Definition add_watches c (wds : list (watchDescription W QRef H)) : Ctrl :=
  set_setup (c_Queue c) false false (c_startWatches c ++ wds) c.

Lemma waiting_add c wds : waiting c → waiting (add_watches c wds).
Proof. intros (_ & _ & Hs). by split. Qed.

Lemma add_watches_nil c : waiting c → add_watches c [] = c.
Proof.
  intros (Hmu & Hst & _). unfold add_watches. rewrite app_nil_r. destruct c; unfold set_setup; cbn in *; congruence.
Qed.

Lemma add_watches_app c wds wds' : add_watches (add_watches c wds) wds' = add_watches c (wds ++ wds').
Proof. unfold add_watches, set_setup. cbn. by rewrite (assoc_L (++)). Qed.

Lemma ctrl_Watch_waiting c src h ps w : waiting c →
  ctrl_Watch c src h ps w = (w, Built (add_watches c [mkWatch (source_of src) h ps])).
Proof.
  intros (Hmu & Hst & Hs). unfold ctrl_Watch, Watch, Watch_locked. rewrite Hmu. cbn. rewrite !Hs.
  assert (∀ ps w, inject_predicates (c_SetFields c) ps w = (w, None)) as Hi.
  { clear -Hs. intros ps. induction ps as [|p ps IH]; intros w; cbn; [done|]. by rewrite Hs. }
  rewrite Hi, Hst. cbn. done.
Qed.

(** *** Projections *)

(** An object that can be watched in the form asked for, and the form. *)
Definition projects (scheme : Scheme) (obj : option Object) (proj : Z) (obj' : option Object) : Prop :=
  proj = projectAsNormal ∧ obj' = obj
  ∨ proj = projectAsMetadata ∧ ∃ gvk, getGvk obj scheme = Ok gvk ∧ gvk_Kind gvk ≠ "" ∧ gvk_Version gvk ≠ ""
    ∧ obj' = Some (metadata_object gvk).

Lemma project_spec scheme obj proj obj' w :
  projects scheme obj proj obj' → project scheme obj proj w = (w, Built obj').
Proof.
  unfold project. intros [[-> ->]|(-> & gvk & Hg & _ & _ & ->)]; [done|]. rewrite decide_False, decide_True by done.
  by rewrite Hg.
Qed.

Lemma projects_metadata scheme gvk proj obj' :
  gvk_Kind gvk ≠ "" → gvk_Version gvk ≠ "" → projects scheme (Some (metadata_object gvk)) proj obj' →
  obj' = Some (metadata_object gvk).
Proof.
  intros Hk Hv [[_ ->]|(_ & gvk' & Hg & _ & _ & ->)]; [done|]. cbn in Hg.
  unfold GVKForObject, GVKForObject_of in Hg. cbn in Hg. rewrite !decide_False in Hg by done. congruence.
Qed.

Lemma projectable_metadata scheme gvk proj :
  gvk_Kind gvk ≠ "" → gvk_Version gvk ≠ "" → proj = projectAsNormal ∨ proj = projectAsMetadata →
  projects scheme (Some (metadata_object gvk)) proj (Some (metadata_object gvk)).
Proof.
  intros Hk Hv [->| ->]; [by left|]. right. split; [done|]. exists gvk. split; [|done].
  cbn. unfold GVKForObject, GVKForObject_of. cbn. by rewrite !decide_False.
Qed.

Lemma watch_object_waiting scheme c obj proj obj' h ps w :
  waiting c → projects scheme obj proj obj' →
  watch_object scheme c obj proj h ps w =
    ((new_Kind obj' w).1, Built (add_watches c [mkWatch (kind_source (new_Kind obj' w).2) h ps])).
Proof.
  intros Hc Hp. unfold watch_object, mbind, BM_bind. rewrite (project_spec _ _ _ _ _ Hp).
  unfold on_heap. destruct (new_Kind obj' w) as [w1 p]. cbn. by rewrite ctrl_Watch_waiting.
Qed.

(** The heap has grown by the kinds [ps], of the types [objs]. *)
Definition grown (ps : list nat) (objs : list (option Object)) w w' : Prop :=
  NoDup ps ∧ Forall2 (λ p obj, Kind_Type p w' = obj) ps objs
  ∧ (∀ p, p ∈ ps → ¬ allocated p w) ∧ (∀ q, allocated q w' ↔ q ∈ ps ∨ allocated q w)
  ∧ ∀ q, allocated q w → Kind_Type q w' = Kind_Type q w.

Lemma grown_new obj w :
  grown [(new_Kind obj w).2] [obj] w (new_Kind obj w).1.
Proof.
  destruct (new_Kind_spec obj w) as (Hf & Ht & Ha & Ho). split; [apply NoDup_singleton|].
  split; [by constructor|]. split; [intros p ->%list_elem_of_singleton; done|].
  split; [intros q; by rewrite list_elem_of_singleton, Ha|].
  intros q Hq. apply Ho. by intros ->.
Qed.

Lemma grown_trans ps objs ps' objs' w w1 w2 :
  grown ps objs w w1 → grown ps' objs' w1 w2 → grown (ps ++ ps') (objs ++ objs') w w2.
Proof.
  intros (Hnd & Ht & Hf & Ha & Ho) (Hnd' & Ht' & Hf' & Ha' & Ho'). split; [|split; [|split; [|split]]].
  - apply NoDup_app. split; [done|]. split; [|done]. intros p Hp Hp'. apply (Hf' p Hp'), Ha. by left.
  - apply Forall2_app; [|done]. clear -Ht Ho' Ha. induction Ht as [|p obj ps objs Hp Ht IH] in Ha |- *; constructor.
    + rewrite Ho'; [done|]. apply Ha. left. by left.
    + clear -Ht Ho' Ha. assert (∀ q, q ∈ ps → allocated q w1) as Hps by (intros q Hq; apply Ha; left; by right).
      clear Ha. induction Ht as [|p' obj' ps objs Hp Ht IH]; constructor.
      * rewrite Ho'; [done|]. apply Hps. by left.
      * apply IH. intros q Hq. apply Hps. by right.
  - intros p [Hp|Hp]%elem_of_app; [by apply Hf|]. intros Hw. apply (Hf' p Hp), Ha. by right.
  - intros q. rewrite Ha', Ha, elem_of_app. tauto.
  - intros q Hq. rewrite Ho', Ho; [done|done|]. apply Ha. by right.
Qed.

Definition owns_watch b (own : OwnsInput) (p : nat) : watchDescription W QRef H :=
  mkWatch (kind_source p) (owner_handler (for_object (b_forInput b))) (b_globalPredicates b ++ owns_predicates own).

Lemma watch_owns_waiting b scheme owns objs c w :
  waiting c → Forall2 (λ own obj', projects scheme (owns_object own) (owns_projection own) obj') owns objs →
  ∃ w' ps, watch_owns b scheme owns c w = (w', Built (add_watches c (zip_with (owns_watch b) owns ps)))
    ∧ grown ps objs w w'.
Proof.
  intros Hc Hp. revert c w Hc. induction Hp as [|own obj' owns objs Hp Hps IH]; intros c w Hc; cbn [watch_owns].
  { exists w, []. rewrite add_watches_nil by done. split; [done|]. split; [constructor|]. split; [constructor|].
    split; [set_solver|]. split; [set_solver|done]. }
  unfold mbind, BM_bind. rewrite (watch_object_waiting scheme c _ _ obj' _ _ _ Hc Hp).
  pose proof (grown_new obj' w) as Hg. destruct (new_Kind obj' w) as [w1 p] eqn:Hn. cbn in Hg |- *.
  destruct (IH (add_watches c [owns_watch b own p]) w1 (waiting_add _ _ Hc)) as (w' & ps & Hw & Hg').
  fold (owns_watch b own p). rewrite Hw. exists w', (p :: ps). rewrite add_watches_app. split; [done|].
  exact (grown_trans [p] [obj'] ps objs w w1 w' Hg Hg').
Qed.

(** *** The sources that are given *)

(** The type a kind ends up with: metadata as soon as one of its watches asks
    for it. *)
Definition asks_metadata (q : nat) (ws : list (WatchesInput (W:=W) (QRef:=QRef) (H:=H))) : bool :=
  existsb (λ i, match wi_src i with KindAt p => bool_decide (p = q) | OtherSource _ => false end
                && bool_decide (wi_projection i = projectAsMetadata)) ws.
Definition final_type (scheme : Scheme) ws (q : nat) w : option Object :=
  if asks_metadata q ws
  then match getGvk (Kind_Type q w) scheme with Ok gvk => Some (metadata_object gvk) | Err _ => None end
  else Kind_Type q w.

Definition watches_ok (scheme : Scheme) (ws : list (WatchesInput (W:=W) (QRef:=QRef) (H:=H))) w : Prop :=
  Forall (λ i, match wi_src i with
               | KindAt p => allocated p w ∧ ∃ obj', projects scheme (Kind_Type p w) (wi_projection i) obj'
               | OtherSource _ => True
               end) ws.

Definition given_watch b (i : WatchesInput (W:=W) (QRef:=QRef) (H:=H)) : watchDescription W QRef H :=
  mkWatch (source_of (wi_src i)) (wi_eventhandler i) (b_globalPredicates b ++ wi_predicates i).

(** Projecting one source does not get in the way of the others. *)
Lemma watches_ok_set scheme ws p proj obj' w :
  allocated p w → projects scheme (Kind_Type p w) proj obj' → watches_ok scheme ws w →
  watches_ok scheme ws (set_Kind_Type p obj' w).
Proof.
  intros Hpa Hp. unfold watches_ok. intros Hok. eapply Forall_impl; [exact Hok|].
  cbn. intros i Hi. destruct (wi_src i) as [q|]; [|done].
  destruct (set_Kind_Type_spec p obj' w q Hpa) as [-> Ha]. rewrite Ha. destruct Hi as [Hal [o Ho]]. split; [done|].
  case_decide as Hq; [|by exists o]. subst q. destruct Hp as [[_ ->]|(_ & gvk & Hg & Hk & Hv & ->)]; [by exists o|].
  exists (Some (metadata_object gvk)). apply projectable_metadata; [done..|].
  destruct Ho as [[? _]|[? _]]; auto.
Qed.

Lemma final_type_set scheme ws i p obj' w q :
  wi_src i = KindAt p → allocated p w → projects scheme (Kind_Type p w) (wi_projection i) obj' →
  final_type scheme ws q (set_Kind_Type p obj' w) = final_type scheme (i :: ws) q w.
Proof.
  intros Hsrc Hpa Hp. unfold final_type. cbn. rewrite Hsrc. destruct (set_Kind_Type_spec p obj' w q Hpa) as [-> _].
  destruct (decide (q = p)) as [->|Hne].
  - rewrite (bool_decide_eq_true_2 (p = p)) by done. cbn [andb].
    destruct Hp as [[-> ->]|(-> & gvk & Hg & Hk & Hv & ->)].
    + rewrite bool_decide_eq_false_2 by done. done.
    + rewrite bool_decide_eq_true_2 by done. cbn [orb]. rewrite Hg. destruct (asks_metadata p ws); [|done].
      cbn. unfold GVKForObject, GVKForObject_of. cbn. by rewrite !decide_False.
  - by rewrite bool_decide_eq_false_2 by congruence.
Qed.

Lemma watch_watches_waiting b scheme ws : ∀ c w,
  waiting c → watches_ok scheme ws w →
  ∃ w', watch_watches b scheme ws c w = (w', Built (add_watches c (given_watch b <$> ws)))
    ∧ (∀ q, allocated q w' ↔ allocated q w) ∧ ∀ q, Kind_Type q w' = final_type scheme ws q w.
Proof.
  induction ws as [|i ws IH]; intros c w Hc Hok; cbn [watch_watches].
  { exists w. by rewrite add_watches_nil. }
  apply Forall_cons in Hok as [Hi Hok]. fold (watches_ok scheme ws w) in Hok.
  unfold mbind, BM_bind. destruct (wi_src i) as [p|src] eqn:Hsrc; cbn.
  - destruct Hi as [Ha [obj' Hp]]. unfold on_heap at 1. cbn. unfold mbind, BM_bind, on_heap.
    rewrite (project_spec _ _ _ _ _ Hp). rewrite ctrl_Watch_waiting by done.
    destruct (IH (add_watches c [given_watch b i]) (set_Kind_Type p obj' w)) as (w' & Hw & Hal & Hty);
      [by apply waiting_add|by eapply watches_ok_set|].
    assert (mkWatch (source_of (KindAt p)) (wi_eventhandler i) (b_globalPredicates b ++ wi_predicates i)
            = given_watch b i) as -> by (unfold given_watch; by rewrite Hsrc).
    rewrite Hw, add_watches_app. exists w'. split; [done|]. split.
    + intros q. rewrite Hal. by apply set_Kind_Type_spec.
    + intros q. rewrite Hty. by apply final_type_set.
  - rewrite ctrl_Watch_waiting by done.
    destruct (IH (add_watches c [given_watch b i]) w) as (w' & Hw & Hal & Hty); [by apply waiting_add|done|].
    assert (mkWatch (source_of (OtherSource src)) (wi_eventhandler i) (b_globalPredicates b ++ wi_predicates i)
            = given_watch b i) as -> by (unfold given_watch; by rewrite Hsrc).
    rewrite Hw, add_watches_app. exists w'. split; [done|]. split; [done|].
    intros q. rewrite Hty. unfold final_type. cbn. by rewrite Hsrc.
Qed.

Lemma asks_metadata_fresh scheme ws w q : watches_ok scheme ws w → ¬ allocated q w → asks_metadata q ws = false.
Proof.
  intros Hok Hq. unfold asks_metadata. induction Hok as [|i ws Hi _ IH]; cbn; [done|]. rewrite IH, orb_false_r.
  destruct (wi_src i) as [p|]; [|done]. rewrite bool_decide_eq_false_2; [done|]. by intros ->; destruct Hi.
Qed.

Lemma watches_ok_grown scheme ws ps objs w w1 :
  grown ps objs w w1 → watches_ok scheme ws w → watches_ok scheme ws w1.
Proof.
  intros (_ & _ & _ & Ha & Ho) Hok. eapply Forall_impl; [exact Hok|]. cbn. intros i Hi.
  destruct (wi_src i) as [p|]; [|done]. destruct Hi as [Hal Hp]. rewrite Ho by done. split; [|done].
  apply Ha. by right.
Qed.

(** A builder that [Build] accepts, over a manager that injects without an
    error and adds a controller without starting it. *)
Record buildable b (m : TheManager) (obj : Object) (gvk : GVK) : Prop := {
  ba_mgr : b_mgr b = Some m;
  ba_for : for_object (b_forInput b) = Some obj;
  ba_once : for_err (b_forInput b) = None;
  ba_gvk : GVKForObject obj (bm_Scheme m) = Ok gvk;
  ba_name : getControllerName b gvk ≠ "";
  ba_inject : ∀ t w, bm_SetFields m t w = (w, None);
  ba_add : ∀ c w, bm_Add m c w = (c, w, None);
}.

(** The controller [doController] makes. *)
Definition concurrency b (m : TheManager) (gvk : GVK) : Z :=
  let own := co_MaxConcurrentReconciles (b_ctrlOptions b) in
  let of_kind := default 0%Z
    (cc_GroupKindConcurrency (bm_ControllerOptions m) !! GroupKind_String (gvk_GroupKind gvk)) in
  if decide (own > 0)%Z then own else if decide (own = 0 ∧ of_kind > 0)%Z then of_kind else 1%Z.
Definition sync_timeout b (m : TheManager) : Z :=
  let own := co_CacheSyncTimeout (b_ctrlOptions b) in
  let global := default 0%Z (cc_CacheSyncTimeout (bm_ControllerOptions m)) in
  if decide (own ≠ 0)%Z then own else if decide (global ≠ 0)%Z then global else two_minutes.

Lemma doController_spec b m obj gvk r w : buildable b m obj gvk →
  ∃ c, doController b m r w = (w, Built c) ∧ waiting c ∧ c_startWatches c = []
    ∧ c_Name c = getControllerName b gvk ∧ c_Do c = default r (co_Reconciler (b_ctrlOptions b))
    ∧ c_MaxConcurrentReconciles c = concurrency b m gvk ∧ c_CacheSyncTimeout c = sync_timeout b m.
Proof.
  intros [Hm Hf Ho Hg Hn Hi Ha]. unfold doController, mbind, BM_bind. rewrite Hf. cbn. rewrite Hg. cbn.
  unfold New, NewUnmanaged. cbn. rewrite decide_False.
  2: { intros Hlen. by destruct (getControllerName b gvk). }
  rewrite Hi, Ha. eexists. split; [done|]. cbn. split; [done|]. split; [done|]. split; [done|]. split; [done|].
  unfold concurrency, sync_timeout. split.
  - destruct (cc_GroupKindConcurrency _ !! _) as [n|]; cbn; repeat case_decide; try done; lia.
  - destruct (cc_CacheSyncTimeout _) as [t|]; cbn; repeat case_decide; try done; lia.
Qed.

(** C22: [Build] makes one controller, under the name given or the kind of its
    object in lower case, with the concurrency and the sync timeout of its
    options, else of the manager's configuration, else the defaults; and
    registers on it, in this order, a watch of the reconciled object that
    enqueues the object, one of every owned type that enqueues its owner of
    the reconciled type, and the watches given, each with the builder's event
    filters before its own predicates.  The sources of the first two are new
    kinds of the types asked for, as metadata where that was asked for; of
    the sources given, a kind is turned into metadata for all its watches as
    soon as one of them asks for it, and other kinds are left alone. *)
Theorem Build_watches_in_order b m obj gvk r w obj' objs :
  buildable b m obj gvk →
  projects (bm_Scheme m) (Some obj) (for_projection (b_forInput b)) obj' →
  Forall2 (λ own o, projects (bm_Scheme m) (owns_object own) (owns_projection own) o) (b_ownsInput b) objs →
  watches_ok (bm_Scheme m) (b_watchesInput b) w →
  ∃ w' c p ps, Build (Some r) b w = (w', Built c) ∧ waiting c
    ∧ c_startWatches c =
        mkWatch (kind_source p) handler_for_object (b_globalPredicates b ++ for_predicates (b_forInput b))
        :: zip_with (owns_watch b) (b_ownsInput b) ps ++ (given_watch b <$> b_watchesInput b)
    ∧ (c_Name c = getControllerName b gvk ∧ c_Do c = default r (co_Reconciler (b_ctrlOptions b))
       ∧ c_MaxConcurrentReconciles c = concurrency b m gvk ∧ c_CacheSyncTimeout c = sync_timeout b m)
    ∧ NoDup (p :: ps) ∧ (∀ q, q ∈ p :: ps → ¬ allocated q w)
    ∧ Forall2 (λ q o, Kind_Type q w' = o) (p :: ps) (obj' :: objs)
    ∧ ∀ q, allocated q w → Kind_Type q w' = final_type (bm_Scheme m) (b_watchesInput b) q w.
Proof.
  intros Hb Hfor Howns Hws.
  destruct (doController_spec b m obj gvk r w Hb) as (c0 & Hc & Hwait & Hnil & Hset).
  unfold Build. rewrite (ba_mgr _ _ _ _ Hb), (ba_once _ _ _ _ Hb), decide_False
    by (rewrite (ba_for _ _ _ _ Hb); done).
  unfold mbind at 1, BM_bind at 1. rewrite Hc. unfold doWatch.
  unfold mbind at 1, BM_bind at 1. rewrite (ba_for _ _ _ _ Hb).
  rewrite (watch_object_waiting _ _ _ _ obj') by done.
  pose proof (grown_new obj' w) as Hg1. destruct (new_Kind obj' w) as [w1 p]. cbn [fst snd] in *.
  set (wd := mkWatch _ _ _). unfold mbind at 1, BM_bind at 1.
  destruct (watch_owns_waiting b (bm_Scheme m) (b_ownsInput b) objs (add_watches c0 [wd]) w1)
    as (w2 & ps & -> & Hg2); [by apply waiting_add|done|].
  pose proof (grown_trans _ _ _ _ _ _ _ Hg1 Hg2) as Hg. cbn in Hg.
  pose proof (watches_ok_grown _ _ _ _ _ _ Hg Hws) as Hws2.
  rewrite add_watches_app.
  destruct (watch_watches_waiting b (bm_Scheme m) (b_watchesInput b)
    (add_watches c0 ([wd] ++ zip_with (owns_watch b) (b_ownsInput b) ps)) w2)
    as (w' & -> & Hal & Hty); [by apply waiting_add|done|].
  destruct Hg as (Hnd & Hts & Hf & Ha & Ho).
  eexists w', _, p, ps. split; [done|]. split; [by apply waiting_add, waiting_add|].
  split; [cbn; by rewrite Hnil|]. split; [exact Hset|]. split; [done|]. split; [done|]. split.
  - eapply Forall2_impl; [|intros q o Hq; exact Hq].
    assert (∀ q, q ∈ p :: ps → Kind_Type q w' = Kind_Type q w2) as Heq.
    { intros q Hq. rewrite Hty. unfold final_type.
      by rewrite (asks_metadata_fresh (bm_Scheme m) (b_watchesInput b) w q Hws (Hf q Hq)). }
    clear -Hts Heq. induction Hts as [|q o qs os Hq Hts IH]; constructor.
    + rewrite Heq; [done|by left].
    + apply IH. intros q' Hq'. apply Heq. by right.
  - intros q Hq. rewrite Hty. unfold final_type. by rewrite Ho.
Qed.

(** [Build] refuses without a reconciler, a manager or an object, and when
    [For] was called twice, and then nothing has happened. *)
Lemma Build_refuses b r w :
  r = None ∨ b_mgr b = None ∨ for_err (b_forInput b) ≠ None ∨ for_object (b_forInput b) = None →
  ∃ err, Build r b w = (w, Failed err).
Proof.
  intros Hno. unfold Build. destruct r as [r|]; [|by eexists]. destruct (b_mgr b) as [m|]; [|by eexists].
  destruct (for_err (b_forInput b)) as [e|]; [by eexists|]. rewrite decide_True; [by eexists|].
  destruct Hno as [?|[?|[?|?]]]; done.
Qed.

Lemma For_twice obj obj2 opts opts2 b : ∃ e, for_err (b_forInput (For obj2 opts2 (For (Some obj) opts b))) = Some e.
Proof.
  assert (∀ opts i, for_object (foldl ApplyToFor i opts) = for_object i) as Hobj.
  { clear. intros opts. induction opts as [|o opts IH]; intros i; cbn; [done|]. rewrite IH. by destruct o. }
  unfold For. destruct (for_object (b_forInput b)) eqn:Hb; cbn.
  - by eexists.
  - rewrite Hobj. by eexists.
Qed.
End facts.

(** ** At a concrete input

    A controller of deployments that owns replica sets as metadata, and a
    kind that was given watched twice, once as metadata. *)

Module Sample.
Inductive SampleHandler := ForObject | ForOwner (e : EnqueueRequestForOwner) | Custom.

Definition silent_source : Source (list (option Object)) () SampleHandler :=
  mkSource (λ _ _ _ w, (w, None)) None.

(** A pointer is a position of the list. *)
#[export] Instance sample_heap : KindHeap (list (option Object)) () SampleHandler := {
  new_Kind obj w := (w ++ [obj], length w);
  Kind_Type p w := default None (w !! p);
  set_Kind_Type p obj w := <[p := obj]> w;
  kind_source _ := silent_source;
  handler_for_object := ForObject;
  handler_for_owner := ForOwner;
}.

Definition kind_named (name : string) : Object := bare_object (Typed name) (mkGVK "" "" "") "" "".
Definition sample_scheme : Scheme := {|
  sch_ObjectKinds t own := match t with Typed name => Ok ([mkGVK "apps" "v1" name], false) | _ => Ok ([own], false) end;
  sch_Recognizes _ := true;
|}.
#[export] Instance sample_parts : ControllerParts (list (option Object)) () () () := {
  DefaultControllerRateLimiter := ();
  NewNamedRateLimitingQueue _ _ w := ((), w);
  WithName _ l := l;
  WithValues _ l := l;
}.
Definition sample_manager : @BuilderManager (list (option Object)) () SampleHandler () () :=
  mkBuilderManager sample_scheme (mkControllerConfigurationSpec {["Deployment.apps" := 3%Z]} None) ()
    (λ _ w, (w, None)) (λ c w, (c, w, None)).

Definition sample_world : list (option Object) := [Some (kind_named "Pod")].

Definition sample_builder : @Builder (list (option Object)) () SampleHandler () () () :=
  Watches (KindAt 0) Custom [OnlyMetadata]
    (Watches (KindAt 0) Custom []
      (Owns (Some (kind_named "ReplicaSet")) [OnlyMetadata]
        (For (Some (kind_named "Deployment")) [] (ControllerManagedBy (Some sample_manager))))).

Definition built_state : list (option Object) :=
  [Some (metadata_object (mkGVK "apps" "v1" "Pod")); Some (kind_named "Deployment");
   Some (metadata_object (mkGVK "apps" "v1" "ReplicaSet"))].

#[export] Instance sample_heap_laws : KindHeapLaws (list (option Object)) () SampleHandler.
Proof.
  refine {| allocated := λ p w, (p < length w)%nat |}.
  - intros obj w. cbn. split; [lia|]. split; [by rewrite list_lookup_middle|]. split.
    + intros q. rewrite length_app. cbn. lia.
    + intros q Hq. destruct (decide (q < length w)%nat); [by rewrite lookup_app_l|].
      rewrite !lookup_ge_None_2; [done|lia|rewrite length_app; cbn; lia].
  - intros p obj w q Hp. cbn. rewrite length_insert. split; [|done].
    case_decide as Hq; [subst; by rewrite list_lookup_insert_eq|by rewrite list_lookup_insert_ne].
Defined.

Lemma Build_watches_in_order_witness :
  ∃ w c, Build (Some ()) sample_builder sample_world = (w, Built c) ∧ w = built_state
    ∧ c_Name c = "deployment" ∧ c_MaxConcurrentReconciles c = 3%Z ∧ length (c_startWatches c) = 4%nat.
Proof.
  destruct (Build_watches_in_order sample_builder sample_manager (kind_named "Deployment")
    (mkGVK "apps" "v1" "Deployment") () sample_world (Some (kind_named "Deployment"))
    [Some (metadata_object (mkGVK "apps" "v1" "ReplicaSet"))])
    as (w' & c & p & ps & Hb & _ & Hw & (Hn & _ & Hm & _) & _).
  - split; try done.
  - by left.
  - constructor; [|constructor]. right. split; [done|]. exists (mkGVK "apps" "v1" "ReplicaSet"). done.
  - constructor; [|constructor; [|constructor]]; cbn; (split; [lia|]); eexists; [by left|].
    right. split; [done|]. exists (mkGVK "apps" "v1" "Pod"). done.
  - exists w', c. split; [exact Hb|]. split; [by vm_compute in Hb; injection Hb as <- _|].
    split; [exact Hn|]. split; [rewrite Hm; by vm_compute|]. vm_compute in Hb. by injection Hb as _ <-.
Defined.
End Sample.
