(* ===== verification/Manager.v ===== *)
(** * The manager (src/pkg/manager/internal.go)

    The manager's lists of runnables and what it starts, in which order and
    when.  The operations that hold the manager's mutex are functions; a
    relation interleaves calls of [Add] with the goroutines [Start] launches.
    The state keeps a log of what was started. *)

From S2P Require Export Objects.

(** ** State *)

(** A runnable, by what the type assertions of [Add] and of the start loops find
    out: whether it is a [LeaderElectionRunnable] and what it answers, whether
    it has a cache, whether it is a webhook server. *)
Record Runnable := mkRunnable {
  r_id : nat;
  r_NeedLeaderElection : option bool;
  r_hasCache : bool;
  r_webhook : bool;
}.

#[export] Instance Runnable_eq_dec : EqDecision Runnable.
Proof. solve_decision. Defined.

(** What the log records: a runnable was started, the caches were started and
    waited for, the manager was elected. *)
Inductive LogEvent := Started (r : Runnable) | CachesWaitedFor | Elected.

#[export] Instance LogEvent_eq_dec : EqDecision LogEvent.
Proof. solve_decision. Defined.

Section manager.
(** HTTP handlers of extra metrics endpoints and health checkers. *)
Context {HttpHandler Checker : Type}.
(** [SetFields] on a runnable. *)
Variable SetFields : Runnable → option error.

Record Manager := mkManager {
  cm_nonLeaderElectionRunnables : list Runnable;
  cm_leaderElectionRunnables : list Runnable;
  cm_caches : list Runnable;
  cm_started : bool;
  cm_startedLeader : bool;
  cm_healthzStarted : bool;
  cm_stopProcedureEngaged : bool;
  cm_metricsExtraHandlers : gmap string HttpHandler;
  cm_healthzHandler : option (gmap string Checker);
  cm_readyzHandler : option (gmap string Checker);
  cm_log : list LogEvent;
}.

Definition set_runnables (nonLE LE caches : list Runnable) (cm : Manager) : Manager :=
  mkManager nonLE LE caches (cm_started cm) (cm_startedLeader cm) (cm_healthzStarted cm)
    (cm_stopProcedureEngaged cm) (cm_metricsExtraHandlers cm) (cm_healthzHandler cm)
    (cm_readyzHandler cm) (cm_log cm).
Definition set_flags (started startedLeader healthz stop : bool) (cm : Manager) : Manager :=
  mkManager (cm_nonLeaderElectionRunnables cm) (cm_leaderElectionRunnables cm) (cm_caches cm)
    started startedLeader healthz stop (cm_metricsExtraHandlers cm) (cm_healthzHandler cm)
    (cm_readyzHandler cm) (cm_log cm).
Definition set_handlers (metrics : gmap string HttpHandler) (healthz readyz : option (gmap string Checker))
    (cm : Manager) : Manager :=
  mkManager (cm_nonLeaderElectionRunnables cm) (cm_leaderElectionRunnables cm) (cm_caches cm)
    (cm_started cm) (cm_startedLeader cm) (cm_healthzStarted cm) (cm_stopProcedureEngaged cm)
    metrics healthz readyz (cm_log cm).
Definition log_event (e : LogEvent) (cm : Manager) : Manager :=
  mkManager (cm_nonLeaderElectionRunnables cm) (cm_leaderElectionRunnables cm) (cm_caches cm)
    (cm_started cm) (cm_startedLeader cm) (cm_healthzStarted cm) (cm_stopProcedureEngaged cm)
    (cm_metricsExtraHandlers cm) (cm_healthzHandler cm) (cm_readyzHandler cm) (cm_log cm ++ [e]).

(** ** Operations under the mutex *)

(** [startRunnable]: what the runnable then does is not part of the model. *)
Definition startRunnable (r : Runnable) (cm : Manager) : Manager := log_event (Started r) cm.

Definition start_all (rs : list Runnable) (cm : Manager) : Manager :=
  fold_left (λ cm r, startRunnable r cm) rs cm.

Definition err_stopping : error :=
  ErrorString "can't accept new runnable as stop procedure is already engaged".

(** The lists a runnable can be added to. *)
Inductive RunnableKind := KindNonLeaderElection | KindCache | KindLeaderElection.

Definition classify (r : Runnable) : RunnableKind :=
  match r_NeedLeaderElection r with
  | Some false => KindNonLeaderElection
  | _ => if r_hasCache r then KindCache else KindLeaderElection
  end.

Definition Add (r : Runnable) (cm : Manager) : Manager * option error :=
  if cm_stopProcedureEngaged cm then (cm, Some err_stopping)
  else match SetFields r with
  | Some err => (cm, Some err)
  | None =>
      let '(shouldStart, cm) :=
        match classify r with
        | KindNonLeaderElection =>
            (cm_started cm,
             set_runnables (cm_nonLeaderElectionRunnables cm ++ [r]) (cm_leaderElectionRunnables cm)
               (cm_caches cm) cm)
        | KindCache =>
            (false,
             set_runnables (cm_nonLeaderElectionRunnables cm) (cm_leaderElectionRunnables cm)
               (cm_caches cm ++ [r]) cm)
        | KindLeaderElection =>
            (cm_startedLeader cm,
             set_runnables (cm_nonLeaderElectionRunnables cm) (cm_leaderElectionRunnables cm ++ [r])
               (cm_caches cm) cm)
        end in
      (if (shouldStart : bool) then startRunnable r cm else cm, None)
  end.

Definition defaultMetricsEndpoint : string := "/metrics".
Definition err_builtin_endpoint : error := ErrorString "overriding builtin endpoint is not allowed".
Definition err_duplicate_path : error :=
  ErrorString "can't register extra handler by duplicate path on metrics http server".
Definition err_endpoint_created : error :=
  ErrorString "unable to add new checker because endpoint has already been created".

Definition AddMetricsExtraHandler (path : string) (handler : HttpHandler) (cm : Manager)
    : Manager * option error :=
  if decide (path = defaultMetricsEndpoint) then (cm, Some err_builtin_endpoint)
  else match cm_metricsExtraHandlers cm !! path with
  | Some _ => (cm, Some err_duplicate_path)
  | None => (set_handlers (<[path := handler]> (cm_metricsExtraHandlers cm)) (cm_healthzHandler cm)
               (cm_readyzHandler cm) cm, None)
  end.

Definition AddHealthzCheck (name : string) (check : Checker) (cm : Manager) : Manager * option error :=
  if cm_stopProcedureEngaged cm then (cm, Some err_stopping)
  else if cm_healthzStarted cm then (cm, Some err_endpoint_created)
  else (set_handlers (cm_metricsExtraHandlers cm)
          (Some (<[name := check]> (default ∅ (cm_healthzHandler cm)))) (cm_readyzHandler cm) cm, None).

Definition AddReadyzCheck (name : string) (check : Checker) (cm : Manager) : Manager * option error :=
  if cm_stopProcedureEngaged cm then (cm, Some err_stopping)
  else if cm_healthzStarted cm then (cm, Some err_endpoint_created)
  else (set_handlers (cm_metricsExtraHandlers cm) (cm_healthzHandler cm)
          (Some (<[name := check]> (default ∅ (cm_readyzHandler cm)))) cm, None).

(** The locked part of [serveHealthProbes]: the endpoints are fixed and the
    server, the runnable [server], is started. *)
Definition serveHealthProbes (server : Runnable) (cm : Manager) : Manager :=
  let cm := startRunnable server cm in
  set_flags (cm_started cm) (cm_startedLeader cm) true (cm_stopProcedureEngaged cm) cm.

(** [waitForCache]: start every cache, then wait for every cache. *)
Definition waitForCache (cm : Manager) : Manager :=
  if cm_started cm then cm
  else
    let cm := start_all (cm_caches cm) cm in
    let cm := log_event CachesWaitedFor cm in
    set_flags true (cm_startedLeader cm) (cm_healthzStarted cm) (cm_stopProcedureEngaged cm) cm.

Definition is_webhook (r : Runnable) : Prop := r_webhook r = true.

Definition startNonLeaderElectionRunnables (cm : Manager) : Manager :=
  let cm := start_all (filter (λ r, r_webhook r = true) (cm_nonLeaderElectionRunnables cm)) cm in
  let cm := waitForCache cm in
  start_all (filter (λ r, r_webhook r = false) (cm_nonLeaderElectionRunnables cm)) cm.

Definition startLeaderElectionRunnables (cm : Manager) : Manager :=
  let cm := waitForCache cm in
  let cm := start_all (cm_leaderElectionRunnables cm) cm in
  set_flags (cm_started cm) true (cm_healthzStarted cm) (cm_stopProcedureEngaged cm) cm.

(** ** Stopping *)

Definition err_grace_period : error :=
  ErrorString "failed waiting for all runnables to end within grace period".

(** [waitForRunnableToEnd]: [in_time] says whether all runnables ended before the
    shutdown context timed out; the second component, whether leader election
    was cancelled and waited for, [leaderElectionCancel] being whether there
    is one to cancel. *)
Definition waitForRunnableToEnd (in_time leaderElectionCancel : bool) : option error * bool :=
  let retErr := if in_time then None else Some err_grace_period in
  (retErr, bool_decide (retErr = None) && leaderElectionCancel).

(** [engageStopProcedure]; without a timeout nothing is waited for, and the
    mutex is not taken.  With a negative timeout the shutdown context has no
    deadline, so the runnables are waited for until they end. *)
Definition engageStopProcedure (gracefulShutdownTimeout : Z) (in_time leaderElectionCancel : bool)
    (cm : Manager) : Manager * option error * bool :=
  if decide (gracefulShutdownTimeout = 0)%Z then (cm, None, false)
  else
    let cm := set_flags (cm_started cm) (cm_startedLeader cm) (cm_healthzStarted cm) true cm in
    let in_time := if decide (0 < gracefulShutdownTimeout)%Z then in_time else true in
    let '(err, cancelled) := waitForRunnableToEnd in_time leaderElectionCancel in
    (cm, err, cancelled).

(** The error [Start] returns: its own, that of stopping, or both;
    [NewAggregate] is that of apimachinery. *)
Definition Start_error (NewAggregate : list error → option error) (err stopErr : option error)
    : option error :=
  match stopErr with
  | None => err
  | Some s => match err with Some e => NewAggregate [e; s] | None => Some s end
  end.

(** ** Interleavings *)

(** The goroutines [Start] launches: not launched, waiting for the mutex (or for
    the election), or past their section. *)
Inductive Phase := NotLaunched | Pending | Finished.

Record Run := mkRun {
  rn_cm : Manager;
  rn_nonLE : Phase;
  rn_LE : Phase;
}.

Definition new_manager : Manager := mkManager [] [] [] false false false false ∅ None None [].
Definition new_run : Run := mkRun new_manager NotLaunched NotLaunched.

(** The runnables added so far. *)
Definition runnables (cm : Manager) : list Runnable :=
  cm_nonLeaderElectionRunnables cm ++ cm_caches cm ++ cm_leaderElectionRunnables cm.

(** [run_Start] is the beginning of [Start], which adds the cluster and launches
    the goroutines; a runnable is added once.  With leader election the last
    goroutine's section runs once elected, without it as soon as it gets the
    mutex; both are [run_LE].  A stop without graceful shutdown does not take
    the mutex. *)
Inductive run_step (s : Run) : Run → Prop :=
  | run_Add r cm err :
      r ∉ runnables (rn_cm s) → Add r (rn_cm s) = (cm, err) →
      run_step s (mkRun cm (rn_nonLE s) (rn_LE s))
  | run_Start cluster cm :
      rn_nonLE s = NotLaunched → cluster ∉ runnables (rn_cm s) → Add cluster (rn_cm s) = (cm, None) →
      run_step s (mkRun cm Pending Pending)
  | run_nonLE :
      rn_nonLE s = Pending →
      run_step s (mkRun (startNonLeaderElectionRunnables (rn_cm s)) Finished (rn_LE s))
  | run_LE :
      rn_LE s = Pending →
      run_step s (mkRun (startLeaderElectionRunnables (log_event Elected (rn_cm s))) (rn_nonLE s) Finished)
  | run_stop timeout in_time cancel cm err cancelled :
      engageStopProcedure timeout in_time cancel (rn_cm s) = (cm, err, cancelled) →
      run_step s (mkRun cm (rn_nonLE s) (rn_LE s)).

(** Executions where the goroutine that starts the webhooks gets the mutex before
    the one that starts the leader election runnables. *)
Definition ordered_step (s s' : Run) : Prop :=
  run_step s s' ∧ (rn_LE s = Pending ∧ rn_LE s' = Finished → rn_nonLE s = Finished).

(** ** Logs *)

(** The runnables a log says were started, in order. *)
Definition started_in (log : list LogEvent) : list Runnable :=
  omap (λ e, match e with Started r => Some r | _ => None end) log.

Lemma started_in_app l1 l2 : started_in (l1 ++ l2) = started_in l1 ++ started_in l2.
Proof. apply omap_app. Qed.
Lemma started_in_Started rs : started_in (Started <$> rs) = rs.
Proof. induction rs as [|r rs IH]; [done|]. cbn. f_equal. exact IH. Qed.

Lemma elem_of_started_in r log : r ∈ started_in log ↔ Started r ∈ log.
Proof.
  unfold started_in. rewrite list_elem_of_omap. split.
  - intros ([r'| |] & Hin & Heq); congruence.
  - intros Hin. by exists (Started r).
Qed.

(** Event [e] comes before every start of a runnable with property [P]. *)
Definition precedes (e : LogEvent) (P : Runnable → Prop) (log : list LogEvent) : Prop :=
  ∀ l1 r l2, log = l1 ++ Started r :: l2 → P r → e ∈ l1.

Lemma precedes_nil e P : precedes e P [].
Proof. intros [] r l2; discriminate. Qed.

Lemma precedes_app e P l l' :
  precedes e P l → (e ∈ l ∨ ∀ r, Started r ∈ l' → ¬ P r) → precedes e P (l ++ l').
Proof.
  intros Hl Hl' l1 r l2 Heq HP.
  apply app_eq_inv in Heq as [(k & -> & Heq)|(k & -> & Heq)].
  - destruct k as [|ev k]; cbn in Heq.
    + destruct Hl' as [He|Hno]; [by rewrite app_nil_r in He|].
      destruct (Hno r); [|done]. rewrite <- Heq. by left.
    + injection Heq as <- ->. by eapply Hl.
  - destruct Hl' as [He|Hno]; [apply elem_of_app; by left|].
    destruct (Hno r); [|done]. rewrite Heq. apply elem_of_app. right. by left.
Qed.

Definition with_log (log : list LogEvent) (cm : Manager) : Manager :=
  mkManager (cm_nonLeaderElectionRunnables cm) (cm_leaderElectionRunnables cm) (cm_caches cm)
    (cm_started cm) (cm_startedLeader cm) (cm_healthzStarted cm) (cm_stopProcedureEngaged cm)
    (cm_metricsExtraHandlers cm) (cm_healthzHandler cm) (cm_readyzHandler cm) log.

Lemma start_all_log rs cm : start_all rs cm = with_log (cm_log cm ++ (Started <$> rs)) cm.
Proof.
  revert cm. induction rs as [|r rs IH]; intros cm; cbn.
  - rewrite app_nil_r. by destruct cm.
  - unfold start_all in IH. rewrite IH. unfold with_log, startRunnable, log_event. cbn.
    by rewrite <- (assoc_L app).
Qed.

(** What the sections do to the log and to the flags. *)
Definition cache_log (cm : Manager) : list LogEvent :=
  if cm_started cm then [] else (Started <$> cm_caches cm) ++ [CachesWaitedFor].

Lemma waitForCache_eq cm :
  waitForCache cm = set_flags true (cm_startedLeader cm) (cm_healthzStarted cm) (cm_stopProcedureEngaged cm)
                      (with_log (cm_log cm ++ cache_log cm) cm).
Proof.
  unfold waitForCache, cache_log. destruct (cm_started cm) eqn:Hs.
  - rewrite app_nil_r. destruct cm. cbn in Hs. by rewrite Hs.
  - rewrite start_all_log. unfold set_flags, log_event, with_log. cbn. by rewrite <- (assoc_L app).
Qed.

Definition webhooks (cm : Manager) : list Runnable :=
  filter (λ r, r_webhook r = true) (cm_nonLeaderElectionRunnables cm).
Definition other_runnables (cm : Manager) : list Runnable :=
  filter (λ r, r_webhook r = false) (cm_nonLeaderElectionRunnables cm).

Lemma startNonLE_eq cm :
  startNonLeaderElectionRunnables cm =
    set_flags true (cm_startedLeader cm) (cm_healthzStarted cm) (cm_stopProcedureEngaged cm)
      (with_log (cm_log cm ++ (Started <$> webhooks cm) ++ cache_log cm ++ (Started <$> other_runnables cm)) cm).
Proof.
  unfold startNonLeaderElectionRunnables. rewrite !start_all_log, waitForCache_eq.
  unfold set_flags, with_log, cache_log, webhooks, other_runnables. cbn.
  f_equal. by rewrite !(assoc_L app).
Qed.

Lemma startLE_eq cm :
  startLeaderElectionRunnables cm =
    set_flags true true (cm_healthzStarted cm) (cm_stopProcedureEngaged cm)
      (with_log (cm_log cm ++ cache_log cm ++ (Started <$> cm_leaderElectionRunnables cm)) cm).
Proof.
  unfold startLeaderElectionRunnables. rewrite !start_all_log, waitForCache_eq.
  unfold set_flags, with_log, cache_log. cbn. f_equal. by rewrite !(assoc_L app).
Qed.

(** The effect of an accepted [Add]. *)
Lemma Add_effect r cm cm' err :
  Add r cm = (cm', err) →
  (err ≠ None ∧ cm' = cm)
  ∨ (err = None ∧ cm_started cm' = cm_started cm ∧ cm_startedLeader cm' = cm_startedLeader cm
     ∧ match classify r with
       | KindNonLeaderElection =>
           cm_nonLeaderElectionRunnables cm' = cm_nonLeaderElectionRunnables cm ++ [r]
           ∧ cm_caches cm' = cm_caches cm ∧ cm_leaderElectionRunnables cm' = cm_leaderElectionRunnables cm
           ∧ cm_log cm' = cm_log cm ++ (if cm_started cm then [Started r] else [])
       | KindCache =>
           cm_nonLeaderElectionRunnables cm' = cm_nonLeaderElectionRunnables cm
           ∧ cm_caches cm' = cm_caches cm ++ [r]
           ∧ cm_leaderElectionRunnables cm' = cm_leaderElectionRunnables cm
           ∧ cm_log cm' = cm_log cm
       | KindLeaderElection =>
           cm_nonLeaderElectionRunnables cm' = cm_nonLeaderElectionRunnables cm
           ∧ cm_caches cm' = cm_caches cm
           ∧ cm_leaderElectionRunnables cm' = cm_leaderElectionRunnables cm ++ [r]
           ∧ cm_log cm' = cm_log cm ++ (if cm_startedLeader cm then [Started r] else [])
       end).
Proof.
  unfold Add. destruct (cm_stopProcedureEngaged cm); [intros [= <- <-]; by left|].
  destruct (SetFields r); [intros [= <- <-]; by left|].
  destruct (classify r); [destruct (cm_started cm) eqn:Hs| |destruct (cm_startedLeader cm) eqn:Hs];
    intros [= <- <-]; right; cbn; rewrite ?app_nil_r, ?Hs; done.
Qed.

Lemma engageStop_log timeout in_time cancel cm cm' err cancelled :
  engageStopProcedure timeout in_time cancel cm = (cm', err, cancelled) →
  runnables cm' = runnables cm ∧ cm_nonLeaderElectionRunnables cm' = cm_nonLeaderElectionRunnables cm
  ∧ cm_caches cm' = cm_caches cm ∧ cm_leaderElectionRunnables cm' = cm_leaderElectionRunnables cm
  ∧ cm_started cm' = cm_started cm ∧ cm_startedLeader cm' = cm_startedLeader cm ∧ cm_log cm' = cm_log cm.
Proof.
  unfold engageStopProcedure. case_decide; [by intros [= <- _ _]|].
  destruct (waitForRunnableToEnd _ _). by intros [= <- _ _].
Qed.

(** ** Every execution *)

(** Runnables that must wait for the caches. *)
Definition needs_caches (r : Runnable) : Prop :=
  classify r = KindLeaderElection ∨ (classify r = KindNonLeaderElection ∧ r_webhook r = false).
Definition needs_election (r : Runnable) : Prop := classify r = KindLeaderElection.

Definition classified (cm : Manager) : Prop :=
  Forall (λ r, classify r = KindNonLeaderElection) (cm_nonLeaderElectionRunnables cm)
  ∧ Forall (λ r, classify r = KindCache) (cm_caches cm)
  ∧ Forall (λ r, classify r = KindLeaderElection) (cm_leaderElectionRunnables cm).

Definition order_inv (s : Run) : Prop :=
  let cm := rn_cm s in
  classified cm
  ∧ (cm_started cm = true → CachesWaitedFor ∈ cm_log cm)
  ∧ (cm_startedLeader cm = true → cm_started cm = true ∧ Elected ∈ cm_log cm)
  ∧ (rn_nonLE s = NotLaunched →
       cm_log cm = [] ∧ cm_started cm = false ∧ cm_startedLeader cm = false ∧ rn_LE s = NotLaunched)
  ∧ precedes CachesWaitedFor needs_caches (cm_log cm)
  ∧ precedes Elected needs_election (cm_log cm).

Lemma classified_started cm r :
  classified cm → Started r ∈ cache_log cm → classify r = KindCache.
Proof.
  intros (_ & Hc & _). unfold cache_log. destruct (cm_started cm); [by intros ?%elem_of_nil|].
  rewrite elem_of_app, list_elem_of_fmap, list_elem_of_singleton. intros [(x & [= ->] & Hin)|[=]].
  rewrite Forall_forall in Hc. by apply Hc.
Qed.

Lemma cache_log_synced cm : cm_started cm = false → CachesWaitedFor ∈ cache_log cm.
Proof. intros Hs. unfold cache_log. rewrite Hs. apply elem_of_app. right. by left. Qed.

Lemma Started_fmap r (rs : list Runnable) : Started r ∈ Started <$> rs ↔ r ∈ rs.
Proof.
  rewrite list_elem_of_fmap. split; [by intros (x & [= ->] & ?)|]. intros Hr. by exists r.
Qed.

(** Extending the log by one start, with what it needs already there. *)
Lemma precedes_start e (P : Runnable → Prop) log r :
  precedes e P log → (P r → e ∈ log) → precedes e P (log ++ [Started r]).
Proof.
  intros Hp Hr l1 x l2 Heq HP.
  destruct l2 as [|y l2 _] using rev_ind.
  - apply app_inj_tail in Heq as [-> [= ->]]. auto.
  - rewrite app_comm_cons, (assoc_L app) in Heq. apply app_inj_tail in Heq as [-> _]. by eapply Hp.
Qed.

Lemma add_order_inv s r cm err nonLE LE :
  order_inv s → Add r (rn_cm s) = (cm, err) →
  (nonLE = NotLaunched → rn_nonLE s = NotLaunched ∧ LE = rn_LE s) →
  order_inv (mkRun cm nonLE LE).
Proof.
  intros (Hcl & Hst & Hle & Hno & Hp1 & Hp2) Hadd Hphase. unfold order_inv. cbn.
  destruct (Add_effect _ _ _ _ Hadd) as [[_ ->]|(_ & Hs & Hl & Heff)].
  { repeat (split; [done|]). split; [|done]. intros Hn. destruct (Hphase Hn) as [Hn' ->]. auto. }
  assert (Hcl' : classified cm).
  { destruct Hcl as (H1 & H2 & H3). unfold classified.
    destruct (classify r) eqn:Hr; destruct Heff as (-> & -> & -> & _);
      repeat split; try done; apply Forall_app; by repeat constructor. }
  assert (Hlog : cm_log cm = cm_log (rn_cm s)
    ∨ (cm_log cm = cm_log (rn_cm s) ++ [Started r] ∧ cm_started (rn_cm s) = true
       ∧ (needs_election r → cm_startedLeader (rn_cm s) = true))).
  { unfold needs_election. destruct (classify r); destruct Heff as (_ & _ & _ & ->).
    - destruct (cm_started (rn_cm s)); rewrite ?app_nil_r; [right|by left]. by split; [|split].
    - by left.
    - destruct (cm_startedLeader (rn_cm s)) eqn:E; rewrite ?app_nil_r; [right|by left].
      split; [done|]. split; [by apply Hle|done]. }
  rewrite Hs, Hl. split; [done|].
  destruct Hlog as [->|(-> & Hstarted & Helect)].
  - repeat (split; [done|]). split; [|done]. intros Hn. destruct (Hphase Hn) as [Hn' ->]. auto.
  - split; [intros _; apply elem_of_app; left; by apply Hst|].
    split; [intros ?; split; [done|]; apply elem_of_app; left; by apply Hle|].
    split; [intros Hn; destruct (Hphase Hn) as [Hn' _]; destruct (Hno Hn') as (_ & ? & _); congruence|].
    split; (apply precedes_start; [done|]); intros HP; [by apply Hst|].
    apply Hle, Helect, HP.
Qed.

Lemma nonLE_order_inv s :
  order_inv s → rn_nonLE s = Pending →
  order_inv (mkRun (startNonLeaderElectionRunnables (rn_cm s)) Finished (rn_LE s)).
Proof.
  intros (Hcl & Hst & Hle & Hno & Hp1 & Hp2) Hpend. unfold order_inv. rewrite startNonLE_eq. cbn.
  pose proof Hcl as (H1 & H2 & H3). rewrite Forall_forall in H1.
  assert (Hsync : CachesWaitedFor ∈ cm_log (rn_cm s) ++ (Started <$> webhooks (rn_cm s)) ++ cache_log (rn_cm s)).
  { rewrite !elem_of_app. destruct (cm_started (rn_cm s)) eqn:E; [left; by apply Hst|].
    right. right. by apply cache_log_synced. }
  assert (Hhook : ∀ r, Started r ∈ Started <$> webhooks (rn_cm s) → ¬ needs_caches r ∧ ¬ needs_election r).
  { intros r [Hw Hin%H1]%Started_fmap%list_elem_of_filter. unfold needs_caches, needs_election.
    split; [intros [?|[_ ?]]|intros ?]; congruence. }
  assert (Hcache : ∀ r, Started r ∈ cache_log (rn_cm s) → ¬ needs_caches r ∧ ¬ needs_election r).
  { intros r Hin%classified_started; [|done]. unfold needs_caches, needs_election.
    split; [intros [?|[? _]]|intros ?]; congruence. }
  assert (Hother : ∀ r, Started r ∈ Started <$> other_runnables (rn_cm s) → ¬ needs_election r).
  { intros r [_ Hin%H1]%Started_fmap%list_elem_of_filter. unfold needs_election. congruence. }
  split; [done|]. rewrite !(assoc_L app). split; [|split; [|split; [done|split]]].
  - intros _. apply elem_of_app. left. by rewrite <- (assoc_L app).
  - intros Hl. split; [done|]. rewrite !elem_of_app. left. left. left. by apply Hle.
  - apply precedes_app; [|left; by rewrite <- (assoc_L app)].
    apply precedes_app; [apply precedes_app|]; [done| |]; right; intros r Hr; [by apply Hhook|by apply Hcache].
  - repeat (apply precedes_app; [|right; intros r Hr]); [done|by apply Hhook|by apply Hcache|by apply Hother].
Qed.

Lemma LE_order_inv s nonLE :
  order_inv s → rn_LE s = Pending → nonLE = rn_nonLE s →
  order_inv (mkRun (startLeaderElectionRunnables (log_event Elected (rn_cm s))) nonLE Finished).
Proof.
  intros (Hcl & Hst & Hle & Hno & Hp1 & Hp2) Hpend ->. unfold order_inv. rewrite startLE_eq. cbn.
  change (cache_log (log_event Elected (rn_cm s))) with (cache_log (rn_cm s)).
  assert (Hsync : CachesWaitedFor ∈ (cm_log (rn_cm s) ++ [Elected]) ++ cache_log (rn_cm s)).
  { rewrite !elem_of_app. destruct (cm_started (rn_cm s)) eqn:E; [left; left; by apply Hst|].
    right. by apply cache_log_synced. }
  assert (Hcache : ∀ r, Started r ∈ cache_log (rn_cm s) → ¬ needs_caches r ∧ ¬ needs_election r).
  { intros r Hin%classified_started; [|done]. unfold needs_caches, needs_election.
    split; [intros [?|[? _]]|intros ?]; congruence. }
  assert (Hel : ∀ P, precedes CachesWaitedFor P (cm_log (rn_cm s)) → precedes CachesWaitedFor P (cm_log (rn_cm s) ++ [Elected])).
  { intros P HP. apply precedes_app; [done|]. right. intros r [=]%list_elem_of_singleton. }
  split; [done|]. rewrite !(assoc_L app). split; [|split; [|split; [|split]]].
  - intros _. apply elem_of_app. by left.
  - intros _. split; [done|]. rewrite !elem_of_app, list_elem_of_singleton. tauto.
  - intros Hn. destruct (Hno Hn) as (_ & _ & _ & ?). congruence.
  - apply precedes_app; [|by left]. apply precedes_app; [by apply Hel|]. right. intros r Hr. by apply Hcache.
  - repeat (apply precedes_app; [|left; rewrite !elem_of_app, list_elem_of_singleton; tauto]).
    apply precedes_app; [done|]. right. intros r [=]%list_elem_of_singleton.
Qed.

Lemma run_step_order_inv s s' : order_inv s → run_step s s' → order_inv s'.
Proof.
  intros Hinv [r cm err _ Hadd|cluster cm _ _ Hadd|Hn|Hl|timeout in_time cancel cm err cancelled Hstop].
  - by eapply add_order_inv.
  - by eapply add_order_inv.
  - by apply nonLE_order_inv.
  - by apply LE_order_inv.
  - destruct (engageStop_log _ _ _ _ _ _ _ Hstop) as (_ & Hr1 & Hr2 & Hr3 & Hs & Hsl & Hlog).
    unfold order_inv, classified in *. cbn. by rewrite Hr1, Hr2, Hr3, Hs, Hsl, Hlog.
Qed.

Lemma run_steps_order_inv s : rtc run_step new_run s → order_inv s.
Proof.
  assert (H0 : order_inv new_run).
  { split; [by repeat constructor|]. repeat split; try done; apply precedes_nil. }
  intros Hsteps. induction Hsteps as [|x y z Hxy _ IH]; [done|]. apply IH. by eapply run_step_order_inv.
Qed.

(** C7: in every execution of the manager, whatever is added when and however
    the goroutines of [Start] are scheduled: nothing is started before [Start];
    a runnable that needs leader election is started only after the manager
    was elected; and such a runnable, or one that needs no election and is no
    webhook server, is started only after all caches known by then were started
    and waited for. *)
Theorem manager_start_order s log r rest :
  rtc run_step new_run s → cm_log (rn_cm s) = log ++ Started r :: rest →
  rn_nonLE s ≠ NotLaunched
  ∧ (needs_election r → Elected ∈ log)
  ∧ (needs_caches r → CachesWaitedFor ∈ log).
Proof.
  intros (_ & _ & _ & Hno & Hp1 & Hp2)%run_steps_order_inv Hlog. split; [|split].
  - intros Hn. destruct (Hno Hn) as [Hnil _]. rewrite Hnil in Hlog. by destruct log.
  - by eapply Hp2.
  - by eapply Hp1.
Qed.

(** ** Executions where the webhooks go first *)

Definition started_lists (cm : Manager) (early : list Runnable) : list Runnable :=
  cm_nonLeaderElectionRunnables cm ++ early
  ++ (if cm_startedLeader cm then cm_leaderElectionRunnables cm else []).

(** What the first section logs when it finds the manager as [cm0] and the caches
    not started: the webhook servers, the caches, and after they were waited
    for the other runnables without leader election. *)
Definition section_log (cm0 : Manager) : list LogEvent :=
  (Started <$> webhooks cm0) ++ (Started <$> cm_caches cm0)
  ++ CachesWaitedFor :: (Started <$> other_runnables cm0).

(** After the first section no cache is started any more, and what was started is
    every runnable of the two lists (leader election permitting) and the
    caches of [cm0], once each. *)
Definition first_section_done (cm0 cm : Manager) : Prop :=
  cm_started cm = true ∧ ∃ late rest,
    cm_caches cm = cm_caches cm0 ++ late
    ∧ cm_log cm = section_log cm0 ++ rest
    ∧ (∀ r, Started r ∈ rest → classify r ≠ KindCache)
    ∧ started_in (cm_log cm) ≡ₚ started_lists cm (cm_caches cm0).

(** [cm0] is what the first section finds, once it has run. *)
Definition once_inv (cm0 : Manager) (s : Run) : Prop :=
  let cm := rn_cm s in
  NoDup (runnables cm) ∧ classified cm
  ∧ (cm_startedLeader cm = true ↔ rn_LE s = Finished)
  ∧ match rn_nonLE s with
    | Finished => first_section_done cm0 cm
    | Pending => cm_log cm = [] ∧ cm_started cm = false ∧ rn_LE s ≠ Finished
    | NotLaunched => cm_log cm = [] ∧ cm_started cm = false ∧ rn_LE s = NotLaunched
    end.

Lemma webhooks_first cm : webhooks cm ++ other_runnables cm ≡ₚ cm_nonLeaderElectionRunnables cm.
Proof.
  unfold webhooks, other_runnables. induction (cm_nonLeaderElectionRunnables cm) as [|r rs IH]; [done|].
  rewrite !filter_cons. destruct (r_webhook r) eqn:Hr.
  - rewrite decide_True, decide_False by congruence. by rewrite <- app_comm_cons, IH.
  - rewrite decide_False, decide_True by congruence. by rewrite <- Permutation_middle, IH.
Qed.

Lemma runnables_Add r cm cm' :
  Add r cm = (cm', None) → runnables cm' ≡ₚ r :: runnables cm.
Proof.
  intros Hadd. destruct (Add_effect _ _ _ _ Hadd) as [[? _]|(_ & _ & _ & Heff)]; [done|].
  unfold runnables. destruct (classify r); destruct Heff as (-> & -> & -> & _); solve_Permutation.
Qed.

Lemma classified_Add r cm cm' err : Add r cm = (cm', err) → classified cm → classified cm'.
Proof.
  intros Hadd (H1 & H2 & H3). destruct (Add_effect _ _ _ _ Hadd) as [[_ ->]|(_ & _ & _ & Heff)]; [done|].
  unfold classified. destruct (classify r) eqn:Hr; destruct Heff as (-> & -> & -> & _);
    repeat split; try done; apply Forall_app; by repeat constructor.
Qed.

Lemma first_section_Add cm0 r cm cm' :
  Add r cm = (cm', None) → first_section_done cm0 cm → first_section_done cm0 cm'.
Proof.
  intros Hadd (Hst & late & rest & Hc & Hlog & Hrest & Hperm).
  destruct (Add_effect _ _ _ _ Hadd) as [[? _]|(_ & Hs & Hl & Heff)]; [done|].
  unfold first_section_done, started_lists in *. rewrite Hs, Hl. split; [done|].
  assert (Hmore : classify r ≠ KindCache → ∀ x, Started x ∈ rest ++ [Started r] → classify x ≠ KindCache).
  { intros Hr x [Hx|[= ->]%list_elem_of_singleton]%elem_of_app; [by apply Hrest|done]. }
  destruct (classify r) eqn:Hr; destruct Heff as (-> & -> & -> & ->).
  - rewrite Hst. exists late, (rest ++ [Started r]). split; [done|].
    split; [by rewrite Hlog, <- (assoc_L app)|]. split; [by apply Hmore|].
    rewrite started_in_app, Hperm. cbn. solve_Permutation.
  - exists (late ++ [r]), rest. split; [by rewrite Hc, (assoc_L app)|]. done.
  - destruct (cm_startedLeader cm); [|rewrite app_nil_r; by exists late, rest].
    exists late, (rest ++ [Started r]). split; [done|].
    split; [by rewrite Hlog, <- (assoc_L app)|]. split; [by apply Hmore|].
    rewrite started_in_app, Hperm. cbn. solve_Permutation.
Qed.

Lemma Add_rejected r cm cm' e : Add r cm = (cm', Some e) → cm' = cm.
Proof. intros Hadd. by destruct (Add_effect _ _ _ _ Hadd) as [[_ ?]|[? _]]. Qed.

Lemma Add_flags r cm cm' : Add r cm = (cm', None) →
  cm_started cm' = cm_started cm ∧ cm_startedLeader cm' = cm_startedLeader cm
  ∧ (cm_started cm = false → cm_startedLeader cm = false → cm_log cm' = cm_log cm).
Proof.
  intros Hadd. destruct (Add_effect _ _ _ _ Hadd) as [[? _]|(_ & Hs & Hl & Heff)]; [done|].
  split; [done|]. split; [done|]. intros E1 E2.
  destruct (classify r); destruct Heff as (_ & _ & _ & ->); by rewrite ?E1, ?E2, ?app_nil_r.
Qed.

Lemma once_inv_Add cm0 s r cm nonLE LE :
  once_inv cm0 s → r ∉ runnables (rn_cm s) → Add r (rn_cm s) = (cm, None) →
  (nonLE = rn_nonLE s ∧ LE = rn_LE s) ∨ (rn_nonLE s = NotLaunched ∧ nonLE = Pending ∧ LE = Pending) →
  once_inv cm0 (mkRun cm nonLE LE).
Proof.
  intros (Hnd & Hcl & Hle & Hphase) Hr Hadd Hnew. unfold once_inv. cbn.
  destruct (Add_flags _ _ _ Hadd) as (Hs & Hl & Hlog). rewrite Hl.
  split; [rewrite (runnables_Add _ _ _ Hadd); by apply NoDup_cons|].
  split; [by eapply classified_Add|].
  destruct Hnew as [[-> ->]|(Hn & -> & ->)].
  - split; [done|]. destruct (rn_nonLE s).
    + destruct Hphase as (? & ? & HLE). rewrite Hs, Hlog; [done|done|].
      apply not_true_is_false. rewrite Hle, HLE. done.
    + destruct Hphase as (? & ? & HLE). rewrite Hs, Hlog; [done|done|].
      apply not_true_is_false. by rewrite Hle.
    + by eapply first_section_Add.
  - rewrite Hn in Hphase. destruct Hphase as (? & ? & HLE).
    assert (cm_startedLeader (rn_cm s) = false) as Hf by (apply not_true_is_false; by rewrite Hle, HLE).
    rewrite Hs, Hf, Hlog by done. repeat split; done.
Qed.

Lemma once_inv_nonLE cm0 s :
  once_inv cm0 s → rn_nonLE s = Pending →
  once_inv (rn_cm s) (mkRun (startNonLeaderElectionRunnables (rn_cm s)) Finished (rn_LE s)).
Proof.
  intros (Hnd & Hcl & Hle & Hphase) Hpend. rewrite Hpend in Hphase. destruct Hphase as (Hlog & Hs & HLE).
  unfold once_inv. rewrite startNonLE_eq. cbn. split; [done|]. split; [done|]. split; [done|].
  assert (Hf : cm_startedLeader (rn_cm s) = false) by (apply not_true_is_false; by rewrite Hle).
  unfold first_section_done. cbn. split; [done|].
  exists [], []. unfold cache_log. rewrite Hs, Hlog, !app_nil_r. cbn [app]. split; [done|].
  split; [unfold section_log; by rewrite <- !(assoc_L app)|]. split; [by intros r ?%elem_of_nil|].
  unfold started_lists. cbn. rewrite Hf, !started_in_app, !started_in_Started, app_nil_r. cbn.
  rewrite <- (webhooks_first (rn_cm s)), app_nil_r. solve_Permutation.
Qed.

Lemma once_inv_LE cm0 s nonLE :
  once_inv cm0 s → rn_LE s = Pending → nonLE = Finished → rn_nonLE s = Finished →
  once_inv cm0 (mkRun (startLeaderElectionRunnables (log_event Elected (rn_cm s))) nonLE Finished).
Proof.
  intros (Hnd & Hcl & Hle & Hphase) Hpend -> Hn. rewrite Hn in Hphase.
  destruct Hphase as (Hs & late & rest & Hc & Hlog & Hrest & Hperm).
  assert (Hf : cm_startedLeader (rn_cm s) = false) by (apply not_true_is_false; by rewrite Hle, Hpend).
  unfold once_inv. rewrite startLE_eq. cbn. split; [done|]. split; [done|]. split; [done|].
  unfold first_section_done, started_lists, cache_log in *. cbn. rewrite Hs, Hf in *. cbn [app] in *.
  split; [done|]. exists late, (rest ++ Elected :: (Started <$> cm_leaderElectionRunnables (rn_cm s))).
  split; [done|]. split; [rewrite Hlog; by rewrite <- !(assoc_L app)|]. split.
  - destruct Hcl as (_ & _ & H3). rewrite Forall_forall in H3.
    intros r [?|[[=]|Hin%Started_fmap%H3]%elem_of_cons]%elem_of_app; [by apply Hrest|congruence].
  - rewrite !started_in_app, started_in_Started, Hperm. cbn. rewrite !app_nil_r. solve_Permutation.
Qed.

(** The first section runs at most once, and the invariant takes over what it
    finds. *)
Lemma once_inv_step cm0 s s' : once_inv cm0 s → ordered_step s s' →
  (rn_nonLE s' = Finished → rn_nonLE s = Finished) ∧ once_inv cm0 s'
  ∨ rn_nonLE s = Pending ∧ rn_nonLE s' = Finished ∧ once_inv (rn_cm s) s'.
Proof.
  intros Hinv [Hstep Hord].
  destruct Hstep as [r cm err Hr Hadd|cluster cm Hn Hr Hadd|Hn|Hl|timeout in_time cancel cm err cancelled Hstop].
  - left. split; [done|]. destruct err as [e|]; [apply Add_rejected in Hadd as ->; by destruct s|].
    eapply once_inv_Add; eauto.
  - left. split; [done|]. eapply once_inv_Add; eauto.
  - right. split; [done|]. split; [done|]. by eapply once_inv_nonLE.
  - left. split; [done|]. cbn in Hord. apply once_inv_LE; auto.
  - left. split; [done|]. destruct (engageStop_log _ _ _ _ _ _ _ Hstop) as (Hr & Hr1 & Hr2 & Hr3 & Hs & Hsl & Hlog).
    unfold once_inv, classified, first_section_done, started_lists in *. cbn.
    by rewrite Hr, Hr1, Hr2, Hr3, Hs, Hsl, Hlog.
Qed.

(** The first section of the execution to [s]: it found the manager as [cm0]. *)
Definition first_section (cm0 : Manager) (s : Run) : Prop :=
  ∃ s0 s1, rtc ordered_step new_run s0 ∧ rn_nonLE s0 = Pending ∧ rn_cm s0 = cm0
    ∧ ordered_step s0 s1 ∧ rn_nonLE s1 = Finished ∧ rtc ordered_step s1 s.

Lemma first_section_step cm0 s s' : first_section cm0 s → ordered_step s s' → first_section cm0 s'.
Proof.
  intros (s0 & s1 & ? & ? & ? & ? & ? & Hs) Hstep. exists s0, s1. do 5 (split; [done|]).
  by eapply rtc_r.
Qed.

Lemma ordered_steps_inv s : rtc ordered_step new_run s →
  ∃ cm0, once_inv cm0 s ∧ (rn_nonLE s = Finished → first_section cm0 s).
Proof.
  revert s. apply rtc_ind_r.
  { exists new_manager. split; [|done]. repeat split; try done; repeat constructor. }
  intros s s' Hs Hstep (cm0 & Hinv & Hsec).
  destruct (once_inv_step _ _ _ Hinv Hstep) as [[Hn Hinv']|(Hp & Hf & Hinv')].
  - exists cm0. split; [done|]. intros Hf. eapply first_section_step; [|done]. auto.
  - exists (rn_cm s). split; [done|]. intros _. exists s, s'. by repeat (split; [done|]).
Qed.

(** C10: in the executions where the goroutine that starts the webhook servers
    gets the manager's mutex first, every runnable is started at most once.
    With [cm0] what that goroutine finds, the log begins with the webhook
    servers of [cm0] in the order they were added, then its caches, then the
    waiting for them, then its other runnables without leader election; after
    that no cache is started.  Once both goroutines are through, every
    accepted runnable has been started, except for the caches that are not
    of [cm0]. *)
Theorem ordered_starts_once s :
  rtc ordered_step new_run s →
  let cm := rn_cm s in
  NoDup (started_in (cm_log cm))
  ∧ (rn_nonLE s = Finished → ∃ cm0 rest,
       first_section cm0 s
       ∧ cm_log cm = (Started <$> webhooks cm0) ++ (Started <$> cm_caches cm0)
                     ++ CachesWaitedFor :: (Started <$> other_runnables cm0) ++ rest
       ∧ (∀ r, Started r ∈ rest → classify r ≠ KindCache)
       ∧ (rn_LE s = Finished → ∀ r,
            Started r ∈ cm_log cm ↔
            r ∈ cm_nonLeaderElectionRunnables cm ++ cm_caches cm0 ++ cm_leaderElectionRunnables cm)).
Proof.
  intros (cm0 & (Hnd & Hcl & Hle & Hphase) & Hsec)%ordered_steps_inv cm.
  fold cm in Hnd, Hcl, Hle, Hphase. split.
  - destruct (rn_nonLE s); [destruct Hphase as (-> & _); constructor|destruct Hphase as (-> & _); constructor|].
    destruct Hphase as (_ & late & rest & Hc & _ & _ & Hperm).
    rewrite Hperm. unfold runnables in Hnd. rewrite Hc in Hnd. unfold started_lists.
    eapply sublist_NoDup; [exact Hnd|]. apply sublist_app; [done|]. apply sublist_app.
    + apply sublist_inserts_r. done.
    + destruct (cm_startedLeader cm); [done|apply sublist_nil_l].
  - intros Hfin. specialize (Hsec Hfin). rewrite Hfin in Hphase.
    destruct Hphase as (_ & late & rest & Hc & Hlog & Hrest & Hperm).
    exists cm0, rest. split; [done|]. split; [rewrite Hlog; unfold section_log; by rewrite <- !(assoc_L app)|].
    split; [done|]. intros HLE r. rewrite <- elem_of_started_in, Hperm. unfold started_lists.
    apply Hle in HLE. by rewrite HLE.
Qed.

(** ** Clusters added late *)

(** The runnable is known to the manager as one with a cache, and the caches
    have been started without it. *)
Definition left_out (r : Runnable) (s : Run) : Prop :=
  classified (rn_cm s) ∧ cm_started (rn_cm s) = true ∧ r ∈ cm_caches (rn_cm s)
  ∧ Started r ∉ cm_log (rn_cm s).

Lemma left_out_step r s s' : left_out r s → run_step s s' → left_out r s'.
Proof.
  intros (Hcl & Hs & Hin & Hno) Hstep. pose proof Hcl as (H1 & H2 & H3).
  rewrite Forall_forall in H1, H2, H3. pose proof (H2 _ Hin) as Hr.
  assert (Hlists : ∀ x (rs : list Runnable), (∀ y, y ∈ rs → classify y = x) → x ≠ KindCache → Started r ∉ Started <$> rs).
  { intros x rs Hrs Hx Hc%Started_fmap%Hrs. congruence. }
  assert (Hadd : ∀ x cm err, x ∉ runnables (rn_cm s) → Add x (rn_cm s) = (cm, err) →
    left_out r (mkRun cm (rn_nonLE s) (rn_LE s))).
  { intros x cm err Hx Ha. unfold left_out. cbn.
    assert (x ≠ r) by (intros ->; apply Hx; unfold runnables; rewrite !elem_of_app; auto).
    pose proof (classified_Add _ _ _ _ Ha Hcl).
    destruct (Add_effect _ _ _ _ Ha) as [[_ ->]|(_ & Hs' & _ & Heff)]; [done|].
    rewrite Hs'. split; [done|]. split; [done|].
    destruct (classify x); destruct Heff as (_ & -> & _ & ->); rewrite ?Hs, ?elem_of_app;
      (split; [by auto|]); try done;
      try (destruct (cm_startedLeader (rn_cm s)));
      rewrite ?list_elem_of_singleton, ?elem_of_nil; intros [?|?]; congruence. }
  destruct Hstep as [x cm err Hx Ha|cluster cm _ Hx Ha|Hn|Hl|timeout in_time cancel cm err cancelled Hstop].
  - by eapply Hadd.
  - by eapply Hadd.
  - unfold left_out. rewrite startNonLE_eq. cbn. unfold cache_log. rewrite Hs. cbn [app].
    repeat (split; [done|]). rewrite !elem_of_app.
    intros [?|[Hc|Hc]]; [done|..]; revert Hc; apply (Hlists KindNonLeaderElection); try done;
      intros y [_ Hy]%list_elem_of_filter; by apply H1.
  - unfold left_out. rewrite startLE_eq. cbn. unfold cache_log. cbn. rewrite Hs. cbn [app].
    repeat (split; [done|]). rewrite !elem_of_app, list_elem_of_singleton.
    intros [[?|?]|Hc]; [done..|]. revert Hc. by apply (Hlists KindLeaderElection).
  - destruct (engageStop_log _ _ _ _ _ _ _ Hstop) as (Hr0 & Hr1 & Hr2 & Hr3 & Hs' & Hsl & Hlog).
    unfold left_out, classified. cbn. by rewrite Hr1, Hr2, Hr3, Hs', Hlog.
Qed.

(** A runnable with a cache (a cluster) that is added once the caches have
    been started is accepted, without an error, but is never started, however
    the execution goes on. *)
Theorem late_cluster_never_started s r cm s' :
  rtc run_step new_run s → cm_started (rn_cm s) = true → r ∉ runnables (rn_cm s) →
  Started r ∉ cm_log (rn_cm s) → classify r = KindCache →
  Add r (rn_cm s) = (cm, None) →
  rtc run_step (mkRun cm (rn_nonLE s) (rn_LE s)) s' → Started r ∉ cm_log (rn_cm s').
Proof.
  intros (Hcl & _)%run_steps_order_inv Hs Hr Hno Hk Hadd Hsteps.
  assert (Hout : left_out r (mkRun cm (rn_nonLE s) (rn_LE s))).
  { pose proof (classified_Add _ _ _ _ Hadd Hcl).
    destruct (Add_effect _ _ _ _ Hadd) as [[? _]|(_ & Hs' & _ & Heff)]; [done|].
    rewrite Hk in Heff. destruct Heff as (_ & Hc & _ & Hlog).
    unfold left_out. cbn. rewrite Hs', Hc, Hlog. split; [done|]. split; [done|]. split; [|done].
    apply elem_of_app. right. by left. }
  clear Hadd. induction Hsteps as [|x y z Hxy _ IH]; [by destruct Hout as (_ & _ & _ & ?)|].
  apply IH. by eapply left_out_step.
Qed.

End manager.
Arguments Manager : clear implicits.
Arguments Run : clear implicits.

(** ** Executions where the webhooks do not go first *)

Definition sample_webhook : Runnable := mkRunnable 0 (Some false) false true.
Definition sample_cluster : Runnable := mkRunnable 1 None true false.
Definition sample_runnable : Runnable := mkRunnable 2 (Some false) false false.

Definition sample_state (nonLE caches : list Runnable) (started : bool) (log : list LogEvent)
    (p1 p2 : Phase) : Run unit unit :=
  mkRun (mkManager nonLE [] caches started started false false ∅ None None log) p1 p2.

Lemma step_to {A} (R : A → A → Prop) x y z : R x y → y = z → R x z.
Proof. by intros ? <-. Qed.

Lemma sample_fresh (r : Runnable) (rs : list Runnable) :
  bool_decide (r ∈ rs) = false → r ∉ rs.
Proof. intros Hb Hin. apply bool_decide_eq_false in Hb. exact (Hb Hin). Qed.

(** Nothing orders the two goroutines [Start] launches.  In the execution
    where the second one gets the mutex first, the caches are started, and
    waited for, before the webhook server that was added first, and a runnable
    added in between is started twice. *)
Theorem unordered_start_runs_twice :
  ∃ s : Run unit unit,
    rtc (run_step (λ _, None)) new_run s
    ∧ runnables (rn_cm s) = [sample_webhook; sample_runnable; sample_cluster]
    ∧ cm_log (rn_cm s) = [Elected; Started sample_cluster; CachesWaitedFor; Started sample_runnable;
                          Started sample_webhook; Started sample_runnable].
Proof.
  pose (w := Started sample_webhook). pose (r := Started sample_runnable).
  pose (c := [Elected; Started sample_cluster; CachesWaitedFor]).
  exists (sample_state [sample_webhook; sample_runnable] [sample_cluster] true (c ++ [r; w; r]) Finished Finished).
  split; [|split; reflexivity].
  apply (rtc_l _ _ (sample_state [sample_webhook] [] false [] NotLaunched NotLaunched)).
  { apply (run_Add _ new_run sample_webhook _ None); [by apply sample_fresh|reflexivity]. }
  apply (rtc_l _ _ (sample_state [sample_webhook] [sample_cluster] false [] Pending Pending)).
  { apply (run_Start _ (sample_state _ _ _ _ _ _) sample_cluster); [reflexivity|by apply sample_fresh|reflexivity]. }
  apply (rtc_l _ _ (sample_state [sample_webhook] [sample_cluster] true c Pending Finished)).
  { eapply step_to; [apply run_LE; reflexivity|reflexivity]. }
  apply (rtc_l _ _ (sample_state [sample_webhook; sample_runnable] [sample_cluster] true (c ++ [r]) Pending Finished)).
  { eapply step_to; [eapply (run_Add _ _ sample_runnable _ None); [by apply sample_fresh|reflexivity]|reflexivity]. }
  apply rtc_once. eapply step_to; [apply run_nonLE; reflexivity|reflexivity].
Qed.
