(* ===== verification/Regex.v ===== *)
(** * Regular expressions and canonical numbers

    Regular expressions with named groups, the way src/tools/setup-envtest/versions
    uses Go's [regexp]: their meaning as a relation, the backtracking search
    that prefers the leftmost alternative, and the theorem that ties the two.
    Then the decimal numbers without leading zeros that the version expressions
    are made of. *)

From Stdlib Require Import Ascii Decimal DecimalString DecimalFacts DecimalN.
From S2P Require Export Prelude.

(** ** Strings *)

Fixpoint str_all (P : ascii → bool) (s : string) : bool :=
  match s with
  | EmptyString => true
  | String a s => P a && str_all P s
  end.

(** The string does not begin with a character of the class. *)
Definition not_starting (P : ascii → bool) (s : string) : Prop :=
  match s with EmptyString => True | String a _ => P a = false end.

Lemma str_app_nil_l (s : string) : "" +:+ s = s.
Proof. done. Qed.

Lemma str_all_app P s t : str_all P (s +:+ t) = str_all P s && str_all P t.
Proof. induction s as [|a s IH]; [done|]. rewrite str_app_cons. cbn. by rewrite IH, andb_assoc. Qed.

Lemma str_all_mono (P Q : ascii → bool) s :
  (∀ a, P a = true → Q a = true) → str_all P s = true → str_all Q s = true.
Proof.
  intros HPQ. induction s as [|a s IH]; [done|]. cbn.
  intros [Ha Hs]%andb_true_iff. by rewrite (HPQ a), IH.
Qed.

(** A run of a class ends where a character outside it follows. *)
Lemma run_unique P a b a' b' :
  str_all P a = true → str_all P a' = true → not_starting P b → not_starting P b' →
  a +:+ b = a' +:+ b' → a = a' ∧ b = b'.
Proof.
  revert a'. induction a as [|x a IH]; intros [|y a'] Ha Ha' Hb Hb' Heq;
    rewrite ?str_app_cons in Heq.
  - done.
  - change (b = String y (a' +:+ b')) in Heq. rewrite Heq in Hb. cbn in Hb, Ha'. by rewrite Hb in Ha'.
  - change (String x (a +:+ b) = b') in Heq. rewrite <- Heq in Hb'. cbn in Hb', Ha. by rewrite Hb' in Ha.
  - injection Heq as -> Heq. cbn in Ha, Ha'.
    apply andb_true_iff in Ha as [_ Ha], Ha' as [_ Ha']. by destruct (IH a') as [-> ->].
Qed.

(** ** Regular expressions *)

Inductive regex :=
  | RChar (P : ascii → bool)
  | RStar (P : ascii → bool)
  | REmpty
  | RSeq (r1 r2 : regex)
  | RAlt (r1 r2 : regex)
  | RGroup (name : string) (r : regex).

Fixpoint RLit (l : string) : regex :=
  match l with
  | EmptyString => REmpty
  | String a l => RSeq (RChar (Ascii.eqb a)) (RLit l)
  end.
Definition ROpt (r : regex) : regex := RAlt r REmpty.
Definition RPlus (P : ascii → bool) : regex := RSeq (RChar P) (RStar P).

(** The groups that took part in a match, with what they matched. *)
Definition captures := list (string * string).

(** [match[re.SubexpIndex(name)]]; a group that took no part is empty. *)
Definition capture (name : string) (c : captures) : string :=
  match list_find (λ g, g.1 = name) c with
  | Some (_, (_, s)) => s
  | None => ""
  end.

Inductive matches : regex → string → captures → Prop :=
  | matches_Char (P : ascii → bool) a : P a = true → matches (RChar P) (String a "") []
  | matches_Star P s : str_all P s = true → matches (RStar P) s []
  | matches_Empty : matches REmpty "" []
  | matches_Seq r1 r2 s1 s2 c1 c2 :
      matches r1 s1 c1 → matches r2 s2 c2 → matches (RSeq r1 r2) (s1 +:+ s2) (c1 ++ c2)
  | matches_Alt_l r1 r2 s c : matches r1 s c → matches (RAlt r1 r2) s c
  | matches_Alt_r r1 r2 s c : matches r2 s c → matches (RAlt r1 r2) s c
  | matches_Group name r s c : matches r s c → matches (RGroup name r) s ((name, s) :: c).

Lemma matches_Char_iff P s c :
  matches (RChar P) s c ↔ ∃ a, s = String a "" ∧ P a = true ∧ c = [].
Proof. split; [inversion 1; subst; eauto|]. intros (a & -> & ? & ->). by constructor. Qed.
Lemma matches_Star_iff P s c : matches (RStar P) s c ↔ str_all P s = true ∧ c = [].
Proof. split; [inversion 1; subst; eauto|]. intros [? ->]. by constructor. Qed.
Lemma matches_Empty_iff s c : matches REmpty s c ↔ s = "" ∧ c = [].
Proof. split; [by inversion 1|]. intros [-> ->]. constructor. Qed.
Lemma matches_Seq_iff r1 r2 s c :
  matches (RSeq r1 r2) s c ↔
  ∃ s1 s2 c1 c2, s = s1 +:+ s2 ∧ c = c1 ++ c2 ∧ matches r1 s1 c1 ∧ matches r2 s2 c2.
Proof.
  split; [inversion 1; subst; by eauto 10|].
  intros (s1 & s2 & c1 & c2 & -> & -> & ? & ?). by constructor.
Qed.
Lemma matches_Alt_iff r1 r2 s c : matches (RAlt r1 r2) s c ↔ matches r1 s c ∨ matches r2 s c.
Proof. split; [inversion 1; subst; auto|]. intros [?|?]; [by apply matches_Alt_l|by apply matches_Alt_r]. Qed.
Lemma matches_Group_iff name r s c :
  matches (RGroup name r) s c ↔ ∃ c', c = (name, s) :: c' ∧ matches r s c'.
Proof. split; [inversion 1; subst; eauto|]. intros (c' & -> & ?). by constructor. Qed.

Lemma matches_Lit_iff l s c : matches (RLit l) s c ↔ s = l ∧ c = [].
Proof.
  revert s c. induction l as [|a l IH]; intros s c; cbn; [apply matches_Empty_iff|].
  rewrite matches_Seq_iff. split.
  - intros (s1 & s2 & c1 & c2 & -> & -> & H1 & H2).
    apply matches_Char_iff in H1 as (b & -> & ->%Ascii.eqb_eq & ->).
    by apply IH in H2 as [-> ->].
  - intros [-> ->]. exists (String a ""), l, [], []. split; [done|]. split; [done|].
    split; [|by apply IH]. constructor. apply Ascii.eqb_refl.
Qed.

Lemma matches_Plus_iff P s c :
  matches (RPlus P) s c ↔ s ≠ "" ∧ str_all P s = true ∧ c = [].
Proof.
  unfold RPlus. rewrite matches_Seq_iff. split.
  - intros (s1 & s2 & c1 & c2 & -> & -> & H1 & H2).
    apply matches_Char_iff in H1 as (b & -> & Hb & ->). apply matches_Star_iff in H2 as [H2 ->].
    rewrite str_app_cons, str_app_nil_l. cbn. by rewrite Hb, H2.
  - intros (Hne & Hall & ->). destruct s as [|a s]; [done|]. cbn in Hall.
    apply andb_true_iff in Hall as [? ?]. exists (String a ""), s, [], [].
    repeat split; by constructor.
Qed.

(** ** The search

    Backtracking with a continuation, the left alternative and the longer run
    first, as Go documents its preference. *)

Fixpoint star_run {A} (P : ascii → bool) (s : string) (k : string → option A) : option A :=
  match s with
  | EmptyString => k EmptyString
  | String a t =>
      if P a then match star_run P t k with Some x => Some x | None => k s end else k s
  end.

Fixpoint search {A} (r : regex) (s : string) (k : captures → string → option A) : option A :=
  match r with
  | RChar P => match s with
               | String a t => if P a then k [] t else None
               | EmptyString => None
               end
  | RStar P => star_run P s (k [])
  | REmpty => k [] s
  | RSeq r1 r2 => search r1 s (λ c1 s1, search r2 s1 (λ c2 s2, k (c1 ++ c2) s2))
  | RAlt r1 r2 => match search r1 s k with Some x => Some x | None => search r2 s k end
  | RGroup name r =>
      search r s (λ c t, k ((name, str_take (String.length s - String.length t) s) :: c) t)
  end.

(** [FindStringSubmatch] of an expression between [^] and [$]. *)
Definition FindStringSubmatch (r : regex) (s : string) : option captures :=
  search r s (λ c rest, if decide (rest = "") then Some c else None).

Lemma star_run_sound {A} P s (k : string → option A) x :
  star_run P s k = Some x → ∃ s1 s2, s = s1 +:+ s2 ∧ str_all P s1 = true ∧ k s2 = Some x.
Proof.
  induction s as [|a t IH]; cbn.
  - intros Hk. by exists "", "".
  - destruct (P a) eqn:Ha.
    + destruct (star_run P t k) as [y|] eqn:Hr.
      * intros [= ->]. destruct (IH eq_refl) as (s1 & s2 & -> & H1 & H2).
        exists (String a s1), s2. split; [done|]. cbn. by rewrite Ha.
      * intros Hk. by exists "", (String a t).
    + intros Hk. by exists "", (String a t).
Qed.

Lemma star_run_complete {A} P s1 s2 (k : string → option A) :
  str_all P s1 = true → k s2 ≠ None → star_run P (s1 +:+ s2) k ≠ None.
Proof.
  induction s1 as [|a s1 IH]; intros Hall Hk.
  - rewrite str_app_nil_l. destruct s2 as [|b t]; cbn; [exact Hk|].
    destruct (P b); [|exact Hk]. destruct (star_run P t k); [discriminate|exact Hk].
  - rewrite str_app_cons. cbn in Hall |- *. apply andb_true_iff in Hall as [-> Hall].
    specialize (IH Hall Hk). by destruct (star_run P (s1 +:+ s2) k).
Qed.

Lemma search_sound {A} r s (k : captures → string → option A) x :
  search r s k = Some x → ∃ s1 s2 c, s = s1 +:+ s2 ∧ matches r s1 c ∧ k c s2 = Some x.
Proof.
  revert A s k x.
  induction r as [P|P| |r1 IH1 r2 IH2|r1 IH1 r2 IH2|n r IH]; intros A s k x Hs; cbn in Hs.
  - destruct s as [|a t]; [done|]. destruct (P a) eqn:Ha; [|done].
    exists (String a ""), t, []. split; [done|]. split; [by constructor|done].
  - apply star_run_sound in Hs as (s1 & s2 & -> & ? & ?). exists s1, s2, [].
    split; [done|]. split; [by constructor|done].
  - exists "", s, []. split; [done|]. split; [constructor|done].
  - apply IH1 in Hs as (s1 & t & c1 & -> & H1 & Hs).
    apply IH2 in Hs as (s2 & u & c2 & -> & H2 & Hs).
    exists (s1 +:+ s2), u, (c1 ++ c2). split; [by rewrite str_app_assoc|]. split; [by constructor|done].
  - destruct (search r1 s k) as [y|] eqn:H1.
    + injection Hs as ->. apply IH1 in H1 as (s1 & s2 & c & -> & ? & ?).
      exists s1, s2, c. split; [done|]. split; [by apply matches_Alt_l|done].
    + apply IH2 in Hs as (s1 & s2 & c & -> & ? & ?).
      exists s1, s2, c. split; [done|]. split; [by apply matches_Alt_r|done].
  - apply IH in Hs as (s1 & s2 & c & -> & Hm & Hs).
    rewrite str_app_length, Nat.add_sub in Hs. unfold str_take in Hs. rewrite substring_app_l in Hs.
    exists s1, s2, ((n, s1) :: c). split; [done|]. split; [by constructor|done].
Qed.

Lemma search_complete {A} r s1 s2 c (k : captures → string → option A) :
  matches r s1 c → k c s2 ≠ None → search r (s1 +:+ s2) k ≠ None.
Proof.
  intros Hm. revert A s2 k.
  induction Hm as [P a Ha|P s Hs| |r1 r2 s1 s1' c1 c2 _ IH1 _ IH2|r1 r2 s1 c _ IH|r1 r2 s1 c _ IH|n r s1 c _ IH];
    intros A s2 k Hk.
  - rewrite str_app_cons, str_app_nil_l. cbn. by rewrite Ha.
  - by apply star_run_complete.
  - done.
  - rewrite str_app_assoc. cbn. apply IH1. by apply IH2.
  - specialize (IH _ _ _ Hk). cbn. by destruct (search r1 (s1 +:+ s2) k).
  - specialize (IH _ _ _ Hk). cbn. by destruct (search r1 (s1 +:+ s2) k).
  - cbn. apply IH. rewrite str_app_length, Nat.add_sub. unfold str_take. by rewrite substring_app_l.
Qed.

(** An expression that matches a string in one way only. *)
Definition unambiguous (r : regex) : Prop :=
  ∀ s c c', matches r s c → matches r s c' → c = c'.

Lemma FindStringSubmatch_sound r s c : FindStringSubmatch r s = Some c → matches r s c.
Proof.
  intros (s1 & s2 & c' & -> & Hm & Hk)%search_sound. case_decide as Hs2; [|done].
  injection Hk as ->. subst s2. by rewrite str_app_nil_r.
Qed.

Lemma FindStringSubmatch_None r s : FindStringSubmatch r s = None ↔ ∀ c, ¬ matches r s c.
Proof.
  split.
  - intros Hn c Hm. apply (search_complete _ _ "" _ (λ c rest, if decide (rest = "") then Some c else None)) in Hm.
    + rewrite str_app_nil_r in Hm. by apply Hm.
    + by rewrite decide_True.
  - intros Hno. destruct (FindStringSubmatch r s) as [c|] eqn:Hf; [|done].
    by apply FindStringSubmatch_sound, Hno in Hf.
Qed.

Lemma FindStringSubmatch_iff r s c :
  unambiguous r → FindStringSubmatch r s = Some c ↔ matches r s c.
Proof.
  intros Hu. split; [apply FindStringSubmatch_sound|]. intros Hm.
  destruct (FindStringSubmatch r s) as [c'|] eqn:Hf.
  - f_equal. eapply Hu; [by apply FindStringSubmatch_sound|done].
  - by apply FindStringSubmatch_None in Hm.
Qed.

(** ** Numbers without leading zeros *)

Definition between (lo hi a : ascii) : bool := (Ascii.leb lo a && Ascii.leb a hi)%bool.
Definition digit : ascii → bool := between "0" "9".
Definition digit19 : ascii → bool := between "1" "9".

(** [0|[1-9]\d*] *)
Definition number_re : regex := RAlt (RLit "0") (RSeq (RChar digit19) (RStar digit)).

(** A string that number_re matches. *)
Definition is_number (s : string) : bool :=
  match s with
  | EmptyString => false
  | String a t => digit a && str_all digit t && (digit19 a || bool_decide (t = ""))
  end.

Lemma digit19_digit a : digit19 a = true → digit a = true.
Proof.
  destruct a as [[] [] [] [] [] [] [] []]; by vm_compute.
Qed.

Lemma digit_not19 a : digit a = true → digit19 a = false → a = "0"%char.
Proof. destruct a as [[] [] [] [] [] [] [] []]; by vm_compute. Qed.

Lemma matches_number_iff s c : matches number_re s c ↔ is_number s = true ∧ c = [].
Proof.
  unfold number_re. rewrite matches_Alt_iff, matches_Lit_iff, matches_Seq_iff. split.
  - intros [[-> ->]|(s1 & s2 & c1 & c2 & -> & -> & H1 & H2)]; [done|].
    apply matches_Char_iff in H1 as (a & -> & Ha & ->). apply matches_Star_iff in H2 as [H2 ->].
    rewrite str_app_cons, str_app_nil_l. cbn. by rewrite (digit19_digit a), H2, Ha.
  - intros [Hn ->]. destruct s as [|a t]; [done|]. cbn in Hn.
    apply andb_true_iff in Hn as [[Ha Ht]%andb_true_iff H19].
    destruct (digit19 a) eqn:E.
    + right. exists (String a ""), t, [], []. repeat split; by constructor.
    + left. cbn in H19. apply bool_decide_eq_true in H19 as ->. by rewrite (digit_not19 a).
Qed.

Lemma is_number_digits s : is_number s = true → s ≠ "" ∧ str_all digit s = true.
Proof.
  destruct s as [|a t]; [done|]. cbn. intros [[Ha Ht]%andb_true_iff _]%andb_true_iff.
  split; [done|]. by rewrite Ha.
Qed.

Lemma digits_uint s : str_all digit s = true → ∃ d, NilEmpty.uint_of_string s = Some d.
Proof.
  induction s as [|a s IH]; cbn; [eauto|]. intros [Ha Hs]%andb_true_iff.
  destruct (IH Hs) as [d ->]. clear IH Hs.
  destruct a as [[] [] [] [] [] [] [] []]; try (by vm_compute in Ha); cbn; eauto.
Qed.

Lemma uint_digits d : str_all digit (NilEmpty.string_of_uint d) = true.
Proof. induction d; [done|..]; cbn; by rewrite IHd. Qed.

(** The numbers are the decimal representations of the integers. *)
Lemma number_FormatUint s : is_number s = true → ∃ z, (0 ≤ z)%Z ∧ s = FormatUint z.
Proof.
  intros Hn. pose proof (is_number_digits _ Hn) as [Hne Hall].
  destruct (digits_uint _ Hall) as [d Hd].
  assert (Hz : NilZero.uint_of_string s = Some d) by (by destruct s).
  exists (Z.of_N (N.of_uint d)). split; [lia|]. unfold FormatUint. rewrite N2Z.id, DecimalN.Unsigned.to_of.
  replace (unorm d) with d; [by apply NilZero.sus in Hz|].
  destruct s as [|a t]; [done|]. cbn in Hn, Hd.
  destruct (NilEmpty.uint_of_string t) as [dt|] eqn:Ht; [|by destruct a as [[] [] [] [] [] [] [] []]].
  apply andb_true_iff in Hn as [_ [H19|Ht0]%orb_true_iff].
  - destruct a as [[] [] [] [] [] [] [] []]; try (by vm_compute in H19); cbn in Hd; by injection Hd as <-.
  - apply bool_decide_eq_true in Ht0 as ->. cbn in Ht. injection Ht as <-.
    destruct a as [[] [] [] [] [] [] [] []]; cbn in Hd; try discriminate Hd; by injection Hd as <-.
Qed.

Lemma is_number_FormatUint z : is_number (FormatUint z) = true.
Proof.
  unfold FormatUint. set (d := N.to_uint (Z.to_N z)).
  assert (Hd : unorm d = d) by (unfold d; by rewrite <- DecimalN.Unsigned.to_of, DecimalN.Unsigned.of_to).
  pose proof (uint_digits d) as Hall. revert Hd Hall. clearbody d. intros Hd.
  destruct d as [|d'| | | | | | | | |]; [done|..]; cbn -[digit]; intros Hall;
    try (rewrite Hall; cbn; done).
  rewrite Hall. unfold unorm in Hd. cbn in Hd.
  destruct (nzhead d') as [| | | | | | | | | |] eqn:Hz; [by injection Hd as <-|..]; try done.
  by destruct (nzhead_nonzero d' u).
Qed.

Lemma Atoi_FormatUint z :
  (0 ≤ z)%Z → Atoi (FormatUint z) = if decide (z ≤ int64_max)%Z then Some z else None.
Proof.
  intros Hz. pose proof (is_number_FormatUint z) as Hn.
  assert (Hp : Atoi (FormatUint z) =
    (v ← parse_digits (FormatUint z); if decide (int64_min ≤ v ≤ int64_max)%Z then Some v else None)).
  { unfold Atoi. destruct (FormatUint z) as [|a t]; [done|]. cbn in Hn.
    apply andb_true_iff in Hn as [[Ha _]%andb_true_iff _].
    destruct a as [[] [] [] [] [] [] [] []]; done || by vm_compute in Ha. }
  rewrite Hp, parse_digits_FormatUint by done. cbn. unfold int64_min.
  repeat case_decide; done || lia.
Qed.
