(* ===== verification/Versions.v ===== *)
(** * Version expressions (src/tools/setup-envtest/versions)

    Kubernetes versions, the selectors over them, the parser of version
    expressions (parse.go) and the names of archives per platform
    (platform.go).  Numbers are Go [int]s of 64 bits. *)

From Stdlib Require Import Ascii.
From S2P Require Export Regex.

(** ** Versions and selectors (version.go) *)

Record Concrete := mkConcrete { Major : Z; Minor : Z; Patch : Z }.

#[export] Instance Concrete_eq_dec : EqDecision Concrete.
Proof. solve_decision. Defined.

Definition NewerThan (c other : Concrete) : bool :=
  if decide (Major c ≠ Major other) then bool_decide (Major other < Major c)%Z
  else if decide (Minor c ≠ Minor other) then bool_decide (Minor other < Minor c)%Z
  else bool_decide (Patch other < Patch c)%Z.

Definition Concrete_Matches (c other : Concrete) : bool := bool_decide (c = other).

Definition Concrete_String (c : Concrete) : string :=
  Itoa (Major c) +:+ "." +:+ Itoa (Minor c) +:+ "." +:+ Itoa (Patch c).

Definition AnyPoint : Z := -1.

Definition PointVersion_Matches (p other : Z) : bool :=
  if decide (p = AnyPoint) then true else bool_decide (p = other).
Definition PointVersion_String (p : Z) : string := if decide (p = AnyPoint) then "*" else Itoa p.

Record PatchSelector := mkPatchSelector { ps_Major : Z; ps_Minor : Z; ps_Patch : Z }.

Definition PatchSelector_String (s : PatchSelector) : string :=
  Itoa (ps_Major s) +:+ "." +:+ Itoa (ps_Minor s) +:+ "." +:+ PointVersion_String (ps_Patch s).

Definition PatchSelector_Matches (s : PatchSelector) (ver : Concrete) : bool :=
  bool_decide (ps_Major s = Major ver) && bool_decide (ps_Minor s = Minor ver)
  && PointVersion_Matches (ps_Patch s) (Patch ver).

Definition PatchSelector_AsConcrete (s : PatchSelector) : option Concrete :=
  if decide (ps_Patch s = AnyPoint) then None
  else Some (mkConcrete (ps_Major s) (ps_Minor s) (ps_Patch s)).

Definition TildeSelector_Matches (s ver : Concrete) : bool :=
  if Concrete_Matches s ver then true
  else bool_decide (Major ver = Major s) && bool_decide (Minor ver = Minor s)
       && bool_decide (Patch s ≤ Patch ver)%Z.

Definition LessThanSelector_Matches (s : PatchSelector) (OrEquals : bool) (ver : Concrete) : bool :=
  if decide (ps_Major s ≠ Major ver) then bool_decide (Major ver < ps_Major s)%Z
  else if decide (ps_Minor s ≠ Minor ver) then bool_decide (Minor ver < ps_Minor s)%Z
  else if negb (PointVersion_Matches (ps_Patch s) (Patch ver)) then bool_decide (Patch ver < ps_Patch s)%Z
  else OrEquals.

(** The implementations of the interface [Selector]. *)
Inductive Selector :=
  | SelConcrete (c : Concrete)
  | SelPatch (s : PatchSelector)
  | SelTilde (c : Concrete)
  | SelLessThan (s : PatchSelector) (OrEquals : bool)
  | SelAny.

Definition AsConcrete (s : Selector) : option Concrete :=
  match s with
  | SelConcrete c => Some c
  | SelPatch s => PatchSelector_AsConcrete s
  | SelTilde _ | SelLessThan _ _ | SelAny => None
  end.

Definition Matches (s : Selector) (ver : Concrete) : bool :=
  match s with
  | SelConcrete c => Concrete_Matches c ver
  | SelPatch s => PatchSelector_Matches s ver
  | SelTilde c => TildeSelector_Matches c ver
  | SelLessThan s or_equals => LessThanSelector_Matches s or_equals ver
  | SelAny => true
  end.

Definition Selector_String (s : Selector) : string :=
  match s with
  | SelConcrete c => Concrete_String c
  | SelPatch s => PatchSelector_String s
  | SelTilde c => "~" +:+ Concrete_String c
  | SelLessThan s or_equals => (if (or_equals : bool) then "<=" else "<") +:+ PatchSelector_String s
  | SelAny => "*"
  end.

Record Spec := mkSpec { sp_Selector : Selector; sp_CheckLatest : bool }.

Definition MakeConcrete (ver : Concrete) (s : Spec) : Spec := mkSpec (SelConcrete ver) false.
Definition Spec_AsConcrete (s : Spec) : option Concrete := AsConcrete (sp_Selector s).
Definition Spec_Matches (s : Spec) (ver : Concrete) : bool := Matches (sp_Selector s) ver.
Definition Spec_String (s : Spec) : string :=
  Selector_String (sp_Selector s) +:+ (if sp_CheckLatest s then "!" else "").

Definition LatestVersion : Spec := mkSpec SelAny true.
Definition AnyVersion : Spec := mkSpec SelAny false.

(** ** The parser (parse.go) *)

Definition patch_re : regex := RAlt number_re (RAlt (RLit "x") (RLit "*")).

Definition baseVersionRE : regex :=
  RSeq (RGroup "major" number_re) (RSeq (RLit ".") (RSeq (RGroup "minor" number_re)
    (ROpt (RSeq (RLit ".") (RGroup "patch" patch_re))))).

Definition sel_re : regex := RAlt (RLit "<") (RAlt (RLit "~") (RLit "<=")).

(** Between [^] and [$]. *)
Definition versionExprRE : regex :=
  RSeq (ROpt (RGroup "sel" sel_re)) (RSeq baseVersionRE (ROpt (RGroup "latest" (RLit "!")))).

(** Without its [^] and [$], as ConcreteVersionRE, the part other expressions
    include. *)
Definition ConcreteVersionRE : regex :=
  RSeq (RGroup "major" number_re) (RSeq (RLit ".") (RSeq (RGroup "minor" number_re)
    (RSeq (RLit ".") (RGroup "patch" number_re)))).

Definition PointVersionFromValidString (str : string) : outcome Z :=
  if decide (str = "*" ∨ str = "x") then Returned AnyPoint
  else match Atoi str with
       | Some ver => Returned ver
       | None => Panicked "strconv.Atoi"
       end.

Definition atoi_or_panic (str : string) : outcome Z :=
  match Atoi str with
  | Some n => Returned n
  | None => Panicked "invalid input passed as patch selector (invalid state)"
  end.

Definition PatchSelectorFromMatch (m : captures) : outcome PatchSelector :=
  major ← atoi_or_panic (capture "major" m);
  minor ← atoi_or_panic (capture "minor" m);
  patch ← (if decide (capture "patch" m = "") then Returned AnyPoint
           else PointVersionFromValidString (capture "patch" m));
  Returned (mkPatchSelector major minor patch).

Definition err_not_a_version : error := ErrorString "unable to parse as a version string".

Definition FromExpr (expr : string) : outcome (result Spec) :=
  match FindStringSubmatch versionExprRE expr with
  | None => Returned (Err err_not_a_version)
  | Some m =>
      verInfo ← PatchSelectorFromMatch m;
      let latest := bool_decide (capture "latest" m = "!") in
      let sel := capture "sel" m in
      if decide (sel = "") then Returned (Ok (mkSpec (SelPatch verInfo) latest))
      else if decide (sel = "<" ∨ sel = "<=") then
        Returned (Ok (mkSpec (SelLessThan verInfo (bool_decide (sel = "<="))) latest))
      else if decide (sel = "~") then
        let verInfo := if decide (ps_Patch verInfo = AnyPoint)
                       then mkPatchSelector (ps_Major verInfo) (ps_Minor verInfo) 0 else verInfo in
        match PatchSelector_AsConcrete verInfo with
        | Some baseVer => Returned (Ok (mkSpec (SelTilde baseVer) latest))
        | None => Panicked "invalid memory address or nil pointer dereference"
        end
      else Panicked "unreachable: mismatch between FromExpr and its RE in selector"
  end.

(** ** Platforms (platform.go) *)

Record Platform := mkPlatform { OS : string; Arch : string }.

Definition wildcard_eq (a b : string) : bool :=
  bool_decide (a = b) || bool_decide (a = "*") || bool_decide (b = "*").

Definition Platform_Matches (p other : Platform) : bool :=
  wildcard_eq (OS p) (OS other) && wildcard_eq (Arch p) (Arch other).

Definition IsWildcard (p : Platform) : bool := bool_decide (OS p = "*") || bool_decide (Arch p = "*").
Definition Platform_String (p : Platform) : string := OS p +:+ "/" +:+ Arch p.

Definition BaseName (p : Platform) (ver : Concrete) : string :=
  Itoa (Major ver) +:+ "." +:+ Itoa (Minor ver) +:+ "." +:+ Itoa (Patch ver)
  +:+ "-" +:+ OS p +:+ "-" +:+ Arch p.

Definition ArchiveName (p : Platform) (ver : Concrete) : string :=
  "kubebuilder-tools-" +:+ BaseName p ver +:+ ".tar.gz".

(** [\w] *)
Definition word_char (a : ascii) : bool :=
  between "0" "9" a || between "A" "Z" a || between "a" "z" a || Ascii.eqb "_" a.

Definition versionPlatformREBase : regex :=
  RSeq ConcreteVersionRE (RSeq (RLit "-") (RSeq (RGroup "os" (RPlus word_char))
    (RSeq (RLit "-") (RGroup "arch" (RPlus word_char))))).

Definition VersionPlatformRE : regex := versionPlatformREBase.
Definition ArchiveRE : regex :=
  RSeq (RLit "kubebuilder-tools-") (RSeq versionPlatformREBase (RLit ".tar.gz")).

Definition ExtractWithPlatform (re : regex) (name : string) : outcome (option Concrete * Platform) :=
  match FindStringSubmatch re name with
  | None => Returned (None, mkPlatform "" "")
  | Some m =>
      verInfo ← PatchSelectorFromMatch m;
      match PatchSelector_AsConcrete verInfo with
      | None => Panicked "wildcard version"
      | Some c => Returned (Some c, mkPlatform (capture "os" m) (capture "arch" m))
      end
  end.

Example FromExpr_tilde :
  FromExpr "~1.20" = Returned (Ok (mkSpec (SelTilde (mkConcrete 1 20 0)) false)).
Proof. vm_compute. reflexivity. Qed.
Example FromExpr_le :
  FromExpr "<=1.20.x!" = Returned (Ok (mkSpec (SelLessThan (mkPatchSelector 1 20 AnyPoint) true) true)).
Proof. vm_compute. reflexivity. Qed.
Example FromExpr_huge : ∃ m, FromExpr "1.99999999999999999999" = Panicked m.
Proof. eexists. vm_compute. reflexivity. Qed.
Example FromExpr_leading_zero : FromExpr "1.020" = Returned (Err err_not_a_version).
Proof. vm_compute. reflexivity. Qed.
Example Extract_archive :
  ExtractWithPlatform ArchiveRE "kubebuilder-tools-1.2.3-linux-amd64.tar.gz"
  = Returned (Some (mkConcrete 1 2 3), mkPlatform "linux" "amd64").
Proof. vm_compute. reflexivity. Qed.

(** ** What the expressions look like *)

Inductive Prefix := NoPrefix | PrefixLess | PrefixTilde | PrefixLessEq.
Inductive PatchText := NoPatch | WildX | WildStar | PatchNumber (z : Z).

(** A version expression, taken apart. *)
Record Expr := mkExpr {
  e_prefix : Prefix;
  e_major : Z;
  e_minor : Z;
  e_patch : PatchText;
  e_latest : bool;
}.

Definition prefix_text (p : Prefix) : string :=
  match p with NoPrefix => "" | PrefixLess => "<" | PrefixTilde => "~" | PrefixLessEq => "<=" end.
Definition patch_text (p : PatchText) : string :=
  match p with
  | NoPatch => ""
  | WildX => ".x"
  | WildStar => ".*"
  | PatchNumber z => "." +:+ FormatUint z
  end.
Definition latest_text (b : bool) : string := if b then "!" else "".

Definition expr_text (e : Expr) : string :=
  prefix_text (e_prefix e) +:+ (FormatUint (e_major e) +:+ ("." +:+ (FormatUint (e_minor e)
    +:+ patch_text (e_patch e)))) +:+ latest_text (e_latest e).

Definition prefix_caps (p : Prefix) : captures :=
  match p with NoPrefix => [] | _ => [("sel", prefix_text p)] end.
Definition patch_caps (p : PatchText) : captures :=
  match p with
  | NoPatch => []
  | WildX => [("patch", "x")]
  | WildStar => [("patch", "*")]
  | PatchNumber z => [("patch", FormatUint z)]
  end.
Definition latest_caps (b : bool) : captures := if b then [("latest", "!")] else [].

Definition expr_caps (e : Expr) : captures :=
  prefix_caps (e_prefix e) ++ ([("major", FormatUint (e_major e))] ++ [("minor", FormatUint (e_minor e))]
    ++ patch_caps (e_patch e)) ++ latest_caps (e_latest e).

Definition expr_ok (e : Expr) : Prop :=
  (0 ≤ e_major e)%Z ∧ (0 ≤ e_minor e)%Z
  ∧ match e_patch e with PatchNumber z => (0 ≤ z)%Z | _ => True end.

Lemma matches_group_number name s c :
  matches (RGroup name number_re) s c ↔ ∃ z, (0 ≤ z)%Z ∧ s = FormatUint z ∧ c = [(name, FormatUint z)].
Proof.
  rewrite matches_Group_iff. split.
  - intros (c' & -> & [Hn ->]%matches_number_iff). destruct (number_FormatUint _ Hn) as (z & ? & ->). eauto.
  - intros (z & Hz & -> & ->). exists []. split; [done|]. apply matches_number_iff.
    split; [apply is_number_FormatUint|done].
Qed.

Lemma matches_group_Lit name l s c :
  matches (RGroup name (RLit l)) s c ↔ s = l ∧ c = [(name, l)].
Proof.
  rewrite matches_Group_iff. setoid_rewrite matches_Lit_iff. split; [by intros (? & -> & -> & ->)|].
  intros [-> ->]. by exists [].
Qed.

Lemma matches_prefix s c :
  matches (ROpt (RGroup "sel" sel_re)) s c ↔ ∃ p, s = prefix_text p ∧ c = prefix_caps p.
Proof.
  unfold ROpt, sel_re. rewrite matches_Alt_iff, matches_Group_iff, matches_Empty_iff.
  setoid_rewrite matches_Alt_iff. setoid_rewrite matches_Alt_iff. setoid_rewrite matches_Lit_iff.
  split.
  - intros [(c' & -> & [[-> ->]|[[-> ->]|[-> ->]]])|[-> ->]];
      [exists PrefixLess|exists PrefixTilde|exists PrefixLessEq|exists NoPrefix]; done.
  - intros ([] & -> & ->); [by right|left; exists []; naive_solver..].
Qed.

Lemma matches_latest s c :
  matches (ROpt (RGroup "latest" (RLit "!"))) s c ↔ ∃ b, s = latest_text b ∧ c = latest_caps b.
Proof.
  unfold ROpt. rewrite matches_Alt_iff, matches_group_Lit, matches_Empty_iff. split.
  - intros [[-> ->]|[-> ->]]; [by exists true|by exists false].
  - intros ([] & -> & ->); auto.
Qed.

Lemma matches_patch s c :
  matches (ROpt (RSeq (RLit ".") (RGroup "patch" patch_re))) s c ↔
  ∃ p, match p with PatchNumber z => (0 ≤ z)%Z | _ => True end ∧ s = patch_text p ∧ c = patch_caps p.
Proof.
  unfold ROpt. rewrite matches_Alt_iff, matches_Seq_iff, matches_Empty_iff. unfold patch_re. split.
  - intros [(s1 & s2 & c1 & c2 & -> & -> & [-> ->]%matches_Lit_iff & (c' & -> & Hm)%matches_Group_iff)|[-> ->]];
      [|by exists NoPatch].
    rewrite !matches_Alt_iff, !matches_Lit_iff, matches_number_iff in Hm.
    destruct Hm as [[Hn ->]|[[-> ->]|[-> ->]]]; [|by exists WildX|by exists WildStar].
    destruct (number_FormatUint _ Hn) as (z & Hz & ->). by exists (PatchNumber z).
  - intros (p & Hp & -> & ->). destruct p as [| | |z]; [by right|left..];
      eexists ".", _, [], _; (split; [done|]); (split; [done|]); (split; [by apply matches_Lit_iff|]);
      apply matches_Group_iff; (eexists; split; [done|]); rewrite !matches_Alt_iff, !matches_Lit_iff; auto.
    left. apply matches_number_iff. split; [apply is_number_FormatUint|done].
Qed.

Lemma versionExprRE_iff s c :
  matches versionExprRE s c ↔ ∃ e, expr_ok e ∧ s = expr_text e ∧ c = expr_caps e.
Proof.
  unfold versionExprRE, baseVersionRE. split.
  - intros (s1 & t1 & c1 & d1 & -> & -> & (px & -> & ->)%matches_prefix & Hm)%matches_Seq_iff.
    apply matches_Seq_iff in Hm as (s2 & t2 & c2 & d2 & -> & -> & Hm & (b & -> & ->)%matches_latest).
    apply matches_Seq_iff in Hm as (s3 & t3 & c3 & d3 & -> & -> & (x & Hx & -> & ->)%matches_group_number & Hm).
    apply matches_Seq_iff in Hm as (s4 & t4 & c4 & d4 & -> & -> & [-> ->]%matches_Lit_iff & Hm).
    apply matches_Seq_iff in Hm as (s5 & t5 & c5 & d5 & -> & -> & (y & Hy & -> & ->)%matches_group_number & Hm).
    apply matches_patch in Hm as (p & Hp & -> & ->).
    by exists (mkExpr px x y p b).
  - intros ([px x y p b] & (Hx & Hy & Hp) & -> & ->). unfold expr_text, expr_caps.
    cbn in Hx, Hy, Hp. cbn [e_prefix e_major e_minor e_patch e_latest].
    constructor; [apply matches_prefix; eauto|]. constructor; [|apply matches_latest; eauto].
    apply (matches_Seq _ _ (FormatUint x) _ [_]); [apply matches_group_number; eauto|].
    apply (matches_Seq _ _ "." _ []); [by apply matches_Lit_iff|].
    apply (matches_Seq _ _ (FormatUint y) _ [_]); [apply matches_group_number; eauto|].
    apply matches_patch. eauto.
Qed.

(** *** An expression is taken apart in one way *)

Lemma FormatUint_head z : ∃ a t, FormatUint z = String a t ∧ digit a = true.
Proof.
  pose proof (is_number_FormatUint z) as Hn. destruct (FormatUint z) as [|a t]; [done|].
  exists a, t. split; [done|]. cbn in Hn. by apply andb_true_iff in Hn as [[? _]%andb_true_iff _].
Qed.

Lemma FormatUint_digits z : str_all digit (FormatUint z) = true.
Proof. apply is_number_digits, is_number_FormatUint. Qed.

Lemma not_starting_app P s t :
  not_starting P s → (s = "" → not_starting P t) → not_starting P (s +:+ t).
Proof. destruct s; [by auto|done]. Qed.

(** Numbers side by side: what follows a number is no digit. *)
Lemma FormatUint_unique x y s t :
  (0 ≤ x)%Z → (0 ≤ y)%Z → not_starting digit s → not_starting digit t →
  FormatUint x +:+ s = FormatUint y +:+ t → x = y ∧ s = t.
Proof.
  intros Hx Hy Hs Ht Heq.
  destruct (run_unique digit (FormatUint x) s (FormatUint y) t) as [Hxy ?]; try done;
    try apply FormatUint_digits.
  split; [|done]. by apply FormatUint_inj.
Qed.

Lemma patch_text_inj p p' :
  match p with PatchNumber z => (0 ≤ z)%Z | _ => True end →
  match p' with PatchNumber z => (0 ≤ z)%Z | _ => True end →
  patch_text p = patch_text p' → p = p'.
Proof.
  intros Hp Hp'. unfold patch_text.
  destruct p as [| | |z], p' as [| | |z']; try done; rewrite ?str_app_cons, ?str_app_nil_l; try done;
    try (destruct (FormatUint_head z) as (a & t & Heq & Ha); rewrite Heq);
    try (destruct (FormatUint_head z') as (a' & t' & Heq' & Ha'); rewrite Heq');
    try (intros [= -> ->]; by vm_compute in Ha || by vm_compute in Ha').
  - intros [= <- _]; by vm_compute in Ha'.
  - intros [= <- _]; by vm_compute in Ha'.
  - intros Ht. f_equal. apply FormatUint_inj; [done..|]. rewrite Heq, Heq'. by injection Ht as -> ->.
Qed.

Lemma expr_text_inj e e' :
  expr_ok e → expr_ok e' → expr_text e = expr_text e' → e = e'.
Proof.
  destruct e as [px x y p b], e' as [px' x' y' p' b']. unfold expr_ok, expr_text.
  cbn [e_prefix e_major e_minor e_patch e_latest]. intros (Hx & Hy & Hp) (Hx' & Hy' & Hp') Heq.
  assert (Hhead : ∀ z t, not_starting (λ a, negb (digit a)) (FormatUint z +:+ t)).
  { intros z t. destruct (FormatUint_head z) as (a & u & -> & Ha). rewrite str_app_cons. cbn. by rewrite Ha. }
  rewrite !str_app_assoc in Heq.
  apply (run_unique (λ a, negb (digit a))) in Heq as [Hpx Heq]; [|by destruct px|by destruct px'|apply Hhead..].
  apply FormatUint_unique in Heq as [-> Heq]; [|done..]. apply str_app_inv_l in Heq.
  assert (Hrest : ∀ q c, not_starting digit (patch_text q +:+ latest_text c)) by (by intros [] []).
  apply FormatUint_unique in Heq as [-> Heq]; [|done..|apply Hrest|apply Hrest].
  assert (Hlatest : ∀ c, not_starting (λ a, negb (Ascii.eqb "!" a)) (latest_text c)) by (by intros []).
  assert (Hbang : ∀ q, str_all (λ a, negb (Ascii.eqb "!" a)) (patch_text q) = true).
  { intros [| | |z]; [done..|].
    change (str_all (λ a, negb (Ascii.eqb "!" a)) (FormatUint z) = true). apply (str_all_mono digit); [|apply FormatUint_digits].
    intros a Ha. destruct (Ascii.eqb_spec "!" a) as [<-|]; [by vm_compute in Ha|done]. }
  apply (run_unique (λ a, negb (Ascii.eqb "!" a))) in Heq as [Hpp Hb]; [|apply Hbang|apply Hbang|done..].
  apply patch_text_inj in Hpp; [|done..]. subst p'.
  assert (px = px') as -> by (by destruct px, px').
  assert (b = b') as -> by (by destruct b, b'). done.
Qed.

Lemma FindStringSubmatch_expr e :
  expr_ok e → FindStringSubmatch versionExprRE (expr_text e) = Some (expr_caps e).
Proof.
  intros He. apply FindStringSubmatch_iff.
  - intros s c c' (e1 & H1 & -> & ->)%versionExprRE_iff (e2 & H2 & Heq & ->)%versionExprRE_iff.
    by rewrite (expr_text_inj e1 e2).
  - apply versionExprRE_iff. eauto.
Qed.

(** *** What the parser makes of it *)

Definition in_int (e : Expr) : Prop :=
  (e_major e ≤ int64_max)%Z ∧ (e_minor e ≤ int64_max)%Z
  ∧ match e_patch e with PatchNumber z => (z ≤ int64_max)%Z | _ => True end.

#[export] Instance in_int_dec e : Decision (in_int e).
Proof. unfold in_int. destruct (e_patch e); apply _. Defined.

Definition patch_point (p : PatchText) : Z := match p with PatchNumber z => z | _ => AnyPoint end.

Definition expr_spec (e : Expr) : Spec :=
  let s := mkPatchSelector (e_major e) (e_minor e) (patch_point (e_patch e)) in
  mkSpec
    match e_prefix e with
    | NoPrefix => SelPatch s
    | PrefixLess => SelLessThan s false
    | PrefixLessEq => SelLessThan s true
    | PrefixTilde =>
        SelTilde (mkConcrete (e_major e) (e_minor e)
          (match e_patch e with PatchNumber z => z | _ => 0 end))
    end (e_latest e).

Lemma capture_major e : capture "major" (expr_caps e) = FormatUint (e_major e).
Proof. by destruct e as [[] ? ? [] []]. Qed.
Lemma capture_minor e : capture "minor" (expr_caps e) = FormatUint (e_minor e).
Proof. by destruct e as [[] ? ? [] []]. Qed.
Lemma capture_patch e :
  capture "patch" (expr_caps e) =
    match e_patch e with NoPatch => "" | WildX => "x" | WildStar => "*" | PatchNumber z => FormatUint z end.
Proof. by destruct e as [[] ? ? [] []]. Qed.
Lemma capture_sel e : capture "sel" (expr_caps e) = prefix_text (e_prefix e).
Proof. by destruct e as [[] ? ? [] []]. Qed.
Lemma capture_latest e : bool_decide (capture "latest" (expr_caps e) = "!") = e_latest e.
Proof. by destruct e as [[] ? ? [] []]. Qed.

Lemma PatchSelectorFromMatch_expr e : expr_ok e →
  if decide (in_int e)
  then PatchSelectorFromMatch (expr_caps e)
       = Returned (mkPatchSelector (e_major e) (e_minor e) (patch_point (e_patch e)))
  else ∃ msg, PatchSelectorFromMatch (expr_caps e) = Panicked msg.
Proof.
  intros (Hx & Hy & Hp). unfold PatchSelectorFromMatch, atoi_or_panic, PointVersionFromValidString.
  rewrite capture_major, capture_minor, capture_patch, !Atoi_FormatUint by done.
  case_decide as Hin; unfold in_int in Hin; destruct e as [px x y [| | |z] b]; cbn in Hp, Hin;
    cbn [e_major e_minor e_patch patch_point];
    try (repeat case_decide; cbn; naive_solver);
    destruct (FormatUint_head z) as (a & t & Heq & Ha);
    rewrite (decide_False (P := FormatUint z = "")) by (by rewrite Heq);
    rewrite (decide_False (P := FormatUint z = "*" ∨ FormatUint z = "x"))
      by (rewrite Heq; intros [[= -> _]|[= -> _]]; by vm_compute in Ha);
    rewrite Atoi_FormatUint by done; repeat case_decide; cbn; naive_solver.
Qed.

Lemma FromExpr_text e : expr_ok e →
  if decide (in_int e) then FromExpr (expr_text e) = Returned (Ok (expr_spec e))
  else ∃ msg, FromExpr (expr_text e) = Panicked msg.
Proof.
  intros He. unfold FromExpr. rewrite FindStringSubmatch_expr by done.
  pose proof (PatchSelectorFromMatch_expr e He) as Hm. case_decide; [|by destruct Hm as [msg ->]; eauto].
  rewrite Hm. cbn. rewrite capture_latest, capture_sel.
  destruct He as (_ & _ & Hp). destruct e as [[] x y p b]; [reflexivity|reflexivity| |reflexivity].
  destruct p as [| | |z]; [reflexivity..|]. cbn in Hp. unfold expr_spec, PatchSelector_AsConcrete. cbn.
  assert (z ≠ AnyPoint) by (unfold AnyPoint; lia).
  rewrite (decide_False (P := z = AnyPoint)) by done. cbn.
  rewrite (decide_False (P := z = AnyPoint)) by done. reflexivity.
Qed.

(** C21: [FromExpr] accepts exactly the strings made of an optional [<], [<=] or
    [~], of major and minor numbers without leading zeros, of an optional patch
    that is such a number, [x] or [*], and of an optional [!]; each in one way
    only, which decides the selector.  It returns an error for any other
    string, and it panics exactly when one of the numbers does not fit an
    [int]. *)
Theorem FromExpr_spec expr :
  match FromExpr expr with
  | Returned (Ok sp) => ∃ e, expr_ok e ∧ in_int e ∧ expr = expr_text e ∧ sp = expr_spec e
  | Returned (Err _) => ∀ e, expr_ok e → expr ≠ expr_text e
  | Panicked _ => ∃ e, expr_ok e ∧ ¬ in_int e ∧ expr = expr_text e
  end ∧
  (∀ e e', expr_ok e → expr_ok e' → expr = expr_text e → expr = expr_text e' → e = e').
Proof.
  split; [|intros e e' ?? -> ?; by apply expr_text_inj].
  destruct (FindStringSubmatch versionExprRE expr) as [c|] eqn:Hf.
  - apply FindStringSubmatch_sound, versionExprRE_iff in Hf as (e & He & -> & ->).
    pose proof (FromExpr_text e He) as Ht. case_decide.
    + rewrite Ht. eauto.
    + destruct Ht as [msg ->]. eauto.
  - unfold FromExpr. rewrite Hf. intros e He ->. by rewrite FindStringSubmatch_expr in Hf.
Qed.

(** ** The order of versions *)

Definition valid (v : Concrete) : Prop := (0 ≤ Major v ∧ 0 ≤ Minor v ∧ 0 ≤ Patch v)%Z.

(** [NewerThan] is the lexicographic order. *)
Lemma NewerThan_true c d :
  NewerThan c d = true ↔
  (Major d < Major c ∨ (Major d = Major c ∧ (Minor d < Minor c ∨ (Minor d = Minor c ∧ Patch d < Patch c))))%Z.
Proof.
  unfold NewerThan. case_decide; [|case_decide]; rewrite bool_decide_eq_true; lia.
Qed.
Lemma NewerThan_false c d :
  NewerThan c d = false ↔
  (Major c < Major d ∨ (Major c = Major d ∧ (Minor c < Minor d ∨ (Minor c = Minor d ∧ Patch c ≤ Patch d))))%Z.
Proof.
  rewrite <- not_true_iff_false, NewerThan_true. lia.
Qed.

(** [NewerThan] is a strict total order on versions. *)
Theorem NewerThan_strict_total_order :
  (∀ c, NewerThan c c = false)
  ∧ (∀ c d e, NewerThan c d = true → NewerThan d e = true → NewerThan c e = true)
  ∧ (∀ c d, NewerThan c d = true ∨ c = d ∨ NewerThan d c = true).
Proof.
  split; [|split].
  - intros c. rewrite NewerThan_false. lia.
  - intros c d e. rewrite !NewerThan_true. lia.
  - intros [x y z] [x' y' z']. rewrite !NewerThan_true. cbn.
    destruct (decide (x = x')) as [->|]; [|lia]. destruct (decide (y = y')) as [->|]; [|lia].
    destruct (decide (z = z')) as [->|]; [auto|lia].
Qed.

(** What the selectors match, in arithmetic. *)
Lemma PointVersion_Matches_true p z : PointVersion_Matches p z = true ↔ p = AnyPoint ∨ p = z.
Proof. unfold PointVersion_Matches. case_decide; [tauto|]. rewrite bool_decide_eq_true. tauto. Qed.

Lemma PatchSelector_Matches_true s v :
  PatchSelector_Matches s v = true ↔
  ps_Major s = Major v ∧ ps_Minor s = Minor v ∧ (ps_Patch s = AnyPoint ∨ ps_Patch s = Patch v).
Proof.
  unfold PatchSelector_Matches. rewrite !andb_true_iff, !bool_decide_eq_true, PointVersion_Matches_true. tauto.
Qed.

Lemma TildeSelector_Matches_true s v :
  TildeSelector_Matches s v = true ↔ Major v = Major s ∧ Minor v = Minor s ∧ (Patch s ≤ Patch v)%Z.
Proof.
  unfold TildeSelector_Matches, Concrete_Matches. case_bool_decide as Heq; [subst; split; [lia|done]|].
  rewrite !andb_true_iff, !bool_decide_eq_true. tauto.
Qed.

Lemma LessThanSelector_Matches_true s or_equals v :
  LessThanSelector_Matches s or_equals v = true ↔
  (Major v < ps_Major s ∨ (Major v = ps_Major s ∧ (Minor v < ps_Minor s ∨ (Minor v = ps_Minor s ∧
   (((ps_Patch s = AnyPoint ∨ ps_Patch s = Patch v) ∧ or_equals = true)
    ∨ (ps_Patch s ≠ AnyPoint ∧ Patch v < ps_Patch s))))))%Z.
Proof.
  unfold LessThanSelector_Matches. case_decide; [rewrite bool_decide_eq_true; lia|].
  case_decide; [rewrite bool_decide_eq_true; lia|].
  destruct (PointVersion_Matches _ _) eqn:Hp; cbn.
  - apply PointVersion_Matches_true in Hp. split; [intros ->; lia|]. destruct or_equals; [done|]. lia.
  - apply not_true_iff_false in Hp. rewrite PointVersion_Matches_true in Hp.
    rewrite bool_decide_eq_true. lia.
Qed.

(** The versions an expression selects, told by the order: from the lower bound,
    and before the upper bound. *)
Definition lower (e : Expr) : Concrete :=
  match e_prefix e with
  | PrefixLess | PrefixLessEq => mkConcrete 0 0 0
  | NoPrefix | PrefixTilde =>
      mkConcrete (e_major e) (e_minor e) (match e_patch e with PatchNumber z => z | _ => 0 end)
  end.
Definition upper (e : Expr) : Concrete :=
  match e_prefix e, e_patch e with
  | PrefixTilde, _ => mkConcrete (e_major e) (e_minor e + 1) 0
  | (NoPrefix | PrefixLessEq), PatchNumber z => mkConcrete (e_major e) (e_minor e) (z + 1)
  | (NoPrefix | PrefixLessEq), _ => mkConcrete (e_major e) (e_minor e + 1) 0
  | PrefixLess, PatchNumber z => mkConcrete (e_major e) (e_minor e) z
  | PrefixLess, _ => mkConcrete (e_major e) (e_minor e) 0
  end.

(** An expression selects an interval of versions: [X.Y.Z] that version
    alone, [X.Y], [X.Y.x] and [X.Y.*] the patches of a minor version, [~X.Y.Z]
    those from Z on, [<X.Y.Z] and [<=X.Y.Z] what is older (or equal), a
    wildcard there standing for all the patches. *)
Theorem FromExpr_selects_interval e v :
  expr_ok e → in_int e → valid v →
  ∃ sp, FromExpr (expr_text e) = Returned (Ok sp)
    ∧ sp_CheckLatest sp = e_latest e
    ∧ (Spec_Matches sp v = true ↔ NewerThan (lower e) v = false ∧ NewerThan (upper e) v = true).
Proof.
  intros He Hin (Hx & Hy & Hz). exists (expr_spec e). split; [|split; [done|]].
  { pose proof (FromExpr_text e He) as Ht. by rewrite decide_True in Ht. }
  rewrite NewerThan_false, NewerThan_true. destruct He as (H1 & H2 & H3).
  destruct v as [x y z], e as [px a b p l]. cbn in *.
  unfold Spec_Matches, expr_spec, lower, upper. cbn.
  destruct px; cbn; rewrite ?PatchSelector_Matches_true, ?LessThanSelector_Matches_true,
    ?TildeSelector_Matches_true; destruct p as [| | |p]; cbn in *; unfold AnyPoint in *; lia.
Qed.

(** ** Printing and parsing *)

Definition in_range (z : Z) : Prop := (0 ≤ z ≤ int64_max)%Z.
Definition Concrete_ok (c : Concrete) : Prop := in_range (Major c) ∧ in_range (Minor c) ∧ in_range (Patch c).
Definition PatchSelector_ok (s : PatchSelector) : Prop :=
  in_range (ps_Major s) ∧ in_range (ps_Minor s) ∧ (ps_Patch s = AnyPoint ∨ in_range (ps_Patch s)).
Definition Selector_ok (s : Selector) : Prop :=
  match s with
  | SelConcrete c | SelTilde c => Concrete_ok c
  | SelPatch s | SelLessThan s _ => PatchSelector_ok s
  | SelAny => False
  end.

(** The parser reads a concrete version as a selector without a wildcard. *)
Definition reread (s : Spec) : Spec :=
  mkSpec (match sp_Selector s with
          | SelConcrete c => SelPatch (mkPatchSelector (Major c) (Minor c) (Patch c))
          | sel => sel
          end) (sp_CheckLatest s).

Definition point_text (z : Z) : PatchText := if decide (z = AnyPoint) then WildStar else PatchNumber z.
Definition spec_expr (s : Spec) : Expr :=
  let mk px a b p := mkExpr px a b p (sp_CheckLatest s) in
  match sp_Selector s with
  | SelConcrete c => mk NoPrefix (Major c) (Minor c) (PatchNumber (Patch c))
  | SelTilde c => mk PrefixTilde (Major c) (Minor c) (PatchNumber (Patch c))
  | SelPatch s => mk NoPrefix (ps_Major s) (ps_Minor s) (point_text (ps_Patch s))
  | SelLessThan s true => mk PrefixLessEq (ps_Major s) (ps_Minor s) (point_text (ps_Patch s))
  | SelLessThan s false => mk PrefixLess (ps_Major s) (ps_Minor s) (point_text (ps_Patch s))
  | SelAny => mk NoPrefix 0%Z 0%Z NoPatch
  end.

Lemma Itoa_FormatUint z : (0 ≤ z)%Z → Itoa z = FormatUint z.
Proof. intros Hz. unfold Itoa. case_decide; [lia|done]. Qed.

Lemma point_text_String z :
  z = AnyPoint ∨ in_range z → patch_text (point_text z) = "." +:+ PointVersion_String z.
Proof.
  unfold point_text, PointVersion_String, in_range. intros Hz. case_decide; [done|].
  cbn. rewrite Itoa_FormatUint by (destruct Hz; [done|lia]). done.
Qed.

Lemma spec_expr_String s : Selector_ok (sp_Selector s) → Spec_String s = expr_text (spec_expr s).
Proof.
  intros Hs. unfold Spec_String, expr_text, spec_expr.
  destruct (sp_Selector s) as [c|p|c|p []|]; cbn [Selector_ok] in Hs; [| | | | |done];
    destruct Hs as (? & ? & Hp); unfold in_range in *;
    cbn [Selector_String e_prefix e_major e_minor e_patch e_latest prefix_text];
    unfold Concrete_String, PatchSelector_String; rewrite ?point_text_String by done;
    rewrite ?Itoa_FormatUint by lia; rewrite ?str_app_nil_l, !str_app_assoc; done.
Qed.

Lemma spec_expr_ok s : Selector_ok (sp_Selector s) → expr_ok (spec_expr s) ∧ in_int (spec_expr s).
Proof.
  unfold expr_ok, in_int, spec_expr, point_text.
  destruct (sp_Selector s) as [c|p|c|p []|]; cbn [Selector_ok]; [| | | | |done];
    unfold Concrete_ok, PatchSelector_ok, in_range; intros (? & ? & ?);
    cbn [e_prefix e_major e_minor e_patch e_latest]; try case_decide; lia.
Qed.

Lemma spec_expr_spec s : Selector_ok (sp_Selector s) → expr_spec (spec_expr s) = reread s.
Proof.
  unfold expr_spec, spec_expr, reread, point_text.
  destruct s as [[c|p|[]|p []|] l]; cbn; try done; intros _; destruct p; cbn; by case_decide; subst.
Qed.

Lemma expr_spec_ok e : expr_ok e → in_int e → Selector_ok (sp_Selector (expr_spec e)).
Proof.
  intros (? & ? & Hp) (? & ? & Hp'). destruct e as [[] a b [| | |p] l]; cbn in *;
    unfold PatchSelector_ok, Concrete_ok, in_range, int64_max in *; cbn; lia.
Qed.

(** Printing a selector and parsing it back gives the selector again (a
    concrete version comes back as a selector of that one version), with the
    same matches and the same concrete version; parsing and printing gives a
    text that parses to the same.  Only the selector of any version, which
    prints as a star, cannot be read back. *)
Theorem FromExpr_roundtrip :
  (∀ s, Selector_ok (sp_Selector s) →
     FromExpr (Spec_String s) = Returned (Ok (reread s))
     ∧ Spec_AsConcrete (reread s) = Spec_AsConcrete s
     ∧ ∀ v, Spec_Matches (reread s) v = Spec_Matches s v)
  ∧ (∀ expr s, FromExpr expr = Returned (Ok s) → FromExpr (Spec_String s) = Returned (Ok s))
  ∧ (∀ latest, FromExpr (Spec_String (mkSpec SelAny latest)) = Returned (Err err_not_a_version)).
Proof.
  split; [|split].
  - intros s Hs. destruct (spec_expr_ok s Hs) as [He Hin]. split; [|split].
    + pose proof (FromExpr_text _ He) as Ht. rewrite decide_True in Ht by done.
      by rewrite spec_expr_String, Ht, spec_expr_spec.
    + destruct s as [[[x y z]|p|c|p b|] l]; try done. destruct Hs as (_ & _ & Hz). unfold in_range in Hz.
      cbn in *. unfold Spec_AsConcrete, PatchSelector_AsConcrete, AnyPoint. cbn. rewrite decide_False; [done|lia].
    + intros [x' y' z']. destruct s as [[[x y z]|p|c|p b|] l]; try done. destruct Hs as (_ & _ & Hz).
      unfold in_range in Hz. cbn in Hz. apply eq_true_iff_eq.
      unfold reread, Spec_Matches. cbn [Matches sp_Selector].
      rewrite PatchSelector_Matches_true. unfold Concrete_Matches, AnyPoint. rewrite bool_decide_eq_true. cbn.
      split; [intros (? & ? & ?); f_equal; lia|intros [= -> -> ->]; auto].
  - intros expr s Hs. destruct (FromExpr_spec expr) as [Hspec _]. rewrite Hs in Hspec.
    destruct Hspec as (e & He & Hin & _ & ->). pose proof (expr_spec_ok e He Hin) as Hok.
    destruct (spec_expr_ok _ Hok) as [He' Hin']. pose proof (FromExpr_text _ He') as Ht.
    rewrite decide_True in Ht by done. rewrite spec_expr_String, Ht, spec_expr_spec by done.
    by destruct e as [[] ? ? ? ?].
  - intros []; by vm_compute.
Qed.

(** ** Archive names *)

Definition is_word (s : string) : Prop := s ≠ "" ∧ str_all word_char s = true.

(** The version and platform of an archive. *)
Definition archive_ok (v : Concrete) (p : Platform) : Prop :=
  valid v ∧ is_word (OS p) ∧ is_word (Arch p).

Definition version_in_int (v : Concrete) : Prop :=
  (Major v ≤ int64_max ∧ Minor v ≤ int64_max ∧ Patch v ≤ int64_max)%Z.

#[export] Instance version_in_int_dec v : Decision (version_in_int v).
Proof. unfold version_in_int. apply _. Defined.

Definition archive_caps (v : Concrete) (p : Platform) : captures :=
  ([("major", FormatUint (Major v))] ++ [("minor", FormatUint (Minor v))]
    ++ [("patch", FormatUint (Patch v))]) ++ [("os", OS p)] ++ [("arch", Arch p)].

Lemma BaseName_digits v p : valid v →
  BaseName p v = (FormatUint (Major v) +:+ ("." +:+ (FormatUint (Minor v) +:+ ("." +:+ FormatUint (Patch v)))))
                 +:+ ("-" +:+ (OS p +:+ ("-" +:+ Arch p))).
Proof. intros (? & ? & ?). unfold BaseName. rewrite !Itoa_FormatUint by done. by rewrite !str_app_assoc. Qed.

Lemma matches_group_word name s c :
  matches (RGroup name (RPlus word_char)) s c ↔ is_word s ∧ c = [(name, s)].
Proof.
  rewrite matches_Group_iff. setoid_rewrite matches_Plus_iff. unfold is_word. split.
  - intros (c' & -> & ? & ? & ->). done.
  - intros [[? ?] ->]. by exists [].
Qed.

Lemma versionPlatform_iff s c :
  matches versionPlatformREBase s c ↔
  ∃ v p, archive_ok v p ∧ s = BaseName p v ∧ c = archive_caps v p.
Proof.
  unfold versionPlatformREBase, ConcreteVersionRE. split.
  - intros (s1 & t1 & c1 & d1 & -> & -> & Hv & Hp)%matches_Seq_iff.
    apply matches_Seq_iff in Hv as (s2 & t2 & c2 & d2 & -> & -> & (x & Hx & -> & ->)%matches_group_number & Hv).
    apply matches_Seq_iff in Hv as (s3 & t3 & c3 & d3 & -> & -> & [-> ->]%matches_Lit_iff & Hv).
    apply matches_Seq_iff in Hv as (s4 & t4 & c4 & d4 & -> & -> & (y & Hy & -> & ->)%matches_group_number & Hv).
    apply matches_Seq_iff in Hv as (s5 & t5 & c5 & d5 & -> & -> & [-> ->]%matches_Lit_iff & Hv).
    apply matches_group_number in Hv as (z & Hz & -> & ->).
    apply matches_Seq_iff in Hp as (s6 & t6 & c6 & d6 & -> & -> & [-> ->]%matches_Lit_iff & Hp).
    apply matches_Seq_iff in Hp as (os & t7 & c7 & d7 & -> & -> & [Hos ->]%matches_group_word & Hp).
    apply matches_Seq_iff in Hp as (s8 & arch & c8 & d8 & -> & -> & [-> ->]%matches_Lit_iff & Hp).
    apply matches_group_word in Hp as [Harch ->].
    exists (mkConcrete x y z), (mkPlatform os arch). split; [done|].
    split; [by rewrite BaseName_digits|done].
  - intros (v & p & ((Hx & Hy & Hz) & Hos & Harch) & -> & ->). rewrite BaseName_digits by done.
    unfold archive_caps. constructor.
    + apply (matches_Seq _ _ _ _ [_]); [apply matches_group_number; eauto|].
      apply (matches_Seq _ _ "." _ []); [by apply matches_Lit_iff|].
      apply (matches_Seq _ _ _ _ [_]); [apply matches_group_number; eauto|].
      apply (matches_Seq _ _ "." _ []); [by apply matches_Lit_iff|apply matches_group_number; eauto].
    + apply (matches_Seq _ _ "-" _ []); [by apply matches_Lit_iff|].
      apply (matches_Seq _ _ _ _ [_]); [by apply matches_group_word|].
      apply (matches_Seq _ _ "-" _ []); [by apply matches_Lit_iff|by apply matches_group_word].
Qed.

Lemma BaseName_unique v p v' p' s s' :
  archive_ok v p → archive_ok v' p' → not_starting word_char s → not_starting word_char s' →
  BaseName p v +:+ s = BaseName p' v' +:+ s' → v = v' ∧ p = p'.
Proof.
  intros (Hv & [_ Hos] & [_ Harch]) (Hv' & [_ Hos'] & [_ Harch']) Hs Hs'. rewrite !BaseName_digits by done.
  destruct v as [x y z], v' as [x' y' z'], p as [os arch], p' as [os' arch'].
  destruct Hv as (? & ? & ?), Hv' as (? & ? & ?). cbn in *. rewrite !str_app_assoc. intros Heq.
  apply FormatUint_unique in Heq as [-> Heq]; [|done..]. apply str_app_inv_l in Heq.
  apply FormatUint_unique in Heq as [-> Heq]; [|done..]. apply str_app_inv_l in Heq.
  apply FormatUint_unique in Heq as [-> Heq]; [|done..]. apply str_app_inv_l in Heq.
  apply (run_unique word_char) in Heq as [-> Heq]; [|done..]. apply str_app_inv_l in Heq.
  by apply (run_unique word_char) in Heq as [-> _].
Qed.

(** The two expressions with the names they are for. *)
Inductive names_of : regex → (Platform → Concrete → string) → Prop :=
  | names_of_base : names_of VersionPlatformRE BaseName
  | names_of_archive : names_of ArchiveRE ArchiveName.

Lemma names_iff re name s c : names_of re name →
  matches re s c ↔ ∃ v p, archive_ok v p ∧ s = name p v ∧ c = archive_caps v p.
Proof.
  intros []; [apply versionPlatform_iff|]. unfold ArchiveRE. rewrite matches_Seq_iff. split.
  - intros (s1 & s2 & c1 & c2 & -> & -> & [-> ->]%matches_Lit_iff & Hm).
    apply matches_Seq_iff in Hm as (s3 & s4 & c3 & c4 & -> & -> & (v & p & ? & -> & ->)%versionPlatform_iff
      & [-> ->]%matches_Lit_iff).
    exists v, p. split; [done|]. split; [done|]. apply app_nil_r.
  - intros (v & p & Hok & -> & ->). exists "kubebuilder-tools-", (BaseName p v +:+ ".tar.gz"), [], (archive_caps v p).
    split; [done|]. split; [done|]. split; [by apply matches_Lit_iff|]. rewrite <- (app_nil_r (archive_caps v p)).
    constructor; [apply versionPlatform_iff; eauto|by apply matches_Lit_iff].
Qed.

Lemma names_unique re name v p v' p' : names_of re name →
  archive_ok v p → archive_ok v' p' → name p v = name p' v' → v = v' ∧ p = p'.
Proof.
  intros [] ?? Heq.
  - eapply (BaseName_unique v p v' p' "" ""); try done. by rewrite !str_app_nil_r.
  - unfold ArchiveName in Heq. apply str_app_inv_l in Heq. by eapply BaseName_unique in Heq.
Qed.

Lemma FindStringSubmatch_name re name v p : names_of re name → archive_ok v p →
  FindStringSubmatch re (name p v) = Some (archive_caps v p).
Proof.
  intros Hre Hok. apply FindStringSubmatch_iff.
  - intros s c c'. rewrite !(names_iff re name) by done.
    intros (v1 & p1 & H1 & -> & ->) (v2 & p2 & H2 & Heq & ->).
    by destruct (names_unique re name v1 p1 v2 p2) as [-> ->].
  - apply (names_iff re name); eauto.
Qed.

Lemma ExtractWithPlatform_name re name v p : names_of re name → archive_ok v p →
  if decide (version_in_int v) then ExtractWithPlatform re (name p v) = Returned (Some v, p)
  else ∃ msg, ExtractWithPlatform re (name p v) = Panicked msg.
Proof.
  intros Hre Hok. unfold ExtractWithPlatform. rewrite (FindStringSubmatch_name _ _ _ _ Hre Hok).
  destruct Hok as ((Hx & Hy & Hz) & _ & _).
  pose (e := mkExpr NoPrefix (Major v) (Minor v) (PatchNumber (Patch v)) false).
  assert (Hm : PatchSelectorFromMatch (archive_caps v p) = PatchSelectorFromMatch (expr_caps e)) by done.
  rewrite Hm. pose proof (PatchSelectorFromMatch_expr e (conj Hx (conj Hy Hz))) as He.
  destruct (decide (version_in_int v)) as [Hin|Hin].
  - rewrite decide_True in He by exact Hin. rewrite He. cbn. unfold PatchSelector_AsConcrete. cbn.
    rewrite decide_False by (unfold AnyPoint; lia). by destruct v, p.
  - rewrite decide_False in He by exact Hin. destruct He as [msg ->]. by exists msg.
Qed.

(** [ExtractWithPlatform], with the expression of base names or that of
    archive names, inverts [BaseName] or [ArchiveName]: it finds exactly the
    names of versions and of platforms whose parts are words, and gives back
    the version and the platform; it panics when a number of the version does
    not fit an [int], and any other name is not a version. *)
Theorem ExtractWithPlatform_inverts re name s :
  names_of re name →
  match ExtractWithPlatform re s with
  | Returned (Some v, p) => archive_ok v p ∧ version_in_int v ∧ s = name p v
  | Returned (None, p) => p = mkPlatform "" "" ∧ ∀ v p, archive_ok v p → s ≠ name p v
  | Panicked _ => ∃ v p, archive_ok v p ∧ ¬ version_in_int v ∧ s = name p v
  end
  ∧ ∀ v p, archive_ok v p → version_in_int v → ExtractWithPlatform re (name p v) = Returned (Some v, p).
Proof.
  intros Hre. split.
  - destruct (FindStringSubmatch re s) as [c|] eqn:Hf.
    + apply FindStringSubmatch_sound, (names_iff re name) in Hf as (v & p & Hok & -> & ->); [|done].
      pose proof (ExtractWithPlatform_name re name v p Hre Hok) as He. case_decide.
      * by rewrite He.
      * destruct He as [msg ->]. eauto.
    + unfold ExtractWithPlatform. rewrite Hf. split; [done|]. intros v p Hok ->.
      by rewrite (FindStringSubmatch_name re name) in Hf.
  - intros v p Hok Hin. pose proof (ExtractWithPlatform_name re name v p Hre Hok) as He.
    by rewrite decide_True in He.
Qed.

(** ** At concrete inputs *)

Lemma FromExpr_selects_interval_witness :
  let e := mkExpr PrefixTilde 1 20 (PatchNumber 3) false in
  let v := mkConcrete 1 20 5 in
  expr_text e = "~1.20.3" ∧
  ∃ sp, FromExpr "~1.20.3" = Returned (Ok sp) ∧ Spec_Matches sp v = true.
Proof.
  intros e v. split; [reflexivity|].
  destruct (FromExpr_selects_interval e v) as (sp & Heq & _ & Hm).
  - split; [|split]; cbn; lia.
  - split; [|split]; cbn; unfold int64_max; lia.
  - split; [|split]; cbn; lia.
  - exists sp. split; [exact Heq|]. apply Hm. split; reflexivity.
Defined.

Lemma ExtractWithPlatform_inverts_witness :
  names_of ArchiveRE ArchiveName ∧
  ExtractWithPlatform ArchiveRE (ArchiveName (mkPlatform "linux" "amd64") (mkConcrete 1 2 3))
  = Returned (Some (mkConcrete 1 2 3), mkPlatform "linux" "amd64").
Proof.
  split; [constructor|].
  apply (ExtractWithPlatform_inverts ArchiveRE ArchiveName "" names_of_archive).
  - split; [|split]; [split; [|split]; cbn; lia|split; [discriminate|reflexivity]..].
  - split; [|split]; cbn; unfold int64_max; lia.
Defined.
