(* ===== verification/EnvtestStore.v ===== *)
(** * The store of setup-envtest (src/tools/setup-envtest/store)

    Directories on disk, one per version and platform, each with the files of
    an archive.  The file system (the package afero) is the class StoreFS, the
    readers of gzip and tar archives a parameter; a directory name is read back
    with the expressions of Versions, and a name with a number beyond an [int]
    makes that panic. *)

From Stdlib Require Import Ascii.
From stdpp Require Import sorting.
From S2P Require Export Versions Paths.

(** ** Items and filters *)

Record Item := mkItem { it_Version : Concrete; it_Platform : Platform }.

#[export] Instance Platform_eq_dec : EqDecision Platform.
Proof. solve_decision. Defined.
#[export] Instance Item_eq_dec : EqDecision Item.
Proof. solve_decision. Defined.
#[export] Instance Item_countable : Countable Item.
Proof.
  refine (inj_countable'
    (λ i, (Major (it_Version i), Minor (it_Version i), Patch (it_Version i), OS (it_Platform i), Arch (it_Platform i)))
    (λ p, mkItem (mkConcrete p.1.1.1.1 p.1.1.1.2 p.1.1.2) (mkPlatform p.1.2 p.2)) _).
  by intros [[] []].
Defined.

Definition dirName (i : Item) : string := BaseName (it_Platform i) (it_Version i).
Definition Item_String (i : Item) : string :=
  Concrete_String (it_Version i) +:+ " (" +:+ Platform_String (it_Platform i) +:+ ")".

Record StoreFilter := mkFilter { sf_Version : Spec; sf_Platform : Platform }.

Definition Filter_Matches (f : StoreFilter) (i : Item) : bool :=
  Spec_Matches (sf_Version f) (it_Version i) && Platform_Matches (sf_Platform f) (it_Platform i).

(** Go compares strings by bytes. *)
Definition str_ltb (a b : string) : bool :=
  negb (String.leb b a).

Definition orderPlatforms (first second : Platform) : bool :=
  if decide (OS first ≠ OS second) then str_ltb (OS first) (OS second)
  else str_ltb (Arch first) (Arch second).

(** The comparison [List] sorts with. *)
Definition item_less (a b : Item) : bool :=
  if negb (Concrete_Matches (it_Version a) (it_Version b))
  then NewerThan (it_Version a) (it_Version b)
  else orderPlatforms (it_Platform a) (it_Platform b).

(** [sort.Slice]: any sorting algorithm will do where the order is total. *)
Definition not_after (a b : Item) : Prop := item_less b a = false.
#[export] Instance not_after_dec a b : Decision (not_after a b).
Proof. unfold not_after. apply _. Defined.
Definition sort_items (l : list Item) : list Item := merge_sort not_after l.

(** ** Archives

    What [gzip.NewReader], [tar.NewReader] and [Next] give: an error of the
    first, or the entries and the error that ends them ([None] for the end of
    the archive).  Copying an entry may fail after some of its data. *)
Record TarEntry := mkEntry {
  te_Regular : bool;
  te_Name : string;
  te_Mode : Z;
  te_Data : string;
  te_Err : option error;
}.

Inductive Archive :=
  | NotGzip (e : error)
  | TarEntries (entries : list TarEntry) (last : option error).

(** ** The file system

    The operations on the directory [k8s] of the root and on the directories
    in it, by name. *)
Class StoreFS (W : Type) := {
  ErrFileNotFound : error → bool;
  fs_MkdirBase : W → W * option error;
  fs_Stat : string → W → option error;
  fs_MkdirAll : string → W → W * option error;
  fs_Chmod : string → Z → W → W * option error;
  fs_RemoveAll : string → W → W * option error;
  fs_OpenFile : string → string → Z → W → W * option error;
  fs_Copy : string → string → string → W → W * option error;
  fs_ReadDir : W → result (list (string * bool));
  fs_FullPath : string → string;
}.

Section store.
Context `{StoreFS W}.

Definition Initialize (w : W) : W * option error :=
  match fs_MkdirBase w with
  | (w, Some e) => (w, Some (ErrorWrap "unable to make sure base binaries dir exists" e))
  | (w, None) => (w, None)
  end.

Definition Has (item : Item) (w : W) : result bool :=
  match fs_Stat (dirName item) w with
  | None => Ok true
  | Some e =>
      if ErrFileNotFound e then Ok false
      else Err (ErrorWrap "unable to check if version-platform dir exists" e)
  end.

Definition removeItem (name : string) (w : W) : W * option error :=
  match fs_Chmod name 493 w with
  | (w, Some e) => (w, Some (ErrorWrap "unable to make version-platform dir writable" e))
  | (w, None) =>
      match fs_RemoveAll name w with
      | (w, Some e) =>
          (w, if ErrFileNotFound e then None
              else Some (ErrorWrap "unable to remove version-platform dir" e))
      | (w, None) => (w, None)
      end
  end.

(** The loop over the entries on disk, with the callback's state; a name that
    panics ends it. *)
Fixpoint each_entry {S} (f : StoreFilter) (cb : string → Item → S → S)
    (entries : list (string * bool)) (s : S) : S * option string :=
  match entries with
  | [] => (s, None)
  | (name, isDir) :: entries =>
      if negb isDir then each_entry f cb entries s else
      match ExtractWithPlatform VersionPlatformRE name with
      | Panicked msg => (s, Some msg)
      | Returned (None, _) => each_entry f cb entries s
      | Returned (Some ver, pl) =>
          let item := mkItem ver pl in
          if negb (Filter_Matches f item) then each_entry f cb entries s
          else each_entry f cb entries (cb name item s)
      end
  end.

Definition eachItem {S} (f : StoreFilter) (cb : string → Item → S → S) (w : W) (s : S)
    : S * outcome (option error) :=
  match fs_ReadDir w with
  | Err e => (s, Returned (Some (ErrorWrap "unable to list folders in store's unpacked directory" e)))
  | Ok entries =>
      match each_entry f cb entries s with
      | (s, Some msg) => (s, Panicked msg)
      | (s, None) => (s, Returned None)
      end
  end.

Definition List_items (matching : StoreFilter) (w : W) : outcome (result (list Item)) :=
  match eachItem matching (λ _ item res, res ++ [item]) w [] with
  | (_, Panicked msg) => Panicked msg
  | (_, Returned (Some e)) => Returned (Err (ErrorWrap "unable to list version-platform pairs in store" e))
  | (res, Returned None) => Returned (Ok (sort_items res))
  end.

(** The loop of [Add] over the entries of an archive. *)
Fixpoint extract (itemName : string) (entries : list TarEntry) (w : W) : W * option error :=
  match entries with
  | [] => (w, None)
  | header :: entries =>
      if negb (te_Regular header) then extract itemName entries w else
      let targetPath := filepath_Base (te_Name header) in
      let perms := Z.land 365 (te_Mode header) in
      match fs_OpenFile itemName targetPath perms w with
      | (w, Some _) =>
          (w, Some (ErrorString ("unable to create file " +:+ targetPath +:+
                      " from archive to disk for version-platform pair " +:+ itemName)))
      | (w, None) =>
          let '(w, err) := fs_Copy itemName targetPath (te_Data header) w in
          match (match te_Err header with Some e => Some e | None => err end) with
          | Some _ =>
              (w, Some (ErrorString ("unable to write file " +:+ targetPath +:+
                          " from archive to disk for version-platform pair " +:+ itemName)))
          | None => extract itemName entries w
          end
      end
  end.

(** [Add] from the creation of the item's directory on. *)
Definition add_contents (itemName : string) (contents : Archive) (w : W) : W * option error :=
  match fs_MkdirAll itemName w with
  | (w, Some _) => (w, Some (ErrorString ("unable to make sure entry dir " +:+ itemName +:+ " exists")))
  | (w, None) =>
      match contents with
      | NotGzip _ => (w, Some (ErrorString "unable to start un-gz-ing entry archive"))
      | TarEntries entries last =>
          match extract itemName entries w with
          | (w, Some e) => (w, Some e)
          | (w, None) =>
              match last with
              | Some e => (w, Some (ErrorWrap "unable to finish un-tar-ing the downloaded archive" e))
              | None => ((fs_Chmod itemName 365 w).1, None)
              end
          end
      end
  end.

(** The body of [Add]; the deferred function removes what it left on an
    error, whatever the error is. *)
Definition add_body (item : Item) (contents : Archive) (w : W) : W * option error :=
  let itemName := dirName item in
  match fs_Stat itemName w with
  | None =>
      match removeItem itemName w with
      | (w, Some _) =>
          (w, Some (ErrorString ("unable to clean up existing version-platform binaries dir " +:+ itemName)))
      | (w, None) => add_contents itemName contents w
      end
  | Some e =>
      if ErrFileNotFound e then add_contents itemName contents w
      else (w, Some (ErrorString ("unable to ensure version-platform binaries dir " +:+ itemName +:+ " exists")))
  end.

Definition Add (item : Item) (contents : Archive) (w : W) : W * option error :=
  match add_body item contents w with
  | (w, None) => (w, None)
  | (w, Some e) => ((removeItem (dirName item) w).1, Some e)
  end.

(** The state of the callback of [Remove]: the world, the items removed and
    the last error. *)
Definition remove_callback (name : string) (item : Item) (s : W * list Item * option error)
    : W * list Item * option error :=
  let '(w, removed, savedErr) := s in
  match removeItem name w with
  | (w, Some e) =>
      (w, removed, Some (ErrorWrap ("unable to remove version-platform pair " +:+ Item_String item +:+
                           " (dir " +:+ name +:+ ")") e))
  | (w, None) => (w, removed ++ [item], savedErr)
  end.

Definition Remove_items (matching : StoreFilter) (w : W) : W * outcome (list Item * option error) :=
  match eachItem matching remove_callback w (w, [], None) with
  | ((w, _, _), Panicked msg) => (w, Panicked msg)
  | ((w, removed, _), Returned (Some e)) =>
      (w, Returned (removed,
        Some (ErrorWrap "unable to list version-platform pairs to figure out what to delete" e)))
  | ((w, removed, savedErr), Returned None) => (w, Returned (removed, savedErr))
  end.

Definition Store_Path (item : Item) : string := fs_FullPath (dirName item).
End store.

(** ** Where the store is by default (helpers.go)

    [env] gives the environment, empty when a variable is not set; paths are
    those of systems that separate by slashes. *)
Definition DefaultStoreDir (goos : string) (env : string → string) : result string :=
  let apple := bool_decide (goos = "darwin" ∨ goos = "ios") in
  baseDir ←
    (if decide (goos = "windows") then
       if decide (env "LocalAppData" = "") then Err (ErrorString "%LocalAppData% is not defined")
       else Ok (env "LocalAppData")
     else if apple then
       if decide (env "HOME" = "") then Err (ErrorString "$HOME is not defined")
       else Ok (filepath_Join [env "HOME"; "Library/Application Support"])
     else if decide (env "XDG_DATA_HOME" = "") then
       if decide (env "HOME" = "") then Err (ErrorString "neither $XDG_DATA_HOME nor $HOME are defined")
       else Ok (filepath_Join [env "HOME"; ".local/share"])
     else Ok (env "XDG_DATA_HOME"));
  Ok (filepath_Join [baseDir; if (apple : bool) then "io.kubebuilder.envtest" else "kubebuilder-envtest"]).
