(* ===== verification/EnvtestStoreFacts.v ===== *)
(** * The store of setup-envtest is a map from items to files

    A working file system as the class WorkingFS; the abstract store, a finite
    map; and the theorem that every sequence of operations of the store on a
    working file system does what the map does. *)

From stdpp Require Import sorting.
From S2P Require Export EnvtestStore.

(** ** The order of [List] *)

Lemma str_ltb_true a b : str_ltb a b = true ↔ ¬ String.le b a.
Proof. unfold str_ltb, String.le. destruct (String.leb b a); cbn; naive_solver. Qed.

Lemma str_ltb_irrefl a : str_ltb a a = false.
Proof. apply not_true_iff_false. rewrite str_ltb_true. intros Hn. by apply Hn. Qed.

Lemma str_ltb_trans a b c : str_ltb a b = true → str_ltb b c = true → str_ltb a c = true.
Proof.
  rewrite !str_ltb_true. intros Hab Hbc Hca. apply Hbc. trans a; [done|].
  by destruct (total String.le a b).
Qed.

Lemma str_ltb_trichotomy a b : str_ltb a b = true ∨ a = b ∨ str_ltb b a = true.
Proof.
  rewrite !str_ltb_true. destruct (decide (a = b)); [tauto|].
  destruct (decide (String.le b a)); [|tauto]. right. right. intros ?. by apply n, (anti_symm String.le).
Qed.

Lemma orderPlatforms_true p q :
  orderPlatforms p q = true ↔ str_ltb (OS p) (OS q) = true ∨ (OS p = OS q ∧ str_ltb (Arch p) (Arch q) = true).
Proof.
  unfold orderPlatforms. case_decide as Ho; [tauto|]. 
  rewrite Ho, str_ltb_irrefl. naive_solver.
Qed.

Lemma item_less_true a b :
  item_less a b = true ↔
  NewerThan (it_Version a) (it_Version b) = true ∨
  (it_Version a = it_Version b ∧ orderPlatforms (it_Platform a) (it_Platform b) = true).
Proof.
  destruct NewerThan_strict_total_order as (Hirr & _ & _).
  unfold item_less, Concrete_Matches. case_bool_decide as Hv; cbn; [|tauto].
  rewrite Hv, Hirr. naive_solver.
Qed.

Lemma item_less_irrefl a : item_less a a = false.
Proof.
  apply not_true_iff_false. rewrite item_less_true, orderPlatforms_true, !str_ltb_irrefl.
  destruct NewerThan_strict_total_order as (-> & _ & _). naive_solver.
Qed.

Lemma item_less_trans a b c : item_less a b = true → item_less b c = true → item_less a c = true.
Proof.
  destruct NewerThan_strict_total_order as (_ & Htrans & _).
  rewrite !item_less_true, !orderPlatforms_true.
  intros [H1|(E1 & H1)] [H2|(E2 & H2)]; [left; eauto|left; congruence|left; congruence|].
  right. split; [congruence|].
  destruct H1 as [H1|(F1 & H1)], H2 as [H2|(F2 & H2)];
    [left; eauto using str_ltb_trans|left; congruence|left; congruence|].
  right. split; [congruence|eauto using str_ltb_trans].
Qed.

Lemma item_less_trichotomy a b : item_less a b = true ∨ a = b ∨ item_less b a = true.
Proof.
  destruct NewerThan_strict_total_order as (_ & _ & Htri).
  rewrite !item_less_true, !orderPlatforms_true.
  destruct a as [v [o h]], b as [v' [o' h']]; cbn.
  destruct (Htri v v') as [?|[->|?]]; [tauto| |tauto].
  destruct (str_ltb_trichotomy o o') as [?|[->|?]]; [tauto| |tauto].
  destruct (str_ltb_trichotomy h h') as [?|[->|?]]; tauto.
Qed.

#[export] Instance not_after_total : Total not_after.
Proof.
  intros a b. unfold not_after. destruct (item_less b a) eqn:H1; [|tauto].
  destruct (item_less a b) eqn:H2; [|tauto].
  pose proof (item_less_trans _ _ _ H1 H2) as Hf. by rewrite item_less_irrefl in Hf.
Qed.
#[export] Instance not_after_trans : Transitive not_after.
Proof.
  intros a b c. unfold not_after. rewrite <- !not_true_iff_false. intros Hba Hcb Hca.
  destruct (item_less_trichotomy a b) as [Hab|[->|?]]; [|tauto|tauto].
  apply Hcb. by eapply item_less_trans.
Qed.
#[export] Instance not_after_antisymm : AntiSymm (=) not_after.
Proof.
  intros a b. unfold not_after. rewrite <- !not_true_iff_false. intros ??.
  destruct (item_less_trichotomy a b) as [?|[?|?]]; tauto.
Qed.

Lemma sort_items_Permutation l : sort_items l ≡ₚ l.
Proof. apply merge_sort_Permutation. Qed.
Lemma sort_items_sorted l : StronglySorted not_after (sort_items l).
Proof. apply (StronglySorted_merge_sort not_after). Qed.
Lemma sort_items_unique l l' : l ≡ₚ l' → sort_items l = sort_items l'.
Proof.
  intros Hl. apply (StronglySorted_unique not_after); [apply sort_items_sorted..|].
  by rewrite !sort_items_Permutation.
Qed.

(** ** Working file systems *)

(** A file system that works: [dirs] is what the directory [k8s] holds.
    Creating a file in a directory that has one of that name is not covered:
    the files of the store are read-only. *)
Class WorkingFS (W : Type) `{StoreFS W} := {
  dirs : W → gmap string (gmap string string);
  fs_MkdirBase_spec : ∀ w, ∃ w', fs_MkdirBase w = (w', None) ∧ dirs w' = dirs w;
  fs_Stat_Some : ∀ n w files, dirs w !! n = Some files → fs_Stat n w = None;
  fs_Stat_None : ∀ n w, dirs w !! n = None → ∃ e, fs_Stat n w = Some e ∧ ErrFileNotFound e = true;
  fs_MkdirAll_spec : ∀ n w, ∃ w', fs_MkdirAll n w = (w', None)
    ∧ dirs w' = <[n := default ∅ (dirs w !! n)]> (dirs w);
  fs_Chmod_spec : ∀ n m w, is_Some (dirs w !! n) →
    ∃ w', fs_Chmod n m w = (w', None) ∧ dirs w' = dirs w;
  fs_RemoveAll_spec : ∀ n w, ∃ w', fs_RemoveAll n w = (w', None) ∧ dirs w' = delete n (dirs w);
  fs_OpenFile_spec : ∀ d f p w files, dirs w !! d = Some files → files !! f = None →
    ∃ w', fs_OpenFile d f p w = (w', None) ∧ dirs w' = <[d := <[f := ""]> files]> (dirs w);
  fs_Copy_spec : ∀ d f data w files, dirs w !! d = Some files → is_Some (files !! f) →
    ∃ w', fs_Copy d f data w = (w', None) ∧ dirs w' = <[d := <[f := data]> files]> (dirs w);
  fs_ReadDir_spec : ∀ w, ∃ entries, fs_ReadDir w = Ok entries ∧ NoDup entries.*1
    ∧ ∀ n, (n, true) ∈ entries ↔ is_Some (dirs w !! n);
}.

(** ** The abstract store *)

Abbreviation Files := (gmap string string).
Abbreviation AbstractStore := (gmap Item Files).

(** Items a directory can stand for. *)
Definition storable (i : Item) : Prop :=
  archive_ok (it_Version i) (it_Platform i) ∧ version_in_int (it_Version i).

(** The regular files of an archive by base name, and the error of the
    archive: one in the middle of an entry, or the last one. *)
Definition regular (es : list TarEntry) : list TarEntry := filter (λ e, te_Regular e = true) es.
Definition entry_file (e : TarEntry) : string * string := (filepath_Base (te_Name e), te_Data e).
Definition archive_files (a : Archive) : Files :=
  match a with
  | NotGzip _ => ∅
  | TarEntries es _ => list_to_map (entry_file <$> regular es)
  end.
Definition archive_good (a : Archive) : bool :=
  match a with
  | NotGzip _ => false
  | TarEntries es last =>
      forallb (λ e, match te_Err e with None => true | Some _ => false end) (regular es)
      && match last with None => true | Some _ => false end
  end.
(** No two files of the archive have one name. *)
Definition archive_distinct (a : Archive) : Prop :=
  match a with
  | NotGzip _ => True
  | TarEntries es _ => NoDup (filepath_Base ∘ te_Name <$> regular es)
  end.

Inductive store_op :=
  | OpHas (item : Item)
  | OpList (matching : StoreFilter)
  | OpAdd (item : Item) (contents : Archive)
  | OpRemove (matching : StoreFilter).

Inductive store_result :=
  | RHas (found : bool)
  | RList (items : list Item)
  | RAdd (ok : bool)
  | RRemove (items : list Item)
  | RFailed.

Definition store_op_ok (op : store_op) : Prop :=
  match op with
  | OpHas item => storable item
  | OpAdd item contents => storable item ∧ archive_distinct contents
  | OpList _ | OpRemove _ => True
  end.

(** What the map does. *)
Definition abstract_op (op : store_op) (m : AbstractStore) : store_result * AbstractStore :=
  match op with
  | OpHas item => (RHas (bool_decide (is_Some (m !! item))), m)
  | OpList f => (RList (sort_items (filter (λ i, Filter_Matches f i = true) (map_to_list m).*1)), m)
  | OpAdd item a =>
      if archive_good a then (RAdd true, <[item := archive_files a]> m)
      else (RAdd false, delete item m)
  | OpRemove f =>
      (RRemove (sort_items (filter (λ i, Filter_Matches f i = true) (map_to_list m).*1)),
       filter (λ p, Filter_Matches f p.1 = false) m)
  end.

(** What the store does; the items [Remove] returns are sorted to compare
    them, their order being that of the directory. *)
Definition concrete_op `{StoreFS W} (op : store_op) (w : W) : store_result * W :=
  match op with
  | OpHas item => (match Has item w with Ok b => RHas b | Err _ => RFailed end, w)
  | OpList f =>
      (match List_items f w with Returned (Ok l) => RList l | _ => RFailed end, w)
  | OpAdd item a =>
      let '(w, err) := Add item a w in
      (RAdd (match err with None => true | Some _ => false end), w)
  | OpRemove f =>
      match Remove_items f w with
      | (w, Returned (removed, None)) => (RRemove (sort_items removed), w)
      | (w, _) => (RFailed, w)
      end
  end.

Fixpoint abstract_run (ops : list store_op) (m : AbstractStore) : list store_result * AbstractStore :=
  match ops with
  | [] => ([], m)
  | op :: ops =>
      let '(r, m) := abstract_op op m in
      let '(rs, m) := abstract_run ops m in
      (r :: rs, m)
  end.
Fixpoint concrete_run `{StoreFS W} (ops : list store_op) (w : W) : list store_result * W :=
  match ops with
  | [] => ([], w)
  | op :: ops =>
      let '(r, w) := concrete_op op w in
      let '(rs, w) := concrete_run ops w in
      (r :: rs, w)
  end.

(** ** One operation *)

Section working.
Context `{WorkingFS W}.
Implicit Types (w : W) (m : AbstractStore).

Lemma removeItem_spec n w : is_Some (dirs w !! n) →
  ∃ w', removeItem n w = (w', None) ∧ dirs w' = delete n (dirs w).
Proof.
  intros Hd. unfold removeItem. destruct (fs_Chmod_spec n 493 w Hd) as (w1 & -> & H1).
  destruct (fs_RemoveAll_spec n w1) as (w2 & -> & H2). exists w2. by rewrite H2, H1.
Qed.

Lemma extract_spec d es w files :
  dirs w !! d = Some files →
  NoDup (filepath_Base ∘ te_Name <$> regular es) →
  (∀ e, e ∈ regular es → files !! filepath_Base (te_Name e) = None) →
  ∃ w' err files', extract d es w = (w', err) ∧ dirs w' = <[d := files']> (dirs w) ∧
    (if forallb (λ e, match te_Err e with None => true | Some _ => false end) (regular es)
     then err = None ∧ files' = list_to_map (entry_file <$> regular es) ∪ files
     else is_Some err).
Proof.
  revert w files. induction es as [|e es IH]; intros w files Hd Hnd Hfresh; cbn [extract].
  { exists w, None, files. rewrite insert_id by done. cbn. by rewrite map_empty_union. }
  unfold regular in *. destruct (te_Regular e) eqn:Hreg; cbn [negb].
  2: { rewrite filter_cons_False in Hnd, Hfresh |- * by congruence. by apply IH. }
  rewrite filter_cons_True in Hnd, Hfresh |- * by done.
  rewrite fmap_cons in Hnd. apply NoDup_cons in Hnd as [Hnin Hnd].
  destruct (fs_OpenFile_spec d (filepath_Base (te_Name e)) (Z.land 365 (te_Mode e)) w files Hd)
    as (w1 & Ho & H1); [apply Hfresh; by left|]. rewrite Ho.
  destruct (fs_Copy_spec d (filepath_Base (te_Name e)) (te_Data e) w1
    (<[filepath_Base (te_Name e) := ""]> files)) as (w2 & Hc & H2).
  { by rewrite H1, lookup_insert_eq. }
  { by rewrite lookup_insert_eq. }
  rewrite Hc. cbn [forallb].
  assert (dirs w2 = <[d := <[filepath_Base (te_Name e) := te_Data e]> files]> (dirs w)) as Hd2
    by by rewrite H2, H1, insert_insert_eq, insert_insert_eq.
  destruct (te_Err e) as [err|]; cbn [andb].
  { do 3 eexists. split; [done|]. split; [exact Hd2|]. by eexists. }
  destruct (IH w2 (<[filepath_Base (te_Name e) := te_Data e]> files))
    as (w' & err & files' & Hex & Hd' & Hres).
  { by rewrite Hd2, lookup_insert_eq. }
  { done. }
  { intros e' Hin. rewrite lookup_insert_ne; [apply Hfresh; by right|].
    intros Heq. apply Hnin, list_elem_of_fmap. by exists e'. }
  rewrite Hex. exists w', err, files'. split; [done|].
  split; [by rewrite Hd', Hd2, insert_insert_eq|].
  destruct (forallb _ _); [|done]. destruct Hres as [-> ->]. split; [done|].
  rewrite fmap_cons. cbn [list_to_map foldr fst snd entry_file uncurry].
  rewrite <- insert_union_r, insert_union_l; [done|].
  apply not_elem_of_list_to_map_1. rewrite <- list_fmap_compose. done.
Qed.

Lemma add_contents_spec d a w :
  archive_distinct a → dirs w !! d = None →
  ∃ w' err files, add_contents d a w = (w', err) ∧ dirs w' = <[d := files]> (dirs w) ∧
    if archive_good a then err = None ∧ files = archive_files a else is_Some err.
Proof.
  intros Hdist Hd. unfold add_contents. destruct (fs_MkdirAll_spec d w) as (w1 & -> & H1).
  rewrite Hd in H1. cbn in H1. destruct a as [e|es last]; cbn.
  { do 3 eexists. split; [done|]. split; [exact H1|]. by eexists. }
  destruct (extract_spec d es w1 ∅) as (w2 & err & files & -> & H2 & Hres).
  { by rewrite H1, lookup_insert_eq. }
  { done. }
  { intros. by apply lookup_empty. }
  rewrite H1, insert_insert_eq in H2.
  destruct (forallb _ _); cbn.
  - destruct Hres as [-> ->]. rewrite map_union_empty in H2. destruct last as [e|].
    + do 3 eexists. split; [done|]. split; [exact H2|]. by eexists.
    + destruct (fs_Chmod_spec d 365 w2) as (w3 & -> & H3); [by rewrite H2, lookup_insert_eq|].
      cbn. do 3 eexists. split; [done|]. split; [by rewrite H3|done].
  - destruct Hres as [e ->]. do 3 eexists. split; [done|]. split; [exact H2|]. by eexists.
Qed.

Lemma Add_spec item a w :
  archive_distinct a →
  ∃ w' err, Add item a w = (w', err) ∧
    if archive_good a then err = None ∧ dirs w' = <[dirName item := archive_files a]> (dirs w)
    else is_Some err ∧ dirs w' = delete (dirName item) (dirs w).
Proof.
  intros Hdist. set (d := dirName item).
  assert (∃ w1, add_body item a w = add_contents d a w1 ∧ dirs w1 = delete d (dirs w)) as (w1 & Hb & H1).
  { unfold add_body. fold d. destruct (dirs w !! d) as [files|] eqn:Hd.
    - rewrite (fs_Stat_Some _ _ _ Hd). destruct (removeItem_spec d w) as (w1 & -> & H1); eauto.
    - destruct (fs_Stat_None _ _ Hd) as (e & -> & ->). exists w. by rewrite delete_id. }
  destruct (add_contents_spec d a w1 Hdist) as (w2 & err & files & Hc & H2 & Hres);
    [by rewrite H1, lookup_delete_eq|].
  rewrite H1, insert_delete_eq in H2.
  unfold Add. rewrite Hb, Hc. destruct (archive_good a).
  - destruct Hres as [-> ->]. exists w2, None. done.
  - destruct Hres as [e ->]. fold d.
    destruct (removeItem_spec d w2) as (w3 & -> & H3); [by rewrite H2, lookup_insert_eq|].
    exists w3, (Some e). split; [done|]. split; [by eexists|]. by rewrite H3, H2, delete_insert_eq.
Qed.

(** ** The items on disk *)

(** The item a directory entry stands for, when the filter matches it. *)
Definition entry_item (f : StoreFilter) (e : string * bool) : option (string * Item) :=
  if e.2 then
    match ExtractWithPlatform VersionPlatformRE e.1 with
    | Returned (Some ver, pl) =>
        if Filter_Matches f (mkItem ver pl) then Some (e.1, mkItem ver pl) else None
    | _ => None
    end
  else None.

Definition no_panic (n : string) : Prop := ∀ msg, ExtractWithPlatform VersionPlatformRE n ≠ Panicked msg.

Lemma each_entry_spec {S} f (cb : string → Item → S → S) entries s :
  (∀ n, (n, true) ∈ entries → no_panic n) →
  each_entry f cb entries s = (foldl (λ s p, cb p.1 p.2 s) s (omap (entry_item f) entries), None).
Proof.
  revert s. induction entries as [|[n d] entries IH]; intros s Hn; [done|].
  assert (∀ n, (n, true) ∈ entries → no_panic n) as Hn' by (intros n' Hin; apply Hn; by right).
  cbn [each_entry omap list_omap]. unfold entry_item at 1. cbn [fst snd].
  destruct d; cbn [negb]; [|by apply IH].
  pose proof (Hn n ltac:(by left)) as Hp. unfold no_panic in Hp.
  destruct (ExtractWithPlatform VersionPlatformRE n) as [[[ver|] pl]|msg];
    [|by apply IH|by destruct (Hp msg)].
  destruct (Filter_Matches f (mkItem ver pl)); cbn [negb]; by apply IH.
Qed.

Lemma parses_iff n v p :
  ExtractWithPlatform VersionPlatformRE n = Returned (Some v, p) ↔
  storable (mkItem v p) ∧ n = dirName (mkItem v p).
Proof.
  destruct (ExtractWithPlatform_inverts VersionPlatformRE BaseName n names_of_base) as [Hn Hinv].
  unfold storable, dirName. cbn. split.
  - intros He. rewrite He in Hn. tauto.
  - intros [[? ?] ->]. by apply Hinv.
Qed.

Lemma entry_item_Some f e n i :
  entry_item f e = Some (n, i) ↔
  e = (n, true) ∧ storable i ∧ n = dirName i ∧ Filter_Matches f i = true.
Proof.
  destruct e as [n' d], i as [v p]. unfold entry_item. cbn [fst snd]. split.
  - intros He. destruct d; [|done].
    destruct (ExtractWithPlatform VersionPlatformRE n') as [[[v'|] p']|] eqn:Hx; try done.
    destruct (Filter_Matches _ _) eqn:Hf; [|done]. simplify_eq. apply parses_iff in Hx as [Hs ->]. done.
  - intros ([= -> ->] & Hs & -> & Hf).
    assert (ExtractWithPlatform VersionPlatformRE (dirName (mkItem v p)) = Returned (Some v, p)) as ->
      by by apply parses_iff. by rewrite Hf.
Qed.

Lemma elem_of_disk_items f (entries : list (string * bool)) n i :
  (n, i) ∈ omap (entry_item f) entries ↔
  (n, true) ∈ entries ∧ storable i ∧ n = dirName i ∧ Filter_Matches f i = true.
Proof.
  rewrite list_elem_of_omap. split.
  - intros (e & He & (-> & ? & ? & ?)%entry_item_Some). done.
  - intros (He & Hi). exists (n, true). split; [done|]. by apply entry_item_Some.
Qed.

Lemma NoDup_disk_items f (entries : list (string * bool)) : NoDup entries.*1 → NoDup (omap (entry_item f) entries).*1.
Proof.
  induction entries as [|[n d] entries IH]; cbn; [done|].
  rewrite NoDup_cons. intros [Hn Hnd]. specialize (IH Hnd).
  destruct (entry_item f (n, d)) as [[n' i]|] eqn:He; [|done]. cbn. apply NoDup_cons. split; [|done].
  apply entry_item_Some in He as ([= -> ->] & _ & _). intros Hin. apply Hn.
  apply list_elem_of_fmap in Hin as ([n1 i1] & -> & Hin). apply elem_of_disk_items in Hin as (Hin & _).
  apply list_elem_of_fmap. by exists (n1, true).
Qed.

Lemma dirName_inj i j : storable i → storable j → dirName i = dirName j → i = j.
Proof.
  intros [Hi _] [Hj _] Heq. destruct i as [v p], j as [v' p'].
  by destruct (names_unique VersionPlatformRE BaseName v p v' p' names_of_base Hi Hj Heq) as [-> ->].
Qed.

(** The world holds what the map holds, and no other name panics. *)
Definition represents w m : Prop :=
  (∀ i, storable i → dirs w !! dirName i = m !! i)
  ∧ (∀ i, is_Some (m !! i) → storable i)
  ∧ (∀ n, is_Some (dirs w !! n) → no_panic n).

(** The items of the map the filter matches. *)
Definition matching_items f m : list Item :=
  filter (λ i, Filter_Matches f i = true) (map_to_list m).*1.

Lemma eachItem_spec {S} f (cb : string → Item → S → S) w m s :
  represents w m →
  ∃ items, eachItem f cb w s = (foldl (λ s p, cb p.1 p.2 s) s items, Returned None)
    ∧ NoDup items.*1 ∧ items.*2 ≡ₚ matching_items f m
    ∧ (∀ n i, (n, i) ∈ items → storable i ∧ n = dirName i ∧ is_Some (dirs w !! n) ∧ Filter_Matches f i = true)
    ∧ (∀ i, storable i → is_Some (dirs w !! dirName i) → Filter_Matches f i = true → (dirName i, i) ∈ items).
Proof.
  intros (Hv & Hst & Hpanic). destruct (fs_ReadDir_spec w) as (entries & He & Hnd & Hin).
  exists (omap (entry_item f) entries). unfold eachItem. rewrite He.
  rewrite each_entry_spec by (intros n Hn; apply Hpanic, Hin, Hn).
  split; [done|]. split; [by apply NoDup_disk_items|].
  assert (∀ n i, (n, i) ∈ omap (entry_item f) entries ↔
    storable i ∧ n = dirName i ∧ is_Some (m !! i) ∧ Filter_Matches f i = true) as Hitems.
  { intros n i. rewrite elem_of_disk_items, Hin. split.
    - intros (Hd & Hs & -> & Hf). rewrite Hv in Hd by done. done.
    - intros (Hs & -> & Hd & Hf). rewrite Hv by done. done. }
  split; [|split].
  - apply NoDup_Permutation.
    + pose proof (NoDup_disk_items f entries Hnd) as Hnd1.
      assert (∀ n i, (n, i) ∈ omap (entry_item f) entries → n = dirName i) as Hname
        by (intros n i Hni; by apply Hitems in Hni as (_ & ? & _)).
      clear -Hnd1 Hname. induction (omap (entry_item f) entries) as [|[n i] l IH]; cbn; [constructor|].
      cbn in Hnd1. apply NoDup_cons in Hnd1 as [Hni Hnd1]. apply NoDup_cons. split.
      * intros Hi. apply list_elem_of_fmap in Hi as ([n' i'] & Heq & Hi'). cbn in Heq. subst i'.
        apply Hni. rewrite (Hname n i) by by left. rewrite <- (Hname n' i) by by right.
        apply list_elem_of_fmap. by exists (n', i).
      * apply IH; [done|]. intros n' i' Hin. apply Hname. by right.
    + apply NoDup_filter, NoDup_fst_map_to_list.
    + intros i. unfold matching_items. rewrite list_elem_of_filter, !list_elem_of_fmap. split.
      * intros ([n i'] & -> & (Hs & _ & [x Hm] & Hf)%Hitems). cbn. split; [done|].
        exists (i', x). split; [done|]. by apply elem_of_map_to_list.
      * intros (Hf & [i' x] & -> & Hm%elem_of_map_to_list). cbn in *. exists (dirName i', i').
        split; [done|]. apply Hitems. split; [by apply Hst|]. by rewrite Hm.
  - intros n i (Hs & -> & Hm & Hf)%Hitems. by rewrite Hv.
  - intros i Hs Hd Hf. apply Hitems. rewrite Hv in Hd by done. done.
Qed.

Lemma represents_dirs w w' m : dirs w' = dirs w → represents w m → represents w' m.
Proof. unfold represents. by intros ->. Qed.

Lemma Has_spec item w m : represents w m → storable item →
  Has item w = Ok (bool_decide (is_Some (m !! item))).
Proof.
  intros (Hv & _ & _) Hs. unfold Has. specialize (Hv item Hs). destruct (dirs w !! dirName item) eqn:Hd.
  - rewrite (fs_Stat_Some _ _ _ Hd). by rewrite <- Hv.
  - destruct (fs_Stat_None _ _ Hd) as (e & -> & ->). by rewrite <- Hv.
Qed.

Lemma List_items_spec f w m : represents w m →
  List_items f w = Returned (Ok (sort_items (matching_items f m))).
Proof.
  intros Hr. unfold List_items.
  destruct (eachItem_spec f (λ _ item res, res ++ [item]) w m [] Hr) as (items & -> & _ & Hperm & _).
  assert (∀ res, foldl (λ s p, s ++ [p.2]) res items = res ++ items.*2) as ->.
  { clear. induction items as [|p items IH]; intros res; cbn; [by rewrite app_nil_r|].
    by rewrite IH, <- app_assoc. }
  do 2 f_equal. exact (sort_items_unique _ _ Hperm).
Qed.

Lemma remove_fold items w removed :
  NoDup items.*1 → (∀ n i, (n, i) ∈ items → is_Some (dirs w !! n)) →
  ∃ w', foldl (λ s p, remove_callback p.1 p.2 s) (w, removed, None) items = (w', removed ++ items.*2, None)
    ∧ ∀ n, dirs w' !! n = if decide (n ∈ items.*1) then None else dirs w !! n.
Proof.
  revert w removed. induction items as [|[n i] items IH]; intros w removed Hnd Hd; cbn.
  { exists w. rewrite app_nil_r. split; [done|]. intros n. by rewrite decide_False by set_solver. }
  apply NoDup_cons in Hnd as [Hn Hnd].
  destruct (removeItem_spec n w) as (w1 & Hr & H1); [by eapply Hd; left|]. cbn. rewrite Hr.
  destruct (IH w1 (removed ++ [i]) Hnd) as (w2 & Hf & H2).
  { intros n' i' Hin. rewrite H1, lookup_delete_ne; [by eapply Hd; right|].
    intros ->. apply Hn, list_elem_of_fmap. by exists (n', i'). }
  exists w2. rewrite Hf, <- app_assoc. split; [done|]. intros n'. rewrite H2, H1.
  destruct (decide (n' = n)) as [->|Hne].
  - rewrite lookup_delete_eq. by repeat case_decide; set_solver.
  - rewrite lookup_delete_ne by done. by repeat case_decide; set_solver.
Qed.

Lemma represents_insert w w' m item files :
  represents w m → storable item → dirs w' = <[dirName item := files]> (dirs w) →
  represents w' (<[item := files]> m).
Proof.
  intros (Hv & Hst & Hp) Hi Hd. split; [|split].
  - intros i Hs. rewrite Hd. destruct (decide (i = item)) as [->|Hne]; [by rewrite !lookup_insert_eq|].
    rewrite !lookup_insert_ne by (try done; intros Heq; by apply Hne, dirName_inj). by apply Hv.
  - intros i [x Hx]. apply lookup_insert_Some in Hx as [[<- _]|[_ Hx]]; eauto.
  - intros n [x Hx]. rewrite Hd in Hx. apply lookup_insert_Some in Hx as [[<- _]|[_ Hx]]; [|eauto].
    intros msg Hpa. destruct item as [v p].
    assert (ExtractWithPlatform VersionPlatformRE (dirName (mkItem v p)) = Returned (Some v, p)) as Hr
      by by apply parses_iff. by rewrite Hr in Hpa.
Qed.

Lemma represents_delete w w' m item :
  represents w m → storable item → dirs w' = delete (dirName item) (dirs w) →
  represents w' (delete item m).
Proof.
  intros (Hv & Hst & Hp) Hi Hd. split; [|split].
  - intros i Hs. rewrite Hd. destruct (decide (i = item)) as [->|Hne]; [by rewrite !lookup_delete_eq|].
    rewrite !lookup_delete_ne by (try done; intros Heq; by apply Hne, dirName_inj). by apply Hv.
  - intros i [x Hx]. apply lookup_delete_Some in Hx as [_ Hx]. eauto.
  - intros n [x Hx]. rewrite Hd in Hx. apply lookup_delete_Some in Hx as [_ Hx]. eauto.
Qed.

Lemma op_refines op w m :
  represents w m → store_op_ok op →
  ∃ w', concrete_op op w = ((abstract_op op m).1, w') ∧ represents w' (abstract_op op m).2.
Proof.
  intros Hr Hok. pose proof Hr as (Hv & Hst & Hp). destruct op as [item|f|item a|f]; cbn in Hok |- *.
  - exists w. by rewrite (Has_spec item w m Hr Hok).
  - exists w. by rewrite (List_items_spec f w m Hr).
  - destruct Hok as [Hs Hdist]. destruct (Add_spec item a w Hdist) as (w' & err & -> & Hres).
    exists w'. destruct (archive_good a); cbn.
    + destruct Hres as [-> Hd]. split; [done|]. by eapply represents_insert.
    + destruct Hres as [[e ->] Hd]. split; [done|]. by eapply represents_delete.
  - unfold Remove_items.
    destruct (eachItem_spec f remove_callback w m (w, [], None) Hr)
      as (items & -> & Hnd & Hperm & Hin & Hall).
    destruct (remove_fold items w [] Hnd) as (w' & -> & Hd).
    { intros n i Hni. by apply Hin in Hni as (_ & _ & ? & _). }
    exists w'. split; [do 2 f_equal; exact (sort_items_unique _ _ Hperm)|]. split; [|split].
    + intros i Hs. rewrite Hd. case_decide as Hdec.
      * apply list_elem_of_fmap in Hdec as ([n j] & Heq & Hj). cbn in Heq. subst n.
        destruct (Hin _ _ Hj) as (Hsj & Hij & _ & Hf). apply dirName_inj in Hij as ->; [|done..].
        symmetry. apply map_lookup_filter_None. right. intros x _. cbn. by rewrite Hf.
      * rewrite Hv by done. destruct (m !! i) as [x|] eqn:Hm.
        -- symmetry. apply map_lookup_filter_Some. split; [done|]. cbn.
           destruct (Filter_Matches f i) eqn:Hf; [|done]. destruct Hdec.
           apply list_elem_of_fmap. exists (dirName i, i). split; [done|]. apply Hall; [done| |done].
           rewrite Hv by done. by eexists.
        -- symmetry. apply map_lookup_filter_None. by left.
    + intros i [x Hx]. apply map_lookup_filter_Some in Hx as [Hx _]. eauto.
    + intros n Hn. apply Hp. rewrite Hd in Hn. case_decide; [by destruct Hn|done].
Qed.

(** C3: on a working file system the store is a map from versions and
    platforms to the files of their archives: starting from directories that
    represent a map, every sequence of operations - asking for an item,
    listing and removing what a filter matches, adding the archive of an item
    over an older one or not - gives the results the map gives and ends in
    directories that represent the resulting map.  Adding an archive that
    breaks off anywhere reports a failure and leaves no trace of the item,
    not even the version that was there; lists come newest version first,
    then by platform. *)
Theorem store_refines_map ops w m :
  represents w m → Forall store_op_ok ops →
  (concrete_run ops w).1 = (abstract_run ops m).1
  ∧ represents (concrete_run ops w).2 (abstract_run ops m).2.
Proof.
  revert w m. induction ops as [|op ops IH]; intros w m Hr Hok; [done|]. cbn.
  apply Forall_cons in Hok as [Hop Hok].
  destruct (op_refines op w m Hr Hop) as (w' & -> & Hr').
  destruct (abstract_op op m) as [r m']. cbn in *.
  destruct (IH w' m' Hr' Hok) as [Hrs Hr''].
  destruct (concrete_run ops w'), (abstract_run ops m'). cbn in *. by rewrite Hrs.
Qed.
End working.
