(* ===== verification/EnvtestRemote.v ===== *)
(** * The remote side of setup-envtest (src/tools/setup-envtest/remote)

    The client of the storage server the archives are fetched from.  HTTP, the
    decoding of JSON and the MD5 function are parameters: a response is its
    status and what reading its body gives, piece by piece. *)

From Stdlib Require Import Ascii.
From stdpp Require Import sorting.
From S2P Require Export EnvtestStore.

#[export] Instance Concrete_countable : Countable Concrete.
Proof.
  refine (inj_countable' (λ v, (Major v, Minor v, Patch v)) (λ p, mkConcrete p.1.1 p.1.2 p.2) _).
  by intros [].
Defined.

(** ** Data *)

Record PlatformItem := mkPlatformItem { pi_Platform : Platform; pi_MD5 : string }.
Record VersionSet := mkSet { set_Version : Concrete; set_Platforms : list PlatformItem }.

Record bucketObject := mkObject { bo_Name : string; bo_Hash : string }.
Record objectList := mkObjectList { ol_Items : list bucketObject; ol_NextPageToken : string }.

Record RemoteClient := mkRemote { rc_Bucket : string; rc_Server : string; rc_Insecure : bool }.

Definition scheme (c : RemoteClient) : string := if rc_Insecure c then "http" else "https".

Record URL := mkURL {
  u_Scheme : string;
  u_Host : string;
  u_Path : string;
  u_Query : list (string * string);
}.

(** What one [Read] of a body gives: data, and the end of the body or an error;
    after the last read comes the end. *)
Inductive read_end := EOF | ReadFailed (e : error).
Abbreviation Body := (list (string * option read_end)).

Record Response := mkResponse { rs_StatusCode : Z; rs_Status : string; rs_Body : Body }.

(** net/http, net/url's [String] for messages, encoding/json and crypto/md5
    (the sum in base64). *)
Class StorageHTTP (W : Type) := {
  http_NewRequest : URL → option error;
  http_Do : URL → W → W * result Response;
  URL_String : URL → string;
  decode_list : Body → result objectList;
  decode_object : Body → result bucketObject;
  md5_base64 : string → string;
}.

Abbreviation KnownVersions := (gmap Concrete (list PlatformItem)).

Section remote.
Context `{StorageHTTP W} `{!MapRange Concrete (list PlatformItem)}.
Implicit Types (c : RemoteClient) (w : W).

(** ** Listing *)

(** One object of the bucket; a name with a number beyond an [int] panics. *)
Definition add_known (known : KnownVersions) (item : bucketObject) : outcome KnownVersions :=
  match ExtractWithPlatform ArchiveRE (bo_Name item) with
  | Panicked msg => Panicked msg
  | Returned (None, _) => Returned known
  | Returned (Some ver, details) =>
      Returned (<[ver := default [] (known !! ver) ++ [mkPlatformItem details (bo_Hash item)]]> known)
  end.

Fixpoint add_all_known (known : KnownVersions) (items : list bucketObject) : outcome KnownVersions :=
  match items with
  | [] => Returned known
  | item :: items => known ← add_known known item; add_all_known known items
  end.

(** The request of a page: the page token is empty on the first one. *)
Definition list_url c (query : list (string * string)) : URL :=
  mkURL (scheme c) (rc_Server c) (filepath_Join ["/storage/v1/b/"; rc_Bucket c; "o"]) query.

Definition list_page (query : list (string * string)) c w : W * result objectList :=
  match http_NewRequest (list_url c query) with
  | Some e => (w, Err (ErrorWrap "unable to construct request to list bucket items" e))
  | None =>
      match http_Do (list_url c query) w with
      | (w, Err e) => (w, Err (ErrorWrap "unable to perform request to list bucket items" e))
      | (w, Ok resp) =>
          (w, if decide (rs_StatusCode resp ≠ 200)%Z
              then Err (ErrorString ("unable list bucket items -- got status " +:+ quoted (rs_Status resp) +:+ " from GCS"))
              else match decode_list (rs_Body resp) with
                   | Err e => Err (ErrorWrap "unable unmarshal bucket items list" e)
                   | Ok l => Ok l
                   end)
      end
  end.

(** The loop over the pages; [None] when the fuel is spent before the server
    gives a page without a token. *)
Fixpoint list_loop (fuel : nat) c (query : list (string * string)) (known : KnownVersions) w
    : W * option (outcome (result KnownVersions)) :=
  match fuel with
  | O => (w, None)
  | S fuel =>
      match list_page query c w with
      | (w, Err e) => (w, Some (Returned (Err e)))
      | (w, Ok page) =>
          match add_all_known known (ol_Items page) with
          | Panicked msg => (w, Some (Panicked msg))
          | Returned known =>
              if decide (ol_NextPageToken page ≠ "")
              then list_loop fuel c [("pageToken", ol_NextPageToken page)] known w
              else (w, Some (Returned (Ok known)))
          end
      end
  end.

Definition set_not_after (a b : VersionSet) : Prop := NewerThan (set_Version b) (set_Version a) = false.
#[export] Instance set_not_after_dec a b : Decision (set_not_after a b).
Proof. unfold set_not_after. apply _. Defined.

(** The map is ranged over in any order; [sort.Slice] puts newer versions
    first. *)
Definition sorted_sets (known : KnownVersions) : list VersionSet :=
  merge_sort set_not_after ((λ p, mkSet p.1 p.2) <$> map_range known).

Definition ListVersions (fuel : nat) c w : W * option (outcome (result (list VersionSet))) :=
  match list_loop fuel c [] ∅ w with
  | (w, Some (Returned (Ok known))) => (w, Some (Returned (Ok (sorted_sets known))))
  | (w, Some (Returned (Err e))) => (w, Some (Returned (Err e)))
  | (w, Some (Panicked msg)) => (w, Some (Panicked msg))
  | (w, None) => (w, None)
  end.

(** ** Fetching *)

Definition item_url c (itemName : string) (query : list (string * string)) : URL :=
  mkURL (scheme c) (rc_Server c) (filepath_Join ["/storage/v1/b/"; rc_Bucket c; "o"; itemName]) query.

(** Read, add to the checksum, write, until a read without data or the end. *)
Fixpoint sum_loop (itemName : string) (write : string → W → W * option error)
    (body : Body) (summed : string) w : W * result string :=
  match body with
  | [] => (w, Ok summed)
  | (data, err) :: body =>
      match err with
      | Some (ReadFailed e) => (w, Err (ErrorWrap ("unable read next chunk of " +:+ itemName) e))
      | _ =>
          if decide (data = "") then (w, Ok summed) else
          match write data w with
          | (w, Some e) => (w, Err (ErrorWrap ("unable write next chunk of " +:+ itemName) e))
          | (w, None) =>
              match err with
              | None => sum_loop itemName write body (summed +:+ data) w
              | Some _ => (w, Ok (summed +:+ data))
              end
          end
      end
  end.

(** [io.Copy] writes what a read gave before it looks at its error. *)
Fixpoint io_Copy (write : string → W → W * option error) (body : Body) w : W * option error :=
  match body with
  | [] => (w, None)
  | (data, err) :: body =>
      match (if decide (data = "") then (w, None) else write data w) with
      | (w, Some e) => (w, Some e)
      | (w, None) =>
          match err with
          | None => io_Copy write body w
          | Some EOF => (w, None)
          | Some (ReadFailed e) => (w, Some e)
          end
      end
  end.

(** [GetVersion] once the response is there. *)
Definition write_body (itemName : string) (platform : PlatformItem)
    (write : string → W → W * option error) (body : Body) w : W * option error :=
  if decide (pi_MD5 platform ≠ "") then
    match sum_loop itemName write body "" w with
    | (w, Err e) => (w, Some e)
    | (w, Ok summed) =>
        let sum := md5_base64 summed in
        (w, if decide (sum ≠ pi_MD5 platform)
            then Some (ErrorString ("checksum mismatch for " +:+ itemName +:+ ": " +:+ sum +:+
                         " (computed) != " +:+ pi_MD5 platform +:+ " (reported from GCS)"))
            else None)
    end
  else
    match io_Copy write body w with
    | (w, Some e) => (w, Some (ErrorWrap ("unable to download " +:+ itemName) e))
    | (w, None) => (w, None)
    end.

Definition GetVersion c (version : Concrete) (platform : PlatformItem)
    (write : string → W → W * option error) w : W * option error :=
  let itemName := ArchiveName (pi_Platform platform) version in
  let loc := item_url c itemName [("alt", "media")] in
  match http_NewRequest loc with
  | Some e => (w, Some (ErrorWrap ("unable to construct request to fetch " +:+ itemName) e))
  | None =>
      match http_Do loc w with
      | (w, Err e) =>
          (w, Some (ErrorWrap ("unable to fetch " +:+ itemName +:+ " (" +:+ URL_String loc +:+ ")") e))
      | (w, Ok resp) =>
          if decide (rs_StatusCode resp ≠ 200)%Z
          then (w, Some (ErrorString ("unable fetch " +:+ itemName +:+ " (" +:+ URL_String loc +:+
                           ") -- got status " +:+ quoted (rs_Status resp) +:+ " from GCS")))
          else write_body itemName platform write (rs_Body resp) w
      end
  end.

(** [FetchSum], with the platform item it fills in. *)
Definition FetchSum c (ver : Concrete) (pl : PlatformItem) w : W * PlatformItem * option error :=
  let itemName := ArchiveName (pi_Platform pl) ver in
  let loc := item_url c itemName [] in
  match http_NewRequest loc with
  | Some e => (w, pl, Some (ErrorWrap ("unable to construct request to fetch metadata for " +:+ itemName) e))
  | None =>
      match http_Do loc w with
      | (w, Err e) => (w, pl, Some (ErrorWrap ("unable to fetch metadata for " +:+ itemName) e))
      | (w, Ok resp) =>
          if decide (rs_StatusCode resp ≠ 200)%Z
          then (w, pl, Some (ErrorString ("unable fetch metadata for " +:+ itemName +:+
                               " -- got status " +:+ quoted (rs_Status resp) +:+ " from GCS")))
          else
            match decode_object (rs_Body resp) with
            | Err e => (w, pl, Some (ErrorWrap ("unable to unmarshal metadata for " +:+ itemName) e))
            | Ok item => (w, mkPlatformItem (pi_Platform pl) (bo_Hash item), None)
            end
      end
  end.
End remote.
