(* ===== verification/EnvtestRemoteFacts.v ===== *)
(** * What the storage client of setup-envtest lists and fetches

    The listing of a server that gives its pages one after the other, and the
    checksum of what [GetVersion] writes. *)

From stdpp Require Import sorting.
From S2P Require Export EnvtestRemote.

(** ** The order of the sets *)

#[export] Instance set_not_after_total : Total set_not_after.
Proof.
  intros a b. unfold set_not_after. destruct NewerThan_strict_total_order as (Hirr & Htrans & _).
  destruct (NewerThan (set_Version b) (set_Version a)) eqn:H1; [|tauto].
  destruct (NewerThan (set_Version a) (set_Version b)) eqn:H2; [|tauto].
  pose proof (Htrans _ _ _ H1 H2) as Hf. by rewrite Hirr in Hf.
Qed.
#[export] Instance set_not_after_trans : Transitive set_not_after.
Proof.
  intros a b c. unfold set_not_after. destruct NewerThan_strict_total_order as (_ & Htrans & Htri).
  rewrite <- !not_true_iff_false. intros Hba Hcb Hca.
  destruct (Htri (set_Version a) (set_Version b)) as [Hab|[Heq|?]]; [| |tauto].
  - apply Hcb. by eapply Htrans.
  - by rewrite Heq in Hca.
Qed.

Definition newer_set (a b : VersionSet) : Prop := NewerThan (set_Version a) (set_Version b) = true.

Local Open Scope nat_scope.

Section listing.
Context `{StorageHTTP W} `{!MapRange Concrete (list PlatformItem)}.
Implicit Types (c : RemoteClient) (w : W) (known : KnownVersions).

Lemma elem_of_sorted_sets known set :
  set ∈ sorted_sets known ↔ known !! set_Version set = Some (set_Platforms set).
Proof.
  unfold sorted_sets. rewrite merge_sort_Permutation, list_elem_of_fmap. split.
  - intros ([v ps] & -> & Hin). by apply elem_of_map_range in Hin.
  - intros Hk. exists (set_Version set, set_Platforms set). split; [by destruct set|].
    by apply elem_of_map_range.
Qed.

(** Newest first; versions are told apart by the order. *)
Lemma sorted_sets_sorted known : StronglySorted newer_set (sorted_sets known).
Proof.
  pose proof (StronglySorted_merge_sort set_not_after
    ((λ p, mkSet p.1 p.2) <$> map_range known)) as Hs.
  assert (NoDup (set_Version <$> sorted_sets known)) as Hnd.
  { unfold sorted_sets. rewrite merge_sort_Permutation, <- list_fmap_compose. apply NoDup_map_range_keys. }
  fold (sorted_sets known) in Hs. induction Hs as [|a l Hs IH Hall]; constructor.
  - apply IH. cbn in Hnd. by apply NoDup_cons in Hnd as [_ ?].
  - cbn in Hnd. apply NoDup_cons in Hnd as [Hn _]. rewrite Forall_forall in Hall |- *.
    intros b Hb. specialize (Hall b Hb). unfold set_not_after in Hall. unfold newer_set.
    destruct NewerThan_strict_total_order as (_ & _ & Htri).
    destruct (Htri (set_Version a) (set_Version b)) as [?|[Heq|?]]; [done| |congruence].
    destruct Hn. rewrite Heq. by apply list_elem_of_fmap_2.
Qed.

(** ** The objects of a bucket *)

(** An object whose name has a number beyond an [int], and the platforms the
    objects offer a version for. *)
Definition huge (o : bucketObject) : Prop :=
  ∃ v p, archive_ok v p ∧ ¬ version_in_int v ∧ bo_Name o = ArchiveName p v.
Definition object_item (o : bucketObject) : option (Concrete * PlatformItem) :=
  match ExtractWithPlatform ArchiveRE (bo_Name o) with
  | Returned (Some v, p) => Some (v, mkPlatformItem p (bo_Hash o))
  | _ => None
  end.
Definition offered (v : Concrete) (objects : list bucketObject) : list PlatformItem :=
  omap (λ o, '(v', item) ← object_item o; if decide (v' = v) then Some item else None) objects.

Lemma huge_panics o : huge o ↔ ∃ msg, ExtractWithPlatform ArchiveRE (bo_Name o) = Panicked msg.
Proof.
  split.
  - intros (v & p & Hok & Hin & ->).
    pose proof (ExtractWithPlatform_name _ _ v p names_of_archive Hok) as He. by rewrite decide_False in He.
  - intros [msg He]. destruct (ExtractWithPlatform_inverts _ _ (bo_Name o) names_of_archive) as [Hn _].
    by rewrite He in Hn.
Qed.

Lemma object_item_Some o v item :
  object_item o = Some (v, item) ↔
  archive_ok v (pi_Platform item) ∧ version_in_int v ∧ bo_Name o = ArchiveName (pi_Platform item) v
  ∧ bo_Hash o = pi_MD5 item.
Proof.
  destruct (ExtractWithPlatform_inverts _ _ (bo_Name o) names_of_archive) as [Hn Hinv].
  unfold object_item. split.
  - intros Ho. destruct (ExtractWithPlatform ArchiveRE (bo_Name o)) as [[[v'|] p]|]; try done.
    simplify_eq. cbn. tauto.
  - intros (Hok & Hin & Hname & Hh). rewrite Hname, (Hinv _ _ Hok Hin), Hh. by destruct item.
Qed.

Lemma elem_of_offered v item objects :
  item ∈ offered v objects ↔
  archive_ok v (pi_Platform item) ∧ version_in_int v ∧
  mkObject (ArchiveName (pi_Platform item) v) (pi_MD5 item) ∈ objects.
Proof.
  unfold offered. rewrite list_elem_of_omap. split.
  - intros (o & Hin & Ho). destruct (object_item o) as [[v' item']|] eqn:He; [|done]. cbn in Ho.
    case_decide; [|done]. simplify_eq. apply object_item_Some in He as (? & ? & Hn & Hh).
    destruct o; cbn in *. by subst.
  - intros (Hok & Hi & Hin). exists (mkObject (ArchiveName (pi_Platform item) v) (pi_MD5 item)).
    split; [done|]. rewrite (proj2 (object_item_Some _ v item)) by done. cbn. by rewrite decide_True.
Qed.

Lemma offered_app v os os' : offered v (os ++ os') = offered v os ++ offered v os'.
Proof. apply omap_app. Qed.

(** The map while objects are added: no version without a platform. *)
Definition collects known known' (os : list bucketObject) : Prop :=
  (∀ v, known' !! v ≠ Some []) ∧
  ∀ v, default [] (known' !! v) = default [] (known !! v) ++ offered v os.

Lemma collects_trans known1 known2 known3 os os' :
  collects known1 known2 os → collects known2 known3 os' → collects known1 known3 (os ++ os').
Proof.
  intros [_ H12] [Hne H23]. split; [done|]. intros v. by rewrite H23, H12, offered_app, app_assoc.
Qed.

Lemma add_known_spec known o :
  (∀ v, known !! v ≠ Some []) → ¬ huge o →
  ∃ known', add_known known o = Returned known' ∧ collects known known' [o].
Proof.
  intros Hne Hh. rewrite huge_panics in Hh. unfold add_known, collects.
  assert (∀ v, offered v [o] = match object_item o with
    | Some (v', item) => if decide (v' = v) then [item] else [] | None => [] end) as Hoff.
  { intros v. unfold offered. cbn. destruct (object_item o) as [[v' item]|]; cbn; by try case_decide. }
  unfold object_item in Hoff. destruct (ExtractWithPlatform _ _) as [[[v|] p]|msg] eqn:He.
  - eexists. split; [done|]. split.
    + intros v'. destruct (decide (v' = v)) as [->|?].
      * rewrite lookup_insert_eq. intros [=Heq]. by apply app_eq_nil in Heq as [_ ?].
      * rewrite lookup_insert_ne by done. apply Hne.
    + intros v'. rewrite Hoff. case_decide as Hd.
      * subst. by rewrite lookup_insert_eq.
      * rewrite lookup_insert_ne by done. by rewrite app_nil_r.
  - exists known. split; [done|]. split; [done|]. intros v. by rewrite Hoff, app_nil_r.
  - destruct Hh. by exists msg.
Qed.

Lemma add_all_known_spec known os :
  (∀ v, known !! v ≠ Some []) → Forall (λ o, ¬ huge o) os →
  ∃ known', add_all_known known os = Returned known' ∧ collects known known' os.
Proof.
  intros Hne Hos. revert known Hne. induction Hos as [|o os Ho _ IH]; intros known Hne; cbn.
  - exists known. split; [done|]. split; [done|]. intros v. by rewrite app_nil_r.
  - destruct (add_known_spec known o Hne Ho) as (known1 & -> & H1). cbn.
    destruct (IH known1 (proj1 H1)) as (known2 & -> & H2). exists known2. split; [done|].
    exact (collects_trans _ _ _ [o] os H1 H2).
Qed.

Lemma add_all_known_panics known os :
  Exists huge os → ∃ msg, add_all_known known os = Panicked msg.
Proof.
  intros Hos. revert known. induction Hos as [o os Ho|o os _ IH]; intros known; cbn.
  - apply huge_panics in Ho as [msg Ho]. unfold add_known. rewrite Ho. by exists msg.
  - destruct (add_known known o) as [known'|msg]; [apply IH|by exists msg].
Qed.

(** ** The pages of a server *)

(** From a query on the server gives these pages, and the last one has no
    token. *)
Inductive serves c : list (string * string) → W → list objectList → W → Prop :=
  | serves_last q w page w' :
      list_page q c w = (w', Ok page) → ol_NextPageToken page = "" → serves c q w [page] w'
  | serves_more q w page w1 pages w' :
      list_page q c w = (w1, Ok page) → ol_NextPageToken page ≠ "" →
      serves c [("pageToken", ol_NextPageToken page)] w1 pages w' →
      serves c q w (page :: pages) w'.

Definition page_objects (pages : list objectList) : list bucketObject := pages ≫= ol_Items.

Lemma list_loop_spec c q w pages w' : serves c q w pages w' →
  ∀ fuel known, length pages ≤ fuel → (∀ v, known !! v ≠ Some []) →
  Forall (λ o, ¬ huge o) (page_objects pages) →
  ∃ known', list_loop fuel c q known w = (w', Some (Returned (Ok known')))
    ∧ collects known known' (page_objects pages).
Proof.
  induction 1 as [q w page w' Hp Ht|q w page w1 pages w' Hp Ht Hs IH];
    intros [|fuel] known Hfuel Hne Hos; cbn in Hfuel; try lia; cbn [list_loop page_objects] in *;
    apply Forall_app in Hos as [Ho Hos]; rewrite Hp;
    destruct (add_all_known_spec known (ol_Items page) Hne Ho) as (known1 & -> & H1).
  - rewrite decide_False by auto. exists known1. split; [done|]. cbn. by rewrite app_nil_r.
  - rewrite decide_True by done. destruct (IH fuel known1) as (known2 & -> & H2); [lia|apply H1|done|].
    exists known2. split; [done|]. by eapply collects_trans.
Qed.

Lemma list_loop_panics c q w pages w' : serves c q w pages w' →
  ∀ fuel known, length pages ≤ fuel → Exists huge (page_objects pages) →
  ∃ w'' msg, list_loop fuel c q known w = (w'', Some (Panicked msg)).
Proof.
  induction 1 as [q w page w' Hp Ht|q w page w1 pages w' Hp Ht Hs IH];
    intros [|fuel] known Hfuel Hos; cbn in Hfuel; try lia; cbn [list_loop page_objects] in *;
    apply Exists_app in Hos; rewrite Hp.
  - destruct Hos as [Hos|Hos]; [|by apply Exists_nil in Hos].
    destruct (add_all_known_panics known _ Hos) as [msg ->]. eauto.
  - destruct (add_all_known known (ol_Items page)) as [known1|msg] eqn:Hk; [|eauto].
    rewrite decide_True by done. destruct Hos as [Hos|Hos].
    + destruct (add_all_known_panics known _ Hos) as [msg Hk']. congruence.
    + apply IH; [lia|done].
Qed.

(** C40: over a server that gives its objects in pages, one request for each,
    [ListVersions] returns the sets of versions strictly newest first: one set
    for each version there is an archive of, with the platforms and checksums
    of exactly the objects whose names are the archive names of that version.
    One step of fuel for each page is enough, and an object whose version has
    a number beyond an [int] makes it panic instead. *)
Theorem ListVersions_newest_first c w pages w' fuel :
  serves c [] w pages w' → length pages ≤ fuel →
  (Forall (λ o, ¬ huge o) (page_objects pages) →
   ∃ sets, ListVersions fuel c w = (w', Some (Returned (Ok sets)))
     ∧ StronglySorted newer_set sets
     ∧ (∀ set, set ∈ sets → set_Platforms set ≠ [])
     ∧ ∀ v item, (∃ set, set ∈ sets ∧ set_Version set = v ∧ item ∈ set_Platforms set) ↔
         archive_ok v (pi_Platform item) ∧ version_in_int v ∧
         mkObject (ArchiveName (pi_Platform item) v) (pi_MD5 item) ∈ page_objects pages)
  ∧ (Exists huge (page_objects pages) →
     ∃ w'' msg, ListVersions fuel c w = (w'', Some (Panicked msg))).
Proof.
  intros Hs Hfuel. unfold ListVersions. split.
  - intros Hos. destruct (list_loop_spec c [] w pages w' Hs fuel ∅ Hfuel) as (known & -> & Hne & Hk);
      [done|done|].
    exists (sorted_sets known). split; [done|]. split; [apply sorted_sets_sorted|]. split.
    + intros set Hset Hps. apply elem_of_sorted_sets in Hset. rewrite Hps in Hset. by eapply Hne.
    + intros v item. rewrite <- elem_of_offered. specialize (Hk v).
      rewrite lookup_empty in Hk. cbn in Hk. rewrite <- Hk. split.
      * intros (set & Hset%elem_of_sorted_sets & <- & Hin). by rewrite Hset.
      * destruct (known !! v) as [ps|] eqn:Hv; cbn; [|intros Hin; by apply not_elem_of_nil in Hin].
        intros Hin. exists (mkSet v ps). split; [by apply elem_of_sorted_sets|done].
  - intros Hos. destruct (list_loop_panics c [] w pages w' Hs fuel ∅ Hfuel Hos) as (w'' & msg & ->). eauto.
Qed.

Lemma ListVersions_sorted fuel c w w' sets :
  ListVersions fuel c w = (w', Some (Returned (Ok sets))) → StronglySorted newer_set sets.
Proof.
  unfold ListVersions. destruct (list_loop fuel c [] ∅ w) as [w1 [[[known|]|]|]]; try done.
  intros [= <- <-]. apply sorted_sets_sorted.
Qed.
(** Everything listed can be stored. *)
Definition listed_ok (v : Concrete) (item : PlatformItem) : Prop :=
  archive_ok v (pi_Platform item) ∧ version_in_int v.

Definition known_ok known : Prop := ∀ v item, item ∈ default [] (known !! v) → listed_ok v item.

Lemma add_all_known_ok os : ∀ known known',
  known_ok known → add_all_known known os = Returned known' → known_ok known'.
Proof.
  induction os as [|o os IH]; intros known known' Hk; cbn; [by intros [= <-]|].
  unfold add_known. destruct (ExtractWithPlatform_inverts _ _ (bo_Name o) names_of_archive) as [Hn _].
  destruct (ExtractWithPlatform ArchiveRE (bo_Name o)) as [[[v|] p]|]; cbn; [|by apply IH|done].
  apply IH. intros v' item. destruct (decide (v' = v)) as [->|Hne].
  - rewrite lookup_insert_eq. cbn. rewrite elem_of_app, list_elem_of_singleton.
    intros [Hin| ->]; [by apply Hk|]. split; cbn; tauto.
  - rewrite lookup_insert_ne by done. apply Hk.
Qed.

Lemma ListVersions_ok fuel c w w' sets :
  ListVersions fuel c w = (w', Some (Returned (Ok sets))) →
  ∀ set item, set ∈ sets → item ∈ set_Platforms set → listed_ok (set_Version set) item.
Proof.
  assert (∀ fuel q known w w' known', known_ok known →
    list_loop fuel c q known w = (w', Some (Returned (Ok known'))) → known_ok known') as Hloop.
  { clear fuel w w' sets. induction fuel as [|fuel IH]; intros q known w w' known' Hk; cbn; [done|].
    destruct (list_page q c w) as [w1 [page|e]]; [|done].
    destruct (add_all_known known (ol_Items page)) as [known1|] eqn:Ha; [|done].
    apply add_all_known_ok in Ha; [|done]. case_decide; [by apply IH|]. by intros [= _ <-]. }
  unfold ListVersions. destruct (list_loop fuel c [] ∅ w) as [w1 [[[known|]|]|]] eqn:Hl; try done.
  intros [= <- <-] set item Hset Hin. apply elem_of_sorted_sets in Hset.
  eapply Hloop; [|exact Hl|by rewrite Hset].
  intros v i Hi. rewrite lookup_empty in Hi. cbn in Hi. by apply not_elem_of_nil in Hi.
Qed.
End listing.
