(* ===== verification/EnvtestEnv.v ===== *)
(** * The environment, workflows and main program of setup-envtest
    (src/tools/setup-envtest/env, workflows and main.go)

    The methods of [Env] print, change the fields of the environment and the
    world, and give up by panicking with an exit code: they are computations
    of a state monad with three ways to end, plus one for a listing that has
    run out of fuel. *)

From Stdlib Require Import Ascii.
From stdpp Require Import sorting.
From S2P Require Export EnvtestRemote.

(** ** Exits (exit.go) *)

(** How a call ends: with a value, by a panic with an [exitCode], by another
    panic, or not within its fuel. *)
Inductive ending (A : Type) :=
  | Finished (a : A)
  | Exited (code : Z) (err : error)
  | Crashed (msg : string)
  | Unfinished.
Arguments Finished {A} _.
Arguments Exited {A} _ _.
Arguments Crashed {A} _.
Arguments Unfinished {A}.

(** [CheckRecover]: what the callback is called with, and whether to panic
    again. *)
Definition CheckRecover {A} (e : ending A) : option (Z * error) * bool :=
  match e with
  | Finished _ | Unfinished => (None, false)
  | Exited code err => (Some (code, err), false)
  | Crashed _ => (None, true)
  end.

(** [HandleExitWithCode]: what is printed to the standard error and the code
    the process ends with; a panic ends a Go program with 2. *)
Definition HandleExitWithCode {A} (e : ending A) : option (string * Z) :=
  match e with
  | Finished _ => Some ("", 0%Z)
  | Exited code err => Some (error_text err +:+ String "010"%char "", code)
  | Crashed msg => Some ("panic: " +:+ msg, 2%Z)
  | Unfinished => None
  end.

(** ** The environment (env.go) *)

Record Env := mkEnv {
  e_Platform : PlatformItem;
  e_VerifySum : bool;
  e_NoDownload : bool;
  e_ForceDownload : bool;
  e_Version : Spec;
  e_manualPath : string;
}.

Definition with_version (v : Spec) (e : Env) : Env :=
  mkEnv (e_Platform e) (e_VerifySum e) (e_NoDownload e) (e_ForceDownload e) v (e_manualPath e).
Definition with_item (p : PlatformItem) (e : Env) : Env :=
  mkEnv p (e_VerifySum e) (e_NoDownload e) (e_ForceDownload e) (e_Version e) (e_manualPath e).
Definition with_platform (p : Platform) (e : Env) : Env :=
  with_item (mkPlatformItem p (pi_MD5 (e_Platform e))) e.
Definition with_MD5 (sum : string) (e : Env) : Env :=
  with_item (mkPlatformItem (pi_Platform (e_Platform e)) sum) e.
Definition with_manualPath (path : string) (e : Env) : Env :=
  mkEnv (e_Platform e) (e_VerifySum e) (e_NoDownload e) (e_ForceDownload e) (e_Version e) path.
Definition with_downloads (no force : bool) (e : Env) : Env :=
  mkEnv (e_Platform e) (e_VerifySum e) no force (e_Version e) (e_manualPath e).

(** The environment, the world and what was printed. *)
Record Session (W : Type) := mkSession { s_env : Env; s_world : W; s_out : string }.
Arguments mkSession {W} _ _ _.
Arguments s_env {W} _.
Arguments s_world {W} _.
Arguments s_out {W} _.

Definition ST (W A : Type) : Type := Session W → Session W * ending A.

#[export] Instance ST_ret W : MRet (ST W) := λ A a s, (s, Finished a).
#[export] Instance ST_bind W : MBind (ST W) := λ A B f m s,
  match m s with
  | (s, Finished a) => f a s
  | (s, Exited code err) => (s, Exited code err)
  | (s, Crashed msg) => (s, Crashed msg)
  | (s, Unfinished) => (s, Unfinished)
  end.

(** The temporary files of [Fetch] and the tests of [PathMatches], next to the
    store; [read_archive] is what gzip and tar readers make of a stream, and
    [fs_TempData] what a file opened by [fs_TempFile] holds from its start.
    Errors are told apart by [ErrFileNotFound], which is [fs.ErrNotExist]. *)
Class EnvFS (W : Type) `{StoreFS W} := {
  fs_TempFile : string → W → W * result string;
  fs_WriteTemp : string → string → W → W * option error;
  fs_Sync : string → W → W * option error;
  fs_Seek : string → W → W * option error;
  fs_Close : string → W → W;
  fs_TempData : string → W → string;
  fs_Remove : string → W → W * option error;
  fs_StatPath : string → W → option error;
  read_archive : string → Archive;
}.

(** text/tabwriter on rows of three cells, with a minimal width of 4 and a
    padding of 2: a column is as wide as its widest cell needs. *)
Definition spaces (n : nat) : string := String.concat "" (repeat " " n).
Definition column_width (cells : list string) : nat :=
  foldr (λ c w, Nat.max (String.length c + 2) w) 4%nat cells.
Definition pad_to (width : nat) (cell : string) : string :=
  cell +:+ spaces (width - String.length cell).
Definition newline : string := String "010"%char "".
Definition tabwriter (rows : list (string * string * string)) : string :=
  let w1 := column_width ((λ r, r.1.1) <$> rows) in
  let w2 := column_width ((λ r, r.1.2) <$> rows) in
  String.concat "" ((λ r, pad_to w1 r.1.1 +:+ pad_to w2 r.1.2 +:+ r.2 +:+ newline) <$> rows).

Example tabwriter_two : tabwriter [("(installed)", "v1.19.2", "linux/amd64"); ("a", "b", "c")]
  = "(installed)  v1.19.2  linux/amd64" +:+ newline +:+ "a            b        c" +:+ newline.
Proof. reflexivity. Qed.

(** ** Print formats (helpers.go) *)

(** An [int]: a value that is none of the constants panics when used. *)
Definition PrintOverview : Z := 0.
Definition PrintPath : Z := 1.
Definition PrintEnv : Z := 2.

Definition PrintFormat_String (f : Z) : outcome string :=
  if decide (f = PrintOverview) then Returned "overview"
  else if decide (f = PrintPath) then Returned "path"
  else if decide (f = PrintEnv) then Returned "env"
  else Panicked ("unexpected print format " +:+ Itoa f).

(** [Set], with the value it leaves in the flag. *)
Definition PrintFormat_Set (val : string) (f : Z) : Z * option error :=
  if decide (val = "overview") then (PrintOverview, None)
  else if decide (val = "path") then (PrintPath, None)
  else if decide (val = "env") then (PrintEnv, None)
  else (f, Some (ErrorString ("unknown print format " +:+ quoted val +:+ ", use one of overview|path|env"))).

(** [strings.ReplaceAll(path, "'", ...)]: each quote becomes a closing quote, a
    quote between double quotes and an opening quote. *)
Definition quoted_quote : string := "'" +:+ dquote +:+ "'" +:+ dquote +:+ "'".
Fixpoint shell_quote (path : string) : string :=
  match path with
  | EmptyString => ""
  | String "'"%char path => quoted_quote +:+ shell_quote path
  | String a path => String a (shell_quote path)
  end.

Section env.
Context `{StorageHTTP W} `{EnvFS W} `{!MapRange Concrete (list PlatformItem)}.
(** The client, and the fuel of its listings. *)
Context (client : RemoteClient) (fuel : nat).

(** *** Steps *)

Definition get_env : ST W Env := λ s, (s, Finished (s_env s)).
Definition modify_env (f : Env → Env) : ST W unit :=
  λ s, (mkSession (f (s_env s)) (s_world s) (s_out s), Finished ()).
Definition print (text : string) : ST W unit :=
  λ s, (mkSession (s_env s) (s_world s) (s_out s +:+ text), Finished ()).
Definition on_world {A} (f : W → W * A) : ST W A :=
  λ s, let '(w, a) := f (s_world s) in (mkSession (s_env s) w (s_out s), Finished a).
Definition read_world {A} (f : W → A) : ST W A := λ s, (s, Finished (f (s_world s))).

Definition Exit {A} (code : Z) (msg : string) : ST W A := λ s, (s, Exited code (ErrorString msg)).
Definition ExitCause {A} (code : Z) (err : error) (msg : string) : ST W A :=
  λ s, (s, Exited code (ErrorWrap msg err)).
Definition panic {A} (msg : string) : ST W A := λ s, (s, Crashed msg).

(** A result whose error ends the program with 2, and an outcome whose panic
    goes on. *)
Definition or_exit {A} (msg : string) (r : result A) : ST W A :=
  match r with Ok a => mret a | Err e => ExitCause 2 e msg end.
Definition check_exit (msg : string) (err : option error) : ST W unit :=
  match err with None => mret () | Some e => ExitCause 2 e msg end.
Definition or_panic {A} (o : outcome A) : ST W A :=
  match o with Returned a => mret a | Panicked msg => panic msg end.

Definition nil_pointer : string := "runtime error: invalid memory address or nil pointer dereference".
(** [*e.Version.AsConcrete()] *)
Definition concrete_version (e : Env) : ST W Concrete :=
  match Spec_AsConcrete (e_Version e) with Some v => mret v | None => panic nil_pointer end.

(** *** Methods *)

Definition CheckCoherence : ST W unit :=
  e ← get_env;
  if e_NoDownload e && e_ForceDownload e
  then Exit 2 "cannot both skip downloading *and* force re-downloading"
  else if bool_decide (OS (pi_Platform (e_Platform e)) = "") || bool_decide (Arch (pi_Platform (e_Platform e)) = "")
  then Exit 2 "must specify non-empty OS and arch (did you specify bad --os or --arch values?)"
  else mret ().

Definition env_filter (e : Env) : StoreFilter := mkFilter (e_Version e) (pi_Platform (e_Platform e)).

Definition env_item (e : Env) : ST W Item :=
  match Spec_AsConcrete (e_Version e) with
  | Some v =>
      if IsWildcard (pi_Platform (e_Platform e)) then panic "no platform/version set"
      else mret (mkItem v (pi_Platform (e_Platform e)))
  | None => panic "no platform/version set"
  end.

Definition store_List (msg : string) (f : StoreFilter) : ST W (list Item) :=
  r ← read_world (List_items f); r ← or_panic r; or_exit msg r.

Definition client_ListVersions (msg : string) : ST W (list VersionSet) :=
  r ← on_world (EnvtestRemote.ListVersions fuel client);
  match r with
  | Some r => r ← or_panic r; or_exit msg r
  | None => λ s, (s, Unfinished)
  end.

Definition platform_not_after (a b : PlatformItem) : Prop :=
  orderPlatforms (pi_Platform b) (pi_Platform a) = false.
#[local] Instance platform_not_after_dec a b : Decision (platform_not_after a b).
Proof. unfold platform_not_after. apply _. Defined.

Definition installed_rows (items : list Item) : list (string * string * string) :=
  (λ item, ("(installed)", "v" +:+ Concrete_String (it_Version item), Platform_String (it_Platform item))) <$> items.

Definition available_rows (e : Env) (sets : list VersionSet) : list (string * string * string) :=
  set ← sets;
  if Spec_Matches (e_Version e) (set_Version set) then
    (λ plat, ("(available)", "v" +:+ Concrete_String (set_Version set), Platform_String (pi_Platform plat))) <$>
      filter (λ plat, Platform_Matches (pi_Platform (e_Platform e)) (pi_Platform plat) = true)
        (merge_sort platform_not_after (set_Platforms set))
  else [].

(** A body with [defer out.Flush()]: the rows written to the tab writer are
    printed however it ends. *)
Definition flushing (rows : list (string * string * string)) (m : ST W (list (string * string * string)))
    : ST W unit :=
  λ s, match m s with
       | (s, Finished more) => print (tabwriter (rows ++ more)) s
       | (s, Exited code err) => ((print (tabwriter rows) s).1, Exited code err)
       | (s, Crashed msg) => ((print (tabwriter rows) s).1, Crashed msg)
       | (s, Unfinished) => (s, Unfinished)
       end.

Definition ListVersions : ST W unit :=
  e ← get_env;
  localVersions ← store_List "unable to list installed versions" (env_filter e);
  flushing (installed_rows localVersions)
    (if e_NoDownload e then mret []
     else
       remoteVersions ← client_ListVersions "unable list to available versions";
       mret (available_rows e remoteVersions)).

(** The first platform of the first set that matches. *)
Fixpoint find_platform (e : Env) (v : Concrete) (plats : list PlatformItem) : option PlatformItem :=
  match plats with
  | [] => None
  | plat :: plats =>
      if Platform_Matches (pi_Platform (e_Platform e)) (pi_Platform plat) && Spec_Matches (e_Version e) v
      then Some plat else find_platform e v plats
  end.
Fixpoint find_latest (e : Env) (vers : list VersionSet) : option (Concrete * PlatformItem) :=
  match vers with
  | [] => None
  | set :: vers =>
      if negb (Spec_Matches (e_Version e) (set_Version set)) then find_latest e vers
      else match find_platform e (set_Version set) (set_Platforms set) with
           | Some plat => Some (set_Version set, plat)
           | None => find_latest e vers
           end
  end.

Definition LatestVersion : ST W (Concrete * PlatformItem) :=
  vers ← client_ListVersions "unable to list versions to find latest one";
  e ← get_env;
  match find_latest e vers with
  | Some found => mret found
  | None => Exit 2 ("unable to find a version that was supported for platform " +:+
                      Platform_String (pi_Platform (e_Platform e)))
  end.

Definition ExistsAndValid : ST W bool :=
  e ← get_env;
  if e_ForceDownload e then mret false else
  if IsWildcard (pi_Platform (e_Platform e))
  then Exit 2 "you must have a concrete platform with this command -- you cannot use wildcard platforms with fetch or switch"
  else
    item ← env_item e;
    r ← read_world (Has item);
    or_exit "unable to check if existing version exists" r.

(** The first item on disk that matches. *)
Fixpoint find_local (e : Env) (items : list Item) : option Item :=
  match items with
  | [] => None
  | item :: items =>
      if negb (Spec_Matches (e_Version e) (it_Version item))
         || negb (Platform_Matches (pi_Platform (e_Platform e)) (it_Platform item))
      then find_local e items
      else Some item
  end.

Definition use_local (item : Item) : ST W unit :=
  modify_env (λ e, with_platform (it_Platform item) (with_version (MakeConcrete (it_Version item) (e_Version e)) e)).
Definition use_server (v : Concrete) (plat : PlatformItem) : ST W unit :=
  modify_env (λ e, with_item plat (with_version (MakeConcrete v (e_Version e)) e)).

Definition EnsureVersionIsSet : ST W unit :=
  e ← get_env;
  match Spec_AsConcrete (e_Version e) with
  | Some _ => mret ()
  | None =>
      items ← store_List "unable to determine installed versions" (env_filter e);
      let localVer := find_local e items in
      let ask_server :=
        found ← LatestVersion;
        match localVer with
        | Some item =>
            if negb (e_ForceDownload e) && NewerThan (it_Version item) found.1
            then use_local item else use_server found.1 found.2
        | None => use_server found.1 found.2
        end in
      if e_NoDownload e || negb (sp_CheckLatest (e_Version e)) then
        match localVer with
        | Some item => use_local item
        | None =>
            if e_NoDownload e
            then Exit 2 ("no applicable on-disk versions for " +:+ Platform_String (pi_Platform (e_Platform e)) +:+
                   " found, you'll have to download one, or run list -i to see what you do have")
            else ask_server
        end
      else ask_server
  end.

(** A body with [defer e.cleanupOnError(...)]: the cleanup runs when it exits
    with a code other than 0, and not on other panics. *)
Definition cleanupOnError {A} (extraCleanup : W → W) (m : ST W A) : ST W A :=
  λ s, match m s with
       | (s, Exited code err) =>
           if decide (code ≠ 0)%Z
           then (mkSession (s_env s) (extraCleanup (s_world s)) (s_out s), Exited code err)
           else (s, Exited code err)
       | r => r
       end.

(** A body with [defer archiveOut.Close()]. *)
Definition closing {A} (path : string) (m : ST W A) : ST W A :=
  λ s, let '(s, r) := m s in (mkSession (s_env s) (fs_Close path (s_world s)) (s_out s), r).

(** [Fetch] from the archive file on. *)
Definition fetch_into (packedPath : string) : ST W unit :=
  e ← get_env;
  v ← concrete_version e;
  err ← on_world (GetVersion client v (e_Platform e) (fs_WriteTemp packedPath));
  _ ← check_exit "unable to download requested version" err;
  err ← on_world (fs_Sync packedPath);
  _ ← check_exit "unable to flush downloaded archive file" err;
  err ← on_world (fs_Seek packedPath);
  _ ← check_exit "unable to jump back to beginning of archive file to unzip" err;
  item ← env_item e;
  err ← on_world (λ w, Add item (read_archive (fs_TempData packedPath w)) w);
  _ ← check_exit "unable to store version to disk" err;
  _ ← on_world (fs_Remove packedPath);
  mret ().

Definition fetch_sum : ST W unit :=
  e ← get_env;
  _ ← (if e_VerifySum e && bool_decide (pi_MD5 (e_Platform e) = "") then
         v ← concrete_version e;
         r ← on_world (λ w, let '(w, pl, err) := FetchSum client v (e_Platform e) w in (w, (pl, err)));
         _ ← modify_env (with_item r.1);
         check_exit "unable to fetch checksum for requested version" r.2
       else mret ());
  if e_VerifySum e then mret () else modify_env (with_MD5 "").

Definition Fetch : ST W unit :=
  _ ← fetch_sum;
  e ← get_env;
  v ← concrete_version e;
  r ← on_world (fs_TempFile ("*-" +:+ ArchiveName (pi_Platform (e_Platform e)) v));
  packedPath ← or_exit "unable to open file to write downloaded archive to" r;
  cleanupOnError (λ w, if decide (packedPath ≠ "") then (fs_Remove packedPath w).1 else w)
    (closing packedPath (fetch_into packedPath)).

Definition Remove : ST W unit :=
  e ← get_env;
  r ← on_world (Remove_items (env_filter e));
  r ← or_panic r;
  _ ← print (String.concat "" ((λ item, "removed " +:+ Item_String item +:+ newline) <$> r.1));
  check_exit "unable to remove all requested version(s)" r.2.

Definition PrintInfo (printFmt : Z) : ST W unit :=
  e ← get_env;
  path ← (if decide (e_manualPath e = "") then item ← env_item e; mret (Store_Path item)
          else mret (e_manualPath e));
  if decide (printFmt = PrintOverview) then
    print ("Version: " +:+ Spec_String (e_Version e) +:+ newline +:+
           "OS/Arch: " +:+ Platform_String (pi_Platform (e_Platform e)) +:+ newline +:+
           (if decide (pi_MD5 (e_Platform e) ≠ "") then "md5: " +:+ pi_MD5 (e_Platform e) +:+ newline else "") +:+
           "Path: " +:+ path +:+ newline)
  else if decide (printFmt = PrintPath) then print path
  else if decide (printFmt = PrintEnv) then
    print ("export KUBEBUILDER_ASSETS='" +:+ shell_quote path +:+ "'" +:+ newline)
  else panic ("unexpected print format " +:+ Itoa printFmt).

Definition EnsureBaseDirs : ST W unit :=
  err ← on_world Initialize;
  check_exit "unable to make sure store is initialized" err.

Definition Sideload (input : Archive) : ST W unit :=
  e ← get_env;
  if bool_decide (Spec_AsConcrete (e_Version e) = None) || IsWildcard (pi_Platform (e_Platform e))
  then Exit 2 "must specify a concrete version and platform to sideload.  Make sure you've passed a version, like 'sideload 1.21.0'"
  else
    item ← env_item e;
    err ← on_world (Add item input);
    check_exit "unable to sideload item to disk" err.

Definition expectedExecutables : list string := ["kube-apiserver"; "etcd"; "kubectl"].

Definition versionFromPathName (value : string) : ST W bool :=
  r ← or_panic (ExtractWithPlatform VersionPlatformRE (filepath_Base value));
  match r with
  | (None, _) => mret false
  | (Some ver, pl) =>
      _ ← modify_env (λ e, with_manualPath value
            (with_platform pl (with_version (MakeConcrete ver (e_Version e)) e)));
      mret true
  end.

(** Whether all executables are there. *)
Fixpoint check_executables (value : string) (names : list string) : ST W bool :=
  match names with
  | [] => mret true
  | expected :: names =>
      err ← read_world (fs_StatPath (filepath_Join [value; expected]));
      match err with
      | None => check_executables value names
      | Some err =>
          if ErrFileNotFound err then mret false
          else ExitCause 2 err ("unable to check for existence of binary " +:+ value +:+
                 " from existing (env var) path " +:+ expected)
      end
  end.

Definition PathMatches (value : string) : ST W bool :=
  if decide (value = "") then mret false else
  from_store ← versionFromPathName value;
  if (from_store : bool) then mret true else
  found ← check_executables value expectedExecutables;
  if (found : bool) then
    _ ← modify_env (λ e, with_manualPath value
          (with_platform (mkPlatform "*" "*") (with_version AnyVersion e)));
    mret true
  else mret false.

(** ** Workflows (workflows.go) *)

Definition Use_Do (UseEnv : bool) (AssetsPath : string) (printFormat : Z) : ST W unit :=
  _ ← EnsureBaseDirs;
  matched ← (if UseEnv then PathMatches AssetsPath else mret false);
  if (matched : bool) then PrintInfo printFormat else
  _ ← EnsureVersionIsSet;
  valid ← ExistsAndValid;
  if (valid : bool) then PrintInfo printFormat else
  e ← get_env;
  if e_NoDownload e
  then Exit 2 ("no such version (" +:+ Spec_String (e_Version e) +:+ ") exists on disk for this architecture (" +:+
         Platform_String (pi_Platform (e_Platform e)) +:+ ") -- try running `list -i` to see what's on disk")
  else _ ← Fetch; PrintInfo printFormat.

Definition List_Do : ST W unit := _ ← EnsureBaseDirs; ListVersions.

Definition Cleanup_Do : ST W unit :=
  _ ← modify_env (with_downloads true false);
  _ ← EnsureBaseDirs;
  Remove.

Definition Sideload_Do (Input : Archive) (printFormat : Z) : ST W unit :=
  _ ← EnsureBaseDirs;
  _ ← modify_env (λ e, with_downloads true (e_ForceDownload e) e);
  _ ← Sideload Input;
  PrintInfo printFormat.

(** ** The main program (main.go)

    The values of the flags, the environment variables read into their
    defaults; logging is left out. *)
Record Flags := mkFlags {
  fl_force : bool;
  fl_installedOnly : bool;
  fl_verify : bool;
  fl_useEnv : bool;
  fl_os : string;
  fl_arch : string;
  fl_print : Z;
  fl_binDir : string;
}.

(** The environment [setupEnv] builds for a version argument. *)
Definition initial_env (fl : Flags) (version : Spec) (noDownload : bool) : Env :=
  mkEnv (mkPlatformItem (mkPlatform (fl_os fl) (fl_arch fl)) "") (fl_verify fl)
    noDownload (fl_force fl) version "".

(** [dataDir] is what [DefaultStoreDir] returns; the directory of the store is
    returned. *)
Definition setupEnv (fl : Flags) (dataDir : result string) (version : string) : ST W string :=
  binDir ← (if decide (fl_binDir fl = "") then
              match dataDir with
              | Ok dir => mret dir
              | Err e => ExitCause 1 e "unable to deterimine default binaries directory (use --bin-dir to manually override)"
              end
            else mret (fl_binDir fl));
  _ ← (if decide (version = "" ∨ version = "latest")
       then modify_env (λ _, initial_env fl Versions.LatestVersion (fl_installedOnly fl))
       else if decide (version = "latest-on-disk")
       then modify_env (λ _, initial_env fl AnyVersion true)
       else
         r ← or_panic (FromExpr version);
         match r with
         | Ok spec => modify_env (λ _, initial_env fl spec (fl_installedOnly fl))
         | Err e => ExitCause 1 e "version be a valid version, or simply 'latest' or 'latest-on-disk'"
         end);
  _ ← CheckCoherence;
  mret binDir.

(** After the flags are parsed: [args] are what is left of the command line,
    [assets] the value of KUBEBUILDER_ASSETS and [stdin] the standard input. *)
Definition main_body (fl : Flags) (dataDir : result string) (args : list string) (assets : string) (stdin : Archive) : ST W unit :=
  match args with
  | [action] | [action; _] =>
      _ ← setupEnv fl dataDir (match args with [_; version] => version | _ => "" end);
      if decide (action = "use") then Use_Do (fl_useEnv fl) assets (fl_print fl)
      else if decide (action = "list") then List_Do
      else if decide (action = "cleanup") then Cleanup_Do
      else if decide (action = "sideload") then Sideload_Do stdin (fl_print fl)
      else Exit 2 ("unknown action " +:+ quoted action)
  | _ => Exit 2 "please specify a command to use, and optionally a version selector"
  end.
End env.
