(* ===== verification/EnvtestEnvFacts.v ===== *)
(** * What setup-envtest does to the store

    Theorems about the environment and its workflows on a file system that
    works and over any storage server: a weakest-precondition calculus for
    sessions, the temporary archive of a download, the choice of a version. *)

From Stdlib Require Import Ascii.
From stdpp Require Import sorting.
From S2P Require Export EnvtestStoreFacts EnvtestRemoteFacts EnvtestEnv.

(** ** Weakest preconditions *)

Section wp.
Context {W : Type}.
Implicit Types s : Session W.

Definition wp {A} (m : ST W A) (Q : Session W → ending A → Prop) s : Prop := Q (m s).1 (m s).2.

(** The postcondition of a first step: a way to end other than with a value is
    that of the whole. *)
Definition bind_post {A B} (f : A → ST W B) (Q : Session W → ending B → Prop)
    s (r : ending A) : Prop :=
  match r with
  | Finished a => wp (f a) Q s
  | Exited code err => Q s (Exited code err)
  | Crashed msg => Q s (Crashed msg)
  | Unfinished => Q s Unfinished
  end.

Lemma wp_bind {A B} (m : ST W A) (f : A → ST W B) Q s :
  wp m (bind_post f Q) s → wp (m ≫= f) Q s.
Proof. unfold wp, bind_post, mbind, ST_bind. by destruct (m s) as [s' []]. Qed.

Lemma wp_mono {A} (m : ST W A) (P Q : Session W → ending A → Prop) s :
  wp m P s → (∀ s' r, P s' r → Q s' r) → wp m Q s.
Proof. intros Hm HPQ. by apply HPQ. Qed.

Lemma wp_run {A} (m : ST W A) s (Q : Session W → ending A → Prop) :
  wp m Q s → let '(s', r) := m s in Q s' r.
Proof. unfold wp. by destruct (m s). Qed.

Lemma wp_ret {A} (a : A) Q s : Q s (Finished a) → wp (mret a) Q s.
Proof. done. Qed.
Lemma wp_get_env Q s : Q s (Finished (s_env s)) → wp get_env Q s.
Proof. done. Qed.
Lemma wp_modify_env f Q s :
  Q (mkSession (f (s_env s)) (s_world s) (s_out s)) (Finished ()) → wp (modify_env f) Q s.
Proof. done. Qed.
Lemma wp_print text Q s :
  Q (mkSession (s_env s) (s_world s) (s_out s +:+ text)) (Finished ()) → wp (print text) Q s.
Proof. done. Qed.
Lemma wp_on_world {A} (f : W → W * A) Q s :
  Q (mkSession (s_env s) (f (s_world s)).1 (s_out s)) (Finished (f (s_world s)).2) → wp (on_world f) Q s.
Proof. unfold wp, on_world. by destruct (f (s_world s)). Qed.
Lemma wp_read_world {A} (f : W → A) Q s : Q s (Finished (f (s_world s))) → wp (read_world f) Q s.
Proof. done. Qed.
End wp.

(** Run the steps of a body. *)
Ltac wp_step :=
  lazymatch goal with
  | |- wp (_ ≫= _) _ _ => apply wp_bind
  | |- wp (mret _) _ _ => apply wp_ret
  | |- wp get_env _ _ => apply wp_get_env
  | |- wp (modify_env _) _ _ => apply wp_modify_env
  | |- wp (print _) _ _ => apply wp_print
  | |- wp (on_world _) _ _ => apply wp_on_world
  | |- wp (read_world _) _ _ => apply wp_read_world
  end;
  cbn [bind_post s_env s_world s_out].

Ltac wp_steps := repeat wp_step.

(** ** File systems that work *)

(** Next to the store, [temps] is what the temporary files hold.  Any of their
    operations may fail except the removal of a file that is there; nothing
    but these operations touches them, and requests touch no file. *)
Class WorkingEnv (W : Type) `{WorkingFS W, !EnvFS W, !StorageHTTP W} := {
  temps : W → gmap string string;
  http_Do_frame : ∀ u w, dirs (http_Do u w).1 = dirs w ∧ temps (http_Do u w).1 = temps w;
  fs_MkdirBase_temps : ∀ w, temps (fs_MkdirBase w).1 = temps w;
  fs_MkdirAll_temps : ∀ n w, temps (fs_MkdirAll n w).1 = temps w;
  fs_Chmod_temps : ∀ n m w, temps (fs_Chmod n m w).1 = temps w;
  fs_RemoveAll_temps : ∀ n w, temps (fs_RemoveAll n w).1 = temps w;
  fs_OpenFile_temps : ∀ d f p w, temps (fs_OpenFile d f p w).1 = temps w;
  (** A file of an item that is there is read-only: opening it to write fails, or
      for a privileged user empties it. *)
  fs_OpenFile_again : ∀ d f p w files, dirs w !! d = Some files → is_Some (files !! f) →
    dirs (fs_OpenFile d f p w).1 =
      match (fs_OpenFile d f p w).2 with None => <[d := <[f := ""]> files]> (dirs w) | Some _ => dirs w end;
  fs_Copy_temps : ∀ d f data w, temps (fs_Copy d f data w).1 = temps w;
  fs_TempFile_spec : ∀ pattern w,
    match fs_TempFile pattern w with
    | (w', Ok path) => path ≠ "" ∧ temps w !! path = None
        ∧ dirs w' = dirs w ∧ temps w' = <[path := ""]> (temps w)
    | (w', Err _) => dirs w' = dirs w ∧ temps w' = temps w
    end;
  fs_WriteTemp_spec : ∀ path data w old, temps w !! path = Some old →
    dirs (fs_WriteTemp path data w).1 = dirs w ∧
    ∃ new, temps (fs_WriteTemp path data w).1 = <[path := new]> (temps w)
      ∧ ((fs_WriteTemp path data w).2 = None → new = old +:+ data);
  fs_Sync_frame : ∀ path w, dirs (fs_Sync path w).1 = dirs w ∧ temps (fs_Sync path w).1 = temps w;
  fs_Seek_frame : ∀ path w, dirs (fs_Seek path w).1 = dirs w ∧ temps (fs_Seek path w).1 = temps w;
  fs_Close_frame : ∀ path w, dirs (fs_Close path w) = dirs w ∧ temps (fs_Close path w) = temps w;
  fs_TempData_spec : ∀ path w data, temps w !! path = Some data → fs_TempData path w = data;
  fs_Remove_spec : ∀ path w, is_Some (temps w !! path) →
    ∃ w', fs_Remove path w = (w', None) ∧ dirs w' = dirs w ∧ temps w' = delete path (temps w);
}.

Section temps.
Context `{WorkingEnv W}.
Implicit Types w : W.

Lemma removeItem_temps n w : temps (removeItem n w).1 = temps w.
Proof.
  unfold removeItem. pose proof (fs_Chmod_temps n 493 w) as Hc.
  destruct (fs_Chmod n 493 w) as [w1 [e|]]; cbn in *; [done|].
  pose proof (fs_RemoveAll_temps n w1) as Hr. destruct (fs_RemoveAll n w1) as [w2 [e|]]; cbn in *; congruence.
Qed.

Lemma extract_temps d es w : temps (extract d es w).1 = temps w.
Proof.
  revert w. induction es as [|e es IH]; intros w; cbn [extract]; [done|].
  destruct (te_Regular e); cbn [negb]; [|apply IH].
  pose proof (fs_OpenFile_temps d (filepath_Base (te_Name e)) (Z.land 365 (te_Mode e)) w) as Ho.
  destruct (fs_OpenFile _ _ _ w) as [w1 [err|]]; cbn in *; [done|].
  pose proof (fs_Copy_temps d (filepath_Base (te_Name e)) (te_Data e) w1) as Hc.
  destruct (fs_Copy _ _ _ w1) as [w2 err]; cbn in *.
  destruct (te_Err e); [|destruct err]; cbn; [congruence..|]. rewrite IH. congruence.
Qed.

Lemma Add_temps item a w : temps (Add item a w).1 = temps w.
Proof.
  assert (∀ w, temps (add_contents (dirName item) a w).1 = temps w) as Hc.
  { intros w0. unfold add_contents. pose proof (fs_MkdirAll_temps (dirName item) w0) as Hm.
    destruct (fs_MkdirAll _ w0) as [w1 [e|]]; cbn in *; [done|]. destruct a as [e|es last]; [done|].
    pose proof (extract_temps (dirName item) es w1) as He.
    destruct (extract _ es w1) as [w2 [e|]]; cbn in *; [congruence|].
    destruct last; cbn; [congruence|]. rewrite fs_Chmod_temps. congruence. }
  assert (temps (add_body item a w).1 = temps w) as Hb.
  { unfold add_body. destruct (fs_Stat _ w) as [e|]; [by destruct (ErrFileNotFound e)|].
    pose proof (removeItem_temps (dirName item) w) as Hr.
    destruct (removeItem _ w) as [w1 [e|]]; cbn in *; [done|]. by rewrite Hc. }
  unfold Add. destruct (add_body item a w) as [w1 [e|]]; cbn in *; [|done]. by rewrite removeItem_temps.
Qed.

(** *** Any archive

    What a store holds of an archive that was unpacked: of files of one base name
    the last. *)
Definition unpack (es : list TarEntry) (files : Files) : Files :=
  foldl (λ files e, <[filepath_Base (te_Name e) := te_Data e]> files) files (regular es).
Definition unpacked_files (a : Archive) : Files :=
  match a with NotGzip _ => ∅ | TarEntries es _ => unpack es ∅ end.

Definition entries_good (es : list TarEntry) : bool :=
  forallb (λ e, match te_Err e with None => true | Some _ => false end) (regular es).
Definition base_names (es : list TarEntry) : list string := filepath_Base ∘ te_Name <$> regular es.

(** Unpacking an archive fails for an error in it, or for two files of one
    name. *)
Lemma extract_any d es w files :
  dirs w !! d = Some files →
  ∃ w' err files', extract d es w = (w', err) ∧ dirs w' = <[d := files']> (dirs w) ∧
    match err with
    | None => entries_good es = true ∧ files' = unpack es files
    | Some _ => entries_good es = false ∨ ¬ NoDup (base_names es) ∨ ∃ f, f ∈ base_names es ∧ is_Some (files !! f)
    end.
Proof.
  revert w files. induction es as [|e es IH]; intros w files Hd; cbn [extract].
  { exists w, None, files. by rewrite insert_id. }
  unfold entries_good, base_names, unpack, regular in *. destruct (te_Regular e) eqn:Hreg; cbn [negb].
  2: { rewrite filter_cons_False by congruence. by apply IH. }
  rewrite filter_cons_True by done. rewrite fmap_cons. cbn [forallb foldl].
  set (f := filepath_Base (te_Name e)).
  assert (∃ w1 o, fs_OpenFile d f (Z.land 365 (te_Mode e)) w = (w1, o) ∧
    match o with
    | None => dirs w1 = <[d := <[f := ""]> files]> (dirs w)
    | Some _ => dirs w1 = dirs w ∧ is_Some (files !! f)
    end) as (w1 & [oe|] & -> & Hw1).
  { destruct (files !! f) as [old|] eqn:Hf.
    - pose proof (fs_OpenFile_again d f (Z.land 365 (te_Mode e)) w files Hd (mk_is_Some _ _ Hf)) as Ha.
      destruct (fs_OpenFile _ _ _ w) as [w1 o]. exists w1, o. split; [done|]. cbn in Ha. destruct o; [by split|done].
    - destruct (fs_OpenFile_spec d f (Z.land 365 (te_Mode e)) w files Hd Hf) as (w1 & -> & Hw1). by exists w1, None. }
  { destruct Hw1 as [Hw1 Hf]. do 3 eexists. split; [done|]. split; [by rewrite Hw1, insert_id|].
    right; right. exists f. split; [by left|done]. }
  destruct (fs_Copy_spec d f (te_Data e) w1 (<[f := ""]> files)) as (w2 & -> & Hw2).
  { by rewrite Hw1, lookup_insert_eq. }
  { by rewrite lookup_insert_eq. }
  rewrite Hw1, insert_insert_eq, insert_insert_eq in Hw2.
  destruct (te_Err e) as [err|]; cbn [andb].
  { do 3 eexists. split; [done|]. split; [exact Hw2|]. by left. }
  destruct (IH w2 (<[f := te_Data e]> files)) as (w' & err & files' & -> & Hd' & Hres).
  { by rewrite Hw2, lookup_insert_eq. }
  exists w', err, files'. split; [done|]. split; [by rewrite Hd', Hw2, insert_insert_eq|].
  destruct err as [err|]; [|done]. destruct Hres as [?|[Hnd|(g & Hg & Hfg)]]; [by left|..]; right.
  - left. by intros [_ ?]%NoDup_cons.
  - destruct (decide (g = f)) as [->|Hne]; [left; by intros [? _]%NoDup_cons|].
    right. exists g. rewrite lookup_insert_ne in Hfg by done. split; [by right|done].
Qed.

(** [Add] of any archive: all of it, or nothing under that item. *)
Lemma Add_any item a w :
  ∃ w' err, Add item a w = (w', err) ∧
    match err with
    | None => archive_good a = true ∧ dirs w' = <[dirName item := unpacked_files a]> (dirs w)
    | Some _ => (archive_good a = false ∨ ¬ archive_distinct a) ∧ dirs w' = delete (dirName item) (dirs w)
    end.
Proof.
  set (d := dirName item).
  assert (∃ w1, add_body item a w = add_contents d a w1 ∧ dirs w1 = delete d (dirs w)) as (w1 & Hb & Hw1).
  { unfold add_body. fold d. destruct (dirs w !! d) as [files|] eqn:Hd.
    - rewrite (fs_Stat_Some _ _ _ Hd). destruct (removeItem_spec d w) as (w1 & -> & Hw1); eauto.
    - destruct (fs_Stat_None _ _ Hd) as (e & -> & ->). exists w. by rewrite delete_id. }
  assert (∃ w2 err files, add_contents d a w1 = (w2, err) ∧ dirs w2 = <[d := files]> (dirs w) ∧
    match err with
    | None => archive_good a = true ∧ files = unpacked_files a
    | Some _ => archive_good a = false ∨ ¬ archive_distinct a
    end) as (w2 & err & files & Hc & Hw2 & Hres).
  { unfold add_contents. destruct (fs_MkdirAll_spec d w1) as (w2 & -> & Hw2).
    rewrite Hw1, lookup_delete_eq, insert_delete_eq in Hw2. cbn in Hw2. destruct a as [e|es last]; cbn [archive_good].
    { do 3 eexists. split; [done|]. split; [exact Hw2|]. by left. }
    destruct (extract_any d es w2 ∅) as (w3 & err & files & -> & Hw3 & Hres); [by rewrite Hw2, lookup_insert_eq|].
    rewrite Hw2, insert_insert_eq in Hw3. destruct err as [err|].
    { do 3 eexists. split; [done|]. split; [exact Hw3|].
      destruct Hres as [He|[Hnd|(f & _ & [? Hf])]]; [left|by right|by rewrite lookup_empty in Hf].
      fold (entries_good es). by rewrite He. }
    destruct Hres as [Hg ->]. fold (entries_good es). rewrite Hg. destruct last as [e|].
    { do 3 eexists. split; [done|]. split; [exact Hw3|]. by left. }
    destruct (fs_Chmod_spec d 365 w3) as (w4 & -> & Hw4); [by rewrite Hw3, lookup_insert_eq|].
    cbn. do 3 eexists. split; [done|]. split; [by rewrite Hw4|done]. }
  unfold Add. rewrite Hb, Hc. destruct err as [e|].
  - fold d. destruct (removeItem_spec d w2) as (w3 & -> & Hw3); [by rewrite Hw2, lookup_insert_eq|].
    do 2 eexists. split; [done|]. split; [done|]. cbn. by rewrite Hw3, Hw2, delete_insert_eq.
  - destruct Hres as [Hg ->]. by do 2 eexists.
Qed.


(** ** The archive that is written *)

(** A file that grows by what is written to it. *)
Lemma sum_loop_spec name path body : ∀ old w, temps w !! path = Some old →
  dirs (sum_loop name (fs_WriteTemp path) body old w).1 = dirs w ∧
  ∃ new, temps (sum_loop name (fs_WriteTemp path) body old w).1 = <[path := new]> (temps w)
    ∧ ∀ summed, (sum_loop name (fs_WriteTemp path) body old w).2 = Ok summed → summed = new.
Proof.
  induction body as [|[data err] body IH]; intros old w Hold; cbn [sum_loop].
  { split; [done|]. exists old. rewrite insert_id by done. split; [done|]. by intros ? [= ->]. }
  assert (dirs w = dirs w ∧ ∃ new, temps w = <[path := new]> (temps w) ∧ old = new) as Hsame
    by (split; [done|]; exists old; by rewrite insert_id).
  destruct (fs_WriteTemp_spec path data w old Hold) as (Hd & new & Ht & Hnew).
  destruct err as [[|e]|]; cbn; [| |]; repeat case_decide; cbn;
    try (destruct Hsame as (? & x & ? & ->); split; [done|]; exists x; split; [done|]; by intros ? [= ->]);
    destruct (fs_WriteTemp path data w) as [w1 [e1|]]; cbn in *;
    try (split; [done|]; exists new; split; [done|]; naive_solver).
  destruct (IH (old +:+ data) w1) as (Hd' & new' & Ht' & Hs).
  { by rewrite Ht, lookup_insert_eq, Hnew. }
  split; [congruence|]. exists new'. by rewrite Ht', Ht, insert_insert_eq.
Qed.

Lemma io_Copy_spec path body : ∀ old w, temps w !! path = Some old →
  dirs (io_Copy (fs_WriteTemp path) body w).1 = dirs w ∧
  ∃ new, temps (io_Copy (fs_WriteTemp path) body w).1 = <[path := new]> (temps w).
Proof.
  induction body as [|[data err] body IH]; intros old w Hold; cbn [io_Copy].
  { split; [done|]. exists old. by rewrite insert_id. }
  assert (∃ new w1 e1, (if decide (data = "") then (w, None) else fs_WriteTemp path data w) = (w1, e1)
    ∧ dirs w1 = dirs w ∧ temps w1 = <[path := new]> (temps w)) as (new & w1 & e1 & -> & Hd & Ht).
  { case_decide; [exists old, w, None; by rewrite insert_id|].
    destruct (fs_WriteTemp_spec path data w old Hold) as (Hd & new & Ht & _).
    exists new. destruct (fs_WriteTemp path data w) as [w1 e1]. eauto. }
  destruct e1; [eauto|]. destruct err as [[|e]|]; [eauto..|].
  destruct (IH new w1) as (Hd' & new' & Ht'); [by rewrite Ht, lookup_insert_eq|].
  split; [congruence|]. exists new'. by rewrite Ht', Ht, insert_insert_eq.
Qed.

(** Whatever the server answers, only the archive changes; when it is all
    there and a checksum is known, the checksum is that of the file. *)
Lemma GetVersion_spec c v pl path w :
  temps w !! path = Some "" →
  let r := GetVersion c v pl (fs_WriteTemp path) w in
  dirs r.1 = dirs w ∧ ∃ data, temps r.1 = <[path := data]> (temps w)
    ∧ (r.2 = None → pi_MD5 pl ≠ "" → md5_base64 data = pi_MD5 pl).
Proof.
  intros Hp. unfold GetVersion. set (loc := item_url c _ _).
  assert (dirs w = dirs w ∧ temps w = <[path := ""]> (temps w)) as Hsame by by rewrite insert_id.
  destruct (http_NewRequest loc) as [e|]; cbn.
  { destruct Hsame. split; [done|]. by exists "". }
  pose proof (http_Do_frame loc w) as [Hd Ht]. destruct (http_Do loc w) as [w1 [resp|e]]; cbn in *.
  2: { split; [done|]. exists "". split; [by rewrite insert_id, Ht|done]. }
  case_decide; cbn.
  { split; [done|]. exists "". split; [by rewrite insert_id, Ht|done]. }
  unfold write_body. rewrite <- Hd, <- Ht. rewrite <- Ht in Hp. case_decide as Hm.
  - pose proof (sum_loop_spec (ArchiveName (pi_Platform pl) v) path (rs_Body resp) "" w1 Hp) as (Hd' & new & Ht' & Hs).
    destruct (sum_loop _ _ _ "" w1) as [w2 [summed|e]]; cbn in *.
    + split; [done|]. exists new. split; [done|]. rewrite (Hs _ eq_refl).
      case_decide as Hsum; [done|]. done.
    + split; [done|]. exists new. by split.
  - destruct (io_Copy_spec path (rs_Body resp) "" w1 Hp) as (Hd' & new & Ht').
    destruct (io_Copy _ _ w1) as [w2 [e|]]; cbn in *; (split; [done|]; exists new; by split).
Qed.

Lemma FetchSum_frame c v pl w :
  let r := FetchSum c v pl w in
  dirs r.1.1 = dirs w ∧ temps r.1.1 = temps w ∧ pi_Platform r.1.2 = pi_Platform pl.
Proof.
  unfold FetchSum. set (loc := item_url c _ _). destruct (http_NewRequest loc); [done|].
  pose proof (http_Do_frame loc w) as [Hd Ht]. destruct (http_Do loc w) as [w1 [resp|e]]; cbn in *; [|done].
  case_decide; [done|]. by destruct (decode_object (rs_Body resp)).
Qed.

Lemma ListVersions_frame `{!MapRange Concrete (list PlatformItem)} fuel c w :
  dirs (EnvtestRemote.ListVersions fuel c w).1 = dirs w
  ∧ temps (EnvtestRemote.ListVersions fuel c w).1 = temps w.
Proof.
  assert (∀ q w, dirs (list_page q c w).1 = dirs w ∧ temps (list_page q c w).1 = temps w) as Hp.
  { intros q w0. unfold list_page. destruct (http_NewRequest _); [done|].
    pose proof (http_Do_frame (list_url c q) w0) as Hd.
    by destruct (http_Do _ w0) as [w1 [resp|e]]. }
  assert (∀ q known w, dirs (list_loop fuel c q known w).1 = dirs w
    ∧ temps (list_loop fuel c q known w).1 = temps w) as Hl.
  { induction fuel as [|fuel' IH]; intros q known w0; cbn [list_loop]; [done|].
    pose proof (Hp q w0) as Hpq. destruct (list_page q c w0) as [w1 [page|e]]; cbn in *; [|done].
    destruct (add_all_known _ _); [|done]. case_decide; [|done]. cbn.
    destruct (IH [("pageToken", ol_NextPageToken page)] a w1). intuition congruence. }
  unfold EnvtestRemote.ListVersions. pose proof (Hl [] ∅ w) as Hw.
  by destruct (list_loop fuel c [] ∅ w) as [w1 [[[known|]|]|]].
Qed.
End temps.

(** ** The choice of a version *)

Section choice.
Context `{WorkingEnv W} `{!MapRange Concrete (list PlatformItem)}.
Context (client : RemoteClient) (fuel : nat).
Implicit Types (s : Session W) (m : AbstractStore) (e : Env).

Abbreviation with_world s w := (mkSession (s_env s) w (s_out s)).

(** What the server lists from a world on. *)
Definition listing s : option (outcome (result (list VersionSet))) :=
  (EnvtestRemote.ListVersions fuel client (s_world s)).2.

Definition wanted e (v : Concrete) (p : Platform) : Prop :=
  Spec_Matches (e_Version e) v = true ∧ Platform_Matches (pi_Platform (e_Platform e)) p = true.

Definition on_server e (sets : list VersionSet) (v : Concrete) (plat : PlatformItem) : Prop :=
  (∃ set, set ∈ sets ∧ set_Version set = v ∧ plat ∈ set_Platforms set) ∧ wanted e v (pi_Platform plat).

Lemma elem_of_matching_items e m i :
  i ∈ matching_items (env_filter e) m ↔ is_Some (m !! i) ∧ wanted e (it_Version i) (it_Platform i).
Proof.
  unfold matching_items, wanted. rewrite list_elem_of_filter, list_elem_of_fmap.
  unfold Filter_Matches. cbn. rewrite andb_true_iff. split.
  - intros [Hw ([i' x] & -> & Hin%elem_of_map_to_list)]. eauto.
  - intros [[x Hx] Hw]. split; [done|]. exists (i, x). split; [done|]. by apply elem_of_map_to_list.
Qed.

Lemma wp_store_List msg f Q s m :
  represents (s_world s) m → Q s (Finished (sort_items (matching_items f m))) → wp (store_List msg f) Q s.
Proof.
  intros Hr HQ. unfold store_List. wp_steps. rewrite (List_items_spec f _ m Hr). cbn.
  wp_steps. by wp_steps.
Qed.

Lemma wp_client_ListVersions msg Q s :
  let s' := with_world s (EnvtestRemote.ListVersions fuel client (s_world s)).1 in
  (∀ sets, listing s = Some (Returned (Ok sets)) → Q s' (Finished sets)) →
  (∀ err, listing s = Some (Returned (Err err)) → Q s' (Exited 2 (ErrorWrap msg err))) →
  (∀ p, listing s = Some (Panicked p) → Q s' (Crashed p)) →
  (listing s = None → Q s' Unfinished) →
  wp (client_ListVersions client fuel msg) Q s.
Proof.
  intros s' Hok Herr Hp Hn. unfold client_ListVersions. wp_steps. unfold listing in *.
  destruct (EnvtestRemote.ListVersions fuel client (s_world s)) as [w' [[[sets|err]|p]|]]; cbn in *.
  - wp_steps. cbn. wp_steps. by apply Hok.
  - wp_steps. cbn. unfold wp. cbn. by apply Herr.
  - wp_steps. unfold wp. cbn. by apply Hp.
  - unfold wp. cbn. by apply Hn.
Qed.

(** The first of the items on disk: all of them match. *)
Lemma find_local_head e m :
  find_local e (sort_items (matching_items (env_filter e) m)) = head (sort_items (matching_items (env_filter e) m)).
Proof.
  assert (Forall (λ i, wanted e (it_Version i) (it_Platform i)) (sort_items (matching_items (env_filter e) m))) as Hall.
  { rewrite Forall_forall. intros i. rewrite sort_items_Permutation. by intros [_ ?]%elem_of_matching_items. }
  destruct (sort_items _) as [|i l]; [done|]. apply Forall_cons in Hall as [[Hv Hp] _]. cbn.
  by rewrite Hv, Hp.
Qed.

Lemma sorted_head (l : list Item) i :
  head (sort_items l) = Some i → i ∈ l ∧ ∀ j, j ∈ l → NewerThan (it_Version j) (it_Version i) = false.
Proof.
  pose proof (sort_items_sorted l) as Hs. pose proof (sort_items_Permutation l) as Hp.
  destruct (sort_items l) as [|i' l']; [done|]. cbn. intros [= ->].
  split; [rewrite <- Hp; by left|]. intros j. rewrite <- Hp, elem_of_cons.
  destruct NewerThan_strict_total_order as (Hirr & _ & _). intros [->|Hj]; [apply Hirr|].
  apply StronglySorted_inv in Hs as [_ Hall]. rewrite Forall_forall in Hall. specialize (Hall j Hj).
  unfold not_after in Hall. apply not_true_iff_false. intros Hn. rewrite <- not_true_iff_false in Hall.
  apply Hall, item_less_true. tauto.
Qed.

Lemma sort_items_head_None (l : list Item) : head (sort_items l) = None → l = [].
Proof.
  pose proof (sort_items_Permutation l) as Hp. destruct (sort_items l) as [|i l']; [|done].
  intros _. by apply Permutation_nil in Hp.
Qed.

Lemma find_platform_spec e v plats :
  match find_platform e v plats with
  | Some plat => plat ∈ plats ∧ wanted e v (pi_Platform plat)
  | None => ∀ plat, plat ∈ plats → ¬ wanted e v (pi_Platform plat)
  end.
Proof.
  induction plats as [|p plats IH]; cbn; [intros plat Hin; by apply not_elem_of_nil in Hin|].
  destruct (_ && _) eqn:Hb.
  - apply andb_true_iff in Hb as [? ?]. split; [by left|by split].
  - destruct (find_platform e v plats); [destruct IH; split; [by right|done]|].
    intros plat [->|Hin]%elem_of_cons [Hv Hp]; [by rewrite Hv, Hp in Hb|by eapply IH].
Qed.

Lemma find_latest_spec e sets :
  StronglySorted newer_set sets →
  match find_latest e sets with
  | Some (v, plat) => on_server e sets v plat
      ∧ ∀ v' plat', on_server e sets v' plat' → NewerThan v' v = false
  | None => ∀ v plat, ¬ on_server e sets v plat
  end.
Proof.
  assert (∀ set sets v plat, on_server e (set :: sets) v plat ↔
    (set_Version set = v ∧ plat ∈ set_Platforms set ∧ wanted e v (pi_Platform plat)) ∨ on_server e sets v plat) as Hcons.
  { intros set sets' v plat. unfold on_server. setoid_rewrite elem_of_cons. naive_solver. }
  induction 1 as [|set sets Hs IH Hall]; cbn.
  { intros v plat [(set & Hin & _) _]. by apply not_elem_of_nil in Hin. }
  assert ((∀ plat, plat ∈ set_Platforms set → ¬ wanted e (set_Version set) (pi_Platform plat)) →
    match find_latest e sets with
    | Some (v, plat) => on_server e (set :: sets) v plat
        ∧ ∀ v' plat', on_server e (set :: sets) v' plat' → NewerThan v' v = false
    | None => ∀ v plat, ¬ on_server e (set :: sets) v plat
    end) as Hskip.
  { intros Hno. assert (∀ v plat, on_server e (set :: sets) v plat ↔ on_server e sets v plat) as Hiff.
    { intros v plat. rewrite Hcons. split; [intros [(<- & Hin & Hw)|?]; [by destruct (Hno plat)|done]|by right]. }
    destruct (find_latest e sets) as [[v plat]|]; setoid_rewrite Hiff; exact IH. }
  destruct (Spec_Matches (e_Version e) (set_Version set)) eqn:Hv; cbn [negb].
  2: { apply Hskip. intros plat _ [Hv' _]. congruence. }
  pose proof (find_platform_spec e (set_Version set) (set_Platforms set)) as Hf.
  destruct (find_platform _ _ _) as [plat|]; [|by apply Hskip].
  destruct Hf as [Hin Hw]. split; [rewrite Hcons; by left|].
  destruct NewerThan_strict_total_order as (Hirr & Htrans & _).
  intros v' plat' [(<- & _)|[(set' & Hin' & <- & _) _]]%Hcons; [apply Hirr|].
  rewrite Forall_forall in Hall. specialize (Hall set' Hin'). unfold newer_set in Hall.
  apply not_true_iff_false. intros Hn. pose proof (Htrans _ _ _ Hall Hn) as Hf. by rewrite Hirr in Hf.
Qed.

(** *** What [EnsureVersionIsSet] settles on *)

(** A version and platform taken from disk: the newest one there that is
    wanted, and nothing that is wanted and not older was to be had. *)
Definition from_disk s m (v : Concrete) (plat : PlatformItem) : Prop :=
  let e := s_env s in let local := matching_items (env_filter e) m in
  mkItem v (pi_Platform plat) ∈ local ∧ pi_MD5 plat = pi_MD5 (e_Platform e)
  ∧ (∀ i, i ∈ local → NewerThan (it_Version i) v = false)
  ∧ (e_NoDownload e = true ∨ sp_CheckLatest (e_Version e) = false ∨
     e_ForceDownload e = false ∧ ∃ sets, listing s = Some (Returned (Ok sets))
       ∧ ∀ v' plat', on_server e sets v' plat' → NewerThan v v' = true).

(** One taken from the server, with its checksum: the newest there. *)
Definition from_server s m (v : Concrete) (plat : PlatformItem) : Prop :=
  let e := s_env s in let local := matching_items (env_filter e) m in
  e_NoDownload e = false ∧ (sp_CheckLatest (e_Version e) = true ∨ local = [])
  ∧ (∃ sets, listing s = Some (Returned (Ok sets)) ∧ on_server e sets v plat
       ∧ ∀ v' plat', on_server e sets v' plat' → NewerThan v' v = false)
  ∧ (e_ForceDownload e = true ∨ ∀ i, i ∈ local → NewerThan (it_Version i) v = false).

(** Nothing wanted: none on disk without downloads, or a server that fails or
    has none. *)
Definition nothing_wanted s m : Prop :=
  let e := s_env s in let local := matching_items (env_filter e) m in
  e_NoDownload e = true ∧ local = []
  ∨ e_NoDownload e = false ∧ (sp_CheckLatest (e_Version e) = true ∨ local = [])
    ∧ ((∃ err, listing s = Some (Returned (Err err)))
       ∨ ∃ sets, listing s = Some (Returned (Ok sets)) ∧ ∀ v plat, ¬ on_server e sets v plat).

Definition ensured s m (s' : Session W) (r : ending unit) : Prop :=
  match r with
  | Finished _ => ∃ v plat,
      s_env s' = with_item plat (with_version (mkSpec (SelConcrete v) false) (s_env s))
      ∧ wanted (s_env s) v (pi_Platform plat) ∧ (from_disk s m v plat ∨ from_server s m v plat)
  | Exited code _ => code = 2%Z ∧ s_env s' = s_env s ∧ nothing_wanted s m
  | Crashed p => s_env s' = s_env s ∧ listing s = Some (Panicked p)
  | Unfinished => s_env s' = s_env s ∧ listing s = None
  end.

Definition same_files s (s' : Session W) : Prop :=
  dirs (s_world s') = dirs (s_world s) ∧ temps (s_world s') = temps (s_world s) ∧ s_out s' = s_out s.


Lemma wp_LatestVersion s Q :
  let s' := with_world s (EnvtestRemote.ListVersions fuel client (s_world s)).1 in
  (∀ sets v plat, listing s = Some (Returned (Ok sets)) → on_server (s_env s) sets v plat →
     (∀ v' plat', on_server (s_env s) sets v' plat' → NewerThan v' v = false) → Q s' (Finished (v, plat))) →
  (∀ err sets, listing s = Some (Returned (Ok sets)) → (∀ v plat, ¬ on_server (s_env s) sets v plat) →
     Q s' (Exited 2 err)) →
  (∀ err err', listing s = Some (Returned (Err err)) → Q s' (Exited 2 err')) →
  (∀ p, listing s = Some (Panicked p) → Q s' (Crashed p)) →
  (listing s = None → Q s' Unfinished) →
  wp (LatestVersion client fuel) Q s.
Proof.
  intros s' Hok Hno Herr Hp Hn. unfold LatestVersion. wp_steps.
  apply wp_client_ListVersions; cbn [bind_post]; [|eauto..]. intros sets Hl.
  wp_steps.
  assert (StronglySorted newer_set sets) as Hs.
  { unfold listing in Hl. destruct (EnvtestRemote.ListVersions fuel client (s_world s)) as [w' o] eqn:Hlv.
    cbn in Hl. subst o. by eapply ListVersions_sorted. }
  pose proof (find_latest_spec (s_env s) sets Hs) as Hf.
  destruct (find_latest (s_env s) sets) as [[v plat]|].
  - destruct Hf. wp_steps. by eapply Hok.
  - unfold wp. cbn. by eapply Hno.
Qed.

Lemma ensure_wp s m :
  represents (s_world s) m → Spec_AsConcrete (e_Version (s_env s)) = None →
  wp (EnsureVersionIsSet client fuel) (λ s' r, ensured s m s' r ∧ same_files s s') s.
Proof.
  intros Hr Hv. set (e := s_env s). set (local := matching_items (env_filter e) m).
  unfold EnsureVersionIsSet. wp_steps. fold e in Hv |- *. rewrite Hv. wp_steps.
  eapply wp_store_List; [done|]. cbn [bind_post]. rewrite find_local_head. fold local.
  pose proof (ListVersions_frame fuel client (s_world s)) as [Hd Ht].
  assert ((sp_CheckLatest (e_Version e) = true ∨ local = []) → e_NoDownload e = false →
    wp (found ← LatestVersion client fuel;
        match head (sort_items local) with
        | Some item => if negb (e_ForceDownload e) && NewerThan (it_Version item) found.1
                       then use_local item else use_server found.1 found.2
        | None => use_server found.1 found.2
        end) (λ s' r, ensured s m s' r ∧ same_files s s') s) as Hask.
  { intros Hlatest Hnd. wp_steps. apply wp_LatestVersion; cbn [bind_post].
    - intros sets v plat Hl Hon Hnew.
      assert ((e_ForceDownload e = true ∨ ∀ i, i ∈ local → NewerThan (it_Version i) v = false) →
        wp (use_server v plat) (λ s' r, ensured s m s' r ∧ same_files s s')
          (with_world s (EnvtestRemote.ListVersions fuel client (s_world s)).1)) as Hserver.
      { intros Hf. unfold use_server. wp_steps. split; [|done]. exists v, plat. split; [done|].
        split; [apply Hon|]. right. repeat split; eauto. }
      destruct (head (sort_items local)) as [item|] eqn:Hh.
      + apply sorted_head in Hh as [Hin Hmax]. destruct (negb _ && _) eqn:Hb; cbn [fst snd].
        * apply andb_true_iff in Hb as [Hf%negb_true_iff Hn]. unfold use_local. wp_steps. split; [|done].
          exists (it_Version item), (mkPlatformItem (it_Platform item) (pi_MD5 (e_Platform e))). split; [done|].
          split; [by apply elem_of_matching_items in Hin as [_ ?]|].
          left. cbn. destruct item as [vi pi]; cbn in *. repeat split; eauto. right; right. split; [done|].
          exists sets. split; [done|]. intros v' plat' Hon'. specialize (Hnew v' plat' Hon').
          destruct NewerThan_strict_total_order as (_ & Htrans & Htri).
          destruct (Htri v v') as [?|[<-|?]]; [by eapply Htrans|done|congruence].
        * apply Hserver. apply andb_false_iff in Hb as [Hf|Hn]; [left; by apply negb_false_iff|].
          right. intros i Hi. specialize (Hmax i Hi).
          destruct NewerThan_strict_total_order as (_ & Htrans & Htri).
          apply not_true_iff_false. intros Hiv.
          cbn in Hn. destruct (Htri (it_Version i) (it_Version item)) as [?|[Heq|Hgt]]; [congruence..|].
          by rewrite (Htrans _ _ _ Hgt Hiv) in Hn.
      + apply Hserver. right. intros i Hi. apply sort_items_head_None in Hh. rewrite Hh in Hi.
        by apply not_elem_of_nil in Hi.
    - intros err sets Hl Hno. split; [|done]. split; [done|]. split; [done|]. right. eauto 10.
    - intros err err' Hl. split; [|done]. split; [done|]. split; [done|]. right. eauto 10.
    - done.
    - done. }
  destruct (e_NoDownload e || negb (sp_CheckLatest (e_Version e))) eqn:Hlocal.
  2: { apply orb_false_iff in Hlocal as [? ?%negb_false_iff]. apply Hask; [by left|done]. }
  destruct (head (sort_items local)) as [item|] eqn:Hh.
  - apply sorted_head in Hh as [Hin Hmax]. unfold use_local. wp_steps. split; [|done].
    exists (it_Version item), (mkPlatformItem (it_Platform item) (pi_MD5 (e_Platform e))). split; [done|].
    split; [by apply elem_of_matching_items in Hin as [_ ?]|].
    left. cbn. destruct item as [vi pi]; cbn in *. repeat split; eauto.
    apply orb_true_iff in Hlocal as [?|?%negb_true_iff]; auto.
  - apply sort_items_head_None in Hh. destruct (e_NoDownload e) eqn:Hnd; [|apply Hask; auto].
    split; [|done]. split; [done|]. split; [done|]. by left.
Qed.
End choice.

(** ** Fetching *)

Section fetch.
Context `{WorkingEnv W}.
Context (client : RemoteClient).
Implicit Types (s : Session W) (m : AbstractStore) (e : Env).

(** The environment once a version is chosen. *)
Definition ready e (item : Item) : Prop :=
  Spec_AsConcrete (e_Version e) = Some (it_Version item)
  ∧ pi_Platform (e_Platform e) = it_Platform item ∧ storable item.

Lemma is_word_not_star o : is_word o → o ≠ "*".
Proof. by intros [_ Hw] ->. Qed.

Lemma ready_not_wildcard e item : ready e item → IsWildcard (pi_Platform (e_Platform e)) = false.
Proof.
  intros (_ & -> & (_ & Ho & Ha) & _). unfold IsWildcard.
  by rewrite !bool_decide_eq_false_2 by by apply is_word_not_star.
Qed.

Lemma wp_env_item (Q : Session W → ending Item → Prop) e item s :
  ready e item → Q s (Finished item) → wp (env_item e) Q s.
Proof.
  intros Hr HQ. pose proof (ready_not_wildcard _ _ Hr) as Hw. destruct Hr as (Hv & Hp & _).
  unfold env_item. rewrite Hv, Hw. wp_steps. rewrite Hp. by destruct item.
Qed.

Lemma wp_concrete_version (Q : Session W → ending Concrete → Prop) e item s :
  ready e item → Q s (Finished (it_Version item)) → wp (concrete_version e) Q s.
Proof. intros (Hv & _) HQ. unfold concrete_version. rewrite Hv. by wp_steps. Qed.

Lemma wp_check_exit (Q : Session W → ending unit → Prop) msg err s :
  (err = None → Q s (Finished ())) → (∀ cause, err = Some cause → Q s (Exited 2 (ErrorWrap msg cause))) →
  wp (check_exit msg err) Q s.
Proof. intros HN HS. destruct err as [e'|]; unfold wp; cbn; auto. Qed.

(** The checksum that is known before the download. *)
Lemma fetch_sum_wp s item :
  ready (s_env s) item →
  wp (fetch_sum client) (λ s' r,
    same_files s s' ∧ match r with
    | Finished _ => ready (s_env s') item ∧ e_VerifySum (s_env s') = e_VerifySum (s_env s)
        ∧ e_manualPath (s_env s') = e_manualPath (s_env s)
        ∧ e_Version (s_env s') = e_Version (s_env s)
        ∧ (e_VerifySum (s_env s) = false → pi_MD5 (e_Platform (s_env s')) = "")
    | Exited code _ => code = 2%Z
    | _ => False
    end) s.
Proof.
  intros Hr. unfold fetch_sum. wp_steps.
  destruct (e_VerifySum (s_env s)) eqn:Hver; cbn [andb].
  2: { wp_steps. split; [done|]. by destruct Hr. }
  destruct (bool_decide _); [|wp_steps; by split].
  wp_steps. eapply wp_concrete_version; [done|]. cbn [bind_post].
  wp_steps.
  pose proof (FetchSum_frame client (it_Version item) (e_Platform (s_env s)) (s_world s)) as (Hd & Ht & Hp).
  destruct (FetchSum _ _ _ _) as [[w' pl] err]; cbn in *. wp_steps.
  apply wp_check_exit; cbn [bind_post].
  - intros ->. wp_steps. split; [done|]. destruct Hr as (? & Heq & ?). split; [|done].
    split; [done|]. split; [|done]. cbn. congruence.
  - intros e' _. split; done.
Qed.

(** The store is [m], after an archive that is not complete, or has two files of one
    name, was found so while it was unpacked. *)
Definition bad_archive (w : W) m : Prop :=
  represents w m ∧ ∃ data,
    archive_good (read_archive (W:=W) data) = false ∨ ¬ archive_distinct (read_archive (W:=W) data).

Lemma bad_archive_dirs w w' m : dirs w' = dirs w → bad_archive w m → bad_archive w' m.
Proof. intros Hd [Hr Hb]. split; [by eapply represents_dirs|done]. Qed.

(** The download into an archive file that is there and empty. *)
Lemma fetch_into_wp s m item path :
  represents (s_world s) m → ready (s_env s) item → temps (s_world s) !! path = Some "" →
  wp (closing path (fetch_into client path)) (λ s' r,
    s_env s' = s_env s ∧ s_out s' = s_out s ∧ ∃ data,
    match r with
    | Finished _ => represents (s_world s') (<[item := unpacked_files (read_archive (W:=W) data)]> m)
        ∧ archive_good (read_archive (W:=W) data) = true
        ∧ (pi_MD5 (e_Platform (s_env s)) ≠ "" → md5_base64 data = pi_MD5 (e_Platform (s_env s)))
        ∧ temps (s_world s') = delete path (temps (s_world s))
    | Exited code _ => code = 2%Z ∧ temps (s_world s') = <[path := data]> (temps (s_world s))
        ∧ (represents (s_world s') m ∨ bad_archive (s_world s') (delete item m))
    | _ => False
    end) s.
Proof.
  intros Hrep Hready Hpath.
  enough (wp (fetch_into client path) (λ s' r,
    s_env s' = s_env s ∧ s_out s' = s_out s ∧ ∃ data,
    match r with
    | Finished _ => represents (s_world s') (<[item := unpacked_files (read_archive (W:=W) data)]> m)
        ∧ archive_good (read_archive (W:=W) data) = true
        ∧ (pi_MD5 (e_Platform (s_env s)) ≠ "" → md5_base64 data = pi_MD5 (e_Platform (s_env s)))
        ∧ temps (s_world s') = delete path (temps (s_world s))
    | Exited code _ => code = 2%Z ∧ temps (s_world s') = <[path := data]> (temps (s_world s))
        ∧ (represents (s_world s') m ∨ bad_archive (s_world s') (delete item m))
    | _ => False
    end) s) as Hwp.
  { unfold wp, closing in *. destruct (fetch_into client path s) as [s' r]. cbn in *.
    destruct Hwp as (? & ? & data & Hp). split; [done|]. split; [done|]. exists data.
    destruct (fs_Close_frame path (s_world s')) as [Hd Ht].
    destruct r; cbn; rewrite ?Ht; [|naive_solver eauto using represents_dirs, bad_archive_dirs|done|done].
    destruct Hp as (? & ? & ? & ?). by split; [eapply represents_dirs|]. }
  unfold fetch_into. wp_steps. eapply wp_concrete_version; [done|]. cbn [bind_post].
  wp_steps.
  destruct (GetVersion_spec client (it_Version item) (e_Platform (s_env s)) path (s_world s) Hpath)
    as (Hd1 & data & Ht1 & Hsum).
  destruct (GetVersion _ _ _ _ (s_world s)) as [w1 err1]. cbn in Hd1, Ht1, Hsum |- *.
  pose proof (represents_dirs _ w1 m Hd1 Hrep) as Hrep1.
  wp_steps. apply wp_check_exit; cbn [bind_post]; [intros ->|cbn; eauto 10].
  wp_steps. destruct (fs_Sync_frame path w1) as [Hd2 Ht2].
  destruct (fs_Sync path w1) as [w2 err2]. cbn in Hd2, Ht2 |- *.
  pose proof (represents_dirs _ w2 m Hd2 Hrep1) as Hrep2. rewrite Ht1 in Ht2.
  wp_steps. apply wp_check_exit; cbn [bind_post]; [intros ->|cbn; eauto 10].
  wp_steps. destruct (fs_Seek_frame path w2) as [Hd3 Ht3].
  destruct (fs_Seek path w2) as [w3 err3]. cbn in Hd3, Ht3 |- *.
  pose proof (represents_dirs _ w3 m Hd3 Hrep2) as Hrep3. rewrite Ht2 in Ht3.
  wp_steps. apply wp_check_exit; cbn [bind_post]; [intros ->|cbn; eauto 10].
  wp_steps. eapply wp_env_item; [done|]. cbn [bind_post]. wp_steps.
  rewrite (fs_TempData_spec path w3 data) by by rewrite Ht3, lookup_insert_eq.
  set (a := read_archive data). destruct (Add_any item a w3) as (w4 & err4 & Hadd & Hres).
  pose proof (Add_temps item a w3) as Ht4. rewrite Hadd in Ht4 |- *. cbn in Ht4 |- *. rewrite Ht3 in Ht4.
  assert (storable item) as Hst by apply Hready.
  wp_steps. apply wp_check_exit; cbn [bind_post].
  - intros ->. destruct Hres as [Ha Hd4].
    destruct (fs_Remove_spec path w4) as (w5 & Hrm & Hd5 & Ht5); [by rewrite Ht4, lookup_insert_eq|].
    wp_steps. rewrite Hrm. cbn. wp_steps. split; [done|]. split; [done|]. exists data. split; [|split; [done|]].
    + apply (represents_dirs w4); [done|]. by eapply represents_insert.
    + split; [by apply Hsum|]. cbn. rewrite Ht5, Ht4. apply delete_insert_eq.
  - intros e' ->. cbn. split; [done|]. split; [done|]. exists data. split; [done|]. split; [done|].
    destruct Hres as [Hbad Hd4]. right. split; [by eapply represents_delete|]. by exists data.
Qed.

(** All or nothing: a download leaves its item in the store, or no trace of
    it; no temporary file is left. *)
Lemma Fetch_wp s m item :
  represents (s_world s) m → ready (s_env s) item →
  wp (Fetch client) (λ s' r,
    temps (s_world s') = temps (s_world s) ∧ s_out s' = s_out s ∧
    match r with
    | Finished _ => ready (s_env s') item ∧ e_manualPath (s_env s') = e_manualPath (s_env s)
        ∧ e_Version (s_env s') = e_Version (s_env s) ∧
        ∃ data, represents (s_world s') (<[item := unpacked_files (read_archive (W:=W) data)]> m)
          ∧ archive_good (read_archive (W:=W) data) = true
          ∧ (e_VerifySum (s_env s) = true → pi_MD5 (e_Platform (s_env s')) ≠ "" →
             md5_base64 data = pi_MD5 (e_Platform (s_env s')))
    | Exited code _ => code = 2%Z
        ∧ (represents (s_world s') m ∨ bad_archive (s_world s') (delete item m))
    | _ => False
    end) s.
Proof.
  intros Hrep Hready. unfold Fetch. wp_steps. eapply wp_mono; [by eapply fetch_sum_wp|].
  intros s1 [[]|code err| |] [(Hd & Ht & Ho) Hres]; cbn [bind_post]; try done.
  2: { split; [done|]. split; [done|]. split; [done|]. left. by eapply represents_dirs. }
  destruct Hres as (Hready1 & Hver & Hman & Hspec & _). wp_steps.
  eapply wp_concrete_version; [done|]. cbn [bind_post]. wp_steps.
  pose proof (fs_TempFile_spec ("*-" +:+ ArchiveName (pi_Platform (e_Platform (s_env s1))) (it_Version item))
    (s_world s1)) as Htemp.
  destruct (fs_TempFile _ _) as [w2 [path|e']]; cbn in Htemp |- *; wp_steps.
  2: { destruct Htemp as [Hd2 Ht2]. unfold wp. cbn. split; [congruence|]. split; [congruence|]. split; [done|].
       left. apply (represents_dirs (s_world s)); [congruence|done]. }
  destruct Htemp as (Hpath & Hfresh & Hd2 & Ht2). wp_steps.
  assert (represents w2 m) as Hrep2 by (apply (represents_dirs (s_world s)); [congruence|done]).
  pose proof (fetch_into_wp (mkSession (s_env s1) w2 (s_out s1)) m item path Hrep2 Hready1) as Hin.
  cbn [s_world s_env s_out] in Hin. rewrite Ht2, lookup_insert_eq in Hin. specialize (Hin eq_refl).
  unfold wp, cleanupOnError in *. destruct (closing path _ _) as [s3 r]. cbn in Hin |- *.
  destruct Hin as (He3 & Ho3 & data & Hres). destruct r as [[]|code err| |]; cbn; try done.
  - destruct Hres as (Hrep3 & Hgood & Hsum & Ht3). rewrite delete_insert_eq, delete_id in Ht3 by done.
    split; [congruence|]. split; [congruence|]. rewrite He3. split; [done|]. split; [done|]. split; [done|].
    exists data. auto.
  - destruct Hres as (-> & Ht3 & Hrep3). rewrite insert_insert_eq in Ht3. rewrite decide_True by done. cbn.
    rewrite decide_True by done.
    destruct (fs_Remove_spec path (s_world s3)) as (w4 & Hrm & Hd4 & Ht4); [by rewrite Ht3, lookup_insert_eq|].
    rewrite Hrm. cbn. rewrite Ht3, delete_insert_eq, delete_id in Ht4 by done.
    split; [congruence|]. split; [congruence|]. split; [done|].
    destruct Hrep3; [left; by eapply represents_dirs|right; by eapply bad_archive_dirs].
Qed.
End fetch.

(** ** The workflow [use] *)

Section use.
Context `{WorkingEnv W} `{!MapRange Concrete (list PlatformItem)}.
Context (client : RemoteClient) (fuel : nat).
Implicit Types (s : Session W) (m : AbstractStore) (e : Env).










(** *** The path of the environment variable *)





(** *** What the workflow ends with *)




(** When no version is given [EnsureVersionIsSet] settles on the newest one
    that can be had.  It takes one from disk when downloads are off or the
    latest was not asked for, or when it is newer than all the server has and
    a download is not forced; otherwise it takes the newest the server has, and
    no version on disk is newer unless a download is forced.  The version and
    platform chosen are among those asked for.  It exits with 2, and leaves the
    environment alone, exactly when there is nothing to choose from or the
    server cannot be listed; it changes no file and prints nothing. *)
Theorem EnsureVersionIsSet_newest s m :
  represents (s_world s) m → Spec_AsConcrete (e_Version (s_env s)) = None →
  let '(s', r) := EnsureVersionIsSet client fuel s in
  ensured client fuel s m s' r ∧ same_files s s'.
Proof. intros Hrep Hv. exact (wp_run _ _ _ (ensure_wp client fuel s m Hrep Hv)). Qed.

(** C32: once a version is chosen [Fetch] is all or nothing, whatever the server
    answers and wherever reading or writing the archive fails.  It ends with
    the files of a complete archive in the store, of files of one base name the
    last, or exits with 2; then the store is as it was - an item that was
    there is still there - or, when the archive turned out incomplete or with
    two files of one name while it was unpacked, has nothing of the item any
    more.  Other items and the temporary files are as before.  With
    verification on, what was stored is what was downloaded with the checksum
    that is recorded in the environment, unless the server has recorded
    none. *)
Theorem Fetch_all_or_nothing s m item :
  represents (s_world s) m → ready (s_env s) item →
  let '(s', r) := Fetch client s in
  temps (s_world s') = temps (s_world s) ∧ s_out s' = s_out s ∧
  match r with
  | Finished _ => ready (s_env s') item ∧ e_manualPath (s_env s') = e_manualPath (s_env s)
      ∧ e_Version (s_env s') = e_Version (s_env s) ∧
      ∃ data, represents (s_world s') (<[item := unpacked_files (read_archive (W:=W) data)]> m)
        ∧ archive_good (read_archive (W:=W) data) = true
        ∧ (e_VerifySum (s_env s) = true → pi_MD5 (e_Platform (s_env s')) ≠ "" →
           md5_base64 data = pi_MD5 (e_Platform (s_env s')))
  | Exited code _ => code = 2%Z
      ∧ (represents (s_world s') m ∨ bad_archive (s_world s') (delete item m))
  | _ => False
  end.
Proof. intros Hrep Hr. exact (wp_run _ _ _ (Fetch_wp client s m item Hrep Hr)). Qed.
End use.

(** ** The line a shell reads *)

(** How a shell reads a word of quoted pieces: single quotes keep all that is
    between them, double quotes all but what is special there. *)
Inductive shell_mode := Bare | InSingle | InDouble.
Definition special_in_double (a : ascii) : bool :=
  bool_decide (a ∈ ["$"; "`"; "\"; "!"]%char).
Fixpoint shell_word (mode : shell_mode) (s : string) : option string :=
  match s with
  | EmptyString => match mode with Bare => Some "" | _ => None end
  | String a r =>
      match mode with
      | Bare =>
          if decide (a = "'"%char) then shell_word InSingle r
          else if decide (a = "034"%char) then shell_word InDouble r else None
      | InSingle =>
          if decide (a = "'"%char) then shell_word Bare r
          else word ← shell_word InSingle r; Some (String a word)
      | InDouble =>
          if decide (a = "034"%char) then shell_word Bare r
          else if special_in_double a then None
          else word ← shell_word InDouble r; Some (String a word)
      end
  end.

Lemma shell_word_quote path rest :
  shell_word InSingle (shell_quote path +:+ rest) = word ← shell_word InSingle rest; Some (path +:+ word).
Proof.
  induction path as [|a path IH].
  - change (shell_quote "" +:+ rest) with rest. by destruct (shell_word InSingle rest).
  - destruct (decide (a = "'"%char)) as [->|Ha].
    + change (shell_quote (String "'" path)) with (quoted_quote +:+ shell_quote path).
      assert (∀ x, "" +:+ x = x) as Hnil by done.
      unfold quoted_quote, dquote. rewrite !str_app_assoc, !str_app_cons, !Hnil. cbn. rewrite IH.
      by destruct (shell_word InSingle rest).
    + assert (shell_quote (String a path) = String a (shell_quote path)) as ->
        by (destruct a as [[] [] [] [] [] [] [] []]; first [reflexivity|by destruct Ha]).
      rewrite str_app_cons. cbn. rewrite decide_False by done. rewrite IH.
      by destruct (shell_word InSingle rest).
Qed.

(** What [PrintInfo] prints in the format [env] is read by a shell as the
    assignment of exactly the path, whatever characters it has: quotes in it
    do not end the word. *)
Theorem PrintInfo_env_is_one_word `{StoreFS W} (s : Session W) s' :
  PrintInfo PrintEnv s = (s', Finished ()) →
  ∃ path word, s_out s' = s_out s +:+ "export KUBEBUILDER_ASSETS=" +:+ word +:+ newline
    ∧ shell_word Bare word = Some path
    ∧ (path = e_manualPath (s_env s) ∧ e_manualPath (s_env s) ≠ ""
       ∨ e_manualPath (s_env s) = "" ∧ ∃ v, Spec_AsConcrete (e_Version (s_env s)) = Some v
         ∧ path = Store_Path (mkItem v (pi_Platform (e_Platform (s_env s))))).
Proof.
  assert (∀ path, shell_word Bare ("'" +:+ shell_quote path +:+ "'") = Some path) as Hword.
  { intros path. rewrite str_app_cons. change ("" +:+ ?x) with x. cbn. rewrite shell_word_quote. cbn.
    rewrite !decide_True by done. cbn. by rewrite str_app_nil_r. }
  unfold PrintInfo, mbind, ST_bind, get_env. cbn.
  destruct (decide (e_manualPath (s_env s) = "")) as [Hm|Hm]; cbn.
  - unfold env_item. destruct (Spec_AsConcrete _) as [v|]; cbn; [|done].
    destruct (IsWildcard _); cbn; [done|]. intros [= <-].
    eexists _, ("'" +:+ shell_quote _ +:+ "'"). split; [|split; [apply Hword|]].
    + cbn. by rewrite !str_app_assoc.
    + right. split; [done|]. by exists v.
  - intros [= <-]. eexists _, ("'" +:+ shell_quote _ +:+ "'"). split; [|split; [apply Hword|]].
    + cbn. by rewrite !str_app_assoc.
    + by left.
Qed.
