(* ===== verification/EnvtestSamples.v ===== *)
(** * Concrete inputs of setup-envtest

    A file system in memory and a storage server, and the witnesses of the
    theorems about the store, the storage client and the environment. *)

From stdpp Require Import sorting.
From S2P Require Import EnvtestEnvFacts.

Definition not_exist : error := ErrorString "file does not exist".

(** Directories by name and temporary files by path. *)
Record MemWorld := mkMem { mw_dirs : gmap string (gmap string string); mw_temps : gmap string string }.

Definition on_dirs (f : gmap string (gmap string string) → gmap string (gmap string string))
    (w : MemWorld) : MemWorld := mkMem (f (mw_dirs w)) (mw_temps w).
Definition on_temps (f : gmap string string → gmap string string) (w : MemWorld) : MemWorld :=
  mkMem (mw_dirs w) (f (mw_temps w)).

(** A file is created in a directory that exists; a missing one is an error. *)
#[export] Instance Mem_StoreFS : StoreFS MemWorld := {
  ErrFileNotFound e := match e with ErrorString _ => true | _ => false end;
  fs_MkdirBase w := (w, None);
  fs_Stat n w := match mw_dirs w !! n with Some _ => None | None => Some not_exist end;
  fs_MkdirAll n w := (on_dirs (λ d, <[n := default ∅ (d !! n)]> d) w, None);
  fs_Chmod n _ w := (w, match mw_dirs w !! n with Some _ => None | None => Some not_exist end);
  fs_RemoveAll n w := (on_dirs (delete n) w, None);
  fs_OpenFile d f _ w :=
    match mw_dirs w !! d with
    | Some files => (on_dirs <[d := <[f := ""]> files]> w, None)
    | None => (w, Some not_exist)
    end;
  fs_Copy d f data w :=
    match mw_dirs w !! d with
    | Some files => (on_dirs <[d := <[f := data]> files]> w, None)
    | None => (w, Some not_exist)
    end;
  fs_ReadDir w := Ok ((λ p, (p.1, true)) <$> map_to_list (mw_dirs w));
  fs_FullPath n := "/data/k8s/" +:+ n;
}.

#[export] Instance Mem_WorkingFS : WorkingFS MemWorld.
Proof.
  refine {| dirs := mw_dirs |}; cbn.
  - intros w. by exists w.
  - by intros n w files ->.
  - intros n w ->. by exists not_exist.
  - intros n w. by eexists.
  - intros n m w [x ->]. by exists w.
  - intros n w. by eexists.
  - intros d f p w files -> _. by eexists.
  - intros d f data w files -> _. by eexists.
  - intros w. eexists. split; [done|]. split.
    + rewrite <- list_fmap_compose. apply NoDup_fst_map_to_list.
    + intros n. rewrite list_elem_of_fmap. split.
      * intros ([n' x] & [= ->] & Hin%elem_of_map_to_list). by exists x.
      * intros [x Hx]. exists (n, x). split; [done|]. by apply elem_of_map_to_list.
Defined.

Definition empty_world : MemWorld := mkMem ∅ ∅.

Definition linux_amd64 : Platform := mkPlatform "linux" "amd64".
Definition v1_19_2 : Item := mkItem (mkConcrete 1 19 2) linux_amd64.
Definition v1_20_0 : Item := mkItem (mkConcrete 1 20 0) linux_amd64.
Definition etcd_archive : Archive :=
  TarEntries [mkEntry false "kubebuilder/bin" 493 "" None;
              mkEntry true "kubebuilder/bin/etcd" 493 "ELF" None] None.
Definition cut_archive : Archive :=
  TarEntries [mkEntry true "kubebuilder/bin/etcd" 493 "EL" (Some (ErrorString "unexpected EOF"))] None.
Definition any_item : StoreFilter := mkFilter (mkSpec SelAny false) linux_amd64.

Definition store_session : list store_op :=
  [OpAdd v1_19_2 etcd_archive; OpAdd v1_20_0 etcd_archive; OpList any_item;
   OpAdd v1_19_2 cut_archive; OpHas v1_19_2; OpRemove any_item; OpList any_item].

Lemma storable_samples : storable v1_19_2 ∧ storable v1_20_0.
Proof.
  split; (split; [split_and!; cbn; first [lia|done]|apply (bool_decide_unpack _); by vm_compute]).
Qed.

Lemma store_refines_map_witness :
  represents empty_world ∅ ∧ Forall store_op_ok store_session
  ∧ (concrete_run store_session empty_world).1
    = [RAdd true; RAdd true; RList [v1_20_0; v1_19_2]; RAdd false; RHas false;
       RRemove [v1_20_0]; RList []].
Proof.
  assert (represents empty_world ∅) as Hr
    by (split; [done|]; split; intros ? [? Hx]; cbn in Hx; by rewrite lookup_empty in Hx).
  assert (Forall store_op_ok store_session) as Hok.
  { destruct storable_samples as [H1 H2].
    repeat constructor; try done; cbn; set_solver. }
  split; [done|]. split; [done|].
  rewrite (proj1 (store_refines_map store_session empty_world ∅ Hr Hok)).
  vm_compute. reflexivity.
Defined.

(** ** A storage server *)

(** Two pages of objects; the archive comes in two pieces. *)
Definition object_of (i : Item) (hash : string) : bucketObject :=
  mkObject (ArchiveName (it_Platform i) (it_Version i)) hash.
Definition page1 : objectList := mkObjectList [object_of v1_19_2 "sum of GZ"; mkObject "README" ""] "next".
Definition page2 : objectList := mkObjectList [object_of v1_20_0 "sum of GZ"] "".

Definition respond (u : URL) : Response :=
  let ok data := mkResponse 200 "200 OK" [(data, None); ("", Some EOF)] in
  match u_Query u with
  | [] => if decide (u_Path u = "/storage/v1/b/tools/o") then ok "page1" else ok "object"
  | (k, _) :: _ =>
      if decide (k = "pageToken") then ok "page2"
      else mkResponse 200 "200 OK" [("G", None); ("Z", Some EOF)]
  end.

#[export] Instance Mem_HTTP : StorageHTTP MemWorld := {
  http_NewRequest _ := None;
  http_Do u w := (w, Ok (respond u));
  URL_String u := u_Path u;
  decode_list body :=
    match body with
    | (data, _) :: _ =>
        if decide (data = "page1") then Ok page1
        else if decide (data = "page2") then Ok page2 else Err (ErrorString "bad page")
    | [] => Err (ErrorString "EOF")
    end;
  decode_object _ := Ok (mkObject "" "sum of GZ");
  md5_base64 data := "sum of " +:+ data;
}.

#[export] Instance Mem_EnvFS : EnvFS MemWorld := {
  fs_TempFile pattern w :=
    if decide (mw_temps w !! "/tmp/archive" = None)
    then (on_temps <["/tmp/archive" := ""]> w, Ok "/tmp/archive")
    else (w, Err (ErrorString "file exists"));
  fs_WriteTemp path data w :=
    match mw_temps w !! path with
    | Some old => (on_temps <[path := old +:+ data]> w, None)
    | None => (w, Some not_exist)
    end;
  fs_Sync _ w := (w, None);
  fs_Seek _ w := (w, None);
  fs_Close _ w := w;
  fs_TempData path w := default "" (mw_temps w !! path);
  fs_Remove path w := (on_temps (delete path) w, None);
  fs_StatPath _ _ := Some not_exist;
  read_archive data := if decide (data = "GZ") then etcd_archive else NotGzip (ErrorString "no gzip");
}.

#[export] Instance Mem_WorkingEnv : WorkingEnv MemWorld.
Proof.
  refine {| temps := mw_temps |}; cbn; try done.
  - intros d f p w. by destruct (mw_dirs w !! d).
  - intros d f p w files Hd _. by rewrite Hd.
  - intros d f data w. by destruct (mw_dirs w !! d).
  - intros pattern w. case_decide; done.
  - intros path data w old ->. cbn. split; [done|]. by eexists.
  - intros path w data ->. done.
  - intros path w _. by eexists.
Defined.

#[local] Instance known_range : MapRange Concrete (list PlatformItem) := some_range _ _.

Definition tools : RemoteClient := mkRemote "tools" "storage.example.com" false.

Definition latest_env : Env :=
  mkEnv (mkPlatformItem linux_amd64 "") true false false Versions.LatestVersion "".
Definition session : Session MemWorld := mkSession latest_env empty_world "".

Lemma empty_represents : represents empty_world ∅.
Proof. split; [done|]; split; intros ? [? Hx]; cbn in Hx; by rewrite lookup_empty in Hx. Qed.

Lemma ListVersions_newest_first_witness :
  serves tools [] empty_world [page1; page2] empty_world ∧
  ∃ sets, EnvtestRemote.ListVersions 2 tools empty_world = (empty_world, Some (Returned (Ok sets)))
    ∧ StronglySorted newer_set sets.
Proof.
  assert (serves tools [] empty_world [page1; page2] empty_world) as Hs.
  { eapply serves_more; [vm_compute; reflexivity|done|].
    eapply serves_last; [vm_compute; reflexivity|done]. }
  split; [done|].
  assert (Forall (λ o, ¬ huge o) (page_objects [page1; page2])) as Hall.
  { rewrite Forall_forall. intros o Ho [msg Hm]%huge_panics.
    assert (match ExtractWithPlatform ArchiveRE (bo_Name o) with Panicked _ => False | _ => True end) as Hno;
      [|by rewrite Hm in Hno].
    clear Hm. repeat (apply elem_of_cons in Ho as [->|Ho]; [vm_compute; exact I|]). by apply not_elem_of_nil in Ho. }
  destruct (proj1 (ListVersions_newest_first tools empty_world [page1; page2] empty_world 2 Hs (le_n 2)) Hall)
    as (sets & Hl & Hsorted & _).
  exists sets. exact (conj Hl Hsorted).
Defined.

Lemma EnsureVersionIsSet_newest_witness :
  ensured tools 2 session ∅ (EnvtestEnv.EnsureVersionIsSet tools 2 session).1 (Finished ())
  ∧ e_Version (s_env (EnvtestEnv.EnsureVersionIsSet tools 2 session).1)
    = mkSpec (SelConcrete (mkConcrete 1 20 0)) false.
Proof.
  pose proof (EnsureVersionIsSet_newest tools 2 session ∅ empty_represents eq_refl) as Hen.
  destruct (EnvtestEnv.EnsureVersionIsSet tools 2 session) as [s' r] eqn:He.
  vm_compute in He. injection He as <- <-. by destruct Hen.
Defined.

Definition concrete_session : Session MemWorld :=
  mkSession (with_version (mkSpec (SelConcrete (mkConcrete 1 20 0)) false) latest_env) empty_world "".

Lemma Fetch_all_or_nothing_witness :
  ready (s_env concrete_session) v1_20_0 ∧
  represents (s_world (Fetch tools concrete_session).1) (<[v1_20_0 := {["etcd" := "ELF"]}]> ∅).
Proof.
  assert (ready (s_env concrete_session) v1_20_0) as Hr by (split; [done|]; split; [done|apply storable_samples]).
  split; [done|].
  pose proof (Fetch_all_or_nothing tools concrete_session ∅ v1_20_0
    empty_represents Hr) as Hf.
  destruct (Fetch tools concrete_session) as [s' r] eqn:He. pose proof He as He'. vm_compute in He'.
  injection He' as <- <-. destruct Hf as (_ & _ & _ & _ & _ & data & Hrep & Hgood & _).
  cbn in Hgood, Hrep. case_decide; [|done]. exact Hrep.
Defined.


Lemma PrintInfo_env_is_one_word_witness :
  let s := mkSession (with_manualPath "/it's here" latest_env) empty_world "" in
  ∃ s' word, PrintInfo PrintEnv s = (s', Finished ())
    ∧ s_out s' = "export KUBEBUILDER_ASSETS=" +:+ word +:+ newline ∧ shell_word Bare word = Some "/it's here".
Proof.
  intros s. destruct (PrintInfo PrintEnv s) as [s' r] eqn:He. pose proof He as He'. vm_compute in He'.
  injection He' as _ <-. destruct (PrintInfo_env_is_one_word s s' He) as (path & word & Ho & Hw & Hp).
  exists s', word. split; [done|]. split; [exact Ho|].
  destruct Hp as [[-> _]|[Hm _]]; [exact Hw|discriminate Hm].
Defined.
