(* ===== verification/Admission.v ===== *)
(** * Admission webhooks (src/pkg/webhook/admission)

    Responses (response.go, webhook.go), the chains of handlers (multi.go), the
    handlers for validators and defaulters (validator.go, defaulter.go,
    decode.go) and the HTTP side (http.go).  A handler acts on a world and may
    panic.  JSON patches, their encoding, decoding of objects and the response
    writer are parameters. *)

From S2P Require Export Objects.

Definition StatusOK : Z := 200.
Definition StatusBadRequest : Z := 400.
Definition StatusForbidden : Z := 403.
Definition StatusInternalServerError : Z := 500.
Definition PatchTypeJSONPatch : string := "JSONPatch".

(** [metav1.Status], what the webhooks set of it. *)
Record Status := mkStatus { st_Code : Z; st_Reason : string; st_Message : string }.
Definition empty_Status : Status := mkStatus 0 "" "".

Inductive Operation := Create | Update | Delete | Connect.

(** [AdmissionRequest]: the fields this code reads; objects as raw bytes. *)
Record AdmissionRequest := mkAdmissionRequest {
  rq_UID : string;
  rq_Operation : Operation;
  rq_Object : string;
  rq_OldObject : string;
}.

Section admission.
(** JSON patch operations, and the world handlers act on. *)
Context {JsonPatchOperation W : Type}.

(** [Response], with the fields of the embedded [AdmissionResponse]; an empty
    [Patch] is a nil one. *)
Record Response := mkResponse {
  rs_Patches : list JsonPatchOperation;
  rs_UID : string;
  rs_Allowed : bool;
  rs_Result : option Status;
  rs_Patch : string;
  rs_PatchType : option string;
  rs_AuditAnnotations : gmap string string;
  rs_Warnings : list string;
}.

(** A response with nothing set but these. *)
Definition plain_response (allowed : bool) (result : option Status) : Response :=
  mkResponse [] "" allowed result "" None ∅ [].

(** [json.Marshal] of a list of patches, [jsonpatch.CreatePatch]. *)
Variable MarshalPatches : list JsonPatchOperation → result string.
Variable CreatePatch : string → string → result (list JsonPatchOperation).

(** ** Responses (response.go) *)

Definition Errored (code : Z) (err : error) : Response :=
  plain_response false (Some (mkStatus code "" (error_text err))).

Definition ValidationResponse (allowed : bool) (reason : string) : Response :=
  plain_response allowed (Some (mkStatus (if allowed then StatusOK else StatusForbidden) reason "")).

Definition Allowed (reason : string) : Response := ValidationResponse true reason.
Definition Denied (reason : string) : Response := ValidationResponse false reason.

Definition Patched (reason : string) (patches : list JsonPatchOperation) : Response :=
  let resp := Allowed reason in
  mkResponse patches (rs_UID resp) (rs_Allowed resp) (rs_Result resp) (rs_Patch resp) (rs_PatchType resp)
    (rs_AuditAnnotations resp) (rs_Warnings resp).

Definition PatchResponseFromRaw (original current : string) : Response :=
  match CreatePatch original current with
  | Err err => Errored StatusInternalServerError err
  | Ok patches =>
      mkResponse patches "" true None "" (match patches with [] => None | _ => Some PatchTypeJSONPatch end) ∅ []
  end.

Definition validationResponseFromStatus (allowed : bool) (status : Status) : Response :=
  plain_response allowed (Some status).

Definition WithWarnings (warnings : list string) (r : Response) : Response :=
  mkResponse (rs_Patches r) (rs_UID r) (rs_Allowed r) (rs_Result r) (rs_Patch r) (rs_PatchType r)
    (rs_AuditAnnotations r) (rs_Warnings r ++ warnings).

(** ** The webhook (webhook.go) *)

Definition Handler : Type := AdmissionRequest → W → outcome (W * Response).

(** [Complete], with the response it leaves and its error. *)
Definition Complete (req : AdmissionRequest) (r : Response) : Response * option error :=
  let result := default empty_Status (rs_Result r) in
  let result := if decide (st_Code result = 0)%Z
                then mkStatus StatusOK (st_Reason result) (st_Message result) else result in
  let with_patch p pt :=
    mkResponse (rs_Patches r) (rq_UID req) (rs_Allowed r) (Some result) p pt (rs_AuditAnnotations r)
      (rs_Warnings r) in
  match rs_Patches r with
  | [] => (with_patch (rs_Patch r) (rs_PatchType r), None)
  | _ =>
      match MarshalPatches (rs_Patches r) with
      | Err err => (with_patch "" (rs_PatchType r), Some err)
      | Ok p => (with_patch p (Some PatchTypeJSONPatch), None)
      end
  end.

Definition errUnableToEncodeResponse : error := ErrorString "unable to encode response".

Definition Webhook_Handle (handler : Handler) (req : AdmissionRequest) (w : W) : outcome (W * Response) :=
  '(w, resp) ← handler req w;
  let '(resp, err) := Complete req resp in
  match err with
  | Some _ => Returned (w, Errored StatusInternalServerError errUnableToEncodeResponse)
  | None => Returned (w, resp)
  end.

(** ** Chains (multi.go) *)

Definition err_patch_type : error := ErrorString "unexpected patch type returned by the handler".
Definition err_marshal : error → error := ErrorWrap "error when marshaling the patch".

(** The loop of [multiMutating.Handle]: the patches, or the response it returns
    early. *)
Fixpoint mutating_loop (hs : list Handler) (patches : list JsonPatchOperation) (req : AdmissionRequest) (w : W)
    : outcome (W * (list JsonPatchOperation + Response)) :=
  match hs with
  | [] => Returned (w, inl patches)
  | h :: hs =>
      '(w, resp) ← h req w;
      if negb (rs_Allowed resp) then Returned (w, inr resp)
      else if decide (rs_PatchType resp ≠ None ∧ rs_PatchType resp ≠ Some PatchTypeJSONPatch)
      then Returned (w, inr (Errored StatusInternalServerError err_patch_type))
      else mutating_loop hs (patches ++ rs_Patches resp) req w
  end.

Definition MultiMutatingHandler (hs : list Handler) : Handler := λ req w,
  '(w, r) ← mutating_loop hs [] req w;
  Returned (w,
    match r with
    | inr resp => resp
    | inl patches =>
        match MarshalPatches patches with
        | Err err => Errored StatusBadRequest (err_marshal err)
        | Ok marshaledPatch =>
            mkResponse [] "" true (Some (mkStatus StatusOK "" "")) marshaledPatch (Some PatchTypeJSONPatch) ∅ []
        end
    end).

Fixpoint MultiValidatingHandler (hs : list Handler) : Handler := λ req w,
  match hs with
  | [] => Returned (w, plain_response true (Some (mkStatus StatusOK "" "")))
  | h :: hs =>
      '(w, resp) ← h req w;
      if negb (rs_Allowed resp) then Returned (w, resp) else MultiValidatingHandler hs req w
  end.

(** [InjectFunc] and [InjectDecoder] of both: every handler in order, up to the
    first error. *)
Fixpoint inject_handlers {H : Type} (f : H → W → W * option error) (hs : list H) (w : W) : W * option error :=
  match hs with
  | [] => (w, None)
  | h :: hs =>
      let '(w, err) := f h w in
      match err with
      | Some err => (w, Some err)
      | None => inject_handlers f hs w
      end
  end.

(** ** Validators and defaulters (decode.go, validator.go, defaulter.go) *)

Section objects.
Context {Obj : Type}.
(** Decoding bytes into an object, and encoding one. *)
Variable DecodeInto : string → Obj → result Obj.
Variable Marshal : Obj → result string.
(** The status a [StatusError] carries. *)
Variable ErrStatus : string → string → Status.

Definition err_no_content : error := ErrorString "there is no content to decode".

Definition DecodeRaw (raw : string) (into : Obj) : result Obj :=
  if decide (raw = "") then Err err_no_content else DecodeInto raw into.

Definition Decode (req : AdmissionRequest) (into : Obj) : result Obj :=
  if decide (rq_Object req = "") then Err err_no_content else DecodeRaw (rq_Object req) into.

Record Validator := mkValidator {
  v_ValidateCreate : Obj → option error;
  v_ValidateUpdate : Obj → Obj → option error;
  v_ValidateDelete : Obj → option error;
}.

(** [errors.As] for an [APIStatus]. *)
Fixpoint as_APIStatus (e : error) : option Status :=
  match e with
  | ErrorString _ => None
  | ErrorWrap _ cause => as_APIStatus cause
  | StatusError reason msg => Some (ErrStatus reason msg)
  end.

Definition refusal (err : error) : Response :=
  match as_APIStatus err with
  | Some status => validationResponseFromStatus false status
  | None => Denied (error_text err)
  end.

Definition verdict (err : option error) : Response :=
  match err with Some err => refusal err | None => Allowed "" end.

(** [validatingHandler.Handle]; [validator] is the object it holds, of which a
    copy is decoded into. *)
Definition validatingHandler_Handle (V : Validator) (validator : option Obj) : Handler := λ req w,
  match validator with
  | None => Panicked "validator should never be nil"
  | Some obj =>
      Returned (w,
        match rq_Operation req with
        | Create =>
            match Decode req obj with
            | Err err => Errored StatusBadRequest err
            | Ok obj => verdict (v_ValidateCreate V obj)
            end
        | Update =>
            match DecodeRaw (rq_Object req) obj with
            | Err err => Errored StatusBadRequest err
            | Ok new =>
                match DecodeRaw (rq_OldObject req) obj with
                | Err err => Errored StatusBadRequest err
                | Ok old => verdict (v_ValidateUpdate V new old)
                end
            end
        | Delete =>
            match DecodeRaw (rq_OldObject req) obj with
            | Err err => Errored StatusBadRequest err
            | Ok obj => verdict (v_ValidateDelete V obj)
            end
        | Connect => Allowed ""
        end)
  end.

(** [mutatingHandler.Handle]. *)
Definition mutatingHandler_Handle (Default : Obj → Obj) (defaulter : option Obj) : Handler := λ req w,
  match defaulter with
  | None => Panicked "defaulter should never be nil"
  | Some obj =>
      Returned (w,
        match Decode req obj with
        | Err err => Errored StatusBadRequest err
        | Ok obj =>
            match Marshal (Default obj) with
            | Err err => Errored StatusInternalServerError err
            | Ok marshalled => PatchResponseFromRaw (rq_Object req) marshalled
            end
        end)
  end.

(** The response a validation asks for, [validated] being the relation between
    the request and what the validator answered, if it got to answer. *)
Definition judged (validated : option error → Prop) (resp : Response) : Prop :=
  (rs_Allowed resp = true ↔ validated None)
  ∧ (rs_Allowed resp = false →
       (∃ err, resp = Errored StatusBadRequest err ∧ ∀ e, ¬ validated e)
       ∨ (∃ err, validated (Some err)
            ∧ rs_Result resp = Some (default (mkStatus StatusForbidden (error_text err) "") (as_APIStatus err)))).

Lemma judged_verdict (validated : option error → Prop) err :
  validated err → (∀ e, validated e → e = err) → judged validated (verdict err).
Proof.
  intros Hval Hun. destruct err as [e|].
  - assert (Hres : rs_Allowed (verdict (Some e)) = false
      ∧ rs_Result (verdict (Some e)) = Some (default (mkStatus StatusForbidden (error_text e) "") (as_APIStatus e))).
    { cbn. unfold refusal. by destruct (as_APIStatus e). }
    destruct Hres as [Hf Hres]. split; [rewrite Hf; split; [done|by intros ?%Hun]|].
    intros _. right. by exists e.
  - split; [done|]. by intros [=].
Qed.

Lemma judged_bad (validated : option error → Prop) e :
  (∀ e', ¬ validated e') → judged validated (Errored StatusBadRequest e).
Proof. intros Hno. split; [split; [done|by intros ?%Hno]|]. intros _. left. eauto. Qed.

Definition decodes (obj : Obj) (raw : string) (o : Obj) : Prop := raw ≠ "" ∧ DecodeInto raw obj = Ok o.

Lemma DecodeRaw_decodes obj raw :
  match DecodeRaw raw obj with Ok o => decodes obj raw o | Err _ => ∀ o, ¬ decodes obj raw o end.
Proof.
  unfold DecodeRaw, decodes. case_decide as Hr; [naive_solver|].
  destruct (DecodeInto raw obj) as [o|e]; [done|]. intros o [_ ?]. done.
Qed.

Lemma decodes_unique obj raw o o' : decodes obj raw o → decodes obj raw o' → o = o'.
Proof. intros [_ H1] [_ H2]. congruence. Qed.

(** A validating webhook lets a request through exactly when the objects
    its operation is about can be decoded and the validator accepts them: the
    new object of a creation, both objects of an update, the old object of a
    deletion; any other operation is let through unseen.  A request it cannot
    decode is bad; one the validator rejects is refused with the status its
    error carries, if there is one in its chain, and as forbidden with the
    error's text as reason otherwise. *)
Theorem validatingHandler_spec (V : Validator) obj req (w : W) :
  ∃ resp, validatingHandler_Handle V (Some obj) req w = Returned (w, resp) ∧
  judged (λ err,
    match rq_Operation req with
    | Create => ∃ o, decodes obj (rq_Object req) o ∧ err = v_ValidateCreate V o
    | Update => ∃ new old, decodes obj (rq_Object req) new ∧ decodes obj (rq_OldObject req) old
                  ∧ err = v_ValidateUpdate V new old
    | Delete => ∃ o, decodes obj (rq_OldObject req) o ∧ err = v_ValidateDelete V o
    | Connect => err = None
    end) resp.
Proof.
  eexists. split; [reflexivity|].
  pose proof (DecodeRaw_decodes obj (rq_Object req)) as Hnew.
  pose proof (DecodeRaw_decodes obj (rq_OldObject req)) as Hold.
  pose proof (decodes_unique obj) as Hun.
  assert (Hdec : Decode req obj = DecodeRaw (rq_Object req) obj) by (unfold Decode, DecodeRaw; by case_decide).
  rewrite Hdec. destruct (rq_Operation req).
  - destruct (DecodeRaw (rq_Object req) obj) as [o|e]; [apply judged_verdict|apply judged_bad]; [eauto|..].
    + intros e (o' & Ho' & ->). by rewrite (Hun _ _ _ Hnew Ho').
    + intros e' (o' & Ho' & _). by eapply Hnew.
  - destruct (DecodeRaw (rq_Object req) obj) as [new|e];
      [|apply judged_bad; intros e' (o' & _ & Ho' & _); by eapply Hnew].
    destruct (DecodeRaw (rq_OldObject req) obj) as [old|e];
      [|apply judged_bad; intros e' (_ & o' & _ & Ho' & _); by eapply Hold].
    apply judged_verdict; [eauto|]. intros e (n' & o' & Hn' & Ho' & ->).
    by rewrite (Hun _ _ _ Hnew Hn'), (Hun _ _ _ Hold Ho').
  - destruct (DecodeRaw (rq_OldObject req) obj) as [o|e]; [apply judged_verdict|apply judged_bad]; [eauto|..].
    + intros e (o' & Ho' & ->). by rewrite (Hun _ _ _ Hold Ho').
    + intros e' (o' & Ho' & _). by eapply Hold.
  - by apply (judged_verdict _ None).
Qed.
End objects.

(** ** HTTP (http.go) *)

(** A review; of its response the embedded [AdmissionResponse] is encoded. *)
Record AdmissionReview := mkReview { rv_GVK : GVK; rv_Response : Response }.

Definition v1_AdmissionReview : GVK := mkGVK "admission.k8s.io" "v1" "AdmissionReview".

(** The deserializer of reviews: the request and the kind found. *)
Variable DecodeReview : string → result (AdmissionRequest * option GVK).
(** Encoding a review to the response writer. *)
Variable Encode : AdmissionReview → W → W * option error.

(** [writeAdmissionResponse] and [writeResponse] call each other; [None] when the
    fuel runs out. *)
Fixpoint writeAdmissionResponse (fuel : nat) (ar : AdmissionReview) (w : W) : option W :=
  match fuel with
  | 0 => None
  | S fuel =>
      let '(w, err) := Encode ar w in
      match err with
      | Some err =>
          writeAdmissionResponse fuel (mkReview empty_GVK (Errored StatusInternalServerError err)) w
      | None => Some w
      end
  end.

Definition writeResponse (fuel : nat) (response : Response) (w : W) : option W :=
  writeAdmissionResponse fuel (mkReview empty_GVK response) w.

Definition typed_review (response : Response) (admRevGVK : option GVK) : AdmissionReview :=
  mkReview (match admRevGVK with
            | None => v1_AdmissionReview
            | Some gvk => if decide (gvk = empty_GVK) then v1_AdmissionReview else gvk
            end) response.

Definition writeResponseTyped (fuel : nat) (response : Response) (admRevGVK : option GVK) (w : W) : option W :=
  writeAdmissionResponse fuel (typed_review response admRevGVK) w.

Definition err_empty_body : error := ErrorString "request body is empty".
Definition err_content_type (contentType : string) : error :=
  ErrorString ("contentType=" +:+ contentType +:+ ", expected application/json").

Definition ServeHTTP (fuel : nat) (handler : Handler) (r : HttpRequest) (w : W) : outcome (option W) :=
  match hr_Body r with
  | None => Returned (writeResponse fuel (Errored StatusBadRequest err_empty_body) w)
  | Some (Err err) => Returned (writeResponse fuel (Errored StatusBadRequest err) w)
  | Some (Ok body) =>
      if decide (hr_ContentType r ≠ "application/json")
      then Returned (writeResponse fuel (Errored StatusBadRequest (err_content_type (hr_ContentType r))) w)
      else
        match DecodeReview body with
        | Err err => Returned (writeResponse fuel (Errored StatusBadRequest err) w)
        | Ok (req, actualAdmRevGVK) =>
            '(w, resp) ← Webhook_Handle handler req w;
            Returned (writeResponseTyped fuel resp actualAdmRevGVK w)
        end
  end.

(** ** Chains call their handlers in order, up to the first refusal *)

(** The handlers were called one after the other, with these responses. *)
Inductive calls (req : AdmissionRequest) : list Handler → W → list Response → W → Prop :=
  | calls_nil w : calls req [] w [] w
  | calls_cons (h : Handler) hs w resp w1 resps w2 :
      h req w = Returned (w1, resp) → calls req hs w1 resps w2 →
      calls req (h :: hs) w (resp :: resps) w2.

Definition accepts (resp : Response) : Prop :=
  rs_Allowed resp = true ∧ (rs_PatchType resp = None ∨ rs_PatchType resp = Some PatchTypeJSONPatch).

Definition patches_of (resps : list Response) : list JsonPatchOperation := mjoin (rs_Patches <$> resps).

Lemma mutating_loop_accepts req pre w resps w1 post patches :
  calls req pre w resps w1 → Forall accepts resps →
  mutating_loop (pre ++ post) patches req w = mutating_loop post (patches ++ patches_of resps) req w1.
Proof.
  intros Hc. revert patches. induction Hc as [w|h hs w resp w1 resps w2 Hh _ IH]; intros patches Hall.
  - by rewrite app_nil_r.
  - apply Forall_cons in Hall as [[Ha Hp] Hall]. cbn. rewrite Hh. cbn. rewrite Ha. cbn.
    rewrite decide_False by (destruct Hp as [->| ->]; naive_solver).
    rewrite IH by done. unfold patches_of. cbn. by rewrite (assoc_L app).
Qed.

Lemma validating_accepts req pre w resps w1 post :
  calls req pre w resps w1 → Forall (λ r, rs_Allowed r = true) resps →
  MultiValidatingHandler (pre ++ post) req w = MultiValidatingHandler post req w1.
Proof.
  intros Hc. induction Hc as [w|h hs w resp w1 resps w2 Hh _ IH]; intros Hall; [done|].
  apply Forall_cons in Hall as [Ha Hall]. cbn. rewrite Hh. cbn. rewrite Ha. cbn. by apply IH.
Qed.

(** A chain calls its handlers in order and stops at the first that does
    not let the request through.  When all of them do, the request is allowed;
    a mutating chain answers with the encoding of all the patches in order.
    When one refuses, its response is the answer and no later handler is
    called; when one of a mutating chain allows with another type of patch,
    the answer is an internal error.  No warning and no annotation of a
    handler that lets the request through is in the answer. *)
Theorem chains_stop_at_first_refusal req pre w resps w1 :
  calls req pre w resps w1 →
  (Forall accepts resps →
     MultiMutatingHandler pre req w =
       Returned (w1, match MarshalPatches (patches_of resps) with
                     | Ok p => mkResponse [] "" true (Some (mkStatus StatusOK "" "")) p
                                 (Some PatchTypeJSONPatch) ∅ []
                     | Err err => Errored StatusBadRequest (err_marshal err)
                     end)
     ∧ ∀ (h : Handler) w2 resp post, h req w1 = Returned (w2, resp) → ¬ accepts resp →
         MultiMutatingHandler (pre ++ h :: post) req w =
           Returned (w2, if rs_Allowed resp then Errored StatusInternalServerError err_patch_type else resp))
  ∧ (Forall (λ r, rs_Allowed r = true) resps →
     MultiValidatingHandler pre req w =
       Returned (w1, plain_response true (Some (mkStatus StatusOK "" "")))
     ∧ ∀ (h : Handler) w2 resp post, h req w1 = Returned (w2, resp) → rs_Allowed resp = false →
         MultiValidatingHandler (pre ++ h :: post) req w = Returned (w2, resp)).
Proof.
  intros Hc. split; intros Hall; split.
  - unfold MultiMutatingHandler. rewrite <- (app_nil_r pre) at 1.
    by rewrite (mutating_loop_accepts req pre w resps w1 [] [] Hc Hall).
  - intros h w2 resp post Hh Hno. unfold MultiMutatingHandler.
    rewrite (mutating_loop_accepts req pre w resps w1 _ _ Hc Hall). cbn. rewrite Hh. cbn.
    unfold accepts in Hno. destruct (rs_Allowed resp); [cbn|done].
    rewrite decide_True; [done|]. destruct (decide (rs_PatchType resp = None)); naive_solver.
  - rewrite <- (app_nil_r pre) at 1. by rewrite (validating_accepts req pre w resps w1 [] Hc Hall).
  - intros h w2 resp post Hh Hno. rewrite (validating_accepts req pre w resps w1 _ Hc Hall). cbn.
    rewrite Hh. cbn. by rewrite Hno.
Qed.

(** A mutating chain that is itself a handler of a chain loses its patches:
    it answers with encoded patches, and the outer chain only collects lists
    of patches.  So the outer chain answers with the patches of its other
    handlers alone, where one flat chain answers with all of them. *)
Theorem nested_chain_drops_patches req inner outer w resps w1 resps' w2 p p' p_all :
  calls req inner w resps w1 → Forall accepts resps → MarshalPatches (patches_of resps) = Ok p →
  calls req outer w1 resps' w2 → Forall accepts resps' → MarshalPatches (patches_of resps') = Ok p' →
  MarshalPatches (patches_of resps ++ patches_of resps') = Ok p_all →
  let answer p := mkResponse [] "" true (Some (mkStatus StatusOK "" "")) p (Some PatchTypeJSONPatch) ∅ [] in
  MultiMutatingHandler (MultiMutatingHandler inner :: outer) req w = Returned (w2, answer p')
  ∧ MultiMutatingHandler (inner ++ outer) req w = Returned (w2, answer p_all).
Proof.
  intros Hin Hi Hp Hout Ho Hp' Hall answer. split.
  - unfold MultiMutatingHandler at 1. cbn.
    assert (Hm : MultiMutatingHandler inner req w = Returned (w1, answer p)).
    { unfold MultiMutatingHandler. rewrite <- (app_nil_r inner).
      rewrite (mutating_loop_accepts req inner w resps w1 [] [] Hin Hi). cbn. by rewrite Hp. }
    rewrite Hm. cbn. rewrite decide_False by (by intros [_ ?]). rewrite <- (app_nil_r outer).
    rewrite (mutating_loop_accepts req outer w1 resps' w2 [] [] Hout Ho). cbn. by rewrite Hp'.
  - unfold MultiMutatingHandler. rewrite (mutating_loop_accepts req inner w resps w1 outer [] Hin Hi).
    rewrite <- (app_nil_r outer). rewrite (mutating_loop_accepts req outer w1 resps' w2 [] _ Hout Ho).
    cbn. by rewrite Hall.
Qed.

(** ** The answer to a request *)

(** The request and the kind of review an HTTP request carries. *)
Definition decoded (r : HttpRequest) : option (AdmissionRequest * option GVK) :=
  match hr_Body r with
  | Some (Ok body) =>
      if decide (hr_ContentType r = "application/json")
      then match DecodeReview body with Ok x => Some x | Err _ => None end else None
  | _ => None
  end.

(** The status a handler's answer is completed to: its own, with the code OK if it
    has none; and OK if there is no status. *)
Definition completed_status (result : option Status) (st : Status) : Prop :=
  match result with
  | None => st = mkStatus 200 "" ""
  | Some st0 =>
      st_Reason st = st_Reason st0 ∧ st_Message st = st_Message st0
      ∧ (st_Code st0 ≠ 0%Z → st_Code st = st_Code st0) ∧ (st_Code st0 = 0%Z → st_Code st = 200%Z)
  end.

(** The response [resp] a handler's answer [h] to [req] is completed to, with
    [patch] and its type in it. *)
Definition completed (req : AdmissionRequest) (h resp : Response) : Prop :=
  rs_UID resp = rq_UID req ∧ rs_Allowed resp = rs_Allowed h ∧ rs_Warnings resp = rs_Warnings h
  ∧ rs_AuditAnnotations resp = rs_AuditAnnotations h ∧ rs_Patches resp = rs_Patches h
  ∧ (∃ st, rs_Result resp = Some st ∧ completed_status (rs_Result h) st)
  ∧ (rs_Patches h = [] → rs_Patch resp = rs_Patch h ∧ rs_PatchType resp = rs_PatchType h)
  ∧ (rs_Patches h ≠ [] →
       MarshalPatches (rs_Patches h) = Ok (rs_Patch resp) ∧ rs_PatchType resp = Some PatchTypeJSONPatch).

(** The kind of the review for a request that came in one of kind [gvk]: that kind,
    or that of version v1 when none was found. *)
Definition review_kind (gvk : option GVK) (kind : GVK) : Prop :=
  (∀ g, gvk = Some g → g ≠ empty_GVK → kind = g)
  ∧ (gvk = None ∨ gvk = Some empty_GVK → kind = mkGVK "admission.k8s.io" "v1" "AdmissionReview").

Lemma typed_review_kind resp gvk :
  ∃ kind, typed_review resp gvk = mkReview kind resp ∧ review_kind gvk kind.
Proof.
  unfold typed_review, review_kind. eexists. split; [done|].
  destruct gvk as [g|]; [case_decide; subst|]; naive_solver.
Qed.

(** Patches that can be encoded, if there are any. *)
Definition encodable (h : Response) : Prop := rs_Patches h = [] ∨ is_ok (MarshalPatches (rs_Patches h)) = true.

Lemma Complete_spec req h :
  let '(resp, err) := Complete req h in
  (encodable h ∧ err = None ∧ completed req h resp) ∨ (¬ encodable h ∧ is_Some err).
Proof.
  assert (Hst : completed_status (rs_Result h) (let result := default empty_Status (rs_Result h) in
    if decide (st_Code result = 0)%Z then mkStatus StatusOK (st_Reason result) (st_Message result) else result)).
  { unfold completed_status. destruct (rs_Result h) as [st|]; [|done]. cbn. case_decide; naive_solver. }
  unfold Complete, encodable, completed. destruct (rs_Patches h) as [|x l] eqn:Hp.
  - left. cbn. split; [by left|]. split; [done|]. do 4 (split; [done|]). split; [done|].
    split; [by eexists|]. by split.
  - destruct (MarshalPatches (x :: l)) as [p|e] eqn:Hm.
    + left. cbn. split; [by right|]. split; [done|]. do 4 (split; [done|]). split; [done|].
      split; [by eexists|]. by split.
    + right. cbn. split; [|done]. by intros [?|?].
Qed.

(** C39: when the response writer works, a request is answered with exactly one
    review, unless its handler panics, which gets through.  A request without
    a readable JSON body that is a review is refused as a bad request, and its
    handler is not called.  Otherwise the handler is called once, and the
    review is of the kind of the request's, with the handler's answer
    completed: the identifier of the request, the handler's verdict, warnings,
    audit annotations and status - the code OK put in where it has none - and
    its list of patches encoded; or, if the patches cannot be encoded, with an
    internal error. *)
Theorem ServeHTTP_answers_once (fuel : nat) (handler : Handler) r w :
  (∀ ar w, (Encode ar w).2 = None) →
  match decoded r with
  | None => ∃ msg, ServeHTTP (S fuel) handler r w =
      Returned (Some (Encode (mkReview empty_GVK
        (plain_response false (Some (mkStatus StatusBadRequest "" msg)))) w).1)
  | Some (req, gvk) =>
      match handler req w with
      | Panicked msg => ServeHTTP (S fuel) handler r w = Panicked msg
      | Returned (w1, h) => ∃ kind resp,
          ServeHTTP (S fuel) handler r w = Returned (Some (Encode (mkReview kind resp) w1).1)
          ∧ review_kind gvk kind
          ∧ (encodable h → completed req h resp)
          ∧ (¬ encodable h →
               resp = plain_response false (Some (mkStatus 500 "" (error_text errUnableToEncodeResponse))))
      end
  end.
Proof.
  clear CreatePatch.
  intros Hwriter.
  assert (Hwrite : ∀ ar w, writeAdmissionResponse (S fuel) ar w = Some (Encode ar w).1).
  { intros ar w0. cbn. specialize (Hwriter ar w0). destruct (Encode ar w0) as [w0' err]. cbn in Hwriter.
    by rewrite Hwriter. }
  unfold decoded, ServeHTTP, writeResponse, writeResponseTyped, Webhook_Handle.
  destruct (hr_Body r) as [[body|err]|]; [|rewrite Hwrite; by eexists..].
  destruct (decide (hr_ContentType r = "application/json")) as [Hct|Hct].
  - rewrite decide_False by naive_solver. destruct (DecodeReview body) as [[req gvk]|err]; [|rewrite Hwrite; by eexists].
    destruct (handler req w) as [[w1 h]|msg]; [|done]. cbn [mbind outcome_bind].
    pose proof (Complete_spec req h) as Hc. destruct (Complete req h) as [resp err].
    destruct Hc as [(He & -> & Hc)|(Hno & e & ->)]; cbn [mbind outcome_bind]; rewrite Hwrite.
    + destruct (typed_review_kind resp gvk) as (kind & -> & Hk). exists kind, resp.
      split; [done|]. split; [done|]. by split.
    + destruct (typed_review_kind (Errored StatusInternalServerError errUnableToEncodeResponse) gvk)
        as (kind & -> & Hk). eexists _, _. split; [done|]. split; [done|]. by split.
  - rewrite decide_True by done. rewrite Hwrite. by eexists.
Qed.

(** When writing to the response writer fails, and goes on failing, which
    is what a closed connection does, [ServeHTTP] never returns: writing a
    response that cannot be written writes another one. *)
Theorem failing_writer_never_returns (broken : W → Prop) (handler : Handler) r w :
  (∀ ar w, broken w → ∃ w' err, Encode ar w = (w', Some err) ∧ broken w') →
  (∀ req w w' resp, broken w → handler req w = Returned (w', resp) → broken w') →
  broken w → ∀ fuel w', ServeHTTP fuel handler r w ≠ Returned (Some w').
Proof.
  clear CreatePatch.
  intros Hfail Hhandler Hw fuel w'.
  assert (Hwrite : ∀ ar w, broken w → writeAdmissionResponse fuel ar w = None).
  { induction fuel as [|fuel IH]; intros ar w0 Hw0; [done|]. cbn.
    destruct (Hfail ar w0 Hw0) as (w1 & err & -> & Hw1). by apply IH. }
  unfold ServeHTTP, writeResponse, writeResponseTyped, Webhook_Handle.
  destruct (hr_Body r) as [[body|err]|]; [|by rewrite Hwrite..].
  case_decide; [by rewrite Hwrite|].
  destruct (DecodeReview body) as [[req gvk]|err]; [|by rewrite Hwrite].
  destruct (handler req w) as [[w1 h]|msg] eqn:Hh; [|done]. cbn.
  apply Hhandler in Hh; [|done].
  destruct (Complete req h) as [resp [err|]]; cbn; by rewrite Hwrite.
Qed.
End admission.
Arguments Response : clear implicits.
Arguments AdmissionReview : clear implicits.

(** ** At concrete inputs

    Patches are strings, encoded by joining them. *)

Definition join_patches (ps : list string) : result string := Ok (String.concat "," ps).
Definition sample_request : AdmissionRequest := mkAdmissionRequest "uid-1" Create "{}" "".

(** A handler that counts its calls and answers with one patch. *)
Definition patching (p : string) : @Handler string nat := λ _ n,
  Returned (S n, Patched "" [p]).
Definition denying : @Handler string nat := λ _ n, Returned (S n, Denied "no").

Lemma sample_calls p w : calls sample_request [patching p] w [Patched "" [p]] (S w).
Proof. eapply calls_cons; [reflexivity|constructor]. Qed.
Lemma sample_accepts p : Forall accepts [Patched (JsonPatchOperation := string) "" [p]].
Proof. repeat constructor. Qed.

Lemma chains_stop_at_first_refusal_witness :
  calls sample_request [patching "a"] 0 [Patched "" ["a"]] 1
  ∧ MultiMutatingHandler join_patches [patching "a"; denying; patching "b"] sample_request 0
    = Returned (2, Denied "no").
Proof.
  split; [apply sample_calls|].
  destruct (chains_stop_at_first_refusal join_patches sample_request [patching "a"] 0 _ 1
    (sample_calls "a" 0)) as [Hm _].
  destruct (Hm (sample_accepts "a")) as [_ Hno].
  apply (Hno denying 2 (Denied "no") [patching "b"]); [reflexivity|].
  intros [Hf _]. discriminate Hf.
Defined.

Lemma nested_chain_drops_patches_witness :
  ∃ resp, MultiMutatingHandler join_patches
            (MultiMutatingHandler join_patches [patching "a"] :: [patching "b"]) sample_request 0
          = Returned (2, resp)
    ∧ rs_Patch resp = "b".
Proof.
  destruct (nested_chain_drops_patches join_patches sample_request [patching "a"] [patching "b"] 0 _ 1 _ 2
    "a" "b" "a,b" (sample_calls "a" 0) (sample_accepts "a") eq_refl (sample_calls "b" 1)
    (sample_accepts "b") eq_refl eq_refl) as [Hn _].
  eexists. split; [exact Hn|reflexivity].
Defined.

Definition sample_http : HttpRequest := mkHttpRequest (Some (Ok "{}")) "application/json".
Definition sample_decode : string → result (AdmissionRequest * option GVK) := λ _, Ok (sample_request, None).

Lemma ServeHTTP_answers_once_witness :
  ∃ resp, ServeHTTP join_patches sample_decode (λ _ n, (10 + n, None)) 1 (patching "a") sample_http 0
          = Returned (Some 11)
    ∧ completed join_patches sample_request (Patched "" ["a"]) resp.
Proof.
  pose proof (ServeHTTP_answers_once join_patches sample_decode (λ _ n, (10 + n, None)) 0
    (patching "a") sample_http 0 (λ _ _, eq_refl)) as Hth.
  destruct Hth as (kind & resp & Heq & _ & Hr & _). exists resp. split; [exact Heq|].
  apply Hr. right. reflexivity.
Defined.

Lemma failing_writer_never_returns_witness :
  ServeHTTP join_patches sample_decode (λ _ n, (n, Some (ErrorString "broken pipe"))) 1000
    (patching "a") sample_http 0 ≠ Returned (Some 1).
Proof.
  apply (failing_writer_never_returns join_patches sample_decode
    (λ _ n, (n, Some (ErrorString "broken pipe"))) (λ _, True)).
  - intros ar w _. exists w, (ErrorString "broken pipe"). split; [reflexivity|exact I].
  - intros req w w' resp _ _. exact I.
  - exact I.
Defined.
