(* ===== verification/Healthz.v ===== *)
(** * Health endpoints (src/pkg/healthz/healthz.go)

    The handler that runs all checks of a map, in whatever order the map is
    ranged over, and reports them sorted; and the routing to one check. *)

From Stdlib Require Import Ascii.
From stdpp Require Import sorting.
From S2P Require Export Prelude.

Definition nl : string := String "010"%char "".

(** ** Paths ([path.Clean] of a rooted path) *)

Fixpoint segments (s : string) : list string :=
  match s with
  | EmptyString => [""]
  | String a t =>
      if Ascii.eqb a "/" then "" :: segments t
      else match segments t with
           | seg :: segs => String a seg :: segs
           | [] => [String a ""]
           end
  end.

(** The segments seen so far are kept in reverse. *)
Definition clean_step (stack : list string) (seg : string) : list string :=
  if decide (seg = "" ∨ seg = ".") then stack
  else if decide (seg = "..") then tail stack
  else seg :: stack.

Definition path_Clean (p : string) : string :=
  "/" +:+ String.concat "/" (reverse (fold_left clean_step (segments p) [])).

(** ** Requests and responses *)

Record HealthRequest := mkHealthRequest {
  hq_Path : string;
  hq_Query : gmap string (list string);
}.

Record HealthResponse := mkHealthResponse {
  hs_Code : Z;
  hs_Header : gmap string string;
  hs_Body : string;
}.

Definition text_headers : gmap string string :=
  {[ "Content-Type" := "text/plain; charset=utf-8"; "X-Content-Type-Options" := "nosniff" ]}.

(** [http.Error] and [http.NotFound]. *)
Definition http_Error (msg : string) (code : Z) : HealthResponse := mkHealthResponse code text_headers (msg +:+ nl).
Definition http_NotFound : HealthResponse := http_Error "404 page not found" 404.

(** ** The handler *)

Definition Checker : Type := HealthRequest → option error.

(** The field [Checks] of [Handler]. *)
Abbreviation Checks := (gmap string Checker).

Record checkStatus := mkCheckStatus { cs_name : string; cs_healthy : bool; cs_excluded : bool }.

#[export] Instance checkStatus_eq_dec : EqDecision checkStatus.
Proof. solve_decision. Defined.

Definition Ping : Checker := λ _, None.

Definition getExcludedChecks (r : HealthRequest) : gset string :=
  match hq_Query r !! "exclude" with
  | Some checks => list_to_set checks
  | None => ∅
  end.

(** The loop over the checks: what is still excluded, the statuses, and whether
    one failed. *)
Definition check_step (req : HealthRequest) (st : gset string * list checkStatus * bool)
    (kv : string * Checker) : gset string * list checkStatus * bool :=
  let '(excluded, parts, failed) := st in
  let '(checkName, check) := kv in
  if decide (checkName ∈ excluded)
  then (excluded ∖ {[checkName]}, parts ++ [mkCheckStatus checkName true true], failed)
  else match check req with
       | Some _ => (excluded, parts ++ [mkCheckStatus checkName false false], true)
       | None => (excluded, parts ++ [mkCheckStatus checkName true false], failed)
       end.

Definition by_name (a b : checkStatus) : Prop := String.le (cs_name a) (cs_name b).
#[export] Instance by_name_dec a b : Decision (by_name a b).
Proof. unfold by_name. apply _. Defined.

(** [List] of a set of strings: sorted. *)
Definition set_List (s : gset string) : list string := merge_sort String.le (elements s).

Section healthz.
(** [strconv.Quote], the verb [%q]. *)
Variable Quote : string → string.

Definition formatQuoted (names : list string) : string := String.concat "," (Quote <$> names).

Definition status_line (c : checkStatus) : string :=
  if cs_excluded c then "[+]" +:+ cs_name c +:+ " excluded: ok" +:+ nl
  else if cs_healthy c then "[+]" +:+ cs_name c +:+ " ok" +:+ nl
  else "[-]" +:+ cs_name c +:+ " failed: reason withheld" +:+ nl.

Definition writeStatusesAsText (parts : list checkStatus) (unknownExcludes : gset string)
    (failed forceVerbose : bool) : HealthResponse :=
  mkHealthResponse (if failed then 500 else 200) text_headers
    (if negb failed && negb forceVerbose then "ok"
     else
       String.concat "" (status_line <$> parts)
       +:+ (if decide (unknownExcludes = ∅) then ""
            else "warn: some health checks cannot be excluded: no matches for "
                 +:+ formatQuoted (set_List unknownExcludes) +:+ nl)
       +:+ (if failed then "healthz check failed" else "healthz check passed") +:+ nl).

Definition serveAggregated `{!MapRange string Checker} (checks : Checks) (req : HealthRequest) : HealthResponse :=
  let '(excluded, parts, failed) := fold_left (check_step req) (map_range checks) (getExcludedChecks req, [], false) in
  let parts := if decide (checks = ∅) then parts ++ [mkCheckStatus "ping" true false] else parts in
  let parts := merge_sort by_name parts in
  writeStatusesAsText parts excluded failed (bool_decide (is_Some (hq_Query req !! "verbose"))).

Definition CheckHandler_ServeHTTP (checker : Checker) (req : HealthRequest) : HealthResponse :=
  match checker req with
  | Some err => http_Error ("internal server error: " +:+ error_text err) 500
  | None => mkHealthResponse 200 ∅ "ok"
  end.

Definition rooted (p : string) : string :=
  match p with
  | String "/"%char _ => p
  | _ => String "/"%char p
  end.

Definition ServeHTTP `{!MapRange string Checker} (checks : Checks) (req : HealthRequest) : HealthResponse :=
  let reqPath := path_Clean (rooted (hq_Path req)) in
  if decide (reqPath = "/") then serveAggregated checks req
  else
    let checkName := String.substring 1 (String.length reqPath - 1) reqPath in
    if decide (checks = ∅ ∧ checkName = "ping") then CheckHandler_ServeHTTP Ping req
    else match checks !! checkName with
         | None => http_NotFound
         | Some checker => CheckHandler_ServeHTTP checker req
         end.

(** ** What is reported *)

(** The status of one check. *)
Definition status_of (req : HealthRequest) (kv : string * Checker) : checkStatus :=
  if decide (kv.1 ∈ getExcludedChecks req) then mkCheckStatus kv.1 true true
  else mkCheckStatus kv.1 (bool_decide (kv.2 req = None)) false.

Definition fails (req : HealthRequest) (kv : string * Checker) : Prop :=
  (kv.1 ∉ getExcludedChecks req) ∧ kv.2 req ≠ None.

Lemma check_loop req kvs ex parts failed :
  NoDup kvs.*1 → (∀ kv, kv ∈ kvs → kv.1 ∈ ex ↔ kv.1 ∈ getExcludedChecks req) →
  fold_left (check_step req) kvs (ex, parts, failed) =
    (ex ∖ list_to_set kvs.*1, parts ++ (status_of req <$> kvs),
     failed || existsb (λ kv, bool_decide ((kv.1 ∉ getExcludedChecks req) ∧ kv.2 req ≠ None)) kvs).
Proof.
  revert ex parts failed. induction kvs as [|[k c] kvs IH]; intros ex parts failed Hnd Hex.
  - cbn. rewrite app_nil_r, orb_false_r. f_equal. f_equal. set_solver.
  - cbn in Hnd. apply NoDup_cons in Hnd as [Hk Hnd].
    assert (Hkey : ∀ kv, kv ∈ kvs → kv.1 ≠ k).
    { intros kv Hkv Heq. apply Hk. rewrite <- Heq. by apply list_elem_of_fmap_2. }
    pose proof (Hex (k, c) ltac:(by left)) as Hkex. cbn in Hkex.
    cbn [fold_left check_step]. destruct (decide (k ∈ ex)) as [Hin|Hin].
    + rewrite IH; [|done|].
      * cbn [fmap list_fmap existsb]. unfold status_of at 2. cbn [fst snd].
        rewrite (decide_True (P := k ∈ getExcludedChecks req)) by tauto.
        rewrite (bool_decide_eq_false_2 ((k ∉ _) ∧ _)) by tauto. cbn [orb].
        rewrite <- (assoc_L app). f_equal. f_equal. cbn. set_solver.
      * intros kv Hkv. rewrite <- (Hex kv) by (by right). pose proof (Hkey _ Hkv). set_solver.
    + destruct (c req) as [e|] eqn:Hc; (rewrite IH; [|done|intros kv Hkv; apply Hex; by right]);
        cbn [fmap list_fmap existsb]; unfold status_of at 2; cbn [fst snd];
        rewrite (decide_False (P := k ∈ getExcludedChecks req)) by tauto; rewrite Hc.
      * rewrite (bool_decide_eq_true_2 ((k ∉ _) ∧ _)) by (split; [tauto|done]). rewrite orb_true_r.
        cbn. rewrite <- (assoc_L app). f_equal. f_equal. set_solver.
      * rewrite (bool_decide_eq_false_2 ((k ∉ _) ∧ _)) by (intros [_ ?]; done).
        cbn. rewrite <- (assoc_L app). f_equal. f_equal. set_solver.
Qed.

(** All statuses, in no particular order, and whether a check fails. *)
Definition statuses (checks : Checks) (req : HealthRequest) : list checkStatus :=
  if decide (checks = ∅) then [mkCheckStatus "ping" true false]
  else status_of req <$> map_to_list checks.
Definition some_failure (checks : Checks) (req : HealthRequest) : bool :=
  existsb (λ kv, bool_decide ((kv.1 ∉ getExcludedChecks req) ∧ kv.2 req ≠ None)) (map_to_list checks).

Lemma some_failure_iff checks req :
  some_failure checks req = true ↔
  ∃ name check, checks !! name = Some check ∧ (name ∉ getExcludedChecks req) ∧ check req ≠ None.
Proof.
  unfold some_failure. rewrite existsb_Exists, Exists_exists. split.
  - intros ([n c] & Hin%elem_of_map_to_list & Hb%bool_decide_eq_true). naive_solver.
  - intros (n & c & Hc & Hn & Hf). exists (n, c). split; [by apply elem_of_map_to_list|].
    by apply bool_decide_eq_true.
Qed.

Lemma status_of_name req kv : cs_name (status_of req kv) = kv.1.
Proof. unfold status_of. by case_decide. Qed.

Lemma statuses_names checks req :
  cs_name <$> (status_of req <$> map_to_list checks) = (map_to_list checks).*1.
Proof. rewrite <- list_fmap_compose. apply list_fmap_ext. intros i kv _. apply status_of_name. Qed.

Lemma NoDup_statuses checks req : NoDup (cs_name <$> statuses checks req).
Proof.
  unfold statuses. case_decide; [repeat constructor; by intros ?%elem_of_nil|].
  rewrite statuses_names. apply NoDup_fst_map_to_list.
Qed.

#[export] Instance by_name_trans : Transitive by_name.
Proof. intros a b c. unfold by_name. by transitivity (cs_name b). Qed.
#[export] Instance by_name_total : Total by_name.
Proof. intros a b. unfold by_name. apply (total String.le). Qed.

(** With distinct names there is one way to sort. *)
Lemma merge_sort_by_name l l' :
  l ≡ₚ l' → NoDup (cs_name <$> l) → merge_sort by_name l = merge_sort by_name l'.
Proof.
  intros Hp Hnd. apply (StronglySorted_unique_strong by_name).
  - intros x y Hx Hy Hxy Hyx. rewrite merge_sort_Permutation in Hx, Hy. rewrite <- Hp in Hy.
    assert (Hn : cs_name x = cs_name y) by (apply (anti_symm String.le); done).
    apply list_elem_of_lookup in Hx as [i Hi], Hy as [j Hj].
    assert (i = j) as ->; [|congruence].
    eapply NoDup_lookup; [exact Hnd|..]; rewrite list_lookup_fmap; [by rewrite Hi|by rewrite Hj; cbn; rewrite Hn].
  - apply (StronglySorted_merge_sort by_name).
  - apply (StronglySorted_merge_sort by_name).
  - by rewrite !merge_sort_Permutation.
Qed.

Lemma serveAggregated_eq `{!MapRange string Checker} checks req :
  serveAggregated checks req =
    writeStatusesAsText (merge_sort by_name (statuses checks req)) (getExcludedChecks req ∖ dom checks)
      (some_failure checks req) (bool_decide (is_Some (hq_Query req !! "verbose"))).
Proof.
  unfold serveAggregated. rewrite check_loop; [|apply NoDup_map_range_keys|done].
  cbn [orb app]. f_equal.
  - pose proof (NoDup_statuses checks req) as Hnd. unfold statuses in *.
    pose proof (map_range_perm (MapRange := _) checks) as Hp.
    case_decide as Hc.
    + subst checks. rewrite (map_to_list_empty (M := gmap string)) in Hp.
      apply Permutation_nil_r in Hp. by rewrite Hp.
    + symmetry. apply merge_sort_by_name; [by rewrite Hp|done].
  - apply set_eq. intros x. rewrite !elem_of_difference, elem_of_list_to_set, elem_of_map_range_keys.
    by rewrite elem_of_dom.
  - unfold some_failure. apply eq_true_iff_eq. rewrite !existsb_Exists.
    by rewrite (map_range_perm checks).
Qed.

(** The health endpoint answers the same for every order in which the checks
    are visited: with an internal server error exactly when a check that is not
    excluded fails; with a plain ok when none does and no verbose report is
    asked for; and otherwise with a report with one line per check, in the
    order of their names (or one line for ping when there are no checks), a
    warning that lists the excluded names that are no checks, and the verdict. *)
Theorem serveAggregated_report (r : MapRange string Checker) checks req :
  let resp := serveAggregated checks req in
  let failure := ∃ name check, checks !! name = Some check ∧ (name ∉ getExcludedChecks req) ∧ check req ≠ None in
  let unknown := getExcludedChecks req ∖ dom checks in
  (∀ r' : MapRange string Checker, serveAggregated checks req = resp)
  ∧ (failure → hs_Code resp = 500%Z) ∧ (¬ failure → hs_Code resp = 200%Z)
  ∧ (¬ failure → hq_Query req !! "verbose" = None → hs_Body resp = "ok")
  ∧ (failure ∨ is_Some (hq_Query req !! "verbose") → ∃ parts verdict,
       parts ≡ₚ statuses checks req ∧ StronglySorted by_name parts
       ∧ (failure → verdict = "healthz check failed") ∧ (¬ failure → verdict = "healthz check passed")
       ∧ hs_Body resp = String.concat "" (status_line <$> parts)
           +:+ (if decide (unknown = ∅) then ""
                else "warn: some health checks cannot be excluded: no matches for "
                     +:+ formatQuoted (set_List unknown) +:+ nl)
           +:+ verdict +:+ nl).
Proof.
  intros resp failure unknown. unfold resp. rewrite serveAggregated_eq.
  split; [intros r'; by rewrite serveAggregated_eq|].
  assert (Hf : some_failure checks req = true ↔ failure) by apply some_failure_iff.
  unfold writeStatusesAsText. cbn [hs_Code hs_Body].
  destruct (some_failure checks req).
  - assert failure by (by apply Hf). split; [done|]. split; [done|]. split; [done|]. intros _. cbn.
    eexists _, "healthz check failed". split; [apply (merge_sort_Permutation by_name)|]. split; [apply (StronglySorted_merge_sort by_name)|].
    split; [reflexivity|done].
  - assert (¬ failure) by (by rewrite <- Hf). split; [done|]. split; [done|]. split.
    + intros _ Hv. by rewrite bool_decide_eq_false_2 by (rewrite Hv; by intros [? ?]).
    + intros [?|Hv]; [done|]. rewrite bool_decide_eq_true_2 by done. cbn.
      eexists _, "healthz check passed". split; [apply (merge_sort_Permutation by_name)|]. split; [apply (StronglySorted_merge_sort by_name)|].
      split; [done|]. split; [reflexivity|done].
Qed.

End healthz.

Example path_Clean_dots : path_Clean "//a/../b/./" = "/b".
Proof. reflexivity. Qed.

(** A failing check next to a good and an excluded one. *)
Definition sample_checks : Checks :=
  {[ "etcd" := λ _, Some (ErrorString "down"); "log" := Ping; "slow" := λ _, Some (ErrorString "slow") ]}.
Definition sample_get (p : string) : HealthRequest := mkHealthRequest p {[ "exclude" := ["slow"; "typo"] ]}.

Example healthz_report :
  hs_Body (@ServeHTTP (λ s, "<" +:+ s +:+ ">") (some_range _ _) sample_checks (sample_get "")) =
  "[-]etcd failed: reason withheld" +:+ nl +:+ "[+]log ok" +:+ nl +:+ "[+]slow excluded: ok" +:+ nl
  +:+ "warn: some health checks cannot be excluded: no matches for <typo>" +:+ nl
  +:+ "healthz check failed" +:+ nl.
Proof. vm_compute. reflexivity. Qed.

Example healthz_one_check :
  @ServeHTTP (λ s, s) (some_range _ _) sample_checks (sample_get "log/") = mkHealthResponse 200 ∅ "ok".
Proof. vm_compute. reflexivity. Qed.
