(* ===== verification/CacheReader.v ===== *)
(** * The cache's reader and its field indices

    [CacheReader] (src/pkg/cache/internal/cache_reader.go), which answers reads
    from an indexer, and the index functions that [IndexField] adds to it
    (src/pkg/cache/informer_cache.go).  client-go's indexer is a class with
    its documented laws.  An extractor returns a slice, which may be one that
    something else holds, so slices live in a store. *)

From Stdlib Require Import Ascii.
From S2P Require Export Options.
From S2P Require Import Regex.

(** ** The indexer (client-go) *)

Class Indexer (I : Type) := {
  GetByKey : I → string → result (option Object);
  ix_List : I → list Object;
  ByIndex : I → string → string → result (list Object);
}.

(** [cache.MetaNamespaceKeyFunc], [cache.NamespaceIndex] and
    [cache.MetaNamespaceIndexFunc]. *)
Definition MetaNamespaceKeyFunc (o : Object) : string :=
  if decide (GetNamespace o = "") then GetName o else GetNamespace o +:+ "/" +:+ GetName o.
Definition NamespaceIndex : string := "namespace".
Definition MetaNamespaceIndexFunc (o : Object) : list string := [GetNamespace o].

(** Objects are stored under their keys, and an index finds exactly the objects
    for which its function gives the value. *)
Class IndexerLaws (I : Type) `{Indexer I} := {
  indexers : I → gmap string (Object → list string);
  GetByKey_law : ∀ ix k, ∃ r, GetByKey ix k = Ok r ∧
    ∀ o, r = Some o ↔ o ∈ ix_List ix ∧ MetaNamespaceKeyFunc o = k;
  ByIndex_law : ∀ ix name v f, indexers ix !! name = Some f →
    ∃ l, ByIndex ix name v = Ok l ∧ l ≡ₚ filter (λ o, v ∈ f o) (ix_List ix);
  ByIndex_unknown : ∀ ix name v, indexers ix !! name = None → ∃ e, ByIndex ix name v = Err e;
}.

(** A requirement of a field selector. *)
Record FieldRequirement := mkFieldRequirement { fr_Field : string; fr_Operator : string; fr_Value : string }.

(** ** Keys (cache_reader.go) *)

Definition objectKeyToStoreKey (k : NamespacedName) : string :=
  if decide (nn_Namespace k = "") then nn_Name k else nn_Namespace k +:+ "/" +:+ nn_Name k.

Definition FieldIndexName (field : string) : string := "field:" +:+ field.
Definition allNamespacesNamespace : string := "__all_namespaces".

Definition KeyToNamespacedKey (ns baseKey : string) : string :=
  if decide (ns ≠ "") then ns +:+ "/" +:+ baseKey else allNamespacesNamespace +:+ "/" +:+ baseKey.

(** ** The reader *)

Section reader.
Context {I : Type} `{Indexer I}.
(** The requirements of a field selector, and the API error for a missing
    object. *)
Variable Requirements : Selector → list FieldRequirement.
Variable NewNotFound : string → string → string → error.

Record CacheReader := mkCacheReader {
  cr_indexer : I;
  cr_groupVersionKind : GVK;
  cr_scopeName : RESTScopeName;
}.

Definition err_wrong_type : error := ErrorString "cache had another type than was asked for".

(** [Get]: the object it writes to [out], and its error.  The indexer of an
    informer holds objects only. *)
Definition CacheReader_Get (c : CacheReader) (key : NamespacedName) (out : Object) : Object * option error :=
  let key := if decide (cr_scopeName c = ScopeRoot) then mkNN "" (nn_Name key) else key in
  match GetByKey (cr_indexer c) (objectKeyToStoreKey key) with
  | Err err => (out, Some err)
  | Ok None =>
      (out, Some (NewNotFound (gvk_Group (cr_groupVersionKind c)) (gvk_Kind (cr_groupVersionKind c)) (nn_Name key)))
  | Ok (Some obj) =>
      if decide (o_type obj ≠ o_type out) then (out, Some err_wrong_type)
      else (SetGroupVersionKind (cr_groupVersionKind c) obj, None)
  end.

(** [requiresExactMatch]. *)
Definition requiresExactMatch (sel : Selector) : option (string * string) :=
  match Requirements sel with
  | [req] =>
      if decide (fr_Operator req ≠ "=" ∧ fr_Operator req ≠ "==") then None
      else Some (fr_Field req, fr_Value req)
  | _ => None
  end.

Definition err_non_exact : error :=
  ErrorString "non-exact field matches are not supported by the cache".

Definition selected (labelSel : option Selector) (o : Object) : bool :=
  match labelSel with Some sel => sel_Matches sel (GetLabels o) | None => true end.

(** The loop of [List] over the objects found, [i] being the index of the first
    of [objs]. *)
Fixpoint list_loop (gvk : GVK) (limit : Z) (labelSel : option Selector) (i : Z) (objs : list Object) : list Object :=
  match objs with
  | [] => []
  | obj :: objs =>
      if decide (0 < limit ∧ limit ≤ i)%Z then []
      else if negb (selected labelSel obj) then list_loop gvk limit labelSel (i + 1) objs
      else SetGroupVersionKind gvk obj :: list_loop gvk limit labelSel (i + 1) objs
  end.

Definition empty_ListOptions : ListOptions := mkListOptions None None "" 0 "" None.

(** [SetList] on a list of the type of the objects. *)
Definition set_items (items : list Object) (l : ObjectList) : ObjectList := mkList (ol_type l) (ol_gvk l) items.

Definition CacheReader_List (c : CacheReader) (opts : list ListOption) (out : ObjectList)
    : ObjectList * option error :=
  let listOpts := ListOptions_ApplyOptions opts empty_ListOptions in
  let objs :=
    match lo_FieldSelector listOpts with
    | Some sel =>
        match requiresExactMatch sel with
        | None => Err err_non_exact
        | Some (field, val) =>
            ByIndex (cr_indexer c) (FieldIndexName field) (KeyToNamespacedKey (lo_Namespace listOpts) val)
        end
    | None =>
        if decide (lo_Namespace listOpts ≠ "") then ByIndex (cr_indexer c) NamespaceIndex (lo_Namespace listOpts)
        else Ok (ix_List (cr_indexer c))
    end in
  match objs with
  | Err err => (out, Some err)
  | Ok objs =>
      (set_items (list_loop (cr_groupVersionKind c) (lo_Limit listOpts) (lo_LabelSelector listOpts) 0 objs) out, None)
  end.

End reader.
Arguments CacheReader : clear implicits.

(** ** Field indices (informer_cache.go) *)

(** The values of an object in the index of a field. *)
Definition index_keys (extract : Object → list string) (o : Object) : list string :=
  let rawVals := extract o in
  if decide (GetNamespace o = "") then KeyToNamespacedKey "" <$> rawVals
  else (KeyToNamespacedKey (GetNamespace o) <$> rawVals) ++ (KeyToNamespacedKey "" <$> rawVals).

(** The store of slices. *)
Abbreviation Slices := (gmap loc (list string)).

(** An extractor: which slice it returns, fresh or not. *)
Definition IndexerFunc : Type := Object → Slices → loc * Slices.

(** The function [indexByField] adds: without a namespace the slice of the
    extractor is written to in place, value by value; with one a new slice of
    twice the length is. *)
Definition indexFunc (extractor : IndexerFunc) (obj : Object) (h : Slices) : loc * Slices :=
  let '(raw, h) := extractor obj h in
  let rawVals := default [] (h !! raw) in
  let ns := GetNamespace obj in
  if decide (ns = "") then (raw, <[raw := KeyToNamespacedKey ns <$> rawVals]> h)
  else alloc h ((KeyToNamespacedKey ns <$> rawVals) ++ (KeyToNamespacedKey "" <$> rawVals)).

(** ** Keys are unambiguous *)

Definition no_slash : string → bool := str_all (λ a, negb (Ascii.eqb "/" a)).

(** The namespaces Kubernetes allows, and the empty one. *)
Definition valid_namespace (ns : string) : Prop := no_slash ns = true ∧ ns ≠ allNamespacesNamespace.

Lemma slash_unique a b a' b' :
  no_slash a = true → no_slash a' = true → a +:+ "/" +:+ b = a' +:+ "/" +:+ b' → a = a' ∧ b = b'.
Proof.
  intros Ha Ha' Heq. apply (run_unique (λ a, negb (Ascii.eqb "/" a))) in Heq as [-> Heq]; [|done..].
  apply str_app_inv_l in Heq. done.
Qed.

Lemma no_slash_app a b : no_slash (a +:+ "/" +:+ b) = false.
Proof. unfold no_slash. rewrite !str_all_app. cbn. by rewrite andb_false_r. Qed.

Lemma KeyToNamespacedKey_inj ns v ns' v' :
  valid_namespace ns → valid_namespace ns' →
  KeyToNamespacedKey ns v = KeyToNamespacedKey ns' v' ↔ ns = ns' ∧ v = v'.
Proof.
  intros [Hs Hn] [Hs' Hn']. split; [|by intros [-> ->]]. unfold KeyToNamespacedKey.
  case_decide; case_decide; intros Heq; apply slash_unique in Heq as [Heq ->]; naive_solver.
Qed.

(** The values under which an object is found are those of its namespace and
    those of all namespaces. *)
Lemma elem_of_index_keys extract o ns v :
  valid_namespace ns → valid_namespace (GetNamespace o) →
  KeyToNamespacedKey ns v ∈ index_keys extract o ↔ (ns = "" ∨ GetNamespace o = ns) ∧ v ∈ extract o.
Proof.
  intros Hns Ho.
  assert (Hmap : ∀ ns', valid_namespace ns' →
    KeyToNamespacedKey ns v ∈ KeyToNamespacedKey ns' <$> extract o ↔ ns = ns' ∧ v ∈ extract o).
  { intros ns' Hns'. rewrite list_elem_of_fmap. setoid_rewrite KeyToNamespacedKey_inj; [|done..]. naive_solver. }
  unfold index_keys. case_decide as Hempty.
  - rewrite Hmap by (split; [done|by intros [=]]). rewrite Hempty. naive_solver.
  - rewrite elem_of_app, !Hmap; [|split; [done|by intros [=]]|done]. naive_solver.
Qed.

Definition valid_name (n : string) : Prop := no_slash n = true.

Lemma store_key_inj k k' :
  valid_name (nn_Namespace k) → valid_name (nn_Namespace k') → valid_name (nn_Name k) → valid_name (nn_Name k') →
  objectKeyToStoreKey k = objectKeyToStoreKey k' ↔ k = k'.
Proof.
  intros Hs Hs' Hn Hn'. split; [|by intros ->].
  destruct k as [ns n], k' as [ns' n']. unfold objectKeyToStoreKey, valid_name in *. cbn in *.
  case_decide; case_decide; intros Heq; subst.
  - done.
  - by rewrite no_slash_app in Hn.
  - by rewrite no_slash_app in Hn'.
  - by apply slash_unique in Heq as [-> ->].
Qed.

Lemma MetaNamespaceKeyFunc_store o : MetaNamespaceKeyFunc o = objectKeyToStoreKey (ObjectKeyFromObject o).
Proof. done. Qed.

(** ** What reads return *)

Section reads.
Context {I : Type} `{!Indexer I, !IndexerLaws I}.
Variable Requirements : Selector → list FieldRequirement.
Variable NewNotFound : string → string → string → error.
Implicit Types c : CacheReader I.

#[local] Arguments filter : simpl never.

Lemma list_loop_eq gvk limit labelSel i objs :
  list_loop gvk limit labelSel i objs =
    SetGroupVersionKind gvk <$> filter (λ o, selected labelSel o = true)
      (if decide (0 < limit)%Z then take (Z.to_nat (limit - i)) objs else objs).
Proof.
  revert i. induction objs as [|o objs IH]; intros i; cbn [list_loop].
  - case_decide; [by rewrite take_nil|done].
  - destruct (decide (0 < limit ∧ limit ≤ i)%Z) as [[Hpos Hle]|Hstop].
    + rewrite decide_True by done.
      replace (Z.to_nat (limit - i)) with 0%nat by lia. by rewrite firstn_O.
    + rewrite IH. case_decide as Hpos.
      * replace (Z.to_nat (limit - i)) with (S (Z.to_nat (limit - (i + 1)))) by lia. rewrite firstn_cons.
        rewrite filter_cons. destruct (selected labelSel o); cbn; [by rewrite decide_True|by rewrite decide_False].
      * rewrite filter_cons. destruct (selected labelSel o); cbn; [by rewrite decide_True|by rewrite decide_False].
Qed.

(** A read from the cache returns the stored object with exactly the key
    asked for, with the kind of the cache, the namespace of the key being
    ignored for objects without one; when there is none it is a not-found
    error, and when the object is of another type than asked for an error;
    on an error nothing is written to the output. *)
Theorem CacheReader_Get_spec c key out :
  let key' := if decide (cr_scopeName c = ScopeRoot) then mkNN "" (nn_Name key) else key in
  valid_name (nn_Namespace key') → valid_name (nn_Name key') →
  (∀ o, o ∈ ix_List (cr_indexer c) → valid_name (GetNamespace o) ∧ valid_name (GetName o)) →
  match CacheReader_Get NewNotFound c key out with
  | (out', None) => ∃ o, o ∈ ix_List (cr_indexer c) ∧ ObjectKeyFromObject o = key' ∧ o_type o = o_type out
                      ∧ out' = SetGroupVersionKind (cr_groupVersionKind c) o
  | (out', Some err) => out' = out ∧
      ((err = NewNotFound (gvk_Group (cr_groupVersionKind c)) (gvk_Kind (cr_groupVersionKind c)) (nn_Name key')
        ∧ ∀ o, o ∈ ix_List (cr_indexer c) → ObjectKeyFromObject o ≠ key')
       ∨ (err = err_wrong_type ∧ ∃ o, o ∈ ix_List (cr_indexer c) ∧ ObjectKeyFromObject o = key'
            ∧ o_type o ≠ o_type out))
  end.
Proof.
  intros key' Hns Hn Hobjs. unfold CacheReader_Get. fold key'.
  destruct (GetByKey_law (cr_indexer c) (objectKeyToStoreKey key')) as (r & -> & Hr).
  assert (Hkey : ∀ o, o ∈ ix_List (cr_indexer c) →
    MetaNamespaceKeyFunc o = objectKeyToStoreKey key' ↔ ObjectKeyFromObject o = key').
  { intros o [? ?]%Hobjs. rewrite MetaNamespaceKeyFunc_store. by apply store_key_inj. }
  destruct r as [o|].
  - destruct (proj1 (Hr o) eq_refl) as [Hin Ho]. apply Hkey in Ho; [|done].
    case_decide; [split; [done|]; right; eauto|eauto 6].
  - split; [done|]. left. split; [done|]. intros o Hin Ho%Hkey; [|done].
    by assert (None = Some o) by (apply Hr; done).
Qed.

(** The objects [List] is asked for, but for the labels: in the namespace, if one
    is given, and with the value of the field, if there is a selector. *)
Definition asked (ns : string) (field : option (string * (Object → list string))) (o : Object) : Prop :=
  (ns = "" ∨ GetNamespace o = ns)
  ∧ match field with Some (val, extract) => val ∈ extract o | None => True end.

#[local] Instance asked_dec ns field o : Decision (asked ns field o).
Proof. unfold asked. destruct field as [[val extract]|]; apply _. Defined.

(** The value and the extractor a field selector is about, if there is one. *)
Definition field_indexed (ix : I) (sel : option Selector) (field : option (string * (Object → list string))) : Prop :=
  match sel with
  | None => field = None
  | Some sel => ∃ name val extract,
      requiresExactMatch Requirements sel = Some (name, val)
      ∧ indexers ix !! FieldIndexName name = Some (index_keys extract) ∧ field = Some (val, extract)
  end.

(** C19: listing from the cache returns, with the kind of the cache, exactly the
    stored objects of the namespace asked for (or of all), with the value
    asked for in the index of the field, that the label selector matches.
    With a limit it looks at no more than that many of the objects of the
    namespace and field, whether or not the label selector matches them.  A
    field selector that is no single equality is an error, and one for a field
    without an index too. *)
Theorem CacheReader_List_spec c opts out :
  let lo := ListOptions_ApplyOptions opts empty_ListOptions in
  valid_namespace (lo_Namespace lo) →
  (∀ o, o ∈ ix_List (cr_indexer c) → valid_namespace (GetNamespace o)) →
  indexers (cr_indexer c) !! NamespaceIndex = Some MetaNamespaceIndexFunc →
  (∀ field, field_indexed (cr_indexer c) (lo_FieldSelector lo) field →
    ∃ found, found ≡ₚ filter (asked (lo_Namespace lo) field) (ix_List (cr_indexer c))
      ∧ CacheReader_List Requirements c opts out =
          (set_items (SetGroupVersionKind (cr_groupVersionKind c) <$>
             filter (λ o, selected (lo_LabelSelector lo) o = true)
               (if decide (0 < lo_Limit lo)%Z then take (Z.to_nat (lo_Limit lo)) found else found)) out, None))
  ∧ (∀ sel, lo_FieldSelector lo = Some sel →
       requiresExactMatch Requirements sel = None
       ∨ (∃ name val, requiresExactMatch Requirements sel = Some (name, val)
            ∧ indexers (cr_indexer c) !! FieldIndexName name = None) →
       ∃ err, CacheReader_List Requirements c opts out = (out, Some err)).
Proof.
  intros lo Hns Hobjs Hnsix. split.
  - intros field Hfield. unfold CacheReader_List. fold lo.
    unfold field_indexed in Hfield.
    destruct (lo_FieldSelector lo) as [sel|]; [destruct Hfield as (name & val & extract & Hex & Hix & ->)|subst field].
    2: { case_decide as Hempty.
      * destruct (ByIndex_law (cr_indexer c) NamespaceIndex (lo_Namespace lo) _ Hnsix) as (l & -> & Hl).
        exists l. split.
        { rewrite Hl. apply reflexive_eq, filter_ext_in. intros o _. unfold asked, MetaNamespaceIndexFunc.
          rewrite list_elem_of_singleton. naive_solver. }
        by rewrite list_loop_eq, Z.sub_0_r.
      * exists (ix_List (cr_indexer c)). split.
        { apply reflexive_eq. symmetry. apply filter_all, Forall_forall. intros o _. unfold asked.
          naive_solver. }
        by rewrite list_loop_eq, Z.sub_0_r. }
    + rewrite Hex.
      destruct (ByIndex_law (cr_indexer c) (FieldIndexName name) (KeyToNamespacedKey (lo_Namespace lo) val) _ Hix)
        as (l & -> & Hl).
      exists l. split.
      { rewrite Hl. apply reflexive_eq, filter_ext_in. intros o Ho. unfold asked.
        by rewrite elem_of_index_keys by auto. }
      by rewrite list_loop_eq, Z.sub_0_r.
  - intros sel Hfs Hbad. unfold CacheReader_List. fold lo. rewrite Hfs.
    destruct Hbad as [->|(name & val & -> & Hix)]; [eauto|].
    destruct (ByIndex_unknown (cr_indexer c) (FieldIndexName name) (KeyToNamespacedKey (lo_Namespace lo) val) Hix)
      as [e ->]. eauto.
Qed.
End reads.

(** ** Extractors that return a slice of the object *)

Lemma alloc_fresh {V} (h : gmap loc V) v l h' :
  alloc h v = (l, h') → h !! l = None ∧ h' = <[l := v]> h.
Proof. unfold alloc. intros [= <- <-]. split; [|done]. apply not_elem_of_dom, is_fresh. Qed.

Lemma KeyToNamespacedKey_longer ns v : KeyToNamespacedKey ns v ≠ v.
Proof.
  intros Heq. apply (f_equal String.length) in Heq. unfold KeyToNamespacedKey in Heq.
  case_decide; rewrite !str_app_length in Heq; cbn in Heq; lia.
Qed.

(** The function [IndexField] adds gives an object its values in the index,
    for an extractor that makes a new slice and for one that returns a slice
    something else holds.  With a namespace, or a new slice, no other slice
    changes.  But for an object without a namespace the values are written
    into the slice of the extractor: if that belongs to the object, the object
    is changed, and the next time the object is indexed its values are others,
    so that it is not found by the value it has. *)
Theorem indexFunc_writes_into_shared_slice (o : Object) (extract : Object → list string) (h : Slices) :
  (∀ extractor : IndexerFunc, extractor o h = alloc h (extract o) →
     let '(l, h1) := indexFunc extractor o h in
     h1 !! l = Some (index_keys extract o) ∧ ∀ l', is_Some (h !! l') → h1 !! l' = h !! l')
  ∧ (∀ own, h !! own = Some (extract o) →
       let extractor : IndexerFunc := λ _ h, (own, h) in
       let '(l1, h1) := indexFunc extractor o h in
       let '(l2, h2) := indexFunc extractor o h1 in
       h1 !! l1 = Some (index_keys extract o)
       ∧ (GetNamespace o ≠ "" → h1 !! own = h !! own ∧ h2 !! l2 = Some (index_keys extract o))
       ∧ (GetNamespace o = "" → h1 !! own = Some (KeyToNamespacedKey "" <$> extract o)
            ∧ ∀ v, extract o = [v] → ∀ keys, h2 !! l2 = Some keys → KeyToNamespacedKey "" v ∉ keys)).
Proof.
  split.
  - intros extractor Hfresh. unfold indexFunc. rewrite Hfresh.
    destruct (alloc h (extract o)) as [raw h0] eqn:Ha. apply alloc_fresh in Ha as [Hraw ->].
    rewrite lookup_insert_eq. cbn [default]. unfold index_keys. case_decide as Hns.
    + rewrite Hns, lookup_insert_eq. split; [done|]. intros l' [v Hl'].
      assert (l' ≠ raw) by congruence. by rewrite !lookup_insert_ne by done.
    + destruct (alloc _ _) as [l h1] eqn:Hb. apply alloc_fresh in Hb as [Hl ->].
      rewrite lookup_insert_eq. split; [done|]. intros l' [v Hl'].
      assert (l' ≠ raw) by congruence. apply lookup_insert_None in Hl as [Hl _].
      assert (l' ≠ l) by congruence. by rewrite !lookup_insert_ne by done.
  - intros own Hown extractor. unfold indexFunc, extractor. rewrite Hown. cbn [default].
    unfold index_keys. destruct (decide (GetNamespace o = "")) as [Hns|Hns].
    + rewrite !lookup_insert_eq. cbn [default]. rewrite Hns. split; [done|]. split; [done|]. intros _.
      split; [done|]. intros v Hv keys. rewrite Hv. intros [= <-].
      cbn. rewrite list_elem_of_singleton. intros Heq. symmetry in Heq.
      by apply KeyToNamespacedKey_longer in Heq.
    + destruct (alloc h _) as [l h1] eqn:Ha. apply alloc_fresh in Ha as [Hl ->].
      assert (own ≠ l) by congruence. rewrite lookup_insert_ne by done. rewrite Hown. cbn [default].
      destruct (alloc _ _) as [l2 h2] eqn:Hb. apply alloc_fresh in Hb as [Hl2 ->].
      rewrite lookup_insert_eq. split; [done|]. split; [|done]. intros _.
      by rewrite lookup_insert_eq.
Qed.

(** ** At concrete inputs *)

(** An indexer that keeps its objects in a map. *)
Record SampleIndexer := mkSampleIndexer {
  si_objects : gmap string Object;
  si_indexers : gmap string (Object → list string);
}.
Definition si_stored (ix : SampleIndexer) : list Object :=
  (filter (λ ko, MetaNamespaceKeyFunc ko.2 = ko.1) (map_to_list (si_objects ix))).*2.

#[export] Instance sample_Indexer : Indexer SampleIndexer := {
  GetByKey := λ ix k,
    Ok (match si_objects ix !! k with
        | Some o => if decide (MetaNamespaceKeyFunc o = k) then Some o else None
        | None => None
        end);
  ix_List := si_stored;
  ByIndex := λ ix name v,
    match si_indexers ix !! name with
    | Some f => Ok (filter (λ o, v ∈ f o) (si_stored ix))
    | None => Err (ErrorString "Index does not exist")
    end;
}.

Lemma elem_of_si_stored ix o :
  o ∈ si_stored ix ↔ si_objects ix !! MetaNamespaceKeyFunc o = Some o.
Proof.
  unfold si_stored. rewrite list_elem_of_fmap. setoid_rewrite list_elem_of_filter. split.
  - intros ([k x] & -> & Hk & Hin%elem_of_map_to_list). cbn in *. by rewrite Hk.
  - intros Ho. exists (MetaNamespaceKeyFunc o, o). split; [done|]. split; [done|]. by apply elem_of_map_to_list.
Qed.

#[export, program] Instance sample_IndexerLaws : IndexerLaws SampleIndexer := { indexers := si_indexers }.
Next Obligation.
  intros ix k. eexists. split; [reflexivity|]. intros o. cbn. rewrite elem_of_si_stored.
  destruct (si_objects ix !! k) as [x|] eqn:Hk.
  - case_decide as Hx; split.
    + intros [= ->]. by rewrite Hx.
    + intros [Ho <-]. congruence.
    + done.
    + intros [Ho <-]. congruence.
  - split; [done|]. intros [Ho <-]. congruence.
Qed.
Next Obligation. intros ix name v f Hf. cbn. rewrite Hf. eauto. Qed.
Next Obligation. intros ix name v Hf. cbn. rewrite Hf. eauto. Qed.

Definition reader_pod (ns n : string) (labels : gmap string string) : Object :=
  mkObject (Typed "Pod") (mkGVK "" "" "") (mkMeta ns n "" "" "" 0 None [] [] (Some labels) None) "".
Definition pod_a : Object := reader_pod "ns" "a" ∅.
Definition pod_b : Object := reader_pod "ns" "b" {[ "app" := "web" ]}.
Definition pod_c : Object := reader_pod "other" "c" {[ "app" := "web" ]}.

Definition node_name (o : Object) : list string := if decide (GetName o = "c") then ["node-2"] else ["node-1"].

Definition sample_reader : CacheReader SampleIndexer :=
  mkCacheReader
    (mkSampleIndexer (list_to_map ((λ o, (MetaNamespaceKeyFunc o, o)) <$> [pod_a; pod_b; pod_c]))
       {[ NamespaceIndex := MetaNamespaceIndexFunc; FieldIndexName "spec.nodeName" := index_keys node_name ]})
    (mkGVK "" "v1" "Pod") (ScopeOther "namespace").

Definition web_selector : Selector :=
  {| sel_Matches := λ ls, bool_decide (default ∅ ls !! "app" = Some "web"); sel_String := "app=web" |}.
Definition node_selector : Selector := {| sel_Matches := λ _, true; sel_String := "spec.nodeName=node-1" |}.
Definition sample_Requirements (s : Selector) : list FieldRequirement :=
  if decide (sel_String s = "spec.nodeName=node-1") then [mkFieldRequirement "spec.nodeName" "=" "node-1"] else [].

Definition names (l : ObjectList * option error) : list string := GetName <$> ol_items l.1.
Definition out_list : ObjectList := mkList (Typed "PodList") (mkGVK "" "" "") [].
Definition reader_options (labels fields : option Selector) (ns : string) (limit : Z) : list ListOption :=
  [ApplyToList (mkListOptions labels fields ns limit "" None)].

Example list_namespace :
  names (CacheReader_List sample_Requirements sample_reader (reader_options None None "ns" 0) out_list) = ["a"; "b"].
Proof. vm_compute. reflexivity. Qed.
Example list_field :
  names (CacheReader_List sample_Requirements sample_reader (reader_options None (Some node_selector) "" 0) out_list)
  = ["a"; "b"].
Proof. vm_compute. reflexivity. Qed.

(** The limit counts the pod the label selector does not match. *)
Example list_limit_counts_unselected :
  names (CacheReader_List sample_Requirements sample_reader (reader_options (Some web_selector) None "ns" 1) out_list)
  = []
  ∧ names (CacheReader_List sample_Requirements sample_reader (reader_options (Some web_selector) None "ns" 0) out_list)
    = ["b"].
Proof. split; vm_compute; reflexivity. Qed.

Lemma CacheReader_stored o :
  o ∈ ix_List (cr_indexer sample_reader) → o = pod_a ∨ o = pod_b ∨ o = pod_c.
Proof.
  intros Ho%elem_of_si_stored. apply elem_of_list_to_map_2 in Ho. apply list_elem_of_fmap in Ho as (x & [= _ ->] & Hx).
  apply elem_of_cons in Hx as [->|[->|[->|[]%elem_of_nil]%elem_of_cons]%elem_of_cons]; auto.
Qed.

Lemma CacheReader_Get_spec_witness :
  CacheReader_Get (λ _ _ _, ErrorString "not found") sample_reader (mkNN "ns" "b") pod_a
  = (SetGroupVersionKind (mkGVK "" "v1" "Pod") pod_b, None)
  ∧ ∃ o, o ∈ ix_List (cr_indexer sample_reader) ∧ ObjectKeyFromObject o = mkNN "ns" "b".
Proof.
  split; [vm_compute; reflexivity|].
  pose proof (CacheReader_Get_spec (λ _ _ _, ErrorString "not found") sample_reader (mkNN "ns" "b") pod_a) as Hth.
  assert (Heq : CacheReader_Get (λ _ _ _, ErrorString "not found") sample_reader (mkNN "ns" "b") pod_a
    = (SetGroupVersionKind (mkGVK "" "v1" "Pod") pod_b, None)) by (vm_compute; reflexivity).
  rewrite Heq in Hth. destruct Hth as (o & Hin & Hk & _).
  - reflexivity.
  - reflexivity.
  - intros o [->|[->| ->]]%CacheReader_stored; split; reflexivity.
  - exists o. split; [exact Hin|exact Hk].
Defined.

Lemma CacheReader_List_spec_witness :
  ∃ found : list Object, (∀ o, o ∈ found → node_name o = ["node-1"])
    ∧ CacheReader_List sample_Requirements sample_reader (reader_options None (Some node_selector) "ns" 0) out_list
      = (set_items (SetGroupVersionKind (mkGVK "" "v1" "Pod") <$> filter (λ o, selected None o = true) found) out_list,
         None).
Proof.
  destruct (CacheReader_List_spec sample_Requirements sample_reader
    (reader_options None (Some node_selector) "ns" 0) out_list) as [Hth _].
  - split; [reflexivity|discriminate].
  - intros o [->|[->| ->]]%CacheReader_stored; (split; [reflexivity|discriminate]).
  - reflexivity.
  - destruct (Hth (Some ("node-1", node_name))) as (found & Hp & Heq).
    + exists "spec.nodeName", "node-1", node_name. split; [reflexivity|]. split; reflexivity.
    + exists found. split; [|exact Heq]. intros o Ho. rewrite Hp in Ho.
      apply list_elem_of_filter in Ho as [[_ Hf] _]. unfold node_name in *.
      destruct (decide (GetName o = "c")); [|reflexivity].
      apply list_elem_of_singleton in Hf. discriminate Hf.
Defined.
