(* ===== verification/MultiNamespaceCache.v ===== *)
(** * The cache of several namespaces (src/pkg/cache/multi_namespace_cache.go)

    A cache that keeps one cache per namespace and one for objects without a
    namespace, and sends each call to the right one or to all of them, in the
    order of a map. *)

From S2P Require Export Client CacheReader.

(** ** Namespaced or not (src/pkg/internal/objectutil/objectutil.go) *)

Definition IsAPINamespacedWithGVK (gk : GVK) (restmapper : RESTMapper) : result bool :=
  match rm_RESTMapping restmapper (mkGK (gvk_Group gk) (gvk_Kind gk)) [] with
  | Err e => Err (ErrorWrap "failed to get restmapping" e)
  | Ok ScopeEmpty => Err (ErrorString "scope cannot be identified, empty scope returned")
  | Ok ScopeRoot => Ok false
  | Ok (ScopeOther _) => Ok true
  end.

(** For an object, and for a list. *)
Definition IsAPINamespaced (obj : Object) (scheme : Scheme) (restmapper : RESTMapper) : result bool :=
  gvk ← GVKForObject obj scheme; IsAPINamespacedWithGVK gvk restmapper.
Definition IsAPINamespaced_list (l : ObjectList) (scheme : Scheme) (restmapper : RESTMapper) : result bool :=
  gvk ← GVKForList l scheme; IsAPINamespacedWithGVK gvk restmapper.

(** ** The caches *)

Section multi.
(** The world the caches act on, and informers. *)
Context {W Informer : Type}.

(** The interface [Cache]. *)
Record Cache := mkCache {
  ca_Reader : Reader W;
  ca_GetInformer : Object → W → W * result Informer;
  ca_GetInformerForKind : GVK → W → W * result Informer;
  ca_WaitForCacheSync : W → W * bool;
  ca_IndexField : Object → string → W → W * option error;
}.

Record multiNamespaceCache := mkMultiNamespaceCache {
  mc_namespaceToCache : gmap string Cache;
  mc_Scheme : Scheme;
  mc_RESTMapper : RESTMapper;
  mc_clusterCache : Cache;
}.

Context `{!MapRange string Cache}.
Implicit Types c : multiNamespaceCache.

Definition globalCache : string := "_cluster-scope".

(** The loop of [GetInformer] and of [GetInformerForKind]. *)
Fixpoint collect_informers (get : Cache → W → W * result Informer) (caches : list (string * Cache))
    (informers : gmap string Informer) (w : W) : W * result (gmap string Informer) :=
  match caches with
  | [] => (w, Ok informers)
  | (ns, cache) :: caches =>
      match get cache w with
      | (w, Err err) => (w, Err err)
      | (w, Ok informer) => collect_informers get caches (<[ns := informer]> informers) w
      end
  end.

(** Both, with [get] for the call on a cache. *)
Definition multi_informers c (isNamespaced : result bool) (get : Cache → W → W * result Informer) (w : W)
    : W * result (gmap string Informer) :=
  match isNamespaced with
  | Err err => (w, Err err)
  | Ok false =>
      match get (mc_clusterCache c) w with
      | (w, Err err) => (w, Err err)
      | (w, Ok inf) => (w, Ok {[ globalCache := inf ]})
      end
  | Ok true => collect_informers get (map_range (mc_namespaceToCache c)) ∅ w
  end.

Definition multi_GetInformer c (obj : Object) (w : W) : W * result (gmap string Informer) :=
  multi_informers c (IsAPINamespaced obj (mc_Scheme c) (mc_RESTMapper c)) (λ cache, ca_GetInformer cache obj) w.
Definition multi_GetInformerForKind c (gvk : GVK) (w : W) : W * result (gmap string Informer) :=
  multi_informers c (IsAPINamespacedWithGVK gvk (mc_RESTMapper c)) (λ cache, ca_GetInformerForKind cache gvk) w.

Definition multi_WaitForCacheSync c (w : W) : W * bool :=
  let '(w, synced) :=
    fold_left (λ '(w, synced) '(_, cache),
      let '(w, s) := ca_WaitForCacheSync cache w in (w, if negb s then s else synced))
      (map_range (mc_namespaceToCache c)) (w, true) in
  let '(w, s) := ca_WaitForCacheSync (mc_clusterCache c) w in
  (w, if negb s then false else synced).

Fixpoint index_all (caches : list (string * Cache)) (obj : Object) (field : string) (w : W) : W * option error :=
  match caches with
  | [] => (w, None)
  | (_, cache) :: caches =>
      match ca_IndexField cache obj field w with
      | (w, Some err) => (w, Some err)
      | (w, None) => index_all caches obj field w
      end
  end.

(** An object whose scope cannot be found is skipped without an error. *)
Definition multi_IndexField c (obj : Object) (field : string) (w : W) : W * option error :=
  match IsAPINamespaced obj (mc_Scheme c) (mc_RESTMapper c) with
  | Err _ => (w, None)
  | Ok false => ca_IndexField (mc_clusterCache c) obj field w
  | Ok true => index_all (map_range (mc_namespaceToCache c)) obj field w
  end.

Definition err_unknown_namespace : error := ErrorString "unable to get: unknown namespace for the cache".

Definition multi_Get c (key : NamespacedName) : ObjCall W := λ obj w,
  match IsAPINamespaced obj (mc_Scheme c) (mc_RESTMapper c) with
  | Err err => (obj, w, Some err)
  | Ok false => Reader_Get (ca_Reader (mc_clusterCache c)) key obj w
  | Ok true =>
      match mc_namespaceToCache c !! nn_Namespace key with
      | None => (obj, w, Some err_unknown_namespace)
      | Some cache => Reader_Get (ca_Reader cache) key obj w
      end
  end.

Definition set_Limit (limit : Z) (lo : ListOptions) : ListOptions :=
  mkListOptions (lo_LabelSelector lo) (lo_FieldSelector lo) (lo_Namespace lo) limit (lo_Continue lo) (lo_Raw lo).

(** The loop over the caches of [List] for all namespaces. *)
Fixpoint multi_list_loop (list_ : ObjectList) (limitSet : bool) (caches : list (string * Cache)) (lo : ListOptions)
    (allItems : list Object) (w : W) : W * result (list Object) :=
  match caches with
  | [] => (w, Ok allItems)
  | (_, cache) :: caches =>
      match Reader_List (ca_Reader cache) [ApplyToList lo] list_ w with
      | (_, w, Some err) => (w, Err err)
      | (listObj, w, None) =>
          let items := ol_items listObj in
          let allItems := allItems ++ items in
          if limitSet then
            let lo := set_Limit (lo_Limit lo - Z.of_nat (length items)) lo in
            if decide (lo_Limit lo = 0)%Z then (w, Ok allItems)
            else multi_list_loop list_ limitSet caches lo allItems w
          else multi_list_loop list_ limitSet caches lo allItems w
      end
  end.

(** [List]; the resource version it sets on the list is left out, as it is in
    the lists of this model. *)
Definition multi_List c (opts : list ListOption) : ListCall W := λ list_ w,
  let listOpts := ListOptions_ApplyOptions opts empty_ListOptions in
  match IsAPINamespaced_list list_ (mc_Scheme c) (mc_RESTMapper c) with
  | Err err => (list_, w, Some err)
  | Ok false => Reader_List (ca_Reader (mc_clusterCache c)) opts list_ w
  | Ok true =>
      if decide (lo_Namespace listOpts ≠ "") then
        match mc_namespaceToCache c !! lo_Namespace listOpts with
        | None => (list_, w, Some err_unknown_namespace)
        | Some cache => Reader_List (ca_Reader cache) opts list_ w
        end
      else
        match multi_list_loop list_ (bool_decide (0 < lo_Limit listOpts)%Z) (map_range (mc_namespaceToCache c))
                listOpts (ol_items list_) w with
        | (w, Err err) => (list_, w, Some err)
        | (w, Ok allItems) => (set_items allItems list_, w, None)
        end
  end.

(** ** Informers of several namespaces *)

Variable inf_AddEventHandler : Informer → W → W.
Variable inf_AddEventHandlerWithResyncPeriod : Informer → Z → W → W.
Variable inf_AddIndexers : Informer → W → W * option error.
Variable inf_HasSynced : Informer → W → bool.
Context `{!MapRange string Informer}.

Definition multi_AddEventHandler (informers : gmap string Informer) (w : W) : W :=
  fold_left (λ w '(_, informer), inf_AddEventHandler informer w) (map_range informers) w.
Definition multi_AddEventHandlerWithResyncPeriod (informers : gmap string Informer) (resyncPeriod : Z) (w : W) : W :=
  fold_left (λ w '(_, informer), inf_AddEventHandlerWithResyncPeriod informer resyncPeriod w) (map_range informers) w.

(** The loop of [AddIndexers]. *)
Fixpoint add_indexers (informers : list (string * Informer)) (w : W) : W * option error :=
  match informers with
  | [] => (w, None)
  | (_, informer) :: informers =>
      match inf_AddIndexers informer w with
      | (w, Some err) => (w, Some err)
      | (w, None) => add_indexers informers w
      end
  end.
Definition multi_AddIndexers (informers : gmap string Informer) (w : W) : W * option error :=
  add_indexers (map_range informers) w.

Definition multi_HasSynced (informers : gmap string Informer) (w : W) : bool :=
  forallb (λ '(_, informer), inf_HasSynced informer w) (map_range informers).

(** ** [Start]

    One goroutine for each cache, whose error is logged, while [Start] waits for
    the context. *)

Inductive CacheRun := CacheRunning | CacheEnded (err : option error).

(** [None] stands for the cache of objects without a namespace. *)
Record MultiRun := mkMultiRun {
  mr_caches : gmap (option string) CacheRun;
  mr_ctx_done : bool;
  mr_returned : bool;
  mr_log : list (option string * error);
}.

Definition multi_Start c : MultiRun :=
  mkMultiRun (<[None := CacheRunning]> (kmap Some ((λ _, CacheRunning) <$> mc_namespaceToCache c))) false false [].

Inductive MultiStep := CacheReturns (key : option string) (err : option error) | MultiCtxDone | MultiReturn.

Definition multi_exec (l : MultiStep) (r : MultiRun) : option MultiRun :=
  match l with
  | CacheReturns key err =>
      match mr_caches r !! key with
      | Some CacheRunning =>
          Some (mkMultiRun (<[key := CacheEnded err]> (mr_caches r)) (mr_ctx_done r) (mr_returned r)
                  (match err with Some e => mr_log r ++ [(key, e)] | None => mr_log r end))
      | _ => None
      end
  | MultiCtxDone => Some (mkMultiRun (mr_caches r) true (mr_returned r) (mr_log r))
  | MultiReturn => if mr_ctx_done r then Some (mkMultiRun (mr_caches r) true true (mr_log r)) else None
  end.

Definition multi_step (r r' : MultiRun) : Prop := ∃ l, multi_exec l r = Some r'.

(** [Start] returns only when its context is done, and nil whatever happened to the
    caches: the error of a cache is logged, once, and nothing else is. *)
Lemma multi_Start_logs_errors c r :
  rtc multi_step (multi_Start c) r →
  (mr_returned r = true → mr_ctx_done r = true)
  ∧ NoDup (mr_log r).*1
  ∧ ∀ key e, (key, e) ∈ mr_log r ↔ mr_caches r !! key = Some (CacheEnded (Some e)).
Proof.
  refine (rtc_ind_r (λ r, (mr_returned r = true → mr_ctx_done r = true) ∧ NoDup (mr_log r).*1
            ∧ ∀ key e, (key, e) ∈ mr_log r ↔ mr_caches r !! key = Some (CacheEnded (Some e))) _ _ _ _).
  - split_and!; cbn; [done|apply NoDup_nil_2|]. intros key e. rewrite elem_of_nil. split; [done|].
    intros [[_ [=]]|[_ Hk]]%lookup_insert_Some. apply lookup_kmap_Some in Hk as (ns & _ & Hk); [|apply _].
    by rewrite lookup_fmap_Some in Hk; destruct Hk as (? & [=] & _).
  - intros r1 r2 _ [l Hl] (Hret & Hnd & Hlog). destruct l as [key err| |]; cbn in Hl.
    + destruct (mr_caches r1 !! key) as [[|]|] eqn:Hk; try done. injection Hl as <-. cbn.
      assert (∀ e, (key, e) ∉ mr_log r1) as Hfresh by (intros e ?%Hlog; congruence).
      split; [done|]. destruct err as [e|]; cbn; split.
      * rewrite fmap_app. cbn. apply NoDup_app. split; [done|]. split; [|apply NoDup_singleton].
        intros key' Hin ->%list_elem_of_singleton. apply list_elem_of_fmap in Hin as ([key' e'] & -> & Hin).
        by apply Hfresh in Hin.
      * intros key' e'. rewrite elem_of_app, list_elem_of_singleton, lookup_insert_Some, Hlog. naive_solver.
      * done.
      * intros key' e'. rewrite lookup_insert_Some, Hlog. naive_solver.
    + injection Hl as <-. by split_and!.
    + destruct (mr_ctx_done r1); [|done]. injection Hl as <-. by split_and!.
Qed.

(** It does not wait for the caches: they may run on when it has returned. *)
Lemma multi_Start_leaves_caches c :
  ∃ r, rtc multi_step (multi_Start c) r ∧ mr_returned r = true ∧ mr_caches r = mr_caches (multi_Start c).
Proof.
  exists (mkMultiRun (mr_caches (multi_Start c)) true true []). split_and!; [|done..].
  eapply rtc_l; [by exists MultiCtxDone|]. eapply rtc_once. by exists MultiReturn.
Qed.

(** ** Listing all namespaces *)

Lemma set_Limit_twice a b lo : set_Limit a (set_Limit b lo) = set_Limit a lo.
Proof. done. Qed.
Lemma set_Limit_same lo : set_Limit (lo_Limit lo) lo = lo.
Proof. by destruct lo. Qed.

(** The cache answers a listing with these items, up to the limit. *)
Definition answers (cache : Cache) (lo : ListOptions) (content : list Object) : Prop :=
  ∀ limit list_ w,
    Reader_List (ca_Reader cache) [ApplyToList (set_Limit limit lo)] list_ w =
      (set_items (if decide (0 < limit)%Z then take (Z.to_nat limit) content else content) list_, w, None).

Lemma loop_unlimited list_ caches lo content acc w :
  (lo_Limit lo <= 0)%Z → (∀ ns cache, (ns, cache) ∈ caches → answers cache lo (content ns)) →
  multi_list_loop list_ false caches lo acc w = (w, Ok (acc ++ mjoin (content <$> caches.*1))).
Proof.
  intros Hlim. revert acc. induction caches as [|[ns cache] caches IH]; intros acc Hans; cbn.
  - by rewrite app_nil_r.
  - pose proof (Hans ns cache ltac:(by left) (lo_Limit lo) list_ w) as Ha. rewrite set_Limit_same in Ha.
    rewrite Ha, decide_False by lia. cbn. rewrite IH by (intros; apply Hans; by right). by rewrite <- (assoc_L app).
Qed.

Lemma loop_limited list_ caches lo content acc w limit :
  (0 < limit)%Z → (∀ ns cache, (ns, cache) ∈ caches → answers cache lo (content ns)) →
  multi_list_loop list_ true caches (set_Limit limit lo) acc w =
    (w, Ok (acc ++ take (Z.to_nat limit) (mjoin (content <$> caches.*1)))).
Proof.
  intros Hlim. revert acc limit Hlim. induction caches as [|[ns cache] caches IH]; intros acc limit Hlim Hans; cbn.
  - by rewrite take_nil, app_nil_r.
  - rewrite (Hans ns cache ltac:(by left)), (decide_True (P := (0 < limit)%Z)) by done. cbn. rewrite length_take.
    rewrite set_Limit_twice. rewrite firstn_app. case_decide as Hz.
    + replace (Z.to_nat limit - length (content ns))%nat with 0%nat by lia. by rewrite firstn_O, app_nil_r.
    + rewrite IH; [|lia|intros; apply Hans; by right]. rewrite <- (assoc_L app). cbn in Hz.
      by replace (Z.to_nat (limit - Z.of_nat (Z.to_nat limit `min` length (content ns))))
        with (Z.to_nat limit - length (content ns))%nat by lia.
Qed.

(** Listing a kind with namespaces for all namespaces asks every cache and
    appends what they have to the items the list already holds, in the order
    in which the map of caches is visited; with a limit it appends exactly as
    many items as the limit allows, whichever caches they come from. *)
Theorem multi_List_all_namespaces c opts list_ w (content : string → list Object) :
  let lo := ListOptions_ApplyOptions opts empty_ListOptions in
  IsAPINamespaced_list list_ (mc_Scheme c) (mc_RESTMapper c) = Ok true → lo_Namespace lo = "" →
  (∀ ns cache, mc_namespaceToCache c !! ns = Some cache → answers cache lo (content ns)) →
  ∃ all, all ≡ₚ mjoin (content <$> elements (dom (mc_namespaceToCache c))) ∧
    multi_List c opts list_ w =
      (set_items (ol_items list_ ++
         (if decide (0 < lo_Limit lo)%Z then take (Z.to_nat (lo_Limit lo)) all else all)) list_, w, None).
Proof.
  intros lo Hscope Hns Hans. exists (mjoin (content <$> (map_range (mc_namespaceToCache c)).*1)). split.
  - assert (Hp : (map_range (mc_namespaceToCache c)).*1 ≡ₚ elements (dom (mc_namespaceToCache c))).
    { apply NoDup_Permutation; [apply NoDup_map_range_keys|apply NoDup_elements|].
      intros ns. by rewrite elem_of_map_range_keys, elem_of_elements, elem_of_dom. }
    by rewrite Hp.
  - unfold multi_List. fold lo. rewrite Hscope, decide_False by (intros Hne; by apply Hne).
    assert (Hcaches : ∀ ns cache, (ns, cache) ∈ map_range (mc_namespaceToCache c) → answers cache lo (content ns)).
    { intros ns cache Hin%elem_of_map_range. by apply Hans. }
    case_decide as Hlim.
    + rewrite bool_decide_eq_true_2 by done. rewrite <- (set_Limit_same lo) at 1.
      by rewrite (loop_limited _ _ _ content).
    + rewrite bool_decide_eq_false_2 by done. by rewrite (loop_unlimited _ _ _ content) by (done || lia).
Qed.

(** ** Reading one object, and syncing *)

(** A read goes to the cache of the key's namespace, or to the cluster-wide
    cache when the kind has no namespaces; a namespace without a cache is an
    error, and nothing is read.  The caches count as synced exactly when all of
    them do, and every one of them is waited for even when one fails. *)
Theorem multi_cache_uses_all_caches c key obj w :
  (∀ namespaced, IsAPINamespaced obj (mc_Scheme c) (mc_RESTMapper c) = Ok namespaced →
     multi_Get c key obj w =
       match (if namespaced then mc_namespaceToCache c !! nn_Namespace key else Some (mc_clusterCache c)) with
       | Some cache => Reader_Get (ca_Reader cache) key obj w
       | None => (obj, w, Some err_unknown_namespace)
       end)
  ∧ (∀ (waited : string → W → W) (syncs : Cache → bool),
       (∀ ns cache w, mc_namespaceToCache c !! ns = Some cache →
          ca_WaitForCacheSync cache w = (waited ns w, syncs cache)) →
       (∀ w, ca_WaitForCacheSync (mc_clusterCache c) w = (waited globalCache w, syncs (mc_clusterCache c))) →
       ∃ order, order ≡ₚ elements (dom (mc_namespaceToCache c)) ∧
         (multi_WaitForCacheSync c w).1 = fold_left (λ w ns, waited ns w) (order ++ [globalCache]) w
         ∧ ((multi_WaitForCacheSync c w).2 = true ↔
              syncs (mc_clusterCache c) = true
              ∧ ∀ ns cache, mc_namespaceToCache c !! ns = Some cache → syncs cache = true)).
Proof.
  split.
  - intros namespaced Hn. unfold multi_Get. rewrite Hn. by destruct namespaced.
  - intros waited syncs Hsync Hglobal. exists (map_range (mc_namespaceToCache c)).*1. split.
    { apply NoDup_Permutation; [apply NoDup_map_range_keys|apply NoDup_elements|].
      intros ns. by rewrite elem_of_map_range_keys, elem_of_elements, elem_of_dom. }
    unfold multi_WaitForCacheSync.
    assert (Hloop : ∀ caches w synced,
      (∀ ns cache, (ns, cache) ∈ caches → mc_namespaceToCache c !! ns = Some cache) →
      fold_left (λ '(w, synced) '(_, cache),
        let '(w, s) := ca_WaitForCacheSync cache w in (w, if negb s then s else synced)) caches (w, synced)
      = (fold_left (λ w ns, waited ns w) caches.*1 w, synced && forallb (λ nc, syncs nc.2) caches)).
    { induction caches as [|[ns cache] caches IH]; intros w0 synced Hin; cbn.
      - by rewrite andb_true_r.
      - rewrite (Hsync ns cache) by (apply Hin; by left). rewrite IH by (intros; apply Hin; by right).
        f_equal. by destruct (syncs cache), synced. }
    rewrite Hloop by (intros ? ? ?; by apply elem_of_map_range). rewrite Hglobal. cbn.
    split; [by rewrite fold_left_app|].
    destruct (syncs (mc_clusterCache c)); cbn; [|naive_solver].
    rewrite forallb_Forall, Forall_forall. split.
    + intros Hall. split; [done|]. intros ns cache Hc%elem_of_map_range. by apply (Hall (ns, cache)).
    + intros [_ Hall] [ns cache] Hc%elem_of_map_range. by eapply Hall.
Qed.
End multi.
Arguments Cache : clear implicits.
Arguments multiNamespaceCache : clear implicits.

(** ** At a concrete input *)

(** A cache that has these objects. *)
Definition cache_of (content : list Object) : Cache unit unit :=
  mkCache {| Reader_Get := λ _ o w, (o, w, Some err_unknown_namespace);
             Reader_List := λ opts l w,
               let limit := lo_Limit (ListOptions_ApplyOptions opts empty_ListOptions) in
               (set_items (if decide (0 < limit)%Z then take (Z.to_nat limit) content else content) l, w, None) |}
    (λ _ w, (w, Ok tt)) (λ _ w, (w, Ok tt)) (λ w, (w, true)) (λ _ _ w, (w, None)).

Definition namespaced_pods (ns : string) : list Object :=
  if decide (ns = "ns") then [pod_a; pod_b] else [pod_c].
Definition pods_mapper : RESTMapper := {| rm_RESTMapping := λ _ _, Ok (ScopeOther "namespace") |}.
Definition pods_scheme : Scheme :=
  {| sch_ObjectKinds := λ _ _, Ok ([mkGVK "" "v1" "PodList"], false); sch_Recognizes := λ _, true |}.
Definition two_namespaces : multiNamespaceCache unit unit :=
  mkMultiNamespaceCache {[ "ns" := cache_of [pod_a; pod_b]; "other" := cache_of [pod_c] ]}
    pods_scheme pods_mapper (cache_of []).

Lemma multi_List_all_namespaces_witness :
  ∃ all, all ≡ₚ mjoin (namespaced_pods <$> elements (dom (mc_namespaceToCache two_namespaces)))
    ∧ @multi_List unit unit (some_range _ _) two_namespaces [] out_list tt
      = (set_items ([] ++ all) out_list, tt, None).
Proof.
  destruct (@multi_List_all_namespaces unit unit (some_range _ _) two_namespaces [] out_list tt namespaced_pods)
    as (all & Hp & Heq).
  - reflexivity.
  - reflexivity.
  - intros ns cache Hc limit l w. cbn in Hc.
    assert (cache = cache_of (namespaced_pods ns)) as ->.
    { apply lookup_insert_Some in Hc as [[<- <-]|[_ Hc]]; [reflexivity|].
      apply lookup_singleton_Some in Hc as [<- <-]. reflexivity. }
    cbn. destruct (decide (limit > 0)%Z), (decide (0 < limit)%Z); try lia; [|reflexivity].
    destruct (decide (0 < limit)%Z); [reflexivity|lia].
  - exists all. split; [exact Hp|exact Heq].
Defined.

(** A list that already has an item keeps it, in front of what is found. *)
Example multi_list_keeps_items :
  names (let '(l, _, err) := @multi_List unit unit (some_range _ _) two_namespaces [] (set_items [pod_c] out_list) tt
         in (l, err)) = ["c"; "c"; "a"; "b"].
Proof. vm_compute. reflexivity. Qed.
