(* ===== verification/InformersMap.v ===== *)
(** * The informers of a cache

    [specificInformersMap] (src/pkg/cache/internal/informers_map.go) makes one
    informer per kind, on demand, from whatever goroutine reads first, and runs
    it once the map is started.  The sections under its lock are functions; a
    relation interleaves any number of calls of [Get] with [Start].
    [InformersMap] (deleg_map.go) chooses among three such maps, and the
    informer cache (src/pkg/cache/informer_cache.go) reads through it. *)

From S2P Require Export Objects.

(** ** One map (informers_map.go) *)

(** An entry of the map is told by a number: a new one for each informer made.
    [im_runs] records the informers [Run] was called on. *)
Record specificInformersMap := mkInformersMap {
  im_informersByGVK : gmap GVK nat;
  im_started : bool;
  im_startWait_closed : bool;
  im_runs : list nat;
  im_next : nat;
}.

Definition newSpecificInformersMap : specificInformersMap := mkInformersMap ∅ false false [] 0.

Section map.
Context `{!MapRange GVK nat}.
Implicit Types ip : specificInformersMap.

(** The locked part of [Start]; closing [startWait] twice panics. *)
Definition Start ip : outcome specificInformersMap :=
  if im_startWait_closed ip then Panicked "close of closed channel"
  else Returned (mkInformersMap (im_informersByGVK ip) true true
                   (im_runs ip ++ (map_range (im_informersByGVK ip)).*2) (im_next ip)).

(** The lookup of [Get]. *)
Definition lookup_informer (gvk : GVK) ip : option nat * bool := (im_informersByGVK ip !! gvk, im_started ip).

(** [addInformerToMap]; [created] is the outcome of making the list-watch and of
    the REST mapping. *)
Definition addInformerToMap (gvk : GVK) (created : option error) ip
    : specificInformersMap * result (nat * bool) :=
  match im_informersByGVK ip !! gvk with
  | Some i => (ip, Ok (i, im_started ip))
  | None =>
      match created with
      | Some err => (ip, Err err)
      | None =>
          let i := im_next ip in
          let ip := mkInformersMap (<[gvk := i]> (im_informersByGVK ip)) (im_started ip) (im_startWait_closed ip)
                      (im_runs ip) (S i) in
          let ip := if im_started ip
                    then mkInformersMap (im_informersByGVK ip) (im_started ip) (im_startWait_closed ip)
                           (im_runs ip ++ [i]) (im_next ip)
                    else ip in
          (ip, Ok (i, im_started ip))
      end
  end.

(** *** Interleavings *)

(** Where a call of [Get] is: before the lookup, between it and
    [addInformerToMap], waiting for the informer to sync, or done. *)
Inductive Call :=
  | Looking (gvk : GVK)
  | Adding (gvk : GVK)
  | Syncing (gvk : GVK) (i : nat) (started : bool)
  | Done (gvk : GVK) (i : nat) (started : bool)
  | Failed (gvk : GVK).

Record Calls := mkCalls { cs_map : specificInformersMap; cs_calls : list Call }.

Definition set_call (n : nat) (c : Call) (s : Calls) : Calls := mkCalls (cs_map s) (<[n := c]> (cs_calls s)).

(** An informer of a map that was not started is not waited for; one of a started
    map until it has synced, or until the context is done. *)
Inductive calls_step (s : Calls) : Calls → Prop :=
  | step_call gvk : calls_step s (mkCalls (cs_map s) (cs_calls s ++ [Looking gvk]))
  | step_found n gvk i st :
      cs_calls s !! n = Some (Looking gvk) → lookup_informer gvk (cs_map s) = (Some i, st) →
      calls_step s (set_call n (Syncing gvk i st) s)
  | step_missing n gvk st :
      cs_calls s !! n = Some (Looking gvk) → lookup_informer gvk (cs_map s) = (None, st) →
      calls_step s (set_call n (Adding gvk) s)
  | step_added n gvk created ip i st :
      cs_calls s !! n = Some (Adding gvk) → addInformerToMap gvk created (cs_map s) = (ip, Ok (i, st)) →
      calls_step s (set_call n (Syncing gvk i st) (mkCalls ip (cs_calls s)))
  | step_not_added n gvk created ip err :
      cs_calls s !! n = Some (Adding gvk) → addInformerToMap gvk created (cs_map s) = (ip, Err err) →
      calls_step s (set_call n (Failed gvk) (mkCalls ip (cs_calls s)))
  | step_synced n gvk i st :
      cs_calls s !! n = Some (Syncing gvk i st) → calls_step s (set_call n (Done gvk i st) s)
  | step_not_synced n gvk i :
      cs_calls s !! n = Some (Syncing gvk i true) → calls_step s (set_call n (Failed gvk) s)
  | step_Start ip :
      Start (cs_map s) = Returned ip → calls_step s (mkCalls ip (cs_calls s)).

Definition new_calls : Calls := mkCalls newSpecificInformersMap [].

(** *** One informer per kind, run once *)

(** The entry and the flag a call has got. *)
Definition got (c : Call) : option (GVK * nat * bool) :=
  match c with
  | Syncing gvk i st | Done gvk i st => Some (gvk, i, st)
  | _ => None
  end.

Definition map_inv (s : Calls) : Prop :=
  let ip := cs_map s in
  (∀ gvk gvk' i, im_informersByGVK ip !! gvk = Some i → im_informersByGVK ip !! gvk' = Some i → gvk = gvk')
  ∧ (∀ gvk i, im_informersByGVK ip !! gvk = Some i → (i < im_next ip)%nat)
  ∧ NoDup (im_runs ip)
  ∧ (∀ i, i ∈ im_runs ip ↔ im_started ip = true ∧ ∃ gvk, im_informersByGVK ip !! gvk = Some i)
  ∧ (im_startWait_closed ip = im_started ip)
  ∧ (∀ n c gvk i st, cs_calls s !! n = Some c → got c = Some (gvk, i, st) →
       im_informersByGVK ip !! gvk = Some i ∧ (st = true → im_started ip = true)).

Lemma map_inv_set_call s n c c' :
  map_inv s → cs_calls s !! n = Some c →
  (∀ gvk i st, got c' = Some (gvk, i, st) →
     im_informersByGVK (cs_map s) !! gvk = Some i ∧ (st = true → im_started (cs_map s) = true)) →
  map_inv (set_call n c' s).
Proof.
  intros (H1 & H2 & H3 & H4 & H5 & H6) Hn Hgot. repeat (split; [done|]).
  intros k d gvk i st Hk Hd. cbn in Hk. destruct (decide (k = n)) as [->|Hne].
  - rewrite list_lookup_insert_eq in Hk by (by eapply lookup_lt_Some). injection Hk as <-. by apply Hgot.
  - rewrite list_lookup_insert_ne in Hk by done. by eapply H6.
Qed.

Lemma addInformerToMap_inv s gvk created ip r :
  map_inv s → addInformerToMap gvk created (cs_map s) = (ip, r) →
  map_inv (mkCalls ip (cs_calls s))
  ∧ ∀ i st, r = Ok (i, st) → im_informersByGVK ip !! gvk = Some i ∧ (st = true → im_started ip = true).
Proof.
  intros (H1 & H2 & H3 & H4 & H5 & H6). unfold addInformerToMap.
  destruct (im_informersByGVK (cs_map s) !! gvk) as [i0|] eqn:Hg.
  { intros [= <- <-]. split; [by destruct s|]. by intros i st [= <- <-]. }
  destruct created as [err|]; [intros [= <- <-]; split; [by destruct s|by intros]|].
  assert (Hfresh : ∀ g i, im_informersByGVK (cs_map s) !! g = Some i → i ≠ im_next (cs_map s)).
  { intros g i Hi. specialize (H2 _ _ Hi). lia. }
  assert (Hnew : im_next (cs_map s) ∉ im_runs (cs_map s)).
  { intros [_ [g Hi]]%H4. by apply Hfresh in Hi. }
  destruct (im_started (cs_map s)) eqn:Hst; cbn; rewrite ?Hst; intros [= <- <-];
    (split; [|intros i st [= <- <-]; cbn; by rewrite lookup_insert_eq]);
    unfold map_inv; cbn; rewrite ?Hst.
  1,2: split; [intros g g' i; rewrite !lookup_insert_Some; naive_solver|].
  1,2: split; [intros g i; rewrite lookup_insert_Some; intros [[_ <-]|[_ Hi]]; [lia|]; specialize (H2 _ _ Hi); lia|].
  - split; [apply NoDup_app; split; [done|]; split; [by intros x Hx ->%list_elem_of_singleton|apply NoDup_singleton]|].
    split; [|split; [by rewrite H5|]].
    + intros i. rewrite elem_of_app, list_elem_of_singleton, H4. split.
      * intros [[_ [g Hi]]| ->]; (split; [done|]); [|exists gvk; by rewrite lookup_insert_eq].
        exists g. rewrite lookup_insert_ne; [done|]. intros ->. congruence.
      * intros [_ [g Hi]]. apply lookup_insert_Some in Hi as [[_ <-]|[_ Hi]]; [by right|left; eauto].
    + intros n c g i st Hn Hc. destruct (H6 n c g i st Hn Hc) as [Hi ?]. split; [|done].
      rewrite lookup_insert_ne; [done|]. intros ->. congruence.
  - split; [done|]. split; [|split; [by rewrite H5|]].
    + intros i. rewrite H4. split; intros [? _]; done.
    + intros n c g i st Hn Hc. destruct (H6 n c g i st Hn Hc) as [Hi ?]. split; [|by auto].
      rewrite lookup_insert_ne; [done|]. intros ->. congruence.
Qed.

Lemma Start_inv s ip : map_inv s → Start (cs_map s) = Returned ip → map_inv (mkCalls ip (cs_calls s)).
Proof.
  intros (H1 & H2 & H3 & H4 & H5 & H6). unfold Start. destruct (im_startWait_closed (cs_map s)) eqn:Hc; [done|].
  intros [= <-]. symmetry in H5.
  assert (Hruns : im_runs (cs_map s) = []).
  { destruct (im_runs (cs_map s)) as [|i l] eqn:Hr; [done|].
    assert (i ∈ i :: l) as [? _]%H4 by (by left). congruence. }
  unfold map_inv. cbn. rewrite Hruns. cbn. split; [done|]. split; [done|].
  assert (Hin : ∀ i, i ∈ (map_range (im_informersByGVK (cs_map s))).*2 ↔
    ∃ gvk, im_informersByGVK (cs_map s) !! gvk = Some i).
  { intros i. rewrite list_elem_of_fmap. split.
    - intros ([g x] & -> & Hx%elem_of_map_range). eauto.
    - intros [g Hg]. exists (g, i). by rewrite elem_of_map_range. }
  split; [|split; [|split; [done|]]].
  - apply NoDup_fmap_2_strong; [|rewrite map_range_perm; apply NoDup_map_to_list].
    intros [g i] [g' i'] Hg%elem_of_map_range Hg'%elem_of_map_range. cbn. intros ->. f_equal. by eapply H1.
  - intros i. rewrite Hin. naive_solver.
  - intros n c g i st Hn Hgot. destruct (H6 n c g i st Hn Hgot). split; done.
Qed.

Lemma calls_step_inv s s' : map_inv s → calls_step s s' → map_inv s'.
Proof.
  intros Hinv Hstep. pose proof Hinv as (_ & _ & _ & _ & _ & H6).
  destruct Hstep as [gvk|n gvk i st Hn Hl|n gvk st Hn Hl|n gvk created ip i st Hn Ha|n gvk created ip err Hn Ha
    |n gvk i st Hn|n gvk i Hn|ip Hs].
  - destruct Hinv as (H1 & H2 & H3 & H4 & H5 & _). do 5 (split; [done|]). cbn.
    intros n c g i st Hn Hc. apply lookup_app_Some in Hn as [Hn|[_ Hn]]; [by eapply H6|].
    apply list_lookup_singleton_Some in Hn as [_ <-]. done.
  - injection Hl as Hl <-. eapply map_inv_set_call; [done..|]. by intros g i' st [= <- <- <-].
  - by eapply map_inv_set_call.
  - destruct (addInformerToMap_inv _ _ _ _ _ Hinv Ha) as [Hinv' Hr].
    eapply map_inv_set_call; [done..|]. intros g i' st' [= <- <- <-]. by apply Hr.
  - destruct (addInformerToMap_inv _ _ _ _ _ Hinv Ha) as [Hinv' _]. by eapply map_inv_set_call.
  - eapply map_inv_set_call; [done..|]. intros g i' st' [= <- <- <-]. by eapply H6.
  - by eapply map_inv_set_call.
  - by eapply Start_inv.
Qed.

(** C20: however calls of [Get] and the start of the map interleave, there is one
    informer per kind: two calls for a kind get the same, and calls for two
    kinds never do; no informer is run before the map is started, and once it
    is, every informer of the map has been run, and none twice; and a call that
    returns an informer as started returns one that was run. *)
Theorem one_informer_per_kind s :
  rtc calls_step new_calls s →
  let ip := cs_map s in
  (∀ n n' c c' gvk gvk' i i' st st',
     cs_calls s !! n = Some c → cs_calls s !! n' = Some c' →
     got c = Some (gvk, i, st) → got c' = Some (gvk', i', st') → gvk = gvk' ↔ i = i')
  ∧ NoDup (im_runs ip)
  ∧ (im_started ip = false → im_runs ip = [])
  ∧ (im_started ip = true → ∀ i, i ∈ im_runs ip ↔ ∃ gvk, im_informersByGVK ip !! gvk = Some i)
  ∧ (∀ n c gvk i, cs_calls s !! n = Some c → got c = Some (gvk, i, true) → i ∈ im_runs ip).
Proof.
  intros Hsteps ip.
  assert (Hinv : map_inv s).
  { assert (H0 : map_inv new_calls).
    { split; [done|]. split; [done|]. split; [constructor|]. split; [|done].
      intros i. cbn. rewrite elem_of_nil. split; [done|]. by intros [? _]. }
    induction Hsteps; [done|]. eauto using calls_step_inv. }
  destruct Hinv as (H1 & _ & H3 & H4 & _ & H6). fold ip in H1, H3, H4, H6. split; [|split; [done|split; [|split]]].
  - intros n n' c c' gvk gvk' i i' st st' Hn Hn' Hc Hc'.
    destruct (H6 _ _ _ _ _ Hn Hc) as [Hi _], (H6 _ _ _ _ _ Hn' Hc') as [Hi' _]. split.
    + intros ->. congruence.
    + intros ->. by eapply H1.
  - intros Hst. destruct (im_runs ip) as [|i l]; [done|].
    assert (i ∈ i :: l) as [? _]%H4 by (by left). congruence.
  - intros Hst i. rewrite H4. naive_solver.
  - intros n c gvk i Hn Hc. destruct (H6 _ _ _ _ _ Hn Hc) as [Hi Hst]. apply H4. eauto.
Qed.
End map.

(** ** Three maps (deleg_map.go), and the informer cache (informer_cache.go) *)

Inductive Projection := Structured | UnstructuredMap | MetadataMap.

(** Which of the maps [InformersMap.Get] asks. *)
Definition which_map (t : GoType) : Projection :=
  match t with
  | Unstructured | UnstructuredList => UnstructuredMap
  | PartialObjectMetadata | PartialObjectMetadataList => MetadataMap
  | Typed _ => Structured
  end.

Section informer_cache.
Context {W R : Type}.
Variable Scheme_ : Scheme.
(** [Get] of one of the maps: whether it is started, and the reader of the
    entry. *)
Variable specific_Get : Projection → GVK → GoType → W → W * result (bool * R).
(** Reads from a reader. *)
Variable reader_Get : R → NamespacedName → Object → W → Object * W * option error.
Variable reader_List : R → ObjectList → W → ObjectList * W * option error.
(** The Go type of a pointer to an element of a list type's items, if that is an
    object. *)
Variable element_type : GoType → option GoType.

Definition InformersMap_Get (gvk : GVK) (t : GoType) (w : W) : W * result (bool * R) :=
  specific_Get (which_map t) gvk t w.

Definition ErrCacheNotStarted : error := ErrorString "the cache is not started, can not read objects".

Definition informerCache_Get (key : NamespacedName) (out : Object) (w : W) : Object * W * option error :=
  match GVKForObject out Scheme_ with
  | Err err => (out, w, Some err)
  | Ok gvk =>
      match InformersMap_Get gvk (o_type out) w with
      | (w, Err err) => (out, w, Some err)
      | (w, Ok (false, _)) => (out, w, Some ErrCacheNotStarted)
      | (w, Ok (true, cache)) => reader_Get cache key out w
      end
  end.

Definition err_non_list : error := ErrorString "non-list type passed as output".
Definition err_element : error := ErrorString "cannot get cache, its element is not a runtime.Object".

Definition objectTypeForListObject (l : ObjectList) : result (GVK * GoType) :=
  match GVKForList l Scheme_ with
  | Err err => Err err
  | Ok gvk =>
      if negb (HasSuffix (gvk_Kind gvk) "List") then Err err_non_list
      else
        let gvk := mkGVK (gvk_Group gvk) (gvk_Version gvk)
                     (str_take (String.length (gvk_Kind gvk) - 4) (gvk_Kind gvk)) in
        match ol_type l with
        | UnstructuredList => Ok (gvk, Unstructured)
        | t => match element_type t with
               | Some e => Ok (gvk, e)
               | None => Err err_element
               end
        end
  end.

Definition informerCache_List (out : ObjectList) (w : W) : ObjectList * W * option error :=
  match objectTypeForListObject out with
  | Err err => (out, w, Some err)
  | Ok (gvk, cacheTypeObj) =>
      match InformersMap_Get gvk cacheTypeObj w with
      | (w, Err err) => (out, w, Some err)
      | (w, Ok (false, _)) => (out, w, Some ErrCacheNotStarted)
      | (w, Ok (true, cache)) => reader_List cache out w
      end
  end.

(** A list is read through the informer of its objects: the same map and the
    same kind as when one of them is read. *)
Lemma list_and_object_share_informer l obj kind g v :
  GVKForList l Scheme_ = Ok (mkGVK g v (kind +:+ "List")) → GVKForObject obj Scheme_ = Ok (mkGVK g v kind) →
  (match ol_type l with
   | UnstructuredList => o_type obj = Unstructured
   | t => element_type t = Some (o_type obj)
   end) →
  objectTypeForListObject l = Ok (mkGVK g v kind, o_type obj).
Proof.
  intros Hl _ Ht. unfold objectTypeForListObject. rewrite Hl. cbn [gvk_Kind gvk_Group gvk_Version].
  rewrite HasSuffix_app. cbn [negb].
  assert (Hk : str_take (String.length (kind +:+ "List") - 4) (kind +:+ "List") = kind).
  { rewrite str_app_length, Nat.add_sub. apply substring_app_l. }
  rewrite Hk. destruct (ol_type l); by rewrite Ht.
Qed.
End informer_cache.

(** ** At a concrete input *)

Definition sample_kind : GVK := mkGVK "" "v1" "Pod".

(** Two calls for a kind that both miss it, and the start of the map between. *)
Definition racing_calls : Calls :=
  mkCalls (mkInformersMap {[ sample_kind := 0%nat ]} true true [0%nat] 1)
    [Syncing sample_kind 0 false; Syncing sample_kind 0 true].

Lemma racing_steps : rtc (@calls_step (some_range _ _)) new_calls racing_calls.
Proof.
  eapply rtc_l; [apply (step_call _ sample_kind)|].
  eapply rtc_l; [apply (step_call _ sample_kind)|].
  eapply rtc_l; [apply (step_missing _ 0 sample_kind false); reflexivity|].
  eapply rtc_l; [apply (step_missing _ 1 sample_kind false); reflexivity|].
  eapply rtc_l; [eapply (step_added _ 0 sample_kind None); reflexivity|].
  eapply rtc_l; [eapply step_Start; reflexivity|].
  eapply rtc_l; [eapply (step_added _ 1 sample_kind None); reflexivity|].
  apply rtc_refl.
Qed.

Lemma one_informer_per_kind_witness :
  rtc (@calls_step (some_range _ _)) new_calls racing_calls ∧ 0%nat ∈ im_runs (cs_map racing_calls).
Proof.
  split; [exact racing_steps|].
  destruct (@one_informer_per_kind (some_range _ _) racing_calls racing_steps) as (_ & _ & _ & _ & Hrun).
  apply (Hrun 1%nat (Syncing sample_kind 0 true) sample_kind 0%nat); reflexivity.
Defined.
