(* ===== verification/ListWatch.v ===== *)
(** * The list-watches of a cache (src/pkg/cache/internal)

    What the informers of a cache send to the API server: the selectors of a kind
    (selector.go), the three ways to make a list-watch and what an informer is
    made of (informers_map.go), the three maps of a cache (deleg_map.go), and
    the handlers of metadata informers, which restore the kind of the objects
    (metadata_infomer_wrapper.go).  The API server is reached through the classes
    of RestClient. *)

From S2P Require Export InformersMap RestClient Handlers.

(** ** Selectors (selector.go) *)

(** [Selector]; a nil selector is [None]. *)
Record CacheSelector := mkSelector { cs_Label : option Selector; cs_Field : option Selector }.

Definition Selector_ApplyToList (s : CacheSelector) (listOpts : RawListOptions) : RawListOptions :=
  mkRawList
    (match cs_Label s with Some l => sel_String l | None => rl_LabelSelector listOpts end)
    (match cs_Field s with Some f => sel_String f | None => rl_FieldSelector listOpts end)
    (rl_Watch listOpts) (rl_Limit listOpts) (rl_Continue listOpts) (rl_rest listOpts).

(** [ip.selectors[gvk]]: a kind without an entry has the zero selector. *)
Definition selector_of (selectors : gmap GVK CacheSelector) (gvk : GVK) : CacheSelector :=
  default (mkSelector None None) (selectors !! gvk).

(** [opts.Watch = true]. *)
Definition set_Watch (opts : RawListOptions) : RawListOptions :=
  mkRawList (rl_LabelSelector opts) (rl_FieldSelector opts) true (rl_Limit opts) (rl_Continue opts) (rl_rest opts).

Section list_watch.
Context {W : Type} `{RestAPI W, !WatchAPI (W := W)}.
Implicit Types w : W.

(** Client-go's dynamic and metadata clients, and [scheme.New] of the kind of a
    list. *)
Class ListAPI := {
  dynamic_NewForConfig : RestConfig → option error;
  metadata_NewForConfig : RestConfig → option error;
  dynamic_List : GVR → option string → RawListOptions → W → result ObjectList * W;
  scheme_New : Scheme → GVK → result ObjectList;
}.
Context `{!ListAPI}.

(** What a list returns, next to an error or not. *)
Record ListWatch := mkListWatch {
  ListFunc : RawListOptions → W → option ObjectList * option error * W;
  WatchFunc : RawListOptions → W → result nat * W;
}.

(** ** The maps of informers (informers_map.go)

    The fields of a [specificInformersMap] that never change; those that do are
    the record of InformersMap.  The function that makes list-watches is told by
    what it makes them for. *)
Record InformersConfig := mkInformersConfig {
  ip_config : RestConfig;
  ip_Scheme : Scheme;
  ip_mapper : Mapper W;
  ip_resync : Z;
  ip_namespace : string;
  ip_selectors : gmap GVK CacheSelector;
  ip_createListWatcher : Projection;
}.
Implicit Types (ip : InformersConfig) (gvk : GVK) (mapping : RESTMapping).

(** [ip.namespace != "" && mapping.Scope.Name() != meta.RESTScopeNameRoot]. *)
Definition isNamespaceScoped ip mapping : bool :=
  bool_decide (ip_namespace ip ≠ "" ∧ mapping_Scope mapping ≠ ScopeRoot).

Definition structured_request ip mapping (opts : RawListOptions) : RestRequest :=
  mkRequest Get_ (NamespaceIfScoped (ip_namespace ip) (isNamespaceScoped ip mapping))
    (gvr_Resource (mapping_Resource mapping)) None None (Some (SchemeParamCodec, ListParams opts)) None.

Definition createStructuredListWatch gvk ip w : result ListWatch * W :=
  match ip_mapper ip (gvk_GroupKind gvk) [gvk_Version gvk] w with
  | (Err err, w) => (Err err, w)
  | (Ok mapping, w) =>
      match RESTClientForGVK gvk false (ip_config ip) with
      | Err err => (Err err, w)
      | Ok client =>
          let listGVK := mkGVK (gvk_Group gvk) (gvk_Version gvk) (gvk_Kind gvk +:+ "List") in
          match scheme_New (ip_Scheme ip) listGVK with
          | Err err => (Err err, w)
          | Ok listObj =>
              (Ok (mkListWatch
                 (λ opts w,
                    let opts := Selector_ApplyToList (selector_of (ip_selectors ip) gvk) opts in
                    match rest_Do client (structured_request ip mapping opts) w with
                    | (Err err, w) => (Some listObj, Some err, w)
                    | (Ok body, w) => let '(res, err) := Into_list client body listObj in (Some res, err, w)
                    end)
                 (λ opts w,
                    let opts := set_Watch (Selector_ApplyToList (selector_of (ip_selectors ip) gvk) opts) in
                    rest_Watch client (structured_request ip mapping opts) w)), w)
          end
      end
  end.

(** What a dynamic or a metadata client returns from a list. *)
Definition list_or_nil (r : result ObjectList * W) : option ObjectList * option error * W :=
  match r with
  | (Ok l, w) => (Some l, None, w)
  | (Err err, w) => (None, Some err, w)
  end.

(** [.Namespace(ip.namespace)], when it is called. *)
Definition in_namespace ip mapping : option string :=
  if isNamespaceScoped ip mapping then Some (ip_namespace ip) else None.

(** [rest.CopyConfig] without the serializer. *)
Definition without_serializer (cfg : RestConfig) : RestConfig :=
  mkConfig (cfg_GroupVersion cfg) (cfg_APIPath cfg) (cfg_UserAgent cfg) (cfg_ContentType cfg) None (cfg_rest cfg).

Definition createUnstructuredListWatch gvk ip w : result ListWatch * W :=
  match ip_mapper ip (gvk_GroupKind gvk) [gvk_Version gvk] w with
  | (Err err, w) => (Err err, w)
  | (Ok mapping, w) =>
      match dynamic_NewForConfig (without_serializer (ip_config ip)) with
      | Some err => (Err err, w)
      | None =>
          (Ok (mkListWatch
             (λ opts w,
                let opts := Selector_ApplyToList (selector_of (ip_selectors ip) gvk) opts in
                list_or_nil (dynamic_List (mapping_Resource mapping) (in_namespace ip mapping) opts w))
             (λ opts w,
                let opts := set_Watch (Selector_ApplyToList (selector_of (ip_selectors ip) gvk) opts) in
                dynamic_Watch (mapping_Resource mapping) (in_namespace ip mapping) opts w)), w)
      end
  end.

Definition createMetadataListWatch gvk ip w : result ListWatch * W :=
  match ip_mapper ip (gvk_GroupKind gvk) [gvk_Version gvk] w with
  | (Err err, w) => (Err err, w)
  | (Ok mapping, w) =>
      match metadata_NewForConfig (without_serializer (ip_config ip)) with
      | Some err => (Err err, w)
      | None =>
          (Ok (mkListWatch
             (λ opts w,
                let opts := Selector_ApplyToList (selector_of (ip_selectors ip) gvk) opts in
                list_or_nil (metadata_List
                  (mkMetadataRequest (mapping_Resource mapping) (in_namespace ip mapping) (MList opts)) w))
             (λ opts w,
                let opts := set_Watch (Selector_ApplyToList (selector_of (ip_selectors ip) gvk) opts) in
                metadata_Watch
                  (mkMetadataRequest (mapping_Resource mapping) (in_namespace ip mapping) (MWatch opts)) w)), w)
      end
  end.

Definition createListWatcher gvk ip w : result ListWatch * W :=
  match ip_createListWatcher ip with
  | Structured => createStructuredListWatch gvk ip w
  | UnstructuredMap => createUnstructuredListWatch gvk ip w
  | MetadataMap => createMetadataListWatch gvk ip w
  end.

(** What [addInformerToMap] makes of a kind that is not in the map: the
    list-watch, whether the informer restores kinds, and the scope its reader is
    given.  [addInformerToMap] of InformersMap takes the error of this. *)
Definition new_entry gvk (t : GoType) ip w : result (ListWatch * bool * RESTScopeName) * W :=
  match createListWatcher gvk ip w with
  | (Err err, w) => (Err err, w)
  | (Ok lw, w) =>
      match ip_mapper ip (gvk_GroupKind gvk) [gvk_Version gvk] w with
      | (Err err, w) => (Err err, w)
      | (Ok rm, w) =>
          let preserves := match t with PartialObjectMetadata | PartialObjectMetadataList => true | _ => false end in
          (Ok (lw, preserves, mapping_Scope rm), w)
      end
  end.

(** ** The three maps (deleg_map.go) *)

Record InformersMap := mkInformersMaps {
  ms_structured : InformersConfig;
  ms_unstructured : InformersConfig;
  ms_metadata : InformersConfig;
  ms_Scheme : Scheme;
}.

Definition NewInformersMap (config : RestConfig) (scheme : Scheme) (mapper : Mapper W) (resync : Z)
    (namespace : string) (selectors : gmap GVK CacheSelector) : InformersMap :=
  let new := mkInformersConfig config scheme mapper resync namespace selectors in
  mkInformersMaps (new Structured) (new UnstructuredMap) (new MetadataMap) scheme.

(** The map [Get] asks for a Go type. *)
Definition map_for (m : InformersMap) (t : GoType) : InformersConfig :=
  match which_map t with
  | Structured => ms_structured m
  | UnstructuredMap => ms_unstructured m
  | MetadataMap => ms_metadata m
  end.
End list_watch.

Arguments ListAPI : clear implicits.
Arguments ListWatch : clear implicits.
Arguments InformersConfig : clear implicits.
Arguments InformersMap : clear implicits.

(** ** What a list-watch asks the API server for *)

(** The resource in the URL of a list or a watch, the namespace, and the
    parameters. *)
Record Target := mkTarget {
  tg_Resource : GVR;
  tg_Namespace : option string;
  tg_Options : RawListOptions;
  tg_is_watch : bool;
}.

(** What client-go sends for each call, in the order it is sent: the group and
    version of a REST client are those of its configuration. *)
Class ListsOnWire (W : Type) `{RestAPI W, !WatchAPI (W := W), !ListAPI W} := {
  on_wire : W → list Target;
  wire_rest_Do cfg gv ns res codec p w :
    cfg_GroupVersion cfg = Some gv →
    on_wire (rest_Do cfg (mkRequest Get_ ns res None None (Some (codec, ListParams p)) None) w).2
    = on_wire w ++ [mkTarget (mkGVR (gv_Group gv) (gv_Version gv) res) ns p false];
  wire_rest_Watch cfg gv ns res codec p w :
    cfg_GroupVersion cfg = Some gv →
    on_wire (rest_Watch cfg (mkRequest Get_ ns res None None (Some (codec, ListParams p)) None) w).2
    = on_wire w ++ [mkTarget (mkGVR (gv_Group gv) (gv_Version gv) res) ns p true];
  wire_dynamic_List gvr ns p w : on_wire (dynamic_List gvr ns p w).2 = on_wire w ++ [mkTarget gvr ns p false];
  wire_dynamic_Watch gvr ns p w : on_wire (dynamic_Watch gvr ns p w).2 = on_wire w ++ [mkTarget gvr ns p true];
  wire_metadata_List gvr ns p w :
    on_wire (metadata_List (mkMetadataRequest gvr ns (MList p)) w).2 = on_wire w ++ [mkTarget gvr ns p false];
  wire_metadata_Watch gvr ns p w :
    on_wire (metadata_Watch (mkMetadataRequest gvr ns (MWatch p)) w).2 = on_wire w ++ [mkTarget gvr ns p true];
}.

(** A mapping asked for with a version is one of that group and version. *)
Class VersionedMapper {W} (mapper : Mapper W) : Prop :=
  mapper_versions gk v w m w' : mapper gk [v] w = (Ok m, w') →
    gvr_Group (mapping_Resource m) = gk_Group gk ∧ gvr_Version (mapping_Resource m) = v.

Section targets.
Context `{ListsOnWire W}.
Implicit Types (ip : InformersConfig W) (gvk : GVK) (w : W).

Lemma in_namespace_IfScoped ip mapping :
  NamespaceIfScoped (ip_namespace ip) (isNamespaceScoped ip mapping) = in_namespace ip mapping.
Proof. done. Qed.

Lemma RESTClientForGVK_version gvk cfg client :
  RESTClientForGVK gvk false cfg = Ok client → cfg_GroupVersion client = Some (gvk_GroupVersion gvk).
Proof. unfold RESTClientForGVK. case_match; [done|]. by intros [= <-]. Qed.

Lemma list_or_nil_world (r : result ObjectList * W) : (list_or_nil r).2 = r.2.
Proof. by destruct r as [[]]. Qed.

(** Whichever way it is made, a list-watch of a kind asks for the resource the
    mapper has for the kind, where and with the selectors the map was made for. *)
Lemma createListWatcher_targets gvk ip w lw w' :
  VersionedMapper (ip_mapper ip) → createListWatcher gvk ip w = (Ok lw, w') →
  ∃ mapping, ip_mapper ip (gvk_GroupKind gvk) [gvk_Version gvk] w = (Ok mapping, w')
  ∧ ∀ opts v,
      let params := Selector_ApplyToList (selector_of (ip_selectors ip) gvk) opts in
      on_wire (ListFunc lw opts v).2
      = on_wire v ++ [mkTarget (mapping_Resource mapping) (in_namespace ip mapping) params false]
      ∧ on_wire (WatchFunc lw opts v).2
      = on_wire v ++ [mkTarget (mapping_Resource mapping) (in_namespace ip mapping) (set_Watch params) true].
Proof.
  intros Hv. unfold createListWatcher, createStructuredListWatch, createUnstructuredListWatch, createMetadataListWatch.
  destruct (ip_mapper ip (gvk_GroupKind gvk) [gvk_Version gvk] w) as [[mapping|err] w1] eqn:Hm;
    [|by destruct (ip_createListWatcher ip)].
  destruct (ip_createListWatcher ip).
  - destruct (RESTClientForGVK _ _ _) as [client|] eqn:Hc; [|done]. apply RESTClientForGVK_version in Hc.
    destruct (scheme_New _ _) as [listObj|]; [|done]. intros [= <- <-]. exists mapping. split; [done|].
    apply Hv in Hm as [Hg Hver]. cbn in Hg.
    assert (mapping_Resource mapping = mkGVR (gvk_Group gvk) (gvk_Version gvk) (gvr_Resource (mapping_Resource mapping)))
      as Hres by (destruct (mapping_Resource mapping); cbn in *; by subst).
    intros opts v. rewrite Hres. split; cbn [ListFunc WatchFunc].
    + pose proof (wire_rest_Do client _ (in_namespace ip mapping) (gvr_Resource (mapping_Resource mapping))
        SchemeParamCodec (Selector_ApplyToList (selector_of (ip_selectors ip) gvk) opts) v Hc) as Hd.
      unfold structured_request. rewrite in_namespace_IfScoped.
      destruct (rest_Do _ _ v) as [[body|err] v1]; [destruct (Into_list _ _ _)|]; apply Hd.
    + unfold structured_request. rewrite in_namespace_IfScoped. by apply (wire_rest_Watch client _ _ _ _ _ v Hc).
  - destruct (dynamic_NewForConfig _); [done|]. intros [= <- <-]. exists mapping. split; [done|].
    intros opts v. cbn [ListFunc WatchFunc]. rewrite list_or_nil_world. by rewrite wire_dynamic_List, wire_dynamic_Watch.
  - destruct (metadata_NewForConfig _); [done|]. intros [= <- <-]. exists mapping. split; [done|].
    intros opts v. cbn [ListFunc WatchFunc]. rewrite list_or_nil_world. by rewrite wire_metadata_List, wire_metadata_Watch.
Qed.
End targets.

(** ** Handlers of metadata informers (metadata_infomer_wrapper.go)

    The objects an informer hands over are those of its store, so the handlers
    share them: they are locations of a memory. *)

Inductive StoredValue :=
  | Stored (l : loc)
  | Tombstone (key : string) (l : loc)
  | NotAnObject.

Inductive Notification :=
  | NotifyAdd (obj : StoredValue)
  | NotifyUpdate (oldObj newObj : StoredValue)
  | NotifyDelete (obj : StoredValue).

Section preserve.
(** Which Go types implement [schema.ObjectKind], and the kind to restore. *)
Variable is_ObjectKind : GoType → bool.
Variable h_gvk : GVK.
Implicit Types (h : gmap loc Object) (v : StoredValue) (n : Notification).

Definition resetGroupVersionKind v h : gmap loc Object :=
  match v with
  | Stored l => alter (λ o, if is_ObjectKind (o_type o) then SetGroupVersionKind h_gvk o else o) l h
  | _ => h
  end.

(** What an informer hands over, read from the memory. *)
Definition value_of h v : InformerValue :=
  match v with
  | Stored l => match h !! l with Some o => AnObject o | None => OtherValue end
  | Tombstone key l => DeletedFinalStateUnknown key match h !! l with Some o => AnObject o | None => OtherValue end
  | NotAnObject => OtherValue
  end.

(** [OnAdd], [OnUpdate] and [OnDelete] of [handlerPreserveGVK]: the memory, and
    what the wrapped handler is called with. *)
Definition preserve_OnAdd v h : gmap loc Object * list InformerValue :=
  let h := resetGroupVersionKind v h in (h, [value_of h v]).
Definition preserve_OnUpdate oldObj newObj h : gmap loc Object * list InformerValue :=
  let h := resetGroupVersionKind newObj (resetGroupVersionKind oldObj h) in (h, [value_of h oldObj; value_of h newObj]).
Definition preserve_OnDelete v h : gmap loc Object * list InformerValue :=
  let h := resetGroupVersionKind v h in (h, [value_of h v]).

Definition preserve_notify n h : gmap loc Object * list InformerValue :=
  match n with
  | NotifyAdd v => preserve_OnAdd v h
  | NotifyUpdate old new => preserve_OnUpdate old new h
  | NotifyDelete v => preserve_OnDelete v h
  end.

(** A sequence of notifications, with everything the wrapped handler gets. *)
Fixpoint preserve_all (ns : list Notification) h : gmap loc Object * list InformerValue :=
  match ns with
  | [] => (h, [])
  | n :: ns =>
      let '(h, vs) := preserve_notify n h in
      let '(h, vs') := preserve_all ns h in (h, vs ++ vs')
  end.

(** The object of a value, in a tombstone or not. *)
Definition carried (v : InformerValue) : option Object :=
  match v with AnObject o | DeletedFinalStateUnknown _ (AnObject o) => Some o | _ => None end.

Definition locs_of n : list StoredValue :=
  match n with NotifyAdd v | NotifyDelete v => [v] | NotifyUpdate old new => [old; new] end.

(** A tombstone holds the last state the informer had, which it has told of
    before. *)
Fixpoint tombstones_known (seen : gset loc) (ns : list Notification) : Prop :=
  match ns with
  | [] => True
  | n :: ns =>
      (∀ key l, Tombstone key l ∈ locs_of n → l ∈ seen)
      ∧ tombstones_known (foldr (λ v seen, match v with Stored l => {[l]} ∪ seen | _ => seen end) seen (locs_of n)) ns
  end.

(** The objects seen are of the kind. *)
Definition kinds_set (seen : gset loc) h : Prop := ∀ l o, l ∈ seen → h !! l = Some o → o_gvk o = h_gvk.
Definition all_ObjectKinds h : Prop := ∀ l o, h !! l = Some o → is_ObjectKind (o_type o) = true.

Lemma reset_kinds v h seen :
  all_ObjectKinds h → kinds_set seen h →
  all_ObjectKinds (resetGroupVersionKind v h)
  ∧ kinds_set (match v with Stored l => {[l]} ∪ seen | _ => seen end) (resetGroupVersionKind v h).
Proof.
  intros Hall Hk. destruct v as [l| |]; [|done..]. cbn. split.
  - intros k o. rewrite lookup_alter_Some. intros [(-> & o0 & Ho & ->)|[_ Ho]]; [|by eapply Hall].
    rewrite (Hall _ _ Ho). cbn. by apply Hall in Ho.
  - intros k o Hin. rewrite lookup_alter_Some. intros [(-> & o0 & Ho & ->)|[Hne Ho]].
    + by rewrite (Hall _ _ Ho).
    + eapply Hk; [|done]. set_solver.
Qed.

Lemma kinds_set_mono seen seen' h : seen' ⊆ seen → kinds_set seen h → kinds_set seen' h.
Proof. intros Hs Hk l o Hl. apply Hk. set_solver. Qed.

Lemma carried_kind v h seen o :
  kinds_set seen h → (match v with Stored l | Tombstone _ l => l ∈ seen | NotAnObject => True end) →
  carried (value_of h v) = Some o → o_gvk o = h_gvk.
Proof. intros Hk Hl. destruct v as [l|k l|]; cbn; [| |done]; destruct (h !! l) eqn:Ho; intros [= <-]; by eapply Hk. Qed.

Definition see (v : StoredValue) (seen : gset loc) : gset loc :=
  match v with Stored l => {[l]} ∪ seen | _ => seen end.

Lemma preserve_notify_kinds n h seen :
  all_ObjectKinds h → kinds_set seen h → (∀ key l, Tombstone key l ∈ locs_of n → l ∈ seen) →
  all_ObjectKinds (preserve_notify n h).1
  ∧ kinds_set (foldr see seen (locs_of n)) (preserve_notify n h).1
  ∧ ∀ x o, x ∈ (preserve_notify n h).2 → carried x = Some o → o_gvk o = h_gvk.
Proof.
  intros Hall Hk Ht.
  assert (∀ u, u ∈ locs_of n → match u with Stored l | Tombstone _ l => l ∈ foldr see seen (locs_of n) | _ => True end) as Hin.
  { intros u Hu. destruct u as [l|key l|]; [| |done].
    - destruct n; cbn in *; rewrite ?elem_of_cons in Hu; unfold see; repeat case_match; set_solver.
    - specialize (Ht _ _ Hu). destruct n; cbn; unfold see; repeat case_match; set_solver. }
  destruct n as [v|old new|v]; cbn in *.
  1, 3: destruct (reset_kinds v h seen Hall Hk) as [Hall' Hk']; do 2 (split; [done|]);
    intros x o ->%list_elem_of_singleton; eapply carried_kind; [exact Hk'|apply Hin; by left].
  destruct (reset_kinds old h seen Hall Hk) as [Hall1 Hk1].
  destruct (reset_kinds new _ _ Hall1 Hk1) as [Hall2 Hk2]. fold (see old seen) in Hk2.
  assert (see old (see new seen) ⊆ match new with Stored l => {[l]} ∪ see old seen | _ => see old seen end) as Hsub
    by (destruct old, new; cbn; set_solver).
  split; [done|]. split; [by eapply kinds_set_mono|].
  intros x o [->|[->|[]%not_elem_of_nil]%elem_of_cons]%elem_of_cons;
    (eapply carried_kind; [by eapply kinds_set_mono|]).
  - apply (Hin old). by left.
  - apply (Hin new). right. by left.
Qed.

(** Whatever an informer for metadata notifies its handlers of, every object they
    are handed is of the kind the informer is for, also those in tombstones, if
    these are objects the informer has told of before: the kind is restored in
    the memory the informer and its handlers share. *)
Lemma metadata_handlers_see_kind ns h seen :
  all_ObjectKinds h → kinds_set seen h → tombstones_known seen ns →
  ∀ x o, x ∈ (preserve_all ns h).2 → carried x = Some o → o_gvk o = h_gvk.
Proof.
  revert h seen. induction ns as [|n ns IH]; intros h seen Hall Hk; cbn [preserve_all tombstones_known].
  { by intros _ v o []%not_elem_of_nil. }
  intros [Ht Hns]. destruct (preserve_notify_kinds n h seen Hall Hk Ht) as (Hall' & Hk' & Hv).
  destruct (preserve_notify n h) as [h1 vs]. cbn in *. specialize (IH h1 _ Hall' Hk' Hns).
  destruct (preserve_all ns h1) as [h2 vs']. cbn in *. intros v o [Hin|Hin]%elem_of_app; eauto.
Qed.
End preserve.
