(* ===== verification/CacheSync.v ===== *)
(** * Waiting for the informers of a cache

    [InformersMap.WaitForCacheSync] (src/pkg/cache/internal/deleg_map.go) collects
    the informers of three maps, waits until each map is started, and then until
    what it has collected has synced, while other goroutines add informers to the
    maps and start them ([Calls] of InformersMap). *)

From S2P Require Export InformersMap.

#[export] Instance Projection_eq_dec : EqDecision Projection.
Proof. solve_decision. Defined.

(** Where the call is: collecting the functions [HasSynced] of the maps that are
    left, waiting for the maps that are left to be started, polling, or done. *)
Inductive Waiting :=
  | Collecting (todo : list Projection) (syncedFuncs : list (Projection * nat))
  | AwaitingStart (todo : list Projection) (syncedFuncs : list (Projection * nat))
  | Polling (syncedFuncs : list (Projection * nat))
  | Waited (synced : bool).

(** The maps with the calls in flight, the informers that have synced, and the
    call of [WaitForCacheSync]. *)
Record SyncState := mkSync {
  ss_maps : Projection → Calls;
  ss_synced : list (Projection * nat);
  ss_wait : Waiting;
}.

Definition three_maps : list Projection := [Structured; UnstructuredMap; MetadataMap].
Definition WaitForCacheSync_called : Waiting := Collecting three_maps [].

Definition set_map (p : Projection) (c : Calls) (maps : Projection → Calls) : Projection → Calls :=
  λ p', if decide (p' = p) then c else maps p'.

Section sync.
Context `{!MapRange GVK nat}.
Implicit Types (s : SyncState) (p : Projection).

(** [HasSyncedFuncs]. *)
Definition HasSyncedFuncs p s : list (Projection * nat) :=
  pair p <$> (map_range (im_informersByGVK (cs_map (ss_maps s p)))).*2.

(** A step of the call; [ctx_done] tells whether the context is.  [None] while it
    has to wait. *)
Definition wait_run (ctx_done : bool) s : option Waiting :=
  match ss_wait s with
  | Collecting (p :: todo) fs => Some (Collecting todo (fs ++ HasSyncedFuncs p s))
  | Collecting [] fs => Some (AwaitingStart three_maps fs)
  | AwaitingStart (p :: todo) fs =>
      if im_startWait_closed (cs_map (ss_maps s p)) then Some (AwaitingStart todo fs)
      else if ctx_done then Some (Waited false) else None
  | AwaitingStart [] fs => Some (Polling fs)
  | Polling fs =>
      if forallb (λ f, bool_decide (f ∈ ss_synced s)) fs then Some (Waited true)
      else if ctx_done then Some (Waited false) else None
  | Waited _ => None
  end.

(** Something happens to one of the maps, an informer that runs has synced, or the
    call goes on. *)
Inductive sync_step s : SyncState → Prop :=
  | sync_map p c : calls_step (ss_maps s p) c → sync_step s (mkSync (set_map p c (ss_maps s)) (ss_synced s) (ss_wait s))
  | sync_informer p i :
      i ∈ im_runs (cs_map (ss_maps s p)) → sync_step s (mkSync (ss_maps s) ((p, i) :: ss_synced s) (ss_wait s))
  | sync_wait ctx_done wt : wait_run ctx_done s = Some wt → sync_step s (mkSync (ss_maps s) (ss_synced s) wt).

Definition in_map s (f : Projection * nat) : Prop :=
  ∃ gvk, im_informersByGVK (cs_map (ss_maps s f.1)) !! gvk = Some f.2.

(** What the maps have, they keep. *)
Lemma calls_step_grows c c' :
  calls_step c c' →
  im_informersByGVK (cs_map c) ⊆ im_informersByGVK (cs_map c')
  ∧ (im_started (cs_map c) = true → im_started (cs_map c') = true)
  ∧ (im_startWait_closed (cs_map c) = im_started (cs_map c) →
     im_startWait_closed (cs_map c') = im_started (cs_map c')).
Proof.
  assert (∀ gvk created ip ip' r, addInformerToMap gvk created ip = (ip', r) →
    im_informersByGVK ip ⊆ im_informersByGVK ip' ∧ (im_started ip = true → im_started ip' = true)
    ∧ (im_startWait_closed ip = im_started ip → im_startWait_closed ip' = im_started ip')) as Hadd.
  { intros gvk created ip ip' r. unfold addInformerToMap.
    destruct (im_informersByGVK ip !! gvk) eqn:Hg; [by intros [= <- _]|].
    destruct created; [by intros [= <- _]|]. intros [= <- _].
    destruct (im_started ip) eqn:Hst; cbn; rewrite ?Hst; (split; [by apply insert_subseteq|done]). }
  destruct 1; cbn; try done; try by eapply Hadd.
  revert H. unfold Start. case_match; [done|]. by intros [= <-].
Qed.

Lemma sync_step_grows s s' :
  sync_step s s' →
  (∀ f, in_map s f → in_map s' f) ∧ (∀ f, f ∈ ss_synced s → f ∈ ss_synced s')
  ∧ (∀ p, im_started (cs_map (ss_maps s p)) = true → im_started (cs_map (ss_maps s' p)) = true).
Proof.
  destruct 1 as [p c Hc|p i Hi|d wt Hr]; cbn; [|split; [done|split; [by right|done]]|done].
  apply calls_step_grows in Hc as (Hsub & Hst & _). unfold in_map. cbn. split; [|split; [done|]].
  - intros [p' i]. cbn. unfold set_map. case_decide; [subst|done]. intros [gvk Hg]. exists gvk. by eapply lookup_weaken.
  - intros p' Hp'. unfold set_map. case_decide; [subst; by apply Hst|done].
Qed.

Lemma calls_step_runs c c' i : calls_step c c' → i ∈ im_runs (cs_map c) → i ∈ im_runs (cs_map c').
Proof.
  assert (∀ gvk created ip ip' r, addInformerToMap gvk created ip = (ip', r) → i ∈ im_runs ip → i ∈ im_runs ip') as Hadd.
  { intros gvk created ip ip' r. unfold addInformerToMap. intros Ha Hi.
    repeat case_match; simplify_eq/=; rewrite ?elem_of_app; auto. }
  destruct 1; cbn; try done; try by eapply Hadd.
  revert H. unfold Start. case_match; [done|]. intros [= <-]. cbn. rewrite elem_of_app. by left.
Qed.

(** What the call knows about the informers [P] that were there when it began:
    it is going to collect them or is going to wait for them; and a map's channel
    is closed when the map is started. *)
Record wait_inv (P : Projection * nat → Prop) s : Prop := {
  wi_in : ∀ f, P f → in_map s f;
  wi_closed : ∀ p, im_startWait_closed (cs_map (ss_maps s p)) = im_started (cs_map (ss_maps s p));
  wi_wait : match ss_wait s with
            | Collecting todo fs => ∀ f, P f → f.1 ∈ todo ∨ f ∈ fs
            | AwaitingStart todo fs =>
                (∀ f, P f → f ∈ fs) ∧ ∀ p, p ∉ todo → im_started (cs_map (ss_maps s p)) = true
            | Polling fs => (∀ f, P f → f ∈ fs) ∧ ∀ p, im_started (cs_map (ss_maps s p)) = true
            | Waited true => (∀ f, P f → f ∈ ss_synced s) ∧ ∀ p, im_started (cs_map (ss_maps s p)) = true
            | Waited false => True
            end;
}.

Lemma three_maps_all p : p ∈ three_maps.
Proof. destruct p; set_solver. Qed.

Lemma HasSyncedFuncs_in f s : in_map s f → f ∈ HasSyncedFuncs f.1 s.
Proof.
  destruct f as [p i]. intros [gvk Hg]. cbn in *. unfold HasSyncedFuncs. apply list_elem_of_fmap_2.
  apply list_elem_of_fmap. exists (gvk, i). by rewrite elem_of_map_range.
Qed.

Lemma wait_run_inv P d s wt :
  wait_inv P s → wait_run d s = Some wt → wait_inv P (mkSync (ss_maps s) (ss_synced s) wt).
Proof.
  intros [Hin Hcl Hw]. unfold wait_run. intros Hr. split; [done|done|]. cbn.
  destruct (ss_wait s) as [[|p todo] fs|[|p todo] fs|fs|b]; [..|done].
  - injection Hr as <-. split; [intros f Hf; by destruct (Hw f Hf) as [?%not_elem_of_nil|]|].
    intros p Hp. by destruct Hp; apply three_maps_all.
  - injection Hr as <-. intros f Hf. rewrite elem_of_app.
    destruct (Hw f Hf) as [[<-|Ht]%elem_of_cons|Ht]; [|by left|by right; left].
    right. right. by apply HasSyncedFuncs_in, Hin.
  - injection Hr as <-. destruct Hw as [Hf Hst]. split; [done|]. intros p. apply Hst. apply not_elem_of_nil.
  - destruct Hw as [Hf Hst]. rewrite Hcl in Hr. destruct (im_started _) eqn:Hp.
    + injection Hr as <-. split; [done|]. intros p' Hp'. destruct (decide (p' = p)) as [->|]; [done|].
      apply Hst. by intros [->|?]%elem_of_cons.
    + destruct d; [by injection Hr as <-|discriminate].
  - destruct Hw as [Hf Hst]. destruct (forallb _ _) eqn:Hall.
    + injection Hr as <-. split; [|done]. apply forallb_Forall in Hall. rewrite Forall_forall in Hall.
      intros f Pf. specialize (Hall f (Hf f Pf)). by apply bool_decide_eq_true in Hall.
    + destruct d; [by injection Hr as <-|discriminate].
Qed.

Lemma sync_step_inv P s s' : wait_inv P s → sync_step s s' → wait_inv P s'.
Proof.
  intros Hi Hstep. destruct Hstep as [p c Hc|p i Hr|d wt Hr]; [| |by eapply wait_run_inv].
  - pose proof (sync_step_grows _ _ (sync_map s p c Hc)) as (Hin & _ & Hst). destruct Hi as [Hi Hcl Hw].
    apply calls_step_grows in Hc as (_ & _ & Hclosed). split.
    + intros f Hf. by apply Hin, Hi.
    + intros p'. cbn. unfold set_map. case_decide; [subst; by apply Hclosed|done].
    + cbn [ss_wait] in *. destruct (ss_wait s) as [| | |[]]; naive_solver.
  - destruct Hi as [Hi Hcl Hw]. split; [done..|]. cbn. destruct (ss_wait s) as [| | |[]]; try done.
    destruct Hw. split; [right; auto|done].
Qed.

(** A new cache, of which a first call may wait from the beginning. *)
Definition new_cache : SyncState := mkSync (λ _, new_calls) [] WaitForCacheSync_called.

Lemma new_cache_inv : wait_inv (λ _, False) new_cache.
Proof. split; [by intros ? []|done|by intros ? []]. Qed.

(** What has synced has been run. *)
Lemma synced_run s s' :
  (∀ f, f ∈ ss_synced s → f.2 ∈ im_runs (cs_map (ss_maps s f.1))) → rtc sync_step s s' →
  ∀ f, f ∈ ss_synced s' → f.2 ∈ im_runs (cs_map (ss_maps s' f.1)).
Proof.
  intros Hrun Hsteps.
  refine (rtc_ind_r (λ s, ∀ f, f ∈ ss_synced s → f.2 ∈ im_runs (cs_map (ss_maps s f.1))) _ _ _ _ Hsteps); [done|].
  clear. intros s1 s2 _ Hs IH g. destruct Hs as [p c Hc|p i Hr|d wt Hr]; cbn; [|intros [->|?]%elem_of_cons; auto|apply IH].
  intros Hin. specialize (IH g Hin). unfold set_map. case_decide as Hp; [|done]. subst p.
  by eapply calls_step_runs.
Qed.

(** C27: When a call of [WaitForCacheSync] on a cache - a new one or one that has
    been running, with whatever informers and however many of them synced -
    returns true, however other goroutines add informers to the three maps and
    start them in the meantime, the three maps have been started and every
    informer that was in one of them when the call began has been run and has
    synced. *)
Theorem WaitForCacheSync_waits s1 s :
  rtc sync_step new_cache s1 →
  let s0 := mkSync (ss_maps s1) (ss_synced s1) WaitForCacheSync_called in
  rtc sync_step s0 s → ss_wait s = Waited true →
  (∀ p, im_started (cs_map (ss_maps s p)) = true)
  ∧ ∀ f, in_map s0 f → f ∈ ss_synced s ∧ f.2 ∈ im_runs (cs_map (ss_maps s f.1)).
Proof.
  intros Hbefore s0 Hsteps Hw.
  assert (wait_inv (λ _, False) s1) as [_ Hclosed _]
    by (refine (rtc_ind_r (wait_inv (λ _, False)) _ new_cache_inv _ _ Hbefore); intros; by eapply sync_step_inv).
  assert (wait_inv (in_map s0) s) as [Hin _ Hwait].
  { refine (rtc_ind_r (wait_inv (in_map s0)) _ _ _ _ Hsteps); [|intros; by eapply sync_step_inv].
    split; [done..|]. intros f _. left. apply three_maps_all. }
  rewrite Hw in Hwait. destruct Hwait as [Hf Hst]. split; [done|].
  pose proof (synced_run s0 s (synced_run new_cache s1 ltac:(by intros g ?%not_elem_of_nil) Hbefore) Hsteps) as Hruns. by eauto.
Qed.
End sync.

(** ** At a concrete input *)

Module Sample.
#[local] Instance sample_range : MapRange GVK nat := some_range _ _.

Definition pods : GVK := mkGVK "" "v1" "Pod".
Definition secrets : GVK := mkGVK "" "v1" "Secret".

(** An informer for pods is in the map, which has not been started. *)
Definition one_informer : Calls := mkCalls (mkInformersMap {[ pods := 0%nat ]} false false [] 1) [Syncing pods 0 false].

(** The maps before it was made. *)
Definition pods_asked : Calls := mkCalls (cs_map new_calls) [Looking pods].
Definition pods_missed : Calls := mkCalls (cs_map new_calls) [Adding pods].
Definition start_maps : Projection → Calls :=
  set_map Structured one_informer (set_map Structured pods_missed (set_map Structured pods_asked (λ _, new_calls))).

Definition start_state : SyncState := mkSync start_maps [] WaitForCacheSync_called.

Lemma start_reached : rtc sync_step new_cache start_state.
Proof.
  eapply rtc_l; [apply (sync_map _ Structured pods_asked), (step_call new_calls pods)|]. cbn [ss_maps ss_synced ss_wait].
  eapply rtc_l; [apply (sync_map _ Structured pods_missed), (step_missing pods_asked 0 pods false); reflexivity|].
  eapply rtc_l; [apply (sync_map _ Structured one_informer); eapply (step_added pods_missed 0 pods None); reflexivity|].
  apply rtc_refl.
Qed.

(** After [WaitForCacheSync] has collected the informer for pods, another goroutine
    asks for one for secrets; then the maps are started. *)
Definition asked : Calls := mkCalls (cs_map one_informer) [Syncing pods 0 false; Looking secrets].
Definition missed : Calls := mkCalls (cs_map one_informer) [Syncing pods 0 false; Adding secrets].
Definition added : Calls :=
  mkCalls (mkInformersMap (<[secrets := 1%nat]> {[ pods := 0%nat ]}) false false [] 2)
    [Syncing pods 0 false; Syncing secrets 1 false].
Definition started (c : Calls) : Calls :=
  match Start (cs_map c) with Returned ip => mkCalls ip (cs_calls c) | Panicked _ => c end.

Lemma step_started c : im_startWait_closed (cs_map c) = false → calls_step c (started c).
Proof. intros Hc. unfold started. destruct (Start (cs_map c)) eqn:Hs; [by apply step_Start|]. unfold Start in Hs. by rewrite Hc in Hs. Qed.

(** The maps at the end. *)
Definition maps_end : Projection → Calls :=
  set_map MetadataMap (started new_calls) (set_map UnstructuredMap (started new_calls)
    (set_map Structured (started added) (set_map Structured added (set_map Structured missed
      (set_map Structured asked (ss_maps start_state)))))).

Definition end_state : SyncState := mkSync maps_end [(Structured, 0%nat)] (Waited true).

Ltac go wt := eapply rtc_l; [refine (sync_wait _ false wt _); vm_compute; reflexivity|]; cbn [ss_maps ss_synced].

Lemma end_reached : rtc sync_step start_state end_state.
Proof.
  go (Collecting [UnstructuredMap; MetadataMap] [(Structured, 0%nat)]).
  go (Collecting [MetadataMap] [(Structured, 0%nat)]).
  go (Collecting [] [(Structured, 0%nat)]).
  go (AwaitingStart three_maps [(Structured, 0%nat)]).
  eapply rtc_l; [apply (sync_map _ Structured asked), (step_call one_informer secrets)|]. cbn [ss_maps ss_synced ss_wait].
  eapply rtc_l; [apply (sync_map _ Structured missed), (step_missing asked 1 secrets false); reflexivity|].
  eapply rtc_l; [apply (sync_map _ Structured added); eapply (step_added missed 1 secrets None); reflexivity|].
  eapply rtc_l; [apply (sync_map _ Structured (started added)), (step_started added); reflexivity|].
  eapply rtc_l; [apply (sync_map _ UnstructuredMap (started new_calls)), (step_started new_calls); reflexivity|].
  eapply rtc_l; [apply (sync_map _ MetadataMap (started new_calls)), (step_started new_calls); reflexivity|].
  eapply rtc_l; [apply (sync_informer _ Structured 0); apply (bool_decide_unpack _); vm_compute; exact I|].
  cbn [ss_maps ss_synced ss_wait].
  go (AwaitingStart [UnstructuredMap; MetadataMap] [(Structured, 0%nat)]).
  go (AwaitingStart [MetadataMap] [(Structured, 0%nat)]).
  go (AwaitingStart [] [(Structured, 0%nat)]).
  go (Polling [(Structured, 0%nat)]).
  go (Waited true). apply rtc_refl.
Qed.

(** The call has returned true although the informer for secrets, which was in the
    map before the map was started, is running and has not synced. *)
Lemma late_informer_not_waited_for :
  rtc sync_step start_state end_state ∧ ss_wait end_state = Waited true
  ∧ in_map end_state (Structured, 1%nat) ∧ 1%nat ∈ im_runs (cs_map (ss_maps end_state Structured))
  ∧ (Structured, 1%nat) ∉ ss_synced end_state.
Proof.
  split; [exact end_reached|]. split; [done|]. split; [by exists secrets|].
  split; apply (bool_decide_unpack _); vm_compute; exact I.
Qed.

(** A second call, on the cache that is running now, waits for it too. *)
Definition again_state : SyncState := mkSync maps_end [(Structured, 0%nat)] WaitForCacheSync_called.
Definition again_end : SyncState := mkSync maps_end [(Structured, 1%nat); (Structured, 0%nat)] (Waited true).

Definition both : list (Projection * nat) := HasSyncedFuncs Structured again_state.

Lemma again_reached : rtc sync_step again_state again_end.
Proof.
  eapply rtc_l; [apply (sync_informer _ Structured 1); apply (bool_decide_unpack _); vm_compute; exact I|].
  cbn [ss_maps ss_synced ss_wait].
  go (Collecting [UnstructuredMap; MetadataMap] both).
  go (Collecting [MetadataMap] both).
  go (Collecting [] both).
  go (AwaitingStart three_maps both).
  go (AwaitingStart [UnstructuredMap; MetadataMap] both).
  go (AwaitingStart [MetadataMap] both).
  go (AwaitingStart [] both).
  go (Polling both).
  go (Waited true). apply rtc_refl.
Qed.

Lemma WaitForCacheSync_waits_witness :
  in_map again_state (Structured, 1%nat)
  ∧ ((Structured, 1%nat) ∉ ss_synced again_state)
  ∧ (Structured, 1%nat) ∈ ss_synced again_end.
Proof.
  assert (in_map again_state (Structured, 1%nat)) as Hin by (exists secrets; vm_compute; reflexivity).
  split; [exact Hin|]. split; [apply (bool_decide_unpack _); vm_compute; exact I|].
  assert (rtc sync_step new_cache end_state) as Hbefore by (etrans; [exact start_reached|exact end_reached]).
  exact (proj1 (proj2 (WaitForCacheSync_waits end_state again_end Hbefore again_reached eq_refl)
    (Structured, 1%nat) Hin)).
Defined.
End Sample.
