(* ===== verification/CacheOptions.v ===== *)
(** * The construction of caches

    [New], [BuilderWithOptions] (src/pkg/cache/cache.go) and
    [MultiNamespacedCacheBuilder] (multi_namespace_cache.go), which turn options
    into maps of informers (ListWatch), and what a cache's list-watches ask the
    API server for; the calls of an informer cache that give out informers
    (informer_cache.go). *)

From S2P Require Export ListWatch MultiNamespaceCache.

Section cache_options.
Context {W : Type} `{RestAPI W, !WatchAPI (W := W), !ListAPI W}.

(** [SelectorsByObject]: a map with pointers to objects as keys. *)
Definition SelectorsByObject : Type := gmap loc (Object * CacheSelector).
Context `{!MapRange loc (Object * CacheSelector)}.

(** [Options]; nil pointers and interfaces are [None]. *)
Record CacheOptions := mkCacheOptions {
  co_Scheme : option Scheme;
  co_Mapper : option (Mapper W);
  co_Resync : option Z;
  co_Namespace : string;
  co_SelectorsByObject : SelectorsByObject;
}.
Implicit Types (opts : CacheOptions) (w : W).

(** What is taken from elsewhere: client-go's scheme, its discovery client with the
    API groups it finds, and the mapper made of them. *)
Class CacheEnv := {
  client_go_scheme : Scheme;
  NewDiscoveryClientForConfig : RestConfig → option error;
  GetAPIGroupResources : RestConfig → W → option error * W;
  restmapper_NewDiscoveryRESTMapper : RestConfig → W → Mapper W;
}.
Context `{!CacheEnv}.

(** [apiutil.NewDiscoveryRESTMapper] (client/apiutil/apimachinery.go). *)
Definition NewDiscoveryRESTMapper (c : RestConfig) w : result (Mapper W) * W :=
  match NewDiscoveryClientForConfig c with
  | Some err => (Err err, w)
  | None =>
      match GetAPIGroupResources c w with
      | (Some err, w) => (Err err, w)
      | (None, w) => (Ok (restmapper_NewDiscoveryRESTMapper c w), w)
      end
  end.

(** Ten hours, in nanoseconds. *)
Definition defaultResyncTime : Z := 10 * 3600 * 1000000000.

(** The options with the defaults filled in. *)
Record FullOptions := mkFullOptions {
  fo_Scheme : Scheme;
  fo_Mapper : Mapper W;
  fo_Resync : Z;
  fo_Namespace : string;
  fo_SelectorsByObject : SelectorsByObject;
}.

Definition defaultOpts (config : RestConfig) opts w : result FullOptions * W :=
  let scheme := default client_go_scheme (co_Scheme opts) in
  let '(mapper, w) := match co_Mapper opts with
                      | Some m => (Ok m, w)
                      | None => NewDiscoveryRESTMapper config w
                      end in
  match mapper with
  | Err _ => (Err (ErrorString "could not create RESTMapper from config"), w)
  | Ok mapper =>
      (Ok (mkFullOptions scheme mapper (default defaultResyncTime (co_Resync opts)) (co_Namespace opts)
             (co_SelectorsByObject opts)), w)
  end.

Fixpoint convert_loop (scheme : Scheme) (entries : list (Object * CacheSelector)) (acc : gmap GVK CacheSelector)
    : result (gmap GVK CacheSelector) :=
  match entries with
  | [] => Ok acc
  | (object, selector) :: entries =>
      match GVKForObject object scheme with
      | Err err => Err err
      | Ok gvk => convert_loop scheme entries (<[gvk := selector]> acc)
      end
  end.
Definition convertToSelectorsByGVK (selectorsByObject : SelectorsByObject) (scheme : Scheme)
    : result (gmap GVK CacheSelector) :=
  convert_loop scheme (map_range selectorsByObject).*2 ∅.

(** [New]. *)
Definition New_full (config : RestConfig) (o : FullOptions) : result (InformersMap W) :=
  selectorsByGVK ← convertToSelectorsByGVK (fo_SelectorsByObject o) (fo_Scheme o);
  Ok (NewInformersMap config (fo_Scheme o) (fo_Mapper o) (fo_Resync o) (fo_Namespace o) selectorsByGVK).

Definition New (config : RestConfig) opts w : result (InformersMap W) * W :=
  match defaultOpts config opts w with
  | (Err err, w) => (Err err, w)
  | (Ok o, w) => (New_full config o, w)
  end.

(** [NewCacheFunc]. *)
Definition NewCacheFunc : Type := RestConfig → CacheOptions → W → result (InformersMap W) * W.

Definition BuilderWithOptions (options : CacheOptions) : NewCacheFunc := λ config opts,
  New config (mkCacheOptions
    (match co_Scheme opts with None => co_Scheme options | s => s end)
    (match co_Mapper opts with None => co_Mapper options | m => m end)
    (match co_Resync opts with None => co_Resync options | r => r end)
    (if decide (co_Namespace opts = "") then co_Namespace options else co_Namespace opts)
    (co_SelectorsByObject options)).

(** ** Several namespaces *)

(** The [multiNamespaceCache] that is built, by the maps of its caches. *)
Record MultiCaches := mkMultiCaches {
  mb_namespaceToCache : gmap string (InformersMap W);
  mb_Scheme : Scheme;
  mb_RESTMapper : Mapper W;
  mb_clusterCache : InformersMap W;
}.

Definition full_as_opts (o : FullOptions) : CacheOptions :=
  mkCacheOptions (Some (fo_Scheme o)) (Some (fo_Mapper o)) (Some (fo_Resync o)) (fo_Namespace o) (fo_SelectorsByObject o).
Definition with_Namespace (ns : string) opts : CacheOptions :=
  mkCacheOptions (co_Scheme opts) (co_Mapper opts) (co_Resync opts) ns (co_SelectorsByObject opts).

Fixpoint namespace_caches (config : RestConfig) opts (namespaces : list string) (caches : gmap string (InformersMap W)) w
    : result (gmap string (InformersMap W)) * W :=
  match namespaces with
  | [] => (Ok caches, w)
  | ns :: namespaces =>
      match New config (with_Namespace ns opts) w with
      | (Err err, w) => (Err err, w)
      | (Ok c, w) => namespace_caches config opts namespaces (<[ns := c]> caches) w
      end
  end.

Definition MultiNamespacedCacheBuilder (namespaces : list string) (config : RestConfig) opts w
    : result MultiCaches * W :=
  match defaultOpts config opts w with
  | (Err err, w) => (Err err, w)
  | (Ok o, w) =>
      match New config (full_as_opts o) w with
      | (Err err, w) => (Err (ErrorString ("error creating global cache " +:+ error_text err)%string), w)
      | (Ok gCache, w) =>
          match namespace_caches config (full_as_opts o) namespaces ∅ w with
          | (Err err, w) => (Err err, w)
          | (Ok caches, w) => (Ok (mkMultiCaches caches (fo_Scheme o) (fo_Mapper o) gCache), w)
          end
      end
  end.

(** As the cache of MultiNamespaceCache: each map with the methods of an informer
    cache over it, and the mapper as that file has it. *)
Definition multi_cache {Informer} (cache_over : InformersMap W → Cache W Informer)
    (scopes : Mapper W → RESTMapper) (b : MultiCaches) : multiNamespaceCache W Informer :=
  mkMultiNamespaceCache (cache_over <$> mb_namespaceToCache b) (mb_Scheme b) (scopes (mb_RESTMapper b))
    (cache_over (mb_clusterCache b)).
End cache_options.

Arguments CacheOptions : clear implicits.
Arguments CacheEnv : clear implicits.
Arguments MultiCaches : clear implicits.

(** ** What the informers of a cache read *)

Section restricted.
Context `{ListsOnWire W, !MapRange loc (Object * CacheSelector), !CacheEnv W}.
Implicit Types (opts : CacheOptions W) (w : W) (gvk : GVK).

(** The selector of a kind: that of an object of the kind, or one that selects
    everything when there is none. *)
Definition selects (sels : SelectorsByObject) (scheme : Scheme) gvk (s : CacheSelector) : Prop :=
  (∃ l o, sels !! l = Some (o, s) ∧ GVKForObject o scheme = Ok gvk)
  ∨ (∀ l o s', sels !! l = Some (o, s') → GVKForObject o scheme ≠ Ok gvk) ∧ s = mkSelector None None.

Lemma convert_loop_lookup scheme entries acc m gvk :
  convert_loop scheme entries acc = Ok m →
  (∃ o s, (o, s) ∈ entries ∧ GVKForObject o scheme = Ok gvk ∧ m !! gvk = Some s)
  ∨ (∀ o s, (o, s) ∈ entries → GVKForObject o scheme ≠ Ok gvk) ∧ m !! gvk = acc !! gvk.
Proof.
  revert acc. induction entries as [|[o s] entries IH]; intros acc; cbn.
  { intros [= <-]. right. split; [by intros ?? ?%not_elem_of_nil|done]. }
  destruct (GVKForObject o scheme) as [g|] eqn:Hg; [|done]. intros [(o' & s' & Hin & Hk & Hm)|[Hno Hm]]%IH.
  - left. exists o', s'. split; [by right|done].
  - destruct (decide (g = gvk)) as [->|Hne].
    + left. exists o, s. split; [by left|]. split; [done|]. by rewrite Hm, lookup_insert_eq.
    + right. rewrite Hm, lookup_insert_ne by done. split; [|done].
      intros o' s' [[= -> ->]|Hin]%elem_of_cons; [congruence|by eapply Hno].
Qed.

Lemma convert_selects sels scheme m gvk :
  convertToSelectorsByGVK sels scheme = Ok m → selects sels scheme gvk (selector_of m gvk).
Proof.
  unfold convertToSelectorsByGVK, selector_of, selects. intros Hm.
  assert (∀ o s, (o, s) ∈ (map_range sels).*2 ↔ ∃ l, sels !! l = Some (o, s)) as Hin.
  { intros o s. rewrite list_elem_of_fmap. split.
    - intros ([l x] & -> & ?%elem_of_map_range). eauto.
    - intros [l Hl]. exists (l, (o, s)). by rewrite elem_of_map_range. }
  destruct (convert_loop_lookup _ _ _ _ gvk Hm) as [(o & s & [l Hl]%Hin & Hk & Hs)|[Hno Hs]]; rewrite Hs; cbn.
  - left. eauto.
  - right. split; [|done]. intros l o s' Hl. apply (Hno o s'). apply Hin. eauto.
Qed.

(** What [New] makes of its options. *)
Lemma New_Ok config opts w im w' :
  New config opts w = (Ok im, w') →
  ∃ mapper sels,
    im = NewInformersMap config (default client_go_scheme (co_Scheme opts)) mapper
           (default defaultResyncTime (co_Resync opts)) (co_Namespace opts) sels
    ∧ (∀ m, co_Mapper opts = Some m → mapper = m)
    ∧ convertToSelectorsByGVK (co_SelectorsByObject opts) (default client_go_scheme (co_Scheme opts)) = Ok sels.
Proof.
  unfold New, defaultOpts, New_full. destruct (match co_Mapper opts with Some m => _ | None => _ end) as [[mapper|] w1] eqn:Hm;
    [|done]. cbn. destruct (convertToSelectorsByGVK _ _) as [sels|]; [|done]. cbn. intros [= <- _].
  exists mapper, sels. split; [done|]. split; [|done]. intros m Ho. rewrite Ho in Hm. by injection Hm as -> _.
Qed.

(** The namespace in the URL of a kind's requests. *)
Definition restricted_to (ns : string) (mapping : RESTMapping) : option string :=
  if decide (ns ≠ "" ∧ mapping_Scope mapping ≠ ScopeRoot) then Some ns else None.

Lemma in_namespace_restricted ip mapping : in_namespace (W := W) ip mapping = restricted_to (ip_namespace ip) mapping.
Proof. unfold in_namespace, isNamespaceScoped, restricted_to. rewrite bool_decide_decide. by repeat case_decide. Qed.

(** The list and the watch of a kind ask for this. *)
Definition lw_asks (lw : ListWatch W) (res : GVR) (ns : option string) (sel : CacheSelector) : Prop := ∀ req w,
  on_wire (ListFunc lw req w).2 = on_wire w ++ [mkTarget res ns (Selector_ApplyToList sel req) false]
  ∧ on_wire (WatchFunc lw req w).2 = on_wire w ++ [mkTarget res ns (set_Watch (Selector_ApplyToList sel req)) true].

Lemma New_asks config opts w0 w0' im t gvk w lw w' :
  New config opts w0 = (Ok im, w0') → VersionedMapper (ip_mapper (map_for im t)) →
  createListWatcher gvk (map_for im t) w = (Ok lw, w') →
  ∃ mapping sel,
    ip_mapper (map_for im t) (gvk_GroupKind gvk) [gvk_Version gvk] w = (Ok mapping, w')
    ∧ selects (co_SelectorsByObject opts) (default client_go_scheme (co_Scheme opts)) gvk sel
    ∧ lw_asks lw (mapping_Resource mapping) (restricted_to (co_Namespace opts) mapping) sel.
Proof.
  intros (mapper & sels & -> & _ & Hsels)%New_Ok Hv Hlw.
  destruct (createListWatcher_targets _ _ _ _ _ Hv Hlw) as (mapping & Hm & Hasks).
  exists mapping, (selector_of sels gvk). split; [done|]. split; [by apply convert_selects|].
  intros req v. specialize (Hasks req v). rewrite in_namespace_restricted in Hasks.
  by destruct t.
Qed.

(** C25: Whichever Go type an object is read with, and so whichever of the three
    informers of its kind is made, the list-watch of an informer of a cache that
    [BuilderWithOptions] builds asks, for every list and every watch, for the
    resource the mapper has for the kind: in the namespace the caller named, or
    else the builder's, when there is one and the kind is not cluster-scoped, and
    everywhere otherwise; with the selectors given to the builder for an object of
    that kind in place of those of the request, and with the request's when there
    is no such object; and with what else the request holds as it is, marked as a
    watch if it is one.  This holds for every order of the map of selectors. *)
Theorem cache_requests_restricted options config opts w0 w0' im t gvk w lw w' :
  BuilderWithOptions options config opts w0 = (Ok im, w0') → VersionedMapper (ip_mapper (map_for im t)) →
  createListWatcher gvk (map_for im t) w = (Ok lw, w') →
  ∃ mapping sel,
    ip_mapper (map_for im t) (gvk_GroupKind gvk) [gvk_Version gvk] w = (Ok mapping, w')
    ∧ selects (co_SelectorsByObject options)
        (default client_go_scheme (match co_Scheme opts with None => co_Scheme options | s => s end)) gvk sel
    ∧ lw_asks lw (mapping_Resource mapping)
        (restricted_to (if decide (co_Namespace opts = "") then co_Namespace options else co_Namespace opts) mapping) sel.
Proof. apply New_asks. Qed.

(** The selectors the caller of the function passes are never used. *)
Lemma BuilderWithOptions_ignores_selectors options config opts sels w :
  BuilderWithOptions options config opts w
  = BuilderWithOptions options config
      (mkCacheOptions (co_Scheme opts) (co_Mapper opts) (co_Resync opts) (co_Namespace opts) sels) w.
Proof. done. Qed.

(** *** Several namespaces *)

Definition in_ns (ns : string) (o : FullOptions (W := W)) : FullOptions :=
  mkFullOptions (fo_Scheme o) (fo_Mapper o) (fo_Resync o) ns (fo_SelectorsByObject o).

Lemma New_in_ns config o ns w : New config (with_Namespace ns (full_as_opts o)) w = (New_full config (in_ns ns o), w).
Proof. by destruct o. Qed.

Lemma namespace_caches_cons config o n namespaces acc w :
  namespace_caches config (full_as_opts o) (n :: namespaces) acc w =
    match New_full config (in_ns n o) with
    | Err err => (Err err, w)
    | Ok c => namespace_caches config (full_as_opts o) namespaces (<[n := c]> acc) w
    end.
Proof. cbn [namespace_caches]. rewrite New_in_ns. by destruct (New_full _ _). Qed.

Lemma namespace_caches_lookup config o namespaces acc w caches w' ns im :
  namespace_caches config (full_as_opts o) namespaces acc w = (Ok caches, w') → caches !! ns = Some im →
  acc !! ns = Some im ∨ New_full config (in_ns ns o) = Ok im.
Proof.
  revert acc. induction namespaces as [|n namespaces IH]; intros acc; [intros [= <- _]; by left|].
  rewrite namespace_caches_cons. destruct (New_full config (in_ns n o)) as [c|] eqn:Hc; [|done]. intros Hl Hns.
  destruct (IH _ Hl Hns) as [Ha|Hnew]; [|by right].
  destruct (decide (n = ns)) as [->|Hne]; [|left; by rewrite lookup_insert_ne in Ha].
  rewrite lookup_insert_eq in Ha. injection Ha as ->. by right.
Qed.

Lemma namespace_caches_dom config opts namespaces acc w caches w' ns :
  namespace_caches config opts namespaces acc w = (Ok caches, w') →
  is_Some (caches !! ns) ↔ ns ∈ namespaces ∨ is_Some (acc !! ns).
Proof.
  revert acc w. induction namespaces as [|n namespaces IH]; intros acc w; cbn.
  { intros [= <- _]. rewrite elem_of_nil. tauto. }
  destruct (New _ _ _) as [[c|] w1]; [|done]. intros ->%IH. rewrite elem_of_cons, lookup_insert_is_Some'. naive_solver.
Qed.

(** The cache of several namespaces has one cache for each, whose list-watches of
    kinds that are not cluster-scoped ask for their namespace alone, or for all if
    it is the empty one. *)
Theorem multi_caches_restricted namespaces config opts w0 w0' b :
  MultiNamespacedCacheBuilder namespaces config opts w0 = (Ok b, w0') →
  (∀ ns, is_Some (mb_namespaceToCache b !! ns) ↔ ns ∈ namespaces)
  ∧ ∀ ns im t gvk w lw w',
      mb_namespaceToCache b !! ns = Some im → VersionedMapper (mb_RESTMapper b) →
      createListWatcher gvk (map_for im t) w = (Ok lw, w') →
      ∃ mapping sel,
        mb_RESTMapper b (gvk_GroupKind gvk) [gvk_Version gvk] w = (Ok mapping, w')
        ∧ selects (co_SelectorsByObject opts) (mb_Scheme b) gvk sel
        ∧ lw_asks lw (mapping_Resource mapping) (restricted_to ns mapping) sel.
Proof.
  unfold MultiNamespacedCacheBuilder. destruct (defaultOpts config opts w0) as [[o|] w1] eqn:Hd; [|done].
  destruct (New config (full_as_opts o) w1) as [[g|] w2]; [|done].
  destruct (namespace_caches _ _ _ _ w2) as [[caches|] w3] eqn:Hc; [|done]. intros [= <- _]. cbn. split.
  { intros ns. rewrite (namespace_caches_dom _ _ _ _ _ _ _ ns Hc), lookup_empty. split; [intros [?|[? [=]]]; done|auto]. }
  intros ns im t gvk w lw w' Him Hv Hlw.
  destruct (namespace_caches_lookup _ _ _ _ _ _ _ _ _ Hc Him) as [[=]|Hfull].
  assert (New config (with_Namespace ns (full_as_opts o)) w = (Ok im, w)) as Hnew by (by rewrite New_in_ns, Hfull).
  pose proof (New_Ok _ _ _ _ _ Hnew) as (mapper & sels & Heq & Hmapper & _). cbn in Hmapper. specialize (Hmapper _ eq_refl).
  subst mapper. assert (ip_mapper (map_for im t) = fo_Mapper o) as Hm by (rewrite Heq; by destruct t).
  rewrite <- Hm in Hv |- *. destruct (New_asks _ _ _ _ _ _ _ _ _ _ Hnew Hv Hlw) as (mapping & sel & Hmap & Hsel & Hasks).
  exists mapping, sel. split; [done|]. split; [|done].
  assert (co_SelectorsByObject opts = fo_SelectorsByObject o) as ->; [|done].
  revert Hd. unfold defaultOpts. destruct (match co_Mapper opts with Some m => _ | None => _ end) as [[] ?]; [|done].
  by intros [= <- _].
Qed.
End restricted.

(** ** Informers from an informer cache (informer_cache.go) *)

Section informers.
Context {W R : Type}.
Variable Scheme_ : Scheme.
(** [Scheme.New] of a kind: the Go type of the new object. *)
Variable Scheme_New : GVK → result GoType.
(** [Get] of one of the maps, and [AddIndexers] of an entry's informer. *)
Variable specific_Get : Projection → GVK → GoType → W → W * result (bool * R).
Variable AddIndexers : R → string → (Object → Slices → loc * Slices) → W → W * option error.

(** The second and third result of [InformersMap.Get]. *)
Definition entry_of (r : W * result (bool * R)) : W * result R :=
  match r with
  | (w, Err err) => (w, Err err)
  | (w, Ok (_, i)) => (w, Ok i)
  end.

Definition informerCache_GetInformerForKind (gvk : GVK) (w : W) : W * result R :=
  match Scheme_New gvk with
  | Err err => (w, Err err)
  | Ok t => entry_of (InformersMap_Get specific_Get gvk t w)
  end.

Definition informerCache_GetInformer (obj : Object) (w : W) : W * result R :=
  match GVKForObject obj Scheme_ with
  | Err err => (w, Err err)
  | Ok gvk => entry_of (InformersMap_Get specific_Get gvk (o_type obj) w)
  end.

Definition informerCache_NeedLeaderElection : bool := false.

Definition indexByField (indexer : R) (field : string) (extractor : IndexerFunc) (w : W) : W * option error :=
  AddIndexers indexer (FieldIndexName field) (indexFunc extractor) w.

Definition informerCache_IndexField (obj : Object) (field : string) (extractValue : IndexerFunc) (w : W)
    : W * option error :=
  match informerCache_GetInformer obj w with
  | (w, Err err) => (w, Some err)
  | (w, Ok informer) => indexByField informer field extractValue w
  end.
End informers.

(** ** At a concrete input *)

Module Sample.
(** The world is what has been asked for. *)
#[local] Instance wire_API : RestAPI (list Target) := {|
  ContentTypeProtobuf := "application/vnd.kubernetes.protobuf";
  DefaultKubernetesUserAgent := "agent";
  protobufScheme_Recognizes := λ _, false;
  RESTClientFor := λ _, None;
  rest_Do := λ cfg rq w,
    (Ok "{}", match cfg_GroupVersion cfg, rq_Params rq with
              | Some gv, Some (_, ListParams p) =>
                  w ++ [mkTarget (mkGVR (gv_Group gv) (gv_Version gv) (rq_Resource rq)) (rq_Namespace rq) p false]
              | _, _ => w
              end);
  Into := λ _ _ o, (o, None);
  Into_list := λ _ _ l, (l, None);
  metadata_Do := λ _ w, (None, w);
  metadata_Object := λ _ w, (Err (ErrorString "not found"), w);
  metadata_List := λ rq w,
    (Ok (mkList PartialObjectMetadataList empty_GVK []),
     match mrq_Call rq with MList p => w ++ [mkTarget (mrq_Resource rq) (mrq_Namespace rq) p false] | _ => w end);
  IsListType := λ _, false;
  typed_ObjectKind := λ _, true;
|}.

#[local] Instance wire_Watch : WatchAPI (W := list Target) := {|
  rest_Watch := λ cfg rq w,
    (Ok 0%nat, match cfg_GroupVersion cfg, rq_Params rq with
           | Some gv, Some (_, ListParams p) =>
               w ++ [mkTarget (mkGVR (gv_Group gv) (gv_Version gv) (rq_Resource rq)) (rq_Namespace rq) p true]
           | _, _ => w
           end);
  metadata_Watch := λ rq w,
    (Ok 0%nat, match mrq_Call rq with MWatch p => w ++ [mkTarget (mrq_Resource rq) (mrq_Namespace rq) p true] | _ => w end);
  dynamic_Watch := λ gvr ns p w, (Ok 0%nat, w ++ [mkTarget gvr ns p true]);
|}.

#[local] Instance wire_List : ListAPI (list Target) := {|
  dynamic_NewForConfig := λ _, None;
  metadata_NewForConfig := λ _, None;
  dynamic_List := λ gvr ns p w, (Ok (mkList UnstructuredList empty_GVK []), w ++ [mkTarget gvr ns p false]);
  scheme_New := λ _ g, Ok (mkList (Typed (gvk_Kind g)) g []);
|}.

#[local] Instance wire_lists : ListsOnWire (list Target).
Proof. refine {| on_wire := id |}; try done; intros cfg gv ns res codec p w Hgv; cbn; by rewrite Hgv. Defined.

(** Kinds are those of the Go types, and resources are named as kinds. *)
Definition scheme : Scheme :=
  {| sch_ObjectKinds := λ t own, match t with Typed k => Ok ([mkGVK "" "v1" k], false) | _ => Ok ([own], false) end;
     sch_Recognizes := λ _, true |}.
Definition mapper : Mapper (list Target) := λ gk vs w,
  (Ok (mkMapping (mkGVR (gk_Group gk) (default "" (head vs)) (gk_Kind gk))
         (if decide (gk_Kind gk = "Node") then ScopeRoot else ScopeOther "namespace")), w).

#[local] Instance mapper_versioned : VersionedMapper mapper.
Proof. intros gk v w m w' [= <- _]. done. Qed.

#[local] Instance sample_env : CacheEnv (list Target) := {|
  client_go_scheme := scheme;
  NewDiscoveryClientForConfig := λ _, None;
  GetAPIGroupResources := λ _ w, (None, w);
  restmapper_NewDiscoveryRESTMapper := λ _ _, mapper;
|}.
#[local] Instance sample_order : MapRange loc (Object * CacheSelector) := some_range _ _.

Definition labelled (s : string) : CacheSelector :=
  mkSelector (Some {| sel_Matches := λ _, true; sel_String := s |}) None.
Definition pod : Object := bare_object (Typed "Pod") (mkGVK "" "v1" "Pod") "" "".
Definition pods : GVK := mkGVK "" "v1" "Pod".
Definition config : RestConfig := mkConfig None "" "" "" None "".

(** A builder for pods with a label, and a caller that names a namespace. *)
Definition builder_options : CacheOptions (list Target) :=
  mkCacheOptions None None None "" {[ 1%positive := (pod, labelled "app=web") ]}.
Definition caller_options : CacheOptions (list Target) := mkCacheOptions None (Some mapper) None "team" ∅.
Definition cache : InformersMap (list Target) :=
  NewInformersMap config scheme mapper defaultResyncTime "team" {[ pods := labelled "app=web" ]}.
Definition request : RawListOptions := mkRawList "" "spec.nodeName=a" false 500 "" "resourceVersion=0".

Lemma cache_built : BuilderWithOptions builder_options config caller_options [] = (Ok cache, []).
Proof. vm_compute. reflexivity. Qed.

(** A list of pods, read as objects of the Go type. *)
Example list_of_pods :
  match createListWatcher pods (map_for cache (Typed "Pod")) [] with
  | (Ok lw, w) => (ListFunc lw request w).2
  | _ => []
  end = [mkTarget (mkGVR "" "v1" "Pod") (Some "team") (mkRawList "app=web" "spec.nodeName=a" false 500 "" "resourceVersion=0") false].
Proof. vm_compute. reflexivity. Qed.

Lemma cache_requests_restricted_witness :
  ∃ lw mapping sel, createListWatcher pods (map_for cache Unstructured) [] = (Ok lw, [])
  ∧ lw_asks lw (mapping_Resource mapping) (restricted_to "team" mapping) sel
  ∧ selects (co_SelectorsByObject builder_options) scheme pods sel.
Proof.
  destruct (createListWatcher pods (map_for cache Unstructured) []) as [[lw|] w'] eqn:Hlw;
    [|vm_compute in Hlw; discriminate Hlw].
  assert (w' = []) as -> by (vm_compute in Hlw; by injection Hlw as _ <-).
  destruct (cache_requests_restricted builder_options config caller_options [] [] cache Unstructured pods [] lw []
    cache_built mapper_versioned Hlw) as (mapping & sel & _ & Hsel & Hasks).
  exists lw, mapping, sel. split; [reflexivity|]. split; [exact Hasks|exact Hsel].
Defined.

Lemma multi_caches_restricted_witness :
  ∃ b, MultiNamespacedCacheBuilder ["red"; "blue"] config caller_options [] = (Ok b, [])
  ∧ is_Some (mb_namespaceToCache b !! "red") ∧ ¬ is_Some (mb_namespaceToCache b !! "green").
Proof.
  destruct (MultiNamespacedCacheBuilder ["red"; "blue"] config caller_options []) as [[b|] w'] eqn:Hb;
    [|vm_compute in Hb; discriminate Hb].
  assert (w' = []) as -> by (vm_compute in Hb; by injection Hb as _ <-).
  exists b. split; [reflexivity|].
  destruct (multi_caches_restricted ["red"; "blue"] config caller_options [] [] b Hb) as [Hdom _].
  split; [apply Hdom; by left|]. rewrite (Hdom "green"). apply (bool_decide_unpack _). vm_compute. exact I.
Defined.
End Sample.
