(* ===== verification/LeaderElection.v ===== *)
(** * Resource locks for leader election
    (src/pkg/leaderelection/leader_election.go)

    The lock a manager competes for: its kind, name, namespace and identity, and
    the configuration of the client it is held with.  Files, the host name, UUIDs
    and client-go's locks are a class. *)

From S2P Require Export Prelude.

Section leader_election.
Context {W Config Lock : Type}.
Implicit Types w : W.

(** [Options]. *)
Record LeaderElectionOptions := mkLeaderElectionOptions {
  le_LeaderElection : bool;
  le_ResourceLock : string;
  le_Namespace : string;
  le_ID : string;
}.
Implicit Types options : LeaderElectionOptions.

(** What a lock is made of; the event recorder is told by its name. *)
Record LockSpec := mkLockSpec {
  ls_Kind : string;
  ls_Namespace : string;
  ls_Name : string;
  ls_Identity : string;
  ls_EventRecorder : string;
}.

(** [os.Stat] tells an error and whether it says that the file does not exist. *)
Class LockEnv := {
  Stat : string → W → option (error * bool);
  ReadFile : string → W → result string;
  Hostname : W → result string;
  NewUUID : W → string * W;
  AddUserAgent : Config → string → Config;
  clientset_NewForConfig : Config → option error;
  resourcelock_New : Config → LockSpec → W → result Lock;
}.
Context `{!LockEnv}.

Definition inClusterNamespacePath : string := "/var/run/secrets/kubernetes.io/serviceaccount/namespace".
Definition ConfigMapsLeasesResourceLock : string := "configmapsleases".

Definition err_not_in_cluster : error := ErrorString "not running in-cluster, please specify LeaderElectionNamespace".
Definition err_no_ID : error := ErrorString "LeaderElectionID must be configured".

Definition getInClusterNamespace w : result string :=
  match Stat inClusterNamespacePath w with
  | Some (_, true) => Err err_not_in_cluster
  | Some (err, false) => Err (ErrorWrap "error checking namespace file" err)
  | None =>
      match ReadFile inClusterNamespacePath w with
      | Err err => Err (ErrorWrap "error reading namespace file" err)
      | Ok namespace => Ok namespace
      end
  end.

Definition lock_namespace options w : result string :=
  if decide (le_Namespace options = "") then
    match getInClusterNamespace w with
    | Err err => Err (ErrorWrap "unable to find leader election namespace" err)
    | Ok ns => Ok ns
    end
  else Ok (le_Namespace options).

(** [id + "_" + string(uuid.NewUUID())]. *)
Definition identity (host uuid : string) : string := (host +:+ ("_" +:+ uuid))%string.

(** The lock, or nil when leader election is off. *)
Definition NewResourceLock (config : Config) options w : result (option Lock) * W :=
  if negb (le_LeaderElection options) then (Ok None, w)
  else
    let kind := if decide (le_ResourceLock options = "") then ConfigMapsLeasesResourceLock else le_ResourceLock options in
    if decide (le_ID options = "") then (Err err_no_ID, w)
    else
      match lock_namespace options w with
      | Err err => (Err err, w)
      | Ok namespace =>
          match Hostname w with
          | Err err => (Err err, w)
          | Ok host =>
              let '(uuid, w) := NewUUID w in
              let id := identity host uuid in
              let client := AddUserAgent config "leader-election" in
              match clientset_NewForConfig client with
              | Some err => (Err err, w)
              | None =>
                  match resourcelock_New client (mkLockSpec kind namespace (le_ID options) id id) w with
                  | Err err => (Err err, w)
                  | Ok lock => (Ok (Some lock), w)
                  end
              end
          end
      end.

(** ** Who competes with whom *)

(** What client-go's locks are for, and that UUIDs are not given out twice: each
    is one the world has not issued, and it then has. *)
Class LockLaws := {
  spec_of : Lock → LockSpec;
  spec_of_New cfg spec w lock : resourcelock_New cfg spec w = Ok lock → spec_of lock = spec;
  issued : W → gset string;
  NewUUID_issued w : let '(uuid, w') := NewUUID w in (uuid ∉ issued w) ∧ issued w' = {[uuid]} ∪ issued w
                     ∧ Stat inClusterNamespacePath w' = Stat inClusterNamespacePath w
                     ∧ ReadFile inClusterNamespacePath w' = ReadFile inClusterNamespacePath w
                     ∧ Hostname w' = Hostname w;
}.

Lemma NewResourceLock_Ok `{!LockLaws} config options w lock w' :
  NewResourceLock config options w = (Ok (Some lock), w') →
  ∃ host uuid,
    le_LeaderElection options = true ∧ le_ID options ≠ "" ∧ Hostname w = Ok host ∧ NewUUID w = (uuid, w')
    ∧ ls_Name (spec_of lock) = le_ID options
    ∧ ls_Identity (spec_of lock) = identity host uuid
    ∧ ls_EventRecorder (spec_of lock) = ls_Identity (spec_of lock)
    ∧ ls_Kind (spec_of lock)
      = (if decide (le_ResourceLock options = "") then ConfigMapsLeasesResourceLock else le_ResourceLock options)
    ∧ lock_namespace options w = Ok (ls_Namespace (spec_of lock)).
Proof.
  unfold NewResourceLock. destruct (le_LeaderElection options); cbn [negb]; [|done].
  case_decide as Hid; [done|]. destruct (lock_namespace options w) as [ns|] eqn:Hns; [|done].
  destruct (Hostname w) as [host|]; [|done]. destruct (NewUUID w) as [uuid w1].
  destruct (clientset_NewForConfig _); [done|]. destruct (resourcelock_New _ _ _) as [l|] eqn:Hl; [|done].
  intros [= -> ->]. apply spec_of_New in Hl. exists host, uuid. rewrite Hl. by repeat split.
Qed.

Lemma NewResourceLock_world `{!LockLaws} config options w r w' :
  NewResourceLock config options w = (r, w') →
  issued w ⊆ issued w' ∧ Stat inClusterNamespacePath w' = Stat inClusterNamespacePath w
  ∧ ReadFile inClusterNamespacePath w' = ReadFile inClusterNamespacePath w ∧ Hostname w' = Hostname w.
Proof.
  unfold NewResourceLock. intros Hr. pose proof (NewUUID_issued w) as Hu. destruct (NewUUID w) as [uuid w1].
  destruct Hu as (_ & Hi & ? & ? & ?).
  repeat case_match; simplify_eq; rewrite ?Hi; (split; [set_solver|done]).
Qed.

(** A manager makes its lock with each of a sequence of options, as so many
    replicas on one host do. *)
Fixpoint make_locks (config : Config) (all : list LeaderElectionOptions) w : list (result (option Lock)) * W :=
  match all with
  | [] => ([], w)
  | options :: all =>
      let '(r, w) := NewResourceLock config options w in
      let '(rs, w) := make_locks config all w in (r :: rs, w)
  end.

Lemma make_locks_world `{!LockLaws} config all w rs w' :
  make_locks config all w = (rs, w') → issued w ⊆ issued w' ∧ Hostname w' = Hostname w.
Proof.
  revert w rs. induction all as [|o all IH]; intros w rs; cbn; [by intros [= _ <-]|].
  destruct (NewResourceLock config o w) as [r w1] eqn:Hr. apply NewResourceLock_world in Hr as (Hi & _ & _ & Hh).
  destruct (make_locks config all w1) as [rs1 w2] eqn:Hrs. intros [= _ <-].
  apply IH in Hrs as [? ?]. split; [by etransitivity|congruence].
Qed.

(** An identity that was made later is that of a UUID issued later. *)
Lemma make_locks_later `{!LockLaws} config all w rs w' i lock :
  make_locks config all w = (rs, w') → rs !! i = Some (Ok (Some lock)) →
  ∃ host uuid, Hostname w = Ok host ∧ (uuid ∉ issued w) ∧ ls_Identity (spec_of lock) = identity host uuid.
Proof.
  revert w rs i. induction all as [|o all IH]; intros w rs i; cbn; [by intros [= <- _]|].
  destruct (NewResourceLock config o w) as [r w1] eqn:Hr.
  destruct (make_locks config all w1) as [rs1 w2] eqn:Hrs. intros [= <- <-]. destruct i as [|i]; cbn.
  - intros [= ->]. apply NewResourceLock_Ok in Hr as (host & uuid & _ & _ & Hh & Hu & _ & Hid & _).
    exists host, uuid. split; [done|]. split; [|done]. pose proof (NewUUID_issued w) as Hiss. rewrite Hu in Hiss. tauto.
  - intros Hi. destruct (IH _ _ _ Hrs Hi) as (host & uuid & Hh & Hu & Hid).
    apply NewResourceLock_world in Hr as (Hsub & _ & _ & Hhost). exists host, uuid. split; [congruence|]. split; [set_solver|done].
Qed.

Lemma make_locks_nth `{!LockLaws} config all w rs w' i r :
  make_locks config all w = (rs, w') → rs !! i = Some r →
  ∃ o wi wi', all !! i = Some o ∧ NewResourceLock config o wi = (r, wi') ∧ issued w ⊆ issued wi
  ∧ Stat inClusterNamespacePath wi = Stat inClusterNamespacePath w
  ∧ ReadFile inClusterNamespacePath wi = ReadFile inClusterNamespacePath w.
Proof.
  revert w rs i. induction all as [|o all IH]; intros w rs i; cbn; [by intros [= <- _]|].
  destruct (NewResourceLock config o w) as [r0 w1] eqn:Hr.
  destruct (make_locks config all w1) as [rs1 w2] eqn:Hrs. intros [= <- <-]. destruct i as [|i]; cbn.
  - intros [= ->]. by exists o, w, w1.
  - intros Hi. destruct (IH _ _ _ Hrs Hi) as (o' & wi & wi' & Ho & Hn & Hsub & Hst & Hrd).
    apply NewResourceLock_world in Hr as (Hsub1 & Hst1 & Hrd1 & _).
    exists o', wi, wi'. split; [done|]. split; [done|]. split; [set_solver|]. split; congruence.
Qed.

Lemma lock_namespace_files o w w' :
  Stat inClusterNamespacePath w' = Stat inClusterNamespacePath w →
  ReadFile inClusterNamespacePath w' = ReadFile inClusterNamespacePath w → lock_namespace o w' = lock_namespace o w.
Proof. unfold lock_namespace, getInClusterNamespace. by intros -> ->. Qed.

(** Replicas of a manager on one host - any number of them, with any options -
    hold different identities, and those with the same options compete for one
    lock: the one of their kind, in the namespace of the options or else that of
    the pod, under the name of the options.  An event of a lock is recorded under
    the identity it is held with. *)
Theorem replicas_compete `{!LockLaws} config all w rs w' i j a b :
  make_locks config all w = (rs, w') → i ≠ j → rs !! i = Some (Ok (Some a)) → rs !! j = Some (Ok (Some b)) →
  ls_Identity (spec_of a) ≠ ls_Identity (spec_of b)
  ∧ ls_EventRecorder (spec_of a) = ls_Identity (spec_of a)
  ∧ lock_namespace (default (mkLeaderElectionOptions false "" "" "") (all !! i)) w = Ok (ls_Namespace (spec_of a))
  ∧ (all !! i = all !! j →
     ls_Kind (spec_of a) = ls_Kind (spec_of b) ∧ ls_Namespace (spec_of a) = ls_Namespace (spec_of b)
     ∧ ls_Name (spec_of a) = ls_Name (spec_of b)).
Proof.
  intros Hm Hij Ha Hb.
  assert (Hid : ls_Identity (spec_of a) ≠ ls_Identity (spec_of b)).
  { revert a b w rs i j Hm Hij Ha Hb.
    induction all as [|o all IH]; intros a b w rs i j; cbn; [by intros [= <- _]|].
    destruct (NewResourceLock config o w) as [r w1] eqn:Hr.
    destruct (make_locks config all w1) as [rs1 w2] eqn:Hrs. intros [= <- <-] Hij Ha Hb.
    assert (∀ k x y, r = Ok (Some x) → rs1 !! k = Some (Ok (Some y)) → ls_Identity (spec_of x) ≠ ls_Identity (spec_of y)) as Hfirst.
    { intros k x y -> Hy. apply NewResourceLock_Ok in Hr as (host & u & _ & _ & Hh & Hu & _ & Hx & _).
      destruct (make_locks_later _ _ _ _ _ _ _ Hrs Hy) as (host' & v & Hh' & Hv & Hid).
      pose proof (NewUUID_issued w) as Hiss. rewrite Hu in Hiss. destruct Hiss as (_ & Hiss & _ & _ & Hhost).
      assert (host' = host) as -> by congruence. rewrite Hx, Hid. unfold identity. intros Heq%str_app_inv_l. apply (str_app_inv_l "_") in Heq.
      subst v. apply Hv. rewrite Hiss. set_solver. }
    destruct i as [|i], j as [|j]; cbn in *; [done| | |].
    - injection Ha as ->. by eapply Hfirst.
    - injection Hb as ->. apply not_eq_sym. by eapply Hfirst.
    - eapply IH; [exact Hrs| |exact Ha|exact Hb]. congruence. }
  split; [done|].
  destruct (make_locks_nth _ _ _ _ _ _ _ Hm Ha) as (oa & wa & wa' & Hoa & Hna & _ & Hsta & Hrda).
  destruct (make_locks_nth _ _ _ _ _ _ _ Hm Hb) as (ob & wb & wb' & Hob & Hnb & _ & Hstb & Hrdb).
  apply NewResourceLock_Ok in Hna as (? & ? & _ & _ & _ & _ & Hname & _ & Hrec & Hkind & Hns).
  apply NewResourceLock_Ok in Hnb as (? & ? & _ & _ & _ & _ & Hname' & _ & _ & Hkind' & Hns').
  rewrite (lock_namespace_files _ w wa) in Hns by done. rewrite (lock_namespace_files _ w wb) in Hns' by done.
  split; [done|]. split; [by rewrite Hoa|]. rewrite Hoa, Hob. intros [= ->]. split; [congruence|]. split; congruence.
Qed.

(** Outside of a cluster a lock needs a namespace: with leader election, a name
    and no namespace the call fails, before anything is done. *)
Lemma no_namespace_outside config options w err :
  le_LeaderElection options = true → le_ID options ≠ "" → le_Namespace options = "" →
  Stat inClusterNamespacePath w = Some (err, true) →
  NewResourceLock config options w = (Err (ErrorWrap "unable to find leader election namespace" err_not_in_cluster), w).
Proof.
  intros Hle Hid Hns Hst. unfold NewResourceLock, lock_namespace, getInClusterNamespace. rewrite Hle, Hst. cbn [negb].
  rewrite decide_False by done. by rewrite decide_True.
Qed.
End leader_election.

Arguments LockEnv : clear implicits.

(** ** At a concrete input *)

Module Sample.
(** The world counts the UUIDs; the file of the pod's namespace exists. *)
#[local] Instance sample_env : LockEnv nat () LockSpec := {|
  Stat := λ _ _, None;
  ReadFile := λ _ _, Ok "prod";
  Hostname := λ _, Ok "node-1";
  NewUUID := λ n, (FormatUint (Z.of_nat n), S n);
  AddUserAgent := λ cfg _, cfg;
  clientset_NewForConfig := λ _, None;
  resourcelock_New := λ _ spec _, Ok spec;
|}.

#[local] Instance sample_laws : LockLaws (W := nat) (Config := ()) (Lock := LockSpec).
Proof.
  refine {| spec_of := id; issued n := list_to_set ((λ k, FormatUint (Z.of_nat k)) <$> seq 0 n) |}.
  - by intros _ spec _ lock [= ->].
  - intros n. cbn -[seq]. split; [|split; [|done]].
    + rewrite elem_of_list_to_set, list_elem_of_fmap. intros (k & Hk & Hin). apply FormatUint_inj in Hk; [|lia..].
      apply elem_of_seq in Hin. lia.
    + rewrite seq_S. apply set_eq. intros x. rewrite fmap_app, list_to_set_app. set_solver.
Defined.

Definition options : LeaderElectionOptions := mkLeaderElectionOptions true "" "" "my-operator".
Definition lock_of (n : nat) : LockSpec :=
  let id := identity "node-1" (FormatUint (Z.of_nat n)) in mkLockSpec "configmapsleases" "prod" "my-operator" id id.

Lemma two_locks : make_locks () [options; options] 7 = ([Ok (Some (lock_of 7)); Ok (Some (lock_of 8))], 9).
Proof. vm_compute. reflexivity. Qed.

Lemma replicas_compete_witness :
  ls_Identity (lock_of 7) ≠ ls_Identity (lock_of 8) ∧ ls_Name (lock_of 7) = ls_Name (lock_of 8).
Proof.
  destruct (replicas_compete () [options; options] 7 _ _ 0 1 (lock_of 7) (lock_of 8) two_locks ltac:(discriminate)
    eq_refl eq_refl) as (Hid & _ & _ & Hsame).
  split; [exact Hid|]. exact (proj2 (proj2 (Hsame eq_refl))).
Defined.
End Sample.
