(* ===== verification/Inject.v ===== *)
(** * Injection of dependencies (src/pkg/runtime/inject/inject.go)

    Whatever is handed to a manager may ask for dependencies by implementing
    interfaces.  A value is given by what it does for each interface it
    implements; injecting into one that does not implement the interface does
    nothing. *)

From S2P Require Export Prelude.

Section inject.
Context {W : Type}.
Implicit Types w : W.

(** A method that takes a dependency, of a value that implements the interface. *)
Definition Method (D : Type) : Type := D → W → W * option error.

(** The common shape of the functions named [Into]: whether the value implements
    the interface, and the error of its method. *)
Definition Into {D} (method : option (Method D)) (d : D) w : W * (bool * option error) :=
  match method with
  | Some m => let '(w, err) := m d w in (w, (true, err))
  | None => (w, (false, None))
  end.

(** [if _, err := inject.XInto(d, i); err != nil { return err }]. *)
Definition try_into {D} (method : option (Method D)) (d : D) (next : W → W * option error) w : W * option error :=
  match Into method d w with
  | (w, (_, Some err)) => (w, Some err)
  | (w, (_, None)) => next w
  end.

Context {Config Client APIReader Scheme Cache Mapper StopChannel Logger : Type}.

(** The interfaces a value may implement.  [InjectFunc] of an [Injector] hands the
    function on to the parts of the value, in order; one that only keeps the
    function has none. *)
Inductive Injectable := mkInjectable {
  inj_Config : option (Method Config);
  inj_Client : option (Method Client);
  inj_APIReader : option (Method APIReader);
  inj_Scheme : option (Method Scheme);
  inj_Cache : option (Method Cache);
  inj_Mapper : option (Method Mapper);
  inj_StopChannel : option (Method StopChannel);
  inj_Logger : option (Method Logger);
  inj_Injector : option (list Injectable);
}.
Implicit Types i : Injectable.

Definition ConfigInto (config : Config) i : W → W * (bool * option error) := Into (inj_Config i) config.
Definition ClientInto (client : Client) i : W → W * (bool * option error) := Into (inj_Client i) client.
Definition APIReaderInto (reader : APIReader) i : W → W * (bool * option error) := Into (inj_APIReader i) reader.
Definition SchemeInto (scheme : Scheme) i : W → W * (bool * option error) := Into (inj_Scheme i) scheme.
Definition CacheInto (c : Cache) i : W → W * (bool * option error) := Into (inj_Cache i) c.
Definition MapperInto (mapper : Mapper) i : W → W * (bool * option error) := Into (inj_Mapper i) mapper.
Definition StopChannelInto (stop : StopChannel) i : W → W * (bool * option error) := Into (inj_StopChannel i) stop.
Definition LoggerInto (l : Logger) i : W → W * (bool * option error) := Into (inj_Logger i) l.

(** [InjectorInto]; [f] injects into each part, up to the first error. *)
Section parts.
Variable f : Injectable → W → W * option error.

Fixpoint inject_parts (parts : list Injectable) w : W * option error :=
  match parts with
  | [] => (w, None)
  | i :: parts =>
      match f i w with
      | (w, Some err) => (w, Some err)
      | (w, None) => inject_parts parts w
      end
  end.
End parts.
Definition InjectorInto (f : Injectable → W → W * option error) i w : W * (bool * option error) :=
  match inj_Injector i with
  | Some parts => let '(w, err) := inject_parts f parts w in (w, (true, err))
  | None => (w, (false, None))
  end.

(** *** Calls in a row *)

(** What is called, in order, until one fails. *)
Fixpoint run_calls (calls : list (W → W * option error)) w : W * option error :=
  match calls with
  | [] => (w, None)
  | c :: calls =>
      match c w with
      | (w, Some err) => (w, Some err)
      | (w, None) => run_calls calls w
      end
  end.

(** The call a value asks for, if it does. *)
Definition asked {D} (method : option (Method D)) (d : D) : list (W → W * option error) :=
  match method with Some m => [m d] | None => [] end.

Lemma run_calls_app cs cs' w :
  run_calls (cs ++ cs') w = match run_calls cs w with (w, Some err) => (w, Some err) | (w, None) => run_calls cs' w end.
Proof.
  revert w. induction cs as [|c cs IH]; intros w; cbn; [done|]. destruct (c w) as [w1 [err|]]; [done|]. apply IH.
Qed.

Lemma try_into_run {D} (method : option (Method D)) d next cs w :
  (∀ w, next w = run_calls cs w) → try_into method d next w = run_calls (asked method d ++ cs) w.
Proof.
  intros Hn. unfold try_into, Into, asked. destruct method as [m|]; cbn; [|apply Hn].
  destruct (m d w) as [w1 [err|]]; [done|apply Hn].
Qed.

Lemma inject_parts_run f (calls : Injectable → list (W → W * option error)) parts w :
  (∀ i, i ∈ parts → ∀ w, f i w = run_calls (calls i) w) → inject_parts f parts w = run_calls (parts ≫= calls) w.
Proof.
  revert w. induction parts as [|i parts IH]; intros w Hf; cbn; [done|].
  rewrite run_calls_app, (Hf i) by (by left). destruct (run_calls (calls i) w) as [w1 [err|]]; [done|].
  apply IH. intros j Hj. apply Hf. by right.
Qed.

(** Induction on a value and its parts. *)
Lemma Injectable_parts_ind (P : Injectable → Prop) :
  (∀ i, (∀ parts j, inj_Injector i = Some parts → j ∈ parts → P j) → P i) → ∀ i, P i.
Proof.
  intros Hstep. refine (fix go i := _). apply Hstep. destruct i as [? ? ? ? ? ? ? ? [ps|]]; cbn.
  - intros parts j [= <-] Hj. assert (Forall P ps) as HP.
    { clear Hj. induction ps as [|k ps IH]; [apply Forall_nil_2|apply Forall_cons_2; [apply go|exact IH]]. }
    clear go. by apply (proj1 (Forall_forall _ _) HP).
  - clear go. discriminate.
Qed.

(** When nothing fails every call was made; when one fails those before it were
    made and none after it. *)
Lemma run_calls_spec cs w w' err :
  run_calls cs w = (w', err) →
  match err with
  | None => ∃ ws, length ws = S (length cs) ∧ ws !! 0%nat = Some w ∧ last ws = Some w'
            ∧ ∀ k c v v', cs !! k = Some c → ws !! k = Some v → ws !! S k = Some v' → c v = (v', None)
  | Some e => ∃ before c after v, cs = before ++ c :: after ∧ run_calls before w = (v, None) ∧ c v = (w', Some e)
  end.
Proof.
  revert w. induction cs as [|c cs IH]; intros w; cbn.
  { intros [= -> <-]. exists [w']. by repeat split. }
  destruct (c w) as [w1 [e|]] eqn:Hc.
  { intros [= -> <-]. by exists [], c, cs, w. }
  intros Hr. specialize (IH _ Hr). destruct err as [e|].
  - destruct IH as (before & c' & after & v & -> & Hb & Hc'). exists (c :: before), c', after, v. cbn. by rewrite Hc.
  - destruct IH as (ws & Hlen & H0 & Hlast & Hall). exists (w :: ws). split; [cbn; lia|]. split; [done|].
    split; [destruct ws; [done|]; by rewrite <- Hlast|]. intros [|k] d v v'; cbn; [|apply Hall].
    intros [= <-] [= <-] Hv'. change (ws !! 0%nat = Some v') in Hv'. congruence.
Qed.
End inject.

Arguments Injectable : clear implicits.
