(* ===== verification/Cluster.v ===== *)
(** * The cluster (src/pkg/cluster/cluster.go, internal.go)

    [New] puts together what the rest of the library models on its own: a mapper,
    a cache (CacheOptions), a client of the API server that reads from the cache
    (RestClient and the wrapping clients of Client), and a provider of event
    recorders (Recorder). *)

From S2P Require Export RestClientFacts CacheOptions Recorder Inject.

Section cluster.
Context {W : Type} `{RestAPI W, !WatchAPI (W := W), !ListAPI W}.
Context `{!MapRange loc (Object * CacheSelector), !CacheEnv W}.
(** Caches, broadcasters and events. *)
Context {Cache B E : Type}.
Implicit Types w : W.

(** What the functions of this package take from elsewhere: what the client does
    (ClientEnv), a cache as a reader, the informer cache over its maps, the
    mapper as wrapping clients see it, [kubernetes.NewForConfig], and the [Start]
    of a cache, which blocks. *)
Class ClusterEnv := {
  ce_client : ClientEnv (W := W);
  cache_Reader : Cache → Reader (RestState W);
  cache_over : InformersMap W → Cache;
  mapper_scopes_of : Mapper W → RESTMapper;
  events_NewForConfig : RestConfig → result ();
  cache_Start : Cache → W → W * option error;
}.
Context `{!ClusterEnv}.

(** What [makeBroadcaster] returns: a broadcaster of the user or a new one, and
    whether to stop it with the provider. *)
Definition Broadcaster : Type := option B * bool.

(** A provider of recorders and the broadcaster it makes. *)
Record RecorderProvider := mkRecorderProvider {
  rp_makeBroadcaster : Broadcaster;
  rp_provider : Provider (E := E);
}.

Definition NewCacheFunc : Type := RestConfig → CacheOptions W → W → result Cache * W.
Definition NewClientFunc : Type :=
  Cache → RestConfig → ClientOptions (W := W) → list Object → W → result (Client (RestState W)) * W.
Definition NewRecorderProvider : Type := RestConfig → Scheme → Broadcaster → result RecorderProvider.

(** [Options], without the logger; nil is [None]. *)
Record ClusterOptions := mkClusterOptions {
  cto_Scheme : option Scheme;
  cto_MapperProvider : option (RestConfig → W → result (Mapper W) * W);
  cto_SyncPeriod : option Z;
  cto_Namespace : string;
  cto_NewCache : option NewCacheFunc;
  cto_NewClient : option NewClientFunc;
  cto_ClientDisableCacheFor : list Object;
  cto_DryRunClient : bool;
  cto_EventBroadcaster : option B;
  cto_newRecorderProvider : option NewRecorderProvider;
}.

Definition zero_options : ClusterOptions := mkClusterOptions None None None "" None None [] false None None.

(** [cache.New], as a function that makes caches. *)
Definition cache_New : NewCacheFunc := λ config opts w,
  match New config opts w with
  | (Err err, w) => (Err err, w)
  | (Ok im, w) => (Ok (cache_over im), w)
  end.

(** [client.New], as the interface and alone in the world. *)
Definition client_New (config : RestConfig) (options : ClientOptions (W := W)) w : result (Client (RestState W)) * W :=
  match newClient (ce_client) (Some config) options w with
  | (Err err, s) => (Err err, st_world s)
  | (Ok c, s) => (Ok (rest_Client c (mapper_scopes_of (rc_mapper c))), st_world s)
  end.

Definition delegating_input (cache : Cache) (c : Client (RestState W)) (uncachedObjects : list Object)
    : NewDelegatingClientInput (RestState W) :=
  {| in_CacheReader := cache_Reader cache; in_Client := c; in_UncachedObjects := uncachedObjects;
     in_CacheUnstructured := false |}.

Definition DefaultNewClient : NewClientFunc := λ cache config options uncachedObjects w,
  match client_New config options w with
  | (Err err, w) => (Err err, w)
  | (Ok c, w) => (NewDelegatingClient IsListType (delegating_input cache c uncachedObjects), w)
  end.

(** [intrec.NewProvider]. *)
Definition intrec_NewProvider : NewRecorderProvider := λ config scheme makeBroadcaster,
  p ← NewProvider (events_NewForConfig config); Ok (mkRecorderProvider makeBroadcaster p).

(** The options once [setOptionsDefaults] has filled them in. *)
Record FullClusterOptions := mkFullClusterOptions {
  fc_Scheme : Scheme;
  fc_MapperProvider : RestConfig → W → result (Mapper W) * W;
  fc_SyncPeriod : option Z;
  fc_Namespace : string;
  fc_NewCache : NewCacheFunc;
  fc_NewClient : NewClientFunc;
  fc_ClientDisableCacheFor : list Object;
  fc_DryRunClient : bool;
  fc_makeBroadcaster : Broadcaster;
  fc_newRecorderProvider : NewRecorderProvider;
}.

Definition setOptionsDefaults (o : ClusterOptions) : FullClusterOptions :=
  mkFullClusterOptions
    (default client_go_scheme (cto_Scheme o))
    (default (λ c, env_NewDynamicRESTMapper ce_client c) (cto_MapperProvider o))
    (cto_SyncPeriod o) (cto_Namespace o)
    (default cache_New (cto_NewCache o))
    (default DefaultNewClient (cto_NewClient o))
    (cto_ClientDisableCacheFor o) (cto_DryRunClient o)
    (match cto_EventBroadcaster o with None => (None, true) | Some b => (Some b, false) end)
    (default intrec_NewProvider (cto_newRecorderProvider o)).

(** [cluster]; the field indexer is the cache. *)
Record Cluster := mkCluster {
  cl_config : RestConfig;
  cl_scheme : Scheme;
  cl_cache : Cache;
  cl_client : Client (RestState W);
  cl_apiReader : Client (RestState W);
  cl_recorderProvider : RecorderProvider;
  cl_mapper : Mapper W;
}.
Implicit Types c : Cluster.

(** [Option]: a function on the options. *)
Definition apply_options (opts : list (ClusterOptions → ClusterOptions)) : ClusterOptions :=
  foldl (λ options opt, opt options) zero_options opts.

Definition New_with (config : RestConfig) (o : FullClusterOptions) w : result Cluster * W :=
  match fc_MapperProvider o config w with
  | (Err err, w) => (Err err, w)
  | (Ok mapper, w) =>
      match fc_NewCache o config (mkCacheOptions (Some (fc_Scheme o)) (Some mapper) (fc_SyncPeriod o) (fc_Namespace o) ∅) w with
      | (Err err, w) => (Err err, w)
      | (Ok cache, w) =>
          let clientOptions := mkClientOptions (Some (fc_Scheme o)) (Some mapper) false false in
          match client_New config clientOptions w with
          | (Err err, w) => (Err err, w)
          | (Ok apiReader, w) =>
              match fc_NewClient o cache config clientOptions (fc_ClientDisableCacheFor o) w with
              | (Err err, w) => (Err err, w)
              | (Ok writeObj, w) =>
                  let writeObj := if fc_DryRunClient o then NewDryRunClient writeObj else writeObj in
                  match fc_newRecorderProvider o config (fc_Scheme o) (fc_makeBroadcaster o) with
                  | Err err => (Err err, w)
                  | Ok recorderProvider =>
                      (Ok (mkCluster config (fc_Scheme o) cache writeObj apiReader recorderProvider mapper), w)
                  end
              end
          end
      end
  end.

Definition err_no_config : error := ErrorString "must specify Config".

Definition New (config : option RestConfig) (opts : list (ClusterOptions → ClusterOptions)) w : result Cluster * W :=
  match config with
  | None => (Err err_no_config, w)
  | Some config => New_with config (setOptionsDefaults (apply_options opts)) w
  end.

Definition GetConfig c : RestConfig := cl_config c.
Definition GetScheme c : Scheme := cl_scheme c.
Definition GetClient c : Client (RestState W) := cl_client c.
Definition GetFieldIndexer c : Cache := cl_cache c.
Definition GetCache c : Cache := cl_cache c.
Definition GetRESTMapper c : Mapper W := cl_mapper c.
Definition GetAPIReader c : Reader (RestState W) := Client_Reader (cl_apiReader c).

(** [Start]: what the cache's [Start] returns; then the provider of recorders is
    stopped (by a goroutine [i] of Recorder), with the context of the call. *)
Definition Start c w : W * option error := cache_Start (cl_cache c) w.
Definition stop_recorders (i : nat) c : Cluster :=
  mkCluster (cl_config c) (cl_scheme c) (cl_cache c) (cl_client c) (cl_apiReader c)
    (mkRecorderProvider (rp_makeBroadcaster (cl_recorderProvider c))
       (set_goroutine i (Stopping SGet) (rp_provider (cl_recorderProvider c))))
    (cl_mapper c).

(** [SetFields]. *)
Definition SetFields {StopChannel Logger} c
    (i : Injectable W RestConfig (Client (RestState W)) (Reader (RestState W)) Scheme Cache (Mapper W) StopChannel Logger)
    : W → W * option error :=
  try_into (inj_Config i) (cl_config c) (
  try_into (inj_Client i) (cl_client c) (
  try_into (inj_APIReader i) (GetAPIReader c) (
  try_into (inj_Scheme i) (cl_scheme c) (
  try_into (inj_Cache i) (cl_cache c) (
  try_into (inj_Mapper i) (cl_mapper c) (λ w, (w, None))))))).
End cluster.

Arguments ClusterEnv : clear implicits.
Arguments ClusterOptions : clear implicits.
Arguments Cluster : clear implicits.

(** ** What a cluster's client does *)

Section facts.
Context {W : Type} `{RestAPI W, !WatchAPI (W := W), !ListAPI W}.
Context `{!MapRange loc (Object * CacheSelector), !CacheEnv W}.
Context {Cache B E : Type} `{!ClusterEnv W Cache}.
Implicit Types (w : W) (cl : Cluster W Cache B E).

(** The client of the API server that the cluster's client is made of. *)
Definition server_client (config : RestConfig) (scheme : Scheme) (mapper : Mapper W) : restClient W :=
  mkClient config scheme mapper.
Definition server_interface cl : Client (RestState W) :=
  rest_Client (server_client (cl_config cl) (cl_scheme cl) (cl_mapper cl)) (mapper_scopes_of (cl_mapper cl)).

Lemma client_New_Ok config scheme mapper sup dup w c w' :
  client_New (Cache := Cache) config (mkClientOptions (Some scheme) (Some mapper) sup dup) w = (Ok c, w') →
  c = rest_Client (server_client config scheme mapper) (mapper_scopes_of mapper).
Proof. unfold client_New, newClient. cbn. destruct (env_metadata_NewForConfig _ _); [done|]. by intros [= <- _]. Qed.

Lemma cluster_New_Ok config opts w cl w' :
  New (Some config) opts w = (Ok cl, w') →
  let o := apply_options opts in
  cl_config cl = config ∧ cl_scheme cl = default client_go_scheme (cto_Scheme o)
  ∧ cl_apiReader cl = server_interface cl
  ∧ (cto_newRecorderProvider o = None →
     rp_makeBroadcaster (cl_recorderProvider cl) = fc_makeBroadcaster (setOptionsDefaults o)
     ∧ rp_provider (cl_recorderProvider cl) = fresh_provider)
  ∧ (cto_NewClient o = None → ∃ d,
       NewDelegatingClient IsListType
         (delegating_input (cl_cache cl) (server_interface cl) (cto_ClientDisableCacheFor o)) = Ok d
       ∧ cl_client cl = if cto_DryRunClient o then NewDryRunClient d else d).
Proof.
  intros Hnew o. cbn [New] in Hnew. fold o in Hnew. unfold New_with in Hnew.
  destruct (fc_MapperProvider (setOptionsDefaults o) config w) as [[mapper|] w1]; [|done].
  destruct (fc_NewCache (setOptionsDefaults o) _ _ w1) as [[cache|] w2]; [|done].
  destruct (client_New config _ w2) as [[apiReader|] w3] eqn:Hapi; [|done]. apply client_New_Ok in Hapi.
  destruct (fc_NewClient (setOptionsDefaults o) _ _ _ _ w3) as [[writeObj|] w4] eqn:Hwrite; [|done].
  destruct (fc_newRecorderProvider (setOptionsDefaults o) _ _ _) as [rp|] eqn:Hrp; [|done]. injection Hnew as <- _.
  cbn. split; [done|]. split; [done|]. split; [done|]. split.
  - intros Hnone. cbn in Hrp. rewrite Hnone in Hrp. cbn in Hrp. unfold intrec_NewProvider, NewProvider in Hrp.
    destruct (events_NewForConfig config); [|done]. cbn in Hrp. by injection Hrp as <-.
  - intros Hnone. cbn in Hwrite. rewrite Hnone in Hwrite. cbn in Hwrite. unfold DefaultNewClient in Hwrite.
    destruct (client_New config _ w3) as [[c|] w5] eqn:Hc; [|done]. apply client_New_Ok in Hc as ->.
    injection Hwrite as Hd _. exists writeObj. split; [exact Hd|done].
Qed.

(** Changes go through the layers that reads go through a cache for. *)
Lemma delegating_writes (i : NewDelegatingClientInput (RestState W)) d op s :
  NewDelegatingClient IsListType i = Ok d → mutating op → call_op d op s = call_op (in_Client i) op s.
Proof. unfold NewDelegatingClient. intros (? & _ & [= <-])%result_bind_Ok Hm. by destruct op. Qed.
Lemma delegating_dry_writes (i : NewDelegatingClientInput (RestState W)) d op s :
  NewDelegatingClient IsListType i = Ok d → mutating op →
  call_op (NewDryRunClient d) op s = call_op (NewDryRunClient (in_Client i)) op s.
Proof. unfold NewDelegatingClient. intros (? & _ & [= <-])%result_bind_Ok Hm. by destruct op. Qed.
Lemma dry_run_reads (c : Client (RestState W)) :
  Get (NewDryRunClient c) = Get c ∧ List (NewDryRunClient c) = List c.
Proof. done. Qed.

(** C24: The default client of a cluster.  Its changes are those of the client of the
    API server.  With [DryRunClient] a change sends at most one request, which
    carries the directive [All] whatever the options of the call - unless it is a
    patch of the status of an object of which only the metadata is known: its
    request carries no directive at all and changes the object.  An object of a kind is
    read from the server exactly when one of the objects the cache is disabled for
    is of that kind or the object is unstructured, and from the cluster's cache
    otherwise, and so are lists of the kind.  The reader of the API never reads
    from the cache. *)
Theorem cluster_client_routes config opts w cl w' :
  let o := apply_options opts in
  let c := server_client (cl_config cl) (cl_scheme cl) (cl_mapper cl) in
  New (Some config) opts w = (Ok cl, w') → cto_NewClient o = None →
  cl_config cl = config
  ∧ (∀ op s, mutating op → cto_DryRunClient o = false → call_op (GetClient cl) op s = run_op c op s)
  ∧ (∀ (Hsent : SentRequests W c) op s,
       mutating op → op_raw_ok s op → cto_DryRunClient o = true →
       let s' := (call_op (GetClient cl) op s).2 in
       sent (st_world s') = sent (st_world s) ∨
       ∃ rq, sent (st_world s') = sent (st_world s) ++ [rq]
         ∧ request_DryRun rq = if is_metadata_status_patch op then None else Some ["All"])
  ∧ (∀ obj l k,
       GVKForObject obj (cl_scheme cl) = Ok k →
       GVKForList l (cl_scheme cl) = Ok (mkGVK (gvk_Group k) (gvk_Version k) (gvk_Kind k +:+ "List")) →
       IsListType (o_type obj) = false → IsListType (ol_type l) = true →
       is_unstructured (ol_type l) = is_unstructured (o_type obj) →
       ∃ from_server : bool,
         (from_server = true ↔
            (∃ u, u ∈ cto_ClientDisableCacheFor o ∧ GVKForObject u (cl_scheme cl) = Ok k)
            ∨ is_unstructured (o_type obj) = true)
         ∧ (∀ key s, Get (GetClient cl) key obj s =
              if from_server then client_Get c key obj s else Reader_Get (cache_Reader (GetCache cl)) key obj s)
         ∧ (∀ lopts s, List (GetClient cl) lopts l s =
              if from_server then client_List c lopts l s else Reader_List (cache_Reader (GetCache cl)) lopts l s))
  ∧ (∀ key, Reader_Get (GetAPIReader cl) key = client_Get c key) ∧ (∀ lopts, Reader_List (GetAPIReader cl) lopts = client_List c lopts).
Proof.
  intros o c Hnew Hdef. destruct (cluster_New_Ok _ _ _ _ _ Hnew) as (Hcfg & _ & Hapi & _ & Hd).
  destruct (Hd Hdef) as (d & Hdel & Hcl). fold o in Hcl, Hdel. clear Hd. split; [done|].
  unfold GetAPIReader, GetClient. rewrite Hapi. split; [|split; [|split; [|done]]].
  - intros op s Hm Hdry. rewrite Hcl, Hdry, (delegating_writes _ _ _ _ Hdel Hm). apply call_op_rest.
  - intros Hsent op s Hm Hraw Hdry. rewrite Hcl, Hdry, (delegating_dry_writes _ _ _ _ Hdel Hm). cbn [in_Client delegating_input].
    destruct (dry_run_on_the_wire c (mapper_scopes_of (cl_mapper cl)) op s Hm Hraw) as [?|(rq & Hs & Hreal & Hdryrun)]; [by left|].
    right. exists rq. split; [done|].
    destruct (is_metadata_status_patch op) eqn:Hst; [by apply Hreal, is_metadata_status_patch_spec|].
    apply Hdryrun. intros ?%is_metadata_status_patch_spec. congruence.
  - intros obj l k Hobj Hl Hno Hyes Hsort.
    destruct (delegatingClient_routes IsListType _ d obj l k Hdel Hobj Hl Hno Hyes Hsort)
      as (b & Hb & Hget & Hlist & _). exists b. cbn [in_CacheUnstructured delegating_input in_UncachedObjects] in Hb.
    assert (Get (cl_client cl) = Get d ∧ List (cl_client cl) = List d) as [-> ->]
      by (rewrite Hcl; by destruct (cto_DryRunClient o)).
    split; [rewrite Hb; naive_solver|]. split; [apply Hget|apply Hlist].
Qed.

(** A broadcaster the user gives a cluster is never shut down by it: whoever emits
    events with the cluster's recorders and whoever stops it, however often.  One
    that the cluster makes is made once at most. *)
Theorem given_broadcaster_survives config opts w cl w' s :
  New (Some config) opts w = (Ok cl, w') → cto_newRecorderProvider (apply_options opts) = None →
  let owned := (rp_makeBroadcaster (cl_recorderProvider cl)).2 in
  rtc (step owned) (rp_provider (cl_recorderProvider cl)) s →
  (owned = false ↔ is_Some (cto_EventBroadcaster (apply_options opts)))
  ∧ (is_Some (cto_EventBroadcaster (apply_options opts)) → pr_shutdowns s = 0%nat ∧ pr_stopped s = false)
  ∧ (pr_made s ≤ 1)%nat.
Proof.
  intros Hnew Hrec owned Hs. destruct (cluster_New_Ok _ _ _ _ _ Hnew) as (_ & _ & _ & Hp & _).
  destruct (Hp Hrec) as [Hmb Hfresh]. rewrite Hfresh in Hs. apply inv_reachable in Hs as Hinv.
  assert (Hown : owned = false ↔ is_Some (cto_EventBroadcaster (apply_options opts))).
  { unfold owned. rewrite Hmb. cbn. destruct (cto_EventBroadcaster (apply_options opts)); cbn; (split; [|by intros [? [=]]]); [by eauto|done]. }
  split; [done|]. split.
  - intros Hsome%Hown. assert (pr_shutdowns s = 0%nat) as H0.
    { destruct (decide (pr_shutdowns s = 0%nat)) as [|Hne]; [done|]. destruct (inv_down _ _ Hinv Hne) as [Ht _]. congruence. }
    split; [done|]. destruct (pr_stopped s) eqn:Hst; [|done]. by destruct (inv_stopped _ _ Hinv Hst).
  - rewrite (inv_made _ _ Hinv). by case_decide; lia.
Qed.
End facts.
