(* ===== verification/ClusterSamples.v ===== *)
(** * The theorems of Cluster at concrete inputs

    A cluster over the API server of RestSamples, which logs its requests. *)

From S2P Require Export Cluster RestSamples.

#[export] Instance log_ListAPI : ListAPI log_world := {|
  dynamic_NewForConfig := λ _, None;
  metadata_NewForConfig := λ _, None;
  dynamic_List := λ _ _ _ w, (Ok sample_podlist, w);
  scheme_New := λ _ g, Ok (mkList (Typed (gvk_Kind g)) g []);
|}.

Definition log_mapper : Mapper log_world := λ gk vs w, (sample_mapping gk vs, w).

#[export] Instance log_CacheEnv : CacheEnv log_world := {|
  client_go_scheme := sample_scheme;
  NewDiscoveryClientForConfig := λ _, None;
  GetAPIGroupResources := λ _ w, (None, w);
  restmapper_NewDiscoveryRESTMapper := λ _ _, log_mapper;
|}.
#[export] Instance log_order : MapRange loc (Object * CacheSelector) := some_range _ _.

(** A cache is its maps, and reading from it finds nothing. *)
Definition empty_reader : Reader (RestState log_world) :=
  {| Reader_Get := λ _ obj s, (obj, s, Some (ErrorString "not in the cache"));
     Reader_List := λ _ l s, (l, s, None) |}.

#[export] Instance log_ClusterEnv : ClusterEnv log_world (InformersMap log_world) := {|
  ce_client := {| env_scheme := sample_scheme; env_NewDynamicRESTMapper := λ _ w, (Ok log_mapper, w);
                  env_metadata_NewForConfig := λ _, None; env_SetDefaultWarningHandler := λ _ w, w |};
  cache_Reader := λ _, empty_reader;
  cache_over := id;
  mapper_scopes_of := λ _, sample_mapper;
  events_NewForConfig := λ _, Ok ();
  cache_Start := λ _ w, (w, None);
|}.

Definition log_config : RestConfig := mkConfig None "" "" "" None "".

(** A cluster with a dry-run client and the user's broadcaster. *)
Definition dry_options : ClusterOptions log_world (InformersMap log_world) string string → ClusterOptions log_world (InformersMap log_world) string string := λ o,
  mkClusterOptions (cto_Scheme o) (cto_MapperProvider o) (cto_SyncPeriod o) "default" (cto_NewCache o) (cto_NewClient o)
    (cto_ClientDisableCacheFor o) true (Some "broadcaster") (cto_newRecorderProvider o).

Definition log_cluster : Cluster log_world (InformersMap log_world) string string :=
  match New (Some log_config) [dry_options] [] with
  | (Ok c, _) => c
  | (Err _, _) =>
      mkCluster log_config sample_scheme (NewInformersMap log_config sample_scheme log_mapper 0 "" ∅)
        (rest_Client log_client sample_mapper) (rest_Client log_client sample_mapper)
        (mkRecorderProvider (None, true) fresh_provider) log_mapper
  end.

Lemma log_cluster_made : New (Some log_config) [dry_options] [] = (Ok log_cluster, []).
Proof.
  assert (is_ok (New (Some log_config) [dry_options] []).1 = true ∧ (New (Some log_config) [dry_options] []).2 = [])
    as [Hok Hw] by (split; vm_compute; reflexivity).
  unfold log_cluster. destruct (New (Some log_config) [dry_options] []) as [[c|] w]; [|done]. cbn in Hw. by rewrite Hw.
Qed.

Definition log_server : restClient log_world := server_client (cl_config log_cluster) (cl_scheme log_cluster) (cl_mapper log_cluster).

#[export] Instance log_server_sent : SentRequests log_world log_server.
Proof. refine {| sent := id |}; reflexivity. Defined.

(** Creating a pod with the dry-run cluster, and reading one. *)
Lemma cluster_client_routes_witness :
  (let s' := (call_op (GetClient log_cluster) (OpCreate [] sample_pod) log_start).2 in
   st_world s' = [] ∨ ∃ rq, st_world s' = [rq] ∧ request_DryRun rq = Some ["All"])
  ∧ ∃ from_server : bool, from_server ≠ true
    ∧ ∀ key s, Get (GetClient log_cluster) key sample_pod s
        = if from_server then client_Get log_server key sample_pod s else Reader_Get empty_reader key sample_pod s.
Proof.
  destruct (cluster_client_routes log_config [dry_options] [] log_cluster [] log_cluster_made eq_refl)
    as (_ & _ & Hdry & Hread & _). split.
  - destruct (Hdry log_server_sent (OpCreate [] sample_pod) log_start I I eq_refl) as [Hs|(rq & Hs & Hrq)]; [by left|].
    right. exists rq. split; [exact Hs|exact Hrq].
  - destruct (Hread sample_pod sample_podlist pod_gvk eq_refl eq_refl eq_refl eq_refl eq_refl) as (b & Hb & Hget & _).
    exists b. split; [|exact Hget]. intros [(u & Hu & _)|Hu]%Hb; [by apply not_elem_of_nil in Hu|discriminate Hu].
Defined.

Lemma given_broadcaster_survives_witness :
  pr_shutdowns (set_goroutine 0 (Stopping SGet) (rp_provider (cl_recorderProvider log_cluster))) = 0%nat.
Proof.
  refine (proj1 (proj1 (proj2 (given_broadcaster_survives log_config [dry_options] [] log_cluster [] 
    (set_goroutine 0 (Stopping SGet) (rp_provider (cl_recorderProvider log_cluster))) log_cluster_made eq_refl _)) _)).
  - eapply rtc_l; [apply step_stop; vm_compute; reflexivity|apply rtc_refl].
  - eexists. vm_compute. reflexivity.
Defined.
