(* ===== verification/ManagerNew.v ===== *)
(** * The construction of a manager (src/pkg/manager/manager.go, internal.go)

    [New] fills in the defaults (ManagerOptions), makes the cluster (Cluster), the
    resource lock (LeaderElection) and the listeners (metrics/listener.go); the
    manager then injects its dependencies into what is added to it, and makes the
    webhook server on demand. *)

From S2P Require Export Manager ManagerOptions LeaderElection Cluster.

Section manager_new.
Context {W : Type} `{RestAPI W, !WatchAPI (W := W), !ListAPI W}.
Context `{!MapRange loc (Object * CacheSelector), !CacheEnv W}.
(** Caches, broadcasters and events; locks and listeners; webhook servers, handlers
    and checkers. *)
Context {Cache B E Lock Listener S HttpHandler Checker : Type}.
Context `{!ClusterEnv W Cache, !LockEnv W RestConfig Lock}.
Implicit Types w : W.

(** [net.Listen] on TCP, and [webhook.Server] with a port, a host and a directory. *)
Class ListenEnv := {
  net_Listen : string → W → result Listener * W;
  webhook_Server : Z → string → string → S;
}.
Context `{!ListenEnv}.

(** ** Listeners *)

Definition DefaultBindAddress : string := ":8080".

(** [metrics.NewListener]; nil when the metrics are off. *)
Definition NewListener (addr : string) w : result (option Listener) * W :=
  let addr := if decide (addr = "") then DefaultBindAddress else addr in
  if decide (addr = "0") then (Ok None, w)
  else match net_Listen addr w with
       | (Err err, w) => (Err (ErrorWrap ("error listening on " +:+ addr)%string err), w)
       | (Ok ln, w) => (Ok (Some ln), w)
       end.

Definition defaultHealthProbeListener (addr : string) w : result (option Listener) * W :=
  if decide (addr = "" ∨ addr = "0") then (Ok None, w)
  else match net_Listen addr w with
       | (Err err, w) => (Err (ErrorString ("error listening on " +:+ (addr +:+ (": " +:+ error_text err)))%string), w)
       | (Ok ln, w) => (Ok (Some ln), w)
       end.

(** ** [New] *)

(** The options that ManagerOptions leaves out. *)
Record MoreOptions := mkMoreOptions {
  me_MapperProvider : option (RestConfig → W → result (Mapper W) * W);
  me_NewCache : option (Cluster.NewCacheFunc (W := W) (Cache := Cache));
  me_NewClient : option (NewClientFunc (W := W) (Cache := Cache));
  me_ClientDisableCacheFor : list Object;
  me_DryRunClient : bool;
  me_LeaderElectionConfig : option RestConfig;
  me_LeaderElectionReleaseOnCancel : bool;
  me_WebhookServer : option S;
}.

Definition NewLock : Type :=
  RestConfig → RecorderProvider (B := B) (E := E) → LeaderElectionOptions → W → result (option Lock) * W.
Definition NewListenerFunc : Type := string → W → result (option Listener) * W.

(** [Options], the loggers left out. *)
Abbreviation Options :=
  (ManagerOptions Scheme () B (Broadcaster (B := B)) (NewRecorderProvider (B := B) (E := E)) NewLock NewListenerFunc).

(** The default of [newResourceLock]; the recorder is named by the lock. *)
Definition default_NewLock : NewLock := λ config _ options w, NewResourceLock config options w.

Definition with_defaults (o : Options) : Options :=
  ManagerOptions.setOptionsDefaults default_NewLock (intrec_NewProvider (Cache := Cache)) NewListener defaultHealthProbeListener
    (None, true) (λ b, (Some b, false)) () o.

(** What [New] has the cluster's options set to. *)
Definition cluster_option (o : Options) (m : MoreOptions) (c : ClusterOptions W Cache B E) : ClusterOptions W Cache B E :=
  mkClusterOptions (mo_Scheme o) (me_MapperProvider m) (mo_SyncPeriod o) (mo_Namespace o) (me_NewCache m) (me_NewClient m)
    (me_ClientDisableCacheFor m) (me_DryRunClient m) (mo_EventBroadcaster o) (cto_newRecorderProvider c).

(** [controllerManager], with the state of Manager; channels are made and not
    closed. *)
Record controllerManager := mkControllerManager {
  cmn_cluster : Cluster W Cache B E;
  cmn_recorderProvider : RecorderProvider (B := B) (E := E);
  cmn_resourceLock : option Lock;
  cmn_metricsListener : option Listener;
  cmn_healthProbeListener : option Listener;
  cmn_controllerOptions : ControllerConfigurationSpec;
  cmn_readinessEndpointName : string;
  cmn_livenessEndpointName : string;
  cmn_leaseDuration : Z;
  cmn_renewDeadline : Z;
  cmn_retryPeriod : Z;
  cmn_gracefulShutdownTimeout : Z;
  cmn_leaderElectionReleaseOnCancel : bool;
  cmn_port : Z;
  cmn_host : string;
  cmn_certDir : string;
  cmn_webhookServer : option S;
  (** Whether [webhookServerOnce] is done. *)
  cmn_webhookServerOnce : bool;
  cmn_state : Manager HttpHandler Checker;
}.

Definition lock_options (o : Options) : LeaderElectionOptions :=
  mkLeaderElectionOptions (mo_LeaderElection o) (mo_LeaderElectionResourceLock o) (mo_LeaderElectionNamespace o)
    (mo_LeaderElectionID o).

(** The functions and durations that the defaults fill in. *)
Definition the_newRecorderProvider (o : Options) : NewRecorderProvider :=
  default (intrec_NewProvider (Cache := Cache)) (mo_newRecorderProvider o).
Definition the_newResourceLock (o : Options) : NewLock := default default_NewLock (mo_newResourceLock o).

(** What [makeBroadcaster] is set to. *)
Definition the_broadcaster (o : Options) : Broadcaster :=
  match mo_EventBroadcaster o with None => (None, true) | Some b => (Some b, false) end.

Definition New (config : option RestConfig) (options : Options) (more : MoreOptions) w : result controllerManager * W :=
  let o := with_defaults options in
  match Cluster.New config [cluster_option o more] w with
  | (Err err, w) => (Err err, w)
  | (Ok cluster, w) =>
      let config := cl_config cluster in
      match the_newRecorderProvider o config (GetScheme cluster) (default (None, true) (mo_makeBroadcaster o)) with
      | Err err => (Err err, w)
      | Ok recorderProvider =>
          let leaderConfig := default config (me_LeaderElectionConfig more) in
          match the_newResourceLock o leaderConfig recorderProvider (lock_options o) w with
          | (Err err, w) => (Err err, w)
          | (Ok resourceLock, w) =>
              match default NewListener (mo_newMetricsListener o) (mo_MetricsBindAddress o) w with
              | (Err err, w) => (Err err, w)
              | (Ok metricsListener, w) =>
                  match default defaultHealthProbeListener (mo_newHealthProbeListener o) (mo_HealthProbeBindAddress o) w with
                  | (Err err, w) => (Err err, w)
                  | (Ok healthProbeListener, w) =>
                      (Ok (mkControllerManager cluster recorderProvider resourceLock metricsListener healthProbeListener
                             (mo_Controller o) (mo_ReadinessEndpointName o) (mo_LivenessEndpointName o)
                             (default 0%Z (mo_LeaseDuration o)) (default 0%Z (mo_RenewDeadline o))
                             (default 0%Z (mo_RetryPeriod o)) (default 0%Z (mo_GracefulShutdownTimeout o))
                             (me_LeaderElectionReleaseOnCancel more) (mo_Port o) (mo_Host o) (mo_CertDir o)
                             (me_WebhookServer more) false new_manager), w)
                  end
              end
          end
      end
  end.

(** ** Injection (internal.go) *)

Section set_fields.
Context {StopChannel Logger : Type}.
Variable (cl : Cluster W Cache B E) (internalProceduresStop : StopChannel) (logger : Logger).

Abbreviation Target :=
  (Injectable W RestConfig (Client (RestState W)) (Reader (RestState W)) Scheme Cache (Mapper W) StopChannel Logger).

Fixpoint SetFields (i : Target) w {struct i} : W * option error :=
  match Cluster.SetFields cl i w with
  | (w, Some err) => (w, Some err)
  | (w, None) =>
      match InjectorInto SetFields i w with
      | (w, (_, Some err)) => (w, Some err)
      | (w, (_, None)) =>
          try_into (inj_StopChannel i) internalProceduresStop (
          try_into (inj_Logger i) logger (λ w, (w, None))) w
      end
  end.

(** The calls this should make, one after the other: what a value asks of the
    cluster, then what its parts ask for, then what it asks of the manager. *)
Definition cluster_calls (i : Target) : list (W → W * option error) :=
  asked (inj_Config i) (cl_config cl) ++ asked (inj_Client i) (cl_client cl) ++ asked (inj_APIReader i) (GetAPIReader cl)
  ++ asked (inj_Scheme i) (cl_scheme cl) ++ asked (inj_Cache i) (cl_cache cl) ++ asked (inj_Mapper i) (cl_mapper cl).
Fixpoint manager_calls (i : Target) : list (W → W * option error) :=
  cluster_calls i
  ++ match inj_Injector i with Some parts => parts ≫= manager_calls | None => [] end
  ++ asked (inj_StopChannel i) internalProceduresStop ++ asked (inj_Logger i) logger.
End set_fields.

(** ** The webhook server on demand (internal.go) *)

Section webhook_server.
(** [SetFields] on a runnable, and the server as one. *)
Variable runnable_SetFields : Runnable → option error.
Variable server_runnable : Runnable.
Implicit Types cm : controllerManager.

Definition set_webhook (server : option S) (st : Manager HttpHandler Checker) cm : controllerManager :=
  mkControllerManager (cmn_cluster cm) (cmn_recorderProvider cm) (cmn_resourceLock cm) (cmn_metricsListener cm)
    (cmn_healthProbeListener cm) (cmn_controllerOptions cm) (cmn_readinessEndpointName cm) (cmn_livenessEndpointName cm)
    (cmn_leaseDuration cm) (cmn_renewDeadline cm) (cmn_retryPeriod cm) (cmn_gracefulShutdownTimeout cm)
    (cmn_leaderElectionReleaseOnCancel cm) (cmn_port cm) (cmn_host cm) (cmn_certDir cm) server true st.

(** A [sync.Once] is done also when its function panics. *)
Definition GetWebhookServer cm : controllerManager * outcome (option S) :=
  if cmn_webhookServerOnce cm then (cm, Returned (cmn_webhookServer cm))
  else
    let server := match cmn_webhookServer cm with
                  | Some s => s
                  | None => webhook_Server (cmn_port cm) (cmn_host cm) (cmn_certDir cm)
                  end in
    let '(st, err) := Manager.Add runnable_SetFields server_runnable (cmn_state cm) in
    let cm := set_webhook (Some server) st cm in
    (cm, match err with
         | Some _ => Panicked "unable to add webhook server to the controller manager"
         | None => Returned (Some server)
         end).

(** Any number of calls; a panic ends one of them. *)
Fixpoint GetWebhookServer_calls (n : nat) cm : controllerManager * list (outcome (option S)) :=
  match n with
  | 0 => (cm, [])
  | Datatypes.S n =>
      let '(cm, r) := GetWebhookServer cm in
      let '(cm, rs) := GetWebhookServer_calls n cm in (cm, r :: rs)
  end.
End webhook_server.
End manager_new.

Arguments ListenEnv : clear implicits.
Arguments MoreOptions : clear implicits.
Arguments controllerManager : clear implicits.

(** ** Facts *)

Section facts.
Context {W : Type} `{RestAPI W, !WatchAPI (W := W), !ListAPI W}.
Context `{!MapRange loc (Object * CacheSelector), !CacheEnv W}.
Context {Cache B E Lock Listener S HttpHandler Checker : Type}.
Context `{!ClusterEnv W Cache, !LockEnv W RestConfig Lock, !ListenEnv W Listener S}.
Implicit Types (w : W).

Section injection.
Context {StopChannel Logger : Type} (cl : Cluster W Cache B E) (stop : StopChannel) (logger : Logger).

Lemma cluster_SetFields_run (i : Injectable W RestConfig (Client (RestState W)) (Reader (RestState W)) Scheme Cache (Mapper W)
    StopChannel Logger) w :
  Cluster.SetFields cl i w = run_calls (cluster_calls cl i) w.
Proof.
  unfold Cluster.SetFields, cluster_calls. do 5 (apply try_into_run; intros).
  rewrite <- (app_nil_r (asked (inj_Mapper i) _)). by apply try_into_run.
Qed.

(** C28: A manager injects into whatever is added to it, down to the parts its parts
    have, exactly the dependencies they ask for, each once, in the order of the
    interfaces, the parts of a value between what it is given by the cluster and
    what it is given by the manager; and it stops at the first error, which it
    returns. *)
Theorem SetFields_in_order i w : SetFields cl stop logger i w = run_calls (manager_calls cl stop logger i) w.
Proof.
  revert w. induction i as [i IH] using Injectable_parts_ind. intros w.
  assert (manager_calls cl stop logger i = cluster_calls cl i
    ++ match inj_Injector i with Some parts => parts ≫= manager_calls cl stop logger | None => [] end
    ++ asked (inj_StopChannel i) stop ++ asked (inj_Logger i) logger) as -> by (by destruct i).
  assert (SetFields cl stop logger i w =
    match Cluster.SetFields cl i w with
    | (w, Some err) => (w, Some err)
    | (w, None) =>
        match InjectorInto (SetFields cl stop logger) i w with
        | (w, (_, Some err)) => (w, Some err)
        | (w, (_, None)) => try_into (inj_StopChannel i) stop (try_into (inj_Logger i) logger (λ w, (w, None))) w
        end
    end) as -> by (by destruct i).
  rewrite run_calls_app, cluster_SetFields_run. destruct (run_calls (cluster_calls cl i) w) as [w1 [err|]]; [done|].
  assert (∀ v, try_into (inj_StopChannel i) stop (try_into (inj_Logger i) logger (λ w, (w, None))) v
    = run_calls (asked (inj_StopChannel i) stop ++ asked (inj_Logger i) logger) v) as Hlast.
  { intros v. apply try_into_run. intros u. rewrite <- (app_nil_r (asked (inj_Logger i) logger)). by apply try_into_run. }
  rewrite run_calls_app. unfold InjectorInto. destruct (inj_Injector i) as [parts|] eqn:Hp; [|apply Hlast].
  rewrite (inject_parts_run _ (manager_calls cl stop logger)) by (intros j Hj; by apply (IH parts j)).
  destruct (run_calls (parts ≫= manager_calls cl stop logger) w1) as [w2 [err|]]; [done|apply Hlast].
Qed.
End injection.

(** *** What [New] makes *)

Abbreviation manager := (controllerManager W Cache B E Lock Listener S HttpHandler Checker).

Lemma manager_New_Ok config options more w (cm : manager) w' :
  New config options more w = (Ok cm, w') →
  ∃ w1 w2 rp lock,
    Cluster.New config [cluster_option (with_defaults options) more] w = (Ok (cmn_cluster cm), w1)
    ∧ the_newRecorderProvider (with_defaults options) (cl_config (cmn_cluster cm)) (cl_scheme (cmn_cluster cm))
        (the_broadcaster options) = Ok rp
    ∧ cmn_recorderProvider cm = rp ∧ cmn_resourceLock cm = lock
    ∧ the_newResourceLock options (default (cl_config (cmn_cluster cm)) (me_LeaderElectionConfig more)) rp
        (lock_options options) w1 = (Ok lock, w2)
    ∧ cmn_leaseDuration cm = default defaultLeaseDuration (mo_LeaseDuration options)
    ∧ cmn_renewDeadline cm = default defaultRenewDeadline (mo_RenewDeadline options)
    ∧ cmn_retryPeriod cm = default defaultRetryPeriod (mo_RetryPeriod options)
    ∧ cmn_gracefulShutdownTimeout cm = default defaultGracefulShutdownPeriod (mo_GracefulShutdownTimeout options)
    ∧ cmn_state cm = new_manager.
Proof.
  unfold New. destruct (Cluster.New _ _ w) as [[cl|] w1] eqn:Hcl; [|done].
  destruct (the_newRecorderProvider _ _ _ _) as [rp|] eqn:Hrp; [|done].
  destruct (the_newResourceLock _ _ _ _ w1) as [[lock|] w2] eqn:Hlock; [|done].
  destruct (default NewListener _ _ w2) as [[ml|] w3]; [|done].
  destruct (default defaultHealthProbeListener _ _ w3) as [[hl|] w4]; [|done].
  intros [= <- <-]. exists w1, w2, rp, lock. cbn. split; [done|]. split; [exact Hrp|]. split; [done|]. split; [done|].
  split; [exact Hlock|]. by repeat split.
Qed.

(** A manager that [New] makes has a lock to compete for exactly when leader
    election is on; then it is the lock named by the options, of the kind named or
    "configmapsleases", in the namespace named or the pod's own.  The cluster is
    made with the manager's options.  A broadcaster that is given is used by the
    manager and by the cluster, and neither shuts it down; when none is given each
    makes one of its own.  What is not set has its default, and nothing has been
    started. *)
Theorem manager_New_as_configured `{!LockLaws} config options more w (cm : manager) w' :
  mo_newResourceLock options = None → mo_newRecorderProvider options = None →
  New config options more w = (Ok cm, w') →
  (mo_LeaderElection options = false ↔ cmn_resourceLock cm = None)
  ∧ (∀ lock, cmn_resourceLock cm = Some lock →
       ls_Name (spec_of lock) = mo_LeaderElectionID options ∧ mo_LeaderElectionID options ≠ ""
       ∧ ls_Kind (spec_of lock) = (if decide (mo_LeaderElectionResourceLock options = "") then "configmapsleases"
                                   else mo_LeaderElectionResourceLock options)
       ∧ (mo_LeaderElectionNamespace options ≠ "" → ls_Namespace (spec_of lock) = mo_LeaderElectionNamespace options))
  ∧ config = Some (cl_config (cmn_cluster cm))
  ∧ cl_scheme (cmn_cluster cm) = default client_go_scheme (mo_Scheme options)
  ∧ rp_makeBroadcaster (cmn_recorderProvider cm)
    = (match mo_EventBroadcaster options with None => (None, true) | Some b => (Some b, false) end)
  ∧ rp_makeBroadcaster (cl_recorderProvider (cmn_cluster cm)) = rp_makeBroadcaster (cmn_recorderProvider cm)
  ∧ cmn_leaseDuration cm = default (15 * 10 ^ 9)%Z (mo_LeaseDuration options)
  ∧ cmn_renewDeadline cm = default (10 * 10 ^ 9)%Z (mo_RenewDeadline options)
  ∧ cmn_retryPeriod cm = default (2 * 10 ^ 9)%Z (mo_RetryPeriod options)
  ∧ cmn_state cm = new_manager.
Proof.
  intros Hnl Hnr Hnew. destruct (manager_New_Ok _ _ _ _ _ _ Hnew)
    as (w1 & w2 & rp & lock & Hcl & Hrp & <- & Hlk & Hlock & Hl & Hrd & Hrt & _ & Hst).
  unfold the_newResourceLock in Hlock. rewrite Hnl in Hlock. cbn in Hlock. unfold default_NewLock in Hlock.
  assert (Hrpm : rp_makeBroadcaster (cmn_recorderProvider cm)
    = the_broadcaster options).
  { assert (the_newRecorderProvider (with_defaults options) = intrec_NewProvider (Cache := Cache)) as Hdef.
    { change (default (intrec_NewProvider (Cache := Cache)) (mo_newRecorderProvider options) = intrec_NewProvider (Cache := Cache)).
      by rewrite Hnr. }
    rewrite Hdef in Hrp. unfold intrec_NewProvider in Hrp.
    apply result_bind_Ok in Hrp as (p & _ & [= <-]). done. }
  destruct config as [config|]; [|done].
  destruct (Cluster.cluster_New_Ok _ _ _ _ _ Hcl) as (Hcfg & Hsch & _ & Hprov & _). destruct (Hprov eq_refl) as [Hmb _].
  rewrite Hlk. split; [|split; [|split; [by rewrite Hcfg|split; [done|split; [done|split; [by rewrite Hrpm, Hmb|done]]]]]].
  - split.
    + intros Hoff. revert Hlock. unfold NewResourceLock. cbn. rewrite Hoff. cbn. by intros [= <- _].
    + intros ->. revert Hlock. unfold NewResourceLock. cbn. destruct (mo_LeaderElection options); [|done]. cbn.
      intros Hl0. repeat case_match; discriminate.
  - intros l ->. apply NewResourceLock_Ok in Hlock as (host & uuid & _ & Hid & _ & _ & Hname & _ & _ & Hkind & Hns).
    cbn in *. split; [done|]. split; [done|]. split; [done|]. intros Hne. unfold lock_namespace in Hns. cbn in Hns.
    rewrite decide_False in Hns by done. by injection Hns.
Qed.

(** When the health probes cannot be listened for, [New] fails and does nothing
    more: the listener for the metrics, which it has made, is left open, and
    nobody has it. *)
Lemma failed_New_leaves_listener config options (more : MoreOptions W Cache S) w (cl : Cluster W Cache B E) w1 rp lock w2
    (ln : Listener) w3 err w4 :
  Cluster.New config [cluster_option (with_defaults options) more] w = (Ok cl, w1) →
  the_newRecorderProvider (with_defaults options) (cl_config cl) (GetScheme cl)
    (the_broadcaster options) = Ok rp →
  the_newResourceLock options (default (cl_config cl) (me_LeaderElectionConfig more)) rp (lock_options options) w1
    = (Ok lock, w2) →
  mo_newMetricsListener options = None → mo_newHealthProbeListener options = None →
  mo_MetricsBindAddress options ≠ "0" → mo_MetricsBindAddress options ≠ "" →
  mo_HealthProbeBindAddress options ≠ "0" → mo_HealthProbeBindAddress options ≠ "" →
  net_Listen (mo_MetricsBindAddress options) w2 = (Ok ln, w3) →
  net_Listen (mo_HealthProbeBindAddress options) w3 = (Err err, w4) →
  ∃ e, New config options more w = (Err (A := manager) e, w4).
Proof.
  intros Hcl Hrp Hlock Hm Hh Hm0 Hm1 Hh0 Hh1 Hlm Hlh. unfold New. rewrite Hcl. cbn beta iota zeta.
  assert (default (None, true) (mo_makeBroadcaster (with_defaults options))
    = the_broadcaster options) as -> by done.
  rewrite Hrp. cbn beta iota zeta.
  assert (the_newResourceLock (with_defaults options) = the_newResourceLock options) as -> by done.
  assert (lock_options (with_defaults options) = lock_options options) as -> by done. rewrite Hlock. cbn beta iota zeta.
  assert (default NewListener (mo_newMetricsListener (with_defaults options)) = NewListener) as ->
    by (change (default NewListener (mo_newMetricsListener options) = NewListener); by rewrite Hm).
  assert (default defaultHealthProbeListener (mo_newHealthProbeListener (with_defaults options)) = defaultHealthProbeListener)
    as -> by (change (default defaultHealthProbeListener (mo_newHealthProbeListener options) = defaultHealthProbeListener);
      by rewrite Hh).
  change (mo_MetricsBindAddress (with_defaults options)) with (mo_MetricsBindAddress options).
  change (mo_HealthProbeBindAddress (with_defaults options)) with (mo_HealthProbeBindAddress options).
  unfold NewListener, defaultHealthProbeListener. rewrite (decide_False (P := mo_MetricsBindAddress options = "")) by done. cbn zeta.
  rewrite decide_False by done. rewrite Hlm. cbn beta iota. rewrite decide_False by (by intros [?|?]). rewrite Hlh. eauto.
Qed.

(** *** The webhook server *)

Section webhooks.
Variable runnable_SetFields : Runnable → option error.
Variable r : Runnable.

Lemma calls_done n (cm : manager) :
  cmn_webhookServerOnce cm = true →
  GetWebhookServer_calls runnable_SetFields r n cm = (cm, replicate n (Returned (cmn_webhookServer cm))).
Proof.
  intros Hd. induction n as [|n IH]; [done|]. cbn [GetWebhookServer_calls replicate]. unfold GetWebhookServer at 1.
  by rewrite Hd, IH.
Qed.

(** However often a manager is asked for its webhook server it is given out the
    same one, the one of the options if there is one, and it is added to the
    manager by the first call alone.  When it cannot be added, as when the manager
    is stopping, the first call panics; the later ones return the server although
    it was never added. *)
Theorem webhook_server_added_once n (cm : manager) :
  cmn_webhookServerOnce cm = false →
  let server := default (webhook_Server (cmn_port cm) (cmn_host cm) (cmn_certDir cm)) (cmn_webhookServer cm) in
  let added := Manager.Add runnable_SetFields r (cmn_state cm) in
  let '(cm', rs) := GetWebhookServer_calls runnable_SetFields r (Datatypes.S n) cm in
  cmn_state cm' = added.1 ∧ cmn_webhookServer cm' = Some server
  ∧ rs = (match added.2 with
          | None => Returned (Some server)
          | Some _ => Panicked "unable to add webhook server to the controller manager"
          end) :: replicate n (Returned (Some server))
  ∧ (cm_stopProcedureEngaged (cmn_state cm) = true → is_Some added.2 ∧ cmn_state cm' = cmn_state cm).
Proof.
  intros Hd server added. cbn [GetWebhookServer_calls]. unfold GetWebhookServer at 1. rewrite Hd.
  assert (Hstop : cm_stopProcedureEngaged (cmn_state cm) = true → is_Some added.2 ∧ added.1 = cmn_state cm).
  { intros Hs. unfold added, Manager.Add. rewrite Hs. by split; [eexists|]. }
  fold added. destruct added as [st err]. cbn in Hstop.
  rewrite calls_done by done. cbn. split; [done|]. split; [unfold server; by destruct (cmn_webhookServer cm)|].
  split; [|done]. assert (match cmn_webhookServer cm with Some s => s | None => _ end = server) as -> by
    (unfold server; by destruct (cmn_webhookServer cm)). by destruct err.
Qed.
End webhooks.
End facts.
