(* ===== verification/WebhookInjection.v ===== *)
(** * Injection into webhooks (src/pkg/webhook/admission/webhook.go, inject.go,
    multi.go, validator.go, defaulter.go, src/pkg/webhook/authentication/webhook.go)

    How the decoder of an admission webhook and the dependencies of a manager
    reach the handlers of the webhook, which may be chains of handlers, and what a
    webhook without a server gets. *)

From S2P Require Export Admission Inject.

Section injection.
(** What else is injected into, and what handlers of users are. *)
Context {W V Decoder Scheme Logger : Type}.

(** The decoder of the webhook, those of the built-in handlers by address, and the
    rest of the world. *)
Record Hooks := mkHooks {
  hk_decoder : option Decoder;
  hk_decoders : gmap nat (option Decoder);
  hk_world : W;
}.
Implicit Types s : Hooks.

Definition set_webhook_decoder (d : option Decoder) s : Hooks := mkHooks d (hk_decoders s) (hk_world s).

(** [InjectDecoder] of [validatingHandler] and of [mutatingHandler]. *)
Definition InjectDecoder (l : nat) (d : option Decoder) s : Hooks * option error :=
  (mkHooks (hk_decoder s) (<[l := d]> (hk_decoders s)) (hk_world s), None).

(** A value that is injected into: a nil handler; a built-in handler; a chain; a
    handler of a user, which may be a [DecoderInjector] and, with the parts it
    hands the function on to, an [Injector]. *)
Inductive Target :=
  | NilHandler
  | Builtin (l : nat)
  | Multi (hs : list Target)
  | User (v : V) (decoder : option (option Decoder → Hooks → Hooks * option error)) (parts : option (list Target)).
Implicit Types t : Target.

Fixpoint InjectDecoderInto (d : option Decoder) t s : Hooks * (bool * option error) :=
  match t with
  | NilHandler => (s, (false, None))
  | Builtin l => let '(s, err) := InjectDecoder l d s in (s, (true, err))
  | Multi hs =>
      let '(s, err) := inject_handlers (λ h s, let '(s, (_, err)) := InjectDecoderInto d h s in (s, err)) hs s in
      (s, (true, err))
  | User _ m _ => Into m d s
  end.

(** What the [InjectFunc] of a value hands the function to. *)
Definition parts_of t : option (list Target) :=
  match t with
  | NilHandler | Builtin _ => None
  | Multi hs => Some hs
  | User _ _ parts => parts
  end.

Definition InjectorInto (f : Target → Hooks → Hooks * option error) t s : Hooks * (bool * option error) :=
  match parts_of t with
  | Some parts => let '(s, err) := inject_handlers f parts s in (s, (true, err))
  | None => (s, (false, None))
  end.

(** ** The webhook *)

Record Webhook := mkWebhook {
  wh_Handler : Target;
  wh_log : option Logger;
}.

(** The dependencies a manager injects. *)
Variable f : Target → Hooks → Hooks * option error.

(** The function [setFields] of [InjectFunc]. *)
Fixpoint setFields t s {struct t} : Hooks * option error :=
  match f t s with
  | (s, Some err) => (s, Some err)
  | (s, None) =>
      match (match t with
             | NilHandler | Builtin _ | User _ _ None => (s, None)
             | Multi parts | User _ _ (Some parts) => inject_handlers setFields parts s
             end) with
      | (s, Some err) => (s, Some err)
      | (s, None) => let '(s, (_, err)) := InjectDecoderInto (hk_decoder s) t s in (s, err)
      end
  end.

Definition InjectFunc (wh : Webhook) s : Hooks * option error := setFields (wh_Handler wh) s.

(** The same of an authentication webhook, without decoders. *)
Fixpoint auth_setFields t s {struct t} : Hooks * option error :=
  match f t s with
  | (s, Some err) => (s, Some err)
  | (s, None) =>
      match t with
      | NilHandler | Builtin _ | User _ _ None => (s, None)
      | Multi parts | User _ _ (Some parts) => inject_handlers auth_setFields parts s
      end
  end.

Definition InjectLogger (l : Logger) (wh : Webhook) : Webhook := mkWebhook (wh_Handler wh) (Some l).

Variable NewCodecFactory : Scheme → Decoder.
Definition NewDecoder (scheme : Scheme) : result Decoder := Ok (NewCodecFactory scheme).

Definition InjectScheme (wh : Webhook) (scheme : Scheme) s : Hooks * option error :=
  match NewDecoder scheme with
  | Err err => (set_webhook_decoder None s, Some err)
  | Ok d =>
      let s := set_webhook_decoder (Some d) s in
      match wh_Handler wh with
      | NilHandler => (s, None)
      | h => let '(s, (_, err)) := InjectDecoderInto (hk_decoder s) h s in (s, err)
      end
  end.

(** ** A webhook without a server *)

Record StandaloneOptions := mkStandaloneOptions {
  so_Scheme : option Scheme;
  so_Logger : option Logger;
  so_MetricsPath : string;
}.

Inductive StandaloneHandler := BareHook (wh : Webhook) | InstrumentedHook (path : string) (wh : Webhook).

(** [scheme.Scheme] of client-go, and the logger of webhooks. *)
Variable the_scheme : Scheme.
Variable webhook_log : Logger.

Definition StandaloneWebhook (hook : Webhook) (opts : StandaloneOptions) s : Hooks * result StandaloneHandler :=
  match InjectScheme hook (default the_scheme (so_Scheme opts)) s with
  | (s, Some err) => (s, Err err)
  | (s, None) =>
      let hook := InjectLogger (default webhook_log (so_Logger opts)) hook in
      (s, Ok (if decide (so_MetricsPath opts = "") then BareHook hook else InstrumentedHook (so_MetricsPath opts) hook))
  end.

(** ** What is called *)

(** Induction on a value and its parts. *)
Lemma Target_parts_ind (P : Target → Prop) :
  (∀ t, (∀ parts t', parts_of t = Some parts → t' ∈ parts → P t') → P t) → ∀ t, P t.
Proof.
  intros Hstep. refine (fix go t := _). apply Hstep. destruct t as [|l|hs|v m [ps|]]; cbn.
  1,2,5: clear go; discriminate.
  - intros parts t' [= <-] Ht'. assert (Forall P hs) as HP.
    { clear Ht'. induction hs as [|k hs IH]; [apply Forall_nil_2|apply Forall_cons_2; [apply go|exact IH]]. }
    clear go. by apply (proj1 (Forall_forall _ _) HP).
  - intros parts t' [= <-] Ht'. assert (Forall P ps) as HP.
    { clear Ht'. induction ps as [|k ps IH]; [apply Forall_nil_2|apply Forall_cons_2; [apply go|exact IH]]. }
    clear go. by apply (proj1 (Forall_forall _ _) HP).
Qed.

Lemma setFields_eq t s :
  setFields t s =
    match f t s with
    | (s, Some err) => (s, Some err)
    | (s, None) =>
        match InjectorInto setFields t s with
        | (s, (_, Some err)) => (s, Some err)
        | (s, (_, None)) => let '(s, (_, err)) := InjectDecoderInto (hk_decoder s) t s in (s, err)
        end
    end.
Proof.
  unfold InjectorInto.
  destruct t as [|l|hs|v m [ps|]]; cbn [setFields parts_of]; destruct (f _ s) as [s1 [err|]]; try done;
    by destruct (inject_handlers setFields _ s1) as [s2 [err|]].
Qed.

(** The calls of [InjectDecoder] that injecting a decoder makes. *)
Fixpoint decoder_calls (d : option Decoder) t : list (Hooks → Hooks * option error) :=
  match t with
  | NilHandler => []
  | Builtin l => [InjectDecoder l d]
  | Multi hs => hs ≫= decoder_calls d
  | User _ m _ => asked m d
  end.

(** The calls that injecting the function makes: of the function, those of the
    parts, and of the decoder the webhook has by then. *)
Fixpoint fields_calls t : list (Hooks → Hooks * option error) :=
  f t :: (match t with
          | NilHandler | Builtin _ | User _ _ None => []
          | Multi parts | User _ _ (Some parts) => parts ≫= fields_calls
          end) ++ [λ s, run_calls (decoder_calls (hk_decoder s) t) s].

Lemma inject_handlers_run (g : Target → Hooks → Hooks * option error) calls hs s :
  (∀ t, t ∈ hs → ∀ s, g t s = run_calls (calls t) s) → inject_handlers g hs s = run_calls (hs ≫= calls) s.
Proof.
  revert s. induction hs as [|t hs IH]; intros s Hg; [done|]. cbn.
  rewrite run_calls_app, (Hg t) by (by left). destruct (run_calls (calls t) s) as [s1 [err|]]; [done|].
  apply IH. intros t' Ht'. apply Hg. by right.
Qed.

Lemma InjectDecoderInto_run d t s :
  (let '(s, (_, err)) := InjectDecoderInto d t s in (s, err)) = run_calls (decoder_calls d t) s.
Proof.
  revert s. induction t as [t IH] using Target_parts_ind. intros s. destruct t as [|l|hs|v m parts]; cbn; [done|done| |].
  - rewrite (inject_handlers_run _ (decoder_calls d)) by (intros t Ht s1; by apply (IH hs)).
    by destruct (run_calls _ s) as [s1 err].
  - unfold Into, asked. destruct m as [m|]; [|done]. cbn. by destruct (m d s) as [s1 [err|]].
Qed.

Lemma setFields_run t s : setFields t s = run_calls (fields_calls t) s.
Proof.
  revert s. induction t as [t IH] using Target_parts_ind. intros s. rewrite setFields_eq.
  assert (fields_calls t = f t :: (default [] (parts_of t) ≫= fields_calls) ++ [λ s, run_calls (decoder_calls (hk_decoder s) t) s])
    as -> by by destruct t as [| | |? ? []].
  cbn [run_calls]. destruct (f t s) as [s1 [err|]]; [done|]. rewrite run_calls_app.
  assert (∀ s, (let '(s, (_, err)) := InjectorInto setFields t s in (s, err))
             = run_calls (default [] (parts_of t) ≫= fields_calls) s) as Hparts.
  { intros s2. unfold InjectorInto. destruct (parts_of t) as [parts|] eqn:Hp; [|done]. cbn.
    rewrite (inject_handlers_run _ fields_calls) by (intros t' Ht'; by apply (IH parts)).
    by destruct (run_calls _ s2) as [s3 err]. }
  rewrite <- Hparts. destruct (InjectorInto setFields t s1) as [s2 [b [err|]]]; [done|]. cbn.
  rewrite <- InjectDecoderInto_run. by destruct (InjectDecoderInto _ t s2) as [s3 [b' [err|]]].
Qed.

(** ** Where decoders get *)

(** Where the decoder of a user's [DecoderInjector] is kept. *)
Variable user_slot : V → nat.

(** A user's [InjectDecoder] keeps the decoder there, and does not fail; what else
    it does is up to it. *)
Definition keeps (v : V) (m : option Decoder → Hooks → Hooks * option error) : Prop :=
  ∀ d s, ∃ w, m d s = (mkHooks (hk_decoder s) (<[user_slot v := d]> (hk_decoders s)) w, None).

(** So do all users' handlers in a value. *)
Inductive users_keep : Target → Prop :=
  | users_keep_intro t :
      (∀ v m parts, t = User v (Some m) parts → keeps v m) →
      (∀ parts t', parts_of t = Some parts → t' ∈ parts → users_keep t') → users_keep t.

(** The handlers that are given a decoder that is injected: those in chains of
    chains, but not those a user's handler hands the function to. *)
Fixpoint decoders_in t : list nat :=
  match t with
  | NilHandler | User _ None _ => []
  | Builtin l => [l]
  | Multi hs => hs ≫= decoders_in
  | User v (Some _) _ => [user_slot v]
  end.
(** Those that are given the one of the webhook with the function. *)
Fixpoint fields_in t : list nat :=
  (match t with
   | NilHandler | Builtin _ | User _ _ None => []
   | Multi parts | User _ _ (Some parts) => parts ≫= fields_in
   end) ++ decoders_in t.

Lemma fields_in_parts t : fields_in t = (default [] (parts_of t) ≫= fields_in) ++ decoders_in t.
Proof. by destruct t as [| | |? ? []]. Qed.

Lemma users_keep_parts t parts t' : users_keep t → parts_of t = Some parts → t' ∈ parts → users_keep t'.
Proof. intros [? _ Hparts]. apply Hparts. Qed.

(** [s'] differs from [s] in the decoders of these handlers, which are [d], and in
    the rest of the world. *)
Definition given (d : option Decoder) (ls : list nat) s s' : Prop :=
  hk_decoder s' = hk_decoder s
  ∧ (∀ l, l ∈ ls → hk_decoders s' !! l = Some d)
  ∧ (∀ l, l ∉ ls → hk_decoders s' !! l = hk_decoders s !! l).

Lemma given_app d ls ls' s1 s2 s3 : given d ls s1 s2 → given d ls' s2 s3 → given d (ls ++ ls') s1 s3.
Proof.
  intros (Hd & Hin & Hout) (Hd' & Hin' & Hout'). split; [congruence|]. split; intros l Hl; rewrite elem_of_app in Hl.
  - destruct (decide (l ∈ ls')) as [Hl'|Hl']; [by apply Hin'|]. rewrite Hout' by done. apply Hin. tauto.
  - rewrite Hout', Hout by tauto. done.
Qed.

Lemma given_nothing d s : given d [] s s.
Proof. by repeat split; try done; intros l ?%elem_of_nil. Qed.

Lemma given_insert d l s w : given d [l] s (mkHooks (hk_decoder s) (<[l := d]> (hk_decoders s)) w).
Proof.
  split; [done|]. split; cbn.
  - intros l' ->%list_elem_of_singleton. apply lookup_insert_eq.
  - intros l' Hl'. rewrite lookup_insert_ne; [done|]. intros ->. apply Hl'. by left.
Qed.

(** What the calls for one value do, for all parts of a value. *)
Lemma given_all d d0 (calls : Target → list (Hooks → Hooks * option error)) (places : Target → list nat)
    (hs : list Target) :
  (∀ t, t ∈ hs → ∀ s, hk_decoder s = d0 → ∃ s', run_calls (calls t) s = (s', None) ∧ given d (places t) s s') →
  ∀ s, hk_decoder s = d0 → ∃ s', run_calls (hs ≫= calls) s = (s', None) ∧ given d (hs ≫= places) s s'.
Proof.
  induction hs as [|t hs IH]; intros Hall s Hd; cbn; [by exists s; split; [|apply given_nothing]|].
  destruct (Hall t ltac:(by left) s Hd) as (s1 & Hr1 & Hg1).
  destruct (IH (λ t' Ht', Hall t' ltac:(by right)) s1) as (s2 & Hr2 & Hg2); [destruct Hg1; congruence|].
  exists s2. rewrite run_calls_app, Hr1. split; [done|]. by eapply given_app.
Qed.

Lemma decoder_given d t s :
  users_keep t → ∃ s', run_calls (decoder_calls d t) s = (s', None) ∧ given d (decoders_in t) s s'.
Proof.
  revert s. induction t as [t IH] using Target_parts_ind. intros s Hk. destruct t as [|l|hs|v [m|] parts].
  - exists s. split; [done|apply given_nothing].
  - eexists. split; [reflexivity|]. apply given_insert.
  - apply (given_all d (hk_decoder s)); [|done]. intros t Ht s1 _. apply (IH hs); [done|done|].
    by eapply users_keep_parts.
  - inversion Hk as [? Hm _ Heq]; subst. destruct (Hm v m parts eq_refl d s) as [w Hw].
    eexists. cbn. rewrite Hw. split; [reflexivity|]. apply given_insert.
  - exists s. split; [done|apply given_nothing].
Qed.

(** The manager's function does not fail and leaves decoders alone. *)
Definition fields_only : Prop :=
  ∀ t s, ∃ w, f t s = (mkHooks (hk_decoder s) (hk_decoders s) w, None).

Lemma fields_given t s :
  fields_only → users_keep t →
  ∃ s', run_calls (fields_calls t) s = (s', None) ∧ given (hk_decoder s) (fields_in t) s s'.
Proof.
  intros Hf. revert s. induction t as [t IH] using Target_parts_ind. intros s Hk.
  assert (fields_calls t = f t :: (default [] (parts_of t) ≫= fields_calls) ++ [λ s, run_calls (decoder_calls (hk_decoder s) t) s])
    as -> by by destruct t as [| | |? ? []].
  rewrite fields_in_parts. cbn [run_calls]. destruct (Hf t s) as [w ->]. set (s0 := mkHooks _ _ w).
  assert (∀ t', t' ∈ default [] (parts_of t) → ∀ s1, hk_decoder s1 = hk_decoder s →
            ∃ s2, run_calls (fields_calls t') s1 = (s2, None) ∧ given (hk_decoder s) (fields_in t') s1 s2) as Hparts.
  { intros t' Ht' s1 <-. destruct (parts_of t) as [parts|] eqn:Hp; [|by apply elem_of_nil in Ht'].
    apply (IH parts); [done|done|]. by eapply users_keep_parts. }
  destruct (given_all _ _ fields_calls fields_in _ Hparts s0 eq_refl) as (s1 & Hr1 & Hg1).
  destruct (decoder_given (hk_decoder s1) t s1 Hk) as (s2 & Hr2 & Hg2).
  exists s2. rewrite run_calls_app, Hr1. cbn. rewrite Hr2. split; [done|].
  assert (hk_decoder s1 = hk_decoder s) as Hd by apply Hg1. rewrite Hd in Hg2.
  exact (given_app _ _ _ _ _ _ Hg1 Hg2).
Qed.

Lemma InjectScheme_gives wh scheme s :
  users_keep (wh_Handler wh) → let d := Some (NewCodecFactory scheme) in
  ∃ s', InjectScheme wh scheme s = (s', None)
    ∧ given d (decoders_in (wh_Handler wh)) (set_webhook_decoder d s) s'.
Proof.
  intros Hk d.
  assert (InjectScheme wh scheme s = run_calls (decoder_calls d (wh_Handler wh)) (set_webhook_decoder d s)) as ->.
  { unfold InjectScheme. cbn. rewrite <- InjectDecoderInto_run. by destruct (wh_Handler wh). }
  by apply decoder_given.
Qed.

(** These handlers, and no others, have been given the decoder of the scheme, and
    so has the webhook. *)
Definition decodes (ls : list nat) (scheme : Scheme) s s' : Prop :=
  hk_decoder s' = Some (NewCodecFactory scheme)
  ∧ (∀ l, l ∈ ls → hk_decoders s' !! l = Some (Some (NewCodecFactory scheme)))
  ∧ (∀ l, l ∉ ls → hk_decoders s' !! l = hk_decoders s !! l).

Lemma decoders_fields t l : l ∈ decoders_in t → l ∈ fields_in t.
Proof. rewrite fields_in_parts, elem_of_app. by right. Qed.

(** C23: With a manager whose function leaves decoders alone and does not fail, and
    users' handlers whose [InjectDecoder], if they have one, keeps the decoder:
    when the scheme is injected before the function, every handler of an admission
    webhook that can be given a decoder, built-in or a user's, however deep in
    chains and in the parts users' handlers hand the function to, ends with the
    decoder of the scheme, and nothing else is given one.  When the function is
    injected first, so do the handlers in chains; those only users' handlers hand
    the function to keep the decoder the webhook had before, nil in a new one.  A
    webhook without a server gives the decoder to the handlers in chains only. *)
Theorem decoders_reach_all wh scheme s :
  fields_only → users_keep (wh_Handler wh) →
  let chained := decoders_in (wh_Handler wh) in
  let all := fields_in (wh_Handler wh) in
  (∃ s1 s2, InjectScheme wh scheme s = (s1, None) ∧ InjectFunc wh s1 = (s2, None)
     ∧ decodes chained scheme s s1 ∧ decodes all scheme s s2)
  ∧ (∃ s1 s2, InjectFunc wh s = (s1, None) ∧ InjectScheme wh scheme s1 = (s2, None)
     ∧ given (hk_decoder s) all s s1 ∧ decodes chained scheme s1 s2)
  ∧ ∀ opts, ∃ s1 h, StandaloneWebhook wh opts s = (s1, Ok h)
     ∧ decodes chained (default the_scheme (so_Scheme opts)) s s1.
Proof.
  intros Hf Hk chained all. split_and!.
  - destruct (InjectScheme_gives wh scheme s Hk) as (s1 & H1 & Hd1). exists s1.
    destruct (fields_given (wh_Handler wh) s1 Hf Hk) as (s2 & H2 & Hd & Hin & Hout).
    exists s2. unfold InjectFunc. rewrite setFields_run. split_and!; [done..|]. destruct Hd1 as (Hd1 & Hin1 & Hout1).
    cbn in Hd1, Hout1. split_and!; [congruence|intros l Hl; rewrite Hin by done; by rewrite Hd1|].
    intros l Hl. rewrite Hout by done. apply Hout1. by intros ?%decoders_fields.
  - destruct (fields_given (wh_Handler wh) s Hf Hk) as (s1 & H1 & Hg1).
    destruct (InjectScheme_gives wh scheme s1 Hk) as (s2 & H2 & Hd2).
    exists s1, s2. unfold InjectFunc. rewrite setFields_run. by split_and!.
  - intros opts. destruct (InjectScheme_gives wh (default the_scheme (so_Scheme opts)) s Hk) as (s1 & H1 & Hd1).
    unfold StandaloneWebhook. rewrite H1. by eexists s1, _.
Qed.

(** The parts of a handler of a user that is an [Injector] get the decoder with the
    function of the manager, but not in a webhook without a server. *)
Lemma standalone_leaves_parts l v opts s :
  let wh := mkWebhook (User v None (Some [Builtin l])) None in
  (∃ s1 h, StandaloneWebhook wh opts s = (s1, Ok h) ∧ hk_decoders s1 !! l = hk_decoders s !! l)
  ∧ (fields_only → ∃ s1, InjectFunc wh s = (s1, None) ∧ hk_decoders s1 !! l = Some (hk_decoder s)).
Proof.
  intros wh. split; [by eexists _, _|]. intros Hf. unfold InjectFunc. cbn.
  destruct (Hf (User v None (Some [Builtin l])) s) as [w ->]. cbn.
  match goal with |- context [f (Builtin l) ?s'] => destruct (Hf (Builtin l) s') as [w' ->] end.
  eexists. split; [reflexivity|]. apply lookup_insert_eq.
Qed.

(** The parts of a chain of authentication webhooks get the function in order, and
    no decoder. *)
Fixpoint auth_calls t : list (Hooks → Hooks * option error) :=
  f t :: (match t with
          | NilHandler | Builtin _ | User _ _ None => []
          | Multi parts | User _ _ (Some parts) => parts ≫= auth_calls
          end).

Lemma auth_setFields_run t s : auth_setFields t s = run_calls (auth_calls t) s.
Proof.
  revert s. induction t as [t IH] using Target_parts_ind. intros s.
  destruct t as [|l|hs|v m [ps|]]; cbn; destruct (f _ s) as [s1 [err|]]; try done;
    apply inject_handlers_run; intros t Ht s2; by eapply IH.
Qed.
End injection.

(** ** At a concrete input *)

Definition count_fields (t : Target (W := nat) (V := nat) (Decoder := string)) (s : Hooks (W := nat) (Decoder := string))
    : Hooks (W := nat) (Decoder := string) * option error :=
  (mkHooks (hk_decoder s) (hk_decoders s) (S (hk_world s)), None).

(** A user's handler that keeps the decoder and has a part. *)
Definition user_handler (l : nat) (parts : list (Target (W := nat) (V := nat) (Decoder := string))) :=
  User (W := nat) l (Some (λ d s, (mkHooks (hk_decoder s) (<[l := d]> (hk_decoders s)) (hk_world s), None))) (Some parts).

Definition chained : Webhook (W := nat) (V := nat) (Decoder := string) (Logger := string) :=
  mkWebhook (Multi [Builtin 0; Multi [Builtin 1; Builtin 2]; user_handler 3 [Builtin 4]]) None.

(** Each part of a chain is injected into once for every chain it is in, and once
    for itself. *)
Example injected_at_every_level :
  hk_world (InjectFunc count_fields chained (mkHooks None ∅ 0)).1 = 7%nat
  ∧ hk_decoders (InjectFunc count_fields chained (mkHooks None ∅ 0)).1 !! 2%nat = Some None.
Proof. vm_compute. done. Qed.

Lemma chained_keeps : users_keep id (wh_Handler chained).
Proof.
  assert (∀ l, users_keep (W := nat) (V := nat) (Decoder := string) id (Builtin l)) as Hb by by constructor.
  constructor; [done|]. intros parts t [= <-]. rewrite !elem_of_cons, elem_of_nil.
  intros [->|[->|[->|[]]]]; [done|constructor; [done|]|constructor].
  - intros parts t [= <-]. rewrite !elem_of_cons, elem_of_nil. intros [->|[->|[]]]; done.
  - intros v m parts [= <- <- <-] d s. by eexists.
  - intros parts t [= <-] ->%list_elem_of_singleton. done.
Qed.

Lemma decoders_reach_all_witness :
  (∃ s1 s2, InjectScheme (λ scheme, scheme) chained "mine" (mkHooks None ∅ 0) = (s1, None)
     ∧ InjectFunc count_fields chained s1 = (s2, None)
     ∧ hk_decoders s1 !! 3%nat = Some (Some "mine") ∧ hk_decoders s2 !! 4%nat = Some (Some "mine"))
  ∧ ∃ s1 h, StandaloneWebhook (λ scheme, scheme) "theirs" "log" chained (mkStandaloneOptions None None "/path")
              (mkHooks None ∅ 0) = (s1, Ok h)
            ∧ hk_decoders s1 !! 1%nat = Some (Some "theirs") ∧ hk_decoders s1 !! 4%nat = None.
Proof.
  destruct (decoders_reach_all count_fields (λ scheme, scheme) "theirs" "log" id chained "mine" (mkHooks None ∅ 0))
    as ((s1 & s2 & H1 & H2 & (_ & Hin1 & _) & (_ & Hin2 & _)) & _ & H3).
  - intros t s. by eexists.
  - exact chained_keeps.
  - split.
    + exists s1, s2. split; [exact H1|]. split; [exact H2|]. split; [apply Hin1|apply Hin2]; eapply bool_decide_unpack; vm_compute; exact I.
    + destruct (H3 (mkStandaloneOptions None None "/path")) as (s3 & h & Hs & _ & Hin & Hout).
      exists s3, h. split; [exact Hs|]. split; [apply Hin; eapply bool_decide_unpack; vm_compute; exact I|].
      rewrite Hout; [reflexivity|eapply bool_decide_unpack; vm_compute; exact I].
Defined.
