(* ===== verification/ManagerSamples.v ===== *)
(** * The theorems of ManagerNew at concrete inputs

    A manager over the API server of RestSamples. *)

From S2P Require Export ManagerNew ClusterSamples.

(** A UUID is issued by a request in the log. *)
Definition uuid_request : RestRequest + MetadataRequest := inr (mkMetadataRequest (mkGVR "" "" "") None (MGet "")).

#[export] Instance log_LockEnv : LockEnv log_world RestConfig LockSpec := {|
  Stat := λ _ _, None;
  ReadFile := λ _ _, Ok "prod";
  Hostname := λ _, Ok "node-1";
  NewUUID := λ w, (FormatUint (Z.of_nat (length w)), w ++ [uuid_request]);
  AddUserAgent := λ cfg _, cfg;
  clientset_NewForConfig := λ _, None;
  resourcelock_New := λ _ spec _, Ok spec;
|}.

#[export] Instance log_LockLaws : LockLaws (W := log_world) (Config := RestConfig) (Lock := LockSpec).
Proof.
  refine {| spec_of := id; issued w := list_to_set ((λ k, FormatUint (Z.of_nat k)) <$> seq 0 (length w)) |}.
  - by intros _ spec _ lock [= ->].
  - intros w. cbn -[seq]. split; [|split; [|done]].
    + rewrite elem_of_list_to_set, list_elem_of_fmap. intros (k & Hk & Hin). apply FormatUint_inj in Hk; [|lia..].
      apply elem_of_seq in Hin. lia.
    + rewrite length_app. cbn [length]. rewrite Nat.add_1_r, seq_S. apply set_eq. intros x.
      rewrite fmap_app, list_to_set_app. set_solver.
Defined.

(** A listener is its address, a webhook server its port and host. *)
#[export] Instance log_ListenEnv : ListenEnv log_world string (Z * string) := {|
  net_Listen := λ addr w, (Ok addr, w);
  webhook_Server := λ port host _, (port, host);
|}.

Definition no_controller_options : ControllerConfigurationSpec := mkControllerConfigurationSpec ∅ None.

(** Leader election, a name for the lock and the user's broadcaster; the rest unset. *)
Definition leader_options
    : ManagerOptions Scheme () string (Broadcaster (B := string)) (NewRecorderProvider (B := string) (E := string))
        (NewLock (W := log_world) (B := string) (E := string) (Lock := LockSpec))
        (NewListenerFunc (W := log_world) (Listener := string)) :=
  mkManagerOptions None None None true "" "" "my-operator" None (Some 1%Z) None "" "" "0" "" "" 9443 "" "" (Some "broadcaster") None
    no_controller_options None None None None None.
Definition no_more_options : MoreOptions log_world (InformersMap log_world) (Z * string) :=
  mkMoreOptions None None None [] false None false None.

Abbreviation sample_manager :=
  (controllerManager log_world (InformersMap log_world) string string LockSpec string (Z * string) () ()).

Definition sample_New : result sample_manager * log_world := ManagerNew.New (Some log_config) leader_options no_more_options [].

Lemma sample_New_Ok : ∃ cm, sample_New = (Ok cm, [uuid_request]).
Proof.
  assert (is_ok sample_New.1 = true ∧ sample_New.2 = [uuid_request]) as [Hok Hw] by (split; vm_compute; reflexivity).
  destruct sample_New as [[cm|] w]; [|discriminate Hok]. exists cm. cbn in Hw. by rewrite Hw.
Qed.

Lemma manager_New_as_configured_witness :
  ∃ cm : sample_manager,
    sample_New = (Ok cm, [uuid_request]) ∧ cmn_resourceLock cm ≠ None
    ∧ rp_makeBroadcaster (cl_recorderProvider (cmn_cluster cm)) = (Some "broadcaster", false)
    ∧ cmn_renewDeadline cm = 1%Z ∧ cmn_retryPeriod cm = 2000000000%Z.
Proof.
  destruct sample_New_Ok as [cm Hcm]. exists cm. split; [exact Hcm|].
  destruct (manager_New_as_configured (Some log_config) leader_options no_more_options [] cm [uuid_request] eq_refl eq_refl Hcm)
    as (Hlock & _ & _ & _ & Hb & Hb' & _ & Hrd & Hrt & _).
  split; [intros Hnone; apply Hlock in Hnone; discriminate Hnone|].
  split; [rewrite Hb', Hb; reflexivity|]. split; [exact Hrd|exact Hrt].
Defined.

(** The manager of [sample_New], the webhook server as a runnable, and a manager
    that is stopping. *)
Definition made_manager (state : Manager () ()) : sample_manager :=
  mkControllerManager log_cluster (mkRecorderProvider (None, true) fresh_provider) None None None no_controller_options "/readyz"
    "/healthz" 0 0 0 0 false 9443 "" "" None false state.
Definition webhook_runnable : Runnable := mkRunnable 0 (Some false) false true.

Lemma webhook_server_added_once_witness :
  cm_nonLeaderElectionRunnables (cmn_state (GetWebhookServer_calls (λ _, None) webhook_runnable 3 (made_manager new_manager)).1)
    = [webhook_runnable]
  ∧ (GetWebhookServer_calls (λ _, None) webhook_runnable 2 (made_manager (set_flags true true true true new_manager))).2
    = [Panicked "unable to add webhook server to the controller manager"; Returned (Some (9443%Z, ""))].
Proof.
  pose proof (webhook_server_added_once (λ _, None) webhook_runnable 2 (made_manager new_manager) eq_refl) as Hfirst.
  pose proof (webhook_server_added_once (λ _, None) webhook_runnable 1
    (made_manager (set_flags true true true true new_manager)) eq_refl) as Hstop.
  cbv zeta in Hfirst, Hstop. split.
  - destruct (GetWebhookServer_calls (λ _, None) webhook_runnable 3 (made_manager new_manager)) as [cm' rs].
    destruct Hfirst as (Hst & _). cbn [fst]. rewrite Hst. vm_compute. reflexivity.
  - destruct (GetWebhookServer_calls (λ _, None) webhook_runnable 2 (made_manager (set_flags true true true true new_manager)))
      as [cm' rs].
    destruct Hstop as (_ & _ & Hrs & _). cbn [snd]. rewrite Hrs. vm_compute. reflexivity.
Defined.
