(* ===== verification/ManagerStop.v ===== *)
(** * A manager's life from [Start] to its return (src/pkg/manager/internal.go)

    The goroutines of [Start]: the one that calls it and then stops the others,
    those that start runnables, the runnables themselves, the leader elector,
    the servers, and the one that drains errors.  They meet at a mutex, at a
    channel of errors without a buffer, at contexts and at a wait group.  Manager
    has what is started in which order; here a started runnable is a number. *)

From S2P Require Export Manager.

(** A runnable's goroutine: in [Start] of the runnable, sending the error it
    returned, or through, which is when it calls [waitForRunnable.Done]. *)
Inductive RunnablePc := Running | SendingErr (err : error) | Ended.

(** The goroutine of [Start]: in the [select]; in [engageStopProcedure] with
    [shutdownCtx] made, before it looks whether there is a grace period; about to
    take the mutex; at [<-cm.shutdownCtx.Done()]; at
    [<-cm.leaderElectionStopped]; at [recorderProvider.Stop] and the unlocking; at
    the closing of [stopComplete]; returned.  [err] is what the [select] returned,
    [stopErr] what stopping did. *)
Inductive MainPc :=
  | Selecting
  | Engaging (err : option error)
  | Locking (err : option error)
  | WaitingForRunnables (err : option error)
  | WaitingForElector (err : option error)
  | StoppingRecorder (err stopErr : option error)
  | Completing (err stopErr : option error)
  | Returned_ (err stopErr : option error).

(** The goroutines that start runnables under the mutex: not there yet, before it
    is taken, in [waitForCache] with the mutex, through.  That of leader election
    is there from the start without a resource lock, and once elected with one. *)
Inductive Section_ := NonLeaderElection | LeaderElection | HealthProbes.
Inductive SectionPc := NotThere | Before | Holding | Through.

(** Leader election: there is none; [startLeaderElection] not yet called, or with
    [leaderElectionCancel] set and [NewLeaderElector] to be called; its error being
    sent, or sent; [Run] in progress; [OnStoppedLeading] sending its error; [Run] has returned and the context is waited for; and
    [leaderElectionStopped] closed. *)
Inductive ElectorPc :=
  | NoElector
  | NotCalled
  | CancelSet
  | FailedSending (err : error)
  | Failed
  | Electing
  | LostSending
  | AwaitingCancel
  | Stopped.

(** [shutdownCtx], which has a deadline or not. *)
Inductive ShutdownCtx := NotMade | Live (deadline : bool) | Canceled | DeadlineExceeded.

#[export] Instance SectionPc_eq_dec : EqDecision SectionPc.
Proof. solve_decision. Defined.

(** Who holds the mutex. *)
Inductive Holder := Main | Sec (g : Section_).

#[export] Instance Section_eq_dec : EqDecision Section_.
Proof. solve_decision. Defined.
#[export] Instance Holder_eq_dec : EqDecision Holder.
Proof. solve_decision. Defined.
#[export] Instance RunnablePc_eq_dec : EqDecision RunnablePc.
Proof. solve_decision. Defined.

(** [lc_runnables] tells of each runnable also whether it was started with the
    mutex held; the server of the metrics is not.  [lc_server_errs] are the errors
    of [server.Shutdown] that are being sent. *)
Record Life := mkLife {
  lc_main : MainPc;
  lc_ctx_done : bool;
  lc_grace : Z;
  lc_shutdown : ShutdownCtx;
  lc_engaged : bool;
  lc_mu : option Holder;
  lc_runnables : gmap nat (bool * RunnablePc);
  lc_sections : Section_ → SectionPc;
  lc_server_errs : list error;
  lc_elector : ElectorPc;
  lc_cancelled : bool;
  lc_recorder_stopped : bool;
}.
Implicit Types s : Life.

(** [internalProceduresStop] is closed and [internalCancel] called when the
    [select] is left, and errors are drained until [stopComplete] is closed. *)
Definition stopping s : bool := match lc_main s with Selecting => false | _ => true end.
Definition draining s : bool := match lc_main s with Selecting | Returned_ _ _ => false | _ => true end.
Definition internal_done s : bool := lc_ctx_done s || stopping s.

Definition set_main (m : MainPc) s : Life :=
  mkLife m (lc_ctx_done s) (lc_grace s) (lc_shutdown s) (lc_engaged s) (lc_mu s) (lc_runnables s) (lc_sections s)
    (lc_server_errs s) (lc_elector s) (lc_cancelled s) (lc_recorder_stopped s).
Definition set_mu (mu : option Holder) s : Life :=
  mkLife (lc_main s) (lc_ctx_done s) (lc_grace s) (lc_shutdown s) (lc_engaged s) mu (lc_runnables s) (lc_sections s)
    (lc_server_errs s) (lc_elector s) (lc_cancelled s) (lc_recorder_stopped s).
Definition set_shutdown (c : ShutdownCtx) s : Life :=
  mkLife (lc_main s) (lc_ctx_done s) (lc_grace s) c (lc_engaged s) (lc_mu s) (lc_runnables s) (lc_sections s)
    (lc_server_errs s) (lc_elector s) (lc_cancelled s) (lc_recorder_stopped s).
Definition set_runs (rs : gmap nat (bool * RunnablePc)) s : Life :=
  mkLife (lc_main s) (lc_ctx_done s) (lc_grace s) (lc_shutdown s) (lc_engaged s) (lc_mu s) rs (lc_sections s)
    (lc_server_errs s) (lc_elector s) (lc_cancelled s) (lc_recorder_stopped s).
Definition set_section (g : Section_) (p : SectionPc) s : Life :=
  mkLife (lc_main s) (lc_ctx_done s) (lc_grace s) (lc_shutdown s) (lc_engaged s) (lc_mu s) (lc_runnables s)
    (λ g', if decide (g' = g) then p else lc_sections s g')
    (lc_server_errs s) (lc_elector s) (lc_cancelled s) (lc_recorder_stopped s).
Definition set_elector (e : ElectorPc) s : Life :=
  mkLife (lc_main s) (lc_ctx_done s) (lc_grace s) (lc_shutdown s) (lc_engaged s) (lc_mu s) (lc_runnables s) (lc_sections s)
    (lc_server_errs s) e (lc_cancelled s) (lc_recorder_stopped s).
Definition set_server_errs (es : list error) s : Life :=
  mkLife (lc_main s) (lc_ctx_done s) (lc_grace s) (lc_shutdown s) (lc_engaged s) (lc_mu s) (lc_runnables s) (lc_sections s)
    es (lc_elector s) (lc_cancelled s) (lc_recorder_stopped s).
Definition set_ctx_done s : Life :=
  mkLife (lc_main s) true (lc_grace s) (lc_shutdown s) (lc_engaged s) (lc_mu s) (lc_runnables s) (lc_sections s)
    (lc_server_errs s) (lc_elector s) (lc_cancelled s) (lc_recorder_stopped s).
Definition set_engaged s : Life :=
  mkLife (lc_main s) (lc_ctx_done s) (lc_grace s) (lc_shutdown s) true (lc_mu s) (lc_runnables s) (lc_sections s)
    (lc_server_errs s) (lc_elector s) (lc_cancelled s) (lc_recorder_stopped s).
Definition set_cancelled s : Life :=
  mkLife (lc_main s) (lc_ctx_done s) (lc_grace s) (lc_shutdown s) (lc_engaged s) (lc_mu s) (lc_runnables s) (lc_sections s)
    (lc_server_errs s) (lc_elector s) true (lc_recorder_stopped s).
Definition set_recorder_stopped s : Life :=
  mkLife (lc_main s) (lc_ctx_done s) (lc_grace s) (lc_shutdown s) (lc_engaged s) (lc_mu s) (lc_runnables s) (lc_sections s)
    (lc_server_errs s) (lc_elector s) (lc_cancelled s) true.
(** [cm.gracefulShutdownTimeout = time.Duration(0)]. *)
Definition no_grace s : Life :=
  mkLife (lc_main s) (lc_ctx_done s) 0 (lc_shutdown s) (lc_engaged s) (lc_mu s) (lc_runnables s) (lc_sections s)
    (lc_server_errs s) (lc_elector s) (lc_cancelled s) (lc_recorder_stopped s).

(** ** Sending on [errChan]: the error, and the state once it is received *)

Inductive Sender := FromRunnable (i : nat) | FromServer | FromElector.

Definition err_lost : error := ErrorString "leader election lost".

Definition take (src : Sender) s : option (error * Life) :=
  match src with
  | FromRunnable i =>
      match lc_runnables s !! i with
      | Some (locked, SendingErr err) => Some (err, set_runs (<[i := (locked, Ended)]> (lc_runnables s)) s)
      | _ => None
      end
  | FromServer =>
      match lc_server_errs s with
      | err :: errs => Some (err, set_server_errs errs s)
      | [] => None
      end
  | FromElector =>
      match lc_elector s with
      | FailedSending err => Some (err, set_elector Failed s)
      | LostSending => Some (err_lost, set_elector AwaitingCancel s)
      | _ => None
      end
  end.

(** [engageStopProcedure] up to the start of the goroutine that drains errors. *)
Definition engage (err : option error) s : Life :=
  set_main (Engaging err) (set_shutdown (Live (bool_decide (0 < lc_grace s)%Z)) s).

(** [cm.leaderElectionCancel != nil]. *)
Definition has_cancel s : bool := match lc_elector s with NoElector | NotCalled => false | _ => true end.

(** [startRunnable] for each of some runnables. *)
Definition start_runnables (locked : bool) (is_ : list nat) s : option Life :=
  if decide (NoDup is_ ∧ Forall (λ i, lc_runnables s !! i = None) is_)
  then Some (set_runs (foldr (λ i rs, <[i := (locked, Running)]> rs) (lc_runnables s) is_) s)
  else None.

(** [defer shutdownCancel()]. *)
Definition cancel_shutdown s : Life :=
  match lc_shutdown s with Live _ => set_shutdown Canceled s | _ => s end.

(** All runnables that count in the wait group have ended. *)
Definition all_ended s : bool := bool_decide (map_Forall (λ _ r, r.2 = Ended) (lc_runnables s)).

(** ** Steps *)

Inductive Step :=
  (** The context is done; the [select] finds that, or an error. *)
  | CtxDone | SelectCtx | SelectErr (src : Sender)
  (** The rest of [Start]. *)
  | CheckGrace | Lock | RunnablesWaitedFor | ElectorWaitedFor | StopRecorder | Complete
  (** The draining of errors, the wait group, the grace period. *)
  | Drain (src : Sender) | WaitGroupDone | GraceExpires
  (** A goroutine that starts runnables takes the mutex, and gives it back. *)
  | Enter (g : Section_) (is_ : list nat) | Leave (g : Section_) (is_ : list nat)
  (** [Add] of a manager that is started; the server of the metrics; what a runnable
      returns; an error of [server.Shutdown]. *)
  | AddStarted (i : nat) | StartMetrics (i : nat) | Return_ (i : nat) (err : option error) | ShutdownErr (err : error)
  (** [startLeaderElection] up to [NewLeaderElector], what that returns, and [Run]
      of the elector. *)
  | SetCancel | NewElector (err : option error) | Lead | RunEnds | CloseStopped.

Definition guard {A} (b : bool) (x : A) : option A := if b then Some x else None.

Definition main_step (l : Step) s : option Life :=
  match l, lc_main s with
  | SelectCtx, Selecting => guard (lc_ctx_done s) (engage None s)
  | SelectErr src, Selecting => '(err, s) ← take src s; Some (engage (Some err) s)
  (** The grace period may be gone by now, as leadership is lost without one. *)
  | CheckGrace, Engaging err =>
      Some (if decide (lc_grace s = 0)%Z then set_main (Completing err None) s else set_main (Locking err) s)
  | Lock, Locking err =>
      guard (bool_decide (lc_mu s = None)) (set_main (WaitingForRunnables err) (set_mu (Some Main) (set_engaged s)))
  | RunnablesWaitedFor, WaitingForRunnables err =>
      match lc_shutdown s with
      | Canceled => if has_cancel s then Some (set_main (WaitingForElector err) (set_cancelled s))
                    else Some (set_main (StoppingRecorder err None) s)
      | DeadlineExceeded => Some (set_main (StoppingRecorder err (Some err_grace_period)) s)
      | _ => None
      end
  | ElectorWaitedFor, WaitingForElector err =>
      match lc_elector s with Stopped => Some (set_main (StoppingRecorder err None) s) | _ => None end
  | StopRecorder, StoppingRecorder err stopErr =>
      Some (set_main (Completing err stopErr) (set_mu None (set_recorder_stopped s)))
  | Complete, Completing err stopErr => Some (set_main (Returned_ err stopErr) (cancel_shutdown s))
  | _, _ => None
  end.

Definition elector_step (l : Step) s : option Life :=
  match l, lc_elector s with
  | SetCancel, NotCalled => guard (bool_decide (lc_mu s = None)) (set_elector CancelSet s)
  | NewElector None, CancelSet => Some (set_elector Electing s)
  | NewElector (Some err), CancelSet => Some (set_elector (FailedSending err) s)
  (** [OnStartedLeading] is called in a goroutine of its own. *)
  | Lead, Electing => guard (bool_decide (lc_sections s LeaderElection = NotThere)) (set_section LeaderElection Before s)
  (** [OnStoppedLeading] is called whenever [Run] returns. *)
  | RunEnds, Electing => Some (set_elector LostSending (no_grace s))
  | CloseStopped, AwaitingCancel => guard (lc_cancelled s) (set_elector Stopped s)
  | _, _ => None
  end.

Definition exec (l : Step) s : option Life :=
  match l with
  | CtxDone => Some (set_ctx_done s)
  | Drain src => if draining s then '(_, s) ← take src s; Some s else None
  | WaitGroupDone =>
      match lc_main s, lc_shutdown s with
      | WaitingForRunnables _, Live _ => guard (all_ended s) (set_shutdown Canceled s)
      | _, _ => None
      end
  | GraceExpires =>
      match lc_shutdown s with Live true => Some (set_shutdown DeadlineExceeded s) | _ => None end
  | Enter g is_ =>
      match lc_sections s g, lc_mu s with
      | Before, None =>
          start_runnables true is_ (set_section g Holding (set_mu (Some (Sec g)) s))
      | _, _ => None
      end
  | Leave g is_ =>
      match lc_sections s g with
      | Holding => start_runnables true is_ (set_section g Through (set_mu None s))
      | _ => None
      end
  | AddStarted i =>
      match lc_mu s, lc_engaged s with
      | None, false => start_runnables true [i] s
      | _, _ => None
      end
  | StartMetrics i => start_runnables false [i] s
  | Return_ i err =>
      match lc_runnables s !! i with
      | Some (locked, Running) =>
          Some (set_runs (<[i := (locked, match err with Some e => SendingErr e | None => Ended end)]> (lc_runnables s)) s)
      | _ => None
      end
  | ShutdownErr err => guard (stopping s) (set_server_errs (lc_server_errs s ++ [err]) s)
  | SetCancel | NewElector _ | Lead | RunEnds | CloseStopped => elector_step l s
  | _ => main_step l s
  end.

Definition life_step s s' : Prop := ∃ l, exec l s = Some s'.

(** When [Start] comes to its [select]; [lock] tells whether there is a resource
    lock. *)
Definition started (grace : Z) (lock : bool) : Life :=
  mkLife Selecting false grace NotMade false None ∅
    (λ g, match g with LeaderElection => if lock then NotThere else Before | _ => Before end) [] (if lock then NotCalled else NoElector) false false.

Definition lives (grace : Z) (lock : bool) s : Prop := rtc life_step (started grace lock) s.

(** A schedule: which step comes next. *)
Definition schedule (ls : list Step) s : option Life := foldl (λ os l, os ≫= exec l) (Some s) ls.

Lemma schedule_cons l ls s s1 : exec l s = Some s1 → schedule (l :: ls) s = schedule ls s1.
Proof. unfold schedule. cbn. by intros ->. Qed.

Lemma schedule_none ls : foldl (λ os l, os ≫= exec l) None ls = None.
Proof. by induction ls. Qed.

Lemma schedule_steps ls s s' : schedule ls s = Some s' → rtc life_step s s'.
Proof.
  revert s. induction ls as [|l ls IH]; intros s Hs; [by injection Hs as <-|].
  destruct (exec l s) as [s1|] eqn:Hl.
  - rewrite (schedule_cons _ _ _ _ Hl) in Hs. eapply rtc_l; [by exists l|by apply IH].
  - unfold schedule in Hs. cbn in Hs. rewrite Hl in Hs. by rewrite schedule_none in Hs.
Qed.

(** ** What holds in every state *)

Definition main_holds s : bool :=
  match lc_main s with WaitingForRunnables _ | WaitingForElector _ | StoppingRecorder _ _ => true | _ => false end.

(** The runnables that were started with the mutex have ended. *)
Definition locked_ended s : Prop := ∀ i p, lc_runnables s !! i = Some (true, p) → p = Ended.

(** No leader elector is at work. *)
Definition elector_quiet s : Prop :=
  match lc_elector s with NoElector | NotCalled | Stopped => True | _ => False end.

Record life_inv s : Prop := {
  li_main : lc_mu s = Some Main → main_holds s = true;
  li_holds : main_holds s = true → lc_mu s = Some Main ∧ lc_engaged s = true;
  li_section : ∀ g, lc_sections s g = Holding ↔ lc_mu s = Some (Sec g);
  li_ended : main_holds s = true → lc_shutdown s = Canceled → locked_ended s;
  li_shutdown : match lc_main s with Selecting => lc_shutdown s = NotMade | _ => lc_shutdown s ≠ NotMade end;
  li_elector : match lc_main s with
               | Engaging _ | Locking _ => lc_shutdown s ≠ Canceled
               | WaitingForElector _ => lc_shutdown s = Canceled ∧ has_cancel s = true ∧ lc_cancelled s = true
               | StoppingRecorder _ None => lc_shutdown s = Canceled ∧ elector_quiet s
               | StoppingRecorder _ (Some err) => lc_shutdown s = DeadlineExceeded ∧ err = err_grace_period
               | _ => True
               end;
  li_recorder : lc_recorder_stopped s = true → match lc_main s with Completing _ _ | Returned_ _ _ => True | _ => False end;
  li_cancelled : lc_cancelled s = true → match lc_main s with
                 | WaitingForElector _ | StoppingRecorder _ _ | Completing _ _ | Returned_ _ _ => True | _ => False end;
}.

Lemma life_inv_started grace lock : life_inv (started grace lock).
Proof. split; cbn; try done. intros g. split; [destruct g, lock; done|done]. Qed.

(** Receiving from a sender touches neither who is where nor the mutex, and a
    runnable that sends has not ended. *)
Lemma take_frame src s err s' :
  take src s = Some (err, s') →
  lc_main s' = lc_main s ∧ lc_mu s' = lc_mu s ∧ lc_sections s' = lc_sections s ∧ lc_engaged s' = lc_engaged s
  ∧ lc_shutdown s' = lc_shutdown s ∧ lc_cancelled s' = lc_cancelled s ∧ lc_recorder_stopped s' = lc_recorder_stopped s
  ∧ lc_grace s' = lc_grace s ∧ has_cancel s' = has_cancel s ∧ (elector_quiet s → elector_quiet s')
  ∧ (locked_ended s → locked_ended s').
Proof.
  unfold take, has_cancel, elector_quiet, locked_ended. intros Ht.
  destruct src as [i| |].
  - destruct (lc_runnables s !! i) as [[locked [|e|]]|] eqn:Hi; simplify_eq/=. split_and!; try done.
    intros Hl j p. rewrite lookup_insert_Some. intros [(-> & [= -> <-])|[_ Hj]]; [done|by eapply Hl].
  - destruct (lc_server_errs s); by simplify_eq/=.
  - destruct (lc_elector s) eqn:He; simplify_eq/=; by rewrite ?He.
Qed.

(** New runnables have new numbers. *)
Lemma start_runnables_runs locked is_ s s' :
  start_runnables locked is_ s = Some s' →
  ∃ rs, s' = set_runs rs s
    ∧ (∀ i r, lc_runnables s !! i = Some r → rs !! i = Some r)
    ∧ (∀ i r, rs !! i = Some r → lc_runnables s !! i = Some r ∨ r = (locked, Running)).
Proof.
  unfold start_runnables. case_decide as Hd; [|done]. destruct Hd as [_ Hfresh]. intros [= <-].
  eexists. split; [reflexivity|]. induction is_ as [|i is_ IH]; cbn; [by auto|].
  apply Forall_cons in Hfresh as [Hi Hfresh]. destruct (IH Hfresh) as [Hold Hnew]. split.
  - intros j r Hj. rewrite lookup_insert_ne; [by apply Hold|]. intros ->. congruence.
  - intros j r. rewrite lookup_insert_Some. intros [[_ <-]|[_ Hj]]; [by right|by apply Hnew].
Qed.

Lemma locked_ended_unlocked is_ s s' : start_runnables false is_ s = Some s' → locked_ended s → locked_ended s'.
Proof.
  intros (rs & -> & _ & Hnew)%start_runnables_runs Hl i p Hi. cbn in Hi.
  destruct (Hnew _ _ Hi) as [?|[=]]. by eapply Hl.
Qed.

Lemma all_ended_locked s : all_ended s = true → locked_ended s.
Proof. intros Ha%bool_decide_eq_true i p Hi. by apply (Ha i (true, p) Hi). Qed.

(** A step that leaves the places of all goroutines, the mutex and the contexts. *)
Lemma life_inv_frame s s' :
  life_inv s → lc_main s' = lc_main s → lc_mu s' = lc_mu s → lc_engaged s' = lc_engaged s →
  (∀ g, lc_sections s' g = Holding ↔ lc_sections s g = Holding) → lc_shutdown s' = lc_shutdown s →
  lc_cancelled s' = lc_cancelled s → lc_recorder_stopped s' = lc_recorder_stopped s →
  (main_holds s = true → locked_ended s → locked_ended s') →
  (main_holds s = true → elector_quiet s → elector_quiet s') →
  (lc_cancelled s = true → has_cancel s = true → has_cancel s' = true) → life_inv s'.
Proof.
  intros [H1 H2 H3 H4 H5 H6 H7 H8] Hm Hmu He Hs Hsh Hc Hr Hl Hq Hhc.
  assert (main_holds s' = main_holds s) as Hmh by (unfold main_holds; by rewrite Hm).
  split; rewrite ?Hmh, ?Hm, ?Hmu, ?He, ?Hsh, ?Hc, ?Hr; try done.
  - intros g. by rewrite Hs.
  - intros Hmain Hcan. by apply Hl, H4.
  - unfold main_holds in Hq. destruct (lc_main s) as [| | | | |? [|]| |]; try done; naive_solver.
Qed.

Lemma engage_inv err s : life_inv s → lc_main s = Selecting → life_inv (engage err s).
Proof.
  intros [H1 H2 H3 H4 H5 H6 H7 H8] Hm. rewrite Hm in *. unfold engage.
  assert (main_holds s = false) as Hmh by (unfold main_holds; by rewrite Hm).
  assert (lc_mu s ≠ Some Main) as Hmu by (intros ?%H1; congruence).
  split; cbn; [done|done|apply H3|done|done|done|by intros ?%H7|by intros ?%H8].
Qed.

Lemma check_grace_inv err s :
  life_inv s → lc_main s = Engaging err →
  life_inv (if decide (lc_grace s = 0)%Z then set_main (Completing err None) s else set_main (Locking err) s).
Proof.
  intros [H1 H2 H3 H4 H5 H6 H7 H8] Hm. rewrite Hm in *.
  assert (main_holds s = false) as Hmh by (unfold main_holds; by rewrite Hm).
  assert (lc_mu s ≠ Some Main) as Hmu by (intros ?%H1; congruence).
  case_decide; (split; cbn; [done|done|apply H3|done|done|done|by intros ?%H7|by intros ?%H8]).
Qed.

Lemma take_inv src s err s' : life_inv s → take src s = Some (err, s') → life_inv s'.
Proof.
  intros Hinv Ht. destruct (take_frame _ _ _ _ Ht) as (Hm1 & Hmu & Hs & He & Hsh & Hc & Hr & _ & Hcan & Hq & Hlk).
  apply (life_inv_frame s); auto; first [by rewrite Hs|congruence|intros g; by rewrite Hs].
Qed.

(** The calling goroutine goes on, from one place to the next. *)
Lemma main_step_inv l s s' : life_inv s → main_step l s = Some s' → life_inv s'.
Proof.
  intros Hinv. unfold main_step. intros Hl.
  destruct (lc_main s) as [|err|err|err|err|err stopErr|err stopErr|] eqn:Hm; destruct l; try discriminate.
  - unfold guard in Hl. case_match; simplify_eq. by apply engage_inv.
  - destruct (take src s) as [[err s1]|] eqn:Ht; [|done]. injection Hl as <-.
    apply engage_inv; [by eapply take_inv|]. by rewrite (proj1 (take_frame _ _ _ _ Ht)).
  - injection Hl as <-. by apply check_grace_inv.
  - unfold guard in Hl. case_bool_decide as Hmu; simplify_eq. destruct Hinv as [H1 H2 H3 H4 H5 H6 H7 H8]. rewrite Hm in *.
    split; cbn; try done. intros g. rewrite H3, Hmu. naive_solver.
  - destruct Hinv as [H1 H2 H3 H4 H5 H6 H7 H8]. rewrite Hm in *.
    assert (main_holds s = true) as Hmh by (unfold main_holds; by rewrite Hm). destruct (H2 Hmh) as [Hmu He].
    destruct (lc_shutdown s) eqn:Hsh; try discriminate.
    + destruct (has_cancel s) eqn:Hc; injection Hl as <-;
        (split; cbn; [done|done|apply H3|by auto|congruence|..]); rewrite ?Hsh; try done; try (by intros ?%H7).
      split; [done|]. unfold has_cancel, elector_quiet in *. cbn. by destruct (lc_elector s).
    + injection Hl as <-. split; cbn; [done|done|apply H3|congruence|congruence|..]; rewrite ?Hsh; try done; by intros ?%H7.
  - destruct Hinv as [H1 H2 H3 H4 H5 H6 H7 H8]. rewrite Hm in *.
    assert (main_holds s = true) as Hmh by (unfold main_holds; by rewrite Hm). destruct (H2 Hmh) as [Hmu He].
    destruct (lc_elector s) eqn:Hel; try discriminate. injection Hl as <-. destruct H6 as (Hsh & _ & _).
    split; cbn; [done|done|apply H3|by auto|congruence|..]; rewrite ?Hsh; try done.
    split; [done|]. unfold elector_quiet. cbn. by rewrite Hel.
  - injection Hl as <-. destruct Hinv as [H1 H2 H3 H4 H5 H6 H7 H8]. rewrite Hm in *.
    assert (main_holds s = true) as Hmh by (unfold main_holds; by rewrite Hm). destruct (H2 Hmh) as [Hmu He].
    split; cbn; try done. intros g. rewrite H3, Hmu. naive_solver.
  - injection Hl as <-. destruct Hinv as [H1 H2 H3 H4 H5 H6 H7 H8]. rewrite Hm in *.
    assert (main_holds s = false) as Hmh by (unfold main_holds; by rewrite Hm).
    assert (lc_mu s ≠ Some Main) by (intros ?%H1; congruence).
    unfold cancel_shutdown. destruct (lc_shutdown s) eqn:Hsh; split; cbn; rewrite ?Hsh; done.
Qed.

(** The elector needs the mutex to begin, so it does not while a stop holds it. *)
Lemma elector_step_inv l s s' : life_inv s → elector_step l s = Some s' → life_inv s'.
Proof.
  intros Hinv. unfold elector_step, guard. intros Hl.
  assert (main_holds s = true → lc_mu s ≠ None) as Hmu by (intros Hmh%(li_holds _ Hinv) ?; naive_solver).
  destruct (lc_elector s) eqn:He; destruct l as [| | | | | | | | | | | | | | | | | | | [e|]| | |]; try discriminate;
    try case_bool_decide; try match type of Hl with context [lc_cancelled s] => destruct (lc_cancelled s) eqn:Hc end;
    try discriminate; injection Hl as <-;
    (eapply life_inv_frame; [exact Hinv|..]); unfold elector_quiet, has_cancel; cbn; rewrite ?He; try done.
  all: first [by intros ?%Hmu|intros g; destruct (decide (g = LeaderElection)) as [->|]; split; congruence].
Qed.

(** A goroutine that starts runnables does so only while no stop holds the mutex. *)
Lemma enter_inv g is_ s s' :
  life_inv s → lc_sections s g = Before → lc_mu s = None →
  start_runnables true is_ (set_section g Holding (set_mu (Some (Sec g)) s)) = Some s' → life_inv s'.
Proof.
  intros [H1 H2 H3 H4 H5 H6 H7 H8] Hg Hmu (rs & -> & _ & _)%start_runnables_runs.
  assert (main_holds s = true → False) as Hmh by (intros [? _]%H2; congruence).
  split; cbn; try done.
  - intros g'. case_decide as Hd; [by subst|]. rewrite H3, Hmu. split; [done|by intros [= ->]].
Qed.

Lemma start_runnables_inv locked is_ s s' :
  life_inv s → (locked = true → main_holds s = false) → start_runnables locked is_ s = Some s' → life_inv s'.
Proof.
  intros Hinv Hlocked (rs & -> & _ & Hnew)%start_runnables_runs. apply (life_inv_frame s); try done.
  intros Hmh Hl i p Hi. destruct (Hnew _ _ Hi) as [?|[= Hlk _]]; [by eapply Hl|].
  destruct locked; [|done]. rewrite Hlocked in Hmh; done.
Qed.

Lemma exec_inv l s s' : life_inv s → exec l s = Some s' → life_inv s'.
Proof.
  intros Hinv Hl. pose proof Hinv as [H1 H2 H3 H4 H5 H6 H7 H8].
  destruct l; cbn [exec] in Hl; try (by eapply main_step_inv); try (by eapply elector_step_inv).
  - injection Hl as <-. by apply (life_inv_frame s).
  - destruct (draining s); [|done]. destruct (take src s) as [[err s1]|] eqn:Ht; [|done]. injection Hl as <-.
    by eapply take_inv.
  - destruct (lc_main s) eqn:Hm, (lc_shutdown s) eqn:Hsh; try done. unfold guard in Hl.
    destruct (all_ended s) eqn:Ha; [|done]. injection Hl as <-. apply all_ended_locked in Ha.
    split; cbn; rewrite ?Hm; try done; auto.
  - destruct (lc_shutdown s) as [|[]| |] eqn:Hsh; try done. injection Hl as <-.
    split; cbn; try done; destruct (lc_main s) as [| | | | |? []| |]; try done; naive_solver.
  - destruct (lc_sections s g) eqn:Hg, (lc_mu s) eqn:Hmu; try done. by eapply enter_inv.
  - destruct (lc_sections s g) eqn:Hg; try done.
    assert (lc_mu s = Some (Sec g)) as Hmu by by apply H3.
    assert (main_holds s = false) as Hmh by (destruct (main_holds s); [naive_solver|done]).
    eapply start_runnables_inv, Hl; [|done]. split; cbn; try done.
    + change (main_holds _) with (main_holds s). by rewrite Hmh.
    + intros g'. destruct (decide (g' = g)); [done|]. rewrite H3, Hmu. naive_solver.
  - destruct (lc_mu s) eqn:Hmu, (lc_engaged s); try done. eapply start_runnables_inv, Hl; [done|].
    intros _. destruct (main_holds s); [naive_solver|done].
  - by eapply start_runnables_inv, Hl.
  - destruct (lc_runnables s !! i) as [[locked []]|] eqn:Hi; try done. injection Hl as <-.
    apply (life_inv_frame s); try done. intros _ Hlk j p. cbn. rewrite lookup_insert_Some.
    intros [(-> & [= -> <-])|[_ Hj]]; [|by eapply Hlk]. by specialize (Hlk _ _ Hi).
  - unfold guard in Hl. destruct (stopping s); [|done]. injection Hl as <-. by apply (life_inv_frame s).
Qed.

Lemma lives_inv grace lock s : lives grace lock s → life_inv s.
Proof.
  refine (rtc_ind_r (λ s, life_inv s) _ _ _ _). - apply life_inv_started.
  - intros s1 s2 _ [l Hl] IH. by eapply exec_inv.
Qed.

(** ** Stopping *)

(** No leader elector failed to be made. *)
Definition elector_made s : Prop :=
  match lc_elector s with FailedSending _ | Failed => False | _ => True end.

(** The calling goroutine and the recorder are where they were, and an elector that
    could not be made is not made. *)
Definition elsewhere s s' : Prop :=
  lc_main s' = lc_main s ∧ lc_recorder_stopped s' = lc_recorder_stopped s ∧ (¬ elector_made s → ¬ elector_made s').

Lemma take_elsewhere src s err s' : take src s = Some (err, s') → elsewhere s s'.
Proof.
  intros Ht. destruct (take_frame _ _ _ _ Ht) as (Hm & _ & _ & _ & _ & _ & Hr & _).
  split; [done|split; [done|]]. unfold take, elector_made in *. destruct src as [i| |].
  - destruct (lc_runnables s !! i) as [[? []]|]; by simplify_eq/=.
  - destruct (lc_server_errs s); by simplify_eq/=.
  - destruct (lc_elector s); simplify_eq/=; tauto.
Qed.

Lemma start_elsewhere locked is_ s s' : start_runnables locked is_ s = Some s' → elsewhere s s'.
Proof. by intros (rs & -> & _)%start_runnables_runs. Qed.

Lemma elector_elsewhere l s s' : elector_step l s = Some s' → elsewhere s s'.
Proof.
  unfold elector_step, guard, elsewhere, elector_made.
  destruct (lc_elector s) eqn:He, l; try discriminate; intros Hl; repeat (case_match; try discriminate);
    injection Hl as <-; cbn; rewrite ?He; tauto.
Qed.

(** A step is one of the calling goroutine or leaves that where it is. *)
Lemma exec_cases l s s' : exec l s = Some s' → main_step l s = Some s' ∨ elsewhere s s'.
Proof.
  intros Hl. destruct l; cbn [exec] in Hl; try (by left); right; try (by eapply elector_elsewhere).
  - by injection Hl as <-.
  - destruct (draining s); [|done]. destruct (take src s) as [[err s1]|] eqn:Ht; [|done]. injection Hl as <-.
    by eapply take_elsewhere.
  - destruct (lc_main s), (lc_shutdown s); try done. unfold guard in Hl. destruct (all_ended s); by simplify_eq.
  - destruct (lc_shutdown s) as [|[]| |]; by simplify_eq.
  - destruct (lc_sections s g), (lc_mu s); try done. by apply start_elsewhere in Hl.
  - destruct (lc_sections s g); try done. by apply start_elsewhere in Hl.
  - destruct (lc_mu s), (lc_engaged s); try done. by eapply start_elsewhere.
  - by eapply start_elsewhere.
  - destruct (lc_runnables s !! i) as [[? []]|]; by simplify_eq.
  - unfold guard in Hl. destruct (stopping s); by simplify_eq.
Qed.

(** C29: The recorder is stopped when the runnables that were started under the mutex
    have ended and no elector works, or when the grace period is over. *)
Theorem recorder_stopped_last grace lock s l s' :
  lives grace lock s → exec l s = Some s' → lc_recorder_stopped s = false → lc_recorder_stopped s' = true →
  ∃ err stopErr, lc_main s = StoppingRecorder err stopErr ∧ lc_main s' = Completing err stopErr ∧ lc_mu s = Some Main
    ∧ match stopErr with
      | None => locked_ended s ∧ elector_quiet s
      | Some e => e = err_grace_period ∧ lc_shutdown s = DeadlineExceeded
      end.
Proof.
  intros Hinv%lives_inv Hl Hr Hr'. destruct (exec_cases _ _ _ Hl) as [Hmain|(_ & Hrec & _)]; [|congruence].
  unfold main_step, guard in Hmain. destruct l; try done; destruct (lc_main s) as [|err|err|err|err|err stopErr|err stopErr|] eqn:Hm;
    try discriminate.
  - case_match; simplify_eq/=. congruence.
  - destruct (take src s) as [[err s1]|] eqn:Ht; [|done]. injection Hmain as <-.
    destruct (take_frame _ _ _ _ Ht) as (_ & _ & _ & _ & _ & _ & Hrec & _).
    cbn in Hr'; congruence.
  - injection Hmain as <-. case_decide; cbn in Hr'; congruence.
  - case_match; simplify_eq/=. congruence.
  - repeat (case_match; try discriminate); simplify_eq/=; congruence.
  - case_match; simplify_eq/=; congruence.
  - injection Hmain as <-. exists err, stopErr. split_and!; [done|done|apply Hinv; unfold main_holds; by rewrite Hm|].
    pose proof (li_elector _ Hinv) as Hel. rewrite Hm in Hel. destruct stopErr as [e|]; [naive_solver|].
    destruct Hel as [Hsh Hq]. split; [|done]. apply Hinv; [unfold main_holds; by rewrite Hm|done].
  - injection Hmain as <-. unfold cancel_shutdown in Hr'. destruct (lc_shutdown s); cbn in Hr'; congruence.
Qed.

(** A step of the elector's own does not help a stop that waits for it. *)
Lemma waiting_for_failed l s s' err :
  lc_main s = WaitingForElector err → ¬ elector_made s → exec l s = Some s' →
  lc_main s' = WaitingForElector err ∧ ¬ elector_made s'.
Proof.
  intros Hm He Hl. destruct (exec_cases _ _ _ Hl) as [Hmain|(Hm' & _ & Hmade)]; [|split; [congruence|by apply Hmade]].
  unfold elector_made in He. unfold main_step in Hmain. rewrite Hm in Hmain.
  destruct l; try discriminate. destruct (lc_elector s); try discriminate; by destruct He.
Qed.

(** Once the elector could not be made, a stop that waits for it waits forever. *)
Theorem failed_elector_blocks_stop s err s' :
  lc_main s = WaitingForElector err → ¬ elector_made s → rtc life_step s s' → lc_main s' = WaitingForElector err.
Proof.
  intros Hm He Hr. revert Hm He. induction Hr as [|s s1 s2 [l Hl] _ IH]; intros Hm He; [done|].
  destruct (waiting_for_failed _ _ _ _ Hm He Hl). by apply IH.
Qed.

(** ** A stop can always be completed *)

(** What the [select] of [Start] returned, once it did. *)
Definition select_result s : option (option error) :=
  match lc_main s with
  | Selecting => None
  | Engaging err | Locking err | WaitingForRunnables err | WaitingForElector err
  | StoppingRecorder err _ | Completing err _ | Returned_ err _ => Some err
  end.

Definition can_return (err : option error) s : Prop :=
  ∃ s' stopErr, rtc life_step s s' ∧ lc_main s' = Returned_ err stopErr.

Lemma can_return_steps err s s' : rtc life_step s s' → can_return err s' → can_return err s.
Proof. intros Hr (s2 & stopErr & Hr' & Hm). exists s2, stopErr. split; [by etrans|done]. Qed.

Lemma can_return_step l err s s' : exec l s = Some s' → can_return err s' → can_return err s.
Proof. intros Hl. apply can_return_steps, rtc_once. by exists l. Qed.

Lemma completing_returns err stopErr s : lc_main s = Completing err stopErr → can_return err s.
Proof.
  intros Hm. apply (can_return_step Complete _ _ (set_main (Returned_ err stopErr) (cancel_shutdown s))).
  - cbn. unfold main_step. by rewrite Hm.
  - by eexists _, stopErr.
Qed.

Lemma stopping_recorder_returns err stopErr s : lc_main s = StoppingRecorder err stopErr → can_return err s.
Proof.
  intros Hm. apply (can_return_step StopRecorder _ _ (set_main (Completing err stopErr) (set_mu None (set_recorder_stopped s)))).
  - cbn. unfold main_step. by rewrite Hm.
  - by eapply completing_returns.
Qed.

(** The elector ends: it is made, its [Run] returns, its error is drained. *)
Lemma waiting_for_elector_returns err s :
  lc_main s = WaitingForElector err → has_cancel s = true → lc_cancelled s = true → elector_made s → can_return err s.
Proof.
  intros Hm Hh Hc Hmade.
  assert (draining s = true) as Hd by (unfold draining; by rewrite Hm).
  assert (∀ s', lc_main s' = WaitingForElector err → lc_elector s' = Stopped → can_return err s') as Hstopped.
  { intros s' Hm' He'. apply (can_return_step ElectorWaitedFor _ _ (set_main (StoppingRecorder err None) s')).
    - cbn. unfold main_step. by rewrite Hm', He'.
    - by eapply stopping_recorder_returns. }
  set (ls := match lc_elector s with
             | CancelSet => [NewElector None; RunEnds; Drain FromElector; CloseStopped]
             | Electing => [RunEnds; Drain FromElector; CloseStopped]
             | LostSending => [Drain FromElector; CloseStopped]
             | AwaitingCancel => [CloseStopped]
             | _ => []
             end).
  assert (∃ s', schedule ls s = Some s' ∧ lc_main s' = WaitingForElector err ∧ lc_elector s' = Stopped)
    as (s' & Hs & Hm' & He').
  { destruct s as [m cd g sh en mu rs se es e c rec]. cbn in *. subst m c ls. unfold has_cancel, elector_made in *. cbn in *.
    destruct e; try done; eexists; (split; [reflexivity|done]). }
  eapply can_return_steps; [by eapply schedule_steps|by apply Hstopped].
Qed.

(** Runnables return what they like, and their errors are drained. *)
Lemma runnables_can_end s :
  draining s = true →
  ∃ rs, rtc life_step s (set_runs rs s) ∧ map_Forall (λ _ r, r.2 = Ended) rs.
Proof.
  intros Hd.
  assert (∀ n rs, size (filter (λ ir, ir.2.2 ≠ Ended) rs) = n →
            ∃ rs', rtc life_step (set_runs rs s) (set_runs rs' s) ∧ map_Forall (λ _ r, r.2 = Ended) rs') as Hgen.
  { intros n. induction n as [|n IH]; intros rs Hn.
    - exists rs. split; [done|]. apply map_size_empty_inv in Hn. intros i r Hi.
      destruct (decide (r.2 = Ended)) as [|Hne]; [done|]. destruct (map_filter_empty_not_lookup _ rs i r Hn Hne Hi).
    - destruct (map_choose (filter (λ ir, ir.2.2 ≠ Ended) rs)) as (i & [locked p] & Hi).
      { intros He. by rewrite He, map_size_empty in Hn. }
      pose proof Hi as [Hri Hp]%map_lookup_filter_Some. cbn in Hp.
      assert (size (filter (λ ir, ir.2.2 ≠ Ended) (<[i:=(locked, Ended)]> rs)) = n) as Hn'.
      { rewrite map_filter_insert_False by (cbn; tauto). rewrite map_filter_delete, map_size_delete_Some; [lia|by eexists]. }
      destruct (IH _ Hn') as (rs' & Hr & Hall). exists rs'. split; [|done]. etrans; [|exact Hr].
      destruct p as [|e|]; [| |done].
      + apply rtc_once. exists (Return_ i None). cbn. by rewrite Hri.
      + apply rtc_once. exists (Drain (FromRunnable i)). cbn.
        change (draining (set_runs rs s)) with (draining s). by rewrite Hd, Hri. }
  destruct (Hgen _ (lc_runnables s) eq_refl) as (rs & Hr & Hall). exists rs. split; [|done].
  by destruct s.
Qed.

Lemma waiting_for_runnables_returns err s :
  life_inv s → lc_main s = WaitingForRunnables err → elector_made s → can_return err s.
Proof.
  intros Hinv Hm Hmade.
  assert (∀ s', lc_main s' = WaitingForRunnables err → lc_shutdown s' = Canceled → lc_elector s' = lc_elector s →
            can_return err s') as Hcanceled.
  { intros s' Hm' Hsh He.
    assert (exec RunnablesWaitedFor s'
            = if has_cancel s' then Some (set_main (WaitingForElector err) (set_cancelled s'))
              else Some (set_main (StoppingRecorder err None) s')) as Hl
      by (cbn; unfold main_step; by rewrite Hm', Hsh).
    destruct (has_cancel s') eqn:Hc; eapply can_return_step; try exact Hl.
    - apply waiting_for_elector_returns; try done. unfold elector_made in *. cbn. by rewrite He.
    - by eapply stopping_recorder_returns. }
  pose proof (li_shutdown _ Hinv) as Hsh. rewrite Hm in Hsh.
  destruct (lc_shutdown s) as [|deadline| |] eqn:Hshut; [done| |by apply Hcanceled|].
  - destruct (runnables_can_end s) as (rs & Hr & Hall); [unfold draining; by rewrite Hm|].
    eapply can_return_steps; [exact Hr|].
    apply (can_return_step WaitGroupDone _ _ (set_shutdown Canceled (set_runs rs s))); [|by apply Hcanceled].
    cbn. rewrite Hm, Hshut. unfold guard, all_ended. cbn. by rewrite bool_decide_eq_true_2.
  - apply (can_return_step RunnablesWaitedFor _ _ (set_main (StoppingRecorder err (Some err_grace_period)) s)).
    + cbn. unfold main_step. by rewrite Hm, Hshut.
    + by eapply stopping_recorder_returns.
Qed.

(** Whoever holds the mutex gives it back. *)
Lemma locking_returns err s : life_inv s → lc_main s = Locking err → elector_made s → can_return err s.
Proof.
  intros Hinv Hm Hmade.
  assert (∀ s', life_inv s' → lc_main s' = Locking err → lc_mu s' = None → elector_made s' → can_return err s') as Hfree.
  { intros s' Hinv' Hm' Hmu Hmade'.
    assert (exec Lock s' = Some (set_main (WaitingForRunnables err) (set_mu (Some Main) (set_engaged s')))) as Hl.
    { cbn. unfold main_step. rewrite Hm'. unfold guard. by rewrite bool_decide_eq_true_2. }
    eapply can_return_step; [exact Hl|]. apply waiting_for_runnables_returns; [by eapply exec_inv|done|done]. }
  destruct (lc_mu s) as [[|g]|] eqn:Hmu; [|eapply (can_return_step (Leave g []))|by apply Hfree].
  - apply (li_main _ Hinv) in Hmu. unfold main_holds in Hmu. by rewrite Hm in Hmu.
  - cbn. apply (li_section _ Hinv) in Hmu. rewrite Hmu. unfold start_runnables. case_decide as Hd; [reflexivity|].
    destruct Hd. split; constructor.
  - apply Hfree; try done. eapply (exec_inv (Leave g [])); [exact Hinv|].
    cbn. apply (li_section _ Hinv) in Hmu. rewrite Hmu. unfold start_runnables. case_decide as Hd; [reflexivity|].
    destruct Hd. split; constructor.
Qed.

(** C11: From every state in which [Start] has begun to stop, it can come to its
    return, with what its [select] returned, unless the elector could not be made.
    So no goroutine waits for one that waits for it. *)
Theorem stop_can_complete grace lock s err :
  lives grace lock s → select_result s = Some err → elector_made s →
  ∃ s' stopErr, rtc life_step s s' ∧ lc_main s' = Returned_ err stopErr.
Proof.
  intros Hinv%lives_inv Hsel Hmade. change (can_return err s). unfold select_result in Hsel.
  destruct (lc_main s) as [|e|e|e|e|e stopErr|e stopErr|e stopErr] eqn:Hm; [done|injection Hsel as ->..].
  - assert (exec CheckGrace s = Some (if decide (lc_grace s = 0)%Z then set_main (Completing err None) s
                                     else set_main (Locking err) s)) as Hl by (cbn; unfold main_step; by rewrite Hm).
    eapply can_return_step; [exact Hl|]. pose proof (exec_inv _ _ _ Hinv Hl) as Hinv'. case_decide.
    + by eapply completing_returns.
    + by apply locking_returns.
  - by apply locking_returns.
  - by apply waiting_for_runnables_returns.
  - pose proof (li_elector _ Hinv) as Hel. rewrite Hm in Hel. destruct Hel as (_ & Hh & Hc).
    by apply waiting_for_elector_returns.
  - by eapply stopping_recorder_returns.
  - by eapply completing_returns.
  - by exists s, stopErr.
Qed.

(** ** Two schedules *)

(** From the [select] to [waitForRunnableToEnd]'s end, with a grace period and no
    runnable started. *)
Lemma stop_without_runnables err s :
  lc_grace s ≠ 0%Z → lc_mu s = None → lc_runnables s = ∅ →
  schedule [CheckGrace; Lock; WaitGroupDone; RunnablesWaitedFor] (engage err s)
  = let s' := set_shutdown Canceled (set_main (WaitingForRunnables err) (set_mu (Some Main) (set_engaged (engage err s)))) in
    if has_cancel s then Some (set_main (WaitingForElector err) (set_cancelled s'))
    else Some (set_main (StoppingRecorder err None) s').
Proof.
  intros Hg Hmu Hr.
  assert (exec CheckGrace (engage err s) = Some (set_main (Locking err) (engage err s))) as Hl
    by (cbn; unfold main_step; cbn; by rewrite decide_False).
  rewrite (schedule_cons _ _ _ _ Hl). unfold schedule. cbn. rewrite Hmu. cbn.
  unfold all_ended. cbn. rewrite Hr. rewrite bool_decide_eq_true_2 by apply map_Forall_empty. cbn.
  unfold main_step. cbn. change (has_cancel (set_shutdown _ _)) with (has_cancel s). by destruct (has_cancel s).
Qed.

(** C35: With a grace period, a [NewLeaderElector] that fails, as it does for durations that do
    not fit, makes [Start] hang: it never returns the error, though no runnable is left. *)
Theorem elector_error_hangs_Start grace err :
  grace ≠ 0%Z →
  ∃ s, lives grace true s ∧ select_result s = Some (Some err) ∧ lc_runnables s = ∅
    ∧ ∀ s', rtc life_step s s' → ¬ ∃ e stopErr, lc_main s' = Returned_ e stopErr.
Proof.
  intros Hg.
  set (s1 := set_elector Failed (started grace true)).
  assert (schedule ([SetCancel; NewElector (Some err); SelectErr FromElector] ++ [CheckGrace; Lock; WaitGroupDone; RunnablesWaitedFor])
            (started grace true) = schedule [CheckGrace; Lock; WaitGroupDone; RunnablesWaitedFor] (engage (Some err) s1)) as Hs by reflexivity.
  rewrite stop_without_runnables in Hs by done. cbn zeta in Hs. change (has_cancel s1) with true in Hs. cbn match in Hs.
  match type of Hs with _ = Some ?s' => set (s := s') in Hs end.
  assert (lc_main s = WaitingForElector (Some err)) as Hm by reflexivity.
  assert (lc_elector s = Failed ∧ lc_runnables s = ∅) as [He Hr]
    by done.
  exists s. split_and!; [by eapply schedule_steps|unfold select_result; by rewrite Hm|done|].
  intros s' Hr' (e & stopErr & Hm'). rewrite (failed_elector_blocks_stop s (Some err) s') in Hm'; [done|done| |done].
  unfold elector_made. rewrite He. tauto.
Qed.

(** A goroutine that starts runnables and comes late to the mutex starts them
    when [Start] has returned: it does not look at [stopProcedureEngaged]. *)
Theorem runnable_started_after_return grace lock i :
  ∃ s s', lives grace lock s ∧ lc_main s = Returned_ None None ∧ life_step s s' ∧ lc_runnables s' !! i = Some (true, Running).
Proof.
  assert (∃ s, lives grace lock s ∧ lc_main s = Returned_ None None ∧ lc_mu s = None ∧ lc_runnables s = ∅
               ∧ lc_sections s NonLeaderElection = Before) as (s & Hs & Hm & Hmu & Hr & Hsec).
  { set (s0 := set_ctx_done (started grace lock)).
    assert (schedule [CtxDone; SelectCtx] (started grace lock) = Some (engage None s0)) as Hs by reflexivity.
    apply schedule_steps in Hs. destruct (decide (grace = 0)%Z) as [Hg|Hg].
    - exists (set_main (Returned_ None None) (cancel_shutdown (set_main (Completing None None) (engage None s0)))).
      split; [|done]. eapply (transitivity (R := rtc life_step)); [exact Hs|]. apply (rtc_l _ _ (set_main (Completing None None) (engage None s0))); [exists CheckGrace|by apply rtc_once; exists Complete].
      cbn. unfold main_step. cbn. by rewrite decide_True.
    - assert (has_cancel s0 = false) as Hc by by destruct lock.
      pose proof (stop_without_runnables None s0 Hg eq_refl eq_refl) as Hs'. rewrite Hc in Hs'. cbn zeta match in Hs'.
      apply schedule_steps in Hs'. match type of Hs' with rtc _ _ ?s' => set (s1 := s') in Hs' end.
      exists (set_main (Returned_ None None) (set_main (Completing None None) (set_mu None (set_recorder_stopped s1)))).
      split; [|done].
      eapply (transitivity (R := rtc life_step)); [exact Hs|]. eapply (transitivity (R := rtc life_step)); [exact Hs'|].
      by apply (schedule_steps [StopRecorder; Complete]). }
  assert (∃ s', exec (Enter NonLeaderElection [i]) s = Some s' ∧ lc_runnables s' !! i = Some (true, Running))
    as (s' & Hl & Hi).
  { cbn. rewrite Hsec, Hmu. unfold start_runnables. cbn. rewrite Hr. rewrite decide_True.
    - eexists. split; [reflexivity|]. cbn. apply lookup_insert_eq.
    - split; [apply NoDup_singleton|by repeat constructor]. }
  exists s, s'. split_and!; [done|done|by eexists|done].
Qed.

(** A manager with a resource lock and a grace period, whose elector works when its
    context is done, stops and returns nil. *)
Definition elected_stop : list Step :=
  [SetCancel; NewElector None; Lead; Enter NonLeaderElection [0]; Leave NonLeaderElection [1]; CtxDone; SelectCtx;
   Return_ 0 None; CheckGrace; Enter LeaderElection [2]; Leave LeaderElection []; Lock; Return_ 1 (Some (ErrorString "late"));
   Drain (FromRunnable 1); Return_ 2 None; WaitGroupDone; RunnablesWaitedFor; RunEnds; Drain FromElector; CloseStopped;
   ElectorWaitedFor].

Definition elected_stopped : Life := default (started 30 true) (schedule elected_stop (started 30 true)).

Lemma elected_stopped_lives : lives 30 true elected_stopped.
Proof. eapply (schedule_steps elected_stop). by vm_compute. Qed.

Lemma recorder_stopped_last_witness :
  ∃ s', exec StopRecorder elected_stopped = Some s' ∧ locked_ended elected_stopped ∧ elector_quiet elected_stopped.
Proof.
  destruct (exec StopRecorder elected_stopped) as [s'|] eqn:Hl; [|by vm_compute in Hl]. exists s'. split; [done|].
  destruct (recorder_stopped_last 30 true elected_stopped StopRecorder s' elected_stopped_lives Hl) as (err & stopErr & Hm & _ & _ & H).
  - by vm_compute.
  - vm_compute in Hl. by simplify_eq/=.
  - replace stopErr with (@None error) in H; [done|].
    assert (lc_main elected_stopped = StoppingRecorder None None) as Hm' by by vm_compute.
    rewrite Hm' in Hm. by injection Hm.
Defined.

Lemma stop_can_complete_witness :
  ∃ s' stopErr, rtc life_step elected_stopped s' ∧ lc_main s' = Returned_ None stopErr.
Proof. apply (stop_can_complete 30 true elected_stopped None elected_stopped_lives); by vm_compute. Defined.

Lemma elector_error_hangs_Start_witness :
  ∃ s, lives 30 true s ∧ select_result s = Some (Some (ErrorString "leaseDuration must be greater than renewDeadline"))
    ∧ lc_runnables s = ∅ ∧ ∀ s', rtc life_step s s' → ¬ ∃ e stopErr, lc_main s' = Returned_ e stopErr.
Proof. apply (elector_error_hangs_Start 30). done. Defined.
