(* ===== verification/ManagerServers.v ===== *)
(** * The servers of a manager (src/pkg/manager/internal.go)

    What the servers of the metrics and of the health probes serve at which paths:
    [serveMetrics] and [serveHealthProbes] up to the start of the server.  Paths
    that [http.ServeMux] would redirect to a clean one are left out. *)

From Stdlib Require Import Ascii.
From S2P Require Export Manager Healthz.

(** ** [http.ServeMux] *)

Section mux.
Context {H : Type}.
Abbreviation ServeMux := (gmap string H).

(** [Handle]: the empty pattern, and one that is there already, make it panic. *)
Definition Handle (pattern : string) (handler : H) (mux : ServeMux) : outcome ServeMux :=
  if decide (pattern = "") then Panicked "http: invalid pattern"
  else match mux !! pattern with
       | Some _ => Panicked "http: multiple registrations"
       | None => Returned (<[pattern := handler]> mux)
       end.

Definition ends_in_slash (p : string) : bool :=
  match String.get (String.length p - 1) p with Some c => Ascii.eqb c "/"%char | None => false end.

(** The handler of a path: of the longest pattern that is the path or, if it ends in
    a slash, a prefix of it. *)
Fixpoint match_from (mux : ServeMux) (path : string) (n : nat) : option H :=
  match n with
  | 0 => None
  | S n' =>
      let p := String.substring 0 n path in
      if decide (p = path ∨ ends_in_slash p = true)
      then match mux !! p with Some h => Some h | None => match_from mux path n' end
      else match_from mux path n'
  end.
Definition mux_Handler (mux : ServeMux) (path : string) : option H := match_from mux path (String.length path).

Lemma substring_app s t n : n <= String.length s → String.substring 0 n (s +:+ t) = String.substring 0 n s.
Proof.
  revert n. induction s as [|a s IH]; intros [|n] Hn; [by destruct t|cbn in Hn; lia|done|].
  change (String a (String.substring 0 n (s +:+ t)) = String a (String.substring 0 n s)). f_equal. apply IH. cbn in Hn. lia.
Qed.

Lemma match_here (mux : ServeMux) path n h :
  0 < n → mux !! String.substring 0 n path = Some h →
  String.substring 0 n path = path ∨ ends_in_slash (String.substring 0 n path) = true →
  match_from mux path n = Some h.
Proof. intros Hn Hm Hp. destruct n as [|n]; [lia|]. cbn [match_from]. rewrite decide_True by done. by rewrite Hm. Qed.

(** Patterns that are not there are passed over. *)
Lemma match_skip (mux : ServeMux) path n k :
  n <= k → (∀ j, n < j → j <= k → mux !! String.substring 0 j path = None) → match_from mux path k = match_from mux path n.
Proof.
  induction 1 as [|k Hle IH]; [done|]. intros Hnone. cbn [match_from].
  rewrite (Hnone (S k)) by lia. rewrite IH by (intros j ??; apply Hnone; lia). by case_decide.
Qed.

Lemma mux_Handler_exact (mux : ServeMux) path h : path ≠ "" → mux !! path = Some h → mux_Handler mux path = Some h.
Proof.
  intros Hne Hm. apply match_here; [destruct path; [done|cbn; lia]|by rewrite substring_all|left; apply substring_all].
Qed.

Lemma get_app_l s t i : i < String.length s → String.get i (s +:+ t) = String.get i s.
Proof. revert i. induction s as [|a s IH]; intros [|i] Hi; cbn in *; try lia; [done|]. apply IH. lia. Qed.

Lemma ends_in_slash_app s : ends_in_slash (s +:+ "/") = true.
Proof.
  unfold ends_in_slash. rewrite str_app_length. cbn. replace (String.length s + 1 - 1) with (String.length s) by lia.
  induction s as [|a s IH]; [done|exact IH].
Qed.

(** Prefixes. *)
Lemma prefix_self_app s t : String.prefix s (s +:+ t) = true.
Proof.
  induction s as [|a s IH]; [by destruct t|]. rewrite str_app_cons. cbn. by destruct (ascii_dec a a).
Qed.

Lemma prefix_substring j s : String.prefix (String.substring 0 j s) s = true.
Proof.
  revert j. induction s as [|a s IH]; intros [|j]; try done. cbn. destruct (ascii_dec a a); [apply IH|done].
Qed.

Lemma prefix_app_l s t u : String.prefix (s +:+ t) u = true → String.prefix s u = true.
Proof.
  revert u. induction s as [|a s IH]; intros u; [by destruct u|]. rewrite str_app_cons.
  destruct u as [|b u]; [done|]. cbn. destruct (ascii_dec a b); [apply IH|done].
Qed.

Lemma substring_rest s t : String.substring (String.length s) (String.length (s +:+ t) - String.length s) (s +:+ t) = t.
Proof.
  rewrite str_app_length, Nat.add_comm, Nat.add_sub. induction s as [|a s IH]; [apply substring_all|]. rewrite str_app_cons. exact IH.
Qed.

Lemma substring_length j s : j <= String.length s → String.length (String.substring 0 j s) = j.
Proof.
  revert j. induction s as [|a s IH]; intros [|j] Hj; cbn in *; try done; [lia|]. f_equal. apply IH. lia.
Qed.
End mux.

(** ** The servers *)

Section servers.
Context {HttpHandler : Type} `{!MapRange string HttpHandler, !MapRange string Checker}.
Variable Quote : string → string.
Implicit Types cm : Manager HttpHandler Checker.

(** The handler of the registry, one added to the metrics, and [http.StripPrefix] of
    the checks. *)
Inductive ServerHandler :=
  | PromHandler
  | ExtraHandler (h : HttpHandler)
  | StripPrefix (prefix : string) (checks : gmap string Checker).
Abbreviation Mux := (gmap string ServerHandler).

Fixpoint handle_extra (extra : list (string * HttpHandler)) (mux : Mux) : outcome Mux :=
  match extra with
  | [] => Returned mux
  | (path, extraHandler) :: extra => mux ← Handle path (ExtraHandler extraHandler) mux; handle_extra extra mux
  end.

Definition serveMetrics_mux cm : outcome Mux :=
  mux ← Handle defaultMetricsEndpoint PromHandler ∅; handle_extra (map_range (cm_metricsExtraHandlers cm)) mux.

(** One of the two blocks of [serveHealthProbes]. *)
Definition handle_probe (endpoint : string) (checks : option (gmap string Checker)) (mux : Mux) : outcome Mux :=
  match checks with
  | None => Returned mux
  | Some checks =>
      mux ← Handle endpoint (StripPrefix endpoint checks) mux;
      Handle (endpoint +:+ "/") (StripPrefix endpoint checks) mux
  end.

Definition serveHealthProbes_mux (readinessEndpointName livenessEndpointName : string) cm : outcome Mux :=
  mux ← handle_probe readinessEndpointName (cm_readyzHandler cm) ∅;
  handle_probe livenessEndpointName (cm_healthzHandler cm) mux.

(** [http.StripPrefix]: the handler gets what is left of the path. *)
Definition strip_ServeHTTP (prefix : string) (checks : gmap string Checker) (req : HealthRequest) : HealthResponse :=
  if String.prefix prefix (hq_Path req)
  then Healthz.ServeHTTP Quote checks
         (mkHealthRequest (String.substring (String.length prefix) (String.length (hq_Path req) - String.length prefix) (hq_Path req))
            (hq_Query req))
  else http_NotFound.

(** The answer of the server of the health probes. *)
Definition probes_ServeHTTP (mux : Mux) (req : HealthRequest) : option HealthResponse :=
  match mux_Handler mux (hq_Path req) with
  | Some (StripPrefix prefix checks) => Some (strip_ServeHTTP prefix checks req)
  | Some _ => None
  | None => Some http_NotFound
  end.

(** ** The metrics *)

(** Handlers for different paths are added as they are. *)
Lemma handle_extra_spec extra (mux : Mux) :
  NoDup extra.*1 → (∀ p h, (p, h) ∈ extra → p ≠ "" ∧ mux !! p = None) →
  ∃ mux', handle_extra extra mux = Returned mux'
    ∧ ∀ p h, mux' !! p = Some h ↔ mux !! p = Some h ∨ ∃ e, h = ExtraHandler e ∧ (p, e) ∈ extra.
Proof.
  revert mux. induction extra as [|[path e] extra IH]; intros mux Hnd Hnew; cbn.
  - exists mux. split; [done|]. intros p h. split; [by left|]. intros [?|(e & _ & ?%elem_of_nil)]; done.
  - cbn in Hnd. apply NoDup_cons in Hnd as [Hp Hnd]. destruct (Hnew path e ltac:(by left)) as [Hne Hnone].
    unfold Handle. rewrite decide_False, Hnone by done. cbn.
    destruct (IH (<[path := ExtraHandler e]> mux) Hnd) as (mux' & -> & Hmux').
    { intros p h Hin. destruct (Hnew p h ltac:(by right)) as [? ?]. split; [done|]. rewrite lookup_insert_ne; [done|].
      intros <-. apply Hp. by apply (list_elem_of_fmap_2 fst) in Hin. }
    exists mux'. split; [done|]. intros p h. rewrite Hmux', lookup_insert_Some. split.
    + intros [[[<- <-]|[_ ?]]|(e' & -> & Hin)]; [right; exists e; split; [done|by left]|by left|right; exists e'; split; [done|by right]].
    + intros [Hm|(e' & -> & [[= <- <-]|Hin]%elem_of_cons)]; [left; right|left; by left|right; by eexists].
      split; [|done]. intros <-. congruence.
Qed.

(** Whatever was added with [AddMetricsExtraHandler] under paths that are not empty
    is served at its path, next to the metrics; an empty path, which it accepts as
    well, makes the server panic. *)
Theorem extra_metrics_served cm :
  cm_metricsExtraHandlers cm !! defaultMetricsEndpoint = None →
  (∀ path handler, (AddMetricsExtraHandler path handler cm).1 = cm
     ∨ (AddMetricsExtraHandler path handler cm).2 = None
       ∧ cm_metricsExtraHandlers (AddMetricsExtraHandler path handler cm).1 = <[path := handler]> (cm_metricsExtraHandlers cm)
       ∧ cm_metricsExtraHandlers (AddMetricsExtraHandler path handler cm).1 !! defaultMetricsEndpoint = None)
  ∧ (cm_metricsExtraHandlers cm !! "" = None →
       ∃ mux, serveMetrics_mux cm = Returned mux
         ∧ mux_Handler mux defaultMetricsEndpoint = Some PromHandler
         ∧ ∀ path handler, cm_metricsExtraHandlers cm !! path = Some handler →
             mux_Handler mux path = Some (ExtraHandler handler))
  ∧ (is_Some (cm_metricsExtraHandlers cm !! "") → ∃ msg, serveMetrics_mux cm = Panicked msg).
Proof.
  intros Hdef. split_and!.
  - intros path handler. unfold AddMetricsExtraHandler. case_decide as Hp; [by left|].
    destruct (cm_metricsExtraHandlers cm !! path) eqn:Hpath; [by left|right]. split_and!; [done|done|].
    cbn. by rewrite lookup_insert_ne.
  - intros Hempty. unfold serveMetrics_mux. cbn [Handle].
    change (Handle defaultMetricsEndpoint PromHandler ∅) with (Returned ({[ defaultMetricsEndpoint := PromHandler ]} : Mux)).
    cbn [mbind outcome_bind].
    destruct (handle_extra_spec (map_range (cm_metricsExtraHandlers cm)) {[ defaultMetricsEndpoint := PromHandler ]})
      as (mux & -> & Hmux).
    { apply NoDup_map_range_keys. }
    { intros p h Hin%elem_of_map_range. split; [intros ->; congruence|]. apply lookup_singleton_ne. intros <-. congruence. }
    exists mux. split; [done|]. split.
    + apply mux_Handler_exact; [done|]. apply Hmux. left. apply lookup_singleton_eq.
    + intros path handler Hpath. apply mux_Handler_exact; [intros ->; congruence|]. apply Hmux. right.
      exists handler. split; [done|]. by apply elem_of_map_range.
  - intros [h Hh]. unfold serveMetrics_mux.
    change (Handle defaultMetricsEndpoint PromHandler ∅) with (Returned ({[ defaultMetricsEndpoint := PromHandler ]} : Mux)).
    cbn [mbind outcome_bind]. apply elem_of_map_range in Hh. revert Hh.
    generalize (map_range (cm_metricsExtraHandlers cm)) ({[ defaultMetricsEndpoint := PromHandler ]} : Mux).
    induction l as [|[p e] extra IH]; intros mux; [by intros ?%elem_of_nil|]. cbn. intros [[= <- <-]|Hin]%elem_of_cons.
    + by eexists.
    + unfold Handle. case_decide; [by eexists|]. destruct (mux !! p); [by eexists|]. cbn. by apply IH.
Qed.

(** ** The health probes *)

Lemma handle_probe_spec endpoint checks (mux : Mux) :
  endpoint ≠ "" → mux !! endpoint = None → mux !! (endpoint +:+ "/") = None →
  handle_probe endpoint (Some checks) mux
  = Returned (<[endpoint +:+ "/" := StripPrefix endpoint checks]> (<[endpoint := StripPrefix endpoint checks]> mux)).
Proof.
  intros Hne Hm Hms. unfold handle_probe, Handle. rewrite decide_False, Hm by done. cbn.
  assert (endpoint ≠ endpoint +:+ "/") as Hd.
  { intros Heq%(f_equal String.length). rewrite str_app_length in Heq. cbn in Heq. lia. }
  rewrite decide_False by (by destruct endpoint). by rewrite lookup_insert_ne, Hms.
Qed.

Lemma strip_rest prefix rest checks q :
  strip_ServeHTTP prefix checks (mkHealthRequest (prefix +:+ rest) q) = Healthz.ServeHTTP Quote checks (mkHealthRequest rest q).
Proof. unfold strip_ServeHTTP. cbn [hq_Path hq_Query]. by rewrite prefix_self_app, substring_rest. Qed.

Lemma strip_aggregated prefix checks q :
  strip_ServeHTTP prefix checks (mkHealthRequest prefix q) = serveAggregated Quote checks (mkHealthRequest "" q).
Proof. rewrite <- (str_app_nil_r prefix) at 2. by rewrite strip_rest. Qed.

Lemma slash_longer (e : string) : e ≠ e +:+ "/".
Proof. intros Heq%(f_equal String.length). rewrite str_app_length in Heq. cbn in Heq. lia. Qed.

(** With a readiness and a liveness check at different endpoints, each endpoint answers
    with the report of all its checks, and a path below it as the handler answers
    what is left of the path; but a common endpoint makes the server panic. *)
Theorem probes_served r l cm readyz healthz :
  cm_readyzHandler cm = Some readyz → cm_healthzHandler cm = Some healthz →
  r ≠ "" → l ≠ "" → r ≠ l → r ≠ l +:+ "/" → l ≠ r +:+ "/" →
  (∃ mux, serveHealthProbes_mux r l cm = Returned mux
    ∧ (∀ q, probes_ServeHTTP mux (mkHealthRequest r q) = Some (serveAggregated Quote readyz (mkHealthRequest "" q)))
    ∧ (∀ q, probes_ServeHTTP mux (mkHealthRequest l q) = Some (serveAggregated Quote healthz (mkHealthRequest "" q)))
    ∧ (∀ name q, String.prefix l (r +:+ ("/" +:+ name)) = false →
         probes_ServeHTTP mux (mkHealthRequest (r +:+ ("/" +:+ name)) q)
         = Some (Healthz.ServeHTTP Quote readyz (mkHealthRequest ("/" +:+ name) q))))
  ∧ ∃ msg, serveHealthProbes_mux r r cm = Panicked msg.
Proof.
  intros Hr Hl Hrne Hlne Hrl Hrl' Hlr'.
  assert (r +:+ "/" ≠ l +:+ "/") as Hss by (intros Heq; by apply str_app_inv_r in Heq).
  unfold serveHealthProbes_mux. rewrite Hr, Hl, handle_probe_spec by done. cbn [mbind outcome_bind].
  set (mr := <[r +:+ "/" := StripPrefix r readyz]> (<[r := StripPrefix r readyz]> ∅)). split.
  - rewrite handle_probe_spec; [|done|unfold mr; by rewrite !lookup_insert_ne..].
    set (mux := <[l +:+ "/" := _]> _).
    assert (mux !! r = Some (StripPrefix r readyz)) as Hmr.
    { unfold mux, mr. rewrite !lookup_insert_ne by (done || (intros ?; by eapply slash_longer)). apply lookup_insert_eq. }
    assert (mux !! l = Some (StripPrefix l healthz)) as Hml.
    { unfold mux. rewrite lookup_insert_ne by (intros ?; by eapply slash_longer). apply lookup_insert_eq. }
    assert (mux !! (r +:+ "/") = Some (StripPrefix r readyz)) as Hmrs.
    { unfold mux, mr. rewrite !lookup_insert_ne by done. apply lookup_insert_eq. }
    assert (∀ p, p ≠ r → p ≠ r +:+ "/" → p ≠ l → p ≠ l +:+ "/" → mux !! p = None) as Hnone
      by (intros p ????; unfold mux, mr; by rewrite !lookup_insert_ne by done).
    exists mux. split_and!; [done|..].
    + intros q. unfold probes_ServeHTTP. cbn [hq_Path]. rewrite (mux_Handler_exact mux r _ Hrne Hmr). by rewrite strip_aggregated.
    + intros q. unfold probes_ServeHTTP. cbn [hq_Path]. rewrite (mux_Handler_exact mux l _ Hlne Hml). by rewrite strip_aggregated.
    + intros name q Hpre. unfold probes_ServeHTTP. cbn [hq_Path].
      assert (mux_Handler mux (r +:+ ("/" +:+ name)) = Some (StripPrefix r readyz)) as ->; [|by rewrite strip_rest].
      set (path := r +:+ ("/" +:+ name)) in *. set (n := String.length (r +:+ "/")).
      assert (path = (r +:+ "/") +:+ name) as Hpath by by rewrite str_app_assoc.
      assert (String.substring 0 n path = r +:+ "/") as Hn by (rewrite Hpath; apply substring_app_l).
      assert (n <= String.length path) as Hle by (rewrite Hpath, str_app_length; unfold n; lia).
      unfold mux_Handler. rewrite (match_skip mux path n) by
        (done || (intros j Hj Hj'; apply Hnone; intros Heq;
          first [ apply (f_equal String.length) in Heq; rewrite substring_length in Heq by done; unfold n in Hj;
                  rewrite ?str_app_length in *; cbn in *; lia
                | pose proof (prefix_substring j path) as Hp; rewrite Heq in Hp; try apply prefix_app_l in Hp; congruence ])).
      apply match_here; [unfold n; rewrite str_app_length; cbn; lia|by rewrite Hn|right; rewrite Hn; apply ends_in_slash_app].
  - unfold handle_probe, Handle. rewrite decide_False by done.
    assert (mr !! r = Some (StripPrefix r readyz)) as -> by
      (unfold mr; rewrite lookup_insert_ne by (intros ?; by eapply slash_longer); apply lookup_insert_eq).
    by eexists.
Qed.
End servers.

(** ** At a concrete input *)

#[local] Instance probe_range : MapRange string Checker := some_range _ _.

Definition probing : Manager unit Checker :=
  mkManager [] [] [] false false false false ∅ (Some {[ "ping" := Ping ]})
    (Some {[ "db" := (λ _, Some (ErrorString "down")) ]}) [].

(** The codes that the default endpoints answer with. *)
Example probes_answer :
  (λ path, match serveHealthProbes_mux "/readyz" "/healthz" probing with
           | Returned mux => hs_Code <$> probes_ServeHTTP (λ s, s) mux (mkHealthRequest path ∅)
           | Panicked _ => None
           end) <$> ["/readyz"; "/readyz/db"; "/readyz/ping"; "/healthz"; "/healthz/ping"; "/metrics"]
  = [Some 500; Some 500; Some 404; Some 200; Some 200; Some 404]%Z.
Proof. by vm_compute. Qed.
