(* ===== verification/Examples.v ===== *)
(** * The theorems at concrete inputs

    A work queue that keeps the promises of [WorkQueueLaws], and for each
    theorem with hypotheses one concrete input that meets them. *)

From S2P Require Export FakeStore Finalizer Controller Source ManagerOptions Manager.

(** ** A work queue *)

Record SampleQueue := mkSampleQueue {
  sq_queue : list QueueItem;
  sq_dirty : gset QueueItem;
  sq_processing : gset QueueItem;
  sq_failures : gmap QueueItem Z;
  sq_shutdown : bool;
}.

Definition empty_queue : SampleQueue := mkSampleQueue [] ∅ ∅ ∅ false.

Definition sq_add (i : QueueItem) (q : SampleQueue) : SampleQueue :=
  if decide (sq_shutdown q = true ∨ i ∈ sq_dirty q) then q
  else mkSampleQueue
         (if decide (i ∈ sq_processing q) then sq_queue q else sq_queue q ++ [i])
         (sq_dirty q ∪ {[i]}) (sq_processing q) (sq_failures q) (sq_shutdown q).

Definition sq_set_failures (i : QueueItem) (n : Z) (q : SampleQueue) : SampleQueue :=
  mkSampleQueue (sq_queue q) (sq_dirty q) (sq_processing q) (<[i := n]> (sq_failures q)) (sq_shutdown q).

Definition sq_failures_of (i : QueueItem) (q : SampleQueue) : Z := default 0%Z (sq_failures q !! i).

Definition sq_get (q : SampleQueue) : option (option QueueItem * SampleQueue) :=
  match list_find (λ i, i ∉ sq_processing q) (sq_queue q) with
  | Some (n, i) =>
      Some (Some i, mkSampleQueue (delete n (sq_queue q)) (sq_dirty q ∖ {[i]})
                      (sq_processing q ∪ {[i]}) (sq_failures q) (sq_shutdown q))
  | None => if sq_shutdown q then Some (None, q) else None
  end.

Definition sq_done (i : QueueItem) (q : SampleQueue) : SampleQueue :=
  mkSampleQueue (if decide (i ∈ sq_dirty q) then sq_queue q ++ [i] else sq_queue q)
    (sq_dirty q) (sq_processing q ∖ {[i]}) (sq_failures q) (sq_shutdown q).

#[export] Instance sample_WorkQueue : WorkQueue SampleQueue := {
  q_Add := λ r, sq_add (ItemRequest r);
  q_AddAfter := λ r _, sq_add (ItemRequest r);
  q_AddRateLimited := λ r q,
    sq_add (ItemRequest r) (sq_set_failures (ItemRequest r) (sq_failures_of (ItemRequest r) q + 1) q);
  q_Forget := λ i, sq_set_failures i 0;
  q_Done := sq_done;
  q_ShutDown := λ q, mkSampleQueue (sq_queue q) (sq_dirty q) (sq_processing q) (sq_failures q) true;
  q_Get := sq_get;
}.

#[export, program] Instance sample_WorkQueueLaws : WorkQueueLaws SampleQueue := {
  q_processing := sq_processing;
  q_NumRequeues := sq_failures_of;
}.
Next Obligation.
  intros q i q'. cbn. unfold sq_get. destruct (list_find _ _) as [[n j]|] eqn:Hf; [|by destruct (sq_shutdown q)].
  intros [= -> <-]. apply list_find_Some in Hf as (_ & ? & _). done.
Qed.
Next Obligation. intros q q'. cbn. unfold sq_get. repeat case_match; by intros [= <-]. Qed.
Next Obligation.
  assert (Hadd : ∀ i q, sq_processing (sq_add i q) = sq_processing q).
  { intros i q. unfold sq_add. by case_decide. }
  intros c q; destruct c; unfold run_call; cbn; rewrite ?Hadd; done.
Qed.
Next Obligation.
  assert (Hadd : ∀ i j q, sq_failures_of j (sq_add i q) = sq_failures_of j q).
  { intros i j q. unfold sq_add. by case_decide. }
  intros c q i; destruct c; unfold run_call; cbn; rewrite ?Hadd; try done;
    unfold sq_failures_of, sq_set_failures; cbn; case_decide; subst;
    by rewrite ?lookup_insert_eq, ?lookup_insert_ne by done.
Qed.

(** ** Controllerutil *)

Definition sample_deployment : Object := bare_object (Typed "Deployment") deployment_gvk "default" "web".

Lemma SetControllerReference_one_controller_witness :
  GVKForObject sample_deployment sample_scheme = Ok deployment_gvk ∧
  ∃ rs', (@SetControllerReference sample_MetaV1 (RuntimeOwner sample_deployment) sample_pod sample_scheme).1
           = SetOwnerReferences rs' sample_pod
    ∧ filter (λ r, is_controller_ref r = true) rs'
      = [@controller_ref sample_MetaV1 deployment_gvk sample_deployment].
Proof.
  split; [reflexivity|].
  pose proof (@SetControllerReference_one_controller sample_MetaV1 sample_MetaV1_laws
    sample_deployment sample_pod sample_scheme deployment_gvk) as Hth.
  destruct (SetControllerReference _ _ _) as [controlled err].
  destruct Hth as (Hok & _ & Heff).
  - intros i j a b Hi. discriminate Hi.
  - reflexivity.
  - reflexivity.
  - destruct Heff as (rs' & Heq & _ & Hone & _).
    + apply Hok. split; [reflexivity|constructor].
    + exists rs'. split; assumption.
Defined.

(** A mutation that puts a finalizer on the object. *)
Definition ensure_finalizer : MutateFn := λ o, (SetFinalizers ["example.com/cleanup"] o, None).

Definition sample_target : Object := sample_pod.

Definition sample_store : StoreClient (fake_Client (T := sample_tracker) (E := Z) sample_scheme sample_mapper)
    IsNotFound :=
  fake_StoreClient (T := sample_tracker) (E := Z) sample_scheme sample_mapper (Typed "Pod") pod_gvk
    eq_refl eq_refl (λ x obj _ _ _, eq_refl).

Lemma CreateOrUpdate_converges_witness :
  ∃ o w' r,
    CreateOrUpdate IsNotFound (λ a b, bool_decide (a = b))
      (fake_Client (T := sample_tracker) (E := Z) sample_scheme sample_mapper)
      ensure_finalizer sample_target (fake_of stored_pod) = (o, w', r, None)
    ∧ r = OperationResultUpdated.
Proof.
  destruct (@CreateOrUpdate_converges _
    (fake_Client (T := sample_tracker) (E := Z) sample_scheme sample_mapper) IsNotFound sample_store
    (λ a b, bool_decide (a = b)) ensure_finalizer sample_target (fake_of stored_pod))
    as (o & w' & r & Heq & _).
  - split; [reflexivity|]. intros key o. cbn. unfold fs_view, fc_view. cbn. unfold store_of.
    intros [Hk <-]%lookup_singleton_Some.
    destruct key as [ns n]. injection Hk as <- <-. split; [split; reflexivity|]. split; [reflexivity|]. split; [discriminate|].
    apply (ex_intro _ 999%Z). vm_compute. reflexivity.
  - repeat split; discriminate.
  - intros o Hm. exists (SetFinalizers ["example.com/cleanup"] o). repeat split; apply Hm.
  - intros o. by apply bool_decide_eq_true.
  - intros o Ho. injection Ho as <-. reflexivity.
  - exists o, w', r. split; [exact Heq|].
    assert (Hr : (CreateOrUpdate IsNotFound (λ a b, bool_decide (a = b))
      (fake_Client (T := sample_tracker) (E := Z) sample_scheme sample_mapper)
      ensure_finalizer sample_target (fake_of stored_pod)).1.2 = OperationResultUpdated)
      by (vm_compute; reflexivity).
    rewrite Heq in Hr. exact Hr.
Defined.

(** ** Finalizer *)

Definition failing : string → error → error := λ k e, ErrorWrap ("finalizer failed: " +:+ k) e.
Definition first_error (errs : list error) : option error :=
  match errs with [] => None | e :: _ => Some e end.

Lemma Finalize_registers_witness :
  GetDeletionTimestamp sample_pod = None ∧
  ∃ missing : list string, (∀ k, k ∈ missing ↔ is_Some (({[ "a" := λ o w, (o, w, mkFinResult false false, None) ]}
                                     : finalizers unit) !! k) ∧ ContainsFinalizer sample_pod k = false).
Proof.
  split; [reflexivity|].
  destruct (@Finalize_registers unit failing first_error (some_range _ _)
    {[ "a" := λ o w, (o, w, mkFinResult false false, None) ]} sample_pod tt eq_refl eq_refl)
    as (missing & Hin & _).
  exists missing. exact Hin.
Defined.

Definition dying_pod : Object := SetDeletionTimestamp (Some 1%Z) (SetFinalizers ["a"; "b"] sample_pod).
Definition sample_finalizers : finalizers unit :=
  {[ "a" := λ o w, (o, w, mkFinResult false true, None) ]}.

Lemma Finalize_runs_witness :
  GetDeletionTimestamp dying_pod ≠ None ∧
  ∃ obj' w' log res err,
    @Finalize _ failing first_error (some_range _ _) (recorded sample_finalizers) dying_pod (tt, [])
      = (obj', (w', log), res, err)
    ∧ (err = None ↔ ∀ k, (k, false) ∉ log).
Proof.
  split; [discriminate|].
  destruct (@Finalize_runs unit failing first_error (some_range _ _) sample_finalizers dying_pod tt)
    as (obj' & w' & log & res & err & Heq & _ & _ & _ & Herr & _).
  - discriminate.
  - intros k fin Hk. unfold sample_finalizers, finalizers in Hk. apply (lookup_singleton_Some (M := gmap string)) in Hk as [_ <-].
    intros o w. split; reflexivity.
  - intros [|e errs]; split; discriminate || reflexivity.
  - exists obj', w', log, res, err. split; [exact Heq|exact Herr].
Defined.

(** ** Handlers *)

Definition owned_pod : Object :=
  SetOwnerReferences [@controller_ref sample_MetaV1 deployment_gvk sample_deployment] sample_pod.
Definition deployment_owner_handler : EnqueueRequestForOwner :=
  mkEnqueueOwner (Typed "Deployment", deployment_gvk) true (mkGK "apps" "Deployment") (Some sample_mapper).

Lemma EnqueueRequestForOwner_spec_witness :
  eo_mapper deployment_owner_handler = Some sample_mapper ∧
  ∃ reqs : list Request, mkNN "default" "web" ∈ reqs
    ∧ handle (@EnqueueRequestForOwner_EventHandler sample_MetaV1 SampleQueue _ (some_range _ _)
                deployment_owner_handler) (EvCreate (mkCreateEvent (Some owned_pod))) empty_queue
      = Returned (add_all reqs empty_queue).
Proof.
  split; [reflexivity|].
  destruct (@EnqueueRequestForOwner_spec SampleQueue _ sample_MetaV1 (some_range _ _)
    deployment_owner_handler sample_mapper (EvCreate (mkCreateEvent (Some owned_pod))) empty_queue eq_refl)
    as (reqs & _ & Hin & Heq).
  exists reqs. split; [|exact Heq]. apply Hin. apply Exists_cons. left.
  exists [], (@controller_ref sample_MetaV1 deployment_gvk sample_deployment), [], (mkGV "apps" "v1"),
    (ScopeOther "namespace").
  repeat split. constructor.
Defined.

Definition pod_to_node : MapFunc := λ o, Returned [mkNN "" "node-1"].

Lemma EnqueueRequestsFromMapFunc_spec_witness :
  ∃ reqs : list Request, NoDup reqs
    ∧ handle (EnqueueRequestsFromMapFunc pod_to_node)
        (EvUpdate (mkUpdateEvent (Some sample_pod) (Some owned_pod))) empty_queue
      = Returned (add_all reqs empty_queue).
Proof.
  destruct (EnqueueRequestsFromMapFunc_spec pod_to_node
    (EvUpdate (mkUpdateEvent (Some sample_pod) (Some owned_pod))) empty_queue) as (reqs & Hnd & _ & Heq).
  - repeat constructor; eexists; reflexivity.
  - exists reqs. split; [exact Hnd|exact Heq].
Defined.

(** ** Controller *)

Definition sample_controller : Controller (list (@SourceCall unit unit)) unit unit unit unit :=
  mkController "web" 2 tt (λ w, (tt, w)) None (λ _ w, (w, None)) false false 1000 [] tt.
Definition sample_sources : list TracedSource :=
  [mkTraced 0 None (Some None) tt []; mkTraced 1 None None tt []].

Lemma Start_runs_watches_in_order_witness :
  idle sample_controller ∧ c_startWatches sample_controller = [] ∧
  ∃ c1 c2, watch_all sample_controller sample_sources [] = Some (c1, [])
    ∧ Start c1 [] = StartServing c2
        [CallStart 0 tt (Some tt) []; CallStart 1 tt (Some tt) []; CallWait 0 1000] 2.
Proof.
  assert (Hidle : idle sample_controller) by (split; [|split]; reflexivity).
  split; [exact Hidle|]. split; [reflexivity|].
  destruct (Start_runs_watches_in_order sample_controller sample_sources [] tt Hidle) as (c1 & c2 & Hw & Hs & _).
  - reflexivity.
  - reflexivity.
  - discriminate.
  - exists c1, c2. split; [exact Hw|]. rewrite Hs. reflexivity.
Defined.

Lemma second_Start_blocks_the_controller_witness :
  ∃ c' c'', Start sample_controller [] = StartServing c' [] 2
    ∧ Start c' [] = StartReturned c'' [] err_started_twice
    ∧ (∀ w, Start c'' w = StartBlocked).
Proof.

  destruct (second_Start_blocks_the_controller sample_controller
    (set_setup (Some tt) false true [] sample_controller) [] [] 2 eq_refl) as (c'' & Hs & Hb & _).
  exists (set_setup (Some tt) false true [] sample_controller), c''.
  split; [reflexivity|]. split; [exact Hs|exact Hb].
Defined.

Definition sample_request : Request := mkNN "default" "web".
Definition failing_reconciler : Request → unit → unit * ReconcileResult * option error :=
  λ _ w, (w, mkResult false 5, Some (ErrorString "boom")).

Lemma process_request_protocol_witness :
  let s := mkWork tt empty_queue (mkMetrics 0 0 0 0 0 0 2 0) in
  failing_reconciler sample_request tt = (tt, mkResult false 5, Some (ErrorString "boom")) ∧
  q_NumRequeues (ItemRequest sample_request)
    (ws_queue (process_item failing_reconciler (ItemRequest sample_request) s)) = 1%Z.
Proof.
  intros s. split; [reflexivity|].
  destruct (process_request_protocol failing_reconciler sample_request s tt (mkResult false 5)
    (Some (ErrorString "boom")) eq_refl) as (_ & _ & Hn & _).
  rewrite Hn. reflexivity.
Defined.

Lemma no_concurrent_reconciles_witness :
  let q := q_Add sample_request empty_queue in
  let q' := mkSampleQueue [] ∅ {[ItemRequest sample_request]} ∅ false in
  rtc workers_step (mkWorkers q (replicate 2 Idle))
    (mkWorkers q' [Reconciling (ItemRequest sample_request); Idle])
  ∧ 0%nat = 0%nat ∧ ItemRequest sample_request ∈ q_processing q'.
Proof.
  intros q q'.
  assert (Hsteps : rtc workers_step (mkWorkers q (replicate 2 Idle))
    (mkWorkers q' [Reconciling (ItemRequest sample_request); Idle])).
  { eapply rtc_l; [|apply rtc_refl].
    apply (step_Get (mkWorkers q (replicate 2 Idle)) 0 (ItemRequest sample_request) q'); reflexivity. }
  split; [exact Hsteps|].
  apply (no_concurrent_reconciles 2 q _ 0 0 (Reconciling (ItemRequest sample_request))
           (Reconciling (ItemRequest sample_request)) (ItemRequest sample_request) Hsteps); reflexivity.
Defined.

(** ** Source *)




(** ** Manager options *)

Definition sample_ManagerOptions : ManagerOptions unit unit unit unit unit unit unit :=
  mkManagerOptions None None None false "" "" "id" (Some 1%Z) None None "" "" "" "" "" 0 "" "" None None
    (mkControllerConfigurationSpec ∅ None) None None None None None.
Definition sample_config (le : option LeaderElectionConfiguration) : ControllerManagerConfigurationSpec :=
  mkConfigSpec None le "ns" (Some 5%Z) None ":8080" "" "" "" (Some 9443%Z) "" "".
Definition sample_election : LeaderElectionConfiguration :=
  mkLeaderElectionConfiguration (Some true) 7 8 0 "leases" "other-id" "".

Lemma AndFrom_precedence_witness :
  ∃ o1, AndFrom sample_ManagerOptions (λ _, None) (Ok (sample_config (Some sample_election)))
          = Returned (o1, None)
    ∧ mo_LeaderElectionID (setOptionsDefaults tt tt tt tt tt (λ _, tt) tt o1) = "id"
    ∧ mo_RetryPeriod (setOptionsDefaults tt tt tt tt tt (λ _, tt) tt o1) = Some defaultRetryPeriod
    ∧ mo_Port (setOptionsDefaults tt tt tt tt tt (λ _, tt) tt o1) = 9443%Z.
Proof.
  destruct (AndFrom_precedence tt tt tt tt tt (λ _, tt) tt sample_ManagerOptions (λ _, None)
    (sample_config (Some sample_election)) sample_election eq_refl eq_refl)
    as (o1 & Heq & _ & _ & _ & Hid & _ & _ & Hretry & _ & _ & _ & _ & _ & _ & Hport & _).
  exists o1. split; [exact Heq|]. split; [exact Hid|]. split; [exact Hretry|exact Hport].
Defined.

Lemma AndFrom_panics_without_leader_election_witness :
  ∃ msg, AndFrom sample_ManagerOptions (λ _, None) (Ok (sample_config None)) = Panicked msg.
Proof.
  apply (AndFrom_panics_without_leader_election sample_ManagerOptions (λ _, None) (sample_config None)
    eq_refl eq_refl). left. reflexivity.
Defined.

(** ** Manager *)

Definition sample_leader : Runnable := mkRunnable 3 (Some true) false false.

(** A run of a manager with a webhook server, a runnable that needs no leader
    election, and one that does, in which the webhook server goes first. *)
Definition sample_started : Run unit unit :=
  mkRun
    (mkManager [sample_webhook; sample_runnable] [sample_leader] [sample_cluster] true true false false ∅ None None
       [Started sample_webhook; Started sample_cluster; CachesWaitedFor; Started sample_runnable; Elected;
        Started sample_leader])
    Finished Finished.

Lemma sample_run : rtc (ordered_step (λ _, None)) new_run sample_started.
Proof.
  eapply rtc_l; [split; [eapply (run_Add _ _ sample_webhook); [by apply sample_fresh|reflexivity]|by intros [[=] _]]|].
  eapply rtc_l; [split; [eapply (run_Add _ _ sample_runnable); [by apply sample_fresh|reflexivity]|by intros [[=] _]]|].
  eapply rtc_l; [split; [eapply (run_Add _ _ sample_leader); [by apply sample_fresh|reflexivity]|by intros [[=] _]]|].
  eapply rtc_l; [split; [eapply (run_Start _ _ sample_cluster); [reflexivity|by apply sample_fresh|reflexivity]|by intros [[=] _]]|].
  eapply rtc_l; [split; [apply run_nonLE; reflexivity|by intros [_ [=]]]|].
  eapply rtc_l; [split; [apply run_LE; reflexivity|reflexivity]|apply rtc_refl].
Qed.

Lemma sample_run_unordered : rtc (run_step (λ _, None)) new_run sample_started.
Proof. eapply rtc_subrel; [|apply sample_run]. by intros s s' [? _]. Qed.

Lemma manager_start_order_witness :
  needs_election sample_leader
  ∧ Elected ∈ [Started sample_webhook; Started sample_cluster; CachesWaitedFor; Started sample_runnable; Elected].
Proof.
  split; [reflexivity|].
  apply (manager_start_order (λ _, None) sample_started _ sample_leader [] sample_run_unordered);
    reflexivity.
Defined.

Lemma ordered_starts_once_witness :
  NoDup [sample_webhook; sample_cluster; sample_runnable; sample_leader].
Proof. exact (proj1 (ordered_starts_once (λ _, None) sample_started sample_run)). Defined.

Definition late_cluster : Runnable := mkRunnable 4 None true false.

Lemma late_cluster_never_started_witness :
  ∃ cm, Add (λ _, None) late_cluster (rn_cm sample_started) = (cm, None)
    ∧ Started late_cluster ∉ cm_log (rn_cm (mkRun cm Finished Finished)).
Proof.
  eexists. split; [reflexivity|].
  eapply (late_cluster_never_started (λ _, None) sample_started late_cluster).
  - exact sample_run_unordered.
  - reflexivity.
  - apply sample_fresh. reflexivity.
  - apply (bool_decide_eq_false (Started late_cluster ∈ cm_log (rn_cm sample_started))). reflexivity.
  - reflexivity.
  - reflexivity.
  - apply rtc_refl.
Defined.
