(* ===== verification/ControllerSamples.v ===== *)
(** * The end of a controller at a concrete input

    The work queue of Examples keeps ShutDownLaws, and a controller of two workers
    is stopped while one of them reconciles. *)

From S2P Require Export ControllerStop Examples.

(** Items on the queue, and those that are added again when they are done. *)
Definition sq_waiting (q : SampleQueue) : nat :=
  length (sq_queue q) + size (sq_dirty q ∩ sq_processing q).

Lemma sq_add_shut_down i q : sq_shutdown q = true → sq_add i q = q.
Proof. intros Hd. unfold sq_add. rewrite decide_True by (by left). done. Qed.

#[export, program] Instance sample_ShutDownLaws : ShutDownLaws SampleQueue := {
  q_ShuttingDown := sq_shutdown;
  q_waiting := sq_waiting;
}.
Next Obligation.
  assert (Hadd : ∀ i q, sq_shutdown (sq_add i q) = sq_shutdown q) by (intros i q; unfold sq_add; by case_decide).
  intros c q; destruct c; unfold run_call; cbn; rewrite ?Hadd; done.
Qed.
Next Obligation. intros q i q'. cbn. unfold sq_get. repeat case_match; by intros [= _ <-]. Qed.
Next Obligation. intros q q'. cbn. unfold sq_get. repeat case_match; try done; by intros _. Qed.
Next Obligation. intros q Hd. cbn. unfold sq_get. rewrite Hd. destruct (list_find _ _) as [[? ?]|]; by eexists. Qed.
Next Obligation.
  intros c q Hd Hc. destruct c as [r|r d|r|i|i|]; unfold run_call; cbn; rewrite ?sq_add_shut_down by done; try done.
  specialize (Hc i eq_refl). change (i ∈ sq_processing q) in Hc. unfold sq_waiting, sq_done. cbn.
  case_decide as Hi; [|apply Nat.add_le_mono_l, subseteq_size; set_solver]. rewrite length_app. cbn.
  assert (size (sq_dirty q ∩ sq_processing q) = size (sq_dirty q ∩ (sq_processing q ∖ {[i]})) + 1) as ->; [|lia].
  rewrite <- (size_singleton (C := gset QueueItem) i), <- size_union by set_solver. f_equal. apply set_eq. intros j.
  destruct (decide (j = i)); set_solver.
Qed.
Next Obligation.
  intros q i q'. cbn. unfold sq_get. destruct (list_find _ _) as [[n j]|] eqn:Hf; [|by destruct (sq_shutdown q)].
  intros [= -> <-]. apply list_find_Some in Hf as (Hn & Hi & _). unfold sq_waiting. cbn.
  rewrite length_delete by by eexists.
  assert (n < length (sq_queue q)) by by eapply lookup_lt_Some.
  assert (size ((sq_dirty q ∖ {[i]}) ∩ (sq_processing q ∪ {[i]})) <= size (sq_dirty q ∩ sq_processing q))
    by (apply subseteq_size; set_solver).
  lia.
Qed.
Next Obligation. intros q q'. cbn. unfold sq_get. repeat case_match; try done; by intros [= <-]. Qed.

Definition item (name : string) : Request := mkNN "default" name.

Definition one_item : SampleQueue := mkSampleQueue [ItemRequest (item "a")] {[ ItemRequest (item "a") ]} ∅ ∅ false.

(** The queue while the item is reconciled, shut down, and when it was added again
    in between and given back. *)
Definition taken : SampleQueue := mkSampleQueue [] ∅ {[ ItemRequest (item "a") ]} ∅ false.
Definition shut : SampleQueue := mkSampleQueue [] ∅ {[ ItemRequest (item "a") ]} ∅ true.
Definition forgotten : SampleQueue := run_call (CallForget (ItemRequest (item "a"))) shut.
Definition given_back : SampleQueue := run_call (CallDone (ItemRequest (item "a"))) forgotten.

Definition mid_run : ControllerRun (Q := SampleQueue) :=
  mkControllerRun (mkWorkers shut [Reconciling (ItemRequest (item "a")); Idle]) true true false.
Definition end_run : ControllerRun (Q := SampleQueue) := mkControllerRun (mkWorkers given_back [Stopped; Stopped]) true true true.

Lemma mid_run_reached : ctrl_steps 1 (launched 2 one_item) mid_run.
Proof.
  eapply (ctrl_move 0); [reflexivity|apply (move_Get _ (ItemRequest (item "a")) taken); by vm_compute|].
  eapply (ctrl_l false); [apply ctrl_ctx_done|].
  eapply (ctrl_l false); [by apply ctrl_shut_down|]. apply ctrl_refl.
Qed.

Lemma end_run_reached : ctrl_steps 5 mid_run end_run.
Proof.
  eapply (ctrl_move 1); [reflexivity|apply (move_Get_shutdown _ shut); by vm_compute|].
  eapply (ctrl_move 0); [reflexivity|apply (move_reconciled _ _ (mkResult false 0, None))|].
  eapply (ctrl_move 0); [reflexivity|apply move_call|].
  eapply (ctrl_move 0); [reflexivity|apply move_Done|].
  eapply (ctrl_move 0); [reflexivity|apply (move_Get_shutdown _ given_back); by vm_compute|].
  eapply (ctrl_l false); [apply ctrl_return; [done|by repeat constructor]|]. apply ctrl_refl.
Qed.

Lemma ctrl_steps_app k k' (s1 s2 s3 : ControllerRun (Q := SampleQueue)) :
  ctrl_steps k s1 s2 → ctrl_steps k' s2 s3 → ctrl_steps (k + k') s1 s3.
Proof.
  intros Hs. induction Hs as [s|b k s1 s2 s2' Hstep _ IH]; [done|]. intros Hs'. rewrite <- Nat.add_assoc.
  eapply ctrl_l; [done|by apply IH].
Qed.

Lemma Start_returns_when_workers_are_gone_witness :
  cr_ctx_done end_run = true ∧ Forall (λ st, st = Stopped) (wk_workers (cr_workers end_run))
  ∧ q_processing (wk_queue (cr_workers end_run)) = ∅.
Proof.
  destruct (Start_returns_when_workers_are_gone 2 one_item 6 end_run) as (Hc & _ & Hall & Hp & _);
    [done|done|exact (ctrl_steps_app 1 5 _ _ _ mid_run_reached end_run_reached)|done|]. by repeat split.
Defined.

Lemma workers_drain_and_end_witness :
  5 + total_work (cr_workers end_run) <= total_work (cr_workers mid_run)
  ∧ ((∃ s'', ctrl_step true mid_run s'')
     ∨ total_work (cr_workers mid_run) = 6 * q_waiting (wk_queue (cr_workers mid_run))).
Proof.
  destruct (workers_drain_and_end 2 one_item 1 5 mid_run end_run) as [Hle _];
    [done|done|apply mid_run_reached|done|apply end_run_reached|].
  destruct (workers_drain_and_end 2 one_item 1 0 mid_run mid_run) as [_ [Hs|[Hw _]]];
    [done|done|apply mid_run_reached|done|apply ctrl_refl|by split; [|left]|by split; [|right]].
Defined.
